(* ===== verification/_CoqProject ===== *)
-Q . S2P
Prelude.v
Params.v
Bytes.v
KMemory.v
Kalloc.v
Vm.v
VmCopy.v
VmUser.v
Spinlock.v
Proc.v
Lottery.v
Sys.v
ProcSpec.v
Pipe.v
Bio.v
BioSpec.v
Ide.v
Log.v
LogSpec.v
Tx.v
Fs.v
FsSpec.v
FsFile.v
Files.v
FsDir.v
FsPath.v
File.v
FileSpec.v
Syscall.v
Sysfile.v
Exec.v
ExecSpec.v
ExecLoad.v
ExecRun.v
FdSpec.v
Trap.v
Desc.v
Asm.v
Intr.v
Boot.v
Sh.v
ShRun.v
Grep.v
Ulib.v
Wc.v
Console.v
ConsoleSpec.v
Mp.v
Umalloc.v
Mkfs.v
MkfsSpec.v
MkfsImage.v
MkfsBoot.v
