(* ===== verification/Prelude.v ===== *)
(** * xv6 with a lottery scheduler: a verification library

    The program is the xv6 teaching kernel for the x86, with the round-robin scheduler
    replaced by a lottery, and the user programs that come with it.  The library models it
    as shallow embeddings and proves what makes each part correct.

    ** How the code is modelled

    A routine that reads or writes state is a computation of the monad [M S A], a function
    from the state to [Ok] with a result and a new state, [Panic] when the code calls
    [panic], or [Sleeps] when the caller has to wait for another thread.  A routine without
    state is a function.  The C integers are [Z] with their width written out ([u32], [s32],
    [u16], [u8]), bytes are numbers 0 to 255, arrays and blocks are lists, and an array index
    out of range is written out where the code can meet it.  Names are the source's; where a
    C name is taken a suffix distinguishes it ([match_], [gets_]).

    A handler that sleeps inside is cut where it sleeps: the pipe's and the console's calls
    return what is left to do, [exit], [sched] and [sleep] have a part before and a part
    after [swtch].  Interleavings are then sequences of such parts ([Sys], [Pipe],
    [ConsoleSpec]).

    ** Files

    - [Prelude]: outcomes, the monad and its tactics ([mgo], [mget], [mrun], [wstep]),
      machine integers, list and set lemmas.
    - [Params] (param.h, memlayout.h, mmu.h, fs.h, stat.h): constants and address macros.
      [Bytes]: little-endian fields of blocks.
    - [KMemory] (string.c, x86.h), [Kalloc] (kalloc.c), [Vm] (vm.c): byte memory, the free
      list of pages as it lies in memory, and page tables.  [kalloc] and [kfree] refine a
      stack of pages; [allocuvm] maps fresh zeroed pages or gives everything back;
      [deallocuvm] unmaps exactly the pages between the sizes.  [VmCopy]: whole address
      spaces; [setupkvm] maps the kernel, and [copyuvm] gives a child its own copy of the
      parent's memory or gives everything back.  [VmUser]: bytes at user addresses, and what
      [copyout], [uva2ka] and [clearpteu] do to them.
    - [Spinlock] (spinlock.c): interrupt nesting on one CPU, and mutual exclusion over
      several.
    - [Proc] (proc.c): the process table and every operation on it.  [Lottery]: the draw is
      proportional to the tickets, for one round and over the period of the generator, and a
      total that overflows starves everyone.  [Sys]: the safety of the table over every
      interleaving of several CPUs.  [ProcSpec]: what fork, exit and wait do.
    - [Pipe] (pipe.c): bytes come out as they went in, and no one sleeps for ever, except
      after the one case shown.
    - [Bio], [BioSpec] (bio.c, memide.c): the buffer cache with its LRU list, and what it
      promises: a view of the disk.  [Ide] (ide.c): the disk driver's queue, its commands
      and its interrupt, which do to a buffer what the memory disk does.  [Log], [LogSpec],
      [Tx] (log.c): transactions, their commit, a crash after any number of disk writes, and
      recovery.
    - [Fs], [FsSpec], [FsFile], [Files], [FsDir], [FsPath] (fs.c): blocks, inodes, files,
      directories and paths, over the interface [BlockStore] of [Tx], which the log implements
      ([log_store]); [TxStore] adds the opening and closing of a transaction.
      [writei] changes exactly the bytes it is given, [readi] reads them back, and a
      directory is a finite map.  [namei] finds what the disk's directories determine for a
      path, through the inode cache and its reference counts.
    - [File], [FileSpec] (file.c): the file table; a write is on the disk when it returns.
    - [Syscall] (syscall.c), [Sysfile] (sysfile.c), [Exec] (exec.c), [Trap] (trap.c,
      sysproc.c): system calls from their arguments in user memory on, and traps.
      [FdSpec]: every file system call keeps the reference counts of the open files equal
      to what refers to them, and one that fails leaves descriptors and image as they were.
      [ExecSpec], [ExecLoad], [ExecRun]: [exec] from the path to the first instruction, in
      three steps: the stack with its arguments, the segments, and the whole, which runs
      the program or leaves no trace.
    - [Desc] (mmu.h, vm.c, trap.c): segment, task state and gate descriptors, and what the
      processor does with them: user code enters the kernel only where it may, on the
      process's kernel stack.  [Asm] (swtch.S, trapasm.S, vectors.pl, usys.S): the
      instructions of the context switch, the trap entry and exit and the system call
      stubs; a trap frame holds the interrupted state and resumes it, and a new process
      starts.
    - [Mp] (mp.c, mp.h): the processors and the I/O controller found in the table.  [Intr]
      (lapic.c, ioapic.c, picirq.c): the interrupt controllers, the startup of another
      processor and the clock.  [Boot] (bootmain.c): the loading of the kernel.
    - [Console], [ConsoleSpec] (console.c, kbd.c, kbd.h, uart.c): the screen, the keyboard's
      tables, and the line discipline as a refinement of two queues.
    - [Sh], [ShRun] (sh.c): the parser, with its round trip, and the descriptors of what
      the shell runs.  [Grep] (grep.c), [Ulib] (ulib.c, printf.c), [Wc] (wc.c, cat.c, echo.c,
      ls.c): user programs.  [Umalloc] (umalloc.c): the allocator over its ring of blocks.
    - [Mkfs], [MkfsSpec], [MkfsImage], [MkfsBoot] (mkfs.c): the maker of the file system; its
      image is well formed, and the kernel that starts on it reads the files back.

    ** Fuel

    Loops that are not structural take fuel, computed by the caller from the data: the
    number of pages between two addresses ([page_rounds]), of blocks a transfer touches
    ([rounds]), of entries of a directory, of characters of a line.  The theorems show that
    it suffices: none of them assumes that a loop returned.  Loops that wait for a device
    (the boot loader's and the driver's for the disk, [lapicinit]'s for the delivery,
    [cmostime]'s for a quiet clock) take the number of rounds the caller is ready to wait,
    and the theorems say how long the device may take.

    ** Assumptions

    The theorems on files and on the log take a disk whose reads return what was last
    written, as the memory disk of memide.c does, and a file system that is well formed
    ([geom], [fswf]), with an example that is.  Theorems about a device (the disk
    controller, the clock, the interrupt controllers) state what they take from its
    documentation as hypotheses, each with an instance.  The addresses of the trap vectors
    and the linker's symbols [end] and [data] are parameters.
    [Lottery.lottery_fair_over_period] is about the draws, not about when the processes are
    runnable.  A path is resolved with no other process in the file system, two entries of
    the inode cache free, and every inode on the way linked; [exec] is shown for arguments
    of less than 16 MB each, since a string of more than 32 MB makes [uva2ka] follow a null
    pointer.

    ** Not modelled

    - The start of the processors (bootasm.S, entry.S, entryother.S, initcode.S): the
      switches of processor mode, which the model of [Asm] does not have.  main.c: the
      order in which the initialisation routines run, among them [kvmalloc], which is
      [setupkvm] followed by [switchkvm].
    - The set-up of the serial line's registers ([uartinit]) and [getcallerpcs], a debugging
      aid that walks the stack.
    - usertests.c, stressfs.c, forktest.c, tickettest.c, schedtest.c: tests, which run the
      system calls and print what happened.
    - The programs kill.c, ln.c, mkdir.c, rm.c, zombie.c, init.c and ps.c, which only pass
      their arguments to a system call.
    - defs.h, user.h, types.h: declarations. *)

From Stdlib Require Export ssreflect.
From stdpp Require Export base numbers gmap strings option.
From stdpp Require Export list.

#[global] Open Scope Z_scope.
#[global] Open Scope general_if_scope.

(** ** Outcomes and the kernel monad *)

(** What a call into the kernel can do: return, call [panic] (the machine
    stops), or go to sleep waiting for another thread or an interrupt. *)
Inductive result (A : Type) : Type :=
  | Ok (a : A)
  | Panic (msg : string)
  | Sleeps.
Arguments Ok {A} a.
Arguments Panic {A} msg.
Arguments Sleeps {A}.

(** A computation over kernel state [S]. *)
Definition M (S A : Type) : Type := S → result (A * S).

Section monad.
Context {S : Type}.

#[global] Instance M_ret : MRet (M S) := λ A a s, Ok (a, s).
#[global] Instance M_bind : MBind (M S) := λ A B k m s,
  match m s with
  | Ok (a, s') => k a s'
  | Panic e => Panic e
  | Sleeps => Sleeps
  end.

Definition panic {A} (msg : string) : M S A := λ _, Panic msg.
Definition sleeps {A} : M S A := λ _, Sleeps.
Definition gets {A} (f : S → A) : M S A := λ s, Ok (f s, s).
Definition modify (f : S → S) : M S unit := λ s, Ok (tt, f s).
Definition when (b : bool) (m : M S unit) : M S unit := if b then m else mret tt.

Lemma bind_Ok {A B} (m : M S A) (k : A → M S B) s a s' :
  m s = Ok (a, s') → (m ≫= k) s = k a s'.
Proof. rw /mbind /M_bind => -> //. Qed.

Lemma bind_Panic {A B} (m : M S A) (k : A → M S B) s e :
  m s = Panic e → (m ≫= k) s = Panic e.
Proof. rw /mbind /M_bind => -> //. Qed.

(** Inversion: a bind returns only when both halves do. *)
Lemma bind_inv {A B} (m : M S A) (k : A → M S B) s b s'' :
  (m ≫= k) s = Ok (b, s'') →
  ∃ a s', m s = Ok (a, s') ∧ k a s' = Ok (b, s'').
Proof.
  rw /mbind /M_bind. destruct (m s) as [[a s']| |] eqn:E; naive_solver.
Qed.

Lemma bind_assoc {A B C} (m : M S A) (f : A → M S B) (g : B → M S C) s :
  ((m ≫= f) ≫= g) s = (m ≫= (λ a, f a ≫= g)) s.
Proof. rw /mbind /M_bind. by destruct (m s) as [[a s']| |]. Qed.

Lemma gets_bind {A B} (f : S → A) (k : A → M S B) s : (gets f ≫= k) s = k (f s) s.
Proof. done. Qed.
Lemma modify_bind {B} f (k : unit → M S B) s : (modify f ≫= k) s = k tt (f s).
Proof. done. Qed.
Lemma ret_bind {A B} (a : A) (k : A → M S B) s : (mret a ≫= k) s = k a s.
Proof. done. Qed.

(** Partial-correctness triples, used to chain the operations' lemmas. *)
Definition triple {A} (P : S → Prop) (m : M S A) (Q : A → S → Prop) : Prop :=
  ∀ s, P s → ∃ a s', m s = Ok (a, s') ∧ Q a s'.

Lemma triple_bind {A B} P (m : M S A) Q (k : A → M S B) R :
  triple P m Q → (∀ a, triple (Q a) (k a) R) → triple P (m ≫= k) R.
Proof.
  intros Hm Hk s HP. destruct (Hm s HP) as (a & s' & E & HQ).
  destruct (Hk a s' HQ) as (b & s'' & E' & HR).
  exists b, s''. by rw (bind_Ok _ _ _ _ _ E).
Qed.
End monad.

Arguments triple {S A} P m Q.

(** [lift get put m] runs [m] on one part of a larger state. *)
Definition lift {S T A} (get : S → T) (put : T → S → S) (m : M T A) : M S A := λ s,
  match m (get s) with
  | Ok (a, t) => Ok (a, put t s)
  | Panic e => Panic e
  | Sleeps => Sleeps
  end.

(** ** Weakest liberal preconditions

    [wlp m Q s]: when [m] returns from [s], its result and state satisfy [Q]. *)
Section wlp.
Context {S : Type}.

Definition wlp {A} (m : M S A) (Q : A → S → Prop) (s : S) : Prop :=
  ∀ a s', m s = Ok (a, s') → Q a s'.

Lemma wlp_mono {A} (m : M S A) (P Q : A → S → Prop) s :
  wlp m P s → (∀ a s', P a s' → Q a s') → wlp m Q s.
Proof. intros H HPQ a s' E. by apply HPQ, H. Qed.
Lemma wlp_bind {A B} (m : M S A) (k : A → M S B) Q s :
  wlp m (λ a, wlp (k a) Q) s → wlp (m ≫= k) Q s.
Proof. intros H b s'' (a & s' & E1 & E2)%bind_inv. by apply (H a s'). Qed.
Lemma wlp_ret {A} (a : A) Q s : Q a s → wlp (mret a) Q s.
Proof. intros H b s' [= <- <-]. done. Qed.
Lemma wlp_gets {A} (f : S → A) Q s : Q (f s) s → wlp (gets f) Q s.
Proof. intros H b s' [= <- <-]. done. Qed.
Lemma wlp_modify (f : S → S) Q s : Q tt (f s) → wlp (modify f) Q s.
Proof. intros H b s' [= <- <-]. done. Qed.
Lemma wlp_panic {A} msg (Q : A → S → Prop) s : wlp (panic msg) Q s.
Proof. by intros b s'. Qed.
Lemma wlp_sleeps {A} (Q : A → S → Prop) s : wlp sleeps Q s.
Proof. by intros b s'. Qed.
Lemma wlp_when b (m : M S unit) Q s :
  (b = true → wlp m Q s) → (b = false → Q tt s) → wlp (when b m) Q s.
Proof. destruct b; intros H1 H2; [by apply H1|]. by apply wlp_ret, H2. Qed.
End wlp.

(** One step of a [wlp] goal. *)
Ltac wstep :=
  first [ apply wlp_bind | apply wlp_gets | apply wlp_modify | apply wlp_panic | apply wlp_sleeps
        | apply wlp_ret ]; cbn beta.

(** ** Machine integers *)

(** C's [uint], [int], [ushort], [short] and [uchar] on the 32-bit target:
    integers reduced to their width. *)
Definition u32 (x : Z) : Z := x mod 4294967296.
Definition s32 (x : Z) : Z := (x + 2147483648) mod 4294967296 - 2147483648.
Definition u16 (x : Z) : Z := x mod 65536.
Definition s16 (x : Z) : Z := (x + 32768) mod 65536 - 32768.
Definition u8 (x : Z) : Z := x mod 256.

(** The database of constants and casts [clia] unfolds before calling [lia]. *)
Create HintDb xv6c.
#[export] Hint Unfold u32 s32 u16 s16 u8 : xv6c.

Ltac dlia := Z.to_euclidean_division_equations; lia.
Ltac clia := autounfold with xv6c in *; first [lia | dlia].

Lemma u32_small x : 0 ≤ x < 4294967296 → u32 x = x.
Proof. intros. by apply Z.mod_small. Qed.
Lemma s32_small x : -2147483648 ≤ x < 2147483648 → s32 x = x.
Proof. intros. rw /s32 Z.mod_small; lia. Qed.
Lemma u8_small x : 0 ≤ x < 256 → u8 x = x.
Proof. intros. by apply Z.mod_small. Qed.
Lemma u32_range x : 0 ≤ u32 x < 4294967296.
Proof. clia. Qed.
Lemma s32_range x : -2147483648 ≤ s32 x < 2147483648.
Proof. clia. Qed.
Lemma u8_range x : 0 ≤ u8 x < 256.
Proof. clia. Qed.
Lemma u32_u32 x : u32 (u32 x) = u32 x.
Proof. apply u32_small, u32_range. Qed.
Lemma u32_s32 x : u32 (s32 x) = u32 x.
Proof. clia. Qed.
Lemma s32_u32 x : s32 (u32 x) = s32 x.
Proof. clia. Qed.
Lemma u32_add_l x y : u32 (u32 x + y) = u32 (x + y).
Proof. rw /u32 Zplus_mod_idemp_l //. Qed.
Lemma u32_add_r x y : u32 (x + u32 y) = u32 (x + y).
Proof. rw /u32 Zplus_mod_idemp_r //. Qed.
Lemma u32_sub_l x y : u32 (u32 x - y) = u32 (x - y).
Proof. rw /u32 Zminus_mod_idemp_l //. Qed.
Lemma u32_sub_r x y : u32 (x - u32 y) = u32 (x - y).
Proof. rw /u32 Zminus_mod_idemp_r //. Qed.

Create Rewrite HintDb xv6.
#[export] Hint Rewrite u32_u32 u32_s32 s32_u32 u32_add_l u32_add_r u32_sub_l u32_sub_r : xv6.

(** Clearing the low [k] bits rounds down to a multiple of [2^k]. *)
Lemma land_lnot_ones x k :
  0 ≤ k → Z.land x (Z.lnot (Z.ones k)) = x - x mod 2 ^ k.
Proof.
  intros. rw -Z.ldiff_land Z.ldiff_ones_r // Z.shiftl_mul_pow2 // Z.shiftr_div_pow2 //.
  pose proof (Z.div_mod x (2 ^ k)). lia.
Qed.

Lemma land_ones_mod x k : 0 ≤ k → Z.land x (Z.ones k) = x mod 2 ^ k.
Proof. intros. by apply Z.land_ones. Qed.

(** Or-ing values whose bits do not overlap adds them. *)
Lemma lor_disjoint_add x y k :
  0 ≤ k → 0 ≤ y < 2 ^ k → x mod 2 ^ k = 0 → Z.lor x y = x + y.
Proof.
  intros Hk Hy Hx. rw Z.add_nocarry_lor //. apply Z.bits_inj' => i Hi.
  rw Z.land_spec Z.bits_0. destruct (decide (i < k)).
  - rw -(Z.mod_pow2_bits_low x k) // Hx Z.bits_0 //.
  - rw -(Z.mod_small y (2 ^ k)) // (Z.mod_pow2_bits_high y); [lia|by rw andb_false_r].
Qed.

(** ** Sums over lists *)

Fixpoint Zsum {A} (f : A → Z) (l : list A) : Z :=
  match l with
  | [] => 0
  | x :: l => f x + Zsum f l
  end.

Lemma Zsum_app {A} (f : A → Z) l k : Zsum f (l ++ k) = Zsum f l + Zsum f k.
Proof. induction l; simpl; lia. Qed.

Lemma Zsum_nonneg {A} (f : A → Z) l : Forall (λ x, 0 ≤ f x) l → 0 ≤ Zsum f l.
Proof. induction 1; simpl; lia. Qed.

Lemma Zsum_insert {A} (f : A → Z) l i x y :
  l !! i = Some x → Zsum f (<[i:=y]> l) = Zsum f l - f x + f y.
Proof.
  revert i. induction l as [|z l IH] => i; [done|].
  destruct i; simpl; [intros; simplify_eq; lia|]. intros ->%IH. lia.
Qed.

Lemma Zsum_ext {A} (f g : A → Z) l : Forall (λ x, f x = g x) l → Zsum f l = Zsum g l.
Proof. induction 1; simpl; lia. Qed.

Lemma Zsum_take_S {A} (f : A → Z) l i x :
  l !! i = Some x → Zsum f (take (S i) l) = Zsum f (take i l) + f x.
Proof. intros H. rw (take_S_r _ _ x) // Zsum_app /=. lia. Qed.

(** ** Lists *)

Lemma list_alter_insert_Some {A} (f : A → A) (l : list A) i x :
  l !! i = Some x → alter f i l = <[i := f x]> l.
Proof.
  intros H. apply list_eq => j. destruct (decide (i = j)) as [<-|].
  - rw list_lookup_alter_eq list_lookup_insert_eq; [by eapply lookup_lt_Some|]. by rw H.
  - by rw list_lookup_alter_ne // list_lookup_insert_ne.
Qed.

(** An element of a list without duplicates splits it in one way. *)
Lemma NoDup_app_cons_inj {A} (x : A) l1 l2 k1 k2 :
  NoDup (l1 ++ x :: l2) → l1 ++ x :: l2 = k1 ++ x :: k2 → k1 = l1 ∧ k2 = l2.
Proof.
  revert k1. induction l1 as [|y l1 IH]; intros [|z k1] Hnd E; simplify_eq/=.
  - done.
  - apply NoDup_cons in Hnd as [[]%not_elem_of_app _]; set_solver.
  - apply NoDup_cons in Hnd as [[_ []%not_elem_of_cons]%not_elem_of_app _]. done.
  - apply NoDup_cons in Hnd as [_ Hnd]. by destruct (IH k1 Hnd) as [-> ->].
Qed.

(** ** Sets *)

Lemma size_union_singleton (X : gset Z) x : (size ({[x]} ∪ X) ≤ S (size X))%nat.
Proof.
  rw size_union_alt size_singleton.
  assert (size (X ∖ {[x]}) ≤ size X)%nat; [apply subseteq_size; set_solver|lia].
Qed.
Lemma size_list_to_set_le (l : list Z) : (size (list_to_set l : gset Z) ≤ length l)%nat.
Proof.
  induction l as [|x l IH]; [done|]. simpl. etransitivity; [apply size_union_singleton|]. lia.
Qed.

(** ** Tactics *)

(** Case analysis on the next monadic call of a hypothesis or of the goal. *)
Ltac mstep_in H :=
  let a := fresh "a" in let s' := fresh "s" in let E := fresh "E" in
  apply bind_inv in H as (a & s' & E & H).

(** Destruct the innermost [match] or [if] of the goal, keeping the equation. *)
Ltac dmatch :=
  match goal with
  | |- context [match ?x with _ => _ end] =>
      lazymatch x with context [match _ with _ => _ end] => fail | _ => destruct x eqn:? end
  end.

(** Run the monadic plumbing of the goal: what is left are the operations' own
    conditions. *)
Ltac mrun :=
  cbv [mbind M_bind mret M_ret gets modify when panic sleeps lift]; cbn beta iota.

(** Take one monadic step of the goal with its result [E : m s = Ok (a, s')]. *)
Ltac mgo E := rw (bind_Ok _ _ _ _ _ E); cbn beta.
(** Take the state accessors at the head of the goal. *)
Ltac mget := repeat first [rw gets_bind | rw modify_bind | rw ret_bind]; cbn beta.
(** Take one monadic step, its result found by unification while [t] proves it. *)
Tactic Notation "mnext" tactic3(t) := erewrite bind_Ok; [|t]; cbn beta.
