(* ===== verification/Params.v ===== *)
(** * Constants and address arithmetic

    param.h, memlayout.h, mmu.h, fs.h and stat.h: the sizes the kernel is
    configured with, the kernel address-space layout, and the macros that take
    virtual addresses apart. *)

From S2P Require Import Prelude.

(** ** param.h *)
Definition NPROC : Z := 64.
Definition KSTACKSIZE : Z := 4096.
Definition NCPU : Z := 8.
Definition NOFILE : Z := 16.
Definition NFILE : Z := 100.
Definition NINODE : Z := 50.
Definition NDEV : Z := 10.
Definition ROOTDEV : Z := 1.
Definition MAXARG : Z := 32.
Definition MAXOPBLOCKS : Z := 10.
Definition LOGSIZE : Z := MAXOPBLOCKS * 3.
Definition NBUF : Z := MAXOPBLOCKS * 3.
Definition FSSIZE : Z := 1000.

(** ** memlayout.h *)
Definition EXTMEM : Z := 0x100000.
Definition PHYSTOP : Z := 0xE000000.
Definition DEVSPACE : Z := 0xFE000000.
Definition KERNBASE : Z := 0x80000000.
Definition KERNLINK : Z := KERNBASE + EXTMEM.

Definition V2P (a : Z) : Z := u32 (u32 a - KERNBASE).
Definition P2V (a : Z) : Z := u32 (a + KERNBASE).

(** ** mmu.h *)
Definition FL_IF : Z := 0x200.
Definition SEG_KCODE : Z := 1.
Definition SEG_KDATA : Z := 2.
Definition SEG_UCODE : Z := 3.
Definition SEG_UDATA : Z := 4.
Definition SEG_TSS : Z := 5.
Definition DPL_USER : Z := 3.

Definition NPDENTRIES : Z := 1024.
Definition NPTENTRIES : Z := 1024.
Definition PGSIZE : Z := 4096.
Definition PTXSHIFT : Z := 12.
Definition PDXSHIFT : Z := 22.

Definition PTE_P : Z := 0x001.
Definition PTE_W : Z := 0x002.
Definition PTE_U : Z := 0x004.
Definition PTE_PS : Z := 0x080.

Definition PDX (va : Z) : Z := Z.land (Z.shiftr (u32 va) PDXSHIFT) 0x3FF.
Definition PTX (va : Z) : Z := Z.land (Z.shiftr (u32 va) PTXSHIFT) 0x3FF.
Definition PGADDR (d t o : Z) : Z :=
  u32 (Z.lor (Z.lor (Z.shiftl d PDXSHIFT) (Z.shiftl t PTXSHIFT)) o).

Definition PGROUNDUP (sz : Z) : Z := u32 (Z.land (u32 (sz + PGSIZE - 1)) (Z.lnot (PGSIZE - 1))).
Definition PGROUNDDOWN (a : Z) : Z := u32 (Z.land (u32 a) (Z.lnot (PGSIZE - 1))).

Definition PTE_ADDR (pte : Z) : Z := Z.land (u32 pte) (Z.lnot 0xFFF).
Definition PTE_FLAGS (pte : Z) : Z := Z.land (u32 pte) 0xFFF.

(** ** fs.h and stat.h *)
Definition ROOTINO : Z := 1.
Definition BSIZE : Z := 512.
Definition NDIRECT : Z := 12.
Definition NINDIRECT : Z := BSIZE / 4.
Definition MAXFILE : Z := NDIRECT + NINDIRECT.
Definition BPB : Z := BSIZE * 8.
Definition DIRSIZ : Z := 14.
Definition T_DIR : Z := 1.
Definition T_FILE : Z := 2.
Definition T_DEV : Z := 3.

#[export] Hint Unfold NPROC KSTACKSIZE NCPU NOFILE NFILE NINODE NDEV ROOTDEV MAXARG
  MAXOPBLOCKS LOGSIZE NBUF FSSIZE EXTMEM PHYSTOP DEVSPACE KERNBASE KERNLINK V2P P2V
  FL_IF SEG_KCODE SEG_KDATA SEG_UCODE SEG_UDATA SEG_TSS DPL_USER
  NPDENTRIES NPTENTRIES PGSIZE PTXSHIFT PDXSHIFT PTE_P PTE_W PTE_U PTE_PS
  ROOTINO BSIZE NDIRECT NINDIRECT MAXFILE BPB DIRSIZ T_DIR T_FILE T_DEV : xv6c.

(** ** The macros in arithmetic form *)

Lemma PDX_eq va : PDX va = u32 va / 4194304.
Proof.
  rw /PDX /PDXSHIFT Z.shiftr_div_pow2 // (Z.land_ones _ 10) //.
  apply Z.mod_small. pose proof (u32_range va). dlia.
Qed.

Lemma PTX_eq va : PTX va = u32 va / 4096 mod 1024.
Proof. rw /PTX /PTXSHIFT Z.shiftr_div_pow2 // (Z.land_ones _ 10) //. Qed.

Lemma PGROUNDDOWN_eq a : PGROUNDDOWN a = u32 a - u32 a mod 4096.
Proof.
  rw /PGROUNDDOWN /PGSIZE (land_lnot_ones _ 12) //. apply u32_small.
  pose proof (u32_range a). change (2 ^ 12) with 4096. dlia.
Qed.

Lemma PGROUNDUP_eq a : 0 ≤ a ≤ 4294963200 → PGROUNDUP a = (a + 4095) / 4096 * 4096.
Proof.
  intros Ha. rw /PGROUNDUP /PGSIZE (land_lnot_ones _ 12) //.
  change (2 ^ 12) with 4096.
  rw (u32_small (a + 4096 - 1)); [lia|]. rw u32_small; dlia.
Qed.

Lemma PTE_ADDR_eq pte : PTE_ADDR pte = u32 pte - u32 pte mod 4096.
Proof. rw /PTE_ADDR (land_lnot_ones _ 12) //. Qed.

Lemma PTE_FLAGS_eq pte : PTE_FLAGS pte = u32 pte mod 4096.
Proof. rw /PTE_FLAGS (Z.land_ones _ 12) //. Qed.

(** A virtual address is its directory index, table index and offset. *)
Lemma PGADDR_PDX_PTX va :
  0 ≤ va < 4294967296 → PGADDR (PDX va) (PTX va) (va mod 4096) = va.
Proof.
  intros Hva. rw /PGADDR PDX_eq PTX_eq (u32_small va) // /PDXSHIFT /PTXSHIFT !Z.shiftl_mul_pow2 //.
  rw (lor_disjoint_add (va / 4194304 * 2 ^ 22) _ 22) //; [dlia|by apply Z.mod_mul|].
  rw (lor_disjoint_add _ _ 12) //; [dlia| |rw u32_small; dlia].
  change (2^22) with (1024 * 2^12). rw Z.mul_assoc -Z.mul_add_distr_r. by apply Z.mod_mul.
Qed.
