(* ===== verification/Bytes.v ===== *)
(** * Fields of a block

    Disk blocks, directory entries and headers are lists of bytes that the C code
    reads and writes through pointers to structures: little-endian 16- and 32-bit
    fields at byte offsets, and [memmove] of a range of bytes into or out of a
    block. *)

From S2P Require Import Prelude.

Definition byte_at (b : list Z) (o : nat) : Z := u8 (default 0 (b !! o)).

Definition get16 (b : list Z) (o : nat) : Z := byte_at b o + 256 * byte_at b (S o).
Definition get32 (b : list Z) (o : nat) : Z := get16 b o + 65536 * get16 b (2 + o)%nat.

Definition put16 (b : list Z) (o : nat) (v : Z) : list Z :=
  <[S o := u8 (v / 256)]> (<[o := u8 v]> b).
Definition put32 (b : list Z) (o : nat) (v : Z) : list Z :=
  put16 (put16 b o v) (2 + o)%nat (v / 65536).

(** [memmove] of [src] to byte [o] of [b], and of [n] bytes at [o] out of [b]. *)
Definition splice (b : list Z) (o : nat) (src : list Z) : list Z :=
  take o b ++ src ++ drop (o + length src) b.
Definition slice (b : list Z) (o n : nat) : list Z := take n (drop o b).

(** ** Lemmas *)

Lemma byte_at_range b o : 0 ≤ byte_at b o < 256.
Proof. apply u8_range. Qed.
Lemma get16_range b o : 0 ≤ get16 b o < 65536.
Proof. rw /get16. pose proof (byte_at_range b o). pose proof (byte_at_range b (S o)). lia. Qed.
Lemma get32_range b o : 0 ≤ get32 b o < 4294967296.
Proof. rw /get32. pose proof (get16_range b o). pose proof (get16_range b (2 + o)). lia. Qed.

Lemma length_put16 b o v : length (put16 b o v) = length b.
Proof. by rw /put16 !length_insert. Qed.
Lemma length_put32 b o v : length (put32 b o v) = length b.
Proof. by rw /put32 !length_put16. Qed.

Lemma byte_at_insert b o v k :
  (o < length b)%nat → byte_at (<[o := v]> b) k = if decide (k = o) then u8 v else byte_at b k.
Proof.
  intros Ho. rw /byte_at. case_decide as E; [subst; by rw list_lookup_insert_eq|].
  by rw list_lookup_insert_ne.
Qed.

Lemma byte_at_put16 b o v k :
  (o + 2 ≤ length b)%nat →
  byte_at (put16 b o v) k =
    if decide (k = o) then u8 v else if decide (k = S o) then u8 (v / 256) else byte_at b k.
Proof.
  intros Ho. rw /put16 !byte_at_insert ?length_insert; [lia|lia|]. rw /u8 !Z.mod_mod //.
  repeat case_decide; try done; lia.
Qed.

Lemma get16_put16_eq b o v : (o + 2 ≤ length b)%nat → get16 (put16 b o v) o = u16 v.
Proof.
  intros Ho. rw /get16 !byte_at_put16 //. rewrite -> decide_True by done.
  rewrite -> decide_False, decide_True by lia. rw /u8 /u16. dlia.
Qed.
Lemma get16_put16_ne b o v k :
  (o + 2 ≤ length b)%nat → (k + 2 ≤ o ∨ o + 2 ≤ k)%nat → get16 (put16 b o v) k = get16 b k.
Proof. intros Ho Hk. rw /get16 !byte_at_put16 //. by rewrite -> !decide_False by lia. Qed.

Lemma get16_put32_ne b o v k :
  (o + 4 ≤ length b)%nat → (k + 2 ≤ o ∨ o + 4 ≤ k)%nat → get16 (put32 b o v) k = get16 b k.
Proof.
  intros Ho Hk. rw /put32. rw get16_put16_ne; [rw length_put16; lia|lia|]. by rw get16_put16_ne; [lia|lia|].
Qed.
Lemma get32_put32_eq b o v : (o + 4 ≤ length b)%nat → get32 (put32 b o v) o = u32 v.
Proof.
  intros Ho. rw /get32 /put32 get16_put16_eq; [rw length_put16; lia|].
  rw get16_put16_ne; [rw length_put16; lia|lia|]. rw get16_put16_eq; [lia|]. rw /u16 /u32. dlia.
Qed.
Lemma get32_put32_ne b o v k :
  (o + 4 ≤ length b)%nat → (k + 4 ≤ o ∨ o + 4 ≤ k)%nat → get32 (put32 b o v) k = get32 b k.
Proof. intros Ho Hk. rw /get32 !get16_put32_ne //; lia. Qed.
Lemma get32_put16_ne b o v k :
  (o + 2 ≤ length b)%nat → (k + 4 ≤ o ∨ o + 2 ≤ k)%nat → get32 (put16 b o v) k = get32 b k.
Proof. intros Ho Hk. rw /get32 !get16_put16_ne //; lia. Qed.

Lemma length_splice b o src :
  (o + length src ≤ length b)%nat → length (splice b o src) = length b.
Proof. intros Ho. rw /splice !length_app length_take length_drop. lia. Qed.
Lemma length_slice b o n : (o + n ≤ length b)%nat → length (slice b o n) = n.
Proof. intros Ho. rw /slice length_take length_drop. lia. Qed.

Lemma lookup_splice b o src k :
  (o + length src ≤ length b)%nat →
  splice b o src !! k =
    if decide (o ≤ k < o + length src)%nat then src !! (k - o)%nat else b !! k.
Proof.
  intros Ho. rw /splice. destruct (decide (k < o)%nat) as [Hk|Hk].
  - rw lookup_app_l; [rw length_take; lia|]. rw lookup_take_lt //. by rewrite -> decide_False by lia.
  - rw lookup_app_r; [rw length_take; lia|]. rw length_take Nat.min_l; [lia|].
    case_decide as Hd.
    + rw lookup_app_l //. lia.
    + rw lookup_app_r; [lia|]. rw lookup_drop. f_equal. lia.
Qed.

(** Reading the bytes just written, and bytes elsewhere. *)
Lemma slice_splice_eq b o src :
  (o + length src ≤ length b)%nat → slice (splice b o src) o (length src) = src.
Proof.
  intros Ho. rw /slice /splice drop_app_length'; [rw length_take; lia|]. by rw take_app_length.
Qed.
Lemma lookup_slice b o n k :
  slice b o n !! k = if decide (k < n)%nat then b !! (o + k)%nat else None.
Proof.
  rw /slice. case_decide as Hk; [rw lookup_take_lt // lookup_drop //|]. rw lookup_take_ge //. lia.
Qed.
Lemma slice_splice_ne b o src p n :
  (o + length src ≤ length b)%nat → (p + n ≤ o ∨ o + length src ≤ p)%nat →
  slice (splice b o src) p n = slice b p n.
Proof.
  intros Ho Hp. apply list_eq => k. rw !lookup_slice. case_decide as Hk; [|done].
  rw lookup_splice //. by rewrite -> decide_False by lia.
Qed.
