(* ===== verification/KMemory.v ===== *)
(** * Kernel memory and string.c

    Byte-addressed memory as a finite map from (kernel virtual) addresses to
    bytes, a missing entry reading as zero; the little-endian 32-bit accesses the
    kernel makes through [uint*] and [struct] pointers; and the routines of
    string.c with the [rep stos] helpers of x86.h they are built on.  Pointer
    arithmetic stays inside an object, so addresses are plain integers. *)

From S2P Require Import Prelude Params.

(** ** Bytes and words *)

Abbreviation mem := (gmap Z Z).

Definition mread (m : mem) (a : Z) : Z := u8 (default 0 (m !! a)).
Definition mwrite (m : mem) (a v : Z) : mem := <[a := u8 v]> m.

Definition ld32 (m : mem) (a : Z) : Z :=
  mread m a + 256 * mread m (a + 1) + 65536 * mread m (a + 2) + 16777216 * mread m (a + 3).
Definition st32 (m : mem) (a v : Z) : mem :=
  let m := mwrite m a v in
  let m := mwrite m (a + 1) (v / 256) in
  let m := mwrite m (a + 2) (v / 65536) in
  mwrite m (a + 3) (v / 16777216).

(** ** x86.h: [rep stosb] and [rep stosl] *)

Fixpoint stosb (m : mem) (addr data : Z) (cnt : nat) : mem :=
  match cnt with
  | O => m
  | S cnt => stosb (mwrite m addr data) (addr + 1) data cnt
  end.

Fixpoint stosl (m : mem) (addr data : Z) (cnt : nat) : mem :=
  match cnt with
  | O => m
  | S cnt => stosl (st32 m addr data) (addr + 4) data cnt
  end.

(** ** string.c *)

Definition memset (m : mem) (dst c n : Z) : mem :=
  if (Z.rem (s32 dst) 4 =? 0) && (n mod 4 =? 0) then
    let c := Z.land c 0xFF in
    stosl m dst
      (Z.lor (Z.lor (Z.lor (Z.shiftl c 24) (Z.shiftl c 16)) (Z.shiftl c 8)) c)
      (Z.to_nat (n / 4))
  else stosb m dst c (Z.to_nat n).

Fixpoint memcmp_loop (m : mem) (s1 s2 : Z) (n : nat) : Z :=
  match n with
  | O => 0
  | S n =>
      if mread m s1 =? mread m s2 then memcmp_loop m (s1 + 1) (s2 + 1) n
      else mread m s1 - mread m s2
  end.
Definition memcmp (m : mem) (v1 v2 n : Z) : Z := memcmp_loop m v1 v2 (Z.to_nat n).

(** The copy loops of [memmove]: upwards from the first byte, and downwards from
    one past the last byte. *)
Fixpoint copy_up (m : mem) (d s : Z) (n : nat) : mem :=
  match n with
  | O => m
  | S n => copy_up (mwrite m d (mread m s)) (d + 1) (s + 1) n
  end.

Fixpoint copy_down (m : mem) (d s : Z) (n : nat) : mem :=
  match n with
  | O => m
  | S n => copy_down (mwrite m (d - 1) (mread m (s - 1))) (d - 1) (s - 1) n
  end.

Definition memmove (m : mem) (dst src n : Z) : mem :=
  if (src <? dst) && (dst <? src + n) then
    copy_down m (dst + n) (src + n) (Z.to_nat n)
  else copy_up m dst src (Z.to_nat n).

Fixpoint strncmp_loop (m : mem) (p q : Z) (n : nat) : Z :=
  match n with
  | O => 0
  | S n =>
      if negb (mread m p =? 0) && (mread m p =? mread m q)
      then strncmp_loop m (p + 1) (q + 1) n
      else mread m p - mread m q
  end.
Definition strncmp (m : mem) (p q n : Z) : Z := strncmp_loop m p q (Z.to_nat n).

(** [strncpy]: copy up to and including the NUL, then fill with zeros. *)
Fixpoint zero_fill (m : mem) (s : Z) (n : nat) : mem :=
  match n with
  | O => m
  | S n => zero_fill (mwrite m s 0) (s + 1) n
  end.
Fixpoint strncpy_loop (m : mem) (s t : Z) (n : nat) : mem :=
  match n with
  | O => m
  | S n =>
      let b := mread m t in
      let m := mwrite m s b in
      if b =? 0 then zero_fill m (s + 1) n else strncpy_loop m (s + 1) (t + 1) n
  end.
Definition strncpy (m : mem) (s t n : Z) : mem := strncpy_loop m s t (Z.to_nat n).

(** [safestrcpy]: [k] is [n] after the loop's next [--n]. *)
Fixpoint safestrcpy_loop (m : mem) (s t : Z) (k : nat) : mem :=
  match k with
  | O => mwrite m s 0
  | S k =>
      let b := mread m t in
      let m := mwrite m s b in
      if b =? 0 then mwrite m (s + 1) 0 else safestrcpy_loop m (s + 1) (t + 1) k
  end.
Definition safestrcpy (m : mem) (s t n : Z) : mem :=
  if n <=? 0 then m else safestrcpy_loop m s t (Z.to_nat (n - 1)).

(** [strlen] reads until it meets a NUL; [fuel] bounds how far. *)
Fixpoint strlen (fuel : nat) (m : mem) (s : Z) (n : Z) : option Z :=
  match fuel with
  | O => None
  | S fuel => if mread m (s + n) =? 0 then Some n else strlen fuel m s (n + 1)
  end.

(** ** Memory lemmas *)

Lemma mread_range m a : 0 ≤ mread m a < 256.
Proof. apply u8_range. Qed.

Lemma mread_mwrite m a v x :
  mread (mwrite m a v) x = if decide (x = a) then u8 v else mread m x.
Proof.
  rw /mread /mwrite lookup_insert. repeat case_decide; simplify_eq; [|done].
  apply u8_small, u8_range.
Qed.

Lemma ld32_range m a : 0 ≤ ld32 m a < 4294967296.
Proof.
  rw /ld32. pose proof (mread_range m a). pose proof (mread_range m (a + 1)).
  pose proof (mread_range m (a + 2)). pose proof (mread_range m (a + 3)). lia.
Qed.

(** Two memories that read the same; writes and loads respect it. *)
Definition mem_eqv (m1 m2 : mem) : Prop := ∀ a, mread m1 a = mread m2 a.
Infix "≈ₘ" := mem_eqv (at level 70).

#[export] Instance mem_eqv_equivalence : Equivalence mem_eqv.
Proof.
  split; [by intros ??|by intros ????|]. intros m1 m2 m3 H1 H2 a. by rw H1.
Qed.
#[export] Instance mread_proper : Proper (mem_eqv ==> eq ==> eq) mread.
Proof. intros m1 m2 H a ? <-. apply H. Qed.
#[export] Instance mwrite_proper : Proper (mem_eqv ==> eq ==> eq ==> mem_eqv) mwrite.
Proof. intros m1 m2 H a ? <- v ? <- x. rw !mread_mwrite. by rw H. Qed.
#[export] Instance ld32_proper : Proper (mem_eqv ==> eq ==> eq) ld32.
Proof. intros m1 m2 H a ? <-. rw /ld32 !H //. Qed.
#[export] Instance st32_proper : Proper (mem_eqv ==> eq ==> eq ==> mem_eqv) st32.
Proof. intros m1 m2 H a ? <- v ? <-. rw /st32. by rewrite -> H. Qed.

Lemma mread_st32 m a v x :
  mread (st32 m a v) x =
    if decide (a ≤ x < a + 4) then u8 (v / 256 ^ (x - a)) else mread m x.
Proof.
  rw /st32 !mread_mwrite. repeat case_decide; try lia; subst;
    match goal with |- u8 _ = u8 (_ / 256 ^ ?e) => ring_simplify e | _ => done end;
    by rw ?Z.div_1_r.
Qed.

Lemma ld32_st32_eq m a v : ld32 (st32 m a v) a = u32 v.
Proof.
  rw /ld32 !mread_st32. repeat case_decide; try lia.
  ring_simplify (a - a) (a + 1 - a) (a + 2 - a) (a + 3 - a).
  change (256 ^ 0) with 1. change (256 ^ 1) with 256.
  change (256 ^ 2) with 65536. change (256 ^ 3) with 16777216. clia.
Qed.

Lemma ld32_ext m1 m2 a :
  (∀ x, a ≤ x < a + 4 → mread m1 x = mread m2 x) → ld32 m1 a = ld32 m2 a.
Proof. intros H. rw /ld32 !H //; lia. Qed.

Lemma ld32_st32_ne m a b v :
  a + 4 ≤ b ∨ b + 4 ≤ a → ld32 (st32 m a v) b = ld32 m b.
Proof. intros H. apply ld32_ext => x Hx. rw mread_st32. case_decide; [lia|done]. Qed.

(** ** The fills *)

Lemma mread_stosb m addr data cnt x :
  mread (stosb m addr data cnt) x =
    if decide (addr ≤ x < addr + Z.of_nat cnt) then u8 data else mread m x.
Proof.
  revert m addr. induction cnt as [|cnt IH] => m addr /=.
  { case_decide; [lia|done]. }
  rw IH mread_mwrite. repeat case_decide; try lia; done.
Qed.

Lemma mread_stosl m addr data cnt x :
  mread (stosl m addr data cnt) x =
    if decide (addr ≤ x < addr + 4 * Z.of_nat cnt)
    then u8 (data / 256 ^ ((x - addr) mod 4)) else mread m x.
Proof.
  revert m addr. induction cnt as [|cnt IH] => m addr /=.
  { case_decide; [lia|done]. }
  rw IH mread_st32. repeat case_decide; try lia; try done; do 3 f_equal; dlia.
Qed.

(** The four copies of the byte in the word [memset] stores. *)
Lemma memset_word c i :
  0 ≤ i < 4 →
  u8 (Z.lor (Z.lor (Z.lor (Z.shiftl (Z.land c 255) 24) (Z.shiftl (Z.land c 255) 16))
        (Z.shiftl (Z.land c 255) 8)) (Z.land c 255) / 256 ^ i) = u8 c.
Proof.
  intros Hi. rw (Z.land_ones _ 8) //. change (2 ^ 8) with 256.
  assert (0 ≤ c mod 256 < 256) by dlia. rw /u8. generalize dependent (c mod 256) => b Hb.
  rw !Z.shiftl_mul_pow2 //.
  rw (lor_disjoint_add (b * 2 ^ 24) _ 24) //; [lia|by apply Z.mod_mul|].
  rw (lor_disjoint_add _ (b * 2 ^ 8) 16) //; [lia| |].
  { rw -(Z.mod_mul (b * 256 + b) (2 ^ 16)) //. f_equal. lia. }
  rw (lor_disjoint_add _ b 8) //.
  { rw -(Z.mod_mul (b * 65536 + b * 256 + b) (2 ^ 8)) //. f_equal. lia. }
  assert (i = 0 ∨ i = 1 ∨ i = 2 ∨ i = 3) as [->|[->|[->| ->]]] by lia;
    change (256 ^ 0) with 1; change (256 ^ 1) with 256; change (256 ^ 2) with 65536;
    change (256 ^ 3) with 16777216; dlia.
Qed.

(** Both paths of [memset] fill exactly [n] bytes with the low byte of [c]. *)
Lemma mread_memset m dst c n x :
  0 ≤ n →
  mread (memset m dst c n) x = if decide (dst ≤ x < dst + n) then u8 c else mread m x.
Proof.
  intros Hn. rw /memset. destruct ((_ =? 0) && _) eqn:E.
  - apply andb_true_iff in E as [_ E%Z.eqb_eq].
    rw mread_stosl Z2Nat.id; [dlia|]. repeat case_decide; try dlia; try done.
    apply memset_word. dlia.
  - rw mread_stosb Z2Nat.id //.
Qed.

(** ** The copies *)

Lemma mread_copy_up m d s n x :
  ¬ (s < d < s + Z.of_nat n) →
  mread (copy_up m d s n) x =
    if decide (d ≤ x < d + Z.of_nat n) then mread m (s + (x - d)) else mread m x.
Proof.
  revert m d s. induction n as [|n IH] => m d s Hov /=.
  { case_decide; [lia|done]. }
  rw IH ?mread_mwrite; [lia|].
  repeat case_decide; try lia; try done; subst.
  - f_equal. lia.
  - rw u8_small; [apply mread_range|]. f_equal. lia.
Qed.

Lemma mread_copy_down m d s n x :
  ¬ (d < s < d + Z.of_nat n) →
  mread (copy_down m (d + Z.of_nat n) (s + Z.of_nat n) n) x =
    if decide (d ≤ x < d + Z.of_nat n) then mread m (s + (x - d)) else mread m x.
Proof.
  revert m. induction n as [|n IH] => m Hov /=.
  { case_decide; [lia|done]. }
  replace (d + Z.of_nat (S n) - 1) with (d + Z.of_nat n) by lia.
  replace (s + Z.of_nat (S n) - 1) with (s + Z.of_nat n) by lia.
  rw IH ?mread_mwrite; [lia|].
  repeat case_decide; try lia; try done; subst.
  rw u8_small; [apply mread_range|]. f_equal. lia.
Qed.

Lemma mread_memmove m dst src n x :
  0 ≤ n →
  mread (memmove m dst src n) x =
    if decide (dst ≤ x < dst + n) then mread m (src + (x - dst)) else mread m x.
Proof.
  intros Hn. rw /memmove. destruct ((src <? dst) && _) eqn:E.
  - apply andb_true_iff in E as [E1%Z.ltb_lt E2%Z.ltb_lt].
    pose proof (mread_copy_down m dst src (Z.to_nat n) x) as H.
    rw Z2Nat.id // in H. rw H //. lia.
  - apply andb_false_iff in E as [E%Z.ltb_ge|E%Z.ltb_ge];
      rw mread_copy_up Z2Nat.id //; lia.
Qed.

(** The [n] bytes at [a], as a list. *)
Definition mbytes (m : mem) (a n : Z) : list Z :=
  (λ i : nat, mread m (a + Z.of_nat i)) <$> seq 0 (Z.to_nat n).

Lemma mbytes_ext m1 m2 a1 a2 n :
  (∀ i, 0 ≤ i < n → mread m1 (a1 + i) = mread m2 (a2 + i)) →
  mbytes m1 a1 n = mbytes m2 a2 n.
Proof.
  intros H. apply list_fmap_ext => i j Hj. apply lookup_seq in Hj as [-> ?]. apply H. lia.
Qed.

(** [memmove] copies correctly for every pair of ranges, overlapping ones in
    either direction included: afterwards the destination holds the bytes the
    source held before the call, and no byte outside the destination has changed. *)
Theorem memmove_correct m dst src n :
  0 ≤ n →
  mbytes (memmove m dst src n) dst n = mbytes m src n ∧
  ∀ x, ¬ (dst ≤ x < dst + n) → mread (memmove m dst src n) x = mread m x.
Proof.
  intros Hn. split.
  - apply mbytes_ext => i Hi. rw mread_memmove //. case_decide; [f_equal|]; lia.
  - intros x Hx. rw mread_memmove //. by case_decide.
Qed.

Lemma memmove_correct_witness :
  mbytes (memmove (stosb ∅ 100 7 3) 101 100 3) 101 3 = mbytes (stosb ∅ 100 7 3) 100 3 ∧
  ∀ x, ¬ (101 ≤ x < 101 + 3) →
    mread (memmove (stosb ∅ 100 7 3) 101 100 3) x = mread (stosb ∅ 100 7 3) x.
Proof. apply (memmove_correct (stosb ∅ 100 7 3) 101 100 3). lia. Defined.

(** ** C strings *)

(** The bytes of [l], none zero, stand at [a], with a NUL after them. *)
Definition cstring (m : mem) (a : Z) (l : list Z) : Prop :=
  (∀ i b, l !! i = Some b → mread m (a + Z.of_nat i) = b ∧ b ≠ 0) ∧
  mread m (a + Z.of_nat (length l)) = 0.

Lemma cstring_nil m a : cstring m a [] ↔ mread m a = 0.
Proof. rw /cstring /= Z.add_0_r. split; [by intros [_ ?]|done]. Qed.

Lemma cstring_cons m a b l :
  cstring m a (b :: l) ↔ mread m a = b ∧ b ≠ 0 ∧ cstring m (a + 1) l.
Proof.
  rw /cstring /=. split.
  - intros [H1 H2]. destruct (H1 0%nat b) as [E ?]; [done|]. rw Z.add_0_r in E.
    split_and!; [done..| |].
    + intros i c Hi. destruct (H1 (S i) c) as [E' ?]; [done|]. split; [|done].
      rw -E'. f_equal. lia.
    + rw -H2. f_equal. lia.
  - intros (E & ? & H1 & H2). split; [|rw -H2; f_equal; lia].
    intros [|i] c Hi; simplify_eq/=; [by rw Z.add_0_r|].
    destruct (H1 i c Hi) as [E' ?]. split; [|done]. rw -E'. f_equal. lia.
Qed.

Lemma cstring_frame m m' a l :
  (∀ x, a ≤ x ≤ a + Z.of_nat (length l) → mread m' x = mread m x) →
  cstring m a l → cstring m' a l.
Proof.
  intros H [H1 H2]. split; [|rw H //; lia].
  intros i b Hi. pose proof (lookup_lt_Some _ _ _ Hi). rw H; [lia|auto].
Qed.

Lemma strlen_cstring fuel m s l n :
  cstring m (s + n) l → (length l < fuel)%nat →
  strlen fuel m s n = Some (n + Z.of_nat (length l)).
Proof.
  revert l n. induction fuel as [|fuel IH] => l n Hl Hf; [lia|].
  destruct l as [|b l]; simpl.
  - apply cstring_nil in Hl as ->. simpl. f_equal. lia.
  - apply cstring_cons in Hl as (-> & Hb & Hl). apply Z.eqb_neq in Hb as ->.
    rw (IH l); [by rw Z.add_assoc|simpl in *; lia|]. f_equal. lia.
Qed.

Lemma strncmp_loop_spec m p q n l1 l2 :
  cstring m p l1 → cstring m q l2 →
  strncmp_loop m p q n = 0 ↔ take n l1 = take n l2.
Proof.
  revert p q l1 l2. induction n as [|n IH] => p q l1 l2 H1 H2 /=; [done|].
  destruct l1 as [|a l1], l2 as [|b l2];
    rewrite -> ?cstring_nil, ?cstring_cons in H1; rewrite -> ?cstring_nil, ?cstring_cons in H2.
  - rw H1 H2 /=. done.
  - destruct H2 as (-> & Hb & _). rw H1 /=. split; [lia|done].
  - destruct H1 as (-> & Ha & _). rw H2. destruct (Z.eqb_spec a 0); [done|].
    simpl. split; [lia|done].
  - destruct H1 as (-> & Ha & H1), H2 as (-> & Hb & H2).
    destruct (Z.eqb_spec a 0) as [|_]; [done|]. simpl.
    destruct (Z.eqb_spec a b) as [->|Hab].
    + rw (IH _ _ _ _ H1 H2) /=. split; [by intros ->|by intros [=]].
    + simpl. split; [lia|by intros [=]].
Qed.

(** [strncmp] finds two C strings equal exactly when their first [n] characters are. *)
Lemma strncmp_spec m p q n l1 l2 :
  cstring m p l1 → cstring m q l2 →
  strncmp m p q n = 0 ↔ take (Z.to_nat n) l1 = take (Z.to_nat n) l2.
Proof. apply strncmp_loop_spec. Qed.

Lemma mread_zero_fill m s n x :
  mread (zero_fill m s n) x = if decide (s ≤ x < s + Z.of_nat n) then 0 else mread m x.
Proof.
  revert m s. induction n as [|n IH] => m s /=.
  { case_decide; [lia|done]. }
  rw IH mread_mwrite. repeat case_decide; try lia; done.
Qed.

(** Bytes that do not meet the string leave it alone. *)
Lemma cstring_mwrite m a l x v :
  (∀ j, 0 ≤ j ≤ Z.of_nat (length l) → x ≠ a + j) → cstring m a l → cstring (mwrite m x v) a l.
Proof.
  intros Hx. apply cstring_frame => y Hy. rw mread_mwrite. case_decide; [|done].
  subst. destruct (Hx (x - a)); lia.
Qed.

(** The destination bytes [s .. s+n) do not meet the string at [t]. *)
Definition disjoint_from (s n t : Z) (l : list Z) : Prop :=
  s + n ≤ t ∨ t + Z.of_nat (length l) < s.

(** [strncpy] fills its field: the string's characters, then zeros. *)
Lemma mread_strncpy_loop m s t n l x :
  cstring m t l → disjoint_from s (Z.of_nat n) t l →
  mread (strncpy_loop m s t n) x =
    if decide (s ≤ x < s + Z.of_nat n) then default 0 (l !! Z.to_nat (x - s)) else mread m x.
Proof.
  rw /disjoint_from. revert m s t l. induction n as [|n IH] => m s t l Hl Hd.
  { simpl. case_decide; [lia|done]. }
  cbn [strncpy_loop]. destruct l as [|b l].
  - apply cstring_nil in Hl as ->. cbn.
    rw mread_zero_fill mread_mwrite. repeat case_decide; try lia; done.
  - pose proof (mread_range m t) as Hr.
    apply cstring_cons in Hl as (Hb & Hb0 & Hl). rw Hb in Hr. rw Hb.
    apply Z.eqb_neq in Hb0 as ->. simpl in Hd.
    rw (IH _ _ _ l); [by apply cstring_mwrite; [intros; lia|]|lia|].
    rw mread_mwrite. repeat case_decide; try lia; try done; subst.
    + replace (x - s) with (Z.succ (x - (s + 1))) by lia. rw Z2Nat.inj_succ //. lia.
    + rw Z.sub_diag /=. by apply u8_small.
Qed.

Lemma mread_strncpy m s t n l x :
  0 ≤ n → cstring m t l → disjoint_from s n t l →
  mread (strncpy m s t n) x =
    if decide (s ≤ x < s + n) then default 0 (l !! Z.to_nat (x - s)) else mread m x.
Proof.
  intros Hn Hl Hd. rw /strncpy (mread_strncpy_loop _ _ _ _ l) // Z2Nat.id //.
Qed.

Lemma safestrcpy_loop_spec m s t k l :
  cstring m t l → disjoint_from s (Z.of_nat k + 1) t l →
  cstring (safestrcpy_loop m s t k) s (take k l) ∧
  ∀ x, ¬ (s ≤ x < s + Z.of_nat k + 1) → mread (safestrcpy_loop m s t k) x = mread m x.
Proof.
  rw /disjoint_from. revert m s t l. induction k as [|k IH] => m s t l Hl Hd.
  { simpl. split; [by rw cstring_nil mread_mwrite decide_True|].
    intros x Hx. rw mread_mwrite. case_decide; [lia|done]. }
  cbn [safestrcpy_loop]. pose proof (mread_range m t) as Hr. destruct l as [|b l].
  - apply cstring_nil in Hl as ->. cbn. split.
    + rw cstring_nil !mread_mwrite. repeat case_decide; done || lia.
    + intros x Hx. rw !mread_mwrite. repeat case_decide; lia || done.
  - apply cstring_cons in Hl as (Hb & Hb0 & Hl). rw Hb in Hr. rw Hb.
    pose proof Hb0 as Hb0'. apply Z.eqb_neq in Hb0' as ->. simpl in Hd.
    destruct (IH (mwrite m s b) (s + 1) (t + 1) l) as [IH1 IH2];
      [by apply cstring_mwrite; [intros; lia|]|lia|].
    split.
    + apply cstring_cons. split_and!; [|done|done].
      rw IH2; [lia|]. rw mread_mwrite decide_True //. by apply u8_small.
    + intros x Hx. rw IH2; [lia|]. rw mread_mwrite. case_decide; [lia|done].
Qed.

(** [safestrcpy] into a field of [n > 0] bytes that does not overlap its source
    always leaves a NUL-terminated string there, the source's first [n-1]
    characters, and writes nothing outside the field. *)
Theorem safestrcpy_correct m s t n l :
  0 < n → cstring m t l → disjoint_from s n t l →
  cstring (safestrcpy m s t n) s (take (Z.to_nat (n - 1)) l) ∧
  ∀ x, ¬ (s ≤ x < s + n) → mread (safestrcpy m s t n) x = mread m x.
Proof.
  intros Hn Hl Hd. rw /safestrcpy. destruct (Z.leb_spec n 0); [lia|].
  destruct (safestrcpy_loop_spec m s t (Z.to_nat (n - 1)) l) as [H1 H2]; [done| |].
  { rw Z2Nat.id; [lia|]. by replace (n - 1 + 1) with n by lia. }
  split; [done|]. intros x Hx. apply H2. lia.
Qed.

Lemma safestrcpy_correct_witness :
  cstring (safestrcpy (stosb ∅ 200 65 5) 100 200 4) 100 [65; 65; 65] ∧
  ∀ x, ¬ (100 ≤ x < 100 + 4) →
    mread (safestrcpy (stosb ∅ 200 65 5) 100 200 4) x = mread (stosb ∅ 200 65 5) x.
Proof.
  apply (safestrcpy_correct (stosb ∅ 200 65 5) 100 200 4 [65; 65; 65; 65; 65]).
  - lia.
  - rw !cstring_cons cstring_nil. split_and!; (reflexivity || done).
  - rw /disjoint_from /=. lia.
Defined.
