(* ===== verification/Kalloc.v ===== *)
(** * The physical page allocator (kalloc.c)

    The free pages form a list threaded through the pages themselves: the first
    word of a free page is the address of the next one.  The state is the memory
    with the [kmem] structure; [k_lock] says whether this CPU holds [kmem.lock],
    which [kinit2] turns on through [use_lock].  The linker symbol [end] is the
    argument [kend]. *)

From S2P Require Import Prelude Params KMemory.

Record kstate := mkKstate {
  k_mem : mem;            (* kernel memory, pages included *)
  k_freelist : Z;         (* kmem.freelist: struct run pointer, 0 at the end *)
  k_use_lock : bool;      (* kmem.use_lock *)
  k_lock : bool;          (* kmem.lock, held by this CPU *)
}.

Definition set_mem (m : mem) (s : kstate) : kstate :=
  mkKstate m (k_freelist s) (k_use_lock s) (k_lock s).
Definition set_freelist (r : Z) (s : kstate) : kstate :=
  mkKstate (k_mem s) r (k_use_lock s) (k_lock s).
Definition set_use_lock (b : bool) (s : kstate) : kstate :=
  mkKstate (k_mem s) (k_freelist s) b (k_lock s).
Definition set_klock (b : bool) (s : kstate) : kstate :=
  mkKstate (k_mem s) (k_freelist s) (k_use_lock s) b.

(** spinlock.c's [acquire] and [release] as one CPU that meets no contention
    sees them: the lock's owner panics when it acquires it again or releases a
    lock it does not hold. *)
Definition kmem_acquire : M kstate unit :=
  h ← gets k_lock;
  if (h : bool) then panic "acquire" else modify (set_klock true).
Definition kmem_release : M kstate unit :=
  h ← gets k_lock;
  if (h : bool) then modify (set_klock false) else panic "release".

Section kalloc.
Variable kend : Z.

Definition kfree (v : Z) : M kstate unit :=
  if negb (u32 v mod PGSIZE =? 0) || (v <? kend) || (PHYSTOP <=? V2P v) then panic "kfree"
  else
    modify (λ s, set_mem (memset (k_mem s) v 1 PGSIZE) s) ;;
    ul ← gets k_use_lock;
    when ul kmem_acquire ;;
    modify (λ s, set_mem (st32 (k_mem s) v (k_freelist s)) s) ;;
    modify (set_freelist v) ;;
    when ul kmem_release.

Definition kalloc : M kstate Z :=
  ul ← gets k_use_lock;
  when ul kmem_acquire ;;
  r ← gets k_freelist;
  when (negb (r =? 0)) (modify (λ s, set_freelist (ld32 (k_mem s) r) s)) ;;
  when ul kmem_release ;;
  mret r.

(** [for(; p + PGSIZE <= vend; p += PGSIZE) kfree(p);] by its number of rounds. *)
Fixpoint freerange_loop (n : nat) (p : Z) : M kstate unit :=
  match n with
  | O => mret tt
  | S n => kfree p ;; freerange_loop n (p + PGSIZE)
  end.
Definition freerange (vstart vend : Z) : M kstate unit :=
  let p := PGROUNDUP vstart in
  freerange_loop (Z.to_nat ((vend - p) / PGSIZE)) p.

Definition kinit1 (vstart vend : Z) : M kstate unit :=
  modify (set_klock false) ;;
  modify (set_use_lock false) ;;
  freerange vstart vend.

Definition kinit2 (vstart vend : Z) : M kstate unit :=
  freerange vstart vend ;;
  modify (set_use_lock true).

(** ** The free list *)

(** A page [kfree] accepts. *)
Definition page_ok (p : Z) : Prop :=
  p mod PGSIZE = 0 ∧ kend ≤ p ∧ p + PGSIZE ≤ KERNBASE + PHYSTOP.

(** [chain m r l]: starting from the pointer [r], the links in memory lead
    through the pages of [l] and end with a null pointer. *)
Fixpoint chain (m : mem) (r : Z) (l : list Z) : Prop :=
  match l with
  | [] => r = 0
  | p :: l => r = p ∧ chain m (ld32 m p) l
  end.

(** The allocator's invariant, with the stack [l] of free pages it stands for. *)
Definition kmem_inv (s : kstate) (l : list Z) : Prop :=
  chain (k_mem s) (k_freelist s) l ∧ NoDup l ∧ Forall page_ok l ∧ k_lock s = false.

(** Addresses inside the page at [p]. *)
Definition in_page (p x : Z) : Prop := p ≤ x < p + PGSIZE.

Hypothesis kend_range : KERNLINK ≤ kend ≤ KERNBASE + PHYSTOP.

Lemma page_ok_range p : page_ok p → KERNLINK ≤ p ∧ p + 4096 ≤ KERNBASE + PHYSTOP ∧ p ≠ 0.
Proof. intros (?&?&?). clia. Qed.

Lemma pages_apart p q x :
  p mod PGSIZE = 0 → q mod PGSIZE = 0 → in_page p x → in_page q x → p = q.
Proof. rw /in_page /PGSIZE. dlia. Qed.

Lemma chain_ext m1 m2 r l :
  (∀ p, p ∈ l → ∀ x, p ≤ x < p + 4 → mread m2 x = mread m1 x) →
  chain m1 r l → chain m2 r l.
Proof.
  revert r. induction l as [|p l IH] => r H /=; [done|]. intros [-> Hc]. split; [done|].
  rw (ld32_ext m2 m1); [apply H; by left|]. apply IH; [|done].
  intros q Hq. apply H. by right.
Qed.

(** Writing outside every free page keeps the list. *)
Lemma chain_frame m1 m2 r l :
  (∀ p x, p ∈ l → in_page p x → mread m2 x = mread m1 x) →
  chain m1 r l → chain m2 r l.
Proof.
  intros H. apply chain_ext => p Hp x Hx. apply (H p); [done|]. rw /in_page /PGSIZE. lia.
Qed.

Lemma chain_head m r l : chain m r l → Forall page_ok l → r = 0 ↔ l = [].
Proof.
  destruct l as [|p l]; simpl; [done|]. intros [-> _] [Hp%page_ok_range _]%Forall_cons_iff.
  split; [lia|done].
Qed.

Lemma kfree_guard_ok v :
  page_ok v → negb (u32 v mod PGSIZE =? 0) || (v <? kend) || (PHYSTOP <=? V2P v) = false.
Proof.
  intros Hv. pose proof (page_ok_range v Hv). destruct Hv as (Ha & ? & ?).
  rw (u32_small v); [clia|]. rw Ha /=. apply orb_false_iff. split; [lia|].
  apply Z.leb_gt. clia.
Qed.

(** ** What the operations do *)

Lemma kfree_ok s v :
  page_ok v → k_lock s = false →
  kfree v s = Ok (tt, mkKstate (st32 (memset (k_mem s) v 1 PGSIZE) v (k_freelist s)) v
                        (k_use_lock s) false).
Proof.
  intros Hv Hl. rw /kfree kfree_guard_ok //. destruct s as [m r ul lk]; simpl in *; subst.
  by destruct ul.
Qed.

Lemma kalloc_ok s :
  k_lock s = false →
  kalloc s = Ok (k_freelist s,
    if k_freelist s =? 0 then s else set_freelist (ld32 (k_mem s) (k_freelist s)) s).
Proof.
  destruct s as [m r ul lk]; simpl; intros ->. rw /kalloc /kmem_acquire /kmem_release. mrun.
  destruct ul; simpl; by destruct (r =? 0).
Qed.

Lemma kfree_pushes s l v :
  kmem_inv s l → page_ok v → v ∉ l →
  ∃ s', kfree v s = Ok (tt, s') ∧ kmem_inv s' (v :: l) ∧ k_use_lock s' = k_use_lock s ∧
    ∀ x, ¬ in_page v x → mread (k_mem s') x = mread (k_mem s) x.
Proof.
  intros (Hc & Hnd & Hok & Hlk) Hv Hnin. eexists. split; [by apply kfree_ok|].
  assert (∀ x, ¬ in_page v x →
    mread (st32 (memset (k_mem s) v 1 PGSIZE) v (k_freelist s)) x = mread (k_mem s) x) as Hfr.
  { intros x Hx. rw mread_st32 mread_memset; [done|].
    rw /in_page /PGSIZE in Hx. repeat case_decide; clia || done. }
  split; [|done]. split_and!; simpl; [|by constructor..|done].
  split; [done|]. rw ld32_st32_eq.
  assert (u32 (k_freelist s) = k_freelist s) as ->.
  { apply u32_small. destruct l as [|p l]; simpl in Hc; [lia|].
    destruct Hc as [-> _]. apply Forall_cons in Hok as [Hp%page_ok_range _]. clia. }
  eapply chain_frame; [|done]. intros p x Hp Hx. apply Hfr => Hxv.
  destruct Hv as [Hv _]. rewrite -> Forall_forall in Hok. destruct (Hok p Hp) as [Hpa _].
  by rw (pages_apart v p x Hv Hpa Hxv Hx) in Hnin.
Qed.

Lemma kalloc_pops s l :
  kmem_inv s l →
  ∃ r s', kalloc s = Ok (r, s') ∧ k_mem s' = k_mem s ∧ k_use_lock s' = k_use_lock s ∧
    match l with
    | [] => r = 0 ∧ s' = s
    | p :: l' => r = p ∧ kmem_inv s' l' ∧ page_ok p ∧ p ∉ l'
    end.
Proof.
  intros (Hc & Hnd & Hok & Hlk). pose proof (chain_head _ _ _ Hc Hok) as [Hh _].
  eexists _, _. split; [by apply kalloc_ok|].
  destruct l as [|p l]; simpl in Hc.
  - rw Hc /=. done.
  - destruct Hc as [E Hc]. destruct (Z.eqb_spec (k_freelist s) 0) as [E0|_]; [by apply Hh in E0|].
    apply NoDup_cons in Hnd as [? ?]. apply Forall_cons in Hok as [? ?].
    rw E. by split_and!.
Qed.

Lemma kmem_inv_frame s m' l :
  (∀ p x, p ∈ l → in_page p x → mread m' x = mread (k_mem s) x) →
  kmem_inv s l → kmem_inv (set_mem m' s) l.
Proof.
  intros H (Hc & ? & ? & ?). split_and!; [|done..]. simpl. by eapply chain_frame.
Qed.

(** ** Refinement: the allocator is a stack of pages *)

(** What clients do: allocate, free, and store into memory. *)
Inductive kop := KAlloc | KFree (v : Z) | KStore (a v : Z).

Definition exec_kop (op : kop) : M kstate Z :=
  match op with
  | KAlloc => kalloc
  | KFree v => kfree v ;; mret 0
  | KStore a v => modify (λ s, set_mem (mwrite (k_mem s) a v) s) ;; mret 0
  end.

Fixpoint exec_kops (ops : list kop) : M kstate (list Z) :=
  match ops with
  | [] => mret []
  | op :: ops => r ← exec_kop op; rs ← exec_kops ops; mret (r :: rs)
  end.

#[global] Instance page_ok_dec p : Decision (page_ok p).
Proof. rw /page_ok. apply _. Defined.
#[global] Instance in_page_dec p x : Decision (in_page p x).
Proof. rw /in_page. apply _. Defined.

(** The contract: free only valid pages that are not free already, and store only
    outside the free pages.  [None] is a breach by the client. *)
Definition spec_kop (l : list Z) (op : kop) : option (Z * list Z) :=
  match op with
  | KAlloc => match l with [] => Some (0, []) | p :: l => Some (p, l) end
  | KFree v => if decide (page_ok v ∧ v ∉ l) then Some (0, v :: l) else None
  | KStore a v => if decide (Forall (λ p, ¬ in_page p a) l) then Some (0, l) else None
  end.

Fixpoint spec_kops (l : list Z) (ops : list kop) : option (list Z * list Z) :=
  match ops with
  | [] => Some ([], l)
  | op :: ops =>
      '(r, l1) ← spec_kop l op; '(rs, l2) ← spec_kops l1 ops; Some (r :: rs, l2)
  end.

Lemma exec_kop_refines s l op r l' :
  kmem_inv s l → spec_kop l op = Some (r, l') →
  ∃ s', exec_kop op s = Ok (r, s') ∧ kmem_inv s' l'.
Proof.
  intros Hi. destruct op as [|v|a v]; simpl.
  - destruct (kalloc_pops s l Hi) as (r' & s' & E & _ & _ & H) => Hs.
    exists s'. destruct l as [|p l]; injection Hs as <- <-.
    + by destruct H as [-> ->].
    + by destruct H as (-> & ? & _).
  - case_decide as Hv; [|done]. intros [= <- <-]. destruct Hv as [Hv Hn].
    destruct (kfree_pushes s l v Hi Hv Hn) as (s' & E & Hi' & _).
    exists s'. by rw (bind_Ok _ _ _ _ _ E).
  - case_decide as Ha; [|done]. intros [= <- <-]. eexists. split; [done|].
    apply kmem_inv_frame; [|done]. intros p x Hp Hx. rw mread_mwrite.
    case_decide; [|done]. subst. rewrite -> Forall_forall in Ha. by destruct (Ha p Hp).
Qed.

(** The allocator refines a stack of free pages.  For every sequence of
    allocations, frees and stores that keeps the contract, [kalloc] and [kfree]
    return without panicking, give the results the abstract stack gives (0 exactly
    when the stack is empty, a page freed last is handed out first), and end with
    a free list that represents the abstract stack. *)
Theorem kalloc_refines_stack s l ops rs l' :
  kmem_inv s l → spec_kops l ops = Some (rs, l') →
  ∃ s', exec_kops ops s = Ok (rs, s') ∧ kmem_inv s' l'.
Proof.
  revert s l rs. induction ops as [|op ops IH] => s l rs Hi /=.
  { intros [= <- <-]. by exists s. }
  destruct (spec_kop l op) as [[r l1]|] eqn:E1; simpl; [|done].
  destruct (spec_kops l1 ops) as [[rs' l2]|] eqn:E2; simpl; [|done]. intros [= <- <-].
  destruct (exec_kop_refines s l op r l1 Hi E1) as (s1 & X1 & Hi1).
  destruct (IH s1 l1 rs' Hi1 E2) as (s2 & X2 & Hi2).
  exists s2. split; [|done]. rw (bind_Ok _ _ _ _ _ X1) (bind_Ok _ _ _ _ _ X2) //.
Qed.

(** ** Initialisation *)

(** The pages [freerange] walks, in order. *)
Fixpoint pages_from (p : Z) (n : nat) : list Z :=
  match n with
  | O => []
  | S n => p :: pages_from (p + PGSIZE) n
  end.

Lemma elem_of_pages_from p n q :
  q ∈ pages_from p n ↔ ∃ i, 0 ≤ i < Z.of_nat n ∧ q = p + PGSIZE * i.
Proof.
  revert p. induction n as [|n IH] => p /=.
  { rw elem_of_nil. split; [done|]. intros (i & ? & _). lia. }
  rw elem_of_cons IH. split.
  - intros [->|(i & Hi & ->)]; [exists 0|exists (i + 1)]; lia.
  - intros (i & Hi & ->). destruct (decide (i = 0)) as [->|]; [left; lia|].
    right. exists (i - 1). lia.
Qed.

Lemma freerange_loop_pushes s l p n :
  kmem_inv s l → Forall page_ok (pages_from p n) → (∀ q, q ∈ pages_from p n → q ∉ l) →
  ∃ s', freerange_loop n p s = Ok (tt, s') ∧ k_use_lock s' = k_use_lock s ∧
    kmem_inv s' (reverse (pages_from p n) ++ l).
Proof.
  revert s l p. induction n as [|n IH] => s l p Hi Hok Hd; [by exists s|].
  simpl in Hok, Hd. apply Forall_cons in Hok as [Hp Hok].
  destruct (kfree_pushes s l p Hi Hp) as (s1 & E1 & Hi1 & Hul & _); [apply Hd; by left|].
  destruct (IH s1 (p :: l) (p + PGSIZE) Hi1 Hok) as (s2 & E2 & Hul2 & Hi2).
  { intros q Hq. rw elem_of_cons. intros [->|Hql]; [|by apply (Hd q); [right|]].
    apply elem_of_pages_from in Hq as (i & ? & Hq). clia. }
  exists s2. split; [simpl; by rw (bind_Ok _ _ _ _ _ E1)|]. split; [congruence|].
  simpl. by rw reverse_cons -app_assoc.
Qed.

(** The whole pages of [a, b). *)
Lemma elem_of_whole_pages a b q :
  0 ≤ a ≤ b → b ≤ KERNBASE + PHYSTOP →
  q ∈ pages_from (PGROUNDUP a) (Z.to_nat ((b - PGROUNDUP a) / PGSIZE)) ↔
  q mod PGSIZE = 0 ∧ a ≤ q ∧ q + PGSIZE ≤ b.
Proof.
  intros Hab Hb. rw elem_of_pages_from PGROUNDUP_eq; [clia|]. rw /PGSIZE. split.
  - intros (i & Hi & ->). dlia.
  - intros (H1 & H2 & H3). exists ((q - (a + 4095) / 4096 * 4096) / 4096). dlia.
Qed.

Lemma freerange_pushes s l a b :
  kmem_inv s l → kend ≤ a ≤ b → b ≤ KERNBASE + PHYSTOP →
  (∀ q, q ∈ l → a ≤ q → q + PGSIZE ≤ b → False) →
  ∃ s' l', freerange a b s = Ok (tt, s') ∧ k_use_lock s' = k_use_lock s ∧ kmem_inv s' l' ∧
    ∀ q, q ∈ l' ↔ q ∈ l ∨ q mod PGSIZE = 0 ∧ a ≤ q ∧ q + PGSIZE ≤ b.
Proof.
  intros Hi Ha Hb Hd. rw /freerange.
  assert (0 ≤ a ≤ b) as Hab by clia.
  destruct (freerange_loop_pushes s l (PGROUNDUP a)
    (Z.to_nat ((b - PGROUNDUP a) / PGSIZE))) as (s' & E & Hul & Hi'); [done| | |].
  - apply Forall_forall => q /elem_of_whole_pages Hq. destruct Hq as (?&?&?); [done..|].
    rw /page_ok. split_and!; lia || done.
  - intros q Hq%elem_of_whole_pages Hql; [|done..]. destruct Hq as (?&?&?). by eapply Hd.
  - eexists _, _. split_and!; [exact E|done|exact Hi'|]. intros q.
    rw elem_of_app elem_of_reverse elem_of_whole_pages //. tauto.
Qed.

(** Boot-time initialisation: [kinit1] over a first range and [kinit2] over a
    later one never panic, leave [kmem.lock] in use, and put on the free list
    exactly the whole pages of the two ranges, each once. *)
Theorem kinit_frees_all_pages s a b c d :
  kend ≤ a ≤ b → b ≤ c ≤ d → d ≤ KERNBASE + PHYSTOP → k_freelist s = 0 →
  ∃ s' l, (kinit1 a b ;; kinit2 c d) s = Ok (tt, s') ∧ k_use_lock s' = true ∧
    kmem_inv s' l ∧
    ∀ q, q ∈ l ↔ q mod PGSIZE = 0 ∧ (a ≤ q ∧ q + PGSIZE ≤ b ∨ c ≤ q ∧ q + PGSIZE ≤ d).
Proof.
  intros Hab Hcd Hd Hs.
  destruct (freerange_pushes (mkKstate (k_mem s) 0 false false) [] a b)
    as (s1 & l1 & E1 & _ & Hi1 & H1); [split_and!; by constructor|done|lia|by intros ? ?%not_elem_of_nil|].
  destruct (freerange_pushes s1 l1 c d) as (s2 & l2 & E2 & _ & Hi2 & H2); [done|lia|lia| |].
  { intros q [?%not_elem_of_nil|]%H1; [done|]. clia. }
  exists (set_use_lock true s2), l2. split_and!; [|done|by destruct s2|].
  - assert (kinit1 a b s = Ok (tt, s1)) as E1'.
    { rw -E1 /kinit1. mrun. by destruct s; simpl in *; subst. }
    rw (bind_Ok _ _ _ _ _ E1') /kinit2 (bind_Ok _ _ _ _ _ E2) //.
  - intros q. rw H2 H1 elem_of_nil. tauto.
Qed.
End kalloc.

(** A machine with four free pages after [end]. *)
Definition example_kend : Z := KERNLINK + 0x8000.
Definition example_kstate : kstate := mkKstate ∅ 0 false false.

Lemma kinit_frees_all_pages_witness :
  ∃ s' l, (kinit1 example_kend (example_kend + 5) (example_kend + 0x2005) ;;
           kinit2 example_kend (example_kend + 0x2005) (example_kend + 0x4000)) example_kstate
          = Ok (tt, s') ∧ k_use_lock s' = true ∧ kmem_inv example_kend s' l ∧
    ∀ q, q ∈ l ↔ q mod PGSIZE = 0 ∧
      (example_kend + 5 ≤ q ∧ q + PGSIZE ≤ example_kend + 0x2005 ∨
       example_kend + 0x2005 ≤ q ∧ q + PGSIZE ≤ example_kend + 0x4000).
Proof.
  apply kinit_frees_all_pages; rw /example_kend; clia || done.
Defined.

Lemma kalloc_refines_stack_witness :
  ∃ s', exec_kops example_kend
    [KFree (example_kend + 0x1000); KFree example_kend; KAlloc; KStore (example_kend + 8) 77;
     KAlloc; KAlloc] example_kstate
    = Ok ([0; 0; example_kend; 0; example_kend + 0x1000; 0], s') ∧
    kmem_inv example_kend s' [].
Proof.
  apply (kalloc_refines_stack example_kend) with (l := []).
  - rw /example_kend. clia.
  - split_and!; by constructor.
  - vm_compute. done.
Defined.
