(* ===== verification/Vm.v ===== *)
(** * Virtual memory (vm.c)

    Two-level page tables kept in kernel memory and read by the paging hardware:
    the operations of vm.c over the allocator's state (Kalloc), the translation
    the hardware makes of a page directory, and what the operations do to it. *)

From S2P Require Import Prelude Params KMemory Kalloc.

Section vm.
(** [end] and [data], defined by the linker script. *)
Variables (kend kdata : Z).
Abbreviation kalloc := Kalloc.kalloc.
Abbreviation kfree := (Kalloc.kfree kend).

(** Loads and stores through a kernel pointer. *)
Definition load32 (a : Z) : M kstate Z := gets (λ s, ld32 (k_mem s) a).
Definition store32 (a v : Z) : M kstate unit := modify (λ s, set_mem (st32 (k_mem s) a v) s).
Definition do_memset (a c n : Z) : M kstate unit :=
  modify (λ s, set_mem (memset (k_mem s) a c n) s).
Definition do_memmove (d a n : Z) : M kstate unit :=
  modify (λ s, set_mem (memmove (k_mem s) d a n) s).

Definition present (e : Z) : bool := negb (Z.land e PTE_P =? 0).

Definition walkpgdir (pgdir va : Z) (alloc : bool) : M kstate Z :=
  let pde := pgdir + 4 * PDX va in
  e ← load32 pde;
  if present e then mret (P2V (PTE_ADDR e) + 4 * PTX va)
  else if negb alloc then mret 0
  else
    pgtab ← kalloc;
    if pgtab =? 0 then mret 0
    else
      do_memset pgtab 0 PGSIZE ;;
      store32 pde (Z.lor (Z.lor (Z.lor (V2P pgtab) PTE_P) PTE_W) PTE_U) ;;
      mret (pgtab + 4 * PTX va).

(** The loop runs until [a == last]: [n] counts the pages after [a]. *)
Fixpoint mappages_loop (n : nat) (pgdir a pa perm : Z) : M kstate Z :=
  pte ← walkpgdir pgdir a true;
  if pte =? 0 then mret (-1) else
  e ← load32 pte;
  if present e then panic "remap" else
  store32 pte (Z.lor (Z.lor pa perm) PTE_P) ;;
  match n with
  | O => mret 0
  | S n => mappages_loop n pgdir (u32 (a + PGSIZE)) (u32 (pa + PGSIZE)) perm
  end.
Definition mappages (pgdir va size pa perm : Z) : M kstate Z :=
  let a := PGROUNDDOWN va in
  let last := PGROUNDDOWN (u32 (u32 (va + size) - 1)) in
  mappages_loop (Z.to_nat (u32 (last - a) / PGSIZE)) pgdir a pa perm.

(** [deallocuvm]'s loop; [fuel] bounds its rounds, each of which moves [a] up by
    at least a page. *)
Fixpoint deallocuvm_loop (fuel : nat) (pgdir a oldsz : Z) : M kstate unit :=
  match fuel with
  | O => mret tt
  | S fuel =>
      if a <? oldsz then
        pte ← walkpgdir pgdir a false;
        if pte =? 0 then
          let a := u32 (PGADDR (PDX a + 1) 0 0 - PGSIZE) in
          deallocuvm_loop fuel pgdir (u32 (a + PGSIZE)) oldsz
        else
          e ← load32 pte;
          (if present e then
             let pa := PTE_ADDR e in
             if pa =? 0 then panic "kfree" else
             kfree (P2V pa) ;;
             store32 pte 0
           else mret tt) ;;
          deallocuvm_loop fuel pgdir (u32 (a + PGSIZE)) oldsz
      else mret tt
  end.
Definition page_rounds (a b : Z) : nat := S (Z.to_nat ((b - a) / PGSIZE)).
Definition deallocuvm (pgdir oldsz newsz : Z) : M kstate Z :=
  if oldsz <=? newsz then mret (s32 oldsz)
  else
    let a := PGROUNDUP newsz in
    deallocuvm_loop (page_rounds a oldsz) pgdir a oldsz ;;
    mret (s32 newsz).

(** [for(; a < newsz; a += PGSIZE)] of [allocuvm]. *)
Fixpoint allocuvm_loop (fuel : nat) (pgdir a oldsz newsz : Z) : M kstate Z :=
  match fuel with
  | O => mret (s32 newsz)
  | S fuel =>
      if a <? newsz then
        m ← kalloc;
        if m =? 0 then deallocuvm pgdir newsz oldsz ;; mret 0
        else
          do_memset m 0 PGSIZE ;;
          r ← mappages pgdir a PGSIZE (V2P m) (Z.lor PTE_W PTE_U);
          if r <? 0 then deallocuvm pgdir newsz oldsz ;; kfree m ;; mret 0
          else allocuvm_loop fuel pgdir (u32 (a + PGSIZE)) oldsz newsz
      else mret (s32 newsz)
  end.
Definition allocuvm (pgdir oldsz newsz : Z) : M kstate Z :=
  if KERNBASE <=? newsz then mret 0
  else if newsz <? oldsz then mret (s32 oldsz)
  else
    let a := PGROUNDUP oldsz in
    allocuvm_loop (page_rounds a newsz) pgdir a oldsz newsz.

(** [freevm]'s loop over the page directory, [n] entries from [i] on. *)
Fixpoint freevm_loop (n : nat) (pgdir i : Z) : M kstate unit :=
  match n with
  | O => mret tt
  | S n =>
      e ← load32 (pgdir + 4 * i);
      (if present e then kfree (P2V (PTE_ADDR e)) else mret tt) ;;
      freevm_loop n pgdir (i + 1)
  end.
Definition freevm (pgdir : Z) : M kstate unit :=
  if pgdir =? 0 then panic "freevm: no pgdir" else
  deallocuvm pgdir KERNBASE 0 ;;
  freevm_loop (Z.to_nat NPDENTRIES) pgdir 0 ;;
  kfree pgdir.

(** [kmap]: (virt, phys_start, phys_end, perm). *)
Definition kmap : list (Z * Z * Z * Z) :=
  [ (KERNBASE, 0, EXTMEM, PTE_W);
    (KERNLINK, V2P KERNLINK, V2P kdata, 0);
    (kdata, V2P kdata, PHYSTOP, PTE_W);
    (DEVSPACE, DEVSPACE, 0, PTE_W) ].

Fixpoint setupkvm_loop (ks : list (Z * Z * Z * Z)) (pgdir : Z) : M kstate Z :=
  match ks with
  | [] => mret pgdir
  | (virt, ps, pe, perm) :: ks =>
      r ← mappages pgdir virt (u32 (pe - ps)) ps perm;
      if r <? 0 then freevm pgdir ;; mret 0
      else setupkvm_loop ks pgdir
  end.
Definition setupkvm : M kstate Z :=
  pgdir ← kalloc;
  if pgdir =? 0 then mret 0 else
  do_memset pgdir 0 PGSIZE ;;
  if DEVSPACE <? P2V PHYSTOP then panic "PHYSTOP too high" else
  setupkvm_loop kmap pgdir.

(** [inituvm]: the program [init] is given by its bytes, at the address [src]. *)
Definition inituvm (pgdir src sz : Z) : M kstate unit :=
  if PGSIZE <=? sz then panic "inituvm: more than a page" else
  m ← kalloc;
  do_memset m 0 PGSIZE ;;
  mappages pgdir 0 PGSIZE (V2P m) (Z.lor PTE_W PTE_U) ;;
  do_memmove m src sz.

(** [loaduvm] over fs.c's [readi], which takes the destination, the offset and the
    number of bytes; [T] is the state it runs on, of which kernel memory is a part. *)
Section loaduvm.
Context {T : Type} (km : ∀ A, M kstate A → M T A).
Variable readi : Z → Z → Z → M T Z.
Fixpoint loaduvm_loop (fuel : nat) (pgdir addr offset i sz : Z) : M T Z :=
  match fuel with
  | O => mret 0
  | S fuel =>
      if i <? sz then
        pte ← km _ (walkpgdir pgdir (u32 (addr + i)) false);
        if pte =? 0 then panic "loaduvm: address should exist" else
        e ← km _ (load32 pte);
        let pa := PTE_ADDR e in
        let n := if sz - i <? PGSIZE then sz - i else PGSIZE in
        r ← readi (P2V pa) (u32 (offset + i)) n;
        if negb (r =? n) then mret (-1)
        else loaduvm_loop fuel pgdir addr offset (u32 (i + PGSIZE)) sz
      else mret 0
  end.
Definition loaduvm (pgdir addr offset sz : Z) : M T Z :=
  if negb (u32 addr mod PGSIZE =? 0) then panic "loaduvm: addr must be page aligned" else
  loaduvm_loop (page_rounds 0 sz) pgdir addr offset 0 sz.
End loaduvm.

Definition clearpteu (pgdir uva : Z) : M kstate unit :=
  pte ← walkpgdir pgdir uva false;
  if pte =? 0 then panic "clearpteu" else
  e ← load32 pte;
  store32 pte (Z.land e (Z.lnot PTE_U)).

Fixpoint copyuvm_loop (fuel : nat) (pgdir d i sz : Z) : M kstate Z :=
  match fuel with
  | O => mret d
  | S fuel =>
      if i <? sz then
        pte ← walkpgdir pgdir i false;
        if pte =? 0 then panic "copyuvm: pte should exist" else
        e ← load32 pte;
        if negb (present e) then panic "copyuvm: page not present" else
        let pa := PTE_ADDR e in
        let flags := PTE_FLAGS e in
        m ← kalloc;
        if m =? 0 then freevm d ;; mret 0
        else
          do_memmove m (P2V pa) PGSIZE ;;
          r ← mappages d i PGSIZE (V2P m) flags;
          if r <? 0 then kfree m ;; freevm d ;; mret 0
          else copyuvm_loop fuel pgdir d (u32 (i + PGSIZE)) sz
      else mret d
  end.
Definition copyuvm (pgdir sz : Z) : M kstate Z :=
  d ← setupkvm;
  if d =? 0 then mret 0 else copyuvm_loop (page_rounds 0 sz) pgdir d 0 sz.

(** [uva2ka] reads the entry without a null check: where the address has no page
    table it reads [user_word0], the word at virtual address 0 of the page table
    that is loaded, which belongs to the running program. *)
Variable user_word0 : Z.
Definition uva2ka (pgdir uva : Z) : M kstate Z :=
  pte ← walkpgdir pgdir uva false;
  e ← (if pte =? 0 then mret user_word0 else load32 pte);
  if Z.land e PTE_P =? 0 then mret 0
  else if Z.land e PTE_U =? 0 then mret 0
  else mret (P2V (PTE_ADDR e)).

(** The bytes [p] of the caller's buffer to [va]. *)
Fixpoint store_bytes (a : Z) (bs : list Z) : M kstate unit :=
  match bs with
  | [] => mret tt
  | b :: bs => modify (λ s, set_mem (mwrite (k_mem s) a b) s) ;; store_bytes (a + 1) bs
  end.
Fixpoint copyout_loop (fuel : nat) (pgdir va : Z) (buf : list Z) : M kstate Z :=
  match fuel with
  | O => mret 0
  | S fuel =>
      let len := Z.of_nat (length buf) in
      if 0 <? len then
        let va0 := PGROUNDDOWN va in
        pa0 ← uva2ka pgdir va0;
        if pa0 =? 0 then mret (-1) else
        let n := PGSIZE - (va - va0) in
        let n := if len <? n then len else n in
        store_bytes (pa0 + (va - va0)) (take (Z.to_nat n) buf) ;;
        copyout_loop fuel pgdir (u32 (va0 + PGSIZE)) (drop (Z.to_nat n) buf)
      else mret 0
  end.
Definition copyout (pgdir va : Z) (p : list Z) : M kstate Z :=
  copyout_loop (S (page_rounds 0 (Z.of_nat (length p)))) pgdir va p.

(** ** The hardware's view of a page directory *)

Definition entry (m : mem) (tab i : Z) : Z := ld32 m (tab + 4 * i).

(** The translation of a virtual address: physical address of the byte and flags,
    when both levels are present. *)
Definition translate (m : mem) (pgdir va : Z) : option (Z * Z) :=
  let pde := entry m pgdir (PDX va) in
  if present pde then
    let pte := entry m (P2V (PTE_ADDR pde)) (PTX va) in
    if present pte then Some (PTE_ADDR pte + va mod PGSIZE, PTE_FLAGS pte) else None
  else None.

(** ** The invariant of a page directory *)

Abbreviation page_ok := (Kalloc.page_ok kend).
Abbreviation kmem_inv := (Kalloc.kmem_inv kend).

(** [tabs] are the page tables, by directory index; no two entries share one, and
    none is free or the directory itself. *)
Record pgdir_inv (s : kstate) (free : list Z) (pgdir : Z) (tabs : gmap Z Z) : Prop := {
  pd_kmem : kmem_inv s free;
  pd_page : page_ok pgdir ∧ pgdir ∉ free;
  pd_entry i : 0 ≤ i < 1024 →
    match tabs !! i with
    | Some t => entry (k_mem s) pgdir i = V2P t + 7
    | None => present (entry (k_mem s) pgdir i) = false
    end;
  pd_tab i t : tabs !! i = Some t → 0 ≤ i < 1024 ∧ page_ok t ∧ (t ∉ free) ∧ (t ≠ pgdir);
  pd_inj i j t : tabs !! i = Some t → tabs !! j = Some t → i = j;
}.

(** The entry for page number [v]; 0 where there is no table. *)
Definition pte_at (m : mem) (tabs : gmap Z Z) (v : Z) : Z :=
  match tabs !! (v / 1024) with
  | Some t => entry m t (v mod 1024)
  | None => 0
  end.

(** The page in kernel memory an entry points to. *)
Definition frame (e : Z) : Z := P2V (PTE_ADDR e).

(** User pages: every present entry below [KERNBASE] has a frame of its own. *)
Definition user_pages : Z := 524288.
Record user_inv (m : mem) (free : list Z) (pgdir : Z) (tabs : gmap Z Z) : Prop := {
  us_frame v : 0 ≤ v < user_pages → present (pte_at m tabs v) = true →
    page_ok (frame (pte_at m tabs v)) ∧ (frame (pte_at m tabs v) ∉ free) ∧
    (frame (pte_at m tabs v) ≠ pgdir) ∧ (∀ i, tabs !! i ≠ Some (frame (pte_at m tabs v)));
  us_inj v w : 0 ≤ v < user_pages → 0 ≤ w < user_pages →
    present (pte_at m tabs v) = true → present (pte_at m tabs w) = true →
    frame (pte_at m tabs v) = frame (pte_at m tabs w) → v = w;
}.

(** ** Entries *)

Hypothesis kend_range : KERNLINK ≤ kend ≤ KERNBASE + PHYSTOP.

Lemma V2P_page t : page_ok t → V2P t = t - KERNBASE ∧ V2P t mod 4096 = 0 ∧ 1048576 ≤ V2P t < PHYSTOP.
Proof.
  intros Ht. pose proof (page_ok_range _ kend_range t Ht). destruct Ht as (Ha & _ & _).
  rw /V2P (u32_small t); [clia|]. rw u32_small; [clia|]. clia.
Qed.

(** An entry made of a page and flags, taken apart again. *)
Lemma entry_parts t fl :
  page_ok t → 0 ≤ fl < 4096 →
  Z.lor (V2P t) fl = V2P t + fl ∧ PTE_ADDR (V2P t + fl) = V2P t ∧ PTE_FLAGS (V2P t + fl) = fl ∧
  frame (V2P t + fl) = t ∧ u32 (V2P t + fl) = V2P t + fl.
Proof.
  intros Ht Hfl. destruct (V2P_page t Ht) as (E & Ha & Hr).
  assert (u32 (V2P t + fl) = V2P t + fl) as Eu by (apply u32_small; clia).
  assert ((V2P t + fl) mod 4096 = fl) as Em.
  { rw Z.add_mod // Ha Z.add_0_l Z.mod_mod // Z.mod_small //. }
  split_and!; [by apply (lor_disjoint_add _ _ 12)| | | |done].
  - rw PTE_ADDR_eq Eu Em. lia.
  - by rw PTE_FLAGS_eq Eu.
  - rw /frame PTE_ADDR_eq Eu Em /P2V E u32_small; clia.
Qed.

Lemma present_odd e : present e = Z.odd e.
Proof. rw /present /PTE_P (Z.land_ones _ 1) // Zmod_odd. by destruct (Z.odd e). Qed.

Lemma entry_range m tab i : 0 ≤ entry m tab i < 4294967296.
Proof. apply ld32_range. Qed.

Lemma walk_index va : 0 ≤ va < 4294967296 → 0 ≤ PDX va < 1024 ∧ 0 ≤ PTX va < 1024 ∧
  PDX va = va / 4096 / 1024 ∧ PTX va = (va / 4096) mod 1024.
Proof.
  intros. rw PDX_eq PTX_eq u32_small //. split_and!; dlia.
Qed.

(** Words of different pages, or at different indices, do not overlap. *)
Lemma word_in_page t i x : 0 ≤ i < 1024 → t + 4 * i ≤ x < t + 4 * i + 4 → in_page t x.
Proof. rw /in_page /PGSIZE. lia. Qed.

Definition aligned (t : Z) : Prop := t mod PGSIZE = 0.

Lemma entry_st32 m t i v u j :
  aligned t → aligned u → 0 ≤ i < 1024 → 0 ≤ j < 1024 →
  entry (st32 m (t + 4 * i) v) u j = if decide (u = t ∧ j = i) then u32 v else entry m u j.
Proof.
  rw /aligned /PGSIZE /entry. intros. case_decide as E.
  - destruct E as [-> ->]. apply ld32_st32_eq.
  - apply ld32_st32_ne. destruct (decide (u = t)); [|dlia]. assert (j ≠ i) by naive_solver. lia.
Qed.

Lemma entry_ext m m' t i :
  0 ≤ i < 1024 → (∀ x, in_page t x → mread m' x = mread m x) → entry m' t i = entry m t i.
Proof. intros Hi H. apply ld32_ext => x Hx. by apply H, (word_in_page _ i). Qed.

Lemma entry_zero m t i :
  0 ≤ i < 1024 → (∀ x, in_page t x → mread m x = 0) → entry m t i = 0.
Proof.
  intros Hi H. rw /entry /ld32 !H //; rw /in_page /PGSIZE; lia.
Qed.

Lemma mread_memset_page m t c x :
  mread (memset m t c PGSIZE) x = if decide (in_page t x) then u8 c else mread m x.
Proof. rw mread_memset //. Qed.

(** ** [walkpgdir] *)

Implicit Types (s : kstate) (free : list Z) (tabs : gmap Z Z).

Lemma walk_found s free pgdir tabs va t al :
  pgdir_inv s free pgdir tabs → 0 ≤ va < 4294967296 → tabs !! PDX va = Some t →
  walkpgdir pgdir va al s = Ok (t + 4 * PTX va, s).
Proof.
  intros HI Hva Ht. destruct (walk_index va Hva) as (Hd & _).
  pose proof (pd_entry _ _ _ _ HI _ Hd) as He. rw Ht in He.
  destruct (pd_tab _ _ _ _ HI _ _ Ht) as (_ & Hp & _).
  destruct (entry_parts t 7 Hp) as (_ & Ea & _ & Ef & _); [lia|].
  destruct (V2P_page t Hp) as (_ & Hm & _).
  rw /walkpgdir /load32. mget. rw -/(entry _ _ _) He. rw present_odd Z.odd_add.
  replace (Z.odd (V2P t)) with false; [|symmetry; rw -Z.negb_even; apply negb_false_iff, Z.even_spec].
  2: { exists (V2P t / 2). dlia. }
  simpl. rw -/(frame _) Ef //.
Qed.

Lemma walk_absent s free pgdir tabs va :
  pgdir_inv s free pgdir tabs → 0 ≤ va < 4294967296 → tabs !! PDX va = None →
  walkpgdir pgdir va false s = Ok (0, s).
Proof.
  intros HI Hva Ht. destruct (walk_index va Hva) as (Hd & _).
  pose proof (pd_entry _ _ _ _ HI _ Hd) as He. rw Ht in He.
  rw /walkpgdir /load32. mget. rw -/(entry _ _ _) He //.
Qed.

Lemma pgdir_inv_add_table s s1 t free pgdir tabs d m2 :
  pgdir_inv s (t :: free) pgdir tabs → kmem_inv s1 free → k_mem s1 = k_mem s →
  page_ok t → t ∉ free → 0 ≤ d < 1024 → tabs !! d = None →
  entry m2 pgdir d = V2P t + 7 →
  (∀ x, ¬ in_page t x → ¬ (pgdir + 4 * d ≤ x < pgdir + 4 * d + 4) → mread m2 x = mread (k_mem s) x) →
  pgdir_inv (set_mem m2 s1) free pgdir (<[d := t]> tabs).
Proof.
  intros HI Hk1 Em Hpt Hnt Hd Ht He Hfr.
  destruct (pd_page _ _ _ _ HI) as [[Hpa Hpr] Hnf].
  apply not_elem_of_cons in Hnf as [Hne Hnf]. pose proof Hpt as [Hta _].
  assert (∀ p, p ∈ free → page_ok p) as Hfree.
  { destruct Hk1 as (_ & _ & Hok & _). by apply Forall_forall. }
  split.
  - apply kmem_inv_frame; [|done]. intros p x Hp Hx. rw Em. destruct (Hfree p Hp) as [Hpal _].
    apply Hfr.
    + intros Hx'. by rw (pages_apart t p x Hta Hpal Hx' Hx) in Hnt.
    + intros Hw. apply word_in_page in Hw; [|done].
      by rw (pages_apart pgdir p x Hpa Hpal Hw Hx) in Hnf.
  - done.
  - intros i Hi. cbn [k_mem set_mem]. rw lookup_insert. case_decide as Ei; [by subst|].
    assert (entry m2 pgdir i = entry (k_mem s) pgdir i) as ->; [|by apply HI].
    apply ld32_ext => x Hx. apply Hfr; [|lia]. intros Hx'.
    apply word_in_page in Hx; [|done]. by apply Hne, (pages_apart pgdir t x Hpa Hta Hx Hx').
  - intros i u. rw lookup_insert. case_decide as Ei.
    + intros [= <-]. subst. split_and!; [lia|lia|done..|congruence].
    + intros Hu. destruct (pd_tab _ _ _ _ HI _ _ Hu) as (?&?&Hn&?).
      apply not_elem_of_cons in Hn as [_ Hn]. do 3 (split; [done|]). done.
  - assert (∀ i, tabs !! i ≠ Some t) as Hfresh.
    { intros i Hu. destruct (pd_tab _ _ _ _ HI _ _ Hu) as (_&_&Hn&_). set_solver. }
    intros i j u. rw !lookup_insert. case_decide as Ei; case_decide as Ej.
    + intros _ _. congruence.
    + intros [= <-] Hj. by apply Hfresh in Hj.
    + intros Hj [= <-]. by apply Hfresh in Hj.
    + apply HI.
Qed.

(** A new, empty page table. *)
Lemma walk_new s t free pgdir tabs va :
  pgdir_inv s (t :: free) pgdir tabs → 0 ≤ va < 4294967296 → tabs !! PDX va = None →
  ∃ s', walkpgdir pgdir va true s = Ok (t + 4 * PTX va, s') ∧
    pgdir_inv s' free pgdir (<[PDX va := t]> tabs) ∧
    (∀ x, in_page t x → mread (k_mem s') x = 0) ∧
    (∀ x, ¬ in_page t x → ¬ in_page pgdir x → mread (k_mem s') x = mread (k_mem s) x).
Proof.
  intros HI Hva Ht. destruct (walk_index va Hva) as (Hd & _).
  pose proof (pd_entry _ _ _ _ HI _ Hd) as He. rw Ht in He.
  destruct (pd_page _ _ _ _ HI) as [[Hpa Hpr] Hnf].
  apply not_elem_of_cons in Hnf as [Hne Hnf].
  destruct (kalloc_pops _ kend_range _ _ (pd_kmem _ _ _ _ HI)) as (r & s1 & Ek & Em & _ & -> & Hk1 & Hpt & Hnt).
  destruct (entry_parts t 7 Hpt) as (Elor & _ & _ & _ & Eu); [lia|].
  pose proof Hpt as [Hta _].
  set (m1 := memset (k_mem s1) t 0 PGSIZE).
  set (m2 := st32 m1 (pgdir + 4 * PDX va) (V2P t + 7)).
  assert (walkpgdir pgdir va true s = Ok (t + 4 * PTX va, set_mem m2 s1)) as Ew.
  { rw /walkpgdir /load32. mget. rw -/(entry _ _ _) He. cbn [negb]. mgo Ek.
    destruct (page_ok_range _ kend_range t Hpt) as (_ & _ & Hnz).
    destruct (Z.eqb_spec t 0); [done|]. rw /do_memset /store32. mget.
    rw -!Z.lor_assoc. change (Z.lor PTE_P (Z.lor PTE_W PTE_U)) with 7. rw Elor. reflexivity. }
  assert (∀ x, mread m2 x =
    if decide (pgdir + 4 * PDX va ≤ x < pgdir + 4 * PDX va + 4) then
      u8 ((V2P t + 7) / 256 ^ (x - (pgdir + 4 * PDX va)))
    else if decide (in_page t x) then 0 else mread (k_mem s) x) as Hm2.
  { intros x. rw /m2 mread_st32 /m1 mread_memset_page Em. reflexivity. }
  assert (entry m2 pgdir (PDX va) = V2P t + 7) as He2.
  { rw /m2 /entry ld32_st32_eq. exact Eu. }
  clearbody m2. clear m1. exists (set_mem m2 s1). split; [exact Ew|].
  assert (∀ x, ¬ in_page t x → ¬ (pgdir + 4 * PDX va ≤ x < pgdir + 4 * PDX va + 4) →
    mread m2 x = mread (k_mem s) x) as Hfr.
  { intros x Hx Hx'. by rw Hm2 !decide_False. }
  split; [by apply (pgdir_inv_add_table s)|]. split.
  - intros x Hx. cbn [k_mem set_mem]. rw Hm2. rewrite -> decide_False, decide_True; [done..|].
    intros Hw. apply Hne. apply word_in_page in Hw; [|done].
    exact (pages_apart pgdir t x Hpa Hta Hw Hx).
  - intros x Hx Hx'. apply Hfr; [done|]. intros Hw. by apply Hx', (word_in_page _ (PDX va)).
Qed.

Definition vpages : Z := 1048576.
Definition same_page (m m' : mem) (p : Z) : Prop := ∀ x, in_page p x → mread m' x = mread m x.

(** How the page-table operations change the state: page tables may be added, from
    the free list; no page changes but the directory, its tables and free pages. *)
Record pt_ext (pgdir : Z) s free tabs s' free' tabs' : Prop := {
  ex_inv : pgdir_inv s' free' pgdir tabs';
  ex_sub : tabs ⊆ tabs';
  ex_new : ∃ new, free = new ++ free' ∧
    (∀ i t, tabs' !! i = Some t → tabs !! i = Some t ∨ t ∈ new) ∧
    (∀ t, t ∈ new → ∃ i, tabs' !! i = Some t);
  ex_same p : aligned p → p ≠ pgdir → p ∉ free → (∀ i, tabs !! i ≠ Some p) →
    same_page (k_mem s) (k_mem s') p;
}.

Lemma pt_ext_refl pgdir s free tabs :
  pgdir_inv s free pgdir tabs → pt_ext pgdir s free tabs s free tabs.
Proof.
  intros HI. split; [done|done| |done]. exists []. split_and!; [done|by left|by intros ? ?%elem_of_nil].
Qed.

Lemma pt_ext_trans pgdir s1 f1 t1 s2 f2 t2 s3 f3 t3 :
  pt_ext pgdir s1 f1 t1 s2 f2 t2 → pt_ext pgdir s2 f2 t2 s3 f3 t3 →
  pt_ext pgdir s1 f1 t1 s3 f3 t3.
Proof.
  intros [I2 S12 (n1 & E1 & N1 & M1) P12] [I3 S23 (n2 & E2 & N2 & M2) P23].
  split; [done|by etrans| |].
  - exists (n1 ++ n2). rw -app_assoc -E2. split_and!; [done| |].
    + intros i t Ht.
      destruct (N2 i t Ht) as [Ht2|]; [|set_solver]. destruct (N1 i t Ht2); set_solver.
    + intros t [Hn|Hn]%elem_of_app; [|by apply M2]. destruct (M1 t Hn) as [i Hi]. exists i.
      by eapply lookup_weaken.
  - intros p Ha Hp Hf Ht x Hx. rw (P23 p) //; [|..|by apply (P12 p)].
    + intros H. apply Hf. subst. set_solver.
    + intros i Hi. destruct (N1 i p Hi) as [|Hn]; [by apply (Ht i)|]. apply Hf. subst. set_solver.
Qed.

(** Storing into one entry of a table. *)
Lemma set_pte s free pgdir tabs v t e :
  pgdir_inv s free pgdir tabs → 0 ≤ v < vpages → tabs !! (v / 1024) = Some t →
  let s' := set_mem (st32 (k_mem s) (t + 4 * (v mod 1024)) e) s in
  pt_ext pgdir s free tabs s' free tabs ∧
  ∀ w, 0 ≤ w < vpages → pte_at (k_mem s') tabs w = if decide (w = v) then u32 e else pte_at (k_mem s) tabs w.
Proof.
  intros HI Hv Ht s'. rw /vpages in Hv |- *. destruct (pd_tab _ _ _ _ HI _ _ Ht) as (_ & Hpt & Hnt & Hne).
  destruct (pd_page _ _ _ _ HI) as [[Hpa _] Hnf]. pose proof Hpt as [Hta _].
  assert (0 ≤ v mod 1024 < 1024) as Hi by dlia.
  assert (∀ x, ¬ in_page t x → mread (k_mem s') x = mread (k_mem s) x) as Hfr.
  { intros x Hx. cbn [k_mem set_mem s']. rw mread_st32. rewrite -> decide_False; [done|].
    intros Hw. by apply Hx, (word_in_page _ (v mod 1024)). }
  assert (∀ p, aligned p → p ≠ t → same_page (k_mem s) (k_mem s') p) as Hpg.
  { intros p Hp Hpt' x Hx. apply Hfr. intros Hx'. by apply Hpt', (pages_apart p t x). }
  split; [split|].
  - split; [|by destruct HI..| | |]; try by destruct HI.
    + apply kmem_inv_frame; [|apply HI]. intros p x Hp Hx. apply Hfr. intros Hx'.
      destruct (pd_kmem _ _ _ _ HI) as (_ & _ & Hok & _). rewrite -> Forall_forall in Hok.
      destruct (Hok p Hp) as [Hpp _]. by rw (pages_apart t p x Hta Hpp Hx' Hx) in Hnt.
    + intros i Hi'. assert (entry (k_mem s') pgdir i = entry (k_mem s) pgdir i) as ->; [|by apply HI].
      apply entry_ext; [done|]. apply Hpg; [done|congruence].
  - done.
  - exists []. split_and!; [done|by left|by intros ? ?%elem_of_nil].
  - intros p Hp _ _ Hn. apply Hpg; [done|]. intros ->. by apply (Hn (v / 1024)).
  - intros w Hw. rw /pte_at. destruct (tabs !! (w / 1024)) as [u|] eqn:Hu.
    + destruct (pd_tab _ _ _ _ HI _ _ Hu) as (_ & [Hua _] & _ & _).
      rw /s'. cbn [k_mem set_mem]. rw entry_st32 //; [dlia|]. case_decide as E1; case_decide as E2.
      * done.
      * exfalso. apply E2. destruct E1 as [-> E1]. pose proof (pd_inj _ _ _ _ HI _ _ _ Hu Ht). dlia.
      * subst. exfalso. apply E1. split; [congruence|done].
      * done.
    + case_decide; [congruence|done].
Qed.

(** [walkpgdir] with [alloc]: the entry's table, made if it was missing. *)
Lemma walk_alloc s free pgdir tabs va :
  pgdir_inv s free pgdir tabs → 0 ≤ va < 4294967296 → (tabs !! PDX va = None → free ≠ []) →
  ∃ s' free' tabs' t, walkpgdir pgdir va true s = Ok (t + 4 * PTX va, s') ∧
    pt_ext pgdir s free tabs s' free' tabs' ∧ tabs' !! PDX va = Some t ∧
    (length free ≤ S (length free'))%nat ∧
    ∀ v, 0 ≤ v < vpages → pte_at (k_mem s') tabs' v = pte_at (k_mem s) tabs v.
Proof.
  intros HI Hva Hfree. destruct (tabs !! PDX va) as [t|] eqn:Ht.
  { exists s, free, tabs, t. split; [by eapply walk_found|]. split; [by apply pt_ext_refl|].
    split; [done|]. split; [lia|]. done. }
  destruct free as [|t free]; [by destruct Hfree|].
  destruct (walk_new s t free pgdir tabs va HI Hva Ht) as (s' & E & HI' & Hz & Hsame).
  exists s', free, (<[PDX va := t]> tabs), t. split; [done|].
  destruct (pd_page _ _ _ _ HI) as [[Hpa _] Hnf]. apply not_elem_of_cons in Hnf as [Hne Hnf].
  destruct (pd_tab _ _ _ _ HI' (PDX va) t) as (_ & [Hta _] & _); [by rw lookup_insert_eq|].
  assert (∀ p, aligned p → p ≠ pgdir → p ≠ t → same_page (k_mem s) (k_mem s') p) as Hpg.
  { intros p Hp Hn1 Hn2 x Hx. apply Hsame.
    - intros Hx'. by apply Hn2, (pages_apart p t x).
    - intros Hx'. by apply Hn1, (pages_apart p pgdir x). }
  split; [split; [done|by apply insert_subseteq| |]|].
  - exists [t]. split_and!; [done| |].
    + intros i u. rw lookup_insert. case_decide; [|by left]. intros [= <-]. right. constructor.
    + intros u ->%list_elem_of_singleton. exists (PDX va). by rw lookup_insert_eq.
  - intros p Hp Hn1 [Hn2 _]%not_elem_of_cons _. by apply Hpg.
  - split; [by rw lookup_insert_eq|]. split; [simpl; lia|]. intros v Hv. rw /vpages in Hv.
    rw /pte_at lookup_insert. case_decide as Ed.
    + rw -Ed Ht. apply entry_zero; [dlia|done].
    + destruct (tabs !! (v / 1024)) as [u|] eqn:Hu; [|done].
      destruct (pd_tab _ _ _ _ HI _ _ Hu) as (_ & [Hua _] & Hnu & Hup).
      apply entry_ext; [dlia|]. apply Hpg; [done..|]. intros ->. apply Hnu. constructor.
Qed.

Lemma walk_nomem s pgdir tabs va :
  pgdir_inv s [] pgdir tabs → 0 ≤ va < 4294967296 → tabs !! PDX va = None →
  walkpgdir pgdir va true s = Ok (0, s).
Proof.
  intros HI Hva Ht. destruct (walk_index va Hva) as (Hd & _).
  pose proof (pd_entry _ _ _ _ HI _ Hd) as He. rw Ht in He.
  destruct (kalloc_pops _ kend_range _ _ (pd_kmem _ _ _ _ HI)) as (r & s1 & Ek & _ & _ & -> & ->).
  rw /walkpgdir /load32. mget. rw -/(entry _ _ _) He. cbn [negb]. by mgo Ek.
Qed.

(** ** [mappages] *)

(** The entry [mappages] writes. *)
Definition new_pte (pa perm : Z) : Z := u32 (Z.lor (Z.lor pa perm) PTE_P).

Definition vpn (va : Z) : Z := va / 4096.

(** One round of the loop. *)
Lemma mappages_round n s free pgdir tabs a pa perm :
  pgdir_inv s free pgdir tabs → 0 ≤ a < 4294967296 →
  present (pte_at (k_mem s) tabs (vpn a)) = false → (tabs !! PDX a = None → free ≠ []) →
  ∃ s' free' tabs', mappages_loop n pgdir a pa perm s =
      match n with
      | O => Ok (0, s')
      | S n => mappages_loop n pgdir (u32 (a + PGSIZE)) (u32 (pa + PGSIZE)) perm s'
      end ∧
    pt_ext pgdir s free tabs s' free' tabs' ∧ (length free ≤ S (length free'))%nat ∧
    ∀ v, 0 ≤ v < vpages → pte_at (k_mem s') tabs' v =
      if decide (v = vpn a) then new_pte pa perm else pte_at (k_mem s) tabs v.
Proof.
  intros HI Ha Hnp Hf. destruct (walk_index a Ha) as (Hd & Hx & Ed & Ex).
  destruct (walk_alloc s free pgdir tabs a HI Ha Hf) as (s1 & f1 & t1 & t & E1 & X1 & Ht & Hl1 & P1).
  pose proof (ex_inv _ _ _ _ _ _ _ X1) as HI1.
  assert (0 ≤ vpn a < vpages) as Hv by (rw /vpn /vpages; dlia).
  rw Ed -/(vpn a) in Ht. rw Ex -/(vpn a) in E1.
  destruct (set_pte s1 f1 pgdir t1 (vpn a) t (Z.lor (Z.lor pa perm) PTE_P) HI1 Hv Ht) as [X2 P2].
  eexists _, f1, t1. split; [|split; [exact (pt_ext_trans _ _ _ _ _ _ _ _ _ _ X1 X2)|split; [exact Hl1|]]].
  - destruct (pd_tab _ _ _ _ HI1 _ _ Ht) as (_ & Hpt & _).
    destruct (page_ok_range _ kend_range t Hpt) as (Hr & _).
    destruct n; cbn [mappages_loop]; mgo E1;
      (destruct (Z.eqb_spec (t + 4 * (vpn a mod 1024)) 0); [exfalso; clia|]);
      rw /load32; mget;
      (replace (ld32 _ _) with (pte_at (k_mem s1) t1 (vpn a)) by by rw /pte_at Ht);
      rw P1 // Hnp; reflexivity.
  - intros v Hv'. rw P2 //. case_decide; [reflexivity|]. by apply P1.
Qed.

(** The loop over [n + 1] pages, none of them mapped, with a free page for every
    table it may need. *)
Lemma mappages_loop_ok n s free pgdir tabs a pa perm :
  pgdir_inv s free pgdir tabs → 0 ≤ a → a + 4096 * Z.of_nat n < 4294967296 →
  (∀ k, 0 ≤ k ≤ Z.of_nat n → present (pte_at (k_mem s) tabs (vpn a + k)) = false) →
  (n < length free)%nat →
  ∃ s' free' tabs', mappages_loop n pgdir a pa perm s = Ok (0, s') ∧
    pt_ext pgdir s free tabs s' free' tabs' ∧ (length free ≤ S n + length free')%nat ∧
    (∀ k, 0 ≤ k ≤ Z.of_nat n → pte_at (k_mem s') tabs' (vpn a + k) =
       new_pte (if k =? 0 then pa else u32 (pa + 4096 * k)) perm) ∧
    (∀ v, 0 ≤ v < vpages → ¬ (vpn a ≤ v ≤ vpn a + Z.of_nat n) →
       pte_at (k_mem s') tabs' v = pte_at (k_mem s) tabs v).
Proof.
  revert s free tabs a pa. induction n as [|n IH] => s free tabs a pa HI Ha Hb Hnp Hf.
  - destruct (mappages_round 0 s free pgdir tabs a pa perm HI) as (s1 & f1 & t1 & E1 & X1 & L1 & P1).
    { lia. }
    { specialize (Hnp 0). rw Z.add_0_r in Hnp. apply Hnp. lia. }
    { intros _ ->. simpl in Hf. lia. }
    assert (0 ≤ vpn a < vpages) as Hv by (rw /vpn /vpages; dlia).
    exists s1, f1, t1. split; [exact E1|]. split; [exact X1|]. split; [lia|]. split.
    + intros k Hk. replace k with 0 by lia. rw Z.add_0_r P1 //. by rewrite -> decide_True.
    + intros v Hv' Hn. rw P1 //. rewrite -> decide_False; [done|]. lia.
  - destruct (mappages_round (S n) s free pgdir tabs a pa perm HI) as (s1 & f1 & t1 & E1 & X1 & L1 & P1).
    { lia. }
    { specialize (Hnp 0). rw Z.add_0_r in Hnp. apply Hnp. lia. }
    { intros _ ->. simpl in Hf. lia. }
    rw (u32_small (a + PGSIZE)) in E1; [clia|].
    assert (vpn (a + PGSIZE) = vpn a + 1) as Ev by (rw /vpn /PGSIZE; dlia).
    assert (0 ≤ vpn a ∧ vpn a + 1 + Z.of_nat n < vpages) as Hv by (rw /vpn /vpages; dlia).
    destruct (IH s1 f1 t1 (a + PGSIZE) (u32 (pa + PGSIZE)) (ex_inv _ _ _ _ _ _ _ X1))
      as (s2 & f2 & t2 & E2 & X2 & L2 & P2 & Q2).
    { rw /PGSIZE. lia. }
    { rw /PGSIZE. lia. }
    { intros k Hk. rw Ev P1; [lia|]. rewrite -> decide_False by lia.
      replace (vpn a + 1 + k) with (vpn a + (k + 1)) by lia. apply Hnp. lia. }
    { lia. }
    exists s2, f2, t2. split; [by rw E1 E2|]. split; [exact (pt_ext_trans _ _ _ _ _ _ _ _ _ _ X1 X2)|].
    split; [lia|]. rw Ev in P2 Q2. split.
    + intros k Hk. destruct (Z.eqb_spec k 0) as [->|Hk0].
      * rw Z.add_0_r Q2; [lia|lia|]. rw P1; [lia|]. by rewrite -> decide_True.
      * replace (vpn a + k) with (vpn a + 1 + (k - 1)) by lia. rw P2; [lia|].
        destruct (Z.eqb_spec (k - 1) 0); rw /PGSIZE.
        -- by replace k with 1 by lia.
        -- rw u32_add_l. do 2 f_equal. lia.
    + intros v Hv' Hn. rw Q2; [lia|lia|]. rw P1; [lia|]. rewrite -> decide_False by lia. done.
Qed.

(** [mappages] of one page at an aligned address, as vm.c maps user memory. *)
Lemma mappages_page va : 0 ≤ va < 4294967296 → aligned va →
  PGROUNDDOWN va = va ∧ Z.to_nat (u32 (PGROUNDDOWN (u32 (u32 (va + PGSIZE) - 1)) - va) / PGSIZE) = 0%nat.
Proof.
  rw /aligned /PGSIZE. intros Hva Ha.
  assert (PGROUNDDOWN (u32 (u32 (va + 4096) - 1)) = va) as ->.
  { rw PGROUNDDOWN_eq u32_sub_l. clia. }
  split; [rw PGROUNDDOWN_eq u32_small //; lia|]. by rw Z.sub_diag.
Qed.

(** ** Freeing user pages *)

Lemma pte_at_ext m m' tabs v :
  0 ≤ v < vpages → (∀ i t, tabs !! i = Some t → same_page m m' t) → pte_at m' tabs v = pte_at m tabs v.
Proof.
  rw /vpages. intros Hv H. rw /pte_at. destruct (tabs !! (v / 1024)) as [t|] eqn:Ht; [|done].
  apply entry_ext; [dlia|]. by eapply H.
Qed.

(** [kfree] of a page outside the page table. *)
Lemma kfree_frame s free pgdir tabs f :
  pgdir_inv s free pgdir tabs → page_ok f → f ∉ free → f ≠ pgdir → (∀ i, tabs !! i ≠ Some f) →
  ∃ s', kfree f s = Ok (tt, s') ∧ pgdir_inv s' (f :: free) pgdir tabs ∧
    (∀ p, aligned p → p ≠ f → same_page (k_mem s) (k_mem s') p).
Proof.
  intros HI Hf Hnf Hne Hnt.
  destruct (kfree_pushes _ kend_range s free f (pd_kmem _ _ _ _ HI) Hf Hnf) as (s' & E & Hk & _ & Hsame).
  exists s'. split; [done|]. pose proof Hf as [Hfa _].
  assert (∀ p, aligned p → p ≠ f → same_page (k_mem s) (k_mem s') p) as Hpg.
  { intros p Hp Hpf x Hx. apply Hsame. intros Hx'. by apply Hpf, (pages_apart p f x). }
  split; [|done]. destruct (pd_page _ _ _ _ HI) as [[Hpa Hpr] Hpf]. split.
  - done.
  - split; [done|]. by apply not_elem_of_cons.
  - intros i Hi. assert (entry (k_mem s') pgdir i = entry (k_mem s) pgdir i) as ->; [|by apply HI].
    apply entry_ext; [done|]. by apply Hpg.
  - intros i t Ht. destruct (pd_tab _ _ _ _ HI _ _ Ht) as (?&?&?&?). do 2 (split; [done|]).
    split; [|done]. apply not_elem_of_cons. split; [|done]. intros ->. by apply (Hnt i).
  - apply HI.
Qed.

Definition vm_inv s free pgdir tabs : Prop :=
  pgdir_inv s free pgdir tabs ∧ user_inv (k_mem s) free pgdir tabs.

(** [s'] is [s] without the user pages in [P], their frames freed. *)
Record unmapped (pgdir : Z) tabs (P : Z → bool) s free s' free' : Prop := {
  um_inv : vm_inv s' free' pgdir tabs;
  um_gone v : P v = true → present (pte_at (k_mem s') tabs v) = false;
  um_keep v : 0 ≤ v < vpages → P v = false →
    pte_at (k_mem s') tabs v = pte_at (k_mem s) tabs v;
  um_free : ∃ freed, free' = freed ++ free ∧
    ∀ p, p ∈ freed ↔ ∃ v, P v = true ∧ present (pte_at (k_mem s) tabs v) = true ∧
      frame (pte_at (k_mem s) tabs v) = p;
  um_same p : aligned p → p ≠ pgdir → p ∉ free' → (∀ i, tabs !! i ≠ Some p) →
    same_page (k_mem s) (k_mem s') p;
}.

Lemma unmapped_nil pgdir tabs P s free :
  vm_inv s free pgdir tabs → (∀ v, P v = true → present (pte_at (k_mem s) tabs v) = false) →
  unmapped pgdir tabs P s free s free.
Proof.
  intros HI Hn. split; [done|done|done| |done]. exists []. split; [done|]. intros p.
  split; [by intros ?%elem_of_nil|]. intros (v & Hv & Hp & _). rw Hn // in Hp.
Qed.

Lemma unmapped_seq pgdir tabs (P Q R : Z → bool) s1 f1 s2 f2 s3 f3 :
  unmapped pgdir tabs P s1 f1 s2 f2 → unmapped pgdir tabs Q s2 f2 s3 f3 →
  (∀ v, R v = P v || Q v) → (∀ v, R v = true → 0 ≤ v < vpages) →
  unmapped pgdir tabs R s1 f1 s3 f3.
Proof.
  intros [I2 G2 K2 (d2 & E2 & D2) S2] [I3 G3 K3 (d3 & E3 & D3) S3] HR Hb. split; [done|..].
  - intros v Hv. pose proof (Hb v Hv). rw HR in Hv. destruct (Q v) eqn:HQ; [by apply G3|].
    rw K3 //. apply G2. by rw orb_false_r in Hv.
  - intros v Hv. rw HR orb_false_iff. intros [HP HQ]. rw K3 // K2 //.
  - exists (d3 ++ d2). rw -app_assoc -E2 -E3. split; [done|]. intros p. rw elem_of_app D3 D2. split.
    + intros [(v & HQ & Hp & Ef)|(v & HP & Hp & Ef)]; exists v; rw HR.
      * assert (0 ≤ v < vpages) by (apply Hb; by rw HR HQ orb_true_r).
        destruct (P v) eqn:HP; [rw G2 // in Hp|]. rw K2 // in Hp. rw K2 // in Ef.
      * by rw HP.
    + intros (v & HRv & Hp & Ef). pose proof (Hb v HRv). rw HR in HRv.
      destruct (P v) eqn:HP; [right; by exists v|]. left. exists v. by rw K2.
  - intros p Ha Hp Hf Ht x Hx. rw (S3 p) //. apply (S2 p); [done..| |done|done].
    intros H. apply Hf. rw E3. set_solver.
Qed.

(** The user pages' frames after page [v] was unmapped and its frame freed. *)
Lemma user_inv_drop m m' free pgdir tabs v :
  user_inv m free pgdir tabs → 0 ≤ v < user_pages → present (pte_at m tabs v) = true →
  present (pte_at m' tabs v) = false →
  (∀ w, 0 ≤ w < user_pages → w ≠ v → pte_at m' tabs w = pte_at m tabs w) →
  user_inv m' (frame (pte_at m tabs v) :: free) pgdir tabs.
Proof.
  intros HU Hv Hp Hp' Hsame.
  assert (∀ w, 0 ≤ w < user_pages → present (pte_at m' tabs w) = true →
    w ≠ v ∧ pte_at m' tabs w = pte_at m tabs w) as Hw.
  { intros w Hw Hpw. assert (w ≠ v) by congruence. auto. }
  split.
  - intros w Hwr Hpw. destruct (Hw w Hwr Hpw) as [Hne E]. rw E in Hpw |- *.
    destruct (us_frame _ _ _ _ HU w Hwr Hpw) as (?&?&?&?). do 2 (split; [try done|]); [|done].
    apply not_elem_of_cons. split; [|done]. intros Ef. by apply Hne, (us_inj _ _ _ _ HU w v).
  - intros w w' Hwr Hwr' Hpw Hpw'. destruct (Hw w Hwr Hpw) as [_ E], (Hw w' Hwr' Hpw') as [_ E'].
    rw E E' in Hpw Hpw' |- *. by apply HU.
Qed.

(** One user page. *)
Lemma unmap_page s free pgdir tabs v t :
  vm_inv s free pgdir tabs → 0 ≤ v < user_pages → tabs !! (v / 1024) = Some t →
  let pte := t + 4 * (v mod 1024) in
  ∃ s' free', (e ← load32 pte;
     (if present e then
        let pa := PTE_ADDR e in
        if pa =? 0 then panic "kfree" else kfree (P2V pa) ;; store32 pte 0
      else mret tt)) s = Ok (tt, s') ∧
    unmapped pgdir tabs (Z.eqb v) s free s' free'.
Proof.
  intros [HI HU] Hv Ht pte. assert (0 ≤ v < vpages) as Hv' by (rw /user_pages /vpages in Hv |- *; lia).
  assert (∀ w, (v =? w) = true ↔ w = v) as Hr by (intros w; rw Z.eqb_eq; done).
  assert (ld32 (k_mem s) pte = pte_at (k_mem s) tabs v) as El by by rw /pte_at Ht.
  destruct (present (pte_at (k_mem s) tabs v)) eqn:Hp.
  2: { exists s, free. rw /load32. mget. rw El Hp. split; [done|].
       apply unmapped_nil; [done|]. by intros w ->%Hr. }
  destruct (us_frame _ _ _ _ HU v Hv Hp) as (Hf & Hnf & Hnp & Hnt).
  set (f := frame (pte_at (k_mem s) tabs v)) in *.
  destruct (kfree_frame s free pgdir tabs f HI Hf Hnf Hnp Hnt) as (s1 & E1 & HI1 & Hpg1).
  assert (∀ w, 0 ≤ w < vpages → pte_at (k_mem s1) tabs w = pte_at (k_mem s) tabs w) as P1.
  { intros w Hw. apply pte_at_ext; [done|]. intros i u Hu.
    destruct (pd_tab _ _ _ _ HI _ _ Hu) as (_ & [Hua _] & _). apply Hpg1; [done|].
    intros ->. by apply (Hnt i). }
  destruct (set_pte s1 (f :: free) pgdir tabs v t 0 HI1 Hv' Ht) as [X2 P2].
  eexists _, (f :: free). split.
  { rw /load32. mget. rw El Hp.
    assert (PTE_ADDR (pte_at (k_mem s) tabs v) ≠ 0) as Hnz.
    { intros E0. pose proof (page_ok_range _ kend_range f Hf) as Hfr. rw /f /frame E0 in Hfr. clia. }
    destruct (Z.eqb_spec (PTE_ADDR (pte_at (k_mem s) tabs v)) 0); [done|].
    rw -/(frame _) -/f. mgo E1. reflexivity. }
  assert (∀ w, 0 ≤ w < vpages → w ≠ v →
    pte_at (k_mem (set_mem (st32 (k_mem s1) pte 0) s1)) tabs w = pte_at (k_mem s) tabs w) as P3.
  { intros w Hw Hne. rw P2 //. rewrite -> decide_False by done. by apply P1. }
  assert (pte_at (k_mem (set_mem (st32 (k_mem s1) pte 0) s1)) tabs v = 0) as P4.
  { rw P2 //. by rewrite -> decide_True. }
  set (s2 := set_mem _ _) in *. clearbody s2. split.
  - split; [apply X2|]. apply (user_inv_drop (k_mem s)); try done.
    + by rw P4.
    + intros w Hw. apply P3. rw /user_pages /vpages in Hw |- *. lia.
  - intros w ->%Hr. by rw P4.
  - intros w Hw Hn. apply P3; [done|]. intros Ew%Hr. congruence.
  - exists [f]. split; [done|]. intros p. rw list_elem_of_singleton. split.
    + intros ->. exists v. by rw Hr.
    + intros (w & ->%Hr & _ & <-). done.
  - intros p Ha Hpd [Hpf Hpfr]%not_elem_of_cons Hpt x Hx.
    rw (ex_same _ _ _ _ _ _ _ X2 p) //; [by apply not_elem_of_cons|]. by apply (Hpg1 p).
Qed.

(** The pages from the one at [a] up to the address [b]. *)
Definition page_range (a b v : Z) : bool := (vpn a <=? v) && (4096 * v <? b).

(** Where a page table is missing the loop goes on with the next one. *)
Lemma next_table a : 0 ≤ a < KERNBASE →
  u32 (u32 (PGADDR (PDX a + 1) 0 0 - PGSIZE) + PGSIZE) = 4194304 * (PDX a + 1).
Proof.
  intros Ha. rw u32_add_l Z.sub_add /PGADDR !Z.lor_0_r Z.shiftl_mul_pow2 // u32_u32.
  rw PDX_eq (u32_small a); [clia|]. rw u32_small; clia.
Qed.

Lemma deallocuvm_loop_ok fuel s free pgdir tabs a oldsz :
  vm_inv s free pgdir tabs → 0 ≤ a → aligned a → a ≤ KERNBASE + PGSIZE → oldsz ≤ KERNBASE →
  oldsz ≤ a + 4096 * Z.of_nat fuel →
  ∃ s' free', deallocuvm_loop fuel pgdir a oldsz s = Ok (tt, s') ∧
    unmapped pgdir tabs (page_range a oldsz) s free s' free'.
Proof.
  revert s free a. induction fuel as [|fuel IH] => s free a HI Ha Haa Hak Hold Hfuel.
  { exists s, free. split; [done|]. apply unmapped_nil; [done|]. intros v Hv. exfalso.
    rw /page_range /vpn in Hv. rw /aligned /PGSIZE in Haa. dlia. }
  cbn [deallocuvm_loop]. destruct (Z.ltb_spec a oldsz) as [Hlt|Hge].
  2: { exists s, free. split; [done|]. apply unmapped_nil; [done|]. intros v Hv. exfalso.
       rw /page_range /vpn in Hv. rw /aligned /PGSIZE in Haa. dlia. }
  rw /aligned /PGSIZE in Haa. rw /KERNBASE in Hold Hak.
  assert (0 ≤ a < 4294967296) as Ha32 by lia. destruct (walk_index a Ha32) as (Hd & _ & Ed & Ex).
  destruct (tabs !! PDX a) as [t|] eqn:Ht.
  - destruct (pd_tab _ _ _ _ (proj1 HI) _ _ Ht) as (_ & Hpt & _).
    destruct (page_ok_range _ kend_range t Hpt) as (Hr & _).
    mgo (walk_found s free pgdir tabs a t false (proj1 HI) Ha32 Ht).
    destruct (Z.eqb_spec (t + 4 * PTX a) 0) as [E0|_]; [exfalso; rw Ex in E0; clia|].
    rw Ed -/(vpn a) in Ht. rw Ex -/(vpn a).
    destruct (unmap_page s free pgdir tabs (vpn a) t HI) as (s1 & f1 & E1 & U1);
      [rw /user_pages /vpn; dlia|done|].
    rw (u32_small (a + PGSIZE)); [rw /PGSIZE; lia|].
    destruct (IH s1 f1 (a + PGSIZE)) as (s2 & f2 & E2 & U2);
      [apply U1|rw /aligned /PGSIZE /KERNBASE; dlia..|].
    exists s2, f2. split; [rw -bind_assoc; by mgo E1|].
    eapply unmapped_seq; [exact U1|exact U2|..].
    + intros v. rw /page_range /PGSIZE /vpn. dlia.
    + intros v. rw /page_range /vpn /vpages. dlia.
  - mgo (walk_absent s free pgdir tabs a (proj1 HI) Ha32 Ht). cbn [Z.eqb].
    rw next_table; [clia|].
    assert (a < 4194304 * (PDX a + 1) ≤ 2147483648) as Hnext by (rw Ed; dlia).
    destruct (IH s free (4194304 * (PDX a + 1)) HI) as (s2 & f2 & E2 & U2);
      [rw /aligned /PGSIZE /KERNBASE; dlia..|].
    exists s2, f2. split; [done|].
    eapply (unmapped_seq _ _ (λ v, page_range a oldsz v && (v <? 1024 * (PDX a + 1)))).
    + apply unmapped_nil; [done|]. intros v Hv. rw /page_range /vpn in Hv. rw /pte_at.
      replace (v / 1024) with (PDX a) by (rw Ed; dlia). by rw Ht.
    + exact U2.
    + intros v. rw /page_range /vpn. dlia.
    + intros v. rw /page_range /vpn /vpages. dlia.
Qed.

(** ** Growing and shrinking a process *)

(** Every page the process or the allocator owns: free, a page table, or the frame
    of a user page. *)
Definition owned s free tabs (p : Z) : Prop :=
  p ∈ free ∨ (∃ i, tabs !! i = Some p) ∨
  ∃ v, 0 ≤ v < user_pages ∧ present (pte_at (k_mem s) tabs v) = true ∧
    frame (pte_at (k_mem s) tabs v) = p.

Lemma unmapped_owned pgdir tabs P s free s' free' :
  unmapped pgdir tabs P s free s' free' → (∀ v, P v = true → 0 ≤ v < user_pages) →
  ∀ p, owned s' free' tabs p ↔ owned s free tabs p.
Proof.
  intros [HI G Kp (freed & E & D) _] HP p.
  assert (∀ v, 0 ≤ v < user_pages → 0 ≤ v < vpages) as Hb by (rw /user_pages /vpages; lia).
  rw /owned. split.
  - intros [Hp|[Ht|(v & Hv & Hp & Ef)]]; [|by right; left|].
    + rw E in Hp. apply elem_of_app in Hp as [(v & HPv & ?)%D|]; [|by left].
      right. right. exists v. auto.
    + right. right. exists v. destruct (P v) eqn:HPv; [rw G // in Hp|]. rw Kp in Hp; [auto..|].
      rw Kp in Ef; auto.
  - intros [Hp|[Ht|(v & Hv & Hp & Ef)]]; [left; rw E; set_solver|by right; left|].
    destruct (P v) eqn:HPv.
    + left. rw E. apply elem_of_app. left. apply D. by exists v.
    + right. right. exists v. rw Kp; auto.
Qed.

Lemma PGROUNDUP_ok sz : 0 ≤ sz ≤ KERNBASE →
  PGROUNDUP sz = (sz + 4095) / 4096 * 4096 ∧ aligned (PGROUNDUP sz) ∧
  sz ≤ PGROUNDUP sz < sz + 4096.
Proof.
  intros Hsz. assert (PGROUNDUP sz = (sz + 4095) / 4096 * 4096) as E by (apply PGROUNDUP_eq; clia).
  rw E /aligned /PGSIZE. split; [done|]. dlia.
Qed.

Lemma page_range_user a b v : 0 ≤ a → b ≤ KERNBASE → page_range a b v = true → 0 ≤ v < user_pages.
Proof. rw /page_range /vpn /user_pages /KERNBASE. dlia. Qed.

Lemma deallocuvm_ok s free pgdir tabs oldsz newsz :
  vm_inv s free pgdir tabs → 0 ≤ newsz < oldsz → oldsz ≤ KERNBASE →
  ∃ s' free', deallocuvm pgdir oldsz newsz s = Ok (newsz, s') ∧
    unmapped pgdir tabs (page_range (PGROUNDUP newsz) oldsz) s free s' free'.
Proof.
  intros HI Hsz Hk. destruct (PGROUNDUP_ok newsz) as (_ & Haa & Ha); [lia|].
  destruct (deallocuvm_loop_ok (page_rounds (PGROUNDUP newsz) oldsz) s free pgdir tabs
    (PGROUNDUP newsz) oldsz HI) as (s' & free' & E & U); [lia|done|clia|done| |].
  { rw /page_rounds /PGSIZE. rw Nat2Z.inj_succ. dlia. }
  exists s', free'. split; [|done]. rw /deallocuvm. destruct (Z.leb_spec oldsz newsz); [lia|].
  mgo E. rw s32_small //. clia.
Qed.

(** [deallocuvm] unmaps exactly the pages between the two sizes.  From a
    consistent page directory, shrinking from [oldsz] to [newsz] returns [newsz];
    every user page that lies wholly above [newsz] and below [oldsz] is gone, every
    other entry is as it was, the frames are back on the free list and no other
    page's contents changed; no page is lost and none appears twice. *)
Theorem deallocuvm_unmaps s free pgdir tabs oldsz newsz :
  vm_inv s free pgdir tabs → 0 ≤ newsz < oldsz → oldsz ≤ KERNBASE →
  ∃ s' free', deallocuvm pgdir oldsz newsz s = Ok (newsz, s') ∧
    unmapped pgdir tabs (page_range (PGROUNDUP newsz) oldsz) s free s' free' ∧
    ∀ p, owned s' free' tabs p ↔ owned s free tabs p.
Proof.
  intros HI Hsz Hk. destruct (deallocuvm_ok s free pgdir tabs oldsz newsz HI Hsz Hk) as (s' & free' & E & U).
  exists s', free'. split_and!; [done..|]. eapply unmapped_owned; [done|]. intros v.
  destruct (PGROUNDUP_ok newsz) as (_ & _ & Ha); [lia|]. apply page_range_user; lia.
Qed.

(** A page taken off the free list, and writes to a page outside the tables. *)
Lemma pgdir_inv_pop s s1 f free pgdir tabs :
  pgdir_inv s (f :: free) pgdir tabs → kmem_inv s1 free → k_mem s1 = k_mem s →
  pgdir_inv s1 free pgdir tabs ∧ f ≠ pgdir ∧ (∀ i, tabs !! i ≠ Some f).
Proof.
  intros HI Hk Em. destruct (pd_page _ _ _ _ HI) as [Hp [Hne Hnf]%not_elem_of_cons].
  split; [|split; [done|]].
  - split; [done|done| | |apply HI].
    + rw Em. apply HI.
    + intros i t Ht. destruct (pd_tab _ _ _ _ HI _ _ Ht) as (?&?&[_ ?]%not_elem_of_cons&?). done.
  - intros i Ht. destruct (pd_tab _ _ _ _ HI _ _ Ht) as (?&?&[? _]%not_elem_of_cons&?). done.
Qed.

Lemma pgdir_inv_write s m' f free pgdir tabs :
  pgdir_inv s free pgdir tabs → aligned f → f ∉ free → f ≠ pgdir → (∀ i, tabs !! i ≠ Some f) →
  (∀ x, ¬ in_page f x → mread m' x = mread (k_mem s) x) →
  pgdir_inv (set_mem m' s) free pgdir tabs ∧
  (∀ p, aligned p → p ≠ f → same_page (k_mem s) m' p) ∧
  ∀ v, 0 ≤ v < vpages → pte_at m' tabs v = pte_at (k_mem s) tabs v.
Proof.
  intros HI Hfa Hf Hne Hnt Hsame.
  assert (∀ p, aligned p → p ≠ f → same_page (k_mem s) m' p) as Hpg.
  { intros p Hp Hpf x Hx. apply Hsame. intros Hx'. by apply Hpf, (pages_apart p f x). }
  destruct (pd_page _ _ _ _ HI) as [[Hpa Hpr] Hnf]. split; [|split; [done|]].
  - split; [|done| | |]; try by destruct HI.
    + apply kmem_inv_frame; [|apply HI]. intros p x Hp Hx. apply (Hpg p); [| |done].
      * destruct (pd_kmem _ _ _ _ HI) as (_ & _ & Hok & _). rewrite -> Forall_forall in Hok.
        apply (Hok p Hp).
      * intros ->. done.
    + intros i Hi. cbn [k_mem set_mem].
      assert (entry m' pgdir i = entry (k_mem s) pgdir i) as ->; [|by apply HI].
      apply entry_ext; [done|]. apply Hpg; [done|congruence].
  - intros v Hv. apply pte_at_ext; [done|]. intros i t Ht.
    destruct (pd_tab _ _ _ _ HI _ _ Ht) as (_ & [Hta _] & _). apply Hpg; [done|].
    intros ->. by apply (Hnt i).
Qed.

(** A user page is mapped to a frame [f] fresh from the free list. *)
Lemma user_inv_add m m' f fl free new free' pgdir tabs tabs' v :
  user_inv m (f :: free) pgdir tabs → free = new ++ free' → NoDup (f :: free) →
  (∀ i t, tabs' !! i = Some t → tabs !! i = Some t ∨ t ∈ new) →
  page_ok f → f ≠ pgdir → (∀ i, tabs !! i ≠ Some f) → 0 ≤ fl < 4096 →
  (∀ w, 0 ≤ w < user_pages → pte_at m' tabs' w = if decide (w = v) then V2P f + fl else pte_at m tabs w) →
  user_inv m' free' pgdir tabs'.
Proof.
  intros HU -> Hnd Hnew Hf Hnp Hnt Hfl Hpte.
  destruct (entry_parts f fl Hf Hfl) as (_ & _ & _ & Efr & _).
  apply NoDup_cons in Hnd as [Hfn Hnd]. rewrite -> not_elem_of_app in Hfn.
  assert (∀ w, 0 ≤ w < user_pages → w ≠ v → present (pte_at m tabs w) = true →
    frame (pte_at m tabs w) ≠ f) as Hother.
  { intros w Hw _ Hp E. destruct (us_frame _ _ _ _ HU w Hw Hp) as (_ & [? _]%not_elem_of_cons & _).
    done. }
  split.
  - intros w Hw. rw Hpte //. case_decide as Ew.
    + intros _. rw Efr. split_and!; [apply Hf..|apply Hfn|done|].
      intros i Hi. destruct (Hnew i f Hi) as [H|H]; [by apply (Hnt i)|]. by apply (proj1 Hfn).
    + intros Hp. destruct (us_frame _ _ _ _ HU w Hw Hp) as (H1 & [_ H2]%not_elem_of_cons & H3 & H4).
      apply not_elem_of_app in H2 as [H5 H6].
      do 3 (split; [done|]). intros i Hi. destruct (Hnew _ _ Hi) as [H|H]; [by apply (H4 i)|done].
  - intros w w' Hw Hw'. rw !Hpte //. case_decide as E1; case_decide as E2; [congruence|..].
    + rw Efr. intros _ Hp Ef. by destruct (Hother w').
    + rw Efr. intros Hp _ Ef. by destruct (Hother w).
    + apply HU; done.
Qed.

(** [s'] is [s] with the pages from [a] to [b] mapped, writable for the user, to
    zeroed frames of their own that were free. *)
Record grown (pgdir a b : Z) s free tabs s' free' tabs' : Prop := {
  gr_inv : vm_inv s' free' pgdir tabs';
  gr_sub : tabs ⊆ tabs';
  gr_free p : p ∈ free' → p ∈ free;
  gr_new v : page_range a b v = true → ∃ f, f ∈ free ∧ page_ok f ∧
    pte_at (k_mem s') tabs' v = V2P f + Z.lor PTE_P (Z.lor PTE_W PTE_U) ∧
    ∀ x, in_page f x → mread (k_mem s') x = 0;
  gr_keep v : 0 ≤ v < vpages → page_range a b v = false →
    pte_at (k_mem s') tabs' v = pte_at (k_mem s) tabs v;
  gr_same p : aligned p → p ≠ pgdir → p ∉ free → (∀ i, tabs !! i ≠ Some p) →
    same_page (k_mem s) (k_mem s') p;
  gr_tabs i t : tabs' !! i = Some t → tabs !! i = Some t ∨ t ∈ free;
  gr_owned p : owned s' free' tabs' p ↔ owned s free tabs p;
}.

Lemma present_new f : page_ok f → present (V2P f + 7) = true.
Proof.
  intros Hf. destruct (V2P_page f Hf) as (_ & Hm & _). rw present_odd Z.odd_add.
  replace (Z.odd (V2P f)) with false; [done|].
  symmetry. rw -Z.negb_even. apply negb_false_iff, Z.even_spec. exists (V2P f / 2). dlia.
Qed.

Lemma new_pte_user f : page_ok f → new_pte (V2P f) (Z.lor PTE_W PTE_U) = V2P f + 7.
Proof.
  intros Hf. destruct (entry_parts f 7 Hf) as (E & _ & _ & _ & Eu); [lia|].
  rw /new_pte -Z.lor_assoc. change (Z.lor (Z.lor PTE_W PTE_U) PTE_P) with 7. by rw E.
Qed.

(** The new page on its own: [kalloc] and [memset]. *)
Lemma alloc_zeroed s f free pgdir tabs :
  pgdir_inv s (f :: free) pgdir tabs →
  ∃ s1 s2, kalloc s = Ok (f, s1) ∧ do_memset f 0 PGSIZE s1 = Ok (tt, s2) ∧ page_ok f ∧
    pgdir_inv s2 free pgdir tabs ∧ f ≠ pgdir ∧ (∀ i, tabs !! i ≠ Some f) ∧
    (∀ x, in_page f x → mread (k_mem s2) x = 0) ∧
    (∀ p, aligned p → p ≠ f → same_page (k_mem s) (k_mem s2) p) ∧
    (∀ v, 0 ≤ v < vpages → pte_at (k_mem s2) tabs v = pte_at (k_mem s) tabs v).
Proof.
  intros HI.
  destruct (kalloc_pops _ kend_range _ _ (pd_kmem _ _ _ _ HI)) as (r & s1 & Ek & Em & _ & -> & Hk1 & Hpf & Hnf).
  destruct (pgdir_inv_pop s s1 f free pgdir tabs HI Hk1 Em) as (HI1 & Hnp & Hnt).
  set (m2 := memset (k_mem s1) f 0 PGSIZE).
  assert (∀ x, mread m2 x = if decide (in_page f x) then 0 else mread (k_mem s1) x) as Hm2.
  { intros x. rw /m2 mread_memset_page. reflexivity. }
  assert (do_memset f 0 PGSIZE s1 = Ok (tt, set_mem m2 s1)) as E2 by reflexivity.
  clearbody m2. exists s1, (set_mem m2 s1). do 3 (split; [done|]).
  destruct (pgdir_inv_write s1 m2 f free pgdir tabs) as (HI2 & S2 & P2); [done|apply Hpf|done..| |].
  { intros x Hx. rw Hm2. by rewrite -> decide_False. }
  rw -Em. do 3 (split; [done|]). split; [|done].
  intros x Hx. cbn [k_mem set_mem]. rw Hm2. by rewrite -> decide_True.
Qed.

Lemma elem_of_split (f : Z) new free p :
  p ∈ f :: new ++ free ↔ p = f ∨ p ∈ new ∨ p ∈ free.
Proof. by rw elem_of_cons elem_of_app. Qed.

(** One page of [allocuvm]'s loop. *)
Lemma alloc_page s f free pgdir tabs a :
  vm_inv s (f :: free) pgdir tabs → 0 ≤ a < KERNBASE → aligned a →
  present (pte_at (k_mem s) tabs (vpn a)) = false → (tabs !! PDX a = None → free ≠ []) →
  ∃ s1 s2 s3 free' tabs', kalloc s = Ok (f, s1) ∧ f ≠ 0 ∧ do_memset f 0 PGSIZE s1 = Ok (tt, s2) ∧
    mappages pgdir a PGSIZE (V2P f) (Z.lor PTE_W PTE_U) s2 = Ok (0, s3) ∧
    (length free ≤ S (length free'))%nat ∧
    grown pgdir a (a + 4096) s (f :: free) tabs s3 free' tabs'.
Proof.
  intros [HI HU] Ha Haa Hnp Hfree. rw /KERNBASE in Ha.
  destruct (alloc_zeroed s f free pgdir tabs HI)
    as (s1 & s2 & E1 & E2 & Hf & HI2 & Hfp & Hft & Hz & S2 & P2).
  assert (0 ≤ vpn a < user_pages) as Hv by (rw /vpn /user_pages; dlia).
  assert (∀ w, 0 ≤ w < user_pages → 0 ≤ w < vpages) as Hb by (rw /user_pages /vpages; lia).
  destruct (mappages_round 0 s2 free pgdir tabs a (V2P f) (Z.lor PTE_W PTE_U) HI2)
    as (s3 & f3 & t3 & E3 & X3 & L3 & P3); [lia|by rw P2; auto|done|].
  destruct (mappages_page a) as [Ea1 Ea2]; [lia|done|].
  destruct (ex_new _ _ _ _ _ _ _ X3) as (new & En & N1 & N2).
  destruct (pd_kmem _ _ _ _ HI) as (_ & Hnd & _).
  assert (∀ w, page_range a (a + 4096) w = true ↔ w = vpn a) as Hr.
  { rw /aligned /PGSIZE in Haa. intros w. rw /page_range /vpn. split; [|intros ->]; dlia. }
  assert (∀ w, 0 ≤ w < vpages → pte_at (k_mem s3) t3 w =
    if decide (w = vpn a) then V2P f + 7 else pte_at (k_mem s) tabs w) as P4.
  { intros w Hw. rw P3 // new_pte_user // P2 //. }
  assert (f ∉ free) as Hff by by apply NoDup_cons in Hnd as [].
  exists s1, s2, s3, f3, t3. split; [done|].
  split; [by destruct (page_ok_range _ kend_range f Hf) as (_ & _ & ?)|]. split; [done|].
  split; [rw /mappages Ea1 Ea2; exact E3|]. split; [done|].
  assert (user_inv (k_mem s3) f3 pgdir t3) as HU3.
  { eapply (user_inv_add (k_mem s) _ f 7); [done..|lia|]. intros w Hw. apply P4. auto. }
  split.
  - split; [apply X3|done].
  - apply X3.
  - intros p Hp. rw En elem_of_split. auto.
  - intros w ->%Hr. exists f. split; [constructor|]. split; [done|].
    split; [rw P4; [by auto|]; by rewrite -> decide_True|]. intros x Hx.
    rw (ex_same _ _ _ _ _ _ _ X3 f) //; [apply Hf|auto].
  - intros w Hw Hn. rw P4 //. rewrite -> decide_False; [done|]. intros E%Hr. congruence.
  - intros p Hp Hpd [Hpf Hpr]%not_elem_of_cons Hpt x Hx. rw (ex_same _ _ _ _ _ _ _ X3 p) //.
    by apply (S2 p).
  - intros i t Ht. rw En elem_of_split. destruct (N1 i t Ht); auto.
  - intros p. rw /owned En elem_of_split. split.
    + intros [Hp|[[i Hi]|(w & Hw & Hp & Ef)]].
      * by auto.
      * destruct (N1 i p Hi); [right; left; by exists i|by auto].
      * rw P4 in Hp; [by auto|]. rw P4 in Ef; [by auto|]. case_decide as Ew.
        -- destruct (entry_parts f 7 Hf) as (_&_&_&Efr&_); [lia|]. left. left. by rw -Ef Efr.
        -- right. right. by exists w.
    + intros [[->|[Hp|Hp]]|[[i Hi]|(w & Hw & Hp & Ef)]].
      * right. right. exists (vpn a). rw P4; [auto|]. rewrite -> decide_True by done.
        split; [done|]. split; [by apply present_new|].
        by destruct (entry_parts f 7 Hf) as (_&_&_&Efr&_); [lia|].
      * right. left. by apply N2.
      * by left.
      * right. left. exists i. eapply lookup_weaken; [done|apply X3].
      * right. right. exists w. rw P4; [auto|]. rewrite -> decide_False; [done|]. congruence.
Qed.

Lemma grown_nil pgdir a b s free tabs :
  vm_inv s free pgdir tabs → (∀ v, page_range a b v = false) → grown pgdir a b s free tabs s free tabs.
Proof. intros HI Hr. split; try done; [|by left]. intros v. by rw Hr. Qed.

Lemma grown_seq pgdir a c b s1 f1 t1 s2 f2 t2 s3 f3 t3 :
  grown pgdir a c s1 f1 t1 s2 f2 t2 → grown pgdir c b s2 f2 t2 s3 f3 t3 →
  (∀ v, page_range a b v = page_range a c v || page_range c b v) →
  (∀ v, page_range a c v && page_range c b v = false) →
  (∀ v, page_range a b v = true → 0 ≤ v < user_pages) →
  grown pgdir a b s1 f1 t1 s3 f3 t3.
Proof.
  intros [I2 S2 F2 N2 K2 P2 T2 O2] [I3 S3 F3 N3 K3 P3 T3 O3] Hor Hdis Hb.
  assert (∀ w, 0 ≤ w < user_pages → 0 ≤ w < vpages) as Hb' by (rw /user_pages /vpages; lia).
  split; [done|by etrans|auto|..].
  - intros v Hv. specialize (Hdis v). specialize (Hb v Hv). rw Hor in Hv.
    destruct (page_range c b v) eqn:Ec.
    + destruct (N3 v Ec) as (f & Hf & ? & ? & ?). exists f. auto.
    + rw orb_false_r in Hv. destruct (N2 v Hv) as (f & Hf & Hok & Hp & Hz). exists f.
      split; [done|]. split; [done|]. split; [rw K3; auto|]. intros x Hx.
      destruct I2 as [I2 U2]. destruct (entry_parts f 7 Hok) as (_&_&_&Efr&_); [lia|].
      destruct (us_frame _ _ _ _ U2 v Hb) as (H1 & H2 & H3 & H4).
      { rw Hp. by apply present_new. }
      rw Hp Efr in H1 H2 H3 H4. rw (P3 f) //; [apply H1|]. by apply Hz.
  - intros v Hv Hn. rw Hor orb_false_iff in Hn. destruct Hn. rw K3 // K2 //.
  - intros p Ha Hp Hf Ht x Hx. rw (P3 p) //; [| |by apply (P2 p)].
    + by intros ?%F2.
    + intros i Hi. destruct (T2 i p Hi) as [H|H]; [by apply (Ht i)|done].
  - intros i t Ht. destruct (T3 i t Ht) as [H|H]; [by apply T2|]. auto.
  - intros p. by rw O3 O2.
Qed.

(** [s'] is [s] without the pages from [a] to [b]; what was taken is given back,
    or has become a page table. *)
Record grow_failed (pgdir a b : Z) s free tabs s' free' tabs' : Prop := {
  gf_inv : vm_inv s' free' pgdir tabs';
  gf_sub : tabs ⊆ tabs';
  gf_gone v : page_range a b v = true → present (pte_at (k_mem s') tabs' v) = false;
  gf_keep v : 0 ≤ v < vpages → page_range a b v = false →
    pte_at (k_mem s') tabs' v = pte_at (k_mem s) tabs v;
  gf_same p : aligned p → p ≠ pgdir → p ∉ free → (∀ i, tabs !! i ≠ Some p) → p ∉ free' →
    same_page (k_mem s) (k_mem s') p;
  gf_owned p : owned s' free' tabs' p ↔ owned s free tabs p;
}.

Lemma grown_failed pgdir a0 a c b s1 f1 t1 s2 f2 t2 s3 f3 t3 :
  grown pgdir a c s1 f1 t1 s2 f2 t2 → grow_failed pgdir a0 b s2 f2 t2 s3 f3 t3 →
  (∀ v, page_range a c v = true → page_range a0 b v = true) →
  grow_failed pgdir a0 b s1 f1 t1 s3 f3 t3.
Proof.
  intros [I2 S2 F2 N2 K2 P2 T2 O2] [I3 S3 G3 K3 P3 O3] Hin. split; [done|by etrans|done|..].
  - intros v Hv Hn. rw K3 // K2 //. destruct (page_range a c v) eqn:E; [|done].
    apply Hin in E. congruence.
  - intros p Ha Hp Hf Ht Hf3 x Hx. rw (P3 p) //; [| |by apply (P2 p)].
    + by intros ?%F2.
    + intros i Hi. destruct (T2 i p Hi) as [H|H]; [by apply (Ht i)|done].
  - intros p. by rw O3 O2.
Qed.

Lemma unmapped_failed pgdir tabs a b s free s' free' :
  unmapped pgdir tabs (page_range a b) s free s' free' →
  (∀ v, page_range a b v = true → 0 ≤ v < user_pages) →
  grow_failed pgdir a b s free tabs s' free' tabs.
Proof.
  intros HU Hb. split; [apply HU|done|apply HU|apply HU| |by eapply unmapped_owned].
  intros p Ha Hp _ Ht Hf. by apply HU.
Qed.

(** Number of pages [allocuvm] has to find. *)
Definition pages_between (a b : Z) : Z := (b - a + 4095) / 4096.

(** The last page of memory is not enough for a page and its table. *)
Lemma alloc_page_fails s f pgdir tabs a oldsz newsz :
  vm_inv s [f] pgdir tabs → 0 ≤ a < KERNBASE → aligned a → tabs !! PDX a = None →
  0 ≤ oldsz < newsz → newsz < KERNBASE →
  ∃ s1 s2 s4 s5 free5, kalloc s = Ok (f, s1) ∧ f ≠ 0 ∧ do_memset f 0 PGSIZE s1 = Ok (tt, s2) ∧
    mappages pgdir a PGSIZE (V2P f) (Z.lor PTE_W PTE_U) s2 = Ok (-1, s2) ∧
    deallocuvm pgdir newsz oldsz s2 = Ok (oldsz, s4) ∧ kfree f s4 = Ok (tt, s5) ∧
    grow_failed pgdir (PGROUNDUP oldsz) newsz s [f] tabs s5 free5 tabs.
Proof.
  intros [HI HU] Ha Haa Ht Hsz Hk. rw /KERNBASE in Ha.
  destruct (alloc_zeroed s f [] pgdir tabs HI)
    as (s1 & s2 & E1 & E2 & Hf & HI2 & Hfp & Hft & Hz & S2 & P2).
  assert (∀ w, 0 ≤ w < user_pages → 0 ≤ w < vpages) as Hb by (rw /user_pages /vpages; lia).
  assert (vm_inv s2 [] pgdir tabs) as HV2.
  { split; [done|]. destruct HU as [U1 U2]. split.
    - intros v Hv. rw P2; [by auto|]. intros Hp. destruct (U1 v Hv Hp) as (?&?&?&?).
      do 2 (split; [try done|]); [|done]. by intros ?%elem_of_nil.
    - intros v w Hv Hw. rw !P2; [by auto..|]. by apply U2. }
  destruct (PGROUNDUP_ok oldsz) as (_ & _ & Hr0); [lia|].
  destruct (deallocuvm_ok s2 [] pgdir tabs newsz oldsz HV2) as (s4 & f4 & E4 & U4); [lia|lia|].
  destruct (um_free _ _ _ _ _ _ _ U4) as (freed & Ef4 & D4).
  assert (f ∉ f4) as Hf4.
  { rw Ef4 app_nil_r D4. intros (v & Hv & Hp & Ef).
    assert (0 ≤ v < user_pages) as Hvu by (eapply page_range_user; [| |exact Hv]; lia).
    rw P2 in Hp; [by auto|]. rw P2 in Ef; [by auto|].
    destruct (us_frame _ _ _ _ HU v Hvu Hp) as (_ & Hn & _). apply Hn. rw Ef. constructor. }
  destruct (um_inv _ _ _ _ _ _ _ U4) as [HI4 HU4].
  destruct (kfree_frame s4 f4 pgdir tabs f HI4 Hf Hf4 Hfp Hft) as (s5 & E5 & HI5 & S5).
  assert (∀ v, 0 ≤ v < vpages → pte_at (k_mem s5) tabs v = pte_at (k_mem s4) tabs v) as P5.
  { intros v Hv. apply pte_at_ext; [done|]. intros i t Hi.
    destruct (pd_tab _ _ _ _ HI4 _ _ Hi) as (_ & [Hta _] & _). apply S5; [done|].
    intros ->. by apply (Hft i). }
  exists s1, s2, s4, s5, (f :: f4). split; [done|].
  split; [by destruct (page_ok_range _ kend_range f Hf) as (_ & _ & ?)|]. split; [done|].
  destruct (mappages_page a) as [Ea1 Ea2]; [lia|done|].
  split.
  { rw /mappages Ea1 Ea2. cbn [mappages_loop]. mgo (walk_nomem s2 pgdir tabs a HI2 ltac:(lia) Ht). done. }
  split; [done|]. split; [done|].
  assert (∀ v, page_range (PGROUNDUP oldsz) newsz v = true → 0 ≤ v < user_pages) as Hru.
  { intros v. apply page_range_user; lia. }
  pose proof (unmapped_owned _ _ _ _ _ _ _ U4 Hru) as O4.
  split.
  - split; [done|]. destruct HU4 as [U41 U42]. split.
    + intros v Hv. rw P5; [by auto|]. intros Hp. destruct (U41 v Hv Hp) as (?&Hn&?&?).
      do 2 (split; [try done|]); [|done]. apply not_elem_of_cons. split; [|done].
      intros Ef. assert (owned s4 f4 tabs f) as Ho by (right; right; by exists v).
      apply O4 in Ho as [?%elem_of_nil|[[i ?]|(w & Hw & Hpw & Efw)]]; [done|by apply (Hft i)|].
      rw P2 in Hpw; [by auto|]. rw P2 in Efw; [by auto|].
      destruct (us_frame _ _ _ _ HU w Hw Hpw) as (_ & Hnw & _). apply Hnw. rw Efw. constructor.
    + intros v w Hv Hw. rw !P5; [by auto..|]. by apply U42.
  - done.
  - intros v Hv. rw P5; [by auto|]. by apply U4.
  - intros v Hv Hn. rw P5 // (um_keep _ _ _ _ _ _ _ U4) // P2 //.
  - intros p Hp Hpd Hpf Hpt [Hpf' Hpf4]%not_elem_of_cons x Hx.
    rw (S5 p) // (um_same _ _ _ _ _ _ _ U4 p) //. by apply (S2 p).
  - intros p. trans (p = f ∨ owned s4 f4 tabs p).
    + rw /owned elem_of_cons. split.
      * intros [[?|?]|[?|(v & Hv & Hp & Ef)]]; auto. rw P5 in Hp; [by auto|].
        rw P5 in Ef; [by auto|]. right. right. right. by exists v.
      * intros [->|[?|[?|(v & Hv & Hp & Ef)]]]; auto. right. right. exists v. rw P5; auto.
    + rw O4 /owned elem_of_nil elem_of_cons elem_of_nil. split.
      * intros [->|[[]|[?|(v & Hv & Hp & Ef)]]]; auto. rw P2 in Hp; [by auto|].
        rw P2 in Ef; [by auto|]. right. right. by exists v.
      * intros [[->|[]]|[?|(v & Hv & Hp & Ef)]]; auto. right. right. right. exists v. rw P2; auto.
Qed.

Lemma allocuvm_loop_ok fuel s free pgdir tabs a oldsz newsz :
  vm_inv s free pgdir tabs → aligned a → 0 ≤ oldsz → oldsz < newsz → newsz < KERNBASE →
  PGROUNDUP oldsz ≤ a < newsz + 4096 → newsz ≤ a + 4096 * Z.of_nat fuel →
  (∀ v, page_range a newsz v = true → present (pte_at (k_mem s) tabs v) = false) →
  ∃ r s' free' tabs', allocuvm_loop fuel pgdir a oldsz newsz s = Ok (r, s') ∧
    (r = newsz ∧ grown pgdir a newsz s free tabs s' free' tabs' ∨
     r = 0 ∧ grow_failed pgdir (PGROUNDUP oldsz) newsz s free tabs s' free' tabs' ∧
     Z.of_nat (length free) < 2 * pages_between a newsz).
Proof.
  intros HI Haa Ho Hlt Hk Ha Hfuel Hnp. destruct (PGROUNDUP_ok oldsz) as (_ & Ha0 & Hr0); [lia|].
  assert (s32 newsz = newsz) as Es by (apply s32_small; clia).
  assert (∀ a', PGROUNDUP oldsz ≤ a' → ∀ v, page_range a' newsz v = true → 0 ≤ v < user_pages) as Hb.
  { intros a' Ha' v. apply page_range_user; lia. }
  revert s free tabs a HI Haa Ha Hfuel Hnp.
  induction fuel as [|fuel IH] => s free tabs a HI Haa Ha Hfuel Hnp.
  { exists newsz, s, free, tabs. split; [cbn [allocuvm_loop]; by rw Es|]. left. split; [done|].
    apply grown_nil; [done|]. intros v. rw /aligned /PGSIZE in Haa. rw /page_range /vpn. dlia. }
  cbn [allocuvm_loop]. destruct (Z.ltb_spec a newsz) as [Hlt'|Hge].
  2: { exists newsz, s, free, tabs. split; [by rw Es|]. left. split; [done|].
    apply grown_nil; [done|]. intros v. rw /aligned /PGSIZE in Haa. rw /page_range /vpn. dlia. }
  assert (0 ≤ a < KERNBASE) as Hak by lia.
  assert (1 ≤ pages_between a newsz) as Hpb by (rw /pages_between; dlia).
  destruct free as [|f free].
  { destruct (kalloc_pops _ kend_range _ _ (pd_kmem _ _ _ _ (proj1 HI))) as (r & s1 & Ek & _ & _ & -> & ->).
    destruct (deallocuvm_ok s [] pgdir tabs newsz oldsz HI) as (s4 & f4 & E4 & U4); [lia|lia|].
    exists 0, s4, f4, tabs. split; [mgo Ek; cbn [Z.eqb]; by mgo E4|]. right. split; [done|].
    split; [|cbn [length]; lia]. apply unmapped_failed; [done|]. by apply Hb. }
  destruct (decide (tabs !! PDX a = None ∧ free = [])) as [[Ht ->]|Hok].
  { destruct (alloc_page_fails s f pgdir tabs a oldsz newsz HI Hak Haa Ht)
      as (s1 & s2 & s4 & s5 & f5 & E1 & Hnz & E2 & E3 & E4 & E5 & HF); [lia|lia|].
    exists 0, s5, f5, tabs. split; [|right; split; [done|]; split; [done|cbn [length]; lia]].
    mgo E1. destruct (Z.eqb_spec f 0); [done|]. mgo E2. mgo E3. cbn [Z.ltb Z.compare]. mgo E4.
    by mgo E5. }
  destruct (alloc_page s f free pgdir tabs a HI Hak Haa)
    as (s1 & s2 & s3 & f3 & t3 & E1 & Hnz & E2 & E3 & L3 & G3).
  { apply Hnp. rw /page_range /vpn. rw /aligned /PGSIZE in Haa. dlia. }
  { intros Ht ->. by apply Hok. }
  assert (aligned (a + PGSIZE)) as Haa' by (rw /aligned /PGSIZE in Haa |- *; dlia).
  destruct (IH s3 f3 t3 (a + PGSIZE)) as (r & s' & f' & t' & E & HR).
  { apply G3. } { done. } { rw /PGSIZE. lia. } { rw /PGSIZE. lia. }
  { intros v Hv. pose proof (Hb (a + PGSIZE) ltac:(rw /PGSIZE; lia) v Hv) as Hvu.
    rw (gr_keep _ _ _ _ _ _ _ _ _ G3).
    - rw /user_pages /vpages in Hvu |- *. lia.
    - rw /aligned /PGSIZE in Haa. rw /page_range /vpn /PGSIZE in Hv |- *. dlia.
    - apply Hnp. rw /page_range /vpn /PGSIZE in Hv |- *. dlia. }
  exists r, s', f', t'. split.
  { mgo E1. destruct (Z.eqb_spec f 0); [done|]. mgo E2. mgo E3. cbn [Z.ltb Z.compare].
    rw (u32_small (a + PGSIZE)) //. clia. }
  destruct HR as [[-> HG]|(-> & HF & HL)]; [left|right]; (split; [done|]).
  - rw /aligned /PGSIZE in Haa. eapply grown_seq; [exact G3|exact HG|..].
    + intros v. rw /page_range /vpn /PGSIZE. dlia.
    + intros v. rw /page_range /vpn /PGSIZE. dlia.
    + apply Hb. lia.
  - split.
    + eapply grown_failed; [exact G3|exact HF|]. intros v. rw /aligned /PGSIZE in Haa.
      rw /page_range /vpn. dlia.
    + cbn [length]. rw /pages_between /PGSIZE in HL |- *. dlia.
Qed.

(** C19. [allocuvm] grows a process by whole fresh pages, or not at all.  From a
    consistent page directory without pages between [oldsz] and [newsz], it returns
    either [newsz], with every page in between mapped present, writable and for the
    user, to zeroed frames of their own taken from the free list; or 0, only when
    fewer pages are free than two for each page wanted, with nothing mapped in
    between and every page taken given back or in use as a page table.  Either way
    all other entries and pages are as before, and no page is lost. *)
Theorem allocuvm_all_or_nothing s free pgdir tabs oldsz newsz :
  vm_inv s free pgdir tabs → 0 ≤ oldsz ≤ newsz → newsz < KERNBASE →
  (∀ v, page_range (PGROUNDUP oldsz) newsz v = true → present (pte_at (k_mem s) tabs v) = false) →
  ∃ r s' free' tabs', allocuvm pgdir oldsz newsz s = Ok (r, s') ∧
    (r = newsz ∧ grown pgdir (PGROUNDUP oldsz) newsz s free tabs s' free' tabs' ∨
     r = 0 ∧ grow_failed pgdir (PGROUNDUP oldsz) newsz s free tabs s' free' tabs' ∧
     Z.of_nat (length free) < 2 * pages_between (PGROUNDUP oldsz) newsz).
Proof.
  intros HI Hsz Hk Hnp. destruct (PGROUNDUP_ok oldsz) as (_ & Haa & Hr); [lia|]. rw /allocuvm.
  destruct (Z.leb_spec KERNBASE newsz); [lia|]. destruct (Z.ltb_spec newsz oldsz); [lia|].
  destruct (decide (oldsz = newsz)) as [->|].
  - exists newsz, s, free, tabs. split.
    { rw /page_rounds. cbn [allocuvm_loop]. destruct (Z.ltb_spec (PGROUNDUP newsz) newsz); [lia|].
      rw s32_small //. clia. }
    left. split; [done|]. apply grown_nil; [done|]. intros v. rw /aligned /PGSIZE in Haa.
    rw /page_range /vpn. dlia.
  - apply allocuvm_loop_ok; [done..|lia|lia|lia|lia| |done].
    rw /page_rounds /PGSIZE Nat2Z.inj_succ. dlia.
Qed.

(** The entries of a consistent directory are what the hardware translates with. *)
Lemma translate_pte_at s free pgdir tabs va :
  pgdir_inv s free pgdir tabs → 0 ≤ va < 4294967296 →
  translate (k_mem s) pgdir va =
    let e := pte_at (k_mem s) tabs (vpn va) in
    if present e then Some (PTE_ADDR e + va mod PGSIZE, PTE_FLAGS e) else None.
Proof.
  intros HI Hva. destruct (walk_index va Hva) as (Hd & Hx & Ed & Ex).
  pose proof (pd_entry _ _ _ _ HI _ Hd) as He. rw /translate /pte_at /vpn -Ed -Ex.
  destruct (tabs !! PDX va) as [t|] eqn:Ht.
  - destruct (pd_tab _ _ _ _ HI _ _ Ht) as (_ & Hp & _).
    destruct (entry_parts t 7 Hp) as (_ & _ & _ & Ef & _); [lia|].
    rw He present_new // -/(frame _) Ef //.
  - by rw He.
Qed.

(** An empty directory. *)
Lemma vm_inv_empty s free pgdir :
  kmem_inv s free → page_ok pgdir → pgdir ∉ free →
  (∀ x, in_page pgdir x → mread (k_mem s) x = 0) → vm_inv s free pgdir ∅.
Proof.
  intros Hk Hp Hn Hz. split; split; try done.
  - intros i Hi. rw lookup_empty entry_zero //.
Qed.
End vm.

(** ** Examples *)

(** Two free pages after an empty directory. *)
Definition example_pages : list Z := [example_kend + 0x1000; example_kend + 0x2000].
Definition example_vm : kstate :=
  mkKstate (st32 ∅ (example_kend + 0x1000) (example_kend + 0x2000)) (example_kend + 0x1000) true false.

Lemma example_kend_range : KERNLINK ≤ example_kend ≤ KERNBASE + PHYSTOP.
Proof. rw /example_kend. clia. Qed.

Lemma example_vm_inv : vm_inv example_kend example_vm example_pages example_kend ∅.
Proof.
  apply vm_inv_empty.
  - split_and!; [by vm_compute| | |done].
    + apply NoDup_cons. split; [|by apply NoDup_singleton]. by intros ?%list_elem_of_singleton.
    + repeat (apply Forall_cons; split; [by vm_compute|]). by apply Forall_nil.
  - by vm_compute.
  - rw /example_pages !elem_of_cons elem_of_nil. intros [?|[?|[]]]; done.
  - intros x Hx. rw /in_page in Hx. rw /example_vm /=. rw mread_st32.
    rewrite -> decide_False; [done|]. rw /example_kend in Hx |- *. clia.
Qed.

Lemma example_unmapped v : present (pte_at (k_mem example_vm) ∅ v) = false.
Proof. rw /pte_at lookup_empty //. Qed.

Lemma allocuvm_all_or_nothing_witness :
  ∃ r s', allocuvm example_kend example_kend 0 4096 example_vm = Ok (r, s') ∧ r = 4096.
Proof.
  destruct (allocuvm_all_or_nothing example_kend example_kend_range example_vm example_pages
    example_kend ∅ 0 4096) as (r & s' & f & t & E & H).
  - apply example_vm_inv.
  - lia.
  - clia.
  - intros v _. apply example_unmapped.
  - exists r, s'. split; [exact E|]. destruct H as [[-> _]|(_ & _ & H)]; [done|].
    by vm_compute in H.
Defined.

Lemma deallocuvm_unmaps_witness :
  ∃ s1 s2, allocuvm_loop example_kend 2 example_kend 0 0 4096 example_vm = Ok (4096, s1) ∧
    deallocuvm example_kend example_kend 4096 0 s1 = Ok (0, s2).
Proof.
  destruct (allocuvm_loop_ok example_kend example_kend_range 2 example_vm example_pages
    example_kend ∅ 0 0 4096) as (r & s1 & f & t & E & H).
  - apply example_vm_inv.
  - done.
  - done.
  - lia.
  - clia.
  - by vm_compute.
  - lia.
  - intros v _. apply example_unmapped.
  - destruct H as [[-> G]|(_ & _ & H)]; [|by vm_compute in H].
    destruct (deallocuvm_unmaps example_kend example_kend_range s1 f example_kend t 4096 0)
      as (s2 & f2 & E2 & _); [apply G|lia|clia|].
    exists s1, s2. split; [exact E|exact E2].
Defined.
