(* ===== verification/VmCopy.v ===== *)
(** * Whole address spaces (vm.c): [setupkvm], [freevm] and [copyuvm]

    A new page directory with the kernel's mappings, the release of all that a directory
    owns, and the copy of a process's memory that [fork] makes.  The parent and the child are
    two directories over one memory: what the copy changes are pages that were free. *)

From S2P Require Import Prelude Params KMemory Kalloc Vm.

Lemma omap_length {A B} (f : A → option B) l : (length (omap f l) ≤ length l)%nat.
Proof. induction l as [|x l IH]; [done|]. cbn. destruct (f x); cbn; lia. Qed.

Section copy.
Context (kend kdata : Z).
Hypothesis kend_range : KERNLINK ≤ kend ≤ KERNBASE + PHYSTOP.
Abbreviation page_ok := (Kalloc.page_ok kend).
Abbreviation kmem_inv := (Kalloc.kmem_inv kend).
Abbreviation pgdir_inv := (Vm.pgdir_inv kend).
Abbreviation user_inv := (Vm.user_inv kend).
Abbreviation vm_inv := (Vm.vm_inv kend).
Abbreviation pt_ext := (Vm.pt_ext kend).

(** ** freevm *)

(** The page tables that are still to be freed when the loop is at entry [i]. *)
Record tables_from (s : kstate) (free : list Z) (pgdir : Z) (tabs : gmap Z Z) (i : Z) : Prop := {
  tf_kmem : kmem_inv s free;
  tf_page : page_ok pgdir ∧ pgdir ∉ free;
  tf_entry j : i ≤ j < 1024 →
    match tabs !! j with
    | Some t => entry (k_mem s) pgdir j = V2P t + 7
    | None => present (entry (k_mem s) pgdir j) = false
    end;
  tf_tab j t : i ≤ j → tabs !! j = Some t → 0 ≤ j < 1024 ∧ page_ok t ∧ (t ∉ free) ∧ (t ≠ pgdir);
  tf_inj j k t : tabs !! j = Some t → tabs !! k = Some t → j = k;
}.

Lemma tables_from_inv s free pgdir tabs : pgdir_inv s free pgdir tabs → tables_from s free pgdir tabs 0.
Proof. intros HI. split; try apply HI. intros j t _ Ht. by apply (pd_tab _ _ _ _ _ HI). Qed.

(** One table is freed. *)
Lemma tables_from_next s free pgdir tabs i t :
  tables_from s free pgdir tabs i → 0 ≤ i < 1024 → tabs !! i = Some t →
  ∃ s', Kalloc.kfree kend t s = Ok (tt, s') ∧ tables_from s' (t :: free) pgdir tabs (i + 1) ∧
    ∀ p, aligned p → p ≠ t → same_page (k_mem s) (k_mem s') p.
Proof.
  intros [Hk [Hp Hpf] He Ht Hi] Hr Hti. destruct (Ht i t) as (_ & Hpt & Htf & Htp); [lia|done|].
  destruct (kfree_pushes _ kend_range s free t Hk Hpt Htf) as (s' & E & Hk' & _ & Hs).
  assert (∀ p, aligned p → p ≠ t → same_page (k_mem s) (k_mem s') p) as Hsame.
  { intros p Ha Hn x Hx. apply Hs. intros Hx'. apply Hn. apply (pages_apart p t x); [done|apply Hpt|done|done]. }
  exists s'. split; [done|]. split; [|done]. split; [done| | | |done].
  - split; [done|]. apply not_elem_of_cons. split; [congruence|done].
  - intros j Hj. rw (entry_ext (k_mem s)); [lia|apply Hsame; [apply Hp|congruence]|]. apply He. lia.
  - intros j u Hj Hu. destruct (Ht j u) as (? & ? & ? & ?); [lia|done|]. do 2 (split; [done|]). split; [|done].
    apply not_elem_of_cons. split; [|done]. intros ->. assert (j = i) by by eapply Hi. lia.
Qed.

Lemma freevm_loop_ok n : ∀ i s free pgdir tabs, tables_from s free pgdir tabs i → 0 ≤ i → i + Z.of_nat n = 1024 →
  ∃ s' free', freevm_loop kend n pgdir i s = Ok (tt, s') ∧ kmem_inv s' free' ∧ (pgdir ∉ free') ∧
    (∀ p, p ∈ free' ↔ p ∈ free ∨ ∃ j, i ≤ j ∧ tabs !! j = Some p) ∧
    ∀ p, aligned p → p ∉ free' → same_page (k_mem s) (k_mem s') p.
Proof.
  induction n as [|n IH]; intros i s free pgdir tabs HT Hi Hn; cbn [freevm_loop].
  - exists s, free. split; [done|]. split; [apply HT|]. split; [apply HT|]. split; [|done]. intros p. split; [by left|]. intros [?|(j & Hj & Htj)]; [done|].
    destruct (tf_tab _ _ _ _ _ HT j p Hj Htj). lia.
  - rw /load32. mget. rw -/(entry _ _ _). pose proof (tf_entry _ _ _ _ _ HT i ltac:(lia)) as He. destruct (tabs !! i) as [t|] eqn:Hti.
    + destruct (tf_tab _ _ _ _ _ HT i t) as (_ & Hpt & Htf & Htp); [lia|done|]. rw He (present_new _ kend_range t Hpt) -/(frame _).
      destruct (entry_parts _ kend_range t 7 Hpt) as (_ & _ & _ & -> & _); [lia|].
      destruct (tables_from_next s free pgdir tabs i t HT) as (s1 & E1 & HT1 & S1); [lia|done|]. mgo E1.
      destruct (IH (i + 1) s1 (t :: free) pgdir tabs HT1) as (s' & f' & E & Hk & Hp & Hf & Hs); [lia|lia|].
      exists s', f'. split; [done|]. split; [done|]. split; [done|]. assert (t ∈ f') as Htf' by (apply Hf; left; apply list_elem_of_here). split.
      * intros p. rw Hf elem_of_cons. split.
        -- intros [ [->|?]|(j & Hj & ?)]; [right; by exists i|by left|right; exists j; split; [lia|done] ].
        -- intros [?|(j & Hj & Htj)]; [by auto|]. destruct (decide (j = i)) as [->|]; [left; left; congruence|]. right. exists j. split; [lia|done].
      * intros p Ha Hpf x Hx. rw (Hs p) //. apply (S1 p); [done|by intros ->|done].
    + rw He. mget. destruct (IH (i + 1) s free pgdir tabs) as (s' & f' & E & Hk & Hp & Hf & Hs); [|lia|lia|].
      { destruct HT as [? ? He' Ht' ?]. split; [done..| | |done]; [intros j Hj; apply He'; lia|intros j t Hj; apply Ht'; lia]. }
      exists s', f'. split; [done|]. split; [done|]. split; [done|]. split; [|done]. intros p. rw Hf. split; (intros [?|(j & Hj & ?)]; [by left|right; exists j]).
      * split; [lia|done].
      * split; [|done]. destruct (decide (j = i)) as [->|]; [congruence|lia].
Qed.

(** [freevm] gives back the directory and all that it owns, and touches no other page. *)
Lemma freevm_ok s free pgdir tabs : vm_inv s free pgdir tabs →
  ∃ s' free', freevm kend pgdir s = Ok (tt, s') ∧ kmem_inv s' free' ∧
    (∀ p, p ∈ free' ↔ p = pgdir ∨ owned s free tabs p) ∧
    ∀ p, aligned p → p ∉ free' → same_page (k_mem s) (k_mem s') p.
Proof.
  intros HI. destruct (pd_page _ _ _ _ _ (proj1 HI)) as [Hp Hpf].
  destruct (deallocuvm_ok _ kend_range s free pgdir tabs KERNBASE 0 HI) as (s1 & f1 & E1 & U1); [clia|done|].
  assert (∀ v, page_range (PGROUNDUP 0) KERNBASE v = true ↔ 0 ≤ v < user_pages) as Hr.
  { intros v. change (PGROUNDUP 0) with 0. rw /page_range /vpn /user_pages /KERNBASE. dlia. }
  pose proof (unmapped_owned _ kend_range _ _ _ _ _ _ _ U1 (λ v, proj1 (Hr v))) as Ho. pose proof (proj1 (um_inv _ _ _ _ _ _ _ _ U1)) as HI1.
  destruct (freevm_loop_ok 1024 0 s1 f1 pgdir tabs (tables_from_inv _ _ _ _ HI1)) as (s2 & f2 & E2 & Hk2 & Hp2 & Hf2 & S2); [lia|lia|].
  destruct (kfree_pushes _ kend_range s2 f2 pgdir Hk2 Hp Hp2) as (s3 & E3 & Hk3 & _ & S3).
  exists s3, (pgdir :: f2). split; [|split; [done|split] ].
  - rw /freevm. destruct (page_ok_range _ kend_range pgdir Hp) as (_ & _ & Hz). destruct (Z.eqb_spec pgdir 0); [done|]. mgo E1. change (Z.to_nat NPDENTRIES) with 1024%nat. by mgo E2.
  - intros p. rw elem_of_cons Hf2 -(Ho p) /owned. split.
    + intros [->|[?|(j & _ & ?)] ]; [by left|by auto|]. right. right. left. by exists j.
    + intros [->|[?|[ [j Hj]|(v & Hv & Hpr & _)] ] ]; [by left|by auto| |].
      * right. right. exists j. split; [|done]. destruct (pd_tab _ _ _ _ _ HI1 j p Hj). lia.
      * rw (um_gone _ _ _ _ _ _ _ _ U1) in Hpr; [by apply Hr|done].
  - intros p Ha [Hn Hf]%not_elem_of_cons x Hx. rw S3; [intros Hx'; apply Hn, (pages_apart p pgdir x); [done|apply Hp|done|done]|]. rw (S2 p) //.
    rewrite -> Hf2 in Hf. apply (um_same _ _ _ _ _ _ _ _ U1 p); [done..|by auto| |done]. intros j Hj. apply Hf. right. exists j. split; [|done]. destruct (pd_tab _ _ _ _ _ HI1 j p Hj). lia.
Qed.

(** ** mappages, when memory may run out *)

Lemma mappages_loop_any n : ∀ s free pgdir tabs a pa perm,
  pgdir_inv s free pgdir tabs → 0 ≤ a → a + 4096 * Z.of_nat n < 4294967296 →
  (∀ k, 0 ≤ k ≤ Z.of_nat n → present (pte_at (k_mem s) tabs (vpn a + k)) = false) →
  ∃ r s' free' tabs', mappages_loop n pgdir a pa perm s = Ok (r, s') ∧
    (r = -1 ∧ free' = [] ∨ r = 0 ∧ ∀ k, 0 ≤ k ≤ Z.of_nat n → pte_at (k_mem s') tabs' (vpn a + k) = new_pte (if k =? 0 then pa else u32 (pa + 4096 * k)) perm) ∧
    pt_ext pgdir s free tabs s' free' tabs' ∧
    ∀ v, 0 ≤ v < vpages → ¬ (vpn a ≤ v ≤ vpn a + Z.of_nat n) → pte_at (k_mem s') tabs' v = pte_at (k_mem s) tabs v.
Proof.
  induction n as [|n IH]; intros s free pgdir tabs a pa perm HI Ha Hb Hnp;
    (destruct (decide (tabs !! PDX a = None ∧ free = [])) as [ [Ht ->]|Hok];
     [exists (-1), s, [], tabs; split; [by cbn [mappages_loop]; rw (bind_Ok _ _ _ _ _ (walk_nomem _ kend_range s pgdir tabs a HI ltac:(lia) Ht))|];
      split; [by left|]; split; [by apply pt_ext_refl|done]|]).
  - destruct (mappages_round _ kend_range 0 s free pgdir tabs a pa perm HI) as (s1 & f1 & t1 & E1 & X1 & _ & P1).
    { lia. } { specialize (Hnp 0). rw Z.add_0_r in Hnp. apply Hnp. lia. } { intros ? ->. by apply Hok. }
    assert (0 ≤ vpn a < vpages) as Hv by (rw /vpn /vpages; dlia).
    exists 0, s1, f1, t1. split; [done|]. split; [right; split; [done|]|split; [done|] ].
    + intros k Hk. replace k with 0 by lia. rw Z.add_0_r P1 //. by rewrite -> decide_True.
    + intros v Hv' Hn. rw P1 //. rewrite -> decide_False; [done|]. lia.
  - destruct (mappages_round _ kend_range (S n) s free pgdir tabs a pa perm HI) as (s1 & f1 & t1 & E1 & X1 & _ & P1).
    { lia. } { specialize (Hnp 0). rw Z.add_0_r in Hnp. apply Hnp. lia. } { intros ? ->. by apply Hok. }
    rw (u32_small (a + PGSIZE)) in E1; [clia|]. assert (vpn (a + PGSIZE) = vpn a + 1) as Ev by (rw /vpn /PGSIZE; dlia).
    assert (0 ≤ vpn a ∧ vpn a + 1 + Z.of_nat n < vpages) as Hv by (rw /vpn /vpages; dlia).
    destruct (IH s1 f1 pgdir t1 (a + PGSIZE) (u32 (pa + PGSIZE)) perm (ex_inv _ _ _ _ _ _ _ _ X1)) as (r & s2 & f2 & t2 & E2 & Hr & X2 & Q2).
    { rw /PGSIZE. lia. } { rw /PGSIZE. lia. }
    { intros k Hk. rw Ev P1; [lia|]. rewrite -> decide_False by lia. replace (vpn a + 1 + k) with (vpn a + (k + 1)) by lia. apply Hnp. lia. }
    exists r, s2, f2, t2. split; [by rw E1|]. rw Ev in Hr Q2. split; [|split; [exact (pt_ext_trans _ kend_range _ _ _ _ _ _ _ _ _ _ X1 X2)|] ].
    + destruct Hr as [ [-> ->]|[-> P2] ]; [by left|]. right. split; [done|]. intros k Hk. destruct (Z.eqb_spec k 0) as [->|Hk0].
      * rw Z.add_0_r Q2; [lia|lia|]. rw P1; [lia|]. by rewrite -> decide_True.
      * replace (vpn a + k) with (vpn a + 1 + (k - 1)) by lia. rw P2; [lia|]. destruct (Z.eqb_spec (k - 1) 0); rw /PGSIZE; [by replace k with 1 by lia|].
        rw u32_add_l. do 2 f_equal. lia.
    + intros v Hv' Hn. rw Q2; [lia|lia|]. rw P1; [lia|]. by rewrite -> decide_False by lia.
Qed.

(** ** A directory of its own *)

(** The directory [d], its tables, its user pages, the pages [held] and the free list make
    up what was free in [f0] when the memory was [m0]; all other pages are as they were. *)
Record private (m0 : mem) (f0 held : list Z) s free d tabs : Prop := {
  pv_inv : vm_inv s free d tabs;
  pv_own p : p ∈ f0 ↔ p = d ∨ p ∈ held ∨ owned s free tabs p;
  pv_held p : p ∈ held → page_ok p ∧ p ≠ d ∧ ¬ owned s free tabs p;
  pv_same p : aligned p → p ∉ f0 → same_page m0 (k_mem s) p;
}.

(** All that was free in [f0] is free again. *)
Definition gave_back (m0 : mem) (f0 : list Z) s : Prop :=
  ∃ free, kmem_inv s free ∧ (∀ p, p ∈ free ↔ p ∈ f0) ∧ ∀ p, aligned p → p ∉ f0 → same_page m0 (k_mem s) p.

Lemma private_freevm m0 f0 s free d tabs : private m0 f0 [] s free d tabs →
  ∃ s', freevm kend d s = Ok (tt, s') ∧ gave_back m0 f0 s'.
Proof.
  intros [HI Ho _ Hs]. destruct (freevm_ok s free d tabs HI) as (s' & f' & E & Hk & Hf & S').
  assert (∀ p, p ∈ f' ↔ p ∈ f0) as Hff. { intros p. rw Hf Ho. split; [intros []; auto|intros [?|[ []%elem_of_nil|?] ]; auto]. }
  exists s'. split; [done|]. exists f'. split; [done|]. split; [done|]. intros p Ha Hp x Hx. rw (S' p) //; [by rewrite -> Hff|]. by apply (Hs p).
Qed.

(** What the page-table operations do to user pages whose entries keep their frames. *)
Definition same_frame (e e' : Z) : Prop := present e' = present e ∧ frame e' = frame e.
Lemma pt_ext_user s free d tabs s' free' tabs' : vm_inv s free d tabs → pt_ext d s free tabs s' free' tabs' →
  (∀ v, 0 ≤ v < user_pages → same_frame (pte_at (k_mem s) tabs v) (pte_at (k_mem s') tabs' v)) →
  vm_inv s' free' d tabs' ∧ ∀ p, owned s' free' tabs' p ↔ owned s free tabs p.
Proof.
  intros [HI HU] [HI' Hsub (new & En & N1 & N2) _] P. split; [split; [done|split]|].
  - intros v Hv. destruct (P v Hv) as [-> ->]. intros Hp. destruct (us_frame _ _ _ _ _ HU v Hv Hp) as (? & Hf & ? & Ht). subst free. apply not_elem_of_app in Hf as [Hf1 Hf2].
    do 3 (split; [done|]). intros i Hi. destruct (N1 i _ Hi) as [?|?]; [by apply (Ht i)|done].
  - intros v w Hv Hw. destruct (P v Hv) as [-> ->], (P w Hw) as [-> ->]. by apply HU.
  - intros p. rw /owned En elem_of_app. split.
    + intros [?|[ [i Hi]|(v & Hv & Hp & Ef)] ]; [by auto| |].
      * destruct (N1 i p Hi); [|by auto]. right. left. by exists i.
      * destruct (P v Hv) as [E1 E2]. right. right. exists v. by rw -E1 -E2.
    + intros [ [?|?]|[ [i Hi]|(v & Hv & Hp & Ef)] ]; [by auto|by auto| |].
      * right. left. exists i. by eapply lookup_weaken.
      * destruct (P v Hv) as [E1 E2]. right. right. exists v. by rw E1 E2.
Qed.

(** New tables for the directory are taken from what is its own. *)
Lemma private_ext m0 f0 held s free d tabs s' free' tabs' :
  private m0 f0 held s free d tabs → pt_ext d s free tabs s' free' tabs' →
  (∀ v, 0 ≤ v < user_pages → same_frame (pte_at (k_mem s) tabs v) (pte_at (k_mem s') tabs' v)) →
  private m0 f0 held s' free' d tabs'.
Proof.
  intros [HI Ho Hh Hs] HX P. destruct (pt_ext_user _ _ _ _ _ _ _ HI HX P) as [HI' Ho']. split; [done| | |].
  - intros p. by rw Ho Ho'.
  - intros p Hp. rw Ho'. by apply Hh.
  - intros p Ha Hp x Hx. rewrite -> Ho in Hp. rw (ex_same _ _ _ _ _ _ _ _ HX p) //; [by auto|..].
    + intros ?. apply Hp. right. right. by left.
    + intros i Hi. apply Hp. right. right. right. left. by exists i.
    + apply (Hs p); [done| |done]. by rewrite -> Ho.
Qed.

(** ** setupkvm *)

(** How many pages follow the first in a range of [mappages]. *)
Definition pages_after (va size : Z) : nat :=
  Z.to_nat (u32 (PGROUNDDOWN (u32 (u32 (va + size) - 1)) - PGROUNDDOWN va) / PGSIZE).

(** The ranges of [kmap] lie in kernel space, one after the other, from [lo] on. *)
Fixpoint ascending (lo : Z) (ks : list (Z * Z * Z * Z)) : Prop :=
  match ks with
  | [] => True
  | (virt, ps, pe, _) :: ks =>
      let n := Z.of_nat (pages_after virt (u32 (pe - ps))) in
      KERNBASE ≤ lo ≤ virt ∧ aligned virt ∧ virt + 4096 * n < 4294967296 ∧ 0 ≤ ps < 4294967296 ∧
      ascending (virt + 4096 * (n + 1)) ks
  end.

(** Every page of the ranges is mapped as [kmap] says. *)
Definition kernel_mapped (m : mem) (tabs : gmap Z Z) (ks : list (Z * Z * Z * Z)) : Prop :=
  ∀ virt ps pe perm k, (virt, ps, pe, perm) ∈ ks → 0 ≤ k ≤ Z.of_nat (pages_after virt (u32 (pe - ps))) →
    pte_at m tabs (vpn virt + k) = new_pte (u32 (ps + 4096 * k)) perm.

Hypothesis kdata_range : KERNLINK < kdata < KERNBASE + PHYSTOP ∧ aligned kdata.

Lemma pages_after_eq va size : aligned va → 0 ≤ va → 0 < size → size mod 4096 = 0 → va + size ≤ 4294967296 →
  Z.of_nat (pages_after va size) = size / 4096 - 1.
Proof.
  rw /aligned /PGSIZE /pages_after. intros Ha Hva Hs Hm Hb. rw !PGROUNDDOWN_eq !u32_sub_l.
  assert (u32 (va + size - 1) = va + size - 1) as -> by (apply u32_small; lia).
  assert (u32 va = va) as -> by (apply u32_small; lia).
  rw (u32_small (va + size - 1)); [lia|]. rw u32_small; rw /PGSIZE; dlia.
Qed.

Lemma kmap_ascending : ascending KERNBASE (kmap kdata).
Proof.
  destruct kdata_range as [Hk Ha]. rw /aligned /PGSIZE in Ha.
  assert (V2P KERNLINK = EXTMEM) as E1 by reflexivity. assert (V2P kdata = kdata - KERNBASE) as E2 by (rw /V2P (u32_small kdata); [clia|]; apply u32_small; clia).
  assert (u32 (EXTMEM - 0) = 0x100000) as F1 by reflexivity. assert (u32 (0 - DEVSPACE) = 0x2000000) as F4 by reflexivity.
  assert (u32 (kdata - KERNBASE - EXTMEM) = kdata - 0x80100000) as F2 by (rw u32_small; clia).
  assert (u32 (PHYSTOP - (kdata - KERNBASE)) = 0x8E000000 - kdata) as F3 by (rw u32_small; clia).
  rw /kmap /ascending E1 E2 F1 F2 F3 F4. assert (0x80100000 < kdata < 0x8E000000) as Hk' by clia.
  rw (pages_after_eq KERNBASE) // (pages_after_eq DEVSPACE) //. rw (pages_after_eq KERNLINK); [done|done|lia|dlia|clia|].
  rw (pages_after_eq kdata); [done|lia|lia|dlia|lia|]. change (0x100000 / 4096 - 1) with 255. change (0x2000000 / 4096 - 1) with 8191.
  split_and!; rw /aligned /PGSIZE; try done; try clia.
Qed.

Lemma setupkvm_loop_ok m0 f0 d ks : ∀ lo s free tabs,
  private m0 f0 [] s free d tabs → ascending lo ks → d ≠ 0 → 
  (∀ v, vpn lo ≤ v < vpages → present (pte_at (k_mem s) tabs v) = false) →
  ∃ r s' free' tabs', setupkvm_loop kend ks d s = Ok (r, s') ∧
    (r = 0 ∧ gave_back m0 f0 s' ∧ (∃ s1 tabs1, private m0 f0 [] s1 [] d tabs1 ∧ ∀ v, 0 ≤ v < user_pages → pte_at (k_mem s1) tabs1 v = pte_at (k_mem s) tabs v) ∨
     r = d ∧ private m0 f0 [] s' free' d tabs' ∧ kernel_mapped (k_mem s') tabs' ks ∧
       ∀ v, 0 ≤ v < vpages → v < vpn lo ∨ ks = [] → pte_at (k_mem s') tabs' v = pte_at (k_mem s) tabs v).
Proof.
  induction ks as [|[ [ [virt ps] pe] perm] ks IH]; intros lo s free tabs HP Ha Hd Hnp; cbn [setupkvm_loop ascending] in *.
  { exists d, s, free, tabs. split; [done|]. right. split; [done|]. split; [done|]. split; [|done]. intros ????? []%elem_of_nil. }
  destruct Ha as (Hlo & Hal & Hn & Hps & Ha). set (n := pages_after virt (u32 (pe - ps))) in *. rw /KERNBASE in Hlo.
  assert (PGROUNDDOWN virt = virt) as Ev by (rw /aligned /PGSIZE in Hal; rw PGROUNDDOWN_eq u32_small; lia).
  assert (vpn lo ≤ vpn virt ∧ user_pages ≤ vpn lo ∧ vpn virt + Z.of_nat n < vpages) as Hv by (rw /vpn /user_pages /vpages; dlia).
  destruct (mappages_loop_any n s free d tabs virt ps perm (proj1 (pv_inv _ _ _ _ _ _ _ HP))) as (r & s1 & f1 & t1 & E1 & Hr & X1 & Q1); [lia|lia|..].
  { intros k Hk. apply Hnp. lia. }
  assert (∀ v, 0 ≤ v < user_pages → pte_at (k_mem s1) t1 v = pte_at (k_mem s) tabs v) as Qu.
  { intros v Hv'. apply Q1; [rw /user_pages in Hv'; rw /vpages; lia|lia]. }
  assert (private m0 f0 [] s1 f1 d t1) as HP1 by (eapply private_ext; [exact HP|exact X1|]; intros v Hv'; by rw /same_frame Qu).
  assert (mappages d virt (u32 (pe - ps)) ps perm s = Ok (r, s1)) as E by (rw /mappages -/(pages_after virt (u32 (pe - ps))) -/n Ev //).
  mgo E. destruct Hr as [ [-> ->]|[-> Hpt] ]; cbn [Z.ltb Z.compare].
  { destruct (private_freevm _ _ _ _ _ _ HP1) as (s2 & E2 & G2). mgo E2. exists 0, s2, [], t1. split; [done|]. left. split; [done|]. split; [done|]. by exists s1, t1. }
  rw /user_pages in Hv. assert (vpn (virt + 4096 * (Z.of_nat n + 1)) = vpn virt + Z.of_nat n + 1) as Ev2 by (rw /vpn; dlia).
  destruct (IH (virt + 4096 * (Z.of_nat n + 1)) s1 f1 t1 HP1 Ha Hd) as (r & s2 & f2 & t2 & E2 & H2).
  { rw Ev2. intros v Hv'. rw Q1; [lia|lia|]. apply Hnp. lia. }
  exists r, s2, f2, t2. split; [exact E2|]. destruct H2 as [(-> & G & s3 & t3 & HP3 & Q3)|(-> & HP2 & K2 & Q2)].
  { left. split; [done|]. split; [done|]. exists s3, t3. split; [done|]. intros v Hv'. rw Q3 //. by apply Qu. }
  right. split; [done|]. split; [done|]. rw Ev2 in Q2. split.
  - intros v' ps' pe' perm' k [E'|Hin]%elem_of_cons Hk; [|by apply (K2 v' ps' pe' perm' k)]. injection E' as -> -> -> ->. fold n in Hk.
    rw Q2; [lia|left; lia|]. rw Hpt //. destruct (Z.eqb_spec k 0) as [->|]; [|done]. by rw Z.mul_0_r Z.add_0_r u32_small.
  - intros v Hv' [Hlt|?]; [|done]. rw Q2; [done|left; lia|]. apply Q1; [done|lia].
Qed.

(** All of [f0] is the directory, its tables, the pages held, the user pages and what is
    still free. *)
Lemma private_count m0 f0 held s free d tabs n : private m0 f0 held s free d tabs → NoDup f0 → 0 ≤ n →
  (∀ v, n ≤ v < user_pages → present (pte_at (k_mem s) tabs v) = false) →
  Z.of_nat (length f0) ≤ 1025 + Z.of_nat (length held) + n + Z.of_nat (length free).
Proof.
  intros [ [HI HU] Ho _ _] Hnd Hn Hnp.
  set (l := d :: held ++ omap (λ i, tabs !! i) (seqZ 0 1024) ++ ((λ v, frame (pte_at (k_mem s) tabs v)) <$> seqZ 0 n) ++ free).
  assert (length (omap (λ i, tabs !! i) (seqZ 0 1024)) ≤ 1024)%nat as Hl.
  { etrans; [apply omap_length|]. by rw length_seqZ. }
  assert (f0 ⊆+ l) as Hsub.
  { apply NoDup_submseteq; [done|]. intros p Hp. rw /l elem_of_cons !elem_of_app list_elem_of_omap list_elem_of_fmap. apply Ho in Hp as [?|[?|[?|[ [i Hi]|(v & Hv & Hpr & <-)] ] ] ]; [by auto|by auto|by do 4 right| |].
    - right. right. left. exists i. split; [|done]. apply elem_of_seqZ. destruct (pd_tab _ _ _ _ _ HI _ _ Hi) as [? _]. lia.
    - right. right. right. left. exists v. split; [done|]. apply elem_of_seqZ. destruct (decide (v < n)); [lia|]. rw Hnp // in Hpr. lia. }
  apply submseteq_length in Hsub. rw /l length_cons !length_app length_fmap (length_seqZ 0 n) in Hsub. clear -Hsub Hl Hn. revert Hl Hsub. generalize (length (omap (λ i, tabs !! i) (seqZ 0 1024))). lia.
Qed.

(** [setupkvm] makes a directory that maps the kernel and nothing else, from free pages, or
    returns 0 with all of them given back; it fails only when memory is short. *)
Lemma setupkvm_ok s free : kmem_inv s free →
  ∃ r s', setupkvm kend kdata s = Ok (r, s') ∧
    (r = 0 ∧ gave_back (k_mem s) free s' ∧ Z.of_nat (length free) ≤ 1025 ∨
     r ≠ 0 ∧ ∃ free' tabs', private (k_mem s) free [] s' free' r tabs' ∧ kernel_mapped (k_mem s') tabs' (kmap kdata) ∧
       ∀ v, 0 ≤ v < user_pages → present (pte_at (k_mem s') tabs' v) = false).
Proof.
  intros Hk. destruct (kalloc_pops _ kend_range s free Hk) as (r & s1 & E1 & Em & _ & H1). rw /setupkvm. mgo E1. destruct free as [|f free].
  { destruct H1 as [-> ->]. exists 0, s. split; [done|]. left. split; [done|]. split; [|done]. by exists []. }
  destruct H1 as (-> & Hk1 & Hf & Hff). destruct (page_ok_range _ kend_range f Hf) as (Hr & _ & Hf0). destruct (Z.eqb_spec f 0); [done|].
  rw /do_memset. mrun. change (DEVSPACE <? P2V PHYSTOP) with false. cbv iota. set (s2 := set_mem _ s1).
  assert (∀ x, mread (k_mem s2) x = if decide (in_page f x) then 0 else mread (k_mem s) x) as Hm.
  { intros x. rw /s2 /= mread_memset_page Em. reflexivity. }
  assert (k_freelist s2 = k_freelist s1 ∧ k_lock s2 = k_lock s1) as Hs2 by done. clearbody s2.
  assert (∀ p, aligned p → p ≠ f → same_page (k_mem s) (k_mem s2) p) as Hsame.
  { intros p Ha Hp x Hx. rw Hm. rewrite -> decide_False; [done|]. intros Hx'. apply Hp, (pages_apart p f x); [done|apply Hf|done|done]. }
  assert (kmem_inv s2 free) as Hk2.
  { destruct Hk1 as (Hc & Hnd & Hok & Hlk). destruct Hs2 as [Ef El]. split_and!; [|done|done|congruence]. rw Ef. eapply chain_frame; [|exact Hc].
    intros p x Hp Hx. rewrite -> Forall_forall in Hok. rw Em. apply (Hsame p); [apply (Hok p Hp)|by intros ->|done]. }
  pose proof (vm_inv_empty kend s2 free f Hk2 Hf Hff ltac:(intros x Hx; rw Hm; by rewrite -> decide_True)) as HI.
  assert (∀ v, present (pte_at (k_mem s2) ∅ v) = false) as Hnp by (intros v; by rw /pte_at lookup_empty).
  assert (private (k_mem s) (f :: free) [] s2 free f ∅) as HP.
  { split; [done| |by intros ? ?%elem_of_nil|].
    - intros p. rw elem_of_cons elem_of_nil /owned. split; [intros []; auto|]. intros [?|[ []|[?|[ [i Hi]|(v & _ & Hv & _)] ] ] ]; [by auto..| |]; [by rw lookup_empty in Hi|by rw Hnp in Hv].
    - intros p Ha [Hp _]%not_elem_of_cons. by apply Hsame. }
  destruct (setupkvm_loop_ok _ _ f (kmap kdata) KERNBASE s2 free ∅ HP kmap_ascending Hf0 ltac:(done)) as (r & s3 & f3 & t3 & E3 & H3).
  exists r, s3. split; [exact E3|]. destruct H3 as [(-> & G & s4 & t4 & HP4 & Q4)|(-> & HP3 & K3 & Q3)].
  - left. split; [done|]. split; [done|]. pose proof (private_count _ _ _ _ _ _ _ 0 HP4 (proj1 (proj2 Hk))) as Hc. cbn [length] in Hc |- *. apply Hc; [done|]. intros v Hv. by rw Q4.
  - right. split; [done|]. exists f3, t3. split; [done|]. split; [done|]. intros v Hv. rw /user_pages in Hv. rw Q3; [rw /vpages; lia|left; change (vpn KERNBASE) with 524288; lia|done].
Qed.

(** ** Pages between the allocator and the directory *)

Lemma owned_ext s s' free tabs p : (∀ v, 0 ≤ v < vpages → pte_at (k_mem s') tabs v = pte_at (k_mem s) tabs v) →
  owned s' free tabs p ↔ owned s free tabs p.
Proof.
  intros P. rw /owned. assert (∀ v, 0 ≤ v < user_pages → pte_at (k_mem s') tabs v = pte_at (k_mem s) tabs v) as Pu.
  { intros v Hv. apply P. rw /user_pages in Hv. rw /vpages. lia. }
  split; (intros [?|[?|(v & Hv & Hp & Ef)] ]; [by auto..|right; right; exists v]); [rw -Pu //|rw Pu //].
Qed.

Lemma user_inv_pages m m' free free' d tabs : user_inv m free d tabs →
  (∀ v, 0 ≤ v < vpages → pte_at m' tabs v = pte_at m tabs v) →
  (∀ p, p ∈ free' → p ∈ free ∨ ∀ v, 0 ≤ v < user_pages → present (pte_at m tabs v) = true → frame (pte_at m tabs v) ≠ p) →
  user_inv m' free' d tabs.
Proof.
  intros HU P Hf. assert (∀ v, 0 ≤ v < user_pages → pte_at m' tabs v = pte_at m tabs v) as Pu.
  { intros v Hv. apply P. rw /user_pages in Hv. rw /vpages. lia. }
  split.
  - intros v Hv. rw Pu //. intros Hp. destruct (us_frame _ _ _ _ _ HU v Hv Hp) as (? & ? & ? & ?). split; [done|]. split; [|done].
    intros [?|Hn]%Hf; [done|]. by apply (Hn v).
  - intros v w Hv Hw. rw !Pu //. by apply HU.
Qed.

(** A page is taken off the free list and written to. *)
Lemma private_take m0 f0 s s1 m2 f free d tabs : private m0 f0 [] s (f :: free) d tabs →
  kmem_inv s1 free → k_mem s1 = k_mem s → page_ok f → f ∉ free → (∀ x, ¬ in_page f x → mread m2 x = mread (k_mem s1) x) →
  private m0 f0 [f] (set_mem m2 s1) free d tabs ∧ (∀ v, 0 ≤ v < vpages → pte_at m2 tabs v = pte_at (k_mem s) tabs v) ∧
  ∀ p, aligned p → p ≠ f → same_page (k_mem s) m2 p.
Proof.
  intros [ [HI HU] Ho _ Hs] Hk Em Hf Hff Hm. destruct (pgdir_inv_pop _ s s1 f free d tabs HI Hk Em) as (HI1 & Hfd & Hft).
  destruct (pgdir_inv_write _ s1 m2 f free d tabs HI1 (proj1 Hf) Hff Hfd Hft Hm) as (HI2 & S2 & P2). rw Em in S2 P2. split; [|done].
  pose proof (owned_ext s (set_mem m2 s1) free tabs) as Ho2. split.
  - split; [done|]. eapply user_inv_pages; [exact HU|done|]. intros p Hp. left. by apply elem_of_cons; right.
  - intros p. rw Ho Ho2 // /owned !elem_of_cons elem_of_nil. tauto.
  - intros p ->%list_elem_of_singleton. split; [done|]. split; [done|]. rw Ho2 //. intros [?|[ [i Hi]|(v & Hv & Hp & Ef)] ]; [done|by apply (Hft i)|].
    destruct (us_frame _ _ _ _ _ HU v Hv Hp) as (_ & [? _]%not_elem_of_cons & _). done.
  - intros p Ha Hp x Hx. cbn [k_mem set_mem]. rw (S2 p) //; [|by apply (Hs p)]. intros ->. apply Hp, Ho. right. right. left. apply list_elem_of_here.
Qed.

(** A page that is held goes back to the allocator. *)
Lemma private_put m0 f0 s f free d tabs : private m0 f0 [f] s free d tabs →
  ∃ s', Kalloc.kfree kend f s = Ok (tt, s') ∧ private m0 f0 [] s' (f :: free) d tabs ∧
    ∀ v, 0 ≤ v < vpages → pte_at (k_mem s') tabs v = pte_at (k_mem s) tabs v.
Proof.
  intros [ [HI HU] Ho Hh Hs]. destruct (Hh f) as (Hf & Hfd & Hno); [by apply list_elem_of_singleton|].
  assert (f ∉ free) as Hff by (intros ?; apply Hno; by left). assert (∀ i, tabs !! i ≠ Some f) as Hft by (intros i ?; apply Hno; right; left; by exists i).
  destruct (kfree_frame _ kend_range s free d tabs f HI Hf Hff Hfd Hft) as (s' & E & HI' & S').
  assert (∀ v, 0 ≤ v < vpages → pte_at (k_mem s') tabs v = pte_at (k_mem s) tabs v) as P'.
  { intros v Hv. apply pte_at_ext; [done|]. intros i t Ht. apply S'; [by apply (pd_tab _ _ _ _ _ HI i t)|]. intros ->. by apply (Hft i). }
  exists s'. split; [done|]. split; [|done]. split.
  - split; [done|]. eapply user_inv_pages; [exact HU|done|]. intros p [->|?]%elem_of_cons; [right|by left]. intros v Hv Hp Ef. apply Hno. right. right. by exists v.
  - intros p. rw Ho (owned_ext s s') // /owned !elem_of_cons elem_of_nil. tauto.
  - by intros ? ?%elem_of_nil.
  - intros p Ha Hp x Hx. rw (S' p) //; [|by apply (Hs p)]. intros ->. apply Hp, Ho. right. left. by apply list_elem_of_singleton.
Qed.

Lemma new_pte_flags f fl : page_ok f → 0 ≤ fl < 4096 → Z.odd fl = true → new_pte (V2P f) fl = V2P f + fl.
Proof.
  intros Hf Hfl Ho. destruct (entry_parts _ kend_range f fl Hf Hfl) as (E & _ & _ & _ & Eu).
  assert (Z.lor fl 1 = fl) as El. { apply Z.bits_inj'. intros i Hi. rw Z.lor_spec. destruct (decide (i = 0)) as [->|]; [by rw Z.bit0_odd Ho|]. rw (Z.bits_above_log2 1); [lia|cbn; lia|]. apply orb_false_r. }
  rw /new_pte /PTE_P -Z.lor_assoc El E //.
Qed.

Lemma present_page f fl : page_ok f → Z.odd fl = true → present (V2P f + fl) = true.
Proof. intros Hf Ho. rw present_odd Z.odd_add Ho. destruct (V2P_page _ kend_range f Hf) as (_ & Hm & _). replace (Z.odd (V2P f)) with false; [done|]. rw Zodd_mod. symmetry. dlia. Qed.

(** The page held is mapped, or there is no page for a table that is needed. *)
Lemma private_map m0 f0 s f free d tabs a fl : private m0 f0 [f] s free d tabs → 0 ≤ a < KERNBASE → aligned a →
  present (pte_at (k_mem s) tabs (vpn a)) = false → 0 ≤ fl < 4096 → Z.odd fl = true →
  free = [] ∧ mappages d a PGSIZE (V2P f) fl s = Ok (-1, s) ∨
  ∃ s' free' tabs', mappages d a PGSIZE (V2P f) fl s = Ok (0, s') ∧ private m0 f0 [] s' free' d tabs' ∧
    (∀ v, 0 ≤ v < vpages → pte_at (k_mem s') tabs' v = if decide (v = vpn a) then V2P f + fl else pte_at (k_mem s) tabs v) ∧
    ∀ p, aligned p → p ≠ d → p ∉ free → (∀ i, tabs !! i ≠ Some p) → same_page (k_mem s) (k_mem s') p.
Proof.
  intros [ [HI HU] Ho Hh Hs] Ha Hal Hnp Hfl Hodd. destruct (Hh f) as (Hf & Hfd & Hno); [by apply list_elem_of_singleton|]. rw /KERNBASE in Ha.
  destruct (mappages_page a) as [Ea1 Ea2]; [lia|done|]. rw /mappages Ea1 Ea2.
  destruct (decide (tabs !! PDX a = None ∧ free = [])) as [ [Ht ->]|Hok].
  { left. split; [done|]. assert (0 ≤ a < 4294967296) as Hau by lia. cbn [mappages_loop]. by rw (bind_Ok _ _ _ _ _ (walk_nomem _ kend_range s d tabs a HI Hau Ht)). }
  right. destruct (mappages_round _ kend_range 0 s free d tabs a (V2P f) fl HI) as (s' & f' & t' & E & X & _ & P); [lia|done|intros ? ->; by apply Hok|].
  rw new_pte_flags // in P. exists s', f', t'. split; [done|]. split; [|split; [done|exact (ex_same _ _ _ _ _ _ _ _ X)] ].
  destruct (ex_new _ _ _ _ _ _ _ _ X) as (new & En & N1 & N2). assert (∀ i, tabs !! i ≠ Some f) as Hft by (intros i ?; apply Hno; right; left; by exists i).
  assert (f ∉ free) as Hff by (intros ?; apply Hno; by left). assert (0 ≤ vpn a < user_pages) as Hv by (rw /vpn /user_pages; dlia).
  assert (∀ w, 0 ≤ w < user_pages → 0 ≤ w < vpages) as Hb by (rw /user_pages /vpages; lia). split.
  - split; [apply X|]. eapply (user_inv_add _ kend_range (k_mem s) _ f fl free); [|done| |done..|by auto].
    + eapply user_inv_pages; [exact HU|done|]. intros p [->|?]%elem_of_cons; [right|by left]. intros v Hv' Hp Ef. apply Hno. right. right. by exists v.
    + apply NoDup_cons. split; [done|]. apply (pd_kmem _ _ _ _ _ HI).
  - intros p. rw Ho /owned En elem_of_app elem_of_nil list_elem_of_singleton. split.
    + intros [?|[->|[ [?|?]|[ [i Hi]|(v & Hv' & Hp & Ef)] ] ] ]; [by auto| |right; right; right; left; by apply N2|by auto| |].
      * right. right. right. right. exists (vpn a). rw P; [by auto|]. rewrite -> decide_True by done. split; [done|]. split; [by apply present_page|by apply (entry_parts _ kend_range f fl)].
      * right. right. right. left. exists i. eapply lookup_weaken; [done|apply X].
      * right. right. right. right. exists v. rw P; [by auto|]. rewrite -> decide_False; [done|]. intros ->. congruence.
    + intros [?|[ []|[?|[ [i Hi]|(v & Hv' & Hp & Ef)] ] ] ]; [by auto|by auto| |].
      * destruct (N1 i p Hi); [|by auto]. right. right. right. left. by exists i.
      * rw P in Hp Ef; [by auto|]. case_decide; [right; left|right; right; right; right; by exists v]. rw -Ef. by apply (entry_parts _ kend_range f fl).
  - by intros ? ?%elem_of_nil.
  - intros p Hp1 Hp x Hx. rewrite -> Ho in Hp. rw (ex_same _ _ _ _ _ _ _ _ X p) //; [by auto|..].
    + intros ?. apply Hp. right. right. by left.
    + intros i Hi. apply Hp. right. right. right. left. by exists i.
    + apply (Hs p); [done| |done]. by rewrite -> Ho.
Qed.

(** The pages of a directory are in use. *)
Lemma dir_pages s free d tabs p : vm_inv s free d tabs → p = d ∨ owned s [] tabs p → page_ok p ∧ p ∉ free.
Proof.
  intros [HI HU] [->|[ []%elem_of_nil|[ [i Hi]|(v & Hv & Hpr & <-)] ] ]; [apply HI| |].
  - by destruct (pd_tab _ _ _ _ _ HI i p Hi) as (? & ? & ? & ?).
  - by destruct (us_frame _ _ _ _ _ HU v Hv Hpr) as (? & ? & ?).
Qed.

(** A directory survives what does not touch its own pages. *)
Lemma vm_inv_pages s free s' free' d tabs : vm_inv s free d tabs → kmem_inv s' free' →
  (∀ p, p = d ∨ owned s [] tabs p → (p ∉ free') ∧ same_page (k_mem s) (k_mem s') p) →
  vm_inv s' free' d tabs ∧ ∀ v, 0 ≤ v < vpages → pte_at (k_mem s') tabs v = pte_at (k_mem s) tabs v.
Proof.
  intros [HI HU] Hk Hp. assert (∀ i t, tabs !! i = Some t → (t ∉ free') ∧ same_page (k_mem s) (k_mem s') t) as Ht.
  { intros i t Hi. apply Hp. right. right. left. by exists i. }
  assert (∀ v, 0 ≤ v < vpages → pte_at (k_mem s') tabs v = pte_at (k_mem s) tabs v) as P.
  { intros v Hv. apply pte_at_ext; [done|]. intros i t Hi. by apply (Ht i t). }
  split; [|done]. split; [|eapply user_inv_pages; [exact HU|done|] ].
  - split; [done| | | |apply HI].
    + split; [apply HI|]. apply Hp. by left.
    + intros i Hi. rw (entry_ext (k_mem s)); [done|apply Hp; by left|]. by apply HI.
    + intros i t Hi. destruct (pd_tab _ _ _ _ _ HI i t Hi) as (? & ? & _ & ?). split; [done|]. split; [done|]. split; [by apply (Ht i t)|done].
  - intros p Hf. right. intros v Hv Hpr Ef. destruct (Hp p) as [? _]; [|done]. right. right. right. by exists v.
Qed.

(** The parent's directory, while what changes is only what was free. *)
Lemma vm_inv_frame s0 f0 s free d tabs : vm_inv s0 f0 d tabs → kmem_inv s free → (∀ p, p ∈ free → p ∈ f0) →
  (∀ p, aligned p → p ∉ f0 → same_page (k_mem s0) (k_mem s) p) →
  vm_inv s free d tabs ∧ ∀ v, 0 ≤ v < vpages → pte_at (k_mem s) tabs v = pte_at (k_mem s0) tabs v.
Proof.
  intros HI Hk Hsub Hs. apply (vm_inv_pages s0 f0); [done|done|]. intros p Hp. destruct (dir_pages s0 f0 d tabs p HI Hp) as [Ha Hf].
  split; [by intros ?%Hsub|]. apply Hs; [apply Ha|done].
Qed.

Lemma kernel_mapped_ext m m' tabs tabs' ks : ∀ lo, ascending lo ks →
  (∀ v, user_pages ≤ v < vpages → pte_at m' tabs' v = pte_at m tabs v) → kernel_mapped m tabs ks → kernel_mapped m' tabs' ks.
Proof.
  induction ks as [|[ [ [virt ps] pe] perm] ks IH]; intros lo Ha P HK v' ps' pe' perm' k Hin Hk; [by apply elem_of_nil in Hin|].
  destruct Ha as (Hlo & Hal & Hn & Hps & Ha). rewrite -> elem_of_cons in Hin. destruct Hin as [E|Hin].
  - injection E as -> -> -> ->. rw P; [rw /KERNBASE in Hlo; rw /vpn /user_pages /vpages; dlia|]. apply (HK virt ps pe perm k); [apply list_elem_of_here|done].
  - apply (IH _ Ha P ltac:(intros w ? ? ? ? Hin'; apply HK; by apply list_elem_of_further) v' ps' pe' perm' k Hin Hk).
Qed.

(** ** copyuvm *)

Section parent.
Context (s0 : kstate) (f0 : list Z) (pgdir : Z) (tabs0 : gmap Z Z).
Hypothesis parent : vm_inv s0 f0 pgdir tabs0.

(** Page [v] of the child: a page that was free, with the flags and the bytes of the
    parent's page. *)
Definition copied (m : mem) (tabs : gmap Z Z) (v : Z) : Prop :=
  let e := pte_at (k_mem s0) tabs0 v in
  ∃ f, f ∈ f0 ∧ page_ok f ∧ pte_at m tabs v = V2P f + PTE_FLAGS e ∧
    ∀ o, 0 ≤ o < 4096 → mread m (f + o) = mread (k_mem s0) (frame e + o).

Record copying (s : kstate) (free : list Z) (d : Z) (tabs : gmap Z Z) (n : Z) : Prop := {
  cy_private : private (k_mem s0) f0 [] s free d tabs;
  cy_done v : 0 ≤ v < n → copied (k_mem s) tabs v;
  cy_rest v : n ≤ v < user_pages → present (pte_at (k_mem s) tabs v) = false;
  cy_kernel : kernel_mapped (k_mem s) tabs (kmap kdata);
}.

Lemma parent_frame s free held d tabs : private (k_mem s0) f0 held s free d tabs →
  vm_inv s free pgdir tabs0 ∧ ∀ v, 0 ≤ v < vpages → pte_at (k_mem s) tabs0 v = pte_at (k_mem s0) tabs0 v.
Proof.
  intros [HI Ho _ Hs]. apply (vm_inv_frame s0 f0); [done|apply HI| |done]. intros p Hp. apply Ho. right. right. by left.
Qed.

Lemma flags_present e : present e = true → 0 ≤ PTE_FLAGS e < 4096 ∧ Z.odd (PTE_FLAGS e) = true.
Proof.
  rw present_odd PTE_FLAGS_eq. intros He. split; [dlia|]. revert He. rw !Zodd_mod /u32. intros H%Z.eqb_eq. apply Z.eqb_eq. dlia.
Qed.

(** The entry the loop reads. *)
Lemma copy_reads s free d tabs held i : private (k_mem s0) f0 held s free d tabs → 0 ≤ i < KERNBASE →
  present (pte_at (k_mem s0) tabs0 (vpn i)) = true →
  ∃ a, walkpgdir pgdir i false s = Ok (a, s) ∧ a ≠ 0 ∧ ld32 (k_mem s) a = pte_at (k_mem s0) tabs0 (vpn i).
Proof.
  intros HP Hi Hpr. destruct (parent_frame _ _ _ _ _ HP) as [ [HI _] P]. rw /KERNBASE in Hi. assert (0 ≤ i < 4294967296) as Hi' by lia.
  destruct (walk_index i Hi') as (Hd & Hx & Ed & Ex). assert (0 ≤ vpn i < vpages) as Hv by (rw /vpn /vpages; dlia).
  specialize (P (vpn i) Hv). rw -P in Hpr. rw -P. rw /pte_at /vpn -Ed -Ex in Hpr |- *. destruct (tabs0 !! PDX i) as [t|] eqn:Ht; [|done].
  exists (t + 4 * PTX i). split; [by eapply walk_found|]. destruct (pd_tab _ _ _ _ _ HI _ _ Ht) as (_ & Hpt & _).
  destruct (page_ok_range _ kend_range t Hpt) as (Hr & _). split; [clia|done].
Qed.

(** The pages copied so far keep their bytes while the next one is copied. *)
Lemma copied_keep s free d tabs n f s2 tabs2 v : copying s (f :: free) d tabs n →
  0 ≤ v < n → n ≤ user_pages → pte_at (k_mem s2) tabs2 v = pte_at (k_mem s) tabs v →
  (∀ p, aligned p → p ≠ f → p ≠ d → p ∉ free → (∀ i, tabs !! i ≠ Some p) → same_page (k_mem s) (k_mem s2) p) →
  present (pte_at (k_mem s0) tabs0 v) = true → copied (k_mem s2) tabs2 v.
Proof.
  intros HC Hv Hn Hp Hs Hpr. destruct (cy_done _ _ _ _ _ HC v Hv) as (g & Hg0 & Hg & Eg & Hb). exists g. split; [done|]. split; [done|]. split; [by rw Hp|].
  destruct (flags_present _ Hpr) as [Hfl Hodd]. destruct (entry_parts _ kend_range g _ Hg Hfl) as (_ & _ & _ & Ef & _).
  assert (present (pte_at (k_mem s) tabs v) = true) as Hpv by (rw Eg; by apply present_page).
  destruct (us_frame _ _ _ _ _ (proj2 (pv_inv _ _ _ _ _ _ _ (cy_private _ _ _ _ _ HC))) v) as (_ & Hnf & Hnd & Hnt); [lia|done|]. rw Eg Ef in Hnf Hnd Hnt.
  apply not_elem_of_cons in Hnf as [Hn1 Hn2]. intros o Ho. rw (Hs g) //; [apply Hg|rw /in_page /PGSIZE; lia|]. by apply Hb.
Qed.

(** One page. *)
Lemma copy_page s f free d tabs i : copying s (f :: free) d tabs (i / 4096) → 0 ≤ i < KERNBASE → aligned i →
  (∀ v, 0 ≤ v ≤ i / 4096 → present (pte_at (k_mem s0) tabs0 v) = true) →
  let e := pte_at (k_mem s0) tabs0 (i / 4096) in
  ∃ s1 s2, Kalloc.kalloc s = Ok (f, s1) ∧ f ≠ 0 ∧ do_memmove f (frame e) PGSIZE s1 = Ok (tt, s2) ∧
    (free = [] ∧ mappages d i PGSIZE (V2P f) (PTE_FLAGS e) s2 = Ok (-1, s2) ∧ private (k_mem s0) f0 [f] s2 [] d tabs ∧
       (∀ v, i / 4096 ≤ v < user_pages → present (pte_at (k_mem s2) tabs v) = false) ∨
     ∃ s3 free' tabs', mappages d i PGSIZE (V2P f) (PTE_FLAGS e) s2 = Ok (0, s3) ∧ copying s3 free' d tabs' (i / 4096 + 1)).
Proof.
  intros HC Hi Hal Hpr e. pose proof HC as [HP Hd Hr HK]. destruct (kalloc_pops _ kend_range s (f :: free)) as (r & s1 & E1 & Em & _ & -> & Hk1 & Hf & Hff); [apply HP|].
  assert (0 ≤ i / 4096 < user_pages) as Hv by (rw /KERNBASE in Hi; rw /user_pages; dlia). destruct (flags_present e) as [Hfl Hodd]; [apply Hpr; lia|].
  assert (∀ w, 0 ≤ w < user_pages → 0 ≤ w < vpages) as Hb by (rw /user_pages /vpages; lia).
  set (m2 := memmove (k_mem s1) f (frame e) PGSIZE). assert (∀ x, mread m2 x = if decide (in_page f x) then mread (k_mem s) (frame e + (x - f)) else mread (k_mem s) x) as Hm2 by (intros x; rw /m2 mread_memmove // Em //).
  exists s1, (set_mem m2 s1). split; [done|]. split; [by destruct (page_ok_range _ kend_range f Hf) as (_ & _ & ?)|]. split; [done|]. clearbody m2.
  destruct (private_take _ _ s s1 m2 f free d tabs HP Hk1 Em Hf Hff) as (HP2 & P2 & S2). { intros x Hx. rw Hm2 Em. by rewrite -> decide_False. }
  destruct (private_map _ _ _ f free d tabs i (PTE_FLAGS e) HP2 Hi Hal) as [ [-> E3]|(s3 & f3 & t3 & E3 & HP3 & P3 & S3)]; [rw P2; [by apply Hb|]; apply Hr; rw /vpn; lia|done|done| |].
  { left. split; [done|]. split; [done|]. split; [done|]. intros v Hv'. cbn [k_mem set_mem]. rw P2; [apply Hb; lia|]. by apply Hr. }
  right. exists s3, f3, t3. split; [done|]. rw /vpn in P3. cbn [k_mem set_mem] in P3, S3. split; [done| | |].
  - intros v Hv'. destruct (decide (v = i / 4096)) as [->|Hne].
    + exists f. split; [apply (pv_own _ _ _ _ _ _ _ HP); right; right; left; apply list_elem_of_here|]. split; [done|]. split; [rw P3; [by apply Hb|]; by rewrite -> decide_True|]. fold e.
      intros o Ho. destruct (pv_held _ _ _ _ _ _ _ HP2 f) as (_ & Hfd & Hno); [by apply list_elem_of_singleton|].
      rw (S3 f); [apply Hf|done|done|intros j Hj; apply Hno; right; left; by exists j|rw /in_page /PGSIZE; lia|]. rw Hm2. rewrite -> decide_True by (rw /in_page /PGSIZE; lia).
      replace (f + o - f) with o by lia. destruct (us_frame _ _ _ _ _ (proj2 parent) (i / 4096) Hv ltac:(apply Hpr; lia)) as (Hfe & Hfe0 & _). fold e in Hfe, Hfe0.
      apply (pv_same _ _ _ _ _ _ _ HP (frame e)); [apply Hfe|done|rw /in_page /PGSIZE; lia].
    + eapply (copied_keep s free d tabs _ f); [exact HC|lia|lia| | |apply Hpr; lia].
      * rw P3; [apply Hb; lia|]. rewrite -> decide_False by done. apply P2, Hb. lia.
      * intros p Ha Hpf Hpd Hpn Hpt x Hx. rw (S3 p) //. by apply (S2 p).
  - intros v Hv'. rw P3; [apply Hb; lia|]. rewrite -> decide_False by lia. rw P2; [apply Hb; lia|]. apply Hr. lia.
  - eapply kernel_mapped_ext; [exact kmap_ascending| |exact HK]. intros v Hv'. rw /user_pages in Hv, Hv'. rw P3; [lia|]. rewrite -> decide_False by lia. apply P2. lia.
Qed.

(** The number of pages of a process of size [sz]. *)
Definition npages (sz : Z) : Z := (sz + 4095) / 4096.

Lemma copyuvm_loop_ok sz : 0 ≤ sz ≤ KERNBASE → NoDup f0 →
  (∀ v, 0 ≤ v < npages sz → present (pte_at (k_mem s0) tabs0 v) = true) →
  ∀ fuel n s free d tabs, copying s free d tabs n → d ≠ 0 → 0 ≤ n ≤ npages sz → npages sz ≤ n + Z.of_nat fuel →
  ∃ r s' free' tabs', copyuvm_loop kend fuel pgdir d (4096 * n) sz s = Ok (r, s') ∧
    (r = 0 ∧ gave_back (k_mem s0) f0 s' ∧ Z.of_nat (length f0) ≤ 1025 + npages sz ∨
     r = d ∧ copying s' free' d tabs' (npages sz)).
Proof.
  rw /KERNBASE /npages. intros Hsz Hnd Hpr fuel. induction fuel as [|fuel IH]; intros n s free d tabs HC Hd Hn Hfu; cbn [copyuvm_loop].
  { exists d, s, free, tabs. split; [done|]. right. split; [done|]. by replace ((sz + 4095) / 4096) with n by lia. }
  destruct (Z.ltb_spec (4096 * n) sz) as [Hlt|Hge]; [|exists d, s, free, tabs; split; [done|]; right; split; [done|]; by replace ((sz + 4095) / 4096) with n by dlia].
  assert (4096 * n / 4096 = n) as En by dlia. assert (n < (sz + 4095) / 4096) as Hn' by dlia. pose proof (cy_private _ _ _ _ _ HC) as HP.
  assert (present (pte_at (k_mem s0) tabs0 n) = true) as Hpn by (apply Hpr; lia).
  destruct (copy_reads s free d tabs [] (4096 * n) HP) as (a & Ea & Ha & Ela); [rw /KERNBASE; lia|by rw /vpn En|]. mgo Ea. destruct (Z.eqb_spec a 0); [done|].
  rw /load32. mget. rw Ela /vpn En Hpn. cbn [negb]. fold (frame (pte_at (k_mem s0) tabs0 n)). destruct free as [|f free].
  { destruct (kalloc_pops _ kend_range s []) as (r & s1 & E1 & _ & _ & -> & ->); [apply HP|]. mgo E1. cbn [Z.eqb].
    destruct (private_freevm _ _ _ _ _ _ HP) as (s2 & E2 & G2). mgo E2. exists 0, s2, [], tabs. split; [done|]. left. split; [done|]. split; [done|].
    pose proof (private_count _ _ _ _ _ _ _ n HP Hnd ltac:(lia) (cy_rest _ _ _ _ _ HC)) as Hc. cbn [length] in Hc. lia. }
  pose proof (copy_page s f free d tabs (4096 * n)) as Hcp. rw En in Hcp. destruct Hcp as (s1 & s2 & E1 & Hf & E2 & H); [done|rw /KERNBASE; lia|rw /aligned /PGSIZE; dlia|intros; apply Hpr; lia|].
  mgo E1. destruct (Z.eqb_spec f 0); [done|]. mgo E2. destruct H as [(-> & E3 & HP3 & Hr3)|(s3 & f3 & t3 & E3 & HC3)]; mgo E3; cbn [Z.ltb Z.compare].
  - destruct (private_put _ _ _ _ _ _ _ HP3) as (s4 & E4 & HP4 & _). mgo E4. destruct (private_freevm _ _ _ _ _ _ HP4) as (s5 & E5 & G5). mgo E5.
    exists 0, s5, [], tabs. split; [done|]. left. split; [done|]. split; [done|].
    pose proof (private_count _ _ _ _ _ _ _ n HP3 Hnd ltac:(lia) Hr3) as Hc. cbn [length] in Hc. lia.
  - rw u32_small; [rw /PGSIZE; lia|]. replace (4096 * n + PGSIZE) with (4096 * (n + 1)) by (rw /PGSIZE; lia). apply (IH (n + 1) s3 f3 d t3); [done|done|lia|lia].
Qed.
End parent.

Lemma P2V_offset e o : page_ok (frame e) → 0 ≤ o < 4096 → P2V (PTE_ADDR e + o) = frame e + o.
Proof.
  intros Hf Ho. destruct (page_ok_range _ kend_range _ Hf) as (H1 & H2 & _). rw /P2V. replace (PTE_ADDR e + o + KERNBASE) with (PTE_ADDR e + KERNBASE + o) by lia.
  rw -u32_add_l -/(P2V _) -/(frame e). apply u32_small. clia.
Qed.

(** A page that is copied, seen through the two translations. *)
Lemma copied_translate s free pgdir tabs s' free' d tabs' va : vm_inv s free pgdir tabs → vm_inv s' free' d tabs' →
  0 ≤ va < KERNBASE → present (pte_at (k_mem s) tabs (vpn va)) = true → copied s free tabs (k_mem s') tabs' (vpn va) →
  ∃ pa pa' fl, translate (k_mem s) pgdir va = Some (pa, fl) ∧ translate (k_mem s') d va = Some (pa', fl) ∧
    P2V pa' / 4096 * 4096 ∈ free ∧ mread (k_mem s') (P2V pa') = mread (k_mem s) (P2V pa).
Proof.
  intros [HI HU] [HI' HU'] Hva Hpr (f & Hf0 & Hf & Ef & Hb). rw /KERNBASE in Hva. assert (0 ≤ va < 4294967296) as Hva' by lia. set (e := pte_at (k_mem s) tabs (vpn va)) in *.
  destruct (flags_present _ Hpr) as [Hfl Hodd]. destruct (entry_parts _ kend_range f _ Hf Hfl) as (_ & Eaf & Eff & Efr & _). pose proof (present_page f _ Hf Hodd) as Hpf.
  assert (0 ≤ vpn va < user_pages) as Hv by (rw /vpn /user_pages; dlia). destruct (us_frame _ _ _ _ _ HU _ Hv Hpr) as (Hpe & _). fold e in Hpe.
  assert (0 ≤ va mod PGSIZE < 4096) as Ho by (rw /PGSIZE; dlia).
  exists (PTE_ADDR e + va mod PGSIZE), (V2P f + va mod PGSIZE), (PTE_FLAGS e). rw (translate_pte_at _ kend_range s free pgdir tabs va HI Hva') (translate_pte_at _ kend_range s' free' d tabs' va HI' Hva').
  cbv zeta. fold e. rw Ef Hpr Hpf Eaf Eff. split; [done|]. split; [done|].
  assert (P2V (V2P f + va mod PGSIZE) = f + va mod PGSIZE) as Ep. { rw -{1}Eaf P2V_offset //; rw Efr //. }
  rw Ep P2V_offset //. split; [|by apply Hb]. destruct Hf as [Hfa _]. rw /PGSIZE in Hfa Ho |- *. by replace ((f + va mod 4096) / 4096 * 4096) with f by dlia.
Qed.

(** C10. [copyuvm] gives a child a memory of its own.  For a process of size [sz] whose
    pages are all mapped, [copyuvm] either makes a page directory or returns 0.  In the
    directory every address below the size, rounded up to a page, has the flags it has in
    the parent and reads the byte the parent reads there, from a page that was free; no
    other user address is mapped, and the kernel is mapped as [kmap] says.  The parent's
    address space is still consistent, with every entry as before, and no page that was
    not free has changed.  When the call returns 0 all it took is free again, and that
    happens only when fewer pages than the process has were free, with 1025 for the
    directory and its tables. *)
Theorem copyuvm_copies s free pgdir tabs sz : vm_inv s free pgdir tabs → 0 ≤ sz ≤ KERNBASE →
  (∀ v, 0 ≤ v < npages sz → present (pte_at (k_mem s) tabs v) = true) →
  ∃ r s' free', copyuvm kend kdata pgdir sz s = Ok (r, s') ∧
    vm_inv s' free' pgdir tabs ∧ (∀ v, 0 ≤ v < vpages → pte_at (k_mem s') tabs v = pte_at (k_mem s) tabs v) ∧
    (∀ p, aligned p → p ∉ free → same_page (k_mem s) (k_mem s') p) ∧
    (r = 0 ∧ (∀ p, p ∈ free' ↔ p ∈ free) ∧ Z.of_nat (length free) ≤ 1025 + npages sz ∨
     r ≠ 0 ∧ ∃ tabs', vm_inv s' free' r tabs' ∧ (∀ p, p ∈ free ↔ p = r ∨ owned s' free' tabs' p) ∧
       kernel_mapped (k_mem s') tabs' (kmap kdata) ∧
       (∀ va, 0 ≤ va < 4096 * npages sz → ∃ pa pa' fl,
          translate (k_mem s) pgdir va = Some (pa, fl) ∧ translate (k_mem s') r va = Some (pa', fl) ∧
          P2V pa' / 4096 * 4096 ∈ free ∧ mread (k_mem s') (P2V pa') = mread (k_mem s) (P2V pa)) ∧
       ∀ va, 4096 * npages sz ≤ va < KERNBASE → translate (k_mem s') r va = None).
Proof.
  intros HI Hsz Hpr. assert (NoDup free) as Hnd by apply HI. rw /copyuvm. assert (kmem_inv s free) as Hk by apply HI.
  assert (0 ≤ npages sz ≤ user_pages) as Hnp by (rw /KERNBASE in Hsz; rw /npages /user_pages; dlia).
  assert (∀ w, 0 ≤ w < user_pages → 0 ≤ w < vpages) as Hb by (rw /user_pages /vpages; lia).
  assert (∀ s', gave_back (k_mem s) free s' → Z.of_nat (length free) ≤ 1025 + npages sz → ∃ free', vm_inv s' free' pgdir tabs ∧
    (∀ v, 0 ≤ v < vpages → pte_at (k_mem s') tabs v = pte_at (k_mem s) tabs v) ∧ (∀ p, aligned p → p ∉ free → same_page (k_mem s) (k_mem s') p) ∧
    (0 = 0 ∧ (∀ p, p ∈ free' ↔ p ∈ free) ∧ Z.of_nat (length free) ≤ 1025 + npages sz)) as Hgave.
  { intros s' (f' & Hk' & Hf' & S') Hl. destruct (vm_inv_frame s free s' f' pgdir tabs HI Hk' ltac:(intros ?; by apply Hf') S') as [HI' P']. by exists f'. }
  destruct (setupkvm_ok s free Hk) as (d & s1 & E1 & [(-> & G & Hl)|(Hd & f1 & t1 & HP1 & K1 & N1)]); mgo E1.
  { destruct (Hgave s1 G ltac:(lia)) as (f' & H1 & H2 & H3 & H4). exists 0, s1, f'. split; [done|]. split; [done|]. split; [done|]. split; [done|]. by left. }
  destruct (Z.eqb_spec d 0); [done|].
  destruct (copyuvm_loop_ok s free pgdir tabs HI sz Hsz Hnd Hpr (page_rounds 0 sz) 0 s1 f1 d t1) as (r & s2 & f2 & t2 & E2 & H2); [|done|lia| |].
  { split; [done|intros v ?; lia|intros v Hv; apply N1; lia|done]. }
  { rw /npages /page_rounds /PGSIZE. dlia. }
  rw Z.mul_0_r in E2. destruct H2 as [(-> & G & Hl)|(-> & HC)].
  { destruct (Hgave s2 G Hl) as (f' & H1 & H2 & H3 & H4). exists 0, s2, f'. split; [done|]. split; [done|]. split; [done|]. split; [done|]. by left. }
  pose proof HC as [HP Hdone Hrest HK]. destruct (parent_frame s free pgdir tabs HI s2 f2 [] d t2 HP) as [HI2 P2]. pose proof HP as [HId Ho _ Hs].
  exists d, s2, f2. split; [done|]. split; [done|]. split; [done|]. split; [done|]. right. split; [done|]. exists t2. split; [done|].
  split; [intros p; rw Ho elem_of_nil; tauto|]. split; [done|]. rw /user_pages in Hnp. split.
  - intros va Hva. assert (0 ≤ vpn va < npages sz) as Hv by (rw /vpn; dlia). apply (copied_translate s free pgdir tabs s2 f2 d t2 va); [done|done|rw /KERNBASE; lia|by apply Hpr|by apply Hdone].
  - intros va Hva. rw /KERNBASE in Hva. rw (translate_pte_at _ kend_range s2 f2 d t2 va (proj1 HId)); [lia|]. cbv zeta. rw Hrest //. rw /vpn /user_pages. dlia.
Qed.
End copy.

(** ** Example *)

(** A process of one page, on a machine with 3000 pages after [end]. *)
Definition example_kdata : Z := KERNLINK + 0x8000.

Lemma example_kdata_range : KERNLINK < example_kdata < KERNBASE + PHYSTOP ∧ aligned example_kdata.
Proof. by vm_compute. Qed.

Lemma example_process : ∃ s free d tabs, vm_inv example_kend s free d tabs ∧ 1100 < Z.of_nat (length free) ∧
  present (pte_at (k_mem s) tabs 0) = true.
Proof.
  pose proof example_kend_range as Hr. destruct (freerange_loop_pushes _ Hr example_kstate [] example_kend 3000) as (s0 & _ & _ & Hk).
  { by split_and!; constructor. }
  { apply Forall_forall. intros q (i & Hi & ->)%elem_of_pages_from. rw /Kalloc.page_ok /example_kend. clia. }
  { by intros ? _ ?%elem_of_nil. }
  rw app_nil_r in Hk. set (l := reverse _) in Hk. assert (length l = 3000%nat) as Hl by (rw /l length_reverse; vm_compute; reflexivity). clearbody l.
  destruct (setupkvm_ok example_kend example_kdata Hr example_kdata_range s0 l Hk) as (d & s1 & _ & [(_ & _ & H)|(Hd & f1 & t1 & HP & _ & Hn)]); [lia|].
  pose proof (private_count _ _ _ _ _ _ _ _ 0 HP (proj1 (proj2 Hk)) ltac:(lia) Hn) as Hc. cbn [length] in Hc. destruct f1 as [|f [|f2 f1] ]; [cbn [length] in Hc; lia|cbn [length] in Hc; lia|].
  destruct (alloc_page _ Hr s1 f (f2 :: f1) d t1 0 (pv_inv _ _ _ _ _ _ _ _ HP)) as (s2 & s3 & s4 & f' & t' & _ & _ & _ & _ & Hl' & G); [clia|done|by apply Hn|done|].
  exists s4, f', d, t'. split; [apply G|]. cbn [length] in Hc, Hl'. split; [lia|].
  destruct (gr_new _ _ _ _ _ _ _ _ _ _ G 0 eq_refl) as (g & _ & Hg & -> & _). by apply (present_new _ Hr).
Qed.

Lemma copyuvm_copies_witness :
  ∃ s d r s', copyuvm example_kend example_kdata d 4096 s = Ok (r, s') ∧ r ≠ 0 ∧
    ∃ pa pa' fl, translate (k_mem s) d 100 = Some (pa, fl) ∧ translate (k_mem s') r 100 = Some (pa', fl) ∧ mread (k_mem s') (P2V pa') = mread (k_mem s) (P2V pa).
Proof.
  destruct example_process as (s & free & d & tabs & HI & Hl & Hp).
  destruct (copyuvm_copies example_kend example_kdata example_kend_range example_kdata_range s free d tabs 4096 HI) as (r & s' & free' & E & _ & _ & _ & H).
  - clia.
  - intros v Hv. change (npages 4096) with 1 in Hv. by replace v with 0 by lia.
  - exists s, d, r, s'. split; [exact E|]. change (npages 4096) with 1 in H. destruct H as [(_ & _ & H)|(Hr & t & _ & _ & _ & Hc & _)]; [lia|]. split; [done|].
    destruct (Hc 100) as (pa & pa' & fl & H1 & H2 & _ & H3); [lia|]. by exists pa, pa', fl.
Defined.
