(* ===== verification/VmUser.v ===== *)
(** * User memory behind a page directory (vm.c): [copyout], [clearpteu]

    The bytes a program sees through its directory, and what the kernel's writes to them
    change. *)

From S2P Require Import Prelude Params KMemory Kalloc Vm VmCopy.

(** The byte at the user address [a]. *)
Definition ubyte (m : mem) (tabs : gmap Z Z) (a : Z) : Z :=
  mread m (frame (pte_at m tabs (vpn a)) + a mod 4096).

Lemma store_bytes_ok bs : ∀ a s, ∃ m', store_bytes a bs s = Ok (tt, set_mem m' s) ∧
  ∀ x, mread m' x = if decide (a ≤ x < a + Z.of_nat (length bs)) then u8 (bs !!! Z.to_nat (x - a)) else mread (k_mem s) x.
Proof.
  induction bs as [|b bs IH]; intros a s; cbn [store_bytes].
  - exists (k_mem s). split; [by destruct s|]. intros x. by rewrite -> decide_False by (cbn [length]; lia).
  - destruct (IH (a + 1) (set_mem (mwrite (k_mem s) a b) s)) as (m' & E & Hm). exists m'. split; [rw modify_bind; exact E|].
    intros x. rw Hm. cbn [k_mem set_mem]. rw mread_mwrite length_cons. destruct (decide (x = a)) as [->|Hne].
    + rewrite -> decide_False, decide_True by lia. by rw Z.sub_diag.
    + case_decide; [rewrite -> decide_True by lia|by rewrite -> decide_False by lia].
      by replace (Z.to_nat (x - a)) with (Datatypes.S (Z.to_nat (x - (a + 1)))) by lia.
Qed.

Section user.
Context (kend : Z).
Hypothesis kend_range : KERNLINK ≤ kend ≤ KERNBASE + PHYSTOP.
Abbreviation page_ok := (Kalloc.page_ok kend).
Abbreviation vm_inv := (Vm.vm_inv kend).
Abbreviation private := (VmCopy.private kend).

Lemma user_vpages v : 0 ≤ v < user_pages → 0 ≤ v < vpages.
Proof. rw /user_pages /vpages. lia. Qed.

(** A write into the frame of one user page. *)
Lemma frame_write m0 f0 s free d tabs v m' : private m0 f0 [] s free d tabs → 0 ≤ v < user_pages →
  present (pte_at (k_mem s) tabs v) = true →
  (∀ x, ¬ in_page (frame (pte_at (k_mem s) tabs v)) x → mread m' x = mread (k_mem s) x) →
  private m0 f0 [] (set_mem m' s) free d tabs ∧
  (∀ w, 0 ≤ w < vpages → pte_at m' tabs w = pte_at (k_mem s) tabs w) ∧
  ∀ p, aligned p → p ≠ frame (pte_at (k_mem s) tabs v) → same_page (k_mem s) m' p.
Proof.
  intros [ [HI HU] Ho _ Hs] Hv Hp Hm. destruct (us_frame _ _ _ _ _ HU v Hv Hp) as (Hf & Hff & Hfd & Hft).
  destruct (pgdir_inv_write _ s m' _ free d tabs HI (proj1 Hf) Hff Hfd Hft Hm) as (HI' & S' & P'). split; [|done].
  pose proof (owned_ext s (set_mem m' s) free tabs) as Ho'. split.
  - split; [done|]. eapply user_inv_pages; [exact HU|done|by auto].
  - intros p. by rw Ho Ho'.
  - by intros ? ?%elem_of_nil.
  - intros p Ha Hpf x Hx. cbn [k_mem set_mem]. rw (S' p) //; [|by apply (Hs p)]. intros ->. apply Hpf, Ho. right. right. right. right. by exists v.
Qed.

(** The entry of a page that is mapped. *)
Lemma walk_present s free d tabs va : vm_inv s free d tabs → 0 ≤ va < 4294967296 →
  present (pte_at (k_mem s) tabs (vpn va)) = true →
  ∃ t, tabs !! (vpn va / 1024) = Some t ∧ walkpgdir d va false s = Ok (t + 4 * (vpn va mod 1024), s) ∧ t + 4 * (vpn va mod 1024) ≠ 0 ∧
    ld32 (k_mem s) (t + 4 * (vpn va mod 1024)) = pte_at (k_mem s) tabs (vpn va).
Proof.
  intros [HI _] Hva Hp. destruct (walk_index va Hva) as (_ & _ & Ed & Ex).
  rw /pte_at /vpn in Hp |- *. destruct (tabs !! (va / 4096 / 1024)) as [t|] eqn:Ht; [|done]. exists t. split; [done|]. split; [rw -Ex; eapply walk_found; [done..|by rw Ed]|].
  destruct (pd_tab _ _ _ _ _ HI _ _ Ht) as (_ & Hpt & _). destruct (page_ok_range _ kend_range t Hpt) as (Hr & _). split; [clia|done].
Qed.

(** User pages are those with the flag [PTE_U]. *)
Definition user_bit (e : Z) : bool := negb (Z.land e PTE_U =? 0).

Lemma uva2ka_ok w s free d tabs va : vm_inv s free d tabs → 0 ≤ va < 4294967296 → present (pte_at (k_mem s) tabs (vpn va)) = true →
  let e := pte_at (k_mem s) tabs (vpn va) in
  uva2ka w d va s = Ok (if user_bit e then frame e else 0, s).
Proof.
  intros HI Hva Hp e. destruct (walk_present s free d tabs va HI Hva Hp) as (t & Ht & Ew & Hnz & El). rw /uva2ka. mgo Ew.
  destruct (Z.eqb_spec (t + 4 * (vpn va mod 1024)) 0); [done|]. rw /load32. mget. rw El -/e. rw /present -/e in Hp. rw /user_bit.
  destruct (Z.land e PTE_P =? 0); [done|]. by destruct (Z.land e PTE_U =? 0).
Qed.

(** The bytes of the range hold [bs] afterwards, all others are as they were. *)
Definition written (m m' : mem) (tabs : gmap Z Z) (va : Z) (bs : list Z) : Prop :=
  ∀ a, 0 ≤ a < KERNBASE → present (pte_at m tabs (vpn a)) = true →
    ubyte m' tabs a = if decide (va ≤ a < va + Z.of_nat (length bs)) then bs !!! Z.to_nat (a - va) else ubyte m tabs a.

(** The piece of a range that lies on its first page. *)
Lemma write_piece m0 f0 s free d tabs va bs : private m0 f0 [] s free d tabs → 0 ≤ va → va mod 4096 + Z.of_nat (length bs) ≤ 4096 →
  va < KERNBASE → present (pte_at (k_mem s) tabs (vpn va)) = true → Forall (λ b, 0 ≤ b < 256) bs →
  ∃ m', store_bytes (frame (pte_at (k_mem s) tabs (vpn va)) + va mod 4096) bs s = Ok (tt, set_mem m' s) ∧
    private m0 f0 [] (set_mem m' s) free d tabs ∧ (∀ w, 0 ≤ w < vpages → pte_at m' tabs w = pte_at (k_mem s) tabs w) ∧ written (k_mem s) m' tabs va bs.
Proof.
  intros HP Hva Hl Hk Hp Hb. set (f := frame (pte_at (k_mem s) tabs (vpn va))). destruct (store_bytes_ok bs (f + va mod 4096) s) as (m' & E & Hm).
  rw /KERNBASE in Hk. assert (0 ≤ vpn va < user_pages) as Hv by (rw /vpn /user_pages; dlia). assert (0 ≤ va mod 4096) as Ho by dlia.
  destruct (frame_write m0 f0 s free d tabs (vpn va) m' HP Hv Hp) as (HP' & P' & S').
  { intros x Hx. rw Hm. rewrite -> decide_False; [done|]. fold f in Hx. rw /in_page /PGSIZE in Hx. lia. }
  exists m'. do 3 (split; [done|]). intros a Ha Hpa. rw /KERNBASE in Ha. assert (0 ≤ vpn a < user_pages) as Hva' by (rw /vpn /user_pages; dlia).
  rw /ubyte P'; [by apply user_vpages|]. destruct (decide (vpn a = vpn va)) as [Ev|Ev].
  - rw Ev -/f Hm. assert (a mod 4096 - va mod 4096 = a - va) as Ed by (rw /vpn in Ev; dlia). case_decide as Hin.
    + rewrite -> decide_True by lia. replace (f + a mod 4096 - (f + va mod 4096)) with (a - va) by lia.
      apply u8_small. rewrite -> Forall_forall in Hb. apply Hb, list_elem_of_lookup_total_2. lia.
    + by rewrite -> decide_False by lia.
  - destruct (us_frame _ _ _ _ _ (proj2 (pv_inv _ _ _ _ _ _ _ _ HP)) (vpn a) Hva' Hpa) as ((Hfa & _) & _).
    rewrite -> decide_False by (rw /vpn in Ev; dlia). apply (S' (frame (pte_at (k_mem s) tabs (vpn a)))); [done| |rw /in_page /PGSIZE; dlia].
    intros Ef. apply Ev. by apply (us_inj _ _ _ _ _ (proj2 (pv_inv _ _ _ _ _ _ _ _ HP))).
Qed.

Lemma written_app m m1 m2 tabs va bs1 bs2 : written m m1 tabs va bs1 → written m1 m2 tabs (va + Z.of_nat (length bs1)) bs2 →
  (∀ w, 0 ≤ w < vpages → pte_at m1 tabs w = pte_at m tabs w) → written m m2 tabs va (bs1 ++ bs2).
Proof.
  intros H1 H2 P a Ha Hp. assert (0 ≤ vpn a < vpages) as Hv by (rw /KERNBASE in Ha; rw /vpn /vpages; dlia). rw H2 //; [by rw P|]. rw H1 //. clear H1 H2.
  rw length_app. destruct (decide (va + Z.of_nat (length bs1) ≤ a < _)) as [D1|D1].
  - rewrite -> decide_True by lia. rw lookup_total_app_r; [lia|]. f_equal. lia.
  - destruct (decide (va ≤ a < va + Z.of_nat (length bs1))) as [D2|D2]; [rewrite -> decide_True by lia|by rewrite -> decide_False by lia].
    rw lookup_total_app_l; [lia|done].
Qed.

Lemma copy_none m0 f0 s free d tabs va : private m0 f0 [] s free d tabs →
  ∃ r m', Ok (0, s) = Ok (r, set_mem m' s) ∧ private m0 f0 [] (set_mem m' s) free d tabs ∧
    (∀ v, 0 ≤ v < vpages → pte_at m' tabs v = pte_at (k_mem s) tabs v) ∧
    (r = 0 ∧ written (k_mem s) m' tabs va [] ∧ (∀ a, va ≤ a < va + 0 → user_bit (pte_at (k_mem s) tabs (vpn a)) = true) ∨
     r = -1 ∧ ∃ a, va ≤ a < va + 0 ∧ user_bit (pte_at (k_mem s) tabs (vpn a)) = false).
Proof.
  intros HP. exists 0, (k_mem s). assert (set_mem (k_mem s) s = s) as -> by by destruct s. do 3 (split; [done|]). left. split; [done|]. split; [|lia].
  intros a _ _. by rewrite -> decide_False by (cbn [length]; lia).
Qed.

(** [copyout]: the bytes are written when every page of the range is the user's, and
    otherwise the call fails; no other memory changes. *)
Lemma copyout_loop_ok w fuel : ∀ m0 f0 s free d tabs va bs, private m0 f0 [] s free d tabs → 0 ≤ va →
  va + Z.of_nat (length bs) ≤ KERNBASE → Forall (λ b, 0 ≤ b < 256) bs → va mod 4096 + Z.of_nat (length bs) ≤ 4096 * Z.of_nat fuel →
  (∀ a, va ≤ a < va + Z.of_nat (length bs) → present (pte_at (k_mem s) tabs (vpn a)) = true) →
  ∃ r m', copyout_loop w fuel d va bs s = Ok (r, set_mem m' s) ∧ private m0 f0 [] (set_mem m' s) free d tabs ∧
    (∀ v, 0 ≤ v < vpages → pte_at m' tabs v = pte_at (k_mem s) tabs v) ∧
    (r = 0 ∧ written (k_mem s) m' tabs va bs ∧ (∀ a, va ≤ a < va + Z.of_nat (length bs) → user_bit (pte_at (k_mem s) tabs (vpn a)) = true) ∨
     r = -1 ∧ ∃ a, va ≤ a < va + Z.of_nat (length bs) ∧ user_bit (pte_at (k_mem s) tabs (vpn a)) = false).
Proof.
  induction fuel as [|fuel IH]; intros m0 f0 s free d tabs va bs HP Hva Hk Hb Hfu Hpr; cbn [copyout_loop].
  { assert (bs = []) as -> by (apply length_zero_iff_nil; dlia). by apply copy_none. }
  destruct (Z.ltb_spec 0 (Z.of_nat (length bs))) as [Hl|Hl].
  2: { assert (bs = []) as -> by (apply length_zero_iff_nil; lia). by apply copy_none. }
  rw /KERNBASE in Hk. assert (0 ≤ va mod 4096 < 4096) as Ho by dlia.
  assert (PGROUNDDOWN va = va - va mod 4096) as E0 by (rw PGROUNDDOWN_eq u32_small //; lia).
  assert (vpn (PGROUNDDOWN va) = vpn va) as Ev by (rw E0 /vpn; dlia). assert (0 ≤ PGROUNDDOWN va < 4294967296) as Hr0 by (rw E0; dlia).
  assert (present (pte_at (k_mem s) tabs (vpn va)) = true) as Hp by (apply Hpr; lia). pose proof (pv_inv _ _ _ _ _ _ _ _ HP) as HI.
  pose proof (uva2ka_ok w s free d tabs (PGROUNDDOWN va) HI Hr0 ltac:(by rw Ev)) as Eu. rw Ev in Eu. mgo Eu. destruct (user_bit _) eqn:Hub.
  2: { exists (-1), (k_mem s). assert (set_mem (k_mem s) s = s) as -> by by destruct s. split; [done|]. split; [done|]. split; [done|]. right. split; [done|]. exists va. split; [lia|done]. }
  assert (0 ≤ vpn va < user_pages) as Hv by (rw /vpn /user_pages; dlia). destruct (us_frame _ _ _ _ _ (proj2 HI) _ Hv Hp) as (Hf & _).
  destruct (page_ok_range _ kend_range _ Hf) as (_ & _ & Hfz). destruct (Z.eqb_spec (frame (pte_at (k_mem s) tabs (vpn va))) 0) as [|_]; [done|].
  replace (va - PGROUNDDOWN va) with (va mod 4096) by lia. rw /PGSIZE. set (n := if Z.of_nat (length bs) <? 4096 - va mod 4096 then Z.of_nat (length bs) else 4096 - va mod 4096).
  assert (n = Z.min (Z.of_nat (length bs)) (4096 - va mod 4096)) as En by (rw /n; destruct (Z.ltb_spec (Z.of_nat (length bs)) (4096 - va mod 4096)); lia). clearbody n.
  assert (length (take (Z.to_nat n) bs) = Z.to_nat n) as Elt by (rw length_take; lia). assert (length (drop (Z.to_nat n) bs) = (length bs - Z.to_nat n)%nat) as Eld by apply length_drop.
  destruct (write_piece m0 f0 s free d tabs va (take (Z.to_nat n) bs) HP Hva) as (m1 & E1 & HP1 & P1 & W1); [lia|rw /KERNBASE; lia|done|by apply Forall_take|]. mgo E1.
  assert (u32 (PGROUNDDOWN va + 4096) = PGROUNDDOWN va + 4096) as -> by (apply u32_small; lia). rw E0. replace (va - va mod 4096 + 4096) with (va + (4096 - va mod 4096)) by lia.
  assert (∀ a, va + (4096 - va mod 4096) ≤ a < va + (4096 - va mod 4096) + Z.of_nat (length (drop (Z.to_nat n) bs)) → va ≤ a < va + Z.of_nat (length bs)) as Hin by lia.
  assert (∀ a, va ≤ a < va + Z.of_nat (length bs) → pte_at m1 tabs (vpn a) = pte_at (k_mem s) tabs (vpn a)) as P1'.
  { intros a Ha. apply P1. rw /vpn /vpages. dlia. }
  destruct (IH m0 f0 (set_mem m1 s) free d tabs (va + (4096 - va mod 4096)) (drop (Z.to_nat n) bs) HP1) as (r & m2 & E2 & HP2 & P2 & H2); [lia|rw Eld /KERNBASE; dlia|by apply Forall_drop|rw Eld; dlia|intros a Ha; cbn [k_mem set_mem]; rw P1'; [lia|]; apply Hpr; lia|].
  exists r, m2. split; [exact E2|]. split; [exact HP2|]. cbn [k_mem set_mem] in P2, H2. split; [intros v Hv'; rw P2 //; by apply P1|]. destruct H2 as [(-> & W2 & U2)|(-> & a & Ha & U2)].
  - left. split; [done|]. split.
    + rewrite <- (take_drop (Z.to_nat n) bs). apply (written_app _ m1); [done| |done]. destruct (decide (drop (Z.to_nat n) bs = [])) as [Ed|Ed].
      * rw Ed in W2 |- *. intros a Ha Hpa. rw W2 //. by rewrite -> !decide_False by (cbn [length]; lia).
      * rw Elt. assert (length (drop (Z.to_nat n) bs) ≠ 0%nat) as Hnz by by intros ?%length_zero_iff_nil. replace (va + Z.of_nat (Z.to_nat n)) with (va + (4096 - va mod 4096)) by lia. done.
    + intros a Ha. destruct (decide (va + (4096 - va mod 4096) ≤ a)); [rw -(P1' a Ha); apply U2; lia|]. replace (vpn a) with (vpn va) by (rw /vpn; dlia). done.
  - right. split; [done|]. exists a. split; [lia|]. rw -P1' //. by apply Hin.
Qed.

Lemma land4 e : Z.land e 4 = 4 * (e / 4 mod 2).
Proof.
  apply Z.bits_inj'. intros i Hi. rw Z.land_spec. change 4 with (2 ^ 2) at 1 2. rw Z.pow2_bits_eqb // (Z.mul_comm (2 ^ 2)) Z.mul_pow2_bits //. destruct (Z.eqb_spec 2 i) as [<-|Hne].
    - rw andb_true_r. change (2 - 2) with 0. rw Z.bit0_odd Zodd_mod. change 4 with (2 ^ 2). rw -Z.shiftr_div_pow2 // Z.mod_mod //. rw -Zodd_mod -Z.bit0_odd Z.shiftr_spec //.
    - rw andb_false_r. symmetry. destruct (decide (i < 2)); [apply Z.testbit_neg_r; lia|]. apply Z.bits_above_log2; [dlia|]. assert (e / 4 mod 2 = 0 ∨ e / 4 mod 2 = 1) as [-> | ->] by dlia; cbn; lia.
Qed.
Lemma land_lnot4 e : Z.land e (Z.lnot PTE_U) = e - 4 * (e / 4 mod 2).
Proof.
  pose proof (land4 e) as E. assert (Z.land e (Z.lnot 4) + Z.land e 4 = e) as Ea; [|change PTE_U with 4; lia].
  rw Z.add_nocarry_lxor; apply Z.bits_inj'; intros i Hi; rw ?Z.lxor_spec !Z.land_spec ?Z.bits_0 Z.lnot_spec //; by destruct (Z.testbit e i), (Z.testbit 4 i).
Qed.
Lemma same_frame_U e : 0 ≤ e < 4294967296 → same_frame e (Z.land e (Z.lnot PTE_U)) ∧ 0 ≤ Z.land e (Z.lnot PTE_U) < 4294967296 ∧ user_bit (Z.land e (Z.lnot PTE_U)) = false.
Proof.
  intros He. split; [|split].
  - rw land_lnot4 /same_frame /frame !present_odd !PTE_ADDR_eq !u32_small; [dlia|dlia|]. split; [|f_equal; dlia].
    rw Z.odd_sub Z.odd_mul. cbn. apply xorb_false_r.
  - rw land_lnot4. dlia.
  - rw /user_bit -Z.land_assoc. change (Z.land (Z.lnot PTE_U) PTE_U) with 0. by rw Z.land_0_r.
Qed.

(** [clearpteu] takes one page from the user and changes nothing else. *)
Lemma clearpteu_ok m0 f0 s free d tabs va : private m0 f0 [] s free d tabs → 0 ≤ va < KERNBASE →
  let e := pte_at (k_mem s) tabs (vpn va) in present e = true →
  ∃ s', clearpteu d va s = Ok (tt, s') ∧ private m0 f0 [] s' free d tabs ∧
    (∀ w, 0 ≤ w < vpages → pte_at (k_mem s') tabs w = if decide (w = vpn va) then Z.land e (Z.lnot PTE_U) else pte_at (k_mem s) tabs w) ∧
    ∀ a, 0 ≤ a < KERNBASE → present (pte_at (k_mem s) tabs (vpn a)) = true → ubyte (k_mem s') tabs a = ubyte (k_mem s) tabs a.
Proof.
  intros HP Hva e Hp. pose proof (pv_inv _ _ _ _ _ _ _ _ HP) as HI. rw /KERNBASE in Hva. destruct (walk_present s free d tabs va HI ltac:(lia) Hp) as (t & Ht & Ew & Hnz & El).
  assert (0 ≤ vpn va < vpages) as Hv by (rw /vpn /vpages; dlia). assert (0 ≤ e < 4294967296) as He by (rw -/e in El; rw -El; apply ld32_range).
  destruct (same_frame_U e He) as (Hsf & Hr & _). destruct (set_pte _ kend_range s free d tabs (vpn va) t (Z.land e (Z.lnot PTE_U)) (proj1 HI) Hv Ht) as [X P]. rw (u32_small (Z.land _ _)) // in P.
  eexists. split; [|split; [|split; [exact P|] ] ].
  - rw /clearpteu. mgo Ew. destruct (Z.eqb_spec (t + 4 * (vpn va mod 1024)) 0); [done|]. rw /load32. mget. rw El -/e. reflexivity.
  - eapply private_ext; [exact HP|exact X|]. intros v Hv'. rw P; [by apply user_vpages|]. case_decide as E; [subst v; exact Hsf|done].
  - intros a Ha Hpa. rw /KERNBASE in Ha. assert (0 ≤ vpn a < user_pages) as Hva' by (rw /vpn /user_pages; dlia).
    destruct (us_frame _ _ _ _ _ (proj2 HI) _ Hva' Hpa) as (Hf & Hff & Hfd & Hft). rw /ubyte P; [by apply user_vpages|].
    assert (frame (if decide (vpn a = vpn va) then Z.land e (Z.lnot PTE_U) else pte_at (k_mem s) tabs (vpn a)) = frame (pte_at (k_mem s) tabs (vpn a))) as ->.
    { case_decide as E; [rw E; apply Hsf|done]. }
    apply (ex_same _ _ _ _ _ _ _ _ X (frame (pte_at (k_mem s) tabs (vpn a)))); [apply Hf|done|done|done|]. rw /in_page /PGSIZE. dlia.
Qed.

(** A range that starts in kernel space: the call fails. *)
Lemma copyout_kernel w s free d tabs va bs kdata : vm_inv s free d tabs → kernel_mapped (k_mem s) tabs (kmap kdata) →
  DEVSPACE ≤ va < 4294967296 → bs ≠ [] → copyout w d va bs s = Ok (-1, s).
Proof.
  intros HI HK Hva Hbs. rw /DEVSPACE in Hva. assert (pte_at (k_mem s) tabs (vpn va) = 4096 * vpn va + 3) as Ep.
  { assert (vpn va = vpn DEVSPACE + (vpn va - vpn DEVSPACE)) as -> by lia. change (vpn DEVSPACE) with 1040384. rw (HK DEVSPACE DEVSPACE 0 PTE_W).
    - rw /kmap. do 3 apply list_elem_of_further. apply list_elem_of_here.
    - change (Z.of_nat (pages_after DEVSPACE (u32 (0 - DEVSPACE)))) with 8191. rw /vpn. dlia.
    - rw u32_small; [rw /vpn /DEVSPACE; dlia|]. rw /new_pte -Z.lor_assoc. change (Z.lor PTE_W PTE_P) with 3. rw (lor_disjoint_add _ _ 12); [done|done|change (2 ^ 12) with 4096; rw /DEVSPACE; dlia|]. rw u32_small; rw /vpn /DEVSPACE; dlia. }
  assert (present (pte_at (k_mem s) tabs (vpn va)) = true) as Hp by (rw Ep present_odd Z.odd_add Z.odd_mul //).
  assert (PGROUNDDOWN va = va - va mod 4096) as E0 by (rw PGROUNDDOWN_eq u32_small; lia). assert (vpn (PGROUNDDOWN va) = vpn va) as Ev by (rw E0 /vpn; dlia).
  pose proof (uva2ka_ok w s free d tabs (PGROUNDDOWN va) HI ltac:(rw E0; dlia) ltac:(by rw Ev)) as Eu. rw Ev in Eu.
  assert (user_bit (pte_at (k_mem s) tabs (vpn va)) = false) as Hu. { rw /user_bit Ep /PTE_U land4. replace ((4096 * vpn va + 3) / 4 mod 2) with 0 by dlia. done. }
  cbv zeta in Eu. rw Hu in Eu. rw /copyout. cbn [copyout_loop]. destruct (Z.ltb_spec 0 (Z.of_nat (length bs))) as [_|Hl]; [|destruct bs; [done|cbn [length] in Hl; lia] ]. by mgo Eu.
Qed.

(** ** Growing a directory that is its own *)

Lemma private_allocuvm m0 f0 s free d tabs old new : private m0 f0 [] s free d tabs → 0 ≤ old < new → new < KERNBASE →
  (∀ v, page_range (PGROUNDUP old) new v = true → present (pte_at (k_mem s) tabs v) = false) →
  ∃ r s' free' tabs', allocuvm kend d old new s = Ok (r, s') ∧ private m0 f0 [] s' free' d tabs' ∧
    (r = new ∧ Vm.grown kend d (PGROUNDUP old) new s free tabs s' free' tabs' ∨
     r = 0 ∧ Z.of_nat (length free) < 2 * pages_between (PGROUNDUP old) new).
Proof.
  intros [HI Ho _ Hs] Hsz Hk Hnp. destruct (PGROUNDUP_ok old) as (_ & Haa & Hr); [lia|].
  destruct (allocuvm_loop_ok _ kend_range (page_rounds (PGROUNDUP old) new) s free d tabs (PGROUNDUP old) old new HI Haa) as (r & s' & f' & t' & E & H); [lia|lia|lia|lia| |done|].
  { rw /page_rounds /PGSIZE Nat2Z.inj_succ. dlia. }
  exists r, s', f', t'. split; [rw /allocuvm; destruct (Z.leb_spec KERNBASE new); [lia|]; destruct (Z.ltb_spec new old); [lia|exact E]|].
  assert (∀ p, p ∉ f0 → p ≠ d ∧ (p ∉ free) ∧ (∀ i, tabs !! i ≠ Some p)) as Hn.
  { intros p Hp. rewrite -> Ho in Hp. split; [by auto|]. split; [intros ?; apply Hp; right; right; by left|]. intros i Hi. apply Hp. right. right. right. left. by exists i. }
  destruct H as [ [-> G]|(-> & G & Hl)]; (split; [|by auto]); split; try apply G; try by intros ? ?%elem_of_nil.
  - intros p. by rw Ho (gr_owned _ _ _ _ _ _ _ _ _ _ G).
  - intros p Ha Hp x Hx. destruct (Hn p Hp) as (? & ? & ?). rw (gr_same _ _ _ _ _ _ _ _ _ _ G p) //. by apply (Hs p).
  - intros p. by rw Ho (gf_owned _ _ _ _ _ _ _ _ _ _ G).
  - intros p Ha Hp x Hx. destruct (Hn p Hp) as (? & ? & ?). rw (gf_same _ _ _ _ _ _ _ _ _ _ G p) //; [|by apply (Hs p)].
    intros Hf. apply Hp, Ho. right. right. apply (gf_owned _ _ _ _ _ _ _ _ _ _ G). by left.
Qed.

(** What the program sees of it. *)
Lemma grown_ubyte s free d tabs s' free' tabs' a b x : vm_inv s free d tabs → Vm.grown kend d a b s free tabs s' free' tabs' → 0 ≤ x < KERNBASE →
  (page_range a b (vpn x) = true → ubyte (k_mem s') tabs' x = 0) ∧
  (page_range a b (vpn x) = false → present (pte_at (k_mem s) tabs (vpn x)) = true → ubyte (k_mem s') tabs' x = ubyte (k_mem s) tabs x).
Proof.
  intros [HI HU] G Hx. rw /KERNBASE in Hx. assert (0 ≤ vpn x < user_pages) as Hv by (rw /vpn /user_pages; dlia). split; intros Hr.
  - destruct (gr_new _ _ _ _ _ _ _ _ _ _ G _ Hr) as (f & _ & Hf & Ef & Hz). rw /ubyte Ef. change (Z.lor PTE_P (Z.lor PTE_W PTE_U)) with 7.
    destruct (entry_parts _ kend_range f 7 Hf) as (_ & _ & _ & -> & _); [lia|]. apply Hz. rw /in_page /PGSIZE. dlia.
  - intros Hp. rw /ubyte (gr_keep _ _ _ _ _ _ _ _ _ _ G) //; [by apply user_vpages|]. destruct (us_frame _ _ _ _ _ HU _ Hv Hp) as (Hf & Hff & Hfd & Hft).
    apply (gr_same _ _ _ _ _ _ _ _ _ _ G (frame (pte_at (k_mem s) tabs (vpn x)))); [apply Hf|done|done|done|]. rw /in_page /PGSIZE. dlia.
Qed.

(** The old directory is freed beside the new one. *)
Lemma free_old s0 f0 s free d tabs o otabs : private (k_mem s0) f0 [] s free d tabs → vm_inv s0 f0 o otabs →
  ∃ s' free', freevm kend o s = Ok (tt, s') ∧ vm_inv s' free' d tabs ∧
    (∀ p, p ∈ free' ↔ p ∈ free ∨ p = o ∨ owned s0 [] otabs p) ∧
    (∀ v, 0 ≤ v < vpages → pte_at (k_mem s') tabs v = pte_at (k_mem s) tabs v) ∧
    ∀ a, 0 ≤ a < KERNBASE → present (pte_at (k_mem s) tabs (vpn a)) = true → ubyte (k_mem s') tabs a = ubyte (k_mem s) tabs a.
Proof.
  intros HP HO. destruct (parent_frame kend s0 f0 o otabs HO s free [] d tabs HP) as [HO' PO].
  destruct (freevm_ok kend kend_range s free o otabs HO') as (s' & f' & E & Hk & Hf & S'). exists s', f'. split; [done|].
  assert (∀ p, p ∈ f' ↔ p ∈ free ∨ p = o ∨ owned s0 [] otabs p) as Hf'.
  { intros p. rw Hf (owned_ext s0 s) // /owned elem_of_nil. tauto. }
  assert (∀ p, owned s0 [] otabs p ∨ p = o → p ∉ f0) as Hold.
  { intros p Hp. apply (dir_pages kend s0 f0 o otabs p HO). tauto. }
  pose proof HP as [ [HI HU] Ho _ _].
  assert (∀ p, p = d ∨ owned s [] tabs p → page_ok p ∧ p ∉ f') as Hnew.
  { intros p Hp. destruct (dir_pages kend s free d tabs p (conj HI HU) Hp) as [Ha Hnf].
    split; [done|]. rw Hf'. intros [?|H]; [done|]. apply (Hold p); [tauto|]. apply Ho. destruct Hp as [?|[ []%elem_of_nil|?] ]; [by left|right; right; by right]. }
  destruct (vm_inv_pages kend s free s' f' d tabs (conj HI HU) Hk) as [HI' P'].
  { intros p Hp. destruct (Hnew p Hp) as [Ha Hn]. split; [done|]. apply S'; [apply Ha|done]. }
  do 3 (split; [done|]). intros a Ha Hp. rw /KERNBASE in Ha. assert (0 ≤ vpn a < user_pages) as Hv by (rw /vpn /user_pages; dlia). rw /ubyte P'; [by apply user_vpages|].
  destruct (Hnew (frame (pte_at (k_mem s) tabs (vpn a)))) as [Hfa Hn]; [right; right; right; by exists (vpn a)|]. apply (S' (frame (pte_at (k_mem s) tabs (vpn a)))); [apply Hfa|done|]. rw /in_page /PGSIZE. dlia.
Qed.
End user.
