(* ===== verification/Spinlock.v ===== *)
(** * Spin locks and interrupt nesting (spinlock.c)

    Two views of spinlock.c.  The first is what one CPU sees of it: the nesting
    counter and interrupt flag that [pushcli] and [popcli] keep, and the set of
    locks the CPU holds; the kernel components above use it.  The second is a
    machine of several CPUs that run [acquire] and [release] on one lock
    interleaved instruction by instruction, around the atomic [xchg], on which
    mutual exclusion is proved. *)

From S2P Require Import Prelude Params.

(** ** Locks by name *)

(** [ptable.lock], and every other spin lock by its address. *)
Inductive lockid := Lk_ptable | Lk (a : Z).

#[export] Instance lockid_eq_dec : EqDecision lockid.
Proof. solve_decision. Defined.
#[export] Instance lockid_countable : Countable lockid.
Proof.
  refine (inj_countable' (λ l, match l with Lk_ptable => None | Lk a => Some a end)
    (λ o, match o with None => Lk_ptable | Some a => Lk a end) _).
  by intros [].
Defined.

(** ** One CPU *)

(** The fields of [struct cpu] the locks use, the processor's interrupt flag,
    the process the CPU runs, and the locks whose [lk->cpu] is this CPU. *)
Record cpu := mkCpu {
  c_ncli : Z;                (* depth of pushcli nesting *)
  c_intena : bool;           (* were interrupts enabled before pushcli? *)
  c_if : bool;               (* eflags & FL_IF *)
  c_proc : option nat;       (* the process running on this cpu, or null *)
  c_held : gset lockid;      (* locks with lk->locked && lk->cpu == this cpu *)
}.

Definition set_ncli (n : Z) (c : cpu) : cpu :=
  mkCpu n (c_intena c) (c_if c) (c_proc c) (c_held c).
Definition set_intena (b : bool) (c : cpu) : cpu :=
  mkCpu (c_ncli c) b (c_if c) (c_proc c) (c_held c).
Definition set_if (b : bool) (c : cpu) : cpu :=
  mkCpu (c_ncli c) (c_intena c) b (c_proc c) (c_held c).
Definition set_cproc (p : option nat) (c : cpu) : cpu :=
  mkCpu (c_ncli c) (c_intena c) (c_if c) p (c_held c).
Definition set_held (h : gset lockid) (c : cpu) : cpu :=
  mkCpu (c_ncli c) (c_intena c) (c_if c) (c_proc c) h.

Definition pushcli : M cpu unit :=
  eflags ← gets c_if;
  modify (set_if false) ;;
  n ← gets c_ncli;
  when (n =? 0) (modify (set_intena eflags)) ;;
  modify (λ c, set_ncli (s32 (c_ncli c + 1)) c).

Definition popcli : M cpu unit :=
  f ← gets c_if;
  if (f : bool) then panic "popcli - interruptible" else
  modify (λ c, set_ncli (s32 (c_ncli c - 1)) c) ;;
  n ← gets c_ncli;
  if n <? 0 then panic "popcli" else
  e ← gets c_intena;
  when ((n =? 0) && e) (modify (set_if true)).

(** [mycpu] panics when interrupts are enabled; the CPU it returns is the state. *)
Definition mycpu : M cpu unit :=
  f ← gets c_if;
  if (f : bool) then panic "mycpu called with interrupts enabled" else mret tt.

Definition myproc : M cpu (option nat) :=
  pushcli ;;
  mycpu ;;
  p ← gets c_proc;
  popcli ;;
  mret p.

Definition holding (lk : lockid) : M cpu bool :=
  pushcli ;;
  mycpu ;;
  h ← gets c_held;
  popcli ;;
  mret (bool_decide (lk ∈ h)).

(** [acquire] when no other CPU holds the lock: the [xchg] loop falls through. *)
Definition acquire (lk : lockid) : M cpu unit :=
  pushcli ;;
  h ← holding lk;
  if (h : bool) then panic "acquire" else
  mycpu ;;
  modify (λ c, set_held ({[lk]} ∪ c_held c) c).

Definition release (lk : lockid) : M cpu unit :=
  h ← holding lk;
  if negb h then panic "release" else
  modify (λ c, set_held (c_held c ∖ {[lk]}) c) ;;
  popcli.

(** ** Nesting *)

(** Between kernel operations: the counter is in range, with room for the nesting
    of [acquire], and interrupts are off while it is positive. *)
Definition cli_inv (c : cpu) : Prop :=
  0 ≤ c_ncli c < 2147483640 ∧ (0 < c_ncli c → c_if c = false).

Lemma pushcli_ok c :
  0 ≤ c_ncli c < 2147483647 →
  pushcli c = Ok (tt, mkCpu (c_ncli c + 1) (if c_ncli c =? 0 then c_if c else c_intena c)
                        false (c_proc c) (c_held c)).
Proof.
  intros Hn. destruct c as [n ie f p h]; simpl in *. rw /pushcli. mrun. simpl.
  destruct (n =? 0); simpl; rw /set_ncli /= s32_small //; lia.
Qed.

Lemma popcli_ok c :
  c_if c = false → 0 < c_ncli c ≤ 2147483647 →
  popcli c = Ok (tt, mkCpu (c_ncli c - 1) (c_intena c) ((c_ncli c =? 1) && c_intena c)
                       (c_proc c) (c_held c)).
Proof.
  intros Hf Hn. destruct c as [n ie f p h]; simpl in *; subst. rw /popcli. mrun. simpl.
  rw /set_ncli /= s32_small; [lia|].
  destruct (Z.ltb_spec (n - 1) 0); [lia|].
  destruct (Z.eqb_spec (n - 1) 0), (Z.eqb_spec n 1); try lia; simpl; by destruct ie.
Qed.

Lemma mycpu_ok c : c_if c = false → mycpu c = Ok (tt, c).
Proof. rw /mycpu. mrun. by intros ->. Qed.

(** A [pushcli] and its matching [popcli]: everything but [intena] is as before,
    and inside an outer [pushcli] [intena] is too. *)
Definition unpushed (c : cpu) : cpu :=
  set_intena (if c_ncli c =? 0 then c_if c else c_intena c) c.

Lemma push_pop c :
  0 ≤ c_ncli c < 2147483647 → (0 < c_ncli c → c_if c = false) →
  popcli (mkCpu (c_ncli c + 1) (if c_ncli c =? 0 then c_if c else c_intena c)
            false (c_proc c) (c_held c)) = Ok (tt, unpushed c).
Proof.
  intros Hn Hi. rw popcli_ok //=; [lia|]. rw /unpushed /set_intena. destruct c as [n ie f p h].
  simpl in *. replace (n + 1 - 1) with n by lia.
  destruct (Z.eqb_spec (n + 1) 1), (Z.eqb_spec n 0); try lia; simpl; [done|].
  rw Hi //. lia.
Qed.

Lemma holding_ok lk c :
  0 ≤ c_ncli c < 2147483647 → (0 < c_ncli c → c_if c = false) →
  holding lk c = Ok (bool_decide (lk ∈ c_held c), unpushed c).
Proof.
  intros Hn Hi. rw /holding. mgo (pushcli_ok c Hn). mnext (by apply mycpu_ok). mget.
  by mgo (push_pop c Hn Hi).
Qed.

Lemma myproc_ok c :
  0 ≤ c_ncli c < 2147483647 → (0 < c_ncli c → c_if c = false) →
  myproc c = Ok (c_proc c, unpushed c).
Proof.
  intros Hn Hi. rw /myproc. mgo (pushcli_ok c Hn). mnext (by apply mycpu_ok). mget.
  by mgo (push_pop c Hn Hi).
Qed.

Lemma acquire_ok lk c :
  cli_inv c → lk ∉ c_held c →
  acquire lk c = Ok (tt, mkCpu (c_ncli c + 1) (if c_ncli c =? 0 then c_if c else c_intena c)
                           false (c_proc c) ({[lk]} ∪ c_held c)).
Proof.
  intros [Hn Hi] Hlk. rw /acquire. mgo (pushcli_ok c ltac:(lia)).
  mgo (holding_ok lk (mkCpu (c_ncli c + 1) (if c_ncli c =? 0 then c_if c else c_intena c)
    false (c_proc c) (c_held c)) ltac:(simpl; lia) ltac:(done)).
  rw bool_decide_false //=. rw /unpushed /set_intena /=.
  destruct (Z.eqb_spec (c_ncli c + 1) 0); [lia|]. done.
Qed.

Lemma release_ok lk c :
  0 < c_ncli c < 2147483647 → c_if c = false → lk ∈ c_held c →
  release lk c = Ok (tt, mkCpu (c_ncli c - 1) (c_intena c) ((c_ncli c =? 1) && c_intena c)
                       (c_proc c) (c_held c ∖ {[lk]})).
Proof.
  intros Hn Hf Hlk. rw /release. mgo (holding_ok lk c ltac:(lia) ltac:(done)).
  rw bool_decide_true //=. mget. rw popcli_ok /unpushed /set_intena //=; [lia|].
  by destruct (Z.eqb_spec (c_ncli c) 0); [lia|].
Qed.

(** A critical section is invisible to the interrupt state: from any CPU state
    with consistent nesting in which the lock is not held, [acquire] followed by
    [release] succeeds, restores the nesting depth, the interrupt flag, the
    current process and the set of held locks, and between the two calls
    interrupts are off. *)
Theorem acquire_release_restores lk c :
  cli_inv c → lk ∉ c_held c →
  ∃ c1 c2, acquire lk c = Ok (tt, c1) ∧ c_if c1 = false ∧ lk ∈ c_held c1 ∧
    release lk c1 = Ok (tt, c2) ∧
    c_ncli c2 = c_ncli c ∧ c_if c2 = c_if c ∧ c_proc c2 = c_proc c ∧ c_held c2 = c_held c.
Proof.
  intros [Hn Hi] Hlk. eexists _, _. split; [by apply acquire_ok|]. split; [done|].
  split; [simpl; set_solver|]. split; [apply release_ok; simpl; [lia|done|set_solver]|].
  simpl. split_and!; [lia| |done|set_solver].
  destruct (Z.eqb_spec (c_ncli c + 1) 1), (Z.eqb_spec (c_ncli c) 0); try lia; simpl; [done|].
  rw Hi //. lia.
Qed.

Definition example_cpu : cpu := mkCpu 0 false true None ∅.

Lemma acquire_release_restores_witness :
  ∃ c1 c2, acquire (Lk 7) example_cpu = Ok (tt, c1) ∧ c_if c1 = false ∧ Lk 7 ∈ c_held c1 ∧
    release (Lk 7) c1 = Ok (tt, c2) ∧
    c_ncli c2 = 0 ∧ c_if c2 = true ∧ c_proc c2 = None ∧ c_held c2 = ∅.
Proof.
  apply (acquire_release_restores (Lk 7) example_cpu).
  - split; simpl; [lia|done].
  - simpl. set_solver.
Defined.

(** ** Several CPUs: mutual exclusion *)

(** Where a CPU stands in [acquire] and [release]. *)
Inductive lpc :=
  | P_idle    (* outside *)
  | P_spin    (* in the xchg loop, interrupts off *)
  | P_got     (* the xchg returned 0; lk->cpu not yet recorded *)
  | P_crit    (* acquire has returned *)
  | P_rel     (* in release, lk->cpu cleared, lk->locked still set *)
  | P_panic.

#[export] Instance lpc_eq_dec : EqDecision lpc.
Proof. solve_decision. Defined.

(** [struct spinlock] and the CPUs, each with its interrupt flag. *)
Record smp := mkSmp {
  m_locked : Z;
  m_cpu : option nat;
  m_pcs : list (lpc * bool);
}.

(** spinlock.c's [holding], as CPU [i] evaluates it. *)
Definition smp_holding (st : smp) (i : nat) : bool :=
  negb (m_locked st =? 0) && bool_decide (m_cpu st = Some i).

(** The next instruction of CPU [i].  [xchg] is the one atomic read-modify-write;
    every other line is its own step, so CPUs interleave freely between them. *)
Definition smp_step (i : nat) (st : smp) : option smp :=
  match m_pcs st !! i with
  | Some (P_idle, _) =>
      Some (mkSmp (m_locked st) (m_cpu st)
        (<[i := (if smp_holding st i then P_panic else P_spin, false)]> (m_pcs st)))
  | Some (P_spin, f) =>
      Some (mkSmp 1 (m_cpu st)
        (<[i := (if m_locked st =? 0 then P_got else P_spin, f)]> (m_pcs st)))
  | Some (P_got, f) => Some (mkSmp (m_locked st) (Some i) (<[i := (P_crit, f)]> (m_pcs st)))
  | Some (P_crit, f) =>
      Some (if smp_holding st i
            then mkSmp (m_locked st) None (<[i := (P_rel, f)]> (m_pcs st))
            else mkSmp (m_locked st) (m_cpu st) (<[i := (P_panic, f)]> (m_pcs st)))
  | Some (P_rel, _) => Some (mkSmp 0 (m_cpu st) (<[i := (P_idle, true)]> (m_pcs st)))
  | _ => None
  end.

Inductive smp_trans : smp → smp → Prop :=
  | smp_cpu_step i st st' : smp_step i st = Some st' → smp_trans st st'.

Definition smp_init (n : nat) : smp := mkSmp 0 None (replicate n (P_idle, true)).

(** CPU [i] owns the lock: from its successful [xchg] to the store that clears it. *)
Definition owns (st : smp) (i : nat) : Prop :=
  ∃ p f, m_pcs st !! i = Some (p, f) ∧ (p = P_got ∨ p = P_crit ∨ p = P_rel).

(** The owner's place in the protocol fits the lock's fields. *)
Definition owner_ok (st : smp) (k : nat) : Prop :=
  m_locked st = 1 ∧ ∃ p, m_pcs st !! k = Some (p, false) ∧
    (p = P_got ∧ m_cpu st = None ∨ p = P_crit ∧ m_cpu st = Some k ∨ p = P_rel ∧ m_cpu st = None).

(** The invariant: the lock is free, or one CPU owns it; every other CPU is outside
    or spinning, with interrupts off while it spins. *)
Definition smp_inv (st : smp) : Prop :=
  ∃ o : option nat,
    match o with
    | None => m_locked st = 0 ∧ m_cpu st = None
    | Some k => owner_ok st k
    end ∧
    ∀ i p f, o ≠ Some i → m_pcs st !! i = Some (p, f) → p = P_idle ∨ p = P_spin ∧ f = false.

Lemma smp_init_inv n : smp_inv (smp_init n).
Proof.
  exists None. split; [done|]. intros i p f _ [? _]%lookup_replicate. left. congruence.
Qed.

(** A CPU that is not the owner moves to a place a non-owner may be. *)
Lemma others_insert (o : option nat) (l : list (lpc * bool)) i q g :
  (∀ j p f, o ≠ Some j → l !! j = Some (p, f) → p = P_idle ∨ p = P_spin ∧ f = false) →
  (o = Some i ∨ q = P_idle ∨ q = P_spin ∧ g = false) →
  ∀ j p f, o ≠ Some j → <[i := (q, g)]> l !! j = Some (p, f) →
    p = P_idle ∨ p = P_spin ∧ f = false.
Proof.
  intros H Hq j p f Hj [(-> & E & _)|[_ E]]%list_lookup_insert_Some; [|by eapply H].
  simplify_eq. destruct Hq as [->|?]; [done|auto].
Qed.

Lemma smp_not_owner_holding st o i :
  (match o with
   | None => m_locked st = 0 ∧ m_cpu st = None | Some k => owner_ok st k end) →
  o ≠ Some i → smp_holding st i = false.
Proof.
  rw /smp_holding. destruct o as [k|].
  - intros (-> & p & _ & [[_ ->]|[[_ ->]|[_ ->]]]) Hk; simpl; try done.
    by apply bool_decide_false.
  - by intros [-> _] _.
Qed.

Lemma owner_ok_other st k i x l c :
  k ≠ i → owner_ok st k → l = 1 → c = m_cpu st →
  owner_ok (mkSmp l c (<[i := x]> (m_pcs st))) k.
Proof.
  intros Hk (_ & p & E & H) -> ->. split; [done|]. exists p. simpl.
  by rw list_lookup_insert_ne.
Qed.

Lemma smp_step_inv st st' : smp_inv st → smp_trans st st' → smp_inv st'.
Proof.
  intros (o & Ho & Hoth) Htr. inversion Htr as [i s s' Hs]; subst. rename st into s.
  rw /smp_step in Hs.
  destruct (m_pcs s !! i) as [[p f]|] eqn:Ei; [|done].
  assert (i < length (m_pcs s))%nat as Hlt by by eapply lookup_lt_Some.
  destruct (decide (o = Some i)) as [->|Hoi].
  - (* the owner moves *)
    destruct Ho as (Hl & q & Eq & Hq). rw Ei in Eq. injection Eq as -> ->.
    destruct Hq as [[-> Hc]|[[-> Hc]|[-> Hc]]]; injection Hs as <-.
    + exists (Some i). split; [|simpl; eapply others_insert; eauto].
      split; [done|]. exists P_crit. simpl. rw list_lookup_insert_eq //. auto.
    + rw /smp_holding Hl Hc bool_decide_true //=. exists (Some i).
      split; [|simpl; eapply others_insert; eauto].
      split; [done|]. exists P_rel. simpl. rw list_lookup_insert_eq //. auto.
    + exists None. split; [done|]. simpl. intros j q g _ Hj.
      apply list_lookup_insert_Some in Hj as [(_ & ? & _)|[? Hj]]; [left; congruence|].
      eapply Hoth; [|done]. congruence.
  - (* another CPU moves: it is outside or spinning *)
    pose proof (smp_not_owner_holding s o i Ho Hoi) as Hnh.
    destruct (Hoth i p f Hoi Ei) as [->|[-> ->]]; injection Hs as <-.
    + rw Hnh. exists o. split; [|simpl; eapply others_insert; eauto].
      destruct o as [k|]; [|done]. destruct Ho as [Hl ?].
      apply owner_ok_other; [congruence|by split|done..].
    + destruct o as [k|].
      * exists (Some k). destruct Ho as [Hl Hp]. rw Hl.
        split; [|simpl; eapply others_insert; eauto].
        apply owner_ok_other; [congruence|by split|done..].
      * destruct Ho as [Hl Hc]. rw Hl. exists (Some i). split.
        -- split; [done|]. exists P_got. simpl. rw list_lookup_insert_eq //. auto.
        -- simpl. eapply others_insert; [|by left]. intros j q g _. by apply Hoth.
Qed.

Lemma smp_reachable_inv n st : rtc smp_trans (smp_init n) st → smp_inv st.
Proof.
  intros H. remember (smp_init n) as s0 eqn:E. assert (smp_inv s0) as Hi by (subst; apply smp_init_inv).
  clear E. induction H; [done|]. eauto using smp_step_inv.
Qed.

Lemma smp_inv_owner st o i :
  (∀ j p f, o ≠ Some j → m_pcs st !! j = Some (p, f) → p = P_idle ∨ p = P_spin ∧ f = false) →
  owns st i → o = Some i.
Proof.
  intros H (p & f & E & Hp). destruct (decide (o = Some i)) as [|Hn]; [done|].
  destruct (H i p f Hn E) as [->|[-> _]]; naive_solver.
Qed.

(** C16. Mutual exclusion.  However many CPUs interleave [acquire] and [release] on
    one lock, in every reachable state at most one owns it, the owner runs with
    interrupts off and [lk->locked] set, [holding] is true exactly for the CPU
    whose [acquire] has returned, and no CPU has hit the panics of [acquire] or
    [release]. *)
Theorem spinlock_mutual_exclusion n st :
  rtc smp_trans (smp_init n) st →
  (∀ i j, owns st i → owns st j → i = j) ∧
  (∀ i p f, owns st i → m_pcs st !! i = Some (p, f) → f = false ∧ m_locked st = 1) ∧
  (∀ i, smp_holding st i = true ↔ ∃ f, m_pcs st !! i = Some (P_crit, f)) ∧
  (∀ i f, m_pcs st !! i ≠ Some (P_panic, f)).
Proof.
  intros (o & Ho & Hoth)%smp_reachable_inv. split_and!.
  - intros i j Hi%(smp_inv_owner _ o) Hj%(smp_inv_owner _ o); [congruence|done..].
  - intros i p f Hi%(smp_inv_owner _ o) E; [|done]. subst.
    destruct Ho as (? & q & E' & _). split; [congruence|done].
  - intros i. destruct (decide (o = Some i)) as [->|Hn].
    + destruct Ho as (Hl & q & E & Hq). rw /smp_holding Hl E /=.
      destruct Hq as [[-> ->]|[[-> ->]|[-> ->]]];
        rw bool_decide_eq_true; split; [done|by intros [? ?]|by eexists|done|done|by intros [? ?]].
    + rw (smp_not_owner_holding st o i) //. split; [done|]. intros [f E].
      by destruct (Hoth i _ _ Hn E) as [?|[? ?]].
  - intros i f E. destruct (decide (o = Some i)) as [->|Hn].
    + destruct Ho as (_ & q & E' & Hq). rw E in E'. injection E' as <- ->. naive_solver.
    + by destruct (Hoth i _ _ Hn E) as [?|[? ?]].
Qed.

Definition example_smp : smp :=
  mkSmp 1 (Some 0%nat) [(P_crit, false); (P_spin, false)].

Lemma spinlock_mutual_exclusion_witness :
  (∀ i j, owns example_smp i → owns example_smp j → i = j) ∧
  (∀ i p f, owns example_smp i → m_pcs example_smp !! i = Some (p, f) →
     f = false ∧ m_locked example_smp = 1) ∧
  (∀ i, smp_holding example_smp i = true ↔ ∃ f, m_pcs example_smp !! i = Some (P_crit, f)) ∧
  (∀ i f, m_pcs example_smp !! i ≠ Some (P_panic, f)).
Proof.
  apply (spinlock_mutual_exclusion 2 example_smp).
  eapply rtc_l; [by apply (smp_cpu_step 0)|].
  eapply rtc_l; [by apply (smp_cpu_step 1)|].
  eapply rtc_l; [by apply (smp_cpu_step 0)|].
  eapply rtc_l; [by apply (smp_cpu_step 1)|].
  eapply rtc_l; [by apply (smp_cpu_step 0)|].
  apply rtc_refl.
Defined.
