(* ===== verification/Proc.v ===== *)
(** * Processes (proc.h, proc.c)

    The process table and every operation of proc.c on it.  A process is named by
    its slot in [ptable.proc].  The state of one CPU (Spinlock) is part of the
    state, so [acquire], [release] and the checks of [sched] are run as the code
    runs them; a context switch ends one operation and starts another: [sched] is
    split into the part before [swtch] and the part after it.  What proc.c calls
    in the other components is the interface [ProcEnv]. *)

From S2P Require Import Prelude Params Spinlock.

(** ** proc.h and x86.h *)

Inductive procstate := UNUSED | EMBRYO | SLEEPING | RUNNABLE | RUNNING | ZOMBIE.

#[export] Instance procstate_eq_dec : EqDecision procstate.
Proof. solve_decision. Defined.

(** A sleep channel is an address: of a process structure, of another kernel
    object, or null. *)
Inductive chan := CNull | CProc (i : nat) | CAddr (a : Z).

#[export] Instance chan_eq_dec : EqDecision chan.
Proof. solve_decision. Defined.

Record trapframe := mkTf {
  tf_edi : Z; tf_esi : Z; tf_ebp : Z; tf_oesp : Z; tf_ebx : Z; tf_edx : Z; tf_ecx : Z; tf_eax : Z;
  tf_gs : Z; tf_fs : Z; tf_es : Z; tf_ds : Z; tf_trapno : Z;
  tf_err : Z; tf_eip : Z; tf_cs : Z; tf_eflags : Z; tf_esp : Z; tf_ss : Z
}.
Definition tf_zero : trapframe := mkTf 0 0 0 0 0 0 0 0 0 0 0 0 0 0 0 0 0 0 0.
Definition set_eax (x : Z) (t : trapframe) : trapframe :=
  mkTf (tf_edi t) (tf_esi t) (tf_ebp t) (tf_oesp t) (tf_ebx t) (tf_edx t) (tf_ecx t) x (tf_gs
    t) (tf_fs t) (tf_es t) (tf_ds t) (tf_trapno t) (tf_err t) (tf_eip t) (tf_cs t) (tf_eflags
    t) (tf_esp t) (tf_ss t).
Definition set_eip (x : Z) (t : trapframe) : trapframe :=
  mkTf (tf_edi t) (tf_esi t) (tf_ebp t) (tf_oesp t) (tf_ebx t) (tf_edx t) (tf_ecx t) (tf_eax
    t) (tf_gs t) (tf_fs t) (tf_es t) (tf_ds t) (tf_trapno t) (tf_err t) x (tf_cs t) (tf_eflags
    t) (tf_esp t) (tf_ss t).
Definition set_esp (x : Z) (t : trapframe) : trapframe :=
  mkTf (tf_edi t) (tf_esi t) (tf_ebp t) (tf_oesp t) (tf_ebx t) (tf_edx t) (tf_ecx t) (tf_eax
    t) (tf_gs t) (tf_fs t) (tf_es t) (tf_ds t) (tf_trapno t) (tf_err t) (tf_eip t) (tf_cs t)
    (tf_eflags t) x (tf_ss t).

Record context := mkContext { x_edi : Z; x_esi : Z; x_ebx : Z; x_ebp : Z; x_eip : Z }.

Record proc := mkProc {
  p_sz : Z;                   (* Size of process memory (bytes) *)
  p_pgdir : Z;                (* Page table *)
  p_kstack : Z;               (* Bottom of kernel stack *)
  p_state : procstate;        (* Process state *)
  p_pid : Z;                  (* Process ID *)
  p_parent : option nat;      (* Parent process: its slot, or null *)
  p_tfp : Z;                  (* Trap frame for current syscall: its address *)
  p_tf : trapframe;           (* ... and what it holds *)
  p_ctxp : Z;                 (* swtch() here to run process: its address *)
  p_ctx : context;            (* ... and what it holds *)
  p_ret : Z;                  (* the return address swtch() finds above the context *)
  p_chan : chan;              (* If non-zero, sleeping on chan *)
  p_killed : Z;               (* If non-zero, have been killed *)
  p_ofile : list (option nat); (* Open files: slots of the file table, or null *)
  p_cwd : option nat;         (* Current directory: slot of the inode cache *)
  p_name : list Z;            (* Process name, char[16] *)
  p_tickets : Z;              (* Lottery tickets *)
  p_ticks : Z;                (* times scheduled *)
}.

Definition set_sz (x : Z) (p : proc) : proc :=
  mkProc x (p_pgdir p) (p_kstack p) (p_state p) (p_pid p) (p_parent p) (p_tfp p) (p_tf p)
    (p_ctxp p) (p_ctx p) (p_ret p) (p_chan p) (p_killed p) (p_ofile p) (p_cwd p) (p_name p)
    (p_tickets p) (p_ticks p).
Definition set_pgdir (x : Z) (p : proc) : proc :=
  mkProc (p_sz p) x (p_kstack p) (p_state p) (p_pid p) (p_parent p) (p_tfp p) (p_tf p) (p_ctxp
    p) (p_ctx p) (p_ret p) (p_chan p) (p_killed p) (p_ofile p) (p_cwd p) (p_name p) (p_tickets p)
    (p_ticks p).
Definition set_kstack (x : Z) (p : proc) : proc :=
  mkProc (p_sz p) (p_pgdir p) x (p_state p) (p_pid p) (p_parent p) (p_tfp p) (p_tf p) (p_ctxp p)
    (p_ctx p) (p_ret p) (p_chan p) (p_killed p) (p_ofile p) (p_cwd p) (p_name p) (p_tickets p)
    (p_ticks p).
Definition set_state (x : procstate) (p : proc) : proc :=
  mkProc (p_sz p) (p_pgdir p) (p_kstack p) x (p_pid p) (p_parent p) (p_tfp p) (p_tf p) (p_ctxp
    p) (p_ctx p) (p_ret p) (p_chan p) (p_killed p) (p_ofile p) (p_cwd p) (p_name p) (p_tickets p)
    (p_ticks p).
Definition set_pid (x : Z) (p : proc) : proc :=
  mkProc (p_sz p) (p_pgdir p) (p_kstack p) (p_state p) x (p_parent p) (p_tfp p) (p_tf p) (p_ctxp
    p) (p_ctx p) (p_ret p) (p_chan p) (p_killed p) (p_ofile p) (p_cwd p) (p_name p) (p_tickets p)
    (p_ticks p).
Definition set_parent (x : option nat) (p : proc) : proc :=
  mkProc (p_sz p) (p_pgdir p) (p_kstack p) (p_state p) (p_pid p) x (p_tfp p) (p_tf p) (p_ctxp p)
    (p_ctx p) (p_ret p) (p_chan p) (p_killed p) (p_ofile p) (p_cwd p) (p_name p) (p_tickets p)
    (p_ticks p).
Definition set_tfp (x : Z) (p : proc) : proc :=
  mkProc (p_sz p) (p_pgdir p) (p_kstack p) (p_state p) (p_pid p) (p_parent p) x (p_tf p) (p_ctxp
    p) (p_ctx p) (p_ret p) (p_chan p) (p_killed p) (p_ofile p) (p_cwd p) (p_name p) (p_tickets p)
    (p_ticks p).
Definition set_tf (x : trapframe) (p : proc) : proc :=
  mkProc (p_sz p) (p_pgdir p) (p_kstack p) (p_state p) (p_pid p) (p_parent p) (p_tfp p) x
    (p_ctxp p) (p_ctx p) (p_ret p) (p_chan p) (p_killed p) (p_ofile p) (p_cwd p) (p_name p)
    (p_tickets p) (p_ticks p).
Definition set_ctxp (x : Z) (p : proc) : proc :=
  mkProc (p_sz p) (p_pgdir p) (p_kstack p) (p_state p) (p_pid p) (p_parent p) (p_tfp p) (p_tf p)
    x (p_ctx p) (p_ret p) (p_chan p) (p_killed p) (p_ofile p) (p_cwd p) (p_name p) (p_tickets p)
    (p_ticks p).
Definition set_ctx (x : context) (p : proc) : proc :=
  mkProc (p_sz p) (p_pgdir p) (p_kstack p) (p_state p) (p_pid p) (p_parent p) (p_tfp p) (p_tf p)
    (p_ctxp p) x (p_ret p) (p_chan p) (p_killed p) (p_ofile p) (p_cwd p) (p_name p) (p_tickets p)
    (p_ticks p).
Definition set_ret (x : Z) (p : proc) : proc :=
  mkProc (p_sz p) (p_pgdir p) (p_kstack p) (p_state p) (p_pid p) (p_parent p) (p_tfp p) (p_tf p)
    (p_ctxp p) (p_ctx p) x (p_chan p) (p_killed p) (p_ofile p) (p_cwd p) (p_name p) (p_tickets p)
    (p_ticks p).
Definition set_chan (x : chan) (p : proc) : proc :=
  mkProc (p_sz p) (p_pgdir p) (p_kstack p) (p_state p) (p_pid p) (p_parent p) (p_tfp p) (p_tf p)
    (p_ctxp p) (p_ctx p) (p_ret p) x (p_killed p) (p_ofile p) (p_cwd p) (p_name p) (p_tickets p)
    (p_ticks p).
Definition set_killed (x : Z) (p : proc) : proc :=
  mkProc (p_sz p) (p_pgdir p) (p_kstack p) (p_state p) (p_pid p) (p_parent p) (p_tfp p) (p_tf p)
    (p_ctxp p) (p_ctx p) (p_ret p) (p_chan p) x (p_ofile p) (p_cwd p) (p_name p) (p_tickets p)
    (p_ticks p).
Definition set_ofile (x : list (option nat)) (p : proc) : proc :=
  mkProc (p_sz p) (p_pgdir p) (p_kstack p) (p_state p) (p_pid p) (p_parent p) (p_tfp p) (p_tf p)
    (p_ctxp p) (p_ctx p) (p_ret p) (p_chan p) (p_killed p) x (p_cwd p) (p_name p) (p_tickets p)
    (p_ticks p).
Definition set_cwd (x : option nat) (p : proc) : proc :=
  mkProc (p_sz p) (p_pgdir p) (p_kstack p) (p_state p) (p_pid p) (p_parent p) (p_tfp p) (p_tf p)
    (p_ctxp p) (p_ctx p) (p_ret p) (p_chan p) (p_killed p) (p_ofile p) x (p_name p) (p_tickets p)
    (p_ticks p).
Definition set_name (x : list Z) (p : proc) : proc :=
  mkProc (p_sz p) (p_pgdir p) (p_kstack p) (p_state p) (p_pid p) (p_parent p) (p_tfp p) (p_tf p)
    (p_ctxp p) (p_ctx p) (p_ret p) (p_chan p) (p_killed p) (p_ofile p) (p_cwd p) x (p_tickets p)
    (p_ticks p).
Definition set_tickets (x : Z) (p : proc) : proc :=
  mkProc (p_sz p) (p_pgdir p) (p_kstack p) (p_state p) (p_pid p) (p_parent p) (p_tfp p) (p_tf p)
    (p_ctxp p) (p_ctx p) (p_ret p) (p_chan p) (p_killed p) (p_ofile p) (p_cwd p) (p_name p) x
    (p_ticks p).
Definition set_ticks (x : Z) (p : proc) : proc :=
  mkProc (p_sz p) (p_pgdir p) (p_kstack p) (p_state p) (p_pid p) (p_parent p) (p_tfp p) (p_tf p)
    (p_ctxp p) (p_ctx p) (p_ret p) (p_chan p) (p_killed p) (p_ofile p) (p_cwd p) (p_name p)
    (p_tickets p) x.

(** A slot of the statically allocated table, before its first use. *)
Definition proc_zero : proc :=
  mkProc 0 0 0 UNUSED 0 None 0 tf_zero 0 (mkContext 0 0 0 0 0) 0 CNull 0
    (replicate (Z.to_nat NOFILE) None) None (replicate 16 0) 0 0.
#[export] Instance proc_inhabited : Inhabited proc := populate proc_zero.

(** ** What proc.c needs of the other components *)

(** The state [K] of the memory, file and log components, and the calls proc.c
    makes into them.  Calls that wake sleepers return the channels they wake. *)
Class ProcEnv (K : Type) := {
  env_kalloc : M K Z;                            (* kalloc.c *)
  env_kfree : Z → M K unit;
  env_setupkvm : M K Z;                          (* vm.c *)
  env_inituvm : Z → list Z → M K unit;
  env_allocuvm : Z → Z → Z → M K Z;
  env_deallocuvm : Z → Z → Z → M K Z;
  env_copyuvm : Z → Z → M K Z;
  env_freevm : Z → M K unit;
  env_load_uvm : Z → Z → M K unit;               (* switchuvm's TSS, ltr and lcr3 *)
  env_switchkvm : M K unit;
  env_filedup : nat → M K unit;                  (* file.c *)
  env_fileclose : nat → M K (list chan);
  env_idup : nat → M K unit;                     (* fs.c *)
  env_iput : nat → M K (list chan);
  env_namei : list Z → M K (option nat);
  env_begin_op : M K unit;                       (* log.c *)
  env_end_op : M K (list chan);
}.

(** ** The state *)

Record pstate (K : Type) := mkPs {
  ps_proc : list proc;        (* ptable.proc *)
  ps_nextpid : Z;
  ps_rseed : Z;
  ps_initproc : option nat;
  ps_cpu : cpu;               (* the CPU running the operation *)
  ps_env : K;
}.
Arguments mkPs {K} _ _ _ _ _ _.
Arguments ps_proc {K} _.
Arguments ps_nextpid {K} _.
Arguments ps_rseed {K} _.
Arguments ps_initproc {K} _.
Arguments ps_cpu {K} _.
Arguments ps_env {K} _.

Section ops.
Context {K : Type}.
Implicit Types s : pstate K.

Definition set_procs (l : list proc) s : pstate K :=
  mkPs l (ps_nextpid s) (ps_rseed s) (ps_initproc s) (ps_cpu s) (ps_env s).
Definition set_nextpid (x : Z) s : pstate K :=
  mkPs (ps_proc s) x (ps_rseed s) (ps_initproc s) (ps_cpu s) (ps_env s).
Definition set_rseed (x : Z) s : pstate K :=
  mkPs (ps_proc s) (ps_nextpid s) x (ps_initproc s) (ps_cpu s) (ps_env s).
Definition set_initproc (x : option nat) s : pstate K :=
  mkPs (ps_proc s) (ps_nextpid s) (ps_rseed s) x (ps_cpu s) (ps_env s).
Definition set_cpu (x : cpu) s : pstate K :=
  mkPs (ps_proc s) (ps_nextpid s) (ps_rseed s) (ps_initproc s) x (ps_env s).
Definition set_env (x : K) s : pstate K :=
  mkPs (ps_proc s) (ps_nextpid s) (ps_rseed s) (ps_initproc s) (ps_cpu s) x.

(** Lock and CPU operations, environment calls, and access through a proc pointer. *)
Definition on_cpu {A} (m : M cpu A) : M (pstate K) A := lift ps_cpu set_cpu m.
Definition on_env {A} (m : M K A) : M (pstate K) A := lift ps_env set_env m.
Definition getp {A} (i : nat) (f : proc → A) : M (pstate K) A := gets (λ s, f (ps_proc s !!! i)).
Definition updp (i : nat) (f : proc → proc) : M (pstate K) unit :=
  modify (λ s, set_procs (alter f i (ps_proc s)) s).

(** [struct proc *curproc = myproc();] with a first access through it: a null
    pointer faults in the kernel. *)
Definition curproc : M (pstate K) nat :=
  o ← on_cpu myproc;
  match o with Some i => mret i | None => panic "trap" end.

(** ** The random number generator *)

Definition RAND_MAX : Z := 2147483647.
Definition random_next (r : Z) : Z := Z.land (u32 (s32 (s32 (r * 1103515245) + 12345))) RAND_MAX.
Definition random : M (pstate K) Z :=
  r ← gets ps_rseed;
  modify (set_rseed (random_next r)) ;;
  mret (random_next r).

(** ** Sleep and wakeup *)

Definition wakeup1_proc (c : chan) (p : proc) : proc :=
  if decide (p_state p = SLEEPING ∧ p_chan p = c) then set_state RUNNABLE p else p.
Definition wakeup1 (c : chan) : M (pstate K) unit :=
  modify (λ s, set_procs (wakeup1_proc c <$> ps_proc s) s).

Definition wakeup (c : chan) : M (pstate K) unit :=
  on_cpu (acquire Lk_ptable) ;;
  wakeup1 c ;;
  on_cpu (release Lk_ptable).

Fixpoint wakeups (cs : list chan) : M (pstate K) unit :=
  match cs with
  | [] => mret tt
  | c :: cs => wakeup c ;; wakeups cs
  end.

(** [sched] up to [swtch]: the result is the saved [intena]. *)
Definition sched (me : nat) : M (pstate K) bool :=
  h ← on_cpu (holding Lk_ptable);
  if negb h then panic "sched ptable.lock" else
  n ← gets (λ s, c_ncli (ps_cpu s));
  if negb (n =? 1) then panic "sched locks" else
  st ← getp me p_state;
  if decide (st = RUNNING) then panic "sched running" else
  f ← gets (λ s, c_if (ps_cpu s));
  if (f : bool) then panic "sched interruptible" else
  gets (λ s, c_intena (ps_cpu s)).

(** ... and from where [swtch] returns. *)
Definition sched_return (intena : bool) : M (pstate K) unit :=
  on_cpu (modify (set_intena intena)).

Definition yield : M (pstate K) bool :=
  on_cpu (acquire Lk_ptable) ;;
  me ← curproc;
  updp me (set_state RUNNABLE) ;;
  sched me.
Definition yield_return (intena : bool) : M (pstate K) unit :=
  sched_return intena ;;
  on_cpu (release Lk_ptable).

(** [sleep(chan, lk)]; a null [lk] is [None]. *)
Definition sleep (c : chan) (lk : option lockid) : M (pstate K) bool :=
  o ← on_cpu myproc;
  match o, lk with
  | None, _ => panic "sleep"
  | _, None => panic "sleep without lk"
  | Some me, Some lk =>
      (if decide (lk ≠ Lk_ptable)
       then on_cpu (acquire Lk_ptable) ;; on_cpu (release lk) else mret tt) ;;
      updp me (set_chan c) ;;
      updp me (set_state SLEEPING) ;;
      sched me
  end.
Definition sleep_return (me : nat) (lk : lockid) (intena : bool) : M (pstate K) unit :=
  sched_return intena ;;
  updp me (set_chan CNull) ;;
  if decide (lk ≠ Lk_ptable)
  then on_cpu (release Lk_ptable) ;; on_cpu (acquire lk) else mret tt.

Definition kill (pid : Z) : M (pstate K) Z :=
  on_cpu (acquire Lk_ptable) ;;
  ps ← gets ps_proc;
  match list_find (λ p, p_pid p = pid) ps with
  | Some (i, p) =>
      updp i (set_killed 1) ;;
      (if decide (p_state p = SLEEPING) then updp i (set_state RUNNABLE) else mret tt) ;;
      on_cpu (release Lk_ptable) ;;
      mret 0
  | None => on_cpu (release Lk_ptable) ;; mret (-1)
  end.

Definition settickets (number : Z) : M (pstate K) Z :=
  o ← on_cpu myproc;
  match o with
  | None => mret (-1)
  | Some me =>
      on_cpu (acquire Lk_ptable) ;;
      updp me (set_tickets number) ;;
      on_cpu (release Lk_ptable) ;;
      mret 0
  end.
End ops.

(** [safestrcpy] between two [char] arrays: [i] characters are copied, [k] is [n]
    after the loop's next [--n]. *)
Fixpoint safestrcpy_arr (dst src : list Z) (i k : nat) : list Z :=
  match k with
  | O => <[i := 0]> dst
  | S k =>
      let b := src !!! i in
      let dst := <[i := b]> dst in
      if b =? 0 then <[S i := 0]> dst else safestrcpy_arr dst src (S i) k
  end.
Definition copy_name (dst src : list Z) : list Z := safestrcpy_arr dst src 0 15.

Section env_ops.
Context {K : Type} `{!ProcEnv K}.
(** The addresses of the trampolines [forkret] and [trapret], and initcode.S. *)
Variables (forkret_addr trapret_addr : Z) (initcode : list Z).

(** [sizeof(struct trapframe)] and [sizeof(struct context)]. *)
Definition sizeof_trapframe : Z := 76.
Definition sizeof_context : Z := 20.

Definition allocproc : M (pstate K) (option nat) :=
  on_cpu (acquire Lk_ptable) ;;
  ps ← gets ps_proc;
  match list_find (λ p, p_state p = UNUSED) ps with
  | None => on_cpu (release Lk_ptable) ;; mret None
  | Some (i, _) =>
      updp i (set_state EMBRYO) ;;
      pid ← gets ps_nextpid;
      updp i (set_pid pid) ;;
      modify (set_nextpid (s32 (pid + 1))) ;;
      on_cpu (release Lk_ptable) ;;
      k ← on_env env_kalloc;
      updp i (set_kstack k) ;;
      if k =? 0 then updp i (set_state UNUSED) ;; mret None
      else
        let sp := k + KSTACKSIZE in
        let sp := sp - sizeof_trapframe in
        updp i (set_tfp sp) ;;
        let sp := sp - 4 in
        updp i (set_ret trapret_addr) ;;
        let sp := sp - sizeof_context in
        updp i (set_ctxp sp) ;;
        updp i (set_ctx (mkContext 0 0 0 0 forkret_addr)) ;;
        mret (Some i)
  end.

(** [switchuvm]'s checks (vm.c); loading the registers is the environment's. *)
Definition switchuvm (i : nat) : M (pstate K) unit :=
  k ← getp i p_kstack;
  pg ← getp i p_pgdir;
  if k =? 0 then panic "switchuvm: no kstack" else
  if pg =? 0 then panic "switchuvm: no pgdir" else
  on_cpu pushcli ;;
  on_cpu mycpu ;;
  on_env (env_load_uvm pg (u32 (k + KSTACKSIZE))) ;;
  on_cpu popcli.

(** The name [initcode] as [safestrcpy] copies it, and the path of the root. *)
Definition initcode_name : list Z := [105; 110; 105; 116; 99; 111; 100; 101; 0].
Definition root_path : list Z := [47].

Definition userinit : M (pstate K) unit :=
  o ← allocproc;
  modify (set_initproc o) ;;
  match o with
  | None => panic "trap"
  | Some i =>
      pg ← on_env env_setupkvm;
      updp i (set_pgdir pg) ;;
      if pg =? 0 then panic "userinit: out of memory?" else
      on_env (env_inituvm pg initcode) ;;
      updp i (set_sz PGSIZE) ;;
      let cs := Z.lor (Z.shiftl SEG_UCODE 3) DPL_USER in
      let ds := Z.lor (Z.shiftl SEG_UDATA 3) DPL_USER in
      updp i (set_tf (mkTf 0 0 0 0 0 0 0 0 0 0 ds ds 0 0 0 cs FL_IF PGSIZE ds)) ;;
      updp i (set_ticks 0) ;;
      updp i (set_tickets 10) ;;
      updp i (λ p, set_name (copy_name (p_name p) initcode_name) p) ;;
      cwd ← on_env (env_namei root_path);
      updp i (set_cwd cwd) ;;
      on_cpu (acquire Lk_ptable) ;;
      updp i (set_state RUNNABLE) ;;
      on_cpu (release Lk_ptable)
  end.

Definition growproc (n : Z) : M (pstate K) Z :=
  me ← curproc;
  sz0 ← getp me p_sz;
  pg ← getp me p_pgdir;
  r ← (if 0 <? n then
         sz ← on_env (env_allocuvm pg sz0 (u32 (sz0 + n)));
         mret (if sz =? 0 then None else Some sz)
       else if n <? 0 then
         sz ← on_env (env_deallocuvm pg sz0 (u32 (sz0 + n)));
         mret (if sz =? 0 then None else Some sz)
       else mret (Some sz0));
  match r with
  | None => mret (-1)
  | Some sz => updp me (set_sz sz) ;; switchuvm me ;; mret 0
  end.

(** [for(i = 0; i < NOFILE; i++) if(curproc->ofile[i]) np->ofile[i] = filedup(...);] *)
Fixpoint fork_files (np : nat) (idxs : list nat) (fs : list (option nat)) : M (pstate K) unit :=
  match idxs, fs with
  | i :: idxs, Some f :: fs =>
      on_env (env_filedup f) ;;
      updp np (λ p, set_ofile (<[i := Some f]> (p_ofile p)) p) ;;
      fork_files np idxs fs
  | _ :: idxs, None :: fs => fork_files np idxs fs
  | _, _ => mret tt
  end.

Definition fork : M (pstate K) Z :=
  me ← curproc;
  o ← allocproc;
  match o with
  | None => mret (-1)
  | Some np =>
      pg0 ← getp me p_pgdir;
      sz ← getp me p_sz;
      pg ← on_env (env_copyuvm pg0 sz);
      updp np (set_pgdir pg) ;;
      if pg =? 0 then
        k ← getp np p_kstack;
        on_env (env_kfree k) ;;
        updp np (set_kstack 0) ;;
        updp np (set_state UNUSED) ;;
        mret (-1)
      else
        updp np (set_ticks 0) ;;
        t ← getp me p_tickets;
        updp np (set_tickets (if t <=? 10 then 10 else t)) ;;
        sz ← getp me p_sz;
        updp np (set_sz sz) ;;
        updp np (set_parent (Some me)) ;;
        tf ← getp me p_tf;
        updp np (set_tf tf) ;;
        updp np (λ p, set_tf (set_eax 0 (p_tf p)) p) ;;
        fs ← getp me p_ofile;
        fork_files np (seq 0 (Z.to_nat NOFILE)) fs ;;
        cwd ← getp me p_cwd;
        match cwd with
        | None => panic "trap"
        | Some ip => on_env (env_idup ip) ;; updp np (set_cwd (Some ip))
        end ;;
        nm ← getp me p_name;
        updp np (λ p, set_name (copy_name (p_name p) nm) p) ;;
        pid ← getp np p_pid;
        on_cpu (acquire Lk_ptable) ;;
        updp np (set_state RUNNABLE) ;;
        on_cpu (release Lk_ptable) ;;
        mret pid
  end.

(** [exit]: close the files ... *)
Fixpoint exit_files (me : nat) (fds : list nat) : M (pstate K) unit :=
  match fds with
  | [] => mret tt
  | fd :: fds =>
      fs ← getp me p_ofile;
      match fs !! fd with
      | Some (Some f) =>
          cs ← on_env (env_fileclose f);
          wakeups cs ;;
          updp me (λ p, set_ofile (<[fd := None]> (p_ofile p)) p)
      | _ => mret tt
      end ;;
      exit_files me fds
  end.

(** ... pass abandoned children to init ... *)
Fixpoint exit_reparent (me : nat) (idxs : list nat) : M (pstate K) unit :=
  match idxs with
  | [] => mret tt
  | i :: idxs =>
      par ← getp i p_parent;
      (if decide (par = Some me) then
         ini ← gets ps_initproc;
         updp i (set_parent ini) ;;
         st ← getp i p_state;
         if decide (st = ZOMBIE)
         then wakeup1 (match ini with Some j => CProc j | None => CNull end)
         else mret tt
       else mret tt) ;;
      exit_reparent me idxs
  end.

(** ... and jump into the scheduler, never to return. *)
Definition exit : M (pstate K) bool :=
  me ← curproc;
  ini ← gets ps_initproc;
  if decide (ini = Some me) then panic "init exiting" else
  exit_files me (seq 0 (Z.to_nat NOFILE)) ;;
  on_env env_begin_op ;;
  cwd ← getp me p_cwd;
  match cwd with
  | None => panic "trap"
  | Some ip => cs ← on_env (env_iput ip); wakeups cs
  end ;;
  cs ← on_env env_end_op;
  wakeups cs ;;
  updp me (set_cwd None) ;;
  on_cpu (acquire Lk_ptable) ;;
  par ← getp me p_parent;
  wakeup1 (match par with Some j => CProc j | None => CNull end) ;;
  exit_reparent me (seq 0 (Z.to_nat NPROC)) ;;
  updp me (set_state ZOMBIE) ;;
  sched me.

(** [wait]: one scan of the table.  [inl pid]: a zombie child was reaped;
    [inr havekids]: none was found. *)
Fixpoint wait_scan (me : nat) (idxs : list nat) (havekids : bool) : M (pstate K) (Z + bool) :=
  match idxs with
  | [] => mret (inr havekids)
  | i :: idxs =>
      par ← getp i p_parent;
      if decide (par ≠ Some me) then wait_scan me idxs havekids
      else
        st ← getp i p_state;
        if decide (st = ZOMBIE) then
          pid ← getp i p_pid;
          k ← getp i p_kstack;
          on_env (env_kfree k) ;;
          updp i (set_kstack 0) ;;
          pg ← getp i p_pgdir;
          on_env (env_freevm pg) ;;
          updp i (set_pid 0) ;;
          updp i (set_parent None) ;;
          updp i (λ p, set_name (<[0%nat := 0]> (p_name p)) p) ;;
          updp i (set_killed 0) ;;
          updp i (set_state UNUSED) ;;
          on_cpu (release Lk_ptable) ;;
          mret (inl pid)
        else wait_scan me idxs true
  end.

(** One round of [wait]'s loop, with [ptable.lock] held: [inl r] is its return
    value, [inr intena] that it went to sleep. *)
Definition wait_round : M (pstate K) (Z + bool) :=
  me ← curproc;
  r ← wait_scan me (seq 0 (Z.to_nat NPROC)) false;
  match r with
  | inl pid => mret (inl pid)
  | inr havekids =>
      kd ← getp me p_killed;
      if negb havekids || negb (kd =? 0) then
        on_cpu (release Lk_ptable) ;; mret (inl (-1))
      else
        e ← sleep (CProc me) (Some Lk_ptable);
        mret (inr e)
  end.
Definition wait : M (pstate K) (Z + bool) :=
  on_cpu (acquire Lk_ptable) ;;
  wait_round.
(** ... and from where its [sleep] returns. *)
Definition wait_return (me : nat) (intena : bool) : M (pstate K) (Z + bool) :=
  sleep_return me Lk_ptable intena ;;
  wait_round.
End env_ops.

(** ** The lottery scheduler *)

(** First loop: the tickets of the RUNNABLE processes, added up in an [int]. *)
Fixpoint total_tickets (ps : list proc) (total : Z) : Z :=
  match ps with
  | [] => total
  | p :: ps =>
      if decide (p_state p ≠ RUNNABLE) then total_tickets ps total
      else total_tickets ps (s32 (total + p_tickets p))
  end.

(** Second loop: the process whose running total first exceeds the winner. *)
Fixpoint find_winner (ps : list proc) (i : nat) (winner new_total : Z) : option nat :=
  match ps with
  | [] => None
  | p :: ps =>
      if decide (p_state p ≠ RUNNABLE) then find_winner ps (S i) winner new_total
      else
        let new_total := s32 (new_total + p_tickets p) in
        if winner <? new_total then Some i else find_winner ps (S i) winner new_total
  end.

Section scheduler.
Context {K : Type} `{!ProcEnv K}.

(** One round of [scheduler]'s loop up to [swtch]: the process switched to. *)
Definition scheduler : M (pstate K) (option nat) :=
  on_cpu (modify (set_if true)) ;;
  on_cpu (acquire Lk_ptable) ;;
  ps ← gets ps_proc;
  let total := total_tickets ps 0 in
  if 0 <? total then
    r ← random;
    let winner := Z.rem r total in
    match find_winner ps 0 winner 0 with
    | Some i =>
        on_cpu (modify (set_cproc (Some i))) ;;
        switchuvm i ;;
        updp i (set_state RUNNING) ;;
        mret (Some i)
    | None => on_cpu (release Lk_ptable) ;; mret None
    end
  else on_cpu (release Lk_ptable) ;; mret None.

(** ... and from where [swtch] returns to the scheduler. *)
Definition scheduler_return (i : nat) : M (pstate K) unit :=
  on_env env_switchkvm ;;
  on_cpu (modify (set_cproc None)) ;;
  updp i (λ p, set_ticks (s32 (p_ticks p + 1)) p) ;;
  on_cpu (release Lk_ptable).
End scheduler.

(** ** getpinfo *)

Record pstat_t := mkPstat {
  st_inuse : Z; st_tickets : Z; st_pid : Z; st_ticks : Z; st_name : list Z; st_state : Z
}.

(** One row of the table: [old] is what the caller's memory held.  The state
    letter is left as it was for a state the code does not list. *)
Definition fill_row (p : proc) (old : pstat_t) : pstat_t :=
  mkPstat 1 (p_tickets p) (p_pid p) (p_ticks p) (copy_name (st_name old) (p_name p))
    (match p_state p with
     | EMBRYO => 69 | RUNNING => 82 | RUNNABLE => 65 | SLEEPING => 83 | ZOMBIE => 90
     | UNUSED => st_state old
     end).

Section pinfo.
Context {K : Type}.
Definition fillpstat (old : list pstat_t) : M (pstate K) (list pstat_t) :=
  on_cpu (acquire Lk_ptable) ;;
  ps ← gets ps_proc;
  on_cpu (release Lk_ptable) ;;
  mret (zip_with fill_row ps old).
End pinfo.

(** ** Running lifted operations *)

Section lifted.
Context {K : Type}.
Implicit Types s : pstate K.

Lemma on_cpu_ok {A} (m : M cpu A) s a c :
  m (ps_cpu s) = Ok (a, c) → on_cpu m s = Ok (a, set_cpu c s).
Proof. by rw /on_cpu /lift => ->. Qed.
Lemma on_env_ok {A} (m : M K A) s a e :
  m (ps_env s) = Ok (a, e) → on_env m s = Ok (a, set_env e s).
Proof. by rw /on_env /lift => ->. Qed.

(** A CPU outside every critical section. *)
Definition cpu_idle (c : cpu) : Prop := c_ncli c = 0 ∧ c_held c = ∅.
(** ... and one that holds just [ptable.lock]. *)
Definition cpu_sched (c : cpu) : Prop :=
  c_ncli c = 1 ∧ c_if c = false ∧ c_held c = {[Lk_ptable]}.

Lemma cpu_idle_inv c : cpu_idle c → cli_inv c.
Proof. intros [H _]. split; lia. Qed.

Lemma acquire_ptable_idle c :
  cpu_idle c →
  acquire Lk_ptable c = Ok (tt, mkCpu 1 (c_if c) false (c_proc c) {[Lk_ptable]}).
Proof.
  intros [Hn Hh]. rw acquire_ok; [by apply cpu_idle_inv|rw Hh; set_solver|].
  by rw Hn Hh /= right_id_L.
Qed.

Lemma release_ptable_sched c :
  cpu_sched c →
  release Lk_ptable c = Ok (tt, mkCpu 0 (c_intena c) (c_intena c) (c_proc c) ∅).
Proof.
  intros (Hn & Hf & Hh). rw release_ok; [lia|done|rw Hh; set_solver|].
  by rw Hn Hh /= difference_diag_L.
Qed.
End lifted.

(** ** An example environment *)

(** An environment in which every call succeeds and there is no other state. *)
#[export] Instance null_env : ProcEnv unit := {
  env_kalloc := mret KERNLINK; env_kfree _ := mret tt; env_setupkvm := mret KERNLINK;
  env_inituvm _ _ := mret tt; env_allocuvm _ _ n := mret n; env_deallocuvm _ _ n := mret n;
  env_copyuvm _ _ := mret KERNLINK; env_freevm _ := mret tt; env_load_uvm _ _ := mret tt;
  env_switchkvm := mret tt; env_filedup _ := mret tt; env_fileclose _ := mret [];
  env_idup _ := mret tt; env_iput _ := mret []; env_namei _ := mret (Some 0%nat);
  env_begin_op := mret tt; env_end_op := mret [];
}.
