(* ===== verification/Lottery.v ===== *)
(** * The lottery (proc.c: [random] and the ticket loops of [scheduler])

    The generator behind the lottery is a linear congruential generator modulo
    [2^31]; it is shown to have full period.  The two loops over the process table
    give each RUNNABLE process an interval of winning tickets as long as its
    ticket count, so every round is proportional, and so is every full period of
    the generator.  The last part shows what happens when the [int] totals
    overflow. *)

From S2P Require Import Prelude Params Spinlock Proc.

(** ** The generator *)

Lemma random_next_eq r : random_next r = (r * 1103515245 + 12345) mod 2 ^ 31.
Proof.
  rw /random_next /RAND_MAX (Z.land_ones _ 31) // /u32 /s32.
  change (2 ^ 31) with 2147483648. dlia.
Qed.

Lemma random_next_range r : 0 ≤ random_next r < 2 ^ 31.
Proof. rw random_next_eq. by apply Z.mod_pos_bound. Qed.

(** The affine map without the modulus, and the geometric sums [1 + a + .. + a^(n-1)]. *)
Section lcg.
Variables a c : Z.

Definition affine (x : Z) : Z := x * a + c.
Fixpoint geom (n : nat) : Z :=
  match n with
  | O => 0
  | S n => geom n + a ^ Z.of_nat n
  end.

Lemma geom_closed n : geom n * (a - 1) = a ^ Z.of_nat n - 1.
Proof.
  induction n as [|n IH]; [done|]. cbn [geom].
  rw Z.mul_add_distr_r IH Nat2Z.inj_succ Z.pow_succ_r; lia.
Qed.

Lemma geom_add n m : geom (n + m) = geom n + a ^ Z.of_nat n * geom m.
Proof.
  induction m as [|m IH]; [rw Nat.add_0_r /=; lia|].
  rw Nat.add_succ_r. cbn [geom]. rw IH Nat2Z.inj_add Z.pow_add_r; lia.
Qed.

Lemma affine_iter n x : Nat.iter n affine x - x = geom n * (x * (a - 1) + c).
Proof.
  induction n as [|n IH]; simpl; [lia|].
  pose proof (geom_closed n) as G.
  assert (Nat.iter n affine x = x + geom n * (x * (a - 1) + c)) as -> by lia.
  rw /affine. 
  transitivity (x * (a - 1) + c + geom n * (a - 1) * (x * (a - 1) + c) + geom n * (x * (a - 1) + c));
    [ring|]. rw G. ring.
Qed.

Lemma affine_iter_mod k n x :
  0 ≤ k → Nat.iter n (λ y, affine y mod 2 ^ k) x mod 2 ^ k = Nat.iter n affine x mod 2 ^ k.
Proof.
  intros Hk. induction n as [|n IH]; simpl; [done|].
  rw Zmod_mod /affine -Zplus_mod_idemp_l -Zmult_mod_idemp_l IH.
  by rw Zmult_mod_idemp_l Zplus_mod_idemp_l.
Qed.

Hypothesis a_mod4 : a mod 4 = 1.
Hypothesis c_odd : c mod 2 = 1.

Lemma pow_a_mod4 n : a ^ Z.of_nat n mod 4 = 1.
Proof.
  induction n as [|n IH]; [done|].
  rw Nat2Z.inj_succ Z.pow_succ_r; [lia|]. rw Z.mul_mod // a_mod4 IH //.
Qed.

(** [geom] is divisible by the same powers of two as its index. *)
Lemma geom_odd n : geom (2 * n + 1) mod 2 = 1.
Proof.
  induction n as [|n IH]; [done|].
  replace (2 * S n + 1)%nat with (S (S (2 * n + 1))) by lia. cbn [geom].
  pose proof (pow_a_mod4 (2 * n + 1)). pose proof (pow_a_mod4 (S (2 * n + 1))).
  revert IH. generalize (geom (2 * n + 1)). intros g ?. dlia.
Qed.

Lemma geom_even n : ∃ q, q mod 2 = 1 ∧ geom (2 * n) = 2 * q * geom n.
Proof.
  pose proof (pow_a_mod4 n) as H.
  exists ((1 + a ^ Z.of_nat n) / 2). split; [dlia|].
  replace (2 * n)%nat with (n + n)%nat by lia. rw geom_add.
  assert (2 * ((1 + a ^ Z.of_nat n) / 2) = 1 + a ^ Z.of_nat n) as -> by dlia. ring.
Qed.

Lemma odd_divide_pow2 k q x : q mod 2 = 1 → (2 ^ Z.of_nat k | q * x) → (2 ^ Z.of_nat k | x).
Proof.
  intros Hq. revert x. induction k as [|k IH] => x; [intros _; apply Z.divide_1_l|].
  rw Nat2Z.inj_succ Z.pow_succ_r; [lia|]. intros [z Hz].
  assert (x mod 2 = 0) as Hx.
  { assert ((q * x) mod 2 = 0) as H by (rw Hz; dlia).
    rw Z.mul_mod // Hq Z.mul_1_l Zmod_mod // in H. }
  destruct (IH (x / 2)) as [w Hw].
  { exists z. assert (x = 2 * (x / 2)) as E by dlia. rw E in Hz. lia. }
  exists w. assert (x = 2 * (x / 2)) as -> by dlia. rw Hw. lia.
Qed.

Lemma geom_divide k n : (2 ^ Z.of_nat k | geom n) ↔ (2 ^ Z.of_nat k | Z.of_nat n).
Proof.
  revert n. induction k as [|k IH] => n; [split; intros _; apply Z.divide_1_l|].
  rw Nat2Z.inj_succ Z.pow_succ_r; [lia|].
  assert (∀ x, x mod 2 = 1 → ¬ (2 * 2 ^ Z.of_nat k | x)) as Hodd.
  { intros x Hx [z ->]. rw Z.mul_comm -Z.mul_assoc Z.mul_comm Z.mod_mul // in Hx. }
  destruct (decide (Z.of_nat n mod 2 = 1)) as [Hn|Hn].
  - split; intros H; exfalso; revert H; apply Hodd; [|done].
    replace n with (2 * Z.to_nat (Z.of_nat n / 2) + 1)%nat by dlia. apply geom_odd.
  - assert (∃ m, n = (2 * m)%nat) as [m ->] by (exists (Z.to_nat (Z.of_nat n / 2)); dlia).
    destruct (geom_even m) as (q & Hq & ->).
    replace (Z.of_nat (2 * m)) with (2 * Z.of_nat m) by lia.
    rw -Z.mul_assoc !Z.mul_divide_cancel_l // -IH. split; [by apply odd_divide_pow2|].
    intros H. by apply Z.divide_mul_r.
Qed.

(** The generator comes back to where it was only after a multiple of [2^k] calls. *)
Lemma affine_cycle k n x :
  Nat.iter n affine x mod 2 ^ Z.of_nat k = x mod 2 ^ Z.of_nat k ↔ (2 ^ Z.of_nat k | Z.of_nat n).
Proof.
  assert (0 < 2 ^ Z.of_nat k) by (apply Z.pow_pos_nonneg; lia).
  rw -geom_divide.
  transitivity (2 ^ Z.of_nat k | Nat.iter n affine x - x).
  { rw -Z.mod_divide; [lia|]. split; intros H1.
    - by apply Z.cong_iff_0.
    - by apply Z.cong_iff_0. }
  rw affine_iter. split; intros H1.
  - apply (odd_divide_pow2 _ (x * (a - 1) + c)); [|by rw Z.mul_comm].
    assert (∃ b, a = 4 * b + 1) as [b ->] by (exists (a / 4); dlia).
    replace (x * (4 * b + 1 - 1) + c) with (c + (2 * x * b) * 2) by ring.
    by rw Z.mod_add.
  - by apply Z.divide_mul_l.
Qed.

Lemma affine_inj k i j x :
  (i < j)%nat → Z.of_nat j < 2 ^ Z.of_nat k →
  Nat.iter i affine x mod 2 ^ Z.of_nat k ≠ Nat.iter j affine x mod 2 ^ Z.of_nat k.
Proof.
  intros Hij Hj E. replace j with ((j - i) + i)%nat in E by lia.
  rw Nat.iter_add in E. symmetry in E. apply affine_cycle in E.
  apply Z.divide_pos_le in E; lia.
Qed.
End lcg.

(** [n] calls of [random] from the seed [x]: the last value returned. *)
Definition random_iter (n : nat) (x : Z) : Z := Nat.iter n random_next x.

Lemma random_iter_mod n x :
  random_iter n x mod 2 ^ 31 = Nat.iter n (affine 1103515245 12345) x mod 2 ^ 31.
Proof.
  rw -(affine_iter_mod _ _ 31) // /random_iter. f_equal.
  induction n as [|n IH]; simpl; [done|]. by rw IH random_next_eq.
Qed.

Lemma random_iter_range n x : 0 ≤ random_iter (S n) x < 2 ^ 31.
Proof. apply random_next_range. Qed.

(** Distinct values in range, as many as the range has, are the whole range. *)
Lemma inj_seqZ_Permutation (f : Z → Z) m P :
  (∀ i, m ≤ i < m + P → 0 ≤ f i < P) →
  (∀ i j, m ≤ i < j → j < m + P → f i ≠ f j) →
  f <$> seqZ m P ≡ₚ seqZ 0 P.
Proof.
  intros Hr Hi. apply submseteq_length_Permutation.
  2:{ rw length_fmap !length_seqZ. apply Nat.le_refl. }
  apply NoDup_submseteq.
  - apply NoDup_fmap_2_strong; [|apply NoDup_seqZ].
    intros i j Hi'%elem_of_seqZ Hj%elem_of_seqZ E.
    destruct (Z.lt_trichotomy i j) as [Hij|[?|Hij]]; [|done|].
    + exfalso. apply (Hi i j); [lia..|done].
    + exfalso. apply (Hi j i); [lia..|done].
  - intros y (i & -> & Hi'%elem_of_seqZ)%list_elem_of_fmap. apply elem_of_seqZ. rw Z.add_0_l. auto.
Qed.

Lemma random_period (P x : Z) :
  P = 2 ^ 31 → (λ n, random_iter (Z.to_nat n) x) <$> seqZ 1 P ≡ₚ seqZ 0 P.
Proof.
  intros HP. apply inj_seqZ_Permutation.
  - intros i Hi. destruct (Z.to_nat i) as [|n] eqn:E; [lia|].
    rw HP. apply random_iter_range.
  - intros i j Hi Hj E.
    apply (affine_inj 1103515245 12345 eq_refl eq_refl 31 (Z.to_nat i - 1) (Z.to_nat j - 1)
      (random_next x)); [lia|change (Z.of_nat 31) with 31; lia|].
    change (Z.of_nat 31) with 31. rw -!random_iter_mod. f_equal.
    revert E. rw /random_iter -!Nat.iter_succ_r.
    by replace (S (Z.to_nat i - 1)) with (Z.to_nat i) by lia;
      replace (S (Z.to_nat j - 1)) with (Z.to_nat j) by lia.
Qed.

(** [random] has full period: from every seed, [2^31] successive calls return
    every value of [0, RAND_MAX] exactly once. *)
Theorem random_full_period x :
  (λ n, random_iter (Z.to_nat n) x) <$> seqZ 1 (2 ^ 31) ≡ₚ seqZ 0 (2 ^ 31).
Proof. apply random_period. reflexivity. Qed.

(** ** The ticket loops *)

(** The tickets a process brings to the lottery. *)
Definition stake (p : proc) : Z := if decide (p_state p = RUNNABLE) then p_tickets p else 0.

Lemma stake_runnable p : p_state p = RUNNABLE → stake p = p_tickets p.
Proof. intros. by rw /stake decide_True. Qed.
Lemma stake_other p : p_state p ≠ RUNNABLE → stake p = 0.
Proof. intros. by rw /stake decide_False. Qed.

(** No [int] of the two loops overflows. *)
Definition stakes_ok (ps : list proc) : Prop :=
  Forall (λ p, 0 ≤ stake p) ps ∧ Zsum stake ps < 2147483648.

Lemma stakes_ok_cons p ps :
  stakes_ok (p :: ps) → 0 ≤ stake p ∧ stakes_ok ps ∧ 0 ≤ Zsum stake ps.
Proof.
  intros [[Hp Hps]%Forall_cons Hs]. simpl in Hs. pose proof (Zsum_nonneg stake ps Hps).
  split_and!; [done| |done]. split; [done|lia].
Qed.

Lemma total_tickets_sum ps t :
  stakes_ok ps → 0 ≤ t → t + Zsum stake ps < 2147483648 →
  total_tickets ps t = t + Zsum stake ps.
Proof.
  revert t. induction ps as [|p ps IH] => t Hok Ht Hb /=; [lia|].
  apply stakes_ok_cons in Hok as (Hp & Hok & Hs). simpl in Hb. case_decide as Hst.
  - rw (stake_other p) // in Hb |- *. rw IH //.
  - apply stake_runnable in Hst. rw -Hst s32_small; [lia|]. rw IH //; lia.
Qed.

Lemma find_winner_spec ps i w t j :
  stakes_ok ps → 0 ≤ t ≤ w → t + Zsum stake ps < 2147483648 →
  find_winner ps i w t = Some j ↔
  ∃ k p, j = (i + k)%nat ∧ ps !! k = Some p ∧
    t + Zsum stake (take k ps) ≤ w < t + Zsum stake (take k ps) + stake p.
Proof.
  revert i t. induction ps as [|p ps IH] => i t Hok Ht Hb; simpl.
  { split; [done|]. intros (k & p & _ & H & _). by rw lookup_nil in H. }
  apply stakes_ok_cons in Hok as (Hp & Hok & Hs). simpl in Hb.
  assert (∀ Q : nat → proc → Prop,
    (∃ k q, j = (i + k)%nat ∧ (p :: ps) !! k = Some q ∧ Q k q) ↔
    (j = i ∧ Q 0%nat p) ∨ ∃ k q, j = (S i + k)%nat ∧ ps !! k = Some q ∧ Q (S k) q) as Hex.
  { intros Q. split.
    - intros ([|k] & q & -> & Hk & HQ); simplify_eq/=; [left; by rw Nat.add_0_r|].
      right. exists k, q. split_and!; [lia|done..].
    - intros [[-> HQ]|(k & q & -> & Hk & HQ)]; [exists 0%nat, p|exists (S k), q];
        split_and!; done || lia. }
  rw Hex. clear Hex. cbn [take Zsum]. case_decide as Hst.
  - rw (stake_other p) // in Hb |- *. rw IH //.
    split; [intros (k & q & ? & ? & ?); right; exists k, q; split_and!; done || lia|].
    intros [[_ ?]|(k & q & ? & ? & ?)]; [lia|]. exists k, q. split_and!; done || lia.
  - apply stake_runnable in Hst. rw -Hst s32_small; [lia|].
    destruct (Z.ltb_spec w (t + stake p)).
    + split; [intros [= ->]; left; split; [done|lia]|].
      intros [[-> _]|(k & q & ? & Hk & ?)]; [done|].
      assert (0 ≤ Zsum stake (take k ps)); [|lia].
      apply Zsum_nonneg, Forall_take, Hok.
    + rw IH //; [lia..|].
      split; [intros (k & q & ? & ? & ?); right; exists k, q; split_and!; done || lia|].
      intros [[_ ?]|(k & q & ? & ? & ?)]; [lia|]. exists k, q. split_and!; done || lia.
Qed.

(** The winner of a round: the slot [scheduler] switches to. *)
Definition lottery (ps : list proc) (w : Z) : option nat := find_winner ps 0 w 0.

Lemma lottery_interval ps w j p :
  stakes_ok ps → 0 ≤ w → ps !! j = Some p →
  lottery ps w = Some j ↔
  Zsum stake (take j ps) ≤ w < Zsum stake (take j ps) + stake p.
Proof.
  intros Hok Hw Hj. rw /lottery find_winner_spec; [done|lia|destruct Hok; lia|].
  split.
  - intros (k & q & -> & Hk & H). simpl in *. simplify_eq. lia.
  - intros H. exists j, p. split_and!; done || lia.
Qed.

(** ** Counting winning tickets *)

(** How many elements of a list satisfy a decidable property. *)
Definition countb {A} (f : A → bool) (l : list A) : Z := Zsum (λ x, if f x then 1 else 0) l.

Lemma countb_app {A} (f : A → bool) l k : countb f (l ++ k) = countb f l + countb f k.
Proof. apply Zsum_app. Qed.

Lemma countb_ext {A} (f g : A → bool) l :
  (∀ x, x ∈ l → f x = g x) → countb f l = countb g l.
Proof. intros H. apply Zsum_ext, Forall_forall => x Hx. by rw H. Qed.

#[export] Instance countb_perm {A} (f : A → bool) : Proper ((≡ₚ) ==> eq) (countb f).
Proof. intros l k H. rw /countb. induction H; simpl; lia. Qed.

Lemma countb_fmap {A B} (f : B → bool) (g : A → B) l : countb f (g <$> l) = countb (f ∘ g) l.
Proof. rw /countb. induction l as [|x l IH]; [done|]. rw fmap_cons /= IH //. Qed.

(** Splitting a range, and counting an interval inside one. *)
Lemma seqZ_split m n1 n2 : 0 ≤ n1 → 0 ≤ n2 → seqZ m (n1 + n2) = seqZ m n1 ++ seqZ (m + n1) n2.
Proof. intros. by apply seqZ_app. Qed.

Definition inb (lo hi x : Z) : bool := (lo <=? x) && (x <? hi).

Lemma countb_all (f : Z → bool) b m n :
  0 ≤ n → (∀ x, m ≤ x < m + n → f x = b) → countb f (seqZ m n) = if b then n else 0.
Proof.
  intros Hn H. rw (countb_ext f (λ _, b)); [intros x Hx%elem_of_seqZ; by apply H|].
  transitivity (Zsum (λ _ : Z, if b then 1 else 0) (seqZ m n)); [done|].
  transitivity ((if b then 1 else 0) * Z.of_nat (length (seqZ m n))).
  { induction (seqZ m n); simpl; [lia|]. lia. }
  rw length_seqZ Z2Nat.id //. destruct b; lia.
Qed.

Lemma countb_interval lo hi m n :
  m ≤ lo ≤ hi → hi ≤ m + n → countb (inb lo hi) (seqZ m n) = hi - lo.
Proof.
  intros H1 H2. replace n with ((lo - m) + ((hi - lo) + (m + n - hi))) by lia.
  rw (seqZ_split m (lo - m)); [lia..|]. rw (seqZ_split _ (hi - lo)); [lia..|]. rw !countb_app.
  rw (countb_all _ false m); [lia| |]. { intros. rw /inb. lia. }
  rw (countb_all _ true (m + (lo - m))); [lia| |]. { intros. rw /inb. lia. }
  rw (countb_all _ false (m + (lo - m) + (hi - lo))); [lia| |]. { intros. rw /inb. lia. }
  lia.
Qed.

Lemma countb_shift (f : Z → bool) m n d :
  0 ≤ n → countb f (seqZ (m + d) n) = countb (λ x, f (x + d)) (seqZ m n).
Proof.
  intros Hn. rw -(Z2Nat.id n) //. clear Hn. revert m. induction (Z.to_nat n) as [|k IH] => m; [done|].
  rw !(seqZ_cons _ (Z.of_nat (S k))); [lia..|].
  replace (Z.pred (Z.of_nat (S k))) with (Z.of_nat k) by lia.
  rw /countb /= in IH |- *. rw -IH. do 4 f_equal. lia.
Qed.

(** Out of [q] whole rounds of [T] numbers, an interval of residues is hit [q] times
    its length. *)
Lemma countb_residues lo hi T q :
  0 ≤ lo ≤ hi → hi ≤ T → 0 < T →
  countb (λ x, inb lo hi (x mod T)) (seqZ 0 (T * Z.of_nat q)) = (hi - lo) * Z.of_nat q.
Proof.
  intros H1 H2 HT. induction q as [|q IH].
  { rw !Z.mul_0_r. done. }
  replace (T * Z.of_nat (S q)) with (T * Z.of_nat q + T) by lia.
  rw seqZ_split; [lia..|]. rw countb_app IH countb_shift; [lia|].
  rw (countb_ext _ (inb lo hi)).
  { intros x Hx%elem_of_seqZ. rw Z.add_0_l in Hx. f_equal.
    rw (Z.mul_comm T) Z_mod_plus_full. apply Z.mod_small. lia. }
  rw countb_interval; lia.
Qed.

Lemma countb_nonneg {A} (f : A → bool) l : 0 ≤ countb f l.
Proof. apply Zsum_nonneg, Forall_forall => x _. destruct (f x); lia. Qed.

Lemma countb_residues_bounds lo hi T N :
  0 ≤ lo ≤ hi → hi ≤ T → 0 < T → 0 ≤ N →
  (hi - lo) * (N / T) ≤ countb (λ x, inb lo hi (x mod T)) (seqZ 0 N) ≤ (hi - lo) * (N / T + 1).
Proof.
  intros H1 H2 HT HN.
  assert (∀ q, 0 ≤ q → countb (λ x, inb lo hi (x mod T)) (seqZ 0 (T * q)) = (hi - lo) * q) as Hq.
  { intros q Hq. rw -(Z2Nat.id q) //. by apply countb_residues. }
  assert (0 ≤ N / T) by (apply Z.div_pos; lia).
  pose proof (Z.div_mod N T ltac:(lia)) as E. pose proof (Z.mod_pos_bound N T HT) as Hm.
  split.
  - rw -Hq //. rw {2}E seqZ_split; [lia..|]. rw countb_app.
    pose proof (countb_nonneg (λ x, inb lo hi (x mod T)) (seqZ (0 + T * (N / T)) (N mod T))). lia.
  - rw -Hq; [lia|]. replace (T * (N / T + 1)) with (N + (T * (N / T + 1) - N)) by lia.
    rw seqZ_split; [lia..|]. rw countb_app.
    pose proof (countb_nonneg (λ x, inb lo hi (x mod T)) (seqZ (0 + N) (T * (N / T + 1) - N))). lia.
Qed.

(** ** Fairness *)

Lemma Zsum_take_bounds ps j p :
  stakes_ok ps → ps !! j = Some p →
  0 ≤ Zsum stake (take j ps) ∧ 0 ≤ stake p ∧
  Zsum stake (take j ps) + stake p ≤ Zsum stake ps.
Proof.
  intros [Hall _] Hj. split_and!.
  - by apply Zsum_nonneg, Forall_take.
  - by eapply (Forall_lookup_1 _ _ _ _ Hall).
  - rw -(Zsum_take_S _ _ _ _ Hj) -{2}(take_drop (S j) ps) Zsum_app.
    assert (0 ≤ Zsum stake (drop (S j) ps)); [|lia]. by apply Zsum_nonneg, Forall_drop.
Qed.

(** The winners that select slot [j] are an interval of [stake] numbers. *)
Lemma lottery_inb ps j p w :
  stakes_ok ps → ps !! j = Some p → 0 ≤ w →
  bool_decide (lottery ps w = Some j)
  = inb (Zsum stake (take j ps)) (Zsum stake (take j ps) + stake p) w.
Proof.
  intros Hok Hj Hw. apply eq_bool_prop_intro. rw bool_decide_spec (lottery_interval _ _ _ p) //.
  rw /inb Is_true_true. lia.
Qed.

(** C1. Every draw is proportional.  When the tickets of the RUNNABLE processes fit
    in an [int], the first loop computes their sum [T], and of the [T] equally many
    winning numbers [0 .. T-1] exactly [tickets] select a given RUNNABLE process,
    and none selects a process that is not RUNNABLE. *)
Theorem lottery_proportional ps j p :
  stakes_ok ps → ps !! j = Some p →
  total_tickets ps 0 = Zsum stake ps ∧
  countb (λ w, bool_decide (lottery ps w = Some j)) (seqZ 0 (total_tickets ps 0))
  = if decide (p_state p = RUNNABLE) then p_tickets p else 0.
Proof.
  intros Hok Hj. destruct (Zsum_take_bounds ps j p Hok Hj) as (H0 & H1 & H2).
  assert (total_tickets ps 0 = Zsum stake ps) as E.
  { rw total_tickets_sum //. destruct Hok. lia. }
  split; [done|]. rw E. erewrite countb_ext.
  2:{ intros w Hw%elem_of_seqZ. apply (lottery_inb _ _ p); [done..|lia]. }
  rw countb_interval; [lia..|]. rw /stake. lia.
Qed.

(** C13. The lottery is fair over every period of the generator.  From any seed, with
    the table fixed and [T] total tickets, among [2^31] consecutive draws of
    [random() % total_tickets] a RUNNABLE process with [t] tickets is selected at
    least [t * (2^31 / T)] and at most [t * (2^31 / T + 1)] times: so it is never
    starved, and its share differs from [t / T] by at most one round. *)
Theorem lottery_fair_over_period ps j p seed :
  stakes_ok ps → 0 < Zsum stake ps → ps !! j = Some p → p_state p = RUNNABLE →
  let T := total_tickets ps 0 in
  p_tickets p * (2 ^ 31 / T)
  ≤ countb (λ n, bool_decide (lottery ps (Z.rem (random_iter (Z.to_nat n) seed) T) = Some j))
      (seqZ 1 (2 ^ 31))
  ≤ p_tickets p * (2 ^ 31 / T + 1).
Proof.
  intros Hok HT Hj Hr T. destruct (Zsum_take_bounds ps j p Hok Hj) as (H0 & H1 & H2).
  assert (T = Zsum stake ps) as E.
  { rw /T total_tickets_sum //. destruct Hok. lia. }
  set (lo := Zsum stake (take j ps)) in *. set (f := λ x, inb lo (lo + stake p) (x mod T)).
  assert (countb (λ n, bool_decide (lottery ps (Z.rem (random_iter (Z.to_nat n) seed) T) = Some j))
      (seqZ 1 (2 ^ 31)) = countb f (seqZ 0 (2 ^ 31))) as ->.
  { rw -(random_period (2 ^ 31) seed eq_refl) countb_fmap. apply countb_ext => n Hn.
    apply elem_of_seqZ in Hn. rw /f /=. destruct (Z.to_nat n) as [|k] eqn:En; [lia|].
    pose proof (random_iter_range k seed).
    rw Z.rem_mod_nonneg; [lia..|]. rw (lottery_inb _ _ p) //. apply Z.mod_pos_bound. lia. }
  pose proof (countb_residues_bounds lo (lo + stake p) T (2 ^ 31) ltac:(lia) ltac:(lia)
    ltac:(lia) ltac:(lia)) as H.
  rw -(stake_runnable p Hr). replace (lo + stake p - lo) with (stake p) in H by lia. exact H.
Qed.

(** ** A round of [scheduler] *)

Section round.
Context {K : Type} `{!ProcEnv K}.
Implicit Types s : pstate K.

(** Loading a process's segment and page-table registers does not fail. *)
Hypothesis load_ok : ∀ pg sp e, ∃ e', env_load_uvm pg sp e = Ok (tt, e').

Lemma unpushed_nested c : 0 < c_ncli c → unpushed c = c.
Proof.
  intros H. rw /unpushed /set_intena. destruct (Z.eqb_spec (c_ncli c) 0); [lia|]. by destruct c.
Qed.

Lemma switchuvm_ok s i p :
  cpu_sched (ps_cpu s) → ps_proc s !! i = Some p → p_kstack p ≠ 0 → p_pgdir p ≠ 0 →
  ∃ e, switchuvm i s = Ok (tt, set_env e s).
Proof.
  intros (Hn & Hf & Hh) Hi Hk Hp. rw /switchuvm /getp. mget.
  rw (list_lookup_total_correct _ _ _ Hi).
  destruct (Z.eqb_spec (p_kstack p) 0); [done|]. destruct (Z.eqb_spec (p_pgdir p) 0); [done|].
  mnext (apply on_cpu_ok, pushcli_ok; lia). mnext (by apply on_cpu_ok, mycpu_ok).
  destruct (load_ok (p_pgdir p) (u32 (p_kstack p + KSTACKSIZE)) (ps_env s)) as [e He].
  mnext (by apply on_env_ok). exists e.
  rw (on_cpu_ok _ _ tt (ps_cpu s)); [|by destruct s].
  etransitivity; [apply (push_pop (ps_cpu s)); [lia|done]|]. rw unpushed_nested //. lia.
Qed.

(** What [scheduler] does up to the lottery. *)
Lemma scheduler_start s :
  cpu_idle (ps_cpu s) →
  on_cpu (modify (set_if true)) s = Ok (tt, set_cpu (set_if true (ps_cpu s)) s) ∧
  on_cpu (acquire Lk_ptable) (set_cpu (set_if true (ps_cpu s)) s)
  = Ok (tt, set_cpu (mkCpu 1 true false (c_proc (ps_cpu s)) {[Lk_ptable]}) s).
Proof.
  intros Hc. split; [done|].
  rw (on_cpu_ok _ _ tt (mkCpu 1 true false (c_proc (ps_cpu s)) {[Lk_ptable]})); [|done].
  by apply (acquire_ptable_idle (set_if true (ps_cpu s))).
Qed.

(** The table can be scheduled from: RUNNABLE processes have a kernel stack and a
    page table. *)
Definition runnable_ok (ps : list proc) : Prop :=
  ∀ i p, ps !! i = Some p → p_state p = RUNNABLE → p_kstack p ≠ 0 ∧ p_pgdir p ≠ 0.

Lemma lottery_total ps w :
  stakes_ok ps → 0 ≤ w < Zsum stake ps → is_Some (lottery ps w).
Proof.
  intros Hok Hw.
  assert (∀ l, stakes_ok l → 0 ≤ w < Zsum stake l →
    ∃ k p, l !! k = Some p ∧ Zsum stake (take k l) ≤ w < Zsum stake (take k l) + stake p) as H.
  { clear. intros l. induction l as [|p l IH] using rev_ind => Hok Hw; [simpl in *; lia|].
    rw Zsum_app /= in Hw. destruct (decide (w < Zsum stake l)) as [Hl|Hl].
    - destruct IH as (k & q & Hk & Hq); [|lia|].
      { destruct Hok as [[Ha ?]%Forall_app Hb]. split; [done|]. rw Zsum_app /= in Hb.
        apply Forall_cons in H as [H _]. simpl in H. lia. }
      exists k, q. rw lookup_app_l; [by eapply lookup_lt_Some|]. split; [done|].
      rw take_app_le //. apply lookup_lt_Some in Hk. lia.
    - exists (length l), p. rw lookup_app_r // Nat.sub_diag take_app_length. split; [done|lia]. }
  destruct (H ps Hok Hw) as (k & p & Hk & Hp). exists k. by apply (lottery_interval _ _ _ p); [|lia|..].
Qed.

End round.

(** ** Ticket totals that overflow *)

(** The first loop in general: the sum reduced to an [int]. *)
Lemma total_tickets_wrap ps t :
  -2147483648 ≤ t < 2147483648 → total_tickets ps t = s32 (t + Zsum stake ps).
Proof.
  revert t. induction ps as [|p ps IH] => t Ht /=.
  { rw Z.add_0_r s32_small //. }
  case_decide as Hst.
  - rw (stake_other p) // IH //.
  - apply stake_runnable in Hst. rw -Hst IH; [apply s32_range|].
    generalize (Zsum stake ps) (stake p). intros. clia.
Qed.

Section overflow.
Context {K : Type} `{!ProcEnv K}.
Implicit Types s : pstate K.

Lemma scheduler_none s :
  cpu_idle (ps_cpu s) → total_tickets (ps_proc s) 0 ≤ 0 →
  scheduler s = Ok (None, set_cpu (mkCpu 0 true true (c_proc (ps_cpu s)) ∅) s).
Proof.
  intros Hc HT. destruct (scheduler_start s Hc) as [E1 E2].
  rw /scheduler. mgo E1. mgo E2. mget. cbn [ps_proc set_cpu].
  destruct (Z.ltb_spec 0 (total_tickets (ps_proc s) 0)); [lia|].
  mnext (by apply on_cpu_ok, (release_ptable_sched (mkCpu 1 true false (c_proc (ps_cpu s)) _))).
  done.
Qed.

(** [n] rounds of the scheduler's loop that find nothing to run. *)
Fixpoint idle_rounds (n : nat) : M (pstate K) bool :=
  match n with
  | O => mret true
  | S n =>
      o ← scheduler;
      match o with
      | Some _ => mret false
      | None => idle_rounds n
      end
  end.

(** Ticket totals can overflow, and then nothing runs.  [sys_settickets] accepts
    every [int] from 10 up, so the RUNNABLE processes' tickets can add up to
    between [2^31] and [2^32]; the [int] total is then not positive, and every
    round of the scheduler, however many, selects no process and leaves the
    process table as it is, although RUNNABLE processes wait. *)
Theorem ticket_overflow_starves s n :
  cpu_idle (ps_cpu s) → 2147483648 ≤ Zsum stake (ps_proc s) ≤ 4294967296 →
  ∃ s', idle_rounds n s = Ok (true, s') ∧ ps_proc s' = ps_proc s ∧ ps_rseed s' = ps_rseed s.
Proof.
  revert s. induction n as [|n IH] => s Hc HS; [by exists s|].
  assert (total_tickets (ps_proc s) 0 ≤ 0) as HT.
  { rw total_tickets_wrap // Z.add_0_l. clia. }
  cbn [idle_rounds]. mgo (scheduler_none s Hc HT).
  set (s1 := set_cpu _ _). destruct (IH s1) as (s' & E & H1 & H2); [done..|].
  exists s'. by split_and!.
Qed.
End overflow.

(** ** Examples *)

(** A RUNNABLE process with [t] tickets. *)
Definition runnable_proc (pid t : Z) : proc :=
  set_tickets t (set_pid pid (set_state RUNNABLE (set_kstack KERNLINK (set_pgdir KERNLINK proc_zero)))).

Definition example_state (ps : list proc) : pstate unit :=
  mkPs ps 10 1898888478 (Some 0%nat) example_cpu tt.

Definition fair_table : list proc := [runnable_proc 1 10; runnable_proc 2 20; proc_zero; runnable_proc 3 10].
Definition greedy_table : list proc := [runnable_proc 1 1500000000; runnable_proc 2 1500000000].

Lemma fair_table_ok : stakes_ok fair_table.
Proof. split; [repeat constructor; vm_compute; done|by vm_compute]. Qed.

Lemma lottery_proportional_witness :
  total_tickets fair_table 0 = 40 ∧
  countb (λ w, bool_decide (lottery fair_table w = Some 1%nat)) (seqZ 0 (total_tickets fair_table 0)) = 20.
Proof. apply (lottery_proportional fair_table 1 (runnable_proc 2 20)); [apply fair_table_ok|done]. Defined.

Lemma lottery_fair_over_period_witness :
  20 * (2 ^ 31 / total_tickets fair_table 0)
  ≤ countb (λ n, bool_decide (lottery fair_table
      (Z.rem (random_iter (Z.to_nat n) 1898888478) (total_tickets fair_table 0)) = Some 1%nat))
      (seqZ 1 (2 ^ 31))
  ≤ 20 * (2 ^ 31 / total_tickets fair_table 0 + 1).
Proof.
  apply (lottery_fair_over_period fair_table 1 (runnable_proc 2 20) 1898888478).
  - apply fair_table_ok.
  - by vm_compute.
  - reflexivity.
  - reflexivity.
Defined.


Lemma ticket_overflow_starves_witness :
  ∃ s', idle_rounds 1000 (example_state greedy_table) = Ok (true, s') ∧
    ps_proc s' = greedy_table ∧ ps_rseed s' = 1898888478.
Proof.
  apply (ticket_overflow_starves (example_state greedy_table) 1000).
  - by vm_compute.
  - by vm_compute.
Defined.
