(* ===== verification/Sys.v ===== *)
(** * The multiprocessor system (proc.c)

    Several CPUs run proc.c over one process table: a step relation whose steps
    are the scheduler's and the processes' operations of Proc, and the invariant
    of the process table over every run. *)

From S2P Require Import Prelude Params Spinlock Proc.

(** ** Rules for the operations' building blocks *)

Section rules.
Context {K : Type}.
Implicit Types s : pstate K.

Lemma wlp_on_cpu {A} (m : M cpu A) Q s :
  wlp m (λ a c, Q a (set_cpu c s)) (ps_cpu s) → wlp (on_cpu m) Q s.
Proof.
  intros H a s'. rw /on_cpu /lift. destruct (m (ps_cpu s)) as [[b c]| |] eqn:E; [|done..].
  intros [= <- <-]. by apply H.
Qed.
Lemma wlp_on_env {A} (m : M K A) Q s :
  (∀ a e, Q a (set_env e s)) → wlp (on_env m) Q s.
Proof.
  intros H a s'. rw /on_env /lift. destruct (m (ps_env s)) as [[b c]| |] eqn:E; [|done..].
  by intros [= <- <-].
Qed.
Lemma wlp_getp {A} i (f : proc → A) Q s : Q (f (ps_proc s !!! i)) s → wlp (getp i f) Q s.
Proof. by intros H b s' [= <- <-]. Qed.
Lemma wlp_updp i f Q s : Q tt (set_procs (alter f i (ps_proc s)) s) → wlp (updp i f) Q s.
Proof. intros H [] s' E. rw /updp /modify in E. injection E as <-. done. Qed.

(** Lock operations keep the CPU's current process. *)
Lemma wlp_pushcli Q c : (∀ c', c_proc c' = c_proc c → Q tt c') → wlp pushcli Q c.
Proof.
  intros H. rw /pushcli. repeat wstep. apply wlp_when => _; repeat wstep; by apply H.
Qed.
Lemma wlp_popcli Q c : (∀ c', c_proc c' = c_proc c → Q tt c') → wlp popcli Q c.
Proof.
  intros H. rw /popcli. repeat wstep. case_match; [apply wlp_panic|]. repeat wstep.
  case_match; [apply wlp_panic|]. repeat wstep. apply wlp_when => _; repeat wstep; by apply H.
Qed.
Lemma wlp_mycpu Q c : Q tt c → wlp mycpu Q c.
Proof. intros H. rw /mycpu. repeat wstep. case_match; by repeat wstep. Qed.
Lemma wlp_myproc Q c : (∀ c', c_proc c' = c_proc c → Q (c_proc c) c') → wlp myproc Q c.
Proof.
  intros H. rw /myproc. wstep. apply wlp_pushcli => c1 E1. wstep. apply wlp_mycpu. repeat wstep.
  apply wlp_popcli => c2 E2. wstep. rw E1. apply H. congruence.
Qed.
Lemma wlp_holding lk Q c : (∀ b c', c_proc c' = c_proc c → Q b c') → wlp (holding lk) Q c.
Proof.
  intros H. rw /holding. wstep. apply wlp_pushcli => c1 E1. wstep. apply wlp_mycpu. repeat wstep.
  apply wlp_popcli => c2 E2. wstep. apply H. congruence.
Qed.
Lemma wlp_acquire lk Q c : (∀ c', c_proc c' = c_proc c → Q tt c') → wlp (acquire lk) Q c.
Proof.
  intros H. rw /acquire. wstep. apply wlp_pushcli => c1 E1. wstep. apply wlp_holding => b c2 E2.
  case_match; [apply wlp_panic|]. wstep. apply wlp_mycpu. wstep. apply H. simpl. congruence.
Qed.
Lemma wlp_release lk Q c : (∀ c', c_proc c' = c_proc c → Q tt c') → wlp (release lk) Q c.
Proof.
  intros H. rw /release. wstep. apply wlp_holding => b c1 E1. case_match; [apply wlp_panic|].
  repeat wstep. apply wlp_popcli => c2 E2. apply H. simpl in E2. congruence.
Qed.

(** What the table's invariant reads of the state. *)
Definition st s (l : list proc) (next : Z) (ini o : option nat) : Prop :=
  ps_proc s = l ∧ ps_nextpid s = next ∧ ps_initproc s = ini ∧ c_proc (ps_cpu s) = o.

Lemma st_self s : st s (ps_proc s) (ps_nextpid s) (ps_initproc s) (c_proc (ps_cpu s)).
Proof. done. Qed.

Lemma st_acquire lk Q s l n ini o :
  st s l n ini o → (∀ s', st s' l n ini o → Q tt s') → wlp (on_cpu (acquire lk)) Q s.
Proof.
  intros (?&?&?&?) HQ. apply wlp_on_cpu, wlp_acquire => c' E. apply HQ. split_and!; simpl; congruence.
Qed.
Lemma st_release lk Q s l n ini o :
  st s l n ini o → (∀ s', st s' l n ini o → Q tt s') → wlp (on_cpu (release lk)) Q s.
Proof.
  intros (?&?&?&?) HQ. apply wlp_on_cpu, wlp_release => c' E. apply HQ. split_and!; simpl; congruence.
Qed.
Lemma st_holding lk Q s l n ini o :
  st s l n ini o → (∀ b s', st s' l n ini o → Q b s') → wlp (on_cpu (holding lk)) Q s.
Proof.
  intros (?&?&?&?) HQ. apply wlp_on_cpu, wlp_holding => b c' E. apply HQ. split_and!; simpl; congruence.
Qed.
Lemma st_myproc Q s l n ini o :
  st s l n ini o → (∀ s', st s' l n ini o → Q o s') → wlp (on_cpu myproc) Q s.
Proof.
  intros (?&?&?&?) HQ. apply wlp_on_cpu, wlp_myproc => c' E.
  replace (c_proc (ps_cpu s)) with o by done. apply HQ. split_and!; simpl; congruence.
Qed.
Lemma st_curproc Q s l n ini me :
  st s l n ini (Some me) → (∀ s', st s' l n ini (Some me) → Q me s') → wlp curproc Q s.
Proof.
  intros Hs H. apply wlp_bind. eapply st_myproc; [done|]. intros s' Hs'. by apply wlp_ret, H.
Qed.
Lemma st_env {A} (m : M K A) Q s l n ini o :
  st s l n ini o → (∀ a s', st s' l n ini o → Q a s') → wlp (on_env m) Q s.
Proof. intros Hs H. apply wlp_on_env => a e. by apply H. Qed.
Lemma st_getp {A} i (f : proc → A) Q s l n ini o p :
  st s l n ini o → l !! i = Some p → Q (f p) s → wlp (getp i f) Q s.
Proof.
  intros (El&_) Hp H. apply wlp_getp. by rw El (list_lookup_total_correct _ _ _ Hp).
Qed.
Lemma st_updp i f Q s l n ini o p :
  st s l n ini o → l !! i = Some p →
  (∀ s', st s' (<[i := f p]> l) n ini o → Q tt s') → wlp (updp i f) Q s.
Proof.
  intros (El&?&?&?) Hp HQ. apply wlp_updp, HQ. split_and!; [|done..]. simpl.
  by rw El (list_alter_insert_Some _ _ _ _ Hp).
Qed.
Lemma st_gets_proc Q s l n ini o : st s l n ini o → Q l s → wlp (gets ps_proc) Q s.
Proof. intros (El&_) HQ. apply wlp_gets. by rw El. Qed.
Lemma st_gets_nextpid Q s l n ini o : st s l n ini o → Q n s → wlp (gets ps_nextpid) Q s.
Proof. intros (_&El&_) HQ. apply wlp_gets. by rw El. Qed.
Lemma st_gets_initproc Q s l n ini o : st s l n ini o → Q ini s → wlp (gets ps_initproc) Q s.
Proof. intros (_&_&El&_) HQ. apply wlp_gets. by rw El. Qed.
Lemma st_set_nextpid x Q s l n ini o :
  st s l n ini o → (∀ s', st s' l x ini o → Q tt s') → wlp (modify (set_nextpid x)) Q s.
Proof. intros (?&?&?&?) HQ. apply wlp_modify, HQ. by split_and!. Qed.
Lemma st_set_initproc x Q s l n ini o :
  st s l n ini o → (∀ s', st s' l n x o → Q tt s') → wlp (modify (set_initproc x)) Q s.
Proof. intros (?&?&?&?) HQ. apply wlp_modify, HQ. by split_and!. Qed.
Lemma st_wakeup1 c Q s l n ini o :
  st s l n ini o → (∀ s', st s' (wakeup1_proc c <$> l) n ini o → Q tt s') → wlp (wakeup1 c) Q s.
Proof.
  intros (El&?&?&?) HQ. intros a s' [= <- <-]. apply HQ. split_and!; [|done..]. simpl. by rw El.
Qed.
End rules.

(** ** The invariant of the process table *)

(** A slot in use; a process that runs or can run again. *)
Definition live (p : proc) : Prop := p_state p ≠ UNUSED.
Definition active (p : proc) : Prop := p_state p ∈ [SLEEPING; RUNNABLE; RUNNING].

#[export] Instance active_dec p : Decision (active p) := _.

Record table_inv (l : list proc) (next : Z) (ini : option nat) (run : nat → Prop) : Prop := {
  t_len : length l = Z.to_nat NPROC;
  t_next : 0 < next ≤ 2147483647;
  (* RUNNING is exactly: some CPU runs it *)
  t_run i p : l !! i = Some p → p_state p = RUNNING ↔ run i;
  t_dom i : run i → is_Some (l !! i);
  (* pids are positive, below nextpid, and no two live processes share one *)
  t_pid i p : l !! i = Some p → live p → 0 < p_pid p < next;
  t_pid_inj i j p q : l !! i = Some p → l !! j = Some q → live p → live q →
    p_pid p = p_pid q → i = j;
  (* a process that can run has a kernel stack and a page table *)
  t_ready i p : l !! i = Some p → active p → p_kstack p ≠ 0 ∧ p_pgdir p ≠ 0;
  (* parents, and init, are neither dead nor embryos *)
  t_parent i p j : l !! i = Some p → p_parent p = Some j → ∃ q, l !! j = Some q ∧ active q;
  t_init j : ini = Some j → ∃ q, l !! j = Some q ∧ active q;
}.

(** Replacing one slot. *)
Lemma table_inv_update l next next' ini run run' i p p' :
  table_inv l next ini run → l !! i = Some p → next ≤ next' ≤ 2147483647 →
  (p_state p' = RUNNING ↔ run' i) → (∀ j, j ≠ i → run j ↔ run' j) →
  (live p' → 0 < p_pid p' < next' ∧
     ∀ j q, j ≠ i → l !! j = Some q → live q → p_pid q ≠ p_pid p') →
  (active p' → p_kstack p' ≠ 0 ∧ p_pgdir p' ≠ 0) →
  (∀ j, p_parent p' = Some j → (j = i → active p') ∧ ∃ q, l !! j = Some q ∧ active q) →
  (active p → active p' ∨ ini ≠ Some i ∧ ∀ j q, l !! j = Some q → p_parent q ≠ Some i) →
  table_inv (<[i := p']> l) next' ini run'.
Proof.
  intros HI Hp Hn Hrun Hrun' Hpid Hready Hpar Hact.
  assert (∀ j q, <[i:=p']> l !! j = Some q → j = i ∧ q = p' ∨ j ≠ i ∧ l !! j = Some q) as Hl.
  { intros j q [(<- & -> & _)|[? ?]]%list_lookup_insert_Some; naive_solver. }
  assert (i < length l)%nat as Hi by by eapply lookup_lt_Some.
  assert (∀ j q, l !! j = Some q → active q →
    (∃ k r, l !! k = Some r ∧ p_parent r = Some j) ∨ ini = Some j →
    ∃ q', <[i:=p']> l !! j = Some q' ∧ active q') as Hkeep.
  { intros j q Hj Hq Hwhy. destruct (decide (j = i)) as [->|].
    - exists p'. rw list_lookup_insert_eq //. split; [done|].
      rw Hj in Hp. simplify_eq. destruct (Hact Hq) as [|[Hni Hnp]]; [done|]. naive_solver.
    - exists q. by rw list_lookup_insert_ne. }
  destruct HI as [L N R D P PI RD PA IN]. split.
  - by rw length_insert.
  - lia.
  - intros j q [[-> ->]|[Hne Hq]]%Hl; [done|]. rw -Hrun' //. by apply R.
  - intros j Hj. destruct (decide (j = i)) as [->|]; [by rw list_lookup_insert_eq|].
    rw list_lookup_insert_ne //. by apply D, Hrun'.
  - intros j q [[-> ->]|[Hne Hq]]%Hl Hlive; [by apply Hpid|]. specialize (P _ _ Hq Hlive). lia.
  - intros j k q r [[-> ->]|[Hne Hq]]%Hl [[-> ->]|[Hne' Hr]]%Hl Hlq Hlr E; [done| | |by eapply PI].
    + destruct (Hpid Hlq) as [_ Hd]. by destruct (Hd k r).
    + destruct (Hpid Hlr) as [_ Hd]. by destruct (Hd j q).
  - intros j q [[-> ->]|[Hne Hq]]%Hl Ha; [by apply Hready|]. by eapply RD.
  - intros j q k [[-> ->]|[Hne Hq]]%Hl Hk.
    + destruct (Hpar k Hk) as (Hki & r & Hr & Har).
      destruct (decide (k = i)) as [->|]; [exists p'; rw list_lookup_insert_eq //; auto|].
      exists r. by rw list_lookup_insert_ne.
    + destruct (PA _ _ _ Hq Hk) as (r & Hr & Har). apply (Hkeep k r); naive_solver.
  - intros j Hj. destruct (IN j Hj) as (r & Hr & Har). apply (Hkeep j r); naive_solver.
Qed.

(** Changes the invariant does not see: waking a sleeper, and every change that
    keeps state, pid, parent, kernel stack and page table. *)
Definition quiet (p p' : proc) : Prop :=
  p_pid p' = p_pid p ∧ p_parent p' = p_parent p ∧ p_kstack p' = p_kstack p ∧
  p_pgdir p' = p_pgdir p ∧
  (p_state p' = p_state p ∨ p_state p = SLEEPING ∧ p_state p' = RUNNABLE).

#[export] Instance quiet_preorder : PreOrder quiet.
Proof.
  split; [by repeat split; auto|].
  intros p q r (?&?&?&?&Hs) (?&?&?&?&Hs'). split_and!; try congruence.
  destruct Hs as [|[]], Hs' as [|[]]; try (left; congruence); right; split; congruence.
Qed.

Lemma quiet_refl' l : Forall2 quiet l l.
Proof. apply Forall_Forall2_diag, Forall_true => p. reflexivity. Qed.
Lemma quiet_trans' l l' l'' : Forall2 quiet l l' → Forall2 quiet l' l'' → Forall2 quiet l l''.
Proof. apply (transitivity (R := Forall2 quiet)). Qed.
Lemma quiet_insert l i p p' : l !! i = Some p → quiet p p' → Forall2 quiet l (<[i := p']> l).
Proof.
  intros Hp Hq. rw -{1}(list_insert_id l i p Hp). apply Forall2_insert; [|done]. apply quiet_refl'.
Qed.
Lemma quiet_wakeup c l : Forall2 quiet l (wakeup1_proc c <$> l).
Proof.
  apply Forall2_fmap_r, Forall_Forall2_diag, Forall_true => p. rw /compose /wakeup1_proc.
  case_decide; [|reflexivity]. split_and!; [done..|]. naive_solver.
Qed.

Lemma quiet_active p p' : quiet p p' → active p' ↔ active p.
Proof.
  rw /active. intros (_&_&_&_&[->|[-> ->]]); [done|]. set_solver.
Qed.
Lemma quiet_live p p' : quiet p p' → live p' ↔ live p.
Proof. rw /live. intros (_&_&_&_&[->|[-> ->]]); done. Qed.
Lemma quiet_running p p' : quiet p p' → p_state p' = RUNNING ↔ p_state p = RUNNING.
Proof. intros (_&_&_&_&[->|[-> ->]]); done. Qed.

Lemma table_inv_quiet l l' next ini run :
  table_inv l next ini run → Forall2 quiet l l' → table_inv l' next ini run.
Proof.
  intros HI HQ.
  assert (∀ i p', l' !! i = Some p' → ∃ p, l !! i = Some p ∧ quiet p p') as Hb.
  { intros i p' Hp'. destruct (Forall2_lookup_r _ _ _ _ _ HQ Hp') as (p & ? & ?). eauto. }
  assert (∀ i p, l !! i = Some p → active p → ∃ p', l' !! i = Some p' ∧ active p') as Hf.
  { intros i p Hp Ha. destruct (Forall2_lookup_l _ _ _ _ _ HQ Hp) as (p' & ? & Hq).
    exists p'. by rw quiet_active. }
  destruct HI as [L N R D P PI RD PA IN]. split; try done.
  - by rw -(Forall2_length _ _ _ HQ).
  - intros i p' (p & Hp & Hq)%Hb. rw (quiet_running p) //. by apply R.
  - intros i [p Hp]%D. destruct (Forall2_lookup_l _ _ _ _ _ HQ Hp) as (p' & ? & _). by exists p'.
  - intros i p' (p & Hp & Hq)%Hb Hl. pose proof Hq as (-> & _).
    by apply (P i p Hp), (quiet_live p p').
  - intros i j p' q' (p & Hp & Hpq)%Hb (q & Hq & Hqq)%Hb H1 H2 E.
    apply (PI i j p q Hp Hq); [by apply (quiet_live p p')|by apply (quiet_live q q')|].
    destruct Hpq as (<-&_), Hqq as (<-&_). done.
  - intros i p' (p & Hp & Hq)%Hb Ha. pose proof Hq as (_&_&->&->&_).
    by apply (RD i p Hp), (quiet_active p p').
  - intros i p' j (p & Hp & Hq)%Hb Hj. pose proof Hq as (_&E&_). rw E in Hj.
    destruct (PA _ _ _ Hp Hj) as (q & Hjq & Ha). by eapply Hf.
  - intros j Hj. destruct (IN j Hj) as (q & Hjq & Ha). by eapply Hf.
Qed.

Lemma table_inv_run l next ini run run' :
  table_inv l next ini run → (∀ i, run i ↔ run' i) → table_inv l next ini run'.
Proof. intros [L N R D P PI RD PA IN] HE. split; try done; [intros i p Hp|intros i Hi]; [rw -HE; by apply R|by apply D, HE]. Qed.

(** ** What the operations do to the table *)

(** Lookups in a table with one slot replaced. *)
Ltac slot :=
  solve [ eassumption
        | rewrite -> list_lookup_insert_eq by assumption; reflexivity
        | rewrite -> list_lookup_insert_ne by congruence; eassumption ].

(** One call of an operation's body, on a state known through [st]. *)
Ltac sgo :=
  let s' := fresh "s" in
  lazymatch goal with
  | |- wlp (_ ≫= _) _ _ => apply wlp_bind; sgo
  | H : st ?s _ _ _ _ |- wlp (on_cpu (acquire _)) _ ?s =>
      apply (st_acquire _ _ _ _ _ _ _ H); clear H; intros s' H; try clear s
  | H : st ?s _ _ _ _ |- wlp (on_cpu (release _)) _ ?s =>
      apply (st_release _ _ _ _ _ _ _ H); clear H; intros s' H; try clear s
  | H : st ?s _ _ _ _ |- wlp (on_cpu myproc) _ ?s =>
      apply (st_myproc _ _ _ _ _ _ H); clear H; intros s' H; try clear s
  | H : st ?s _ _ _ _ |- wlp curproc _ ?s =>
      apply (st_curproc _ _ _ _ _ _ H); clear H; intros s' H; try clear s
  | H : st ?s _ _ _ _ |- wlp (on_env _) _ ?s =>
      apply (st_env _ _ _ _ _ _ _ H); clear H; intros ? s' H; try clear s
  | H : st ?s _ _ _ _ |- wlp (getp _ _) _ ?s => eapply (st_getp _ _ _ _ _ _ _ _ _ H); [slot|]
  | H : st ?s _ _ _ _ |- wlp (updp _ _) _ ?s =>
      eapply (st_updp _ _ _ _ _ _ _ _ _ H); [slot|]; clear H; intros s' H; try clear s;
      rw ?list_insert_insert_eq in H
  | H : st ?s _ _ _ _ |- wlp (wakeup1 _) _ ?s =>
      apply (st_wakeup1 _ _ _ _ _ _ _ H); clear H; intros s' H; try clear s
  | H : st ?s _ _ _ _ |- wlp (gets ps_proc) _ ?s => apply (st_gets_proc _ _ _ _ _ _ H)
  | H : st ?s _ _ _ _ |- wlp (gets ps_nextpid) _ ?s => apply (st_gets_nextpid _ _ _ _ _ _ H)
  | H : st ?s _ _ _ _ |- wlp (gets ps_initproc) _ ?s => apply (st_gets_initproc _ _ _ _ _ _ H)
  | H : st ?s _ _ _ _ |- wlp (modify (set_nextpid _)) _ ?s =>
      apply (st_set_nextpid _ _ _ _ _ _ _ H); clear H; intros s' H; try clear s
  | H : st ?s _ _ _ _ |- wlp (modify (set_initproc _)) _ ?s =>
      apply (st_set_initproc _ _ _ _ _ _ _ H); clear H; intros s' H; try clear s
  | |- wlp (mret _) _ _ => apply wlp_ret
  | |- wlp (panic _) _ _ => apply wlp_panic
  end; cbn beta.

Section effects.
Context {K : Type} `{!ProcEnv K}.
Implicit Types s : pstate K.
Variables (forkret_addr trapret_addr : Z) (initcode : list Z).

(** [allocproc]: no slot; a slot but no stack; or an embryo. *)
Lemma st_allocproc Q s l n ini o :
  st s l n ini o →
  (∀ s', st s' l n ini o → Q None s') →
  (∀ s' i p, l !! i = Some p → p_state p = UNUSED →
     st s' (<[i := set_state UNUSED (set_kstack 0 (set_pid n (set_state EMBRYO p)))]> l)
       (s32 (n + 1)) ini o → Q None s') →
  (∀ s' i p k, l !! i = Some p → p_state p = UNUSED → k ≠ 0 →
     st s' (<[i := set_ctx (mkContext 0 0 0 0 forkret_addr)
             (set_ctxp (k + KSTACKSIZE - sizeof_trapframe - 4 - sizeof_context) (set_ret trapret_addr
             (set_tfp (k + KSTACKSIZE - sizeof_trapframe)
             (set_kstack k (set_pid n (set_state EMBRYO p))))))]> l) (s32 (n + 1)) ini o →
     Q (Some i) s') →
  wlp (allocproc forkret_addr trapret_addr) Q s.
Proof.
  intros Hs Hfull Hnomem Hok. rw /allocproc. sgo. sgo.
  destruct (list_find _ l) as [[i p]|] eqn:F; [|sgo; sgo; by apply Hfull].
  apply list_find_Some in F as (Hp & Hu & _).
  assert (i < length l)%nat by by eapply lookup_lt_Some.
  do 7 sgo. destruct (Z.eqb_spec a 0) as [->|Hk]; [sgo; sgo; by eapply Hnomem|].
  do 5 sgo. by eapply Hok.
Qed.

Lemma st_wakeup c Q s l n ini o :
  st s l n ini o → (∀ s', st s' (wakeup1_proc c <$> l) n ini o → Q tt s') → wlp (wakeup c) Q s.
Proof. intros Hs HQ. rw /wakeup. sgo. sgo. sgo. by apply HQ. Qed.

Lemma st_wakeups cs Q s l n ini o :
  st s l n ini o → (∀ s' l', Forall2 quiet l l' → st s' l' n ini o → Q tt s') →
  wlp (wakeups cs) Q s.
Proof.
  revert s l. induction cs as [|c cs IH] => s l Hs HQ /=.
  { apply wlp_ret, (HQ s l); [apply quiet_refl'|done]. }
  apply wlp_bind. eapply st_wakeup; [done|]. intros s1 H1. eapply IH; [done|].
  intros s2 l2 Hq. apply HQ. eapply quiet_trans'; [apply quiet_wakeup|done].
Qed.
End effects.

(** ** Every operation keeps the invariant *)

(** The invariant seen from one CPU: [R] are the processes other CPUs run, [o] is
    its own. *)
Definition tinv (R : nat → Prop) (l : list proc) (n : Z) (ini o : option nat) : Prop :=
  table_inv l n ini (λ i, R i ∨ o = Some i) ∧ (∀ i, o = Some i → ¬ R i).
(** ... and between a process's [swtch] and the scheduler's next instruction. *)
Definition tout (R : nat → Prop) (l : list proc) (n : Z) (ini : option nat) (me : nat) : Prop :=
  table_inv l n ini R ∧ ¬ R me ∧ is_Some (l !! me).

Definition pinv {K} (R : nat → Prop) (s : pstate K) : Prop :=
  tinv R (ps_proc s) (ps_nextpid s) (ps_initproc s) (c_proc (ps_cpu s)).
Definition pout {K} (R : nat → Prop) (me : nat) (s : pstate K) : Prop :=
  tout R (ps_proc s) (ps_nextpid s) (ps_initproc s) me ∧ c_proc (ps_cpu s) = Some me.

Lemma pinv_st {K} R (s : pstate K) l n ini o : st s l n ini o → tinv R l n ini o → pinv R s.
Proof. by intros (<-&<-&<-&<-). Qed.
Lemma pout_st {K} R (s : pstate K) l n ini me :
  st s l n ini (Some me) → tout R l n ini me → pout R me s.
Proof. by intros (<-&<-&<-&E). Qed.

Lemma tinv_quiet R l l' n ini o : tinv R l n ini o → Forall2 quiet l l' → tinv R l' n ini o.
Proof. intros [H ?] HQ. split; [|done]. by eapply table_inv_quiet. Qed.

Lemma tinv_me R l n ini me : tinv R l n ini (Some me) → ∃ p, l !! me = Some p ∧ p_state p = RUNNING.
Proof.
  intros [H HR]. destruct (t_dom _ _ _ _ H me) as [p Hp]; [by right|].
  exists p. split; [done|]. apply (t_run _ _ _ _ H me p Hp). by right.
Qed.

(** The current process gives up the CPU for another state. *)
Lemma tinv_leave R l n ini me p p' :
  tinv R l n ini (Some me) → l !! me = Some p →
  p_pid p' = p_pid p → p_parent p' = p_parent p → p_kstack p' = p_kstack p →
  p_pgdir p' = p_pgdir p → p_state p' = RUNNABLE ∨ p_state p' = SLEEPING →
  tout R (<[me := p']> l) n ini me.
Proof.
  intros [HI HR] Hp E1 E2 E3 E4 Est. split_and!; [|by apply HR|rw list_lookup_insert_eq //; by eapply lookup_lt_Some].
  assert (p_state p = RUNNING) as Er by by apply (t_run _ _ _ _ HI me p Hp); right.
  assert (active p) as Ha by (rw /active Er; set_solver).
  assert (live p) as Hl by by rw /live Er.
  assert (active p') as Ha' by (rw /active; destruct Est as [->| ->]; set_solver).
  eapply table_inv_update; [done|done|pose proof (t_next _ _ _ _ HI); lia|..].
  - split; [destruct Est; congruence|]. intros H. by destruct (HR me).
  - intros j Hj. split; [intros [?|[= ->]]; done|by left].
  - intros _. rw E1. split; [by apply (t_pid _ _ _ _ HI me p Hp)|].
    intros j q Hne Hq Hlq E. by apply Hne, (t_pid_inj _ _ _ _ HI j me q p).
  - intros _. rw E3 E4. by apply (t_ready _ _ _ _ HI me p Hp).
  - rw E2. intros j Hj. split; [done|]. by apply (t_parent _ _ _ _ HI me p j).
  - by left.
Qed.

(** A free slot stays free, or becomes a new process. *)
Lemma tinv_unused R l n n' ini o i p p' :
  tinv R l n ini o → l !! i = Some p → p_state p = UNUSED → p_state p' = UNUSED →
  p_parent p' = p_parent p → n ≤ n' ≤ 2147483647 → tinv R (<[i := p']> l) n' ini o.
Proof.
  intros [HI HR] Hp Hu Hu' Epar Hn. split; [|done].
  eapply table_inv_update; [done|done|lia|..]; rw /live /active ?Hu' ?Hu.
  - rw -(t_run _ _ _ _ HI i p Hp) Hu. done.
  - done.
  - done.
  - set_solver.
  - rw Epar. intros j Hj. destruct (t_parent _ _ _ _ HI i p j Hp Hj) as (q & Hq & Ha).
    split; [|by exists q]. intros ->. simplify_eq. by rw /active Hu in Ha.
  - set_solver.
Qed.

Lemma tinv_new R l n ini o i p p' :
  tinv R l n ini o → l !! i = Some p → p_state p = UNUSED → n < 2147483647 →
  p_state p' = RUNNABLE → p_pid p' = n → p_kstack p' ≠ 0 → p_pgdir p' ≠ 0 →
  (∀ j, p_parent p' = Some j → ∃ q, l !! j = Some q ∧ active q) →
  tinv R (<[i := p']> l) (n + 1) ini o.
Proof.
  intros [HI HR] Hp Hu Hn Hs' Hpid Hk Hpg Hpar. split; [|done].
  pose proof (t_next _ _ _ _ HI) as Hn0.
  assert (active p') as Ha' by (rw /active Hs'; set_solver).
  eapply table_inv_update; [done|done|lia|..].
  - rw -(t_run _ _ _ _ HI i p Hp) Hu Hs'. done.
  - done.
  - intros _. split; [lia|]. intros j q Hj Hq Hlq.
    pose proof (t_pid _ _ _ _ HI j q Hq Hlq). lia.
  - done.
  - intros j Hj. split; [done|by apply Hpar].
  - by left.
Qed.

(** A child passes to init. *)
Lemma tinv_reparent R l n ini o i p :
  tinv R l n ini o → l !! i = Some p → tinv R (<[i := set_parent ini p]> l) n ini o.
Proof.
  intros [HI HR] Hp. split; [|done].
  pose proof (t_next _ _ _ _ HI). eapply table_inv_update; [done|done|lia|..].
  - by apply (t_run _ _ _ _ HI i p).
  - done.
  - intros Hl. split; [by apply (t_pid _ _ _ _ HI i p)|]. intros j q Hj Hq Hlq E.
    by apply Hj, (t_pid_inj _ _ _ _ HI j i q p).
  - by apply (t_ready _ _ _ _ HI i p).
  - intros j Hj. destruct (t_init _ _ _ _ HI j Hj) as (q & Hq & Ha). split; [|by exists q].
    intros ->. by simplify_eq.
  - by left.
Qed.

(** A childless process other than init becomes a zombie. *)
Lemma tinv_zombie R l n ini me p :
  tinv R l n ini (Some me) → l !! me = Some p → ini ≠ Some me →
  (∀ j q, l !! j = Some q → p_parent q ≠ Some me) →
  tout R (<[me := set_state ZOMBIE p]> l) n ini me.
Proof.
  intros [HI HR] Hp Hini Hch. split_and!; [|by apply HR|rw list_lookup_insert_eq //; by eapply lookup_lt_Some].
  assert (p_state p = RUNNING) as Er by by apply (t_run _ _ _ _ HI me p Hp); right.
  assert (live p) as Hl by by rw /live Er.
  pose proof (t_next _ _ _ _ HI). eapply table_inv_update; [done|done|lia|..].
  - split; [done|]. intros H'. by destruct (HR me).
  - intros j Hj. split; [intros [?|[= ->]]; done|by left].
  - intros _. split; [by apply (t_pid _ _ _ _ HI me p Hp)|].
    intros j q Hne Hq Hlq E. by apply Hne, (t_pid_inj _ _ _ _ HI j me q p).
  - rw /active /=. set_solver.
  - intros j Hj. split; [|by apply (t_parent _ _ _ _ HI me p j)].
    intros ->. by destruct (Hch me p).
  - by right.
Qed.

(** A zombie's slot is freed. *)
Lemma tinv_reap R l n ini o i p p' :
  tinv R l n ini o → l !! i = Some p → p_state p = ZOMBIE → p_state p' = UNUSED →
  p_parent p' = None → tinv R (<[i := p']> l) n ini o.
Proof.
  intros [HI HR] Hp Hz Hu Hpar. split; [|done].
  pose proof (t_next _ _ _ _ HI). eapply table_inv_update; [done|done|lia|..].
  - rw -(t_run _ _ _ _ HI i p Hp) Hz Hu. done.
  - done.
  - by rw /live Hu.
  - rw /active Hu. set_solver.
  - by rw Hpar.
  - rw /active Hz. set_solver.
Qed.

(** The scheduler's choice starts running. *)
Lemma tinv_dispatch R l n ini i p :
  tinv R l n ini None → l !! i = Some p → p_state p = RUNNABLE →
  tinv R (<[i := set_state RUNNING p]> l) n ini (Some i).
Proof.
  intros [HI HR] Hp Hr.
  assert (¬ R i) as Hni.
  { intros H. assert (p_state p = RUNNING); [|congruence]. apply (t_run _ _ _ _ HI i p Hp). by left. }
  split; [|by intros j [= <-]].
  assert (live p) as Hl by by rw /live Hr.
  pose proof (t_next _ _ _ _ HI). eapply table_inv_update; [done|done|lia|..].
  - naive_solver.
  - naive_solver.
  - intros _. split; [by apply (t_pid _ _ _ _ HI i p Hp)|].
    intros j q Hne Hq Hlq E. by apply Hne, (t_pid_inj _ _ _ _ HI j i q p).
  - intros _. apply (t_ready _ _ _ _ HI i p Hp). rw /active Hr. set_solver.
  - intros j Hj. split; [|by apply (t_parent _ _ _ _ HI i p j)]. rw /active /=. set_solver.
  - left. rw /active /=. set_solver.
Qed.

Section inv.
Context {K : Type} `{!ProcEnv K}.
Implicit Types s : pstate K.
Implicit Types R : nat → Prop.
Variables (forkret_addr trapret_addr : Z) (initcode : list Z).

(** [sched]'s checks change nothing the invariant reads. *)
Lemma st_sched Q s l n ini o me :
  st s l n ini o → (∀ b s', st s' l n ini o → Q b s') → wlp (sched me) Q s.
Proof.
  intros Hs HQ. rw /sched. apply wlp_bind. apply (st_holding _ _ _ _ _ _ _ Hs) => b s' Hs'.
  case_match; [apply wlp_panic|]. apply wlp_bind, wlp_gets. case_match; [apply wlp_panic|].
  apply wlp_bind, wlp_gets. case_decide; [apply wlp_panic|]. apply wlp_bind, wlp_gets.
  case_match; [apply wlp_panic|]. apply wlp_gets. by apply HQ.
Qed.

Lemma yield_inv R s l n ini me :
  st s l n ini (Some me) → tinv R l n ini (Some me) → wlp yield (λ _, pout R me) s.
Proof.
  intros Hs HI. destruct (tinv_me _ _ _ _ _ HI) as (p & Hp & Er). rw /yield. do 3 sgo.
  eapply st_sched; [done|]. intros b t' Hs'. eapply pout_st; [done|]. eapply tinv_leave; eauto.
Qed.

Lemma sleep_inv R s l n ini me c lk :
  st s l n ini (Some me) → tinv R l n ini (Some me) → wlp (sleep c lk) (λ _, pout R me) s.
Proof.
  intros Hs HI. destruct (tinv_me _ _ _ _ _ HI) as (p & Hp & Er).
  assert (me < length l)%nat by by eapply lookup_lt_Some.
  rw /sleep. sgo. destruct lk as [lk|]; [|apply wlp_panic].
  apply wlp_bind. apply (wlp_mono _ (λ _ s, st s l n ini (Some me))).
  { case_decide; sgo; [|done]. by sgo. }
  intros _ t1 Hs1. do 2 sgo. eapply st_sched; [done|]. intros b t' Hs'. eapply pout_st; [done|].
  eapply tinv_leave; eauto.
Qed.

Lemma kill_inv R s l n ini o pid :
  st s l n ini o → tinv R l n ini o → wlp (kill pid) (λ _, pinv R) s.
Proof.
  intros Hs HI. rw /kill. do 2 sgo.
  destruct (list_find _ l) as [[i p]|] eqn:F.
  2: { do 2 sgo. by eapply pinv_st. }
  apply list_find_Some in F as (Hp & Hu & _).
  assert (i < length l)%nat by by eapply lookup_lt_Some.
  do 1 sgo. apply wlp_bind.
  apply (wlp_mono _ (λ _ s, ∃ p', quiet p p' ∧ st s (<[i := p']> l) n ini o)).
  { case_decide; sgo; (eexists; split; [|exact Hs]).
    - split_and!; [done..|]. by right.
    - split_and!; try done. by left. }
  intros _ t1 (p' & Hq & Hs1). do 2 sgo. eapply pinv_st; [done|]. eapply tinv_quiet; [done|].
  by eapply quiet_insert.
Qed.

Lemma settickets_inv R s l n ini me number :
  st s l n ini (Some me) → tinv R l n ini (Some me) → wlp (settickets number) (λ _, pinv R) s.
Proof.
  intros Hs HI. destruct (tinv_me _ _ _ _ _ HI) as (p & Hp & Er). rw /settickets. do 5 sgo.
  eapply pinv_st; [done|]. eapply tinv_quiet; [done|]. eapply quiet_insert; [done|].
  split_and!; try done. by left.
Qed.

Lemma wakeup_inv R s l n ini o c :
  st s l n ini o → tinv R l n ini o → wlp (wakeup c) (λ _, pinv R) s.
Proof.
  intros Hs HI. eapply st_wakeup; [done|]. intros s' Hs'. eapply pinv_st; [done|].
  eapply tinv_quiet; [done|]. apply quiet_wakeup.
Qed.
Lemma st_fork_files np idxs fs Q s l n ini o p :
  st s (<[np := p]> l) n ini o → (np < length l)%nat →
  (∀ s' fs', st s' (<[np := set_ofile fs' p]> l) n ini o → Q tt s') →
  wlp (fork_files np idxs fs) Q s.
Proof.
  revert s fs p. induction idxs as [|i idxs IH] => s fs p Hs Hnp HQ.
  { apply wlp_ret, (HQ s (p_ofile p)). by destruct p. }
  destruct fs as [|[f|] fs]; simpl.
  - apply wlp_ret, (HQ s (p_ofile p)). by destruct p.
  - do 2 sgo. eapply IH; [done..|]. intros t' fs' Ht. by apply (HQ t' fs').
  - by eapply IH.
Qed.

Lemma fork_inv R s l n ini me :
  st s l n ini (Some me) → tinv R l n ini (Some me) → n < 2147483647 →
  wlp (fork forkret_addr trapret_addr) (λ _, pinv R) s.
Proof.
  intros Hs HI Hn. destruct (tinv_me _ _ _ _ _ HI) as (pm & Hpm & Er).
  pose proof (t_next _ _ _ _ (proj1 HI)) as Hn0.
  assert (s32 (n + 1) = n + 1) as En by (apply s32_small; lia).
  rw /fork. sgo. apply wlp_bind. eapply st_allocproc; [done|..].
  - intros t Ht. sgo. by eapply pinv_st.
  - intros t i p Hp Hu Ht. sgo. eapply pinv_st; [done|]. rw En. eapply tinv_unused; try done. lia.
  - intros t np p k Hp Hu Hk Ht. rw En in Ht.
    assert (np < length l)%nat by by eapply lookup_lt_Some.
    assert (me ≠ np) by (intros ->; congruence).
    do 4 sgo. destruct (Z.eqb_spec a 0) as [->|Hpg].
    + do 5 sgo. eapply pinv_st; [done|]. eapply tinv_unused; try done. lia.
    + do 10 sgo. apply wlp_bind. eapply st_fork_files; [done..|]. intros t' fs' Ht'. sgo.
      apply wlp_bind. apply (wlp_mono _ (λ _ t, ∃ p', p_state p' = EMBRYO ∧
        p_pid p' = n ∧ p_kstack p' = k ∧ p_pgdir p' = a ∧ p_parent p' = Some me ∧
        st t (<[np := p']> l) (n + 1) ini (Some me))).
      { destruct (p_cwd pm); [|apply wlp_panic]. do 2 sgo. eexists. split_and!; [| | | | |eassumption]; done. }
      intros _ u (p' & E1 & E2 & E3 & E4 & E5 & Hu'). do 7 sgo. eapply pinv_st; [done|].
      eapply tinv_new; simpl; try done; [congruence..|]. rw E5. intros j [= <-].
      exists pm. split; [done|]. rw /active Er. set_solver.
Qed.
Lemma st_exit_files me fds Q s l n ini o :
  st s l n ini o → (me < length l)%nat →
  (∀ s' l', Forall2 quiet l l' → st s' l' n ini o → Q tt s') → wlp (exit_files me fds) Q s.
Proof.
  revert s l. induction fds as [|fd fds IH] => s l Hs Hme HQ; simpl.
  { apply wlp_ret, (HQ s l); [apply quiet_refl'|done]. }
  destruct (lookup_lt_is_Some_2 _ _ Hme) as [p Hp]. sgo. apply wlp_bind.
  apply (wlp_mono _ (λ _ t, ∃ l', Forall2 quiet l l' ∧ st t l' n ini o)).
  { destruct (p_ofile p !! fd) as [[f|]|].
    2,3: apply wlp_ret; exists l; split; [apply quiet_refl'|done].
    sgo. apply wlp_bind. eapply st_wakeups; [done|]. intros t l1 Hq Ht.
    destruct (Forall2_lookup_l _ _ _ _ _ Hq Hp) as (p1 & Hp1 & _). sgo.
    eexists. split; [|done]. eapply quiet_trans'; [done|]. eapply quiet_insert; [done|].
    split_and!; try done. by left. }
  intros _ t (l1 & Hq & Ht). eapply IH; [done|by rw -(Forall2_length _ _ _ Hq)|].
  intros t' l2 Hq'. apply HQ. by eapply quiet_trans'.
Qed.

Lemma st_exit_reparent R me idxs Q s l n ini o :
  st s l n ini o → tinv R l n ini o → ini ≠ Some me → Forall (λ i, i < length l)%nat idxs →
  (∀ i p, l !! i = Some p → i ∉ idxs → p_parent p ≠ Some me) →
  (∀ s' l', st s' l' n ini o → tinv R l' n ini o →
     (∀ i p, l' !! i = Some p → p_parent p ≠ Some me) → Q tt s') →
  wlp (exit_reparent me idxs) Q s.
Proof.
  intros Hs HI Hini. revert s l Hs HI.
  induction idxs as [|i idxs IH] => s l Hs HI Hb Hdone HQ; simpl.
  { apply wlp_ret. eapply HQ; [done..|]. intros i p Hp. apply (Hdone i p Hp). set_solver. }
  apply Forall_cons in Hb as [Hi Hb]. destruct (lookup_lt_is_Some_2 _ _ Hi) as [p Hp].
  sgo. apply wlp_bind.
  apply (wlp_mono _ (λ _ t, ∃ l', length l' = length l ∧ tinv R l' n ini o ∧ st t l' n ini o ∧
    ∀ j q, l' !! j = Some q → j ∉ idxs → p_parent q ≠ Some me)).
  2: { intros _ t (l' & El & HI' & Ht & Hd). eapply IH; [done..|by rw El|done|done]. }
  case_decide as Hpar.
  - do 3 sgo.
    assert (∀ j q, <[i := set_parent ini p]> l !! j = Some q → j ∉ idxs → p_parent q ≠ Some me) as Hd.
    { intros j q [(<- & <- & _)|[Hne Hq]]%list_lookup_insert_Some Hj; [done|].
      apply (Hdone j q Hq). set_solver. }
    case_decide; sgo.
    + eexists. split_and!; [| |exact Hs|].
      * by rw length_fmap length_insert.
      * eapply tinv_quiet; [by apply tinv_reparent|apply quiet_wakeup].
      * intros j q. rw list_lookup_fmap fmap_Some. intros (q' & Hq' & ->) Hj.
        rw /wakeup1_proc. case_decide; exact (Hd j q' Hq' Hj).
    + eexists. split_and!; [| |exact Hs|exact Hd].
      * by rw length_insert.
      * by apply tinv_reparent.
  - apply wlp_ret. exists l. split_and!; [done..|]. intros j q Hq Hj.
    destruct (decide (j = i)) as [->|]; [congruence|]. apply (Hdone j q Hq). set_solver.
Qed.

Lemma exit_inv R s l n ini me :
  st s l n ini (Some me) → tinv R l n ini (Some me) → wlp exit (λ _, pout R me) s.
Proof.
  intros Hs HI. destruct (tinv_me _ _ _ _ _ HI) as (pm & Hpm & _).
  assert (me < length l)%nat by by eapply lookup_lt_Some.
  rw /exit. do 2 sgo. case_decide as Hini; [apply wlp_panic|].
  apply wlp_bind. eapply st_exit_files; [done..|]. intros t l1 Hq1 Ht.
  destruct (Forall2_lookup_l _ _ _ _ _ Hq1 Hpm) as (p1 & Hp1 & _). do 2 sgo. apply wlp_bind.
  apply (wlp_mono _ (λ _ u, ∃ l2, Forall2 quiet l1 l2 ∧ st u l2 n ini (Some me))).
  { destruct (p_cwd p1); [|apply wlp_panic]. sgo. eapply st_wakeups; [done|]. eauto. }
  intros _ t2 (l2 & Hq2 & Ht2). sgo. apply wlp_bind. eapply st_wakeups; [done|].
  intros t3 l3 Hq3 Ht3.
  assert (tinv R l3 n ini (Some me)) as HI3.
  { eapply tinv_quiet; [done|]. eapply quiet_trans'; [done|]. by eapply quiet_trans'. }
  destruct (tinv_me _ _ _ _ _ HI3) as (p3 & Hp3 & _).
  assert (me < length l3)%nat by by eapply lookup_lt_Some. do 4 sgo.
  apply wlp_bind. eapply (st_exit_reparent R); [done| |done|..].
  { eapply tinv_quiet; [|apply quiet_wakeup]. eapply tinv_quiet; [done|].
    eapply quiet_insert; [done|]. split_and!; try done. by left. }
  { apply Forall_seq => j Hj. rw length_fmap length_insert (t_len _ _ _ _ (proj1 HI3)). lia. }
  { intros i p Hi Hn. exfalso. apply Hn, elem_of_seq. apply lookup_lt_Some in Hi.
    rw length_fmap length_insert (t_len _ _ _ _ (proj1 HI3)) in Hi. lia. }
  intros t4 l4 Ht4 HI4 Hch. destruct (tinv_me _ _ _ _ _ HI4) as (p4 & Hp4 & _). sgo.
  eapply st_sched; [done|]. intros b t5 Ht5. eapply pout_st; [done|]. by apply tinv_zombie.
Qed.
Lemma st_wait_scan R me idxs hk Q s l n ini o :
  st s l n ini o → tinv R l n ini o → Forall (λ i, i < length l)%nat idxs →
  (∀ b s', st s' l n ini o → Q (inr b) s') → (∀ pid s', pinv R s' → Q (inl pid) s') →
  wlp (wait_scan me idxs hk) Q s.
Proof.
  intros Hs HI Hb HQ1 HQ2. revert s hk Hs.
  induction Hb as [|i idxs Hi Hb IH] => s hk Hs; simpl; [by apply wlp_ret, HQ1|].
  destruct (lookup_lt_is_Some_2 _ _ Hi) as [p Hp]. sgo. case_decide; [by apply IH|].
  sgo. case_decide as Hz; [|by apply IH]. do 12 sgo. sgo. apply HQ2.
  eapply pinv_st; [done|]. by eapply tinv_reap.
Qed.

(** Still on the CPU, or on the way to the scheduler. *)
Definition stays_or_leaves R me (r : Z + bool) s : Prop :=
  match r with inl _ => pinv R s | inr _ => pout R me s end.

Lemma wait_round_inv R s l n ini me :
  st s l n ini (Some me) → tinv R l n ini (Some me) → wlp wait_round (stays_or_leaves R me) s.
Proof.
  intros Hs HI. destruct (tinv_me _ _ _ _ _ HI) as (pm & Hpm & _). rw /wait_round. sgo.
  apply wlp_bind. eapply st_wait_scan; [done..| | |].
  - apply Forall_seq => j Hj. rw (t_len _ _ _ _ (proj1 HI)). lia.
  - intros b t Ht. sgo. destruct (negb b || _); [do 2 sgo; by eapply pinv_st|].
    apply wlp_bind. eapply wlp_mono; [by eapply sleep_inv|]. intros c u Hu. by apply wlp_ret.
  - intros pid t Ht. by apply wlp_ret.
Qed.

Lemma wait_inv R s l n ini me :
  st s l n ini (Some me) → tinv R l n ini (Some me) → wlp wait (stays_or_leaves R me) s.
Proof. intros Hs HI. rw /wait. sgo. by eapply wait_round_inv. Qed.

Lemma st_sched_return b Q s l n ini o :
  st s l n ini o → (∀ s', st s' l n ini o → Q tt s') → wlp (sched_return b) Q s.
Proof. intros (?&?&?&?) HQ. apply wlp_on_cpu, wlp_modify, HQ. by split_and!. Qed.

Lemma yield_return_inv R b s l n ini o :
  st s l n ini o → tinv R l n ini o → wlp (yield_return b) (λ _, pinv R) s.
Proof.
  intros Hs HI. rw /yield_return. apply wlp_bind. eapply st_sched_return; [done|].
  intros t Ht. sgo. by eapply pinv_st.
Qed.

Lemma st_sleep_return R me lk b Q s l n ini :
  st s l n ini (Some me) → tinv R l n ini (Some me) →
  (∀ s' l', st s' l' n ini (Some me) → tinv R l' n ini (Some me) → Q tt s') →
  wlp (sleep_return me lk b) Q s.
Proof.
  intros Hs HI HQ. destruct (tinv_me _ _ _ _ _ HI) as (pm & Hpm & _). rw /sleep_return.
  apply wlp_bind. eapply st_sched_return; [done|]. intros t Ht. sgo.
  assert (tinv R (<[me := set_chan CNull pm]> l) n ini (Some me)).
  { eapply tinv_quiet; [done|]. eapply quiet_insert; [done|]. split_and!; try done. by left. }
  case_decide; sgo; [sgo|]; by eapply HQ.
Qed.

Lemma wait_return_inv R b s l n ini me :
  st s l n ini (Some me) → tinv R l n ini (Some me) →
  wlp (wait_return me b) (stays_or_leaves R me) s.
Proof.
  intros Hs HI. rw /wait_return. apply wlp_bind. eapply st_sleep_return; [done..|].
  intros t l' Ht HI'. by eapply wait_round_inv.
Qed.

Lemma st_switchuvm i p Q s l n ini o :
  st s l n ini o → l !! i = Some p → (∀ s', st s' l n ini o → Q tt s') → wlp (switchuvm i) Q s.
Proof.
  intros Hs Hp HQ. rw /switchuvm. do 2 sgo. case_match; [apply wlp_panic|].
  case_match; [apply wlp_panic|]. destruct Hs as (?&?&?&?).
  apply wlp_bind, wlp_on_cpu, wlp_pushcli => c1 E1. apply wlp_bind, wlp_on_cpu, wlp_mycpu.
  apply wlp_bind, wlp_on_env => _ e. apply wlp_on_cpu, wlp_popcli => c2 E2. apply HQ.
  simpl in *. split_and!; simpl; congruence.
Qed.

Lemma growproc_inv R x s l n ini me :
  st s l n ini (Some me) → tinv R l n ini (Some me) → wlp (growproc x) (λ _, pinv R) s.
Proof.
  intros Hs HI. destruct (tinv_me _ _ _ _ _ HI) as (pm & Hpm & _). rw /growproc. do 3 sgo.
  assert (me < length l)%nat by by eapply lookup_lt_Some.
  apply wlp_bind. apply (wlp_mono _ (λ _ t, st t l n ini (Some me))).
  { case_match; [|case_match]; repeat sgo; done. }
  intros [sz|] t Ht; [|sgo; by eapply pinv_st]. sgo. apply wlp_bind.
  eapply st_switchuvm; [done|slot|]. intros t' Ht'. sgo. eapply pinv_st; [done|].
  eapply tinv_quiet; [done|]. eapply quiet_insert; [done|]. split_and!; try done. by left.
Qed.

Lemma find_winner_runnable ps k w t i :
  find_winner ps k w t = Some i →
  ∃ p, (k ≤ i)%nat ∧ ps !! (i - k)%nat = Some p ∧ p_state p = RUNNABLE.
Proof.
  revert k t. induction ps as [|p ps IH] => k t /=; [done|].
  assert (∀ q, ps !! (i - S k)%nat = Some q → (S k ≤ i)%nat → (p :: ps) !! (i - k)%nat = Some q) as Hs.
  { intros q Hq Hk. by replace (i - k)%nat with (S (i - S k)) by lia. }
  case_decide as Hst; [|case_match].
  - intros (q & ? & ? & ?)%IH. exists q. split_and!; [lia|by apply Hs|done].
  - intros [= <-]. exists p. rw Nat.sub_diag. by split_and!.
  - intros (q & ? & ? & ?)%IH. exists q. split_and!; [lia|by apply Hs|done].
Qed.

Lemma scheduler_inv R s l n ini :
  st s l n ini None → tinv R l n ini None →
  wlp scheduler (λ o s', pinv R s' ∧ c_proc (ps_cpu s') = o) s.
Proof.
  intros Hs HI. rw /scheduler. apply wlp_bind, wlp_on_cpu, wlp_modify.
  assert (st (set_cpu (set_if true (ps_cpu s)) s) l n ini None) as Hs'.
  { destruct Hs as (?&?&?&?). by split_and!. }
  clear Hs. do 2 sgo.
  assert (∀ t : pstate K, st t l n ini None →
    wlp (on_cpu (release Lk_ptable) ;; mret None)
      (λ o s', pinv R s' ∧ c_proc (ps_cpu s') = o) t) as Hnone.
  { intros t Ht. do 2 sgo. split; [by eapply pinv_st|]. by destruct Ht as (_&_&_&?). }
  case_match; [|by apply Hnone].
  apply wlp_bind, wlp_bind, wlp_gets, wlp_bind, wlp_modify, wlp_ret.
  destruct (find_winner _ _ _ _) as [i|] eqn:Hf.
  2: { apply Hnone. destruct Hs' as (?&?&?&?). by split_and!. }
  apply find_winner_runnable in Hf as (p & _ & Hp & Hr). rw Nat.sub_0_r in Hp.
  apply wlp_bind, wlp_on_cpu, wlp_modify. apply wlp_bind.
  eapply st_switchuvm; [|done|].
  { destruct Hs' as (?&?&?&?). split_and!; done. }
  intros t Ht. do 2 sgo. split; [|by destruct Ht as (_&_&_&?)].
  eapply pinv_st; [done|]. by apply tinv_dispatch.
Qed.

Lemma scheduler_return_inv R s me :
  pout R me s → wlp (scheduler_return me) (λ _ s', pinv R s' ∧ c_proc (ps_cpu s') = None) s.
Proof.
  intros [(HI & HR & p & Hp) Ho].
  assert (st s (ps_proc s) (ps_nextpid s) (ps_initproc s) (Some me)) as Hs by done.
  revert Hs HI Hp. generalize (ps_proc s) (ps_nextpid s) (ps_initproc s). intros l n ini Hs HI Hp.
  rw /scheduler_return. sgo. apply wlp_bind, wlp_on_cpu, wlp_modify.
  match goal with |- wlp _ _ ?t => assert (st t l n ini None) as Ht end.
  { destruct Hs as (?&?&?&?). by split_and!. }
  clear Hs. assert (tinv R l n ini None) as HI'.
  { split; [|done]. eapply table_inv_run; [done|]. naive_solver. }
  sgo. sgo. split; [|by destruct Ht as (_&_&_&?)]. eapply pinv_st; [done|].
  eapply tinv_quiet; [done|]. eapply quiet_insert; [done|]. split_and!; try done. by left.
Qed.
Lemma userinit_inv R s l n ini :
  st s l n ini None → tinv R l n None None → n < 2147483647 →
  wlp (userinit forkret_addr trapret_addr initcode) (λ _, pinv R) s.
Proof.
  intros Hs HI Hn. pose proof (t_next _ _ _ _ (proj1 HI)) as Hn0.
  assert (s32 (n + 1) = n + 1) as En by (apply s32_small; lia).
  rw /userinit. apply wlp_bind. eapply st_allocproc; [done|..].
  - intros t Ht. sgo. apply wlp_panic.
  - intros t i p Hp Hu Ht. sgo. apply wlp_panic.
  - intros t i p k Hp Hu Hk Ht. rw En in Ht.
    assert (i < length l)%nat by by eapply lookup_lt_Some.
    do 3 sgo. destruct (Z.eqb_spec a 0) as [->|Hpg]; [apply wlp_panic|].
    do 11 sgo. eapply pinv_st; [done|]. match goal with |- tinv _ (<[i := ?p']> _) _ _ _ => set (p1 := p') end.
    assert (tinv R (<[i := p1]> l) (n + 1) None None) as [HI' HR'].
    { eapply tinv_new; try done. intros j Hj. by apply (t_parent _ _ _ _ (proj1 HI) i p j). }
    split; [|done]. destruct HI' as [L N R1 D P PI RD PA IN]. split; try done.
    intros j [= <-]. exists p1. rw list_lookup_insert_eq //. split; [done|].
    rw /active /=. set_solver.
Qed.
End inv.

(** ** Several CPUs over one table *)

Section system.
Context {K : Type} `{!ProcEnv K}.
Variables (forkret_addr trapret_addr : Z) (initcode : list Z).

(** The table and the kernel's other state, with the CPUs beside it: the [ps_cpu]
    of [sy_ps] is a scratch field. *)
Record sys := mkSys { sy_ps : pstate K; sy_cpus : list cpu }.

(** CPU [c] runs an operation. *)
Definition on_sys {A} (c : nat) (m : M (pstate K) A) : M sys A := λ y,
  match sy_cpus y !! c with
  | Some cp =>
      match m (set_cpu cp (sy_ps y)) with
      | Ok (a, s') => Ok (a, mkSys s' (<[c := ps_cpu s']> (sy_cpus y)))
      | Panic e => Panic e
      | Sleeps => Sleeps
      end
  | None => Panic "unknown apicid"
  end.

(** The calls a process makes into proc.c, and where its [swtch] returns. *)
Inductive pcall :=
  | C_fork | C_exit | C_wait | C_kill (pid : Z) | C_growproc (n : Z) | C_settickets (n : Z)
  | C_wakeup (c : chan) | C_yield | C_sleep (c : chan) (lk : option lockid)
  | R_forkret | R_yield (intena : bool) | R_sleep (lk : lockid) (intena : bool) | R_wait (intena : bool).

(** The result: whether the process still has the CPU. *)
Definition run_pcall (me : nat) (op : pcall) : M (pstate K) bool :=
  match op with
  | C_fork => fork forkret_addr trapret_addr ;; mret true
  | C_exit => exit ;; mret false
  | C_wait => r ← wait; mret (match r with inl _ => true | inr _ => false end)
  | C_kill pid => kill pid ;; mret true
  | C_growproc n => growproc n ;; mret true
  | C_settickets n => settickets n ;; mret true
  | C_wakeup c => wakeup c ;; mret true
  | C_yield => yield ;; mret false
  | C_sleep c lk => sleep c lk ;; mret false
  | R_forkret => on_cpu (release Lk_ptable) ;; mret true
  | R_yield e => yield_return e ;; mret true
  | R_sleep lk e => sleep_return me lk e ;; mret true
  | R_wait e => r ← wait_return me e; mret (match r with inl _ => true | inr _ => false end)
  end.

(** A call of the current process; when it switches away, the scheduler's code
    after [swtch] follows. *)
Definition proc_step (me : nat) (op : pcall) : M (pstate K) unit :=
  b ← run_pcall me op;
  if (b : bool) then mret tt else scheduler_return me.

(** Any CPU takes a step: a round of its scheduler, a call of its process, or an
    interrupt handler's wakeup.  Process numbers must not run out. *)
Inductive sys_step (y : sys) : sys → Prop :=
  | step_sched c cp o y' :
      sy_cpus y !! c = Some cp → c_proc cp = None →
      on_sys c scheduler y = Ok (o, y') → sys_step y y'
  | step_call c cp me op y' :
      sy_cpus y !! c = Some cp → c_proc cp = Some me → ps_nextpid (sy_ps y) < 2147483647 →
      on_sys c (proc_step me op) y = Ok (tt, y') → sys_step y y'
  | step_intr c ch y' :
      on_sys c (wakeup ch) y = Ok (tt, y') → sys_step y y'.

(** The machine after [pinit]: an empty table, idle CPUs. *)
Definition boot (ncpu : nat) (e : K) : sys :=
  mkSys (mkPs (replicate (Z.to_nat NPROC) proc_zero) 1 1898888478 None (mkCpu 0 false false None ∅) e)
    (replicate ncpu (mkCpu 0 false false None ∅)).

(** CPU [c] runs process [i]. *)
Definition runs (y : sys) (c i : nat) : Prop := ∃ cp, sy_cpus y !! c = Some cp ∧ c_proc cp = Some i.

Record sys_inv (y : sys) : Prop := {
  sys_table : table_inv (ps_proc (sy_ps y)) (ps_nextpid (sy_ps y)) (ps_initproc (sy_ps y))
                (λ i, ∃ c, runs y c i);
  sys_one_cpu c1 c2 i : runs y c1 i → runs y c2 i → c1 = c2;
}.

Implicit Types y : sys.

(** The processes the other CPUs run. *)
Definition others y (c i : nat) : Prop := ∃ c', c' ≠ c ∧ runs y c' i.

Lemma sys_inv_enter y c cp :
  sys_inv y → sy_cpus y !! c = Some cp → pinv (others y c) (set_cpu cp (sy_ps y)).
Proof.
  intros [HT H1] Hc. split; simpl.
  - eapply table_inv_run; [done|]. intros i. split.
    + intros [c' Hr]. destruct (decide (c' = c)) as [->|]; [|left; by exists c'].
      destruct Hr as (cp' & ? & ?). right. by simplify_eq.
    + intros [(c' & _ & Hr)|Hi]; [by exists c'|]. exists c, cp. done.
  - intros i Hi (c' & Hne & Hr). apply Hne, (H1 c' c i Hr). by exists cp.
Qed.

Lemma sys_inv_leave y c s :
  (c < length (sy_cpus y))%nat → (∀ c1 c2 i, runs y c1 i → runs y c2 i → c1 = c2) →
  pinv (others y c) s → sys_inv (mkSys s (<[c := ps_cpu s]> (sy_cpus y))).
Proof.
  intros Hc H1 [HT HR]. set (y' := mkSys _ _).
  assert (∀ c' i, runs y' c' i ↔
    (c' = c ∧ c_proc (ps_cpu s) = Some i) ∨ (c' ≠ c ∧ runs y c' i)) as Hruns.
  { intros c' i. rw /runs /=. destruct (decide (c' = c)) as [->|].
    - rw list_lookup_insert_eq //. naive_solver.
    - rw list_lookup_insert_ne //. naive_solver. }
  split; simpl.
  - eapply table_inv_run; [done|]. intros i. split.
    + intros [(c' & Hne & Hr)|Hi]; [exists c'|exists c]; apply Hruns; naive_solver.
    + intros [c' [[-> ?]|[Hne Hr]]%Hruns]; [by right|]. left. by exists c'.
  - intros c1 c2 i [[-> E1]|[Hn1 Hr1]]%Hruns [[-> E2]|[Hn2 Hr2]]%Hruns; [done| | |by eapply H1].
    + destruct (HR i E1). by exists c2.
    + destruct (HR i E2). by exists c1.
Qed.

Lemma on_sys_inv {A} c (m : M (pstate K) A) y a y' :
  sys_inv y →
  (∀ cp R, sy_cpus y !! c = Some cp → pinv R (set_cpu cp (sy_ps y)) →
     wlp m (λ _, pinv R) (set_cpu cp (sy_ps y))) →
  on_sys c m y = Ok (a, y') → sys_inv y'.
Proof.
  intros HI Hm. rw /on_sys. destruct (sy_cpus y !! c) as [cp|] eqn:Hc; [|done].
  destruct (m _) as [[b s']| |] eqn:E; [|done..]. intros [= <- <-].
  apply sys_inv_leave; [by eapply lookup_lt_Some|apply HI|].
  refine (Hm cp (others y c) eq_refl _ b s' E). by apply sys_inv_enter.
Qed.

(** Every call keeps the invariant of its CPU's view. *)
Definition call_post (R : nat → Prop) me (b : bool) (t : pstate K) : Prop :=
  if b then pinv R t else pout R me t.

Lemma stays {A} (m : M (pstate K) A) R me s :
  wlp m (λ _, pinv R) s → wlp (m ;; mret true) (call_post R me) s.
Proof. intros H. apply wlp_bind. eapply wlp_mono; [done|]. intros a t Ht. by apply wlp_ret. Qed.
Lemma leaves {A} (m : M (pstate K) A) R me s :
  wlp m (λ _, pout R me) s → wlp (m ;; mret false) (call_post R me) s.
Proof. intros H. apply wlp_bind. eapply wlp_mono; [done|]. intros a t Ht. by apply wlp_ret. Qed.
Lemma waits (m : M (pstate K) (Z + bool)) R me s :
  wlp m (stays_or_leaves R me) s →
  wlp (r ← m; mret (match r with inl _ => true | inr _ => false end)) (call_post R me) s.
Proof. intros H. apply wlp_bind. eapply wlp_mono; [done|]. intros [] t Ht; by apply wlp_ret. Qed.

Lemma run_pcall_inv R me op s l n ini :
  st s l n ini (Some me) → tinv R l n ini (Some me) → n < 2147483647 →
  wlp (run_pcall me op) (call_post R me) s.
Proof.
  intros Hs HI Hn.
  destruct op; simpl; first [apply stays|apply leaves|apply waits];
    eauto using fork_inv, exit_inv, wait_inv, kill_inv, growproc_inv, settickets_inv, wakeup_inv,
      yield_inv, sleep_inv, yield_return_inv, wait_return_inv.
  - eapply st_release; [done|]. intros t Ht. by eapply pinv_st.
  - eapply st_sleep_return; [done..|]. intros t l' Ht HI'. by eapply pinv_st.
Qed.

Lemma proc_step_inv R me op s l n ini :
  st s l n ini (Some me) → tinv R l n ini (Some me) → n < 2147483647 →
  wlp (proc_step me op) (λ _, pinv R) s.
Proof.
  intros Hs HI Hn. apply wlp_bind. eapply wlp_mono; [by eapply run_pcall_inv|].
  intros [] t Ht; [by apply wlp_ret|]. eapply wlp_mono; [by apply scheduler_return_inv|].
  by intros ? ? [].
Qed.

Lemma sys_step_inv y y' : sys_inv y → sys_step y y' → sys_inv y'.
Proof.
  intros HI [c cp o y1 Hc Hnone E|c cp me op y1 Hc Hme Hn E|c ch y1 E].
  - eapply on_sys_inv; [done| |exact E]. intros cp' R Hc' HP. simplify_eq.
    rw /pinv /= Hnone in HP.
    eapply wlp_mono; [by eapply scheduler_inv; [split_and!|]|]. by intros ? ? [].
  - eapply on_sys_inv; [done| |exact E]. intros cp' R Hc' HP. simplify_eq.
    rw /pinv /= Hme in HP. by eapply proc_step_inv; [split_and!|..].
  - eapply on_sys_inv; [done| |exact E]. intros cp' R Hc' HP. by eapply wakeup_inv.
Qed.

Lemma boot_table : table_inv (replicate (Z.to_nat NPROC) proc_zero) 1 None (λ _, False).
Proof.
  assert (∀ i p, replicate (Z.to_nat NPROC) proc_zero !! i = Some p → p = proc_zero) as Hz.
  { intros i p Hp%lookup_replicate. naive_solver. }
  split; [done|done|..].
  - by intros i p ->%Hz.
  - done.
  - by intros i p ->%Hz [].
  - by intros i j p q ->%Hz _ [].
  - intros i p ->%Hz. rw /active /=. set_solver.
  - by intros i p j ->%Hz.
  - done.
Qed.

End system.

(** ** An example run *)

(** Two CPUs: init is created, dispatched, returns from [forkret] and forks. *)
Definition example_call (c : nat) {A} (m : M (pstate unit) A) (y : sys) : sys :=
  match on_sys c m y with Ok (_, y') => y' | _ => y end.
Definition example_y0 : sys := example_call 0 (userinit 1 2 []) (boot 2 tt).
Definition example_y1 : sys := example_call 0 scheduler example_y0.
Definition example_y2 : sys := example_call 0 (proc_step 1 2 0 R_forkret) example_y1.
Definition example_y3 : sys := example_call 0 (proc_step 1 2 0 C_fork) example_y2.
Definition example_y4 : sys := example_call 1 scheduler example_y3.

