(* ===== verification/ProcSpec.v ===== *)
(** * What the process operations do (proc.c)

    Total specifications of [fork], [exit], [wait] and [kill]: they return (or reach
    the scheduler) and the table they leave is given exactly. *)

From S2P Require Import Prelude Params Spinlock Proc Sys.

(** ** Total correctness rules *)

(** [twp m Q s]: [m] returns from [s], with a result and state that satisfy [Q]. *)
Definition twp {S A} (m : M S A) (Q : A → S → Prop) (s : S) : Prop :=
  ∃ a s', m s = Ok (a, s') ∧ Q a s'.

Section twp.
Context {S : Type}.
Lemma twp_mono {A} (m : M S A) (P Q : A → S → Prop) s :
  twp m P s → (∀ a s', P a s' → Q a s') → twp m Q s.
Proof. intros (a & s' & E & H) HPQ. exists a, s'. auto. Qed.
Lemma twp_bind {A B} (m : M S A) (k : A → M S B) Q s :
  twp m (λ a, twp (k a) Q) s → twp (m ≫= k) Q s.
Proof.
  intros (a & s' & E & b & s'' & E' & H). exists b, s''. by rw (bind_Ok _ _ _ _ _ E).
Qed.
Lemma twp_ret {A} (a : A) (Q : A → S → Prop) s : Q a s → twp (mret a) Q s.
Proof. intros H. by exists a, s. Qed.
Lemma twp_gets {A} (f : S → A) Q s : Q (f s) s → twp (gets f) Q s.
Proof. intros H. by exists (f s), s. Qed.
Lemma twp_modify (f : S → S) Q s : Q tt (f s) → twp (modify f) Q s.
Proof. intros H. by exists tt, (f s). Qed.
End twp.

(** A call that returns from every state. *)
Definition returns {K A} (m : M K A) (P : A → Prop) : Prop :=
  ∀ e, ∃ a e', m e = Ok (a, e') ∧ P a.

(** A CPU outside every critical section with interrupt flag [f], running [p];
    and the same CPU inside [ptable.lock]. *)
Definition idle_cpu (f : bool) (p : option nat) : cpu := mkCpu 0 f f p ∅.
Definition sched_cpu (f : bool) (p : option nat) : cpu := mkCpu 1 f false p {[Lk_ptable]}.

Section rules.
Context {K : Type}.
Implicit Types s : pstate K.

(** The state but for the random seed and the environment. *)
Definition sx s (l : list proc) (n : Z) (ini : option nat) (c : cpu) : Prop :=
  ps_proc s = l ∧ ps_nextpid s = n ∧ ps_initproc s = ini ∧ ps_cpu s = c.

Lemma sx_cpu {A} (m : M cpu A) Q s l n ini c a c' :
  sx s l n ini c → m c = Ok (a, c') → (∀ s', sx s' l n ini c' → Q a s') → twp (on_cpu m) Q s.
Proof.
  intros (E1 & E2 & E3 & E4) Em HQ. eexists a, _. split; [apply on_cpu_ok; by rw E4|].
  apply HQ. by split_and!.
Qed.
Lemma sx_acquire Q s l n ini f p :
  sx s l n ini (idle_cpu f p) → (∀ s', sx s' l n ini (sched_cpu f p) → Q tt s') →
  twp (on_cpu (acquire Lk_ptable)) Q s.
Proof. intros Hs HQ. eapply sx_cpu; [done|by apply acquire_ptable_idle|done]. Qed.
Lemma sx_release Q s l n ini f p :
  sx s l n ini (sched_cpu f p) → (∀ s', sx s' l n ini (idle_cpu f p) → Q tt s') →
  twp (on_cpu (release Lk_ptable)) Q s.
Proof. intros Hs HQ. eapply sx_cpu; [done|by apply release_ptable_sched|done]. Qed.
Lemma sx_curproc Q s l n ini f me :
  sx s l n ini (idle_cpu f (Some me)) → (∀ s', sx s' l n ini (idle_cpu f (Some me)) → Q me s') →
  twp curproc Q s.
Proof.
  intros Hs HQ. apply twp_bind. eapply sx_cpu; [done|by rw myproc_ok|].
  intros s' Hs'. by apply twp_ret, HQ.
Qed.
Lemma sx_curproc' Q s l n ini f me :
  sx s l n ini (sched_cpu f (Some me)) → (∀ s', sx s' l n ini (sched_cpu f (Some me)) → Q me s') →
  twp curproc Q s.
Proof.
  intros Hs HQ. apply twp_bind. eapply sx_cpu; [done|by rw myproc_ok|].
  intros s' Hs'. by apply twp_ret, HQ.
Qed.
Lemma sx_getp {A} i (f : proc → A) Q s l n ini c p :
  sx s l n ini c → l !! i = Some p → Q (f p) s → twp (getp i f) Q s.
Proof.
  intros (El&_) Hp H. apply twp_gets. by rw El (list_lookup_total_correct _ _ _ Hp).
Qed.
Lemma sx_updp i f Q s l n ini c p :
  sx s l n ini c → l !! i = Some p →
  (∀ s', sx s' (<[i := f p]> l) n ini c → Q tt s') → twp (updp i f) Q s.
Proof.
  intros (El&?&?&?) Hp HQ. apply twp_modify, HQ. split_and!; [|done..]. simpl.
  by rw El (list_alter_insert_Some _ _ _ _ Hp).
Qed.
Lemma sx_proc Q s l n ini c : sx s l n ini c → Q l s → twp (gets ps_proc) Q s.
Proof. intros (El&_) HQ. apply twp_gets. by rw El. Qed.
Lemma sx_nextpid Q s l n ini c : sx s l n ini c → Q n s → twp (gets ps_nextpid) Q s.
Proof. intros (_&El&_) HQ. apply twp_gets. by rw El. Qed.
Lemma sx_initproc Q s l n ini c : sx s l n ini c → Q ini s → twp (gets ps_initproc) Q s.
Proof. intros (_&_&El&_) HQ. apply twp_gets. by rw El. Qed.
Lemma sx_set_nextpid x Q s l n ini c :
  sx s l n ini c → (∀ s', sx s' l x ini c → Q tt s') → twp (modify (set_nextpid x)) Q s.
Proof. intros (?&?&?&?) HQ. apply twp_modify, HQ. by split_and!. Qed.
Lemma sx_wakeup1 ch Q s l n ini c :
  sx s l n ini c → (∀ s', sx s' (wakeup1_proc ch <$> l) n ini c → Q tt s') → twp (wakeup1 ch) Q s.
Proof.
  intros (El&?&?&?) HQ. eexists tt, _. split; [done|]. apply HQ. split_and!; [|done..]. simpl. by rw El.
Qed.

(** [sched] passes its checks when exactly [ptable.lock] is held and the state
    has been changed. *)
Lemma sx_sched me p Q s l n ini f o :
  sx s l n ini (sched_cpu f o) → l !! me = Some p → p_state p ≠ RUNNING →
  (∀ s', sx s' l n ini (sched_cpu f o) → Q f s') → twp (sched me) Q s.
Proof.
  intros Hs Hp Hst HQ. rw /sched. apply twp_bind. eapply sx_cpu; [done|by rw holding_ok|].
  intros s1 Hs1. rw bool_decide_true /=; [set_solver|]. apply twp_bind, twp_gets.
  pose proof Hs1 as (_&_&_&->). apply twp_bind. eapply sx_getp; [done..|].
  rw decide_False //. apply twp_bind, twp_gets. pose proof Hs1 as (_&_&_&->). apply twp_gets.
  pose proof Hs1 as (_&_&_&->). by apply HQ.
Qed.

Lemma sx_env {A} (m : M K A) P Q s l n ini c :
  returns m P → sx s l n ini c → (∀ a s', P a → sx s' l n ini c → Q a s') → twp (on_env m) Q s.
Proof.
  intros Hm Hs HQ. destruct (Hm (ps_env s)) as (a & e & E & Ha).
  exists a, (set_env e s). split; [by apply on_env_ok|]. by apply HQ.
Qed.
End rules.

(** One call of an operation's body, on a state known through [sx]. *)
Ltac tgo :=
  let s' := fresh "s" in
  lazymatch goal with
  | |- twp (_ ≫= _) _ _ => apply twp_bind; tgo
  | H : sx ?s _ _ _ _ |- twp (on_cpu (acquire Lk_ptable)) _ ?s =>
      apply (sx_acquire _ _ _ _ _ _ _ H); clear H; intros s' H; try clear s
  | H : sx ?s _ _ _ _ |- twp (on_cpu (release Lk_ptable)) _ ?s =>
      apply (sx_release _ _ _ _ _ _ _ H); clear H; intros s' H; try clear s
  | H : sx ?s _ _ _ (idle_cpu _ _) |- twp curproc _ ?s =>
      apply (sx_curproc _ _ _ _ _ _ _ H); clear H; intros s' H; try clear s
  | H : sx ?s _ _ _ (sched_cpu _ _) |- twp curproc _ ?s =>
      apply (sx_curproc' _ _ _ _ _ _ _ H); clear H; intros s' H; try clear s
  | H : sx ?s _ _ _ _ |- twp (on_env _) _ ?s =>
      eapply sx_env; [|exact H|]; [eauto|]; cbn beta; clear H; intros ? s' ? H; try clear s
  | H : sx ?s _ _ _ _ |- twp (getp _ _) _ ?s => eapply (sx_getp _ _ _ _ _ _ _ _ _ H); [slot|]
  | H : sx ?s _ _ _ _ |- twp (updp _ _) _ ?s =>
      eapply (sx_updp _ _ _ _ _ _ _ _ _ H); [slot|]; clear H; intros s' H; try clear s;
      rw ?list_insert_insert_eq in H
  | H : sx ?s _ _ _ _ |- twp (wakeup1 _) _ ?s =>
      apply (sx_wakeup1 _ _ _ _ _ _ _ H); clear H; intros s' H; try clear s
  | H : sx ?s _ _ _ _ |- twp (gets ps_proc) _ ?s => apply (sx_proc _ _ _ _ _ _ H)
  | H : sx ?s _ _ _ _ |- twp (gets ps_nextpid) _ ?s => apply (sx_nextpid _ _ _ _ _ _ H)
  | H : sx ?s _ _ _ _ |- twp (gets ps_initproc) _ ?s => apply (sx_initproc _ _ _ _ _ _ H)
  | H : sx ?s _ _ _ _ |- twp (modify (set_nextpid _)) _ ?s =>
      apply (sx_set_nextpid _ _ _ _ _ _ _ H); clear H; intros s' H; try clear s
  | |- twp (mret _) _ _ => apply twp_ret
  end; cbn beta.

(** ** Process names *)

(** The C string a [char] array holds. *)
Fixpoint cname (l : list Z) : list Z :=
  match l with
  | [] => []
  | b :: l => if b =? 0 then [] else b :: cname l
  end.

Lemma cname_app_zero pre post : Forall (λ b, b ≠ 0) pre → cname (pre ++ 0 :: post) = pre.
Proof. induction 1 as [|b pre Hb _ IH]; [done|]. simpl. destruct (Z.eqb_spec b 0); [done|]. by rw IH. Qed.

Lemma cname_short l : 0 ∈ l → (length (cname l) < length l)%nat.
Proof.
  induction l as [|b l IH]; [by intros ?%elem_of_nil|]. intros Hb. simpl.
  destruct (Z.eqb_spec b 0); simpl; [lia|]. apply elem_of_cons in Hb as [|Hb]; [done|].
  specialize (IH Hb). lia.
Qed.

Lemma safestrcpy_arr_cname k pre rest srest :
  Forall (λ b, b ≠ 0) pre → (k < length rest)%nat → (k ≤ length srest)%nat →
  cname (safestrcpy_arr (pre ++ rest) (pre ++ srest) (length pre) k) = pre ++ take k (cname srest).
Proof.
  revert pre rest srest. induction k as [|k IH] => pre rest srest Hpre Hr Hs.
  { destruct rest as [|x rest]; simpl in *; [lia|].
    rw insert_app_r_alt // Nat.sub_diag /= cname_app_zero // app_nil_r //. }
  destruct rest as [|x rest], srest as [|b srest]; simpl in *; try lia.
  rw list_lookup_total_middle // insert_app_r_alt // Nat.sub_diag /=.
  destruct (Z.eqb_spec b 0) as [->|Hb].
  - rw insert_app_r_alt; [lia|]. replace (S (length pre) - length pre)%nat with 1%nat by lia.
    destruct rest as [|y rest]; simpl in *; [lia|]. rw cname_app_zero // app_nil_r //.
  - specialize (IH (pre ++ [b]) rest srest). rw !length_app /= Nat.add_1_r -!app_assoc /= in IH.
    apply IH; [|lia..]. apply Forall_app. split; [done|]. by apply Forall_cons.
Qed.

(** A process name that fits its array is copied whole. *)
Lemma copy_name_cname dst src :
  length dst = 16%nat → length src = 16%nat → 0 ∈ src → cname (copy_name dst src) = cname src.
Proof.
  intros Hd Hs H0. rw /copy_name. pose proof (safestrcpy_arr_cname 15 [] dst src) as E.
  simpl in E. rw E; [constructor|lia..|]. apply take_ge. pose proof (cname_short src H0). lia.
Qed.

(** ** [fork] *)

Section fork.
Context {K : Type} `{!ProcEnv K}.
Implicit Types s : pstate K.
Variables (forkret_addr trapret_addr : Z).

(** The environment's calls return; there is memory for a stack and a copy. *)
Hypothesis kalloc_ok : returns env_kalloc (λ k, k ≠ 0).
Hypothesis copyuvm_ok : ∀ pg sz, returns (env_copyuvm pg sz) (λ pg', pg' ≠ 0).
Hypothesis filedup_ok : ∀ f, returns (env_filedup f) (λ _, True).
Hypothesis idup_ok : ∀ i, returns (env_idup i) (λ _, True).

Lemma twp_allocproc Q s l n ini f o np p :
  sx s l n ini (idle_cpu f o) → list_find (λ p, p_state p = UNUSED) l = Some (np, p) →
  (∀ s' k, k ≠ 0 → sx s' (<[np := set_ctx (mkContext 0 0 0 0 forkret_addr)
             (set_ctxp (k + KSTACKSIZE - sizeof_trapframe - 4 - sizeof_context) (set_ret trapret_addr
             (set_tfp (k + KSTACKSIZE - sizeof_trapframe)
             (set_kstack k (set_pid n (set_state EMBRYO p))))))]> l) (s32 (n + 1)) ini (idle_cpu f o) →
     Q (Some np) s') →
  twp (allocproc forkret_addr trapret_addr) Q s.
Proof.
  intros Hs F HQ. pose proof F as (Hp & _)%list_find_Some.
  assert (np < length l)%nat by by eapply lookup_lt_Some.
  rw /allocproc. do 2 tgo. rw F. do 7 tgo. destruct (Z.eqb_spec a 0); [done|]. do 5 tgo.
  by eapply HQ.
Qed.

Lemma twp_fork_files np Q s l n ini c p fs1 fs2 :
  sx s (<[np := p]> l) n ini c → (np < length l)%nat →
  p_ofile p = fs1 ++ replicate (length fs2) None →
  (∀ s', sx s' (<[np := set_ofile (fs1 ++ fs2) p]> l) n ini c → Q tt s') →
  twp (fork_files np (seq (length fs1) (length fs2)) fs2) Q s.
Proof.
  revert s p fs1. induction fs2 as [|o fs2 IH] => s p fs1 Hs Hnp Ho HQ; simpl.
  { apply twp_ret, HQ. rw app_nil_r in Ho. rw app_nil_r -Ho. by destruct p. }
  specialize (IH) with (fs1 := fs1 ++ [o]). rw length_app /= Nat.add_1_r in IH. destruct o as [g|].
  - do 2 tgo. eapply IH; [done|done| |].
    + simpl. rw Ho /= insert_app_r_alt // Nat.sub_diag -app_assoc //.
    + rw -app_assoc /=. intros t Ht. apply HQ. exact Ht.
  - eapply IH; [done|done| |].
    + rw Ho -app_assoc //.
    + rw -app_assoc /=. intros t Ht. by apply HQ.
Qed.

End fork.

(** ** [wait] *)

Section wait.
Context {K : Type} `{!ProcEnv K}.
Implicit Types s : pstate K.
Hypothesis kfree_ok : ∀ k, returns (env_kfree k) (λ _, True).
Hypothesis freevm_ok : ∀ pg, returns (env_freevm pg) (λ _, True).

(** A zombie's slot after it was reaped. *)
Definition reaped (p : proc) : proc :=
  set_state UNUSED (set_killed 0 (set_name (<[0%nat := 0]> (p_name p))
    (set_parent None (set_pid 0 (set_kstack 0 p))))).

Definition zombie_child (me : nat) (p : proc) : Prop := p_parent p = Some me ∧ p_state p = ZOMBIE.
#[export] Instance zombie_child_dec me p : Decision (zombie_child me p) := _.

(** The scan over the slots from [k] on, none of the earlier ones a zombie child. *)
Lemma twp_wait_scan me Q s l n ini f o k hk :
  sx s l n ini (sched_cpu f o) → (k ≤ length l)%nat →
  (∀ i p s', list_find (zombie_child me) (drop k l) = Some (i, p) →
     sx s' (<[(k + i)%nat := reaped p]> l) n ini (idle_cpu f o) → Q (inl (p_pid p)) s') →
  (∀ s', list_find (zombie_child me) (drop k l) = None → sx s' l n ini (sched_cpu f o) →
     Q (inr (hk || bool_decide (Exists (λ p, p_parent p = Some me) (drop k l)))) s') →
  twp (wait_scan me (seq k (length l - k)) hk) Q s.
Proof.
  intros Hs Hk HQ1 HQ2. remember (length l - k)%nat as m eqn:Em.
  revert k hk Hk Em s Hs HQ1 HQ2. induction m as [|m IH] => k hk Hk Em s Hs HQ1 HQ2; simpl.
  { apply twp_ret. rw drop_ge in HQ2; [lia|].
    rw bool_decide_false in HQ2; [by intros ?%Exists_nil|]. rw orb_false_r in HQ2. by apply HQ2. }
  destruct (lookup_lt_is_Some_2 l k) as [p Hp]; [lia|].
  rw (drop_S _ _ _ Hp) /= in HQ1 HQ2.
  assert (∀ b, (∀ i q s', list_find (zombie_child me) (drop (S k) l) = Some (i, q) →
    sx s' (<[(S k + i)%nat := reaped q]> l) n ini (idle_cpu f o) → Q (inl (p_pid q)) s') →
    (∀ s', list_find (zombie_child me) (drop (S k) l) = None → sx s' l n ini (sched_cpu f o) →
     Q (inr (b || bool_decide (Exists (λ p, p_parent p = Some me) (drop (S k) l)))) s') →
    twp (wait_scan me (seq (S k) m) b) Q s) as IH'.
  { intros b H1 H2. apply IH; [lia|lia|done|done|done]. }
  clear IH. assert (k < length l)%nat by lia. tgo.
  destruct (decide (p_parent p ≠ Some me)) as [Hpar|Hpar%dec_stable].
  { rw decide_False in HQ1; [by intros []|]. rw decide_False in HQ2; [by intros []|]. apply IH'.
    - intros i q t Hf Ht. apply (HQ1 (S i)); [by rw Hf|]. by rw Nat.add_succ_r.
    - intros t Hf Ht. erewrite bool_decide_ext in HQ2; [apply HQ2; [by rw Hf|done]|].
      rw Exists_cons. naive_solver. }
  tgo. destruct (decide (p_state p = ZOMBIE)) as [Hz|Hz].
  { do 12 tgo. tgo. apply (HQ1 0%nat p); [by rw decide_True|]. by rw Nat.add_0_r. }
  rw decide_False in HQ1; [by intros []|]. rw decide_False in HQ2; [by intros []|]. apply IH'.
  - intros i q t Hf Ht. apply (HQ1 (S i)); [by rw Hf|]. by rw Nat.add_succ_r.
  - intros t Hf Ht. rw bool_decide_true in HQ2; [by constructor|]. rw orb_true_r in HQ2.
    apply HQ2; [by rw Hf|done].
Qed.

End wait.

(** ** [exit] *)

(** The address [wakeup1] is given for a process pointer. *)
Definition chan_of (o : option nat) : chan := match o with Some j => CProc j | None => CNull end.

(** What can happen to a process while another one exits: it may be woken. *)
Definition evolve (p p' : proc) : Prop :=
  p_pid p' = p_pid p ∧ p_chan p' = p_chan p ∧ p_cwd p' = p_cwd p ∧
  (∀ fd g, p_ofile p' !! fd = Some (Some g) → p_ofile p !! fd = Some (Some g)) ∧
  (p_state p' = p_state p ∨ p_state p = SLEEPING ∧ p_state p' = RUNNABLE).
Definition awake (c : chan) (p : proc) : Prop := ¬ (p_state p = SLEEPING ∧ p_chan p = c).

#[export] Instance evolve_preorder : PreOrder evolve.
Proof.
  split; [by repeat split; auto|].
  intros p q r (?&?&?&?&Hs) (?&?&?&?&Hs'). split_and!; try congruence; [by eauto|].
  destruct Hs as [|[]], Hs' as [|[]]; try (left; congruence); right; split; congruence.
Qed.

Lemma evolve_awake c p p' : evolve p p' → awake c p → awake c p'.
Proof.
  intros (_ & Ec & _ & _ & Hs) Ha [H1 H2]. apply Ha. split; [|congruence].
  destruct Hs as [|[]]; congruence.
Qed.

Lemma evolve_wakeup c p : evolve p (wakeup1_proc c p).
Proof. rw /wakeup1_proc. case_decide; [|reflexivity]. split_and!; [done..|]. naive_solver. Qed.
Lemma awake_wakeup c p : awake c (wakeup1_proc c p).
Proof. rw /wakeup1_proc /awake. case_decide; naive_solver. Qed.

(** A table that evolved, slot by slot, keeping parents but for [f]. *)
Definition evolved (f : nat → option nat → option nat) (l l' : list proc) : Prop :=
  length l' = length l ∧
  ∀ i p, l !! i = Some p → ∃ p', l' !! i = Some p' ∧ evolve p p' ∧ p_parent p' = f i (p_parent p).

Lemma evolved_id l : evolved (λ _ o, o) l l.
Proof. split; [done|]. intros i p Hp. exists p. by split_and!. Qed.
Lemma evolved_trans f g h l1 l2 l3 :
  evolved f l1 l2 → evolved g l2 l3 → (∀ i o, g i (f i o) = h i o) → evolved h l1 l3.
Proof.
  intros [L1 H1] [L2 H2] Hgf. split; [congruence|]. intros i p Hp.
  destruct (H1 i p Hp) as (p' & Hp' & E1 & F1). destruct (H2 i p' Hp') as (q & Hq & E2 & F2).
  exists q. split_and!; [done|by transitivity p'|by rw F2 F1 Hgf].
Qed.
Lemma evolved_insert f l i p p' :
  l !! i = Some p → evolve p p' → p_parent p' = f i (p_parent p) →
  (∀ j o, j ≠ i → f j o = o) → evolved f l (<[i := p']> l).
Proof.
  intros Hp He Hpar Hf. split; [by rw length_insert|]. intros j q Hq.
  destruct (decide (j = i)) as [->|Hne].
  - exists p'. rw list_lookup_insert_eq; [by eapply lookup_lt_Some|]. by simplify_eq.
  - exists q. rw list_lookup_insert_ne // Hf //.
Qed.
Lemma evolved_wakeup c l : evolved (λ _ o, o) l (wakeup1_proc c <$> l).
Proof.
  split; [by rw length_fmap|]. intros i p Hp. exists (wakeup1_proc c p).
  rw list_lookup_fmap Hp. split_and!; [done|apply evolve_wakeup|].
  rw /wakeup1_proc. by case_decide.
Qed.
Lemma evolved_awake f l l' c : evolved f l l' → Forall (awake c) l → Forall (awake c) l'.
Proof.
  rw !Forall_lookup. intros [L He] Ha i p' Hp'.
  destruct (lookup_lt_is_Some_2 l i) as [p Hp]; [rw -L; by eapply lookup_lt_Some|].
  destruct (He i p Hp) as (q & Hq & Hev & _). simplify_eq. eapply evolve_awake; eauto.
Qed.

Section exit.
Context {K : Type} `{!ProcEnv K}.
Implicit Types s : pstate K.

Lemma twp_exit_reparent me idxs Q s l n ini c :
  sx s l n ini c → NoDup idxs → Forall (λ i, i < length l)%nat idxs →
  (∀ s' l', sx s' l' n ini c →
     evolved (λ i o, if decide (i ∈ idxs ∧ o = Some me) then ini else o) l l' →
     (∀ i p, i ∈ idxs → l !! i = Some p → zombie_child me p → Forall (awake (chan_of ini)) l') →
     Q tt s') →
  twp (exit_reparent me idxs) Q s.
Proof.
  intros Hs Hnd. revert s l Hs. induction Hnd as [|i idxs Hi Hnd IH] => s l Hs Hb HQ; simpl.
  { apply twp_ret. eapply HQ; [done| |by intros ? ? ?%elem_of_nil].
    eapply evolved_trans; [apply evolved_id|apply evolved_id|]. intros j o. cbn beta.
    case_decide as Hd; [|done]. by destruct Hd as [?%elem_of_nil _]. }
  apply Forall_cons in Hb as [Hil Hb]. destruct (lookup_lt_is_Some_2 _ _ Hil) as [p Hp].
  tgo. apply twp_bind.
  set (f1 := λ j o, if decide (j = i ∧ o = Some me) then ini else o).
  apply (twp_mono _ (λ _ t, ∃ l1, sx t l1 n ini c ∧ evolved f1 l l1 ∧
    (zombie_child me p → Forall (awake (chan_of ini)) l1))).
  2: { intros _ t (l1 & Ht & E1 & Hw). eapply IH; [done| |].
    { eapply Forall_impl; [done|]. intros j. by destruct E1 as [-> _]. }
    intros t' l2 Ht' E2 Hz. eapply HQ; [done| |].
    - eapply evolved_trans; [exact E1|exact E2|]. intros j o. rw /f1. cbn beta.
      destruct (decide (j = i)) as [->|Hne].
      + repeat case_decide; naive_solver set_solver.
      + repeat case_decide; set_solver.
    - intros j q [->|Hj]%elem_of_cons Hq Hzc.
      + simplify_eq. eapply evolved_awake; [exact E2|auto].
      + destruct (proj2 E1 j q Hq) as (q1 & Hq1 & Hev & Hpar).
        apply (Hz j q1 Hj Hq1). destruct Hzc as [Z1 Z2], Hev as (_ & _ & _ & _ & Hst).
        split; [|destruct Hst as [|[]]; congruence]. rw Hpar /f1. case_decide; [|done].
        naive_solver. }
  destruct (decide (p_parent p = Some me)) as [Hpar|Hpar].
  - do 3 tgo.
    assert (evolved f1 l (<[i := set_parent ini p]> l)) as E1.
    { eapply evolved_insert; [done|by split_and!; auto| |].
      - rw /f1. case_decide; naive_solver.
      - intros j o Hj. rw /f1. case_decide; naive_solver. }
    case_decide as Hz; tgo.
    + eexists. split_and!; [exact Hs| |].
      * eapply evolved_trans; [exact E1|apply evolved_wakeup|]. done.
      * intros _. apply Forall_fmap, Forall_true => q. apply awake_wakeup.
    + eexists. split_and!; [exact Hs|done|]. by intros [_ ?].
  - apply twp_ret. exists l. split_and!; [done| |by intros []].
    split; [done|]. intros j q Hq. exists q. split_and!; [done|done|].
    rw /f1. case_decide; naive_solver.
Qed.
Lemma twp_wakeups cs Q s l n ini f o :
  sx s l n ini (idle_cpu f o) →
  (∀ s' l', evolved (λ _ o, o) l l' → sx s' l' n ini (idle_cpu f o) → Q tt s') →
  twp (wakeups cs) Q s.
Proof.
  revert s l. induction cs as [|c cs IH] => s l Hs HQ; simpl.
  { eapply twp_ret, HQ; [apply evolved_id|done]. }
  apply twp_bind. rw /wakeup. do 3 tgo. eapply IH; [done|]. intros t l' E. apply HQ.
  eapply evolved_trans; [apply evolved_wakeup|exact E|done].
Qed.

Hypothesis fileclose_ok : ∀ g, returns (env_fileclose g) (λ _, True).
Hypothesis begin_op_ok : returns env_begin_op (λ _, True).
Hypothesis iput_ok : ∀ i, returns (env_iput i) (λ _, True).
Hypothesis end_op_ok : returns env_end_op (λ _, True).

Lemma twp_exit_files me fds Q s l n ini f o :
  sx s l n ini (idle_cpu f o) → (me < length l)%nat →
  (∀ s' l', evolved (λ _ o, o) l l' →
     (∀ p fd g, l' !! me = Some p → fd ∈ fds → p_ofile p !! fd ≠ Some (Some g)) →
     sx s' l' n ini (idle_cpu f o) → Q tt s') →
  twp (exit_files me fds) Q s.
Proof.
  revert s l. induction fds as [|fd fds IH] => s l Hs Hme HQ; simpl.
  { eapply twp_ret, HQ; [apply evolved_id|by intros ? ? ? _ ?%elem_of_nil|done]. }
  destruct (lookup_lt_is_Some_2 _ _ Hme) as [p Hp]. tgo. apply twp_bind.
  apply (twp_mono _ (λ _ t, ∃ l1, evolved (λ _ o, o) l l1 ∧
    (∀ p g, l1 !! me = Some p → p_ofile p !! fd ≠ Some (Some g)) ∧ sx t l1 n ini (idle_cpu f o))).
  - destruct (p_ofile p !! fd) as [[g|]|] eqn:Hfd.
    2,3: apply twp_ret; exists l; split_and!; [apply evolved_id|naive_solver|done].
    tgo. apply twp_bind. eapply twp_wakeups; [done|]. intros t l1 E1 Ht.
    destruct (proj2 E1 me p Hp) as (p1 & Hp1 & _). tgo. eexists. split_and!; [| |exact Ht].
    + eapply evolved_trans; [exact E1| |done]. eapply evolved_insert; [done| |done|done].
      split_and!; try done; [|by left]. simpl. intros fd' g'.
      rw list_lookup_insert_Some. naive_solver.
    + intros q g'. rw list_lookup_insert_eq; [by eapply lookup_lt_Some|]. intros [= <-]. simpl.
      rw list_lookup_insert_Some. naive_solver.
  - intros _ t (l1 & E1 & Hcl & Ht). eapply IH; [done|by rw (proj1 E1)|].
    intros t' l2 E2 Hcl2. apply HQ; [eapply evolved_trans; [exact E1|exact E2|done]|].
    intros q fd' g Hq [->|Hin]%elem_of_cons; [|by eapply Hcl2].
    destruct (lookup_lt_is_Some_2 l1 me) as [q1 Hq1]; [by rw (proj1 E1)|].
    destruct (proj2 E2 me q1 Hq1) as (q' & Hq' & (_&_&_&Ho&_) & _). simplify_eq.
    intros H%Ho. by apply (Hcl q1 g Hq1).
Qed.

End exit.

(** ** [kill] *)

Section kill.
Context {K : Type} `{!ProcEnv K}.
Implicit Types s : pstate K.
Variables (forkret_addr trapret_addr : Z).

Lemma twp_kill Q s l n ini f o pid :
  sx s l n ini (idle_cpu f o) →
  (list_find (λ p, p_pid p = pid) l = None →
     ∀ s', sx s' l n ini (idle_cpu f o) → Q (-1) s') →
  (∀ i p s', list_find (λ p, p_pid p = pid) l = Some (i, p) →
     sx s' (<[i := if decide (p_state p = SLEEPING) then set_state RUNNABLE (set_killed 1 p)
                   else set_killed 1 p]> l) n ini (idle_cpu f o) → Q 0 s') →
  twp (kill pid) Q s.
Proof.
  intros Hs HQ1 HQ2. rw /kill. do 2 tgo. destruct (list_find _ l) as [[i p]|] eqn:F.
  - pose proof F as (Hp & _)%list_find_Some. assert (i < length l)%nat by by eapply lookup_lt_Some.
    tgo. apply twp_bind. specialize (HQ2 i p).
    destruct (decide (p_state p = SLEEPING)); repeat tgo; by eapply HQ2.
  - do 2 tgo. by apply HQ1.
Qed.

(** Memory for a stack, but none for the copy. *)
Hypothesis kalloc_ok : returns env_kalloc (λ k, k ≠ 0).
Hypothesis copyuvm_fails : ∀ pg sz, returns (env_copyuvm pg sz) (λ pg', pg' = 0).
Hypothesis kfree_ok : ∀ k, returns (env_kfree k) (λ _, True).

(** A failed [fork] leaves a pid that [kill] finds.  When [copyuvm] runs out of
    memory [fork] returns -1 and frees the slot, but leaves the pid it gave it: a
    following [kill] of that pid, which no process has, returns 0 and sets [killed]
    in the free slot, where the next process is created (see [fork]) already killed. *)
Theorem failed_fork_pid_killable s l n ini f me pm np p :
  sx s l n ini (idle_cpu f (Some me)) → n < 2147483647 → 0 < n →
  l !! me = Some pm → p_state pm = RUNNING →
  list_find (λ p, p_state p = UNUSED) l = Some (np, p) → Forall (λ q, p_pid q ≠ n) l →
  ∃ s1 s2 p1 p2, fork forkret_addr trapret_addr s = Ok (-1, s1) ∧
    ps_proc s1 = <[np := p1]> l ∧ p_state p1 = UNUSED ∧ kill n s1 = Ok (0, s2) ∧
    ps_proc s2 = <[np := p2]> l ∧ p_state p2 = UNUSED ∧ p_killed p2 = 1.
Proof.
  intros Hs Hn Hn0 Hpm Er F Hfresh. pose proof F as (Hp & Hu & _)%list_find_Some.
  assert (np < length l)%nat by by eapply lookup_lt_Some.
  assert (me ≠ np) by (intros ->; congruence).
  assert (twp (fork forkret_addr trapret_addr) (λ r t, r = -1 ∧ ∃ p1, p_state p1 = UNUSED ∧
    p_pid p1 = n ∧ sx t (<[np := p1]> l) (s32 (n + 1)) ini (idle_cpu f (Some me))) s)
    as (r & s1 & E1 & -> & p1 & Hu1 & Hpid1 & Hs1).
  { rw /fork. tgo. apply twp_bind. eapply twp_allocproc; [done..|]. intros t k Hk Ht.
    do 4 tgo. subst. rw Z.eqb_refl. do 5 tgo. split; [done|]. eexists. by split_and!; [| |exact Ht]. }
  assert (list_find (λ p, p_pid p = n) (<[np := p1]> l) = Some (np, p1)) as F1.
  { apply list_find_Some. rw list_lookup_insert_eq //. split_and!; [done..|].
    intros j y Hy Hlt. rw list_lookup_insert_ne in Hy; [lia|].
    by eapply Forall_lookup_1 in Hfresh. }
  assert (twp (kill n) (λ r t, r = 0 ∧ ∃ p2, p_state p2 = UNUSED ∧ p_killed p2 = 1 ∧
    ps_proc t = <[np := p2]> l) s1) as (r & s2 & E2 & -> & p2 & Hu2 & Hk2 & Hs2).
  { eapply twp_kill; [done|by rw F1|]. intros i q t Fq Ht. rw F1 in Fq. simplify_eq.
    split; [done|]. rw list_insert_insert_eq in Ht. destruct Ht as (-> & _).
    eexists. split_and!; [| |done]; by rw Hu1. }
  exists s1, s2, p1, p2. destruct Hs1 as (? & _). by split_and!.
Qed.
End kill.

(** ** Examples *)

Definition null_returns {A} (a : A) : returns (mret a : M unit A) (λ _, True) :=
  λ e, ex_intro _ a (ex_intro _ e (conj eq_refl I)).

(** A shell with a zombie child, in a table of [NPROC] slots. *)
Definition shell_proc : proc :=
  set_cwd (Some 3%nat) (set_tickets 30 (set_pid 2 (set_parent (Some 5%nat) (set_state RUNNING
    (set_pgdir KERNLINK (set_kstack KERNLINK proc_zero)))))).
Definition zombie_proc : proc := set_pid 7 (set_parent (Some 0%nat) (set_state ZOMBIE proc_zero)).
Definition sleeper_proc : proc := set_chan (CProc 5) (set_pid 1 (set_state SLEEPING proc_zero)).
Definition example_table : list proc :=
  shell_proc :: zombie_proc :: replicate 3 proc_zero ++ sleeper_proc :: replicate 58 proc_zero.
Definition shell_state : pstate unit :=
  mkPs example_table 9 1 (Some 5%nat) (idle_cpu true (Some 0%nat)) tt.

Lemma shell_state_sx : sx shell_state example_table 9 (Some 5%nat) (idle_cpu true (Some 0%nat)).
Proof. by split_and!. Qed.




(** An environment with memory for stacks only. *)
Definition nomem_env : ProcEnv unit := {|
  env_kalloc := mret KERNLINK; env_kfree _ := mret tt; env_setupkvm := mret 0;
  env_inituvm _ _ := mret tt; env_allocuvm _ _ _ := mret 0; env_deallocuvm _ _ n := mret n;
  env_copyuvm _ _ := mret 0; env_freevm _ := mret tt; env_load_uvm _ _ := mret tt;
  env_switchkvm := mret tt; env_filedup _ := mret tt; env_fileclose _ := mret [];
  env_idup _ := mret tt; env_iput _ := mret []; env_namei _ := mret (Some 0%nat);
  env_begin_op := mret tt; env_end_op := mret [];
|}.

Lemma failed_fork_pid_killable_witness :
  ∃ s1 s2 p1 p2, fork (ProcEnv0 := nomem_env) 1 2 shell_state = Ok (-1, s1) ∧
    ps_proc s1 = <[2%nat := p1]> example_table ∧ p_state p1 = UNUSED ∧ kill 9 s1 = Ok (0, s2) ∧
    ps_proc s2 = <[2%nat := p2]> example_table ∧ p_state p2 = UNUSED ∧ p_killed p2 = 1.
Proof.
  apply (failed_fork_pid_killable (ProcEnv0 := nomem_env)) with (n := 9) (ini := Some 5%nat)
    (f := true) (me := 0%nat) (pm := shell_proc) (p := proc_zero).
  - intros e. by exists KERNLINK, e.
  - intros pg sz e. by exists 0, e.
  - intros k. apply null_returns.
  - apply shell_state_sx.
  - lia.
  - lia.
  - done.
  - done.
  - by vm_compute.
  - repeat constructor; done.
Defined.
