(* ===== verification/Pipe.v ===== *)
(** * Pipes (pipe.c)

    A pipe is a ring of 512 bytes with two 32-bit counters that only grow and wrap
    around.  Each call of [pipewrite] and [piperead] is cut where it sleeps: what
    runs in between runs under the pipe's lock.  A machine of any number of readers
    and writers shows the pipe to be a queue that loses no wakeup. *)

From S2P Require Import Prelude Params.

Definition PIPESIZE : Z := 512.

Record pipe := mkPipe {
  pi_data : list Z;       (* char data[PIPESIZE] *)
  pi_nread : Z;           (* number of bytes read, uint *)
  pi_nwrite : Z;          (* number of bytes written, uint *)
  pi_readopen : bool;     (* read fd is still open *)
  pi_writeopen : bool;    (* write fd is still open *)
}.

(** What [pipealloc] sets up in a fresh page, whose bytes are [d]. *)
Definition pipe_init (d : list Z) : pipe := mkPipe d 0 0 true true.

(** ** Closing *)

(** The channels pipe.c sleeps on and wakes: [&p->nread], where readers sleep, and
    [&p->nwrite], where writers do. *)
Inductive pchan := NRead | NWrite.

(** [pipeclose]: the new pipe, the channel woken, and whether the page is freed. *)
Definition pipeclose (p : pipe) (writable : bool) : pipe * pchan * bool :=
  let '(p, w) :=
    if writable
    then (mkPipe (pi_data p) (pi_nread p) (pi_nwrite p) (pi_readopen p) false, NRead)
    else (mkPipe (pi_data p) (pi_nread p) (pi_nwrite p) false (pi_writeopen p), NWrite) in
  (p, w, negb (pi_readopen p) && negb (pi_writeopen p)).

(** ** Writing *)

(** How a stretch of [pipewrite] ends: all bytes written, -1 returned, or asleep;
    in the last two cases with the bytes not written. *)
Inductive wresult := WDone | WFail (rest : list Z) | WSleep (rest : list Z).

Definition pi_full (p : pipe) : bool := pi_nwrite p =? u32 (pi_nread p + PIPESIZE).

(** [p->data[p->nwrite++ % PIPESIZE] = b;] *)
Definition pi_put (p : pipe) (b : Z) : pipe :=
  mkPipe (<[Z.to_nat (pi_nwrite p mod PIPESIZE) := b]> (pi_data p)) (pi_nread p)
    (u32 (pi_nwrite p + 1)) (pi_readopen p) (pi_writeopen p).

Fixpoint pipewrite (p : pipe) (addr : list Z) (killed : bool) : wresult * pipe :=
  match addr with
  | [] => (WDone, p)
  | b :: rest =>
      if pi_full p then
        if negb (pi_readopen p) || killed then (WFail addr, p) else (WSleep addr, p)
      else pipewrite (pi_put p b) rest killed
  end.

(** ** Reading *)

Inductive rresult := RDone (bytes : list Z) | RFail | RSleep.

Definition pi_empty (p : pipe) : bool := pi_nread p =? pi_nwrite p.

Definition pi_get (p : pipe) : Z * pipe :=
  (pi_data p !!! Z.to_nat (pi_nread p mod PIPESIZE),
   mkPipe (pi_data p) (u32 (pi_nread p + 1)) (pi_nwrite p) (pi_readopen p) (pi_writeopen p)).

Fixpoint piperead_copy (p : pipe) (n : nat) : list Z * pipe :=
  match n with
  | O => ([], p)
  | S n =>
      if pi_empty p then ([], p)
      else
        let '(b, p) := pi_get p in
        let '(bs, p) := piperead_copy p n in
        (b :: bs, p)
  end.

Definition piperead (p : pipe) (n : Z) (killed : bool) : rresult * pipe :=
  if pi_empty p && pi_writeopen p then
    if killed then (RFail, p) else (RSleep, p)
  else
    let '(bs, p) := piperead_copy p (Z.to_nat n) in
    (RDone bs, p).

(** ** Readers and writers *)

(** A thread inside [pipewrite] with the bytes it has still to write, or inside
    [piperead]; asleep or able to run. *)
Inductive pcall := PWrite (rest : list Z) | PRead (n : Z).
Record pthread := mkPth { th_call : pcall; th_asleep : bool }.

(** [cin] and [cout] record the bytes the pipe has taken and given, in order. *)
Record psys := mkPsys { sy_pipe : pipe; sy_threads : list pthread; sy_in : list Z; sy_out : list Z }.

(** [wakeup] on one of the pipe's channels: every thread asleep on it can run. *)
Definition wake_thread (w : pchan) (t : pthread) : pthread :=
  match w, th_call t with
  | NRead, PRead _ | NWrite, PWrite _ => mkPth (th_call t) false
  | _, _ => t
  end.
Definition wake_all (w : pchan) (ts : list pthread) : list pthread := wake_thread w <$> ts.

Definition is_writer (t : pthread) : bool := match th_call t with PWrite _ => true | PRead _ => false end.

(** One step: a call begins on an open end; a thread that is not asleep runs until
    it returns or sleeps; an end is closed, which its users' references allow only
    when no call is using it; or a sleeping thread is killed.  [wk] says whether
    [pipewrite] may find its process killed. *)
Inductive psys_step (wk : bool) (y : psys) : psys → Prop :=
  | ps_call_read n :
      pi_readopen (sy_pipe y) = true →
      psys_step wk y (mkPsys (sy_pipe y) (sy_threads y ++ [mkPth (PRead n) false]) (sy_in y) (sy_out y))
  | ps_call_write addr :
      pi_writeopen (sy_pipe y) = true →
      psys_step wk y (mkPsys (sy_pipe y) (sy_threads y ++ [mkPth (PWrite addr) false]) (sy_in y) (sy_out y))
  | ps_write i addr killed p' :
      sy_threads y !! i = Some (mkPth (PWrite addr) false) → (killed = true → wk = true) →
      pipewrite (sy_pipe y) addr killed = (WDone, p') →
      psys_step wk y
        (mkPsys p' (delete i (wake_all NRead (sy_threads y))) (sy_in y ++ addr) (sy_out y))
  | ps_write_fail i addr killed rest p' :
      sy_threads y !! i = Some (mkPth (PWrite addr) false) → (killed = true → wk = true) →
      pipewrite (sy_pipe y) addr killed = (WFail rest, p') →
      psys_step wk y
        (mkPsys p' (delete i (sy_threads y)) (sy_in y ++ take (length addr - length rest) addr) (sy_out y))
  | ps_write_sleep i addr killed rest p' :
      sy_threads y !! i = Some (mkPth (PWrite addr) false) → (killed = true → wk = true) →
      pipewrite (sy_pipe y) addr killed = (WSleep rest, p') →
      psys_step wk y
        (mkPsys p' (<[i := mkPth (PWrite rest) true]> (wake_all NRead (sy_threads y)))
          (sy_in y ++ take (length addr - length rest) addr) (sy_out y))
  | ps_read i n killed bs p' :
      sy_threads y !! i = Some (mkPth (PRead n) false) →
      piperead (sy_pipe y) n killed = (RDone bs, p') →
      psys_step wk y
        (mkPsys p' (delete i (wake_all NWrite (sy_threads y))) (sy_in y) (sy_out y ++ bs))
  | ps_read_fail i n killed p' :
      sy_threads y !! i = Some (mkPth (PRead n) false) →
      piperead (sy_pipe y) n killed = (RFail, p') →
      psys_step wk y (mkPsys p' (delete i (sy_threads y)) (sy_in y) (sy_out y))
  | ps_read_sleep i n killed p' :
      sy_threads y !! i = Some (mkPth (PRead n) false) →
      piperead (sy_pipe y) n killed = (RSleep, p') →
      psys_step wk y (mkPsys p' (<[i := mkPth (PRead n) true]> (sy_threads y)) (sy_in y) (sy_out y))
  | ps_close w p' ch fr :
      Forall (λ t, is_writer t = negb w) (sy_threads y) → pipeclose (sy_pipe y) w = (p', ch, fr) →
      psys_step wk y (mkPsys p' (wake_all ch (sy_threads y)) (sy_in y) (sy_out y))
  | ps_kill i c :
      sy_threads y !! i = Some (mkPth c true) →
      psys_step wk y (mkPsys (sy_pipe y) (<[i := mkPth c false]> (sy_threads y)) (sy_in y) (sy_out y)).

Definition psys_init (d : list Z) : psys := mkPsys (pipe_init d) [] [] [].

(** ** The ring is a queue *)

(** The pipe holds [q], the bytes taken but not yet given. *)
Record ring (p : pipe) (cin cout q : list Z) : Prop := {
  rg_split : cin = cout ++ q;
  rg_len : (length q ≤ 512)%nat;
  rg_data : length (pi_data p) = 512%nat;
  rg_nread : pi_nread p = u32 (Z.of_nat (length cout));
  rg_nwrite : pi_nwrite p = u32 (Z.of_nat (length cin));
  rg_byte k b : q !! k = Some b →
    pi_data p !! Z.to_nat (Z.of_nat (length cout + k) mod 512) = Some b;
}.

Lemma ring_full p cin cout q : ring p cin cout q → pi_full p = true ↔ length q = 512%nat.
Proof.
  intros [-> L _ R W _]. rw /pi_full /PIPESIZE R W length_app Z.eqb_eq. rw u32_add_l. clia.
Qed.
Lemma ring_empty p cin cout q : ring p cin cout q → pi_empty p = true ↔ q = [].
Proof.
  intros [-> L _ R W _]. rw /pi_empty R W length_app Z.eqb_eq. split.
  - intros E. apply length_zero_iff_nil. clia.
  - intros ->. by rw Nat.add_0_r.
Qed.

(** The counters wrap around at a multiple of the ring's size. *)
Lemma index_wrap n : u32 n mod PIPESIZE = n mod 512.
Proof. rw /PIPESIZE /u32. dlia. Qed.

Lemma ring_put p cin cout q b :
  ring p cin cout q → (length q < 512)%nat → ring (pi_put p b) (cin ++ [b]) cout (q ++ [b]).
Proof.
  intros [-> L D R W B] Hq. split; simpl.
  - by rw app_assoc.
  - rw length_app /=. lia.
  - by rw length_insert.
  - done.
  - rw W u32_add_l !length_app /=. f_equal. lia.
  - intros k c Hk. rw W index_wrap length_app. destruct (decide (k = length q)) as [->|Hne].
    + rw list_lookup_middle // in Hk. injection Hk as <-. apply list_lookup_insert_eq. rw D. dlia.
    + apply lookup_snoc_Some in Hk as [[Hk Hb]|[? _]]; [|done].
      rw list_lookup_insert_ne; [|by apply B]. dlia.
Qed.

Lemma ring_get p cin cout b q :
  ring p cin cout (b :: q) →
  fst (pi_get p) = b ∧ ring (snd (pi_get p)) cin (cout ++ [b]) q.
Proof.
  intros [-> L D R W B]. simpl in *. split.
  - rw R index_wrap. apply list_lookup_total_correct. specialize (B 0%nat b eq_refl).
    by rw Nat.add_0_r in B.
  - split; simpl; [by rw -app_assoc|lia|done| |done|].
    + rw R u32_add_l length_app /=. f_equal. lia.
    + intros k c Hk. rw length_app /= -Nat.add_assoc. by apply (B (S k)).
Qed.

Lemma pipewrite_spec p addr killed cin cout q r p' :
  ring p cin cout q → pipewrite p addr killed = (r, p') →
  ∃ took rest, addr = took ++ rest ∧ ring p' (cin ++ took) cout (q ++ took) ∧
    pi_readopen p' = pi_readopen p ∧ pi_writeopen p' = pi_writeopen p ∧
    match r with
    | WDone => rest = []
    | WFail rest' => rest' = rest ∧ pi_full p' = true ∧ (pi_readopen p' = false ∨ killed = true)
    | WSleep rest' => rest' = rest ∧ pi_full p' = true ∧ pi_readopen p' = true
    end.
Proof.
  revert p cin q. induction addr as [|b addr IH] => p cin q Hr; simpl.
  { intros [= <- <-]. exists [], []. rw !app_nil_r. by split_and!. }
  destruct (pi_full p) eqn:Hf.
  - intros H. exists [], (b :: addr). rw !app_nil_r.
    destruct (negb (pi_readopen p) || killed) eqn:Hk; injection H as <- <-; split_and!; try done.
    + apply orb_true_iff in Hk as [?%negb_true_iff|?]; auto.
    + apply orb_false_iff in Hk as [?%negb_false_iff _]. done.
  - assert (length q < 512)%nat as Hq.
    { pose proof (rg_len _ _ _ _ Hr). pose proof (ring_full _ _ _ _ Hr) as Hff.
      destruct (decide (length q = 512%nat)) as [E|]; [|lia]. apply Hff in E. congruence. }
    intros H. destruct (IH _ _ _ (ring_put _ _ _ _ b Hr Hq) H) as (took & rest & -> & Hr' & H1 & H2 & H3).
    exists (b :: took), rest. rw -!app_assoc in Hr'. by split_and!.
Qed.

(** A writer that finds the pipe full writes nothing. *)
Lemma pipewrite_full p addr killed r p' :
  pi_full p = true → pipewrite p addr killed = (r, p') → p' = p.
Proof.
  intros Hf. destruct addr as [|b addr]; simpl; [by intros [= _ <-]|]. rw Hf.
  case_match; by intros [= _ <-].
Qed.

Lemma piperead_copy_spec p n cin cout q :
  ring p cin cout q →
  ∃ p', piperead_copy p n = (take n q, p') ∧ ring p' cin (cout ++ take n q) (drop n q) ∧
    pi_readopen p' = pi_readopen p ∧ pi_writeopen p' = pi_writeopen p.
Proof.
  revert p cout q. induction n as [|n IH] => p cout q Hr; cbn [piperead_copy].
  { exists p. rw drop_0 app_nil_r. by split_and!. }
  destruct (pi_empty p) eqn:He.
  { apply (ring_empty _ _ _ _ Hr) in He as ->. exists p. rw take_nil drop_nil app_nil_r. by split_and!. }
  destruct q as [|b q].
  { exfalso. assert (pi_empty p = true); [|congruence]. by apply (ring_empty _ _ _ _ Hr). }
  destruct (ring_get _ _ _ _ _ Hr) as [Eb Hr']. destruct (pi_get p) as [b' p1] eqn:Eg.
  simpl in Eb, Hr'. subst b'. destruct (IH _ _ _ Hr') as (p' & E & Hr'' & H1 & H2).
  exists p'. rw E /=. rw -app_assoc in Hr''. rw H1 H2. rw /pi_get in Eg. injection Eg as _ <-.
  by split_and!.
Qed.

Definition psys_ring (y : psys) : Prop := ∃ q, ring (sy_pipe y) (sy_in y) (sy_out y) q.

Lemma take_prefix (l k : list Z) : take (length (l ++ k) - length k) (l ++ k) = l.
Proof. rw length_app Nat.add_sub take_app_length //. Qed.

Lemma psys_step_ring wk y y' : psys_ring y → psys_step wk y y' → psys_ring y'.
Proof.
  intros [q Hr] Hs. destruct Hs as [n _|addr _|i addr k p' Hi _ E|i addr k rest p' Hi _ E
    |i addr k rest p' Hi _ E|i n k bs p' Hi E|i n k p' Hi E|i n k p' Hi E|w p' ch fr _ E|i c _];
    rw /psys_ring; simpl; try by exists q.
  - destruct (pipewrite_spec _ _ _ _ _ _ _ _ Hr E) as (took & rest & -> & Hr' & _ & _ & ->).
    rw app_nil_r. by eexists.
  - destruct (pipewrite_spec _ _ _ _ _ _ _ _ Hr E) as (took & rest' & -> & Hr' & _ & _ & -> & _).
    rw take_prefix. by eexists.
  - destruct (pipewrite_spec _ _ _ _ _ _ _ _ Hr E) as (took & rest' & -> & Hr' & _ & _ & -> & _).
    rw take_prefix. by eexists.
  - rw /piperead in E. case_match; [by destruct k|].
    destruct (piperead_copy_spec _ (Z.to_nat n) _ _ _ Hr) as (p1 & Ec & Hr' & _ & _).
    rw Ec in E. injection E as <- <-. by eexists.
  - rw /piperead in E. case_match; [destruct k; [injection E as <-; by exists q|done]|].
    by destruct (piperead_copy _ _).
  - rw /piperead in E. case_match; [destruct k; [done|injection E as <-; by exists q]|].
    by destruct (piperead_copy _ _).
  - exists q. rw /pipeclose in E. destruct w; injection E as <- <- _; by destruct Hr.
Qed.

(** C17. A pipe is a first-in first-out queue.  However any number of readers and writers
    are interleaved, killed, or the ends closed, the bytes readers have been given
    are, in order, a prefix of the bytes writers have put in, and at most 512 bytes
    are in between; the 32-bit counters may wrap around any number of times. *)
Theorem pipe_fifo wk d y :
  length d = 512%nat → rtc (psys_step wk) (psys_init d) y →
  ∃ q, sy_in y = sy_out y ++ q ∧ (length q ≤ 512)%nat.
Proof.
  intros Hd Hsteps. assert (psys_ring y) as [q Hr]; [|by exists q; destruct Hr].
  assert (psys_ring (psys_init d)) as H0.
  { exists []. split; simpl; try done. lia. }
  clear Hd. revert H0. induction Hsteps as [|y1 y2 y3 H12 _ IH]; [done|].
  intros H1. by eapply IH, psys_step_ring.
Qed.

(** ** Nobody sleeps in vain *)

(** A writer sleeps only on a full pipe whose read end is open, a reader only on an
    empty one whose write end is. *)
Definition sleeper_ok (p : pipe) (t : pthread) : Prop :=
  th_asleep t = true →
  match th_call t with
  | PWrite _ => pi_full p = true ∧ pi_readopen p = true
  | PRead _ => pi_empty p = true ∧ pi_writeopen p = true
  end.

(** ... and calls are only in progress on open ends. *)
Definition thread_ok (p : pipe) (t : pthread) : Prop :=
  sleeper_ok p t ∧ (if is_writer t then pi_writeopen p = true else pi_readopen p = true).

Definition sleep_inv (y : psys) : Prop := Forall (thread_ok (sy_pipe y)) (sy_threads y).

Lemma wake_all_ok w p p' ts :
  (∀ t, t ∈ ts → thread_ok p t → thread_ok p' (wake_thread w t)) →
  Forall (thread_ok p) ts → Forall (thread_ok p') (wake_all w ts).
Proof.
  intros H HF. apply Forall_fmap, Forall_forall => t Ht. rewrite -> Forall_forall in HF. by auto.
Qed.

(** What a writer's stretch does to the other threads. *)
Lemma write_ok p addr killed r p' t :
  pipewrite p addr killed = (r, p') → pi_readopen p' = pi_readopen p →
  pi_writeopen p' = pi_writeopen p → thread_ok p t → thread_ok p' (wake_thread NRead t).
Proof.
  intros E H1 H2 [Hs Ho]. destruct t as [[rest|n] a]; rw /thread_ok /sleeper_ok /is_writer /= in Hs Ho |- *.
  - split; [|congruence]. intros Ha. destruct (Hs Ha) as [Hf Hro].
    rw (pipewrite_full _ _ _ _ _ Hf E). done.
  - split; [done|]. congruence.
Qed.

Lemma piperead_fail p n k p' : piperead p n k = (RFail, p') → p' = p.
Proof.
  rw /piperead. case_match; [destruct k; [by intros [= <-]|done]|]. by destruct (piperead_copy _ _).
Qed.

Lemma psys_step_sleep y y' : psys_ring y → sleep_inv y → psys_step false y y' → sleep_inv y'.
Proof.
  intros [q Hr] HS Hs. destruct Hs as [n Ho|addr Ho|i addr k p' Hi Hk E|i addr k rest p' Hi Hk E
    |i addr k rest p' Hi Hk E|i n k bs p' Hi E|i n k p' Hi E|i n k p' Hi E|w p' ch fr Hw E|i c Hi];
    rw /sleep_inv /=.
  - apply Forall_app. split; [done|]. by apply Forall_singleton.
  - apply Forall_app. split; [done|]. by apply Forall_singleton.
  - destruct (pipewrite_spec _ _ _ _ _ _ _ _ Hr E) as (took & rest & _ & _ & H1 & H2 & _).
    apply Forall_delete. eapply wake_all_ok; [|exact HS]. intros t _. by eapply write_ok.
  - destruct (pipewrite_spec _ _ _ _ _ _ _ _ Hr E) as (took & rest' & _ & _ & H1 & H2 & _ & _ & [H3|?]).
    2: { destruct k; [by specialize (Hk eq_refl)|done]. }
    apply Forall_delete. eapply Forall_impl; [exact HS|]. intros [c a] [Hs Ho].
    rw /thread_ok /sleeper_ok /is_writer /= H1 H2 in Hs Ho |- *. destruct c; simpl in *.
    + split; [|done]. intros Ha. destruct (Hs Ha). congruence.
    + congruence.
  - destruct (pipewrite_spec _ _ _ _ _ _ _ _ Hr E) as (took & rest' & _ & _ & H1 & H2 & _ & H3 & H4).
    apply Forall_insert.
    + eapply wake_all_ok; [|exact HS]. intros t _. by eapply write_ok.
    + split; [done|]. simpl. rw H2. eapply Forall_lookup_1 in HS as [_ Ho]; [|exact Hi]. done.
  - rw /piperead in E. destruct (pi_empty (sy_pipe y) && _) eqn:Hne; [by destruct k|].
    destruct (piperead_copy_spec _ (Z.to_nat n) _ _ _ Hr) as (p1 & Ec & _ & H1 & H2).
    rw Ec in E. injection E as _ <-. apply Forall_delete. eapply wake_all_ok; [|exact HS].
    intros [[rest|m] a] _ [Hs Ho]; rw /thread_ok /sleeper_ok /is_writer /= in Hs Ho |- *.
    + split; [done|congruence].
    + split; [|congruence]. intros Ha. destruct (Hs Ha) as [He Hwo]. by rw He Hwo in Hne.
  - rw (piperead_fail _ _ _ _ E). by apply Forall_delete.
  - rw /piperead in E. destruct (pi_empty (sy_pipe y) && _) eqn:He; [|by destruct (piperead_copy _ _)].
    destruct k; [done|]. injection E as <-. apply andb_true_iff in He as [He Hwo].
    apply Forall_insert; [done|]. split; [done|]. simpl.
    eapply Forall_lookup_1 in HS as [_ Ho]; [|exact Hi]. done.
  - apply Forall_fmap, Forall_forall => t Ht. rw /sleep_inv in HS. rewrite -> Forall_forall in HS, Hw.
    specialize (HS t Ht) as [Hs Ho]. specialize (Hw t Ht). rw /pipeclose in E.
    destruct w, t as [[rest|m] a]; simpl in Hw; try done; injection E as <- <- _;
      rw /thread_ok /sleeper_ok /is_writer /= in Hs Ho |- *; done.
  - apply Forall_insert; [done|]. split; [done|].
    eapply Forall_lookup_1 in HS as [_ Ho]; [|exact Hi]. done.
Qed.

(** C35. Nobody sleeps in vain on a pipe.  As long as no writer is killed inside
    [pipewrite], in every reachable state a sleeping writer sleeps on a full pipe
    that can still be read, and a sleeping reader on an empty pipe that can still be
    written; so a reader and a writer never sleep at the same time. *)
Theorem pipe_no_lost_wakeup d y t :
  length d = 512%nat → rtc (psys_step false) (psys_init d) y →
  t ∈ sy_threads y → sleeper_ok (sy_pipe y) t ∧
  (th_asleep t = true → ∀ u, u ∈ sy_threads y → th_asleep u = true → is_writer u = is_writer t).
Proof.
  intros Hd Hsteps. assert (psys_ring (psys_init d) ∧ sleep_inv (psys_init d)) as H0.
  { split; [exists []; split; simpl; try done; lia|by constructor]. }
  assert (psys_ring y ∧ sleep_inv y) as [[q Hr] HS].
  { clear Hd. revert H0. induction Hsteps as [|y1 y2 y3 H12 _ IH]; [done|]. intros [H1 H2].
    apply IH. split; [by eapply psys_step_ring|by eapply psys_step_sleep]. }
  rw /sleep_inv in HS. rewrite -> Forall_forall in HS. intros Ht. split; [by apply HS|]. intros Ha u Hu Hua.
  destruct (HS t Ht) as [Hst _], (HS u Hu) as [Hsu _]. specialize (Hst Ha). specialize (Hsu Hua).
  assert (¬ (pi_full (sy_pipe y) = true ∧ pi_empty (sy_pipe y) = true)) as Hno.
  { intros [Hf He]. apply (ring_full _ _ _ _ Hr) in Hf. apply (ring_empty _ _ _ _ Hr) in He as ->.
    simpl in Hf. lia. }
  rw /is_writer. destruct (th_call t), (th_call u); try done; exfalso; apply Hno; naive_solver.
Qed.

(** ** A killed writer *)

(** A killed writer can leave a reader asleep on a full pipe.  [pipewrite] checks for
    being killed after it has filled the pipe and returns -1 without waking the
    readers: there is a run after which a reader sleeps although 512 bytes wait for
    it and the write end is open. *)
Theorem pipe_killed_writer_strands_reader :
  ∃ y n, rtc (psys_step true) (psys_init (replicate 512 0)) y ∧
    sy_threads y = [mkPth (PRead n) true] ∧ pi_full (sy_pipe y) = true ∧
    pi_writeopen (sy_pipe y) = true.
Proof.
  set (b := replicate 600 7).
  destruct (pipewrite (pipe_init (replicate 512 0)) b true) as [r p'] eqn:E.
  assert (r = WFail (replicate 88 7) ∧ pi_full p' = true ∧ pi_writeopen p' = true) as (-> & Hf & Hw).
  { vm_compute in E. injection E as <- <-. by vm_compute. }
  exists (mkPsys p' [mkPth (PRead 1) true] ([] ++ take (length b - length (replicate 88 7)) b) []), 1.
  split; [|split; [|split; [exact Hf|exact Hw]]].
  - eapply rtc_l; [apply (ps_call_read _ _ 1); done|].
    eapply rtc_l; [apply (ps_read_sleep _ _ 0 1 false); done|].
    eapply rtc_l; [apply (ps_call_write _ _ b); done|].
    eapply rtc_l; [|apply rtc_refl].
    exact (ps_write_fail true (mkPsys _ [mkPth (PRead 1) true; mkPth (PWrite b) false] [] []) 1 b true _ p'
      eq_refl (λ _, eq_refl) E).
  - done.
Qed.

(** ** Examples *)

Lemma pipe_fifo_witness :
  ∃ y, rtc (psys_step false) (psys_init (replicate 512 0)) y ∧ sy_out y = [1; 2] ∧
    ∃ q, sy_in y = sy_out y ++ q ∧ (length q ≤ 512)%nat.
Proof.
  set (p0 := pipe_init (replicate 512 0)). set (p1 := snd (pipewrite p0 [1; 2; 3] false)).
  set (y1 := mkPsys p0 [mkPth (PWrite [1; 2; 3]) false] [] []).
  set (y2 := mkPsys p1 [] [1; 2; 3] []).
  set (y3 := mkPsys p1 [mkPth (PRead 2) false] [1; 2; 3] []).
  set (y := mkPsys (snd (piperead p1 2 false)) [] [1; 2; 3] [1; 2]).
  assert (rtc (psys_step false) (psys_init (replicate 512 0)) y) as Hy.
  { apply (rtc_l _ _ y1); [by apply (ps_call_write _ (psys_init _))|].
    apply (rtc_l _ _ y2); [by apply (ps_write _ y1 0 [1; 2; 3] false)|].
    apply (rtc_l _ _ y3); [by apply (ps_call_read _ y2)|].
    apply (rtc_l _ _ y); [by apply (ps_read _ y3 0 2 false [1; 2])|]. apply rtc_refl. }
  exists y. split; [done|]. split; [done|]. by apply (pipe_fifo false (replicate 512 0)).
Defined.

Lemma pipe_no_lost_wakeup_witness :
  ∃ y, rtc (psys_step false) (psys_init (replicate 512 0)) y ∧
    sleeper_ok (sy_pipe y) (mkPth (PRead 5) true).
Proof.
  set (y := mkPsys (pipe_init (replicate 512 0)) [mkPth (PRead 5) true] [] []).
  assert (rtc (psys_step false) (psys_init (replicate 512 0)) y) as Hy.
  { set (y1 := mkPsys (pipe_init (replicate 512 0)) [mkPth (PRead 5) false] [] []).
    apply (rtc_l _ _ y1); [by apply (ps_call_read _ (psys_init _))|].
    apply (rtc_l _ _ y); [by apply (ps_read_sleep _ y1 0 5 false)|]. apply rtc_refl. }
  exists y. split; [done|].
  apply (pipe_no_lost_wakeup (replicate 512 0) y); [done|done|constructor].
Defined.
