(* ===== verification/Bio.v ===== *)
(** * Sleep locks, the disk and the buffer cache (sleeplock.c, memide.c, bio.c)

    The buffer cache as the code has it: an array of buffers linked into a ring
    through [prev] and [next], with the list head as one more element.  Loops over
    the ring carry fuel for its length.  The spin lock [bcache.lock] makes each
    operation atomic; the sleep lock of a buffer is its [locked] and [pid] fields,
    and a call that would wait for it ends as [Sleeps].  The disk is memide.c's, an
    array of blocks. *)

From S2P Require Import Prelude Params.

(** ** sleeplock.c *)

Record sleeplock := mkSl { sl_locked : bool; sl_pid : Z }.

(** [initsleeplock] *)
Definition initsleeplock : sleeplock := mkSl false 0.

(** The operations by process [me]: [None] is going to sleep. *)
Definition acquiresleep (me : Z) (lk : sleeplock) : option sleeplock :=
  if sl_locked lk then None else Some (mkSl true me).
Definition releasesleep (lk : sleeplock) : sleeplock := mkSl false 0.
Definition holdingsleep (me : Z) (lk : sleeplock) : bool := sl_locked lk && (sl_pid lk =? me).

(** ** buf.h *)

Definition B_VALID : Z := 2.
Definition B_DIRTY : Z := 4.

(** Blocks are lists of [BSIZE] bytes. *)
Abbreviation block := (list Z).

Record buf := mkBuf {
  b_flags : Z;
  b_dev : Z;
  b_blockno : Z;
  b_lock : sleeplock;
  b_refcnt : Z;
  b_prev : nat;       (* LRU cache list *)
  b_next : nat;
  b_data : block;
}.
#[export] Instance buf_inhabited : Inhabited buf := populate (mkBuf 0 0 0 (mkSl false 0) 0 0 0 []).

Definition set_flags (x : Z) (b : buf) : buf :=
  mkBuf x (b_dev b) (b_blockno b) (b_lock b) (b_refcnt b) (b_prev b) (b_next b) (b_data b).
Definition set_id (dev blockno : Z) (b : buf) : buf :=
  mkBuf (b_flags b) dev blockno (b_lock b) (b_refcnt b) (b_prev b) (b_next b) (b_data b).
Definition set_block (x : sleeplock) (b : buf) : buf :=
  mkBuf (b_flags b) (b_dev b) (b_blockno b) x (b_refcnt b) (b_prev b) (b_next b) (b_data b).
Definition set_refcnt (x : Z) (b : buf) : buf :=
  mkBuf (b_flags b) (b_dev b) (b_blockno b) (b_lock b) x (b_prev b) (b_next b) (b_data b).
Definition set_prev (x : nat) (b : buf) : buf :=
  mkBuf (b_flags b) (b_dev b) (b_blockno b) (b_lock b) (b_refcnt b) x (b_next b) (b_data b).
Definition set_next (x : nat) (b : buf) : buf :=
  mkBuf (b_flags b) (b_dev b) (b_blockno b) (b_lock b) (b_refcnt b) (b_prev b) x (b_data b).
Definition set_data (x : block) (b : buf) : buf :=
  mkBuf (b_flags b) (b_dev b) (b_blockno b) (b_lock b) (b_refcnt b) (b_prev b) (b_next b) x.

(** ** The state *)

(** [bcache.buf] with [bcache.head] as element [NBUF]; the disk; the running
    process; and the contents the disk had before each write, latest first, any of
    which a crash may leave. *)
Record bstate := mkBs { bs_buf : list buf; bs_disk : list block; bs_me : Z; bs_hist : list (list block) }.

Definition head : nat := Z.to_nat NBUF.

Definition set_bufs (l : list buf) (s : bstate) : bstate := mkBs l (bs_disk s) (bs_me s) (bs_hist s).
Definition set_disk (d : list block) (s : bstate) : bstate :=
  mkBs (bs_buf s) d (bs_me s) (bs_disk s :: bs_hist s).

Definition getb {A} (i : nat) (f : buf → A) : M bstate A := gets (λ s, f (bs_buf s !!! i)).
Definition updb (i : nat) (f : buf → buf) : M bstate unit :=
  modify (λ s, set_bufs (alter f i (bs_buf s)) s).

(** ** memide.c *)

(** [flags & mask] *)
Definition has (flags mask : Z) : bool := negb (Z.land flags mask =? 0).

Definition iderw (i : nat) : M bstate unit :=
  me ← gets bs_me;
  lk ← getb i b_lock;
  if negb (holdingsleep me lk) then panic "iderw: buf not locked" else
  fl ← getb i b_flags;
  if Z.land fl (Z.lor B_VALID B_DIRTY) =? B_VALID then panic "iderw: nothing to do" else
  dev ← getb i b_dev;
  if negb (dev =? 1) then panic "iderw: request not for disk 1" else
  blockno ← getb i b_blockno;
  d ← gets bs_disk;
  if Z.of_nat (length d) <=? blockno then panic "iderw: block out of range" else
  (if has fl B_DIRTY then
     updb i (set_flags (Z.land fl (Z.lnot B_DIRTY))) ;;
     data ← getb i b_data;
     modify (set_disk (<[Z.to_nat blockno := data]> d))
   else updb i (set_data (d !!! Z.to_nat blockno))) ;;
  updb i (λ b, set_flags (Z.lor (b_flags b) B_VALID) b).

(** ** bio.c *)

(** [b->next = bcache.head.next; b->prev = &bcache.head;
     bcache.head.next->prev = b; bcache.head.next = b;] *)
Definition push_front (b : nat) : M bstate unit :=
  h ← getb head b_next;
  updb b (set_next h) ;;
  updb b (set_prev head) ;;
  h ← getb head b_next;
  updb h (set_prev b) ;;
  updb head (set_next b).

(** [b->next->prev = b->prev; b->prev->next = b->next;] *)
Definition unlink (b : nat) : M bstate unit :=
  n ← getb b b_next;
  p ← getb b b_prev;
  updb n (set_prev p) ;;
  p ← getb b b_prev;
  n ← getb b b_next;
  updb p (set_next n).

Fixpoint binit_loop (bs : list nat) : M bstate unit :=
  match bs with
  | [] => mret tt
  | b :: bs => updb b (set_block initsleeplock) ;; push_front b ;; binit_loop bs
  end.
Definition binit : M bstate unit :=
  updb head (set_prev head) ;;
  updb head (set_next head) ;;
  binit_loop (seq 0 (Z.to_nat NBUF)).

(** The two searches of [bget], along [next] and along [prev]. *)
Fixpoint find_cached (fuel : nat) (bufs : list buf) (b : nat) (dev blockno : Z) : option nat :=
  match fuel with
  | O => None
  | S fuel =>
      if decide (b = head) then None
      else if (b_dev (bufs !!! b) =? dev) && (b_blockno (bufs !!! b) =? blockno) then Some b
      else find_cached fuel bufs (b_next (bufs !!! b)) dev blockno
  end.
Fixpoint find_unused (fuel : nat) (bufs : list buf) (b : nat) : option nat :=
  match fuel with
  | O => None
  | S fuel =>
      if decide (b = head) then None
      else if (b_refcnt (bufs !!! b) =? 0) && negb (has (b_flags (bufs !!! b)) B_DIRTY) then Some b
      else find_unused fuel bufs (b_prev (bufs !!! b))
  end.

(** [acquiresleep(&b->lock)] *)
Definition lock_buf (b : nat) : M bstate unit :=
  me ← gets bs_me;
  lk ← getb b b_lock;
  match acquiresleep me lk with
  | None => sleeps
  | Some lk => updb b (set_block lk)
  end.

Definition bget (dev blockno : Z) : M bstate nat :=
  bufs ← gets bs_buf;
  match find_cached (S (Z.to_nat NBUF)) bufs (b_next (bufs !!! head)) dev blockno with
  | Some b =>
      updb b (λ x, set_refcnt (u32 (b_refcnt x + 1)) x) ;;
      lock_buf b ;;
      mret b
  | None =>
      match find_unused (S (Z.to_nat NBUF)) bufs (b_prev (bufs !!! head)) with
      | Some b =>
          updb b (set_id dev blockno) ;;
          updb b (set_flags 0) ;;
          updb b (set_refcnt 1) ;;
          lock_buf b ;;
          mret b
      | None => panic "bget: no buffers"
      end
  end.

Definition bread (dev blockno : Z) : M bstate nat :=
  b ← bget dev blockno;
  fl ← getb b b_flags;
  (if negb (has fl B_VALID) then iderw b else mret tt) ;;
  mret b.

Definition bwrite (b : nat) : M bstate unit :=
  me ← gets bs_me;
  lk ← getb b b_lock;
  if negb (holdingsleep me lk) then panic "bwrite" else
  updb b (λ x, set_flags (Z.lor (b_flags x) B_DIRTY) x) ;;
  iderw b.

Definition brelse (b : nat) : M bstate unit :=
  me ← gets bs_me;
  lk ← getb b b_lock;
  if negb (holdingsleep me lk) then panic "brelse" else
  updb b (λ x, set_block (releasesleep (b_lock x)) x) ;;
  updb b (λ x, set_refcnt (u32 (b_refcnt x - 1)) x) ;;
  rc ← getb b b_refcnt;
  if rc =? 0 then unlink b ;; push_front b else mret tt.

(** ** The ring of buffers *)

Lemma lookup_total_alter (l : list buf) f i j :
  (i < length l)%nat → alter f i l !!! j = if decide (j = i) then f (l !!! i) else l !!! j.
Proof.
  intros Hi. destruct (lookup_lt_is_Some_2 _ _ Hi) as [x Hx].
  rw (list_alter_insert_Some _ _ _ _ Hx) (list_lookup_total_correct l i x Hx).
  case_decide as E; [subst; by rw list_lookup_total_insert_eq|]. by rw list_lookup_total_insert_ne.
Qed.

Definition nx (bufs : list buf) (i : nat) : nat := b_next (bufs !!! i).
Definition pv (bufs : list buf) (i : nat) : nat := b_prev (bufs !!! i).

(** From [x] the links lead through [l] to [y], both ways. *)
Fixpoint seg (n p : nat → nat) (x : nat) (l : list nat) (y : nat) : Prop :=
  match l with
  | [] => n x = y ∧ p y = x
  | z :: l => n x = z ∧ p z = x ∧ seg n p z l y
  end.

Lemma seg_app n p x l1 z l2 y :
  seg n p x (l1 ++ z :: l2) y ↔ seg n p x l1 z ∧ seg n p z l2 y.
Proof. revert x. induction l1 as [|w l1 IH] => x /=; [tauto|]. rw IH. tauto. Qed.

(** [seg] reads [next] of [x] and of [l], and [prev] of [l] and of [y]. *)
Lemma seg_ext n p n' p' x l y :
  seg n p x l y → (∀ i, i ∈ x :: l → n' i = n i) → (∀ i, i ∈ y :: l → p' i = p i) →
  seg n' p' x l y.
Proof.
  revert x. induction l as [|z l IH] => x /=.
  - intros [Hn Hp] Hn' Hp'. rw Hn' ?Hp' //; by constructor.
  - intros (Hn & Hp & Hs) Hn' Hp'. rw Hn'; [by constructor|]. rw Hp'; [by do 2 constructor|].
    split_and!; [done..|]. apply IH; [done| |].
    + intros i Hi. apply Hn'. by constructor.
    + intros i Hi. apply Hp'. apply elem_of_cons in Hi as [->|Hi]; [by constructor|].
      by do 2 constructor.
Qed.

Lemma seg_last n p x l y : seg n p x l y → p y ∈ x :: l.
Proof.
  revert x. induction l as [|z l IH] => x /=; [intros [_ ->]; by constructor|].
  intros (_ & _ & Hs). constructor. by apply IH.
Qed.

Definition fset (f : nat → nat) (i v : nat) : nat → nat := λ j, if decide (j = i) then v else f j.
Lemma fset_eq f i v : fset f i v i = v.
Proof. rw /fset decide_True //. Qed.
Lemma fset_ne f i v j : j ≠ i → fset f i v j = f j.
Proof. intros. rw /fset decide_False //. Qed.

(** Bending the last link of a segment. *)
Lemma seg_retarget n p x l b c :
  seg n p x l b → NoDup (x :: l) → c ∉ l → seg (fset n (p b) c) (fset p c (p b)) x l c.
Proof.
  revert x. induction l as [|z l IH] => x /=.
  { intros [_ ->] _ _. by rw !fset_eq. }
  intros (Hn & Hp & Hs) [Hx Hnd]%NoDup_cons [Hcz Hcl]%not_elem_of_cons.
  pose proof (seg_last _ _ _ _ _ Hs) as Hlast.
  rw fset_ne; [intros ->; by apply Hx|]. rw fset_ne //. split_and!; [done..|]. by apply IH.
Qed.

(** Unlinking [b]. *)
Lemma seg_unlink n p h l1 b l2 :
  NoDup (h :: l1 ++ b :: l2) → seg n p h (l1 ++ b :: l2) h →
  seg (fset n (p b) (n b)) (fset p (n b) (p b)) h (l1 ++ l2) h.
Proof.
  intros Hnd [Hs1 Hs2]%seg_app. pose proof (seg_last _ _ _ _ _ Hs1) as Hlast.
  assert (NoDup (h :: l1)) as Hnd1 by (apply (NoDup_app (h :: l1) (b :: l2)) in Hnd; tauto).
  apply (NoDup_app (h :: l1) (b :: l2)) in Hnd as (_ & Hdis & [Hb Hnd2]%NoDup_cons).
  destruct l2 as [|c l2]; simpl in Hs2.
  - destruct Hs2 as [-> _]. rw app_nil_r. apply seg_retarget; [done..|].
    by apply NoDup_cons in Hnd1 as [].
  - destruct Hs2 as (-> & _ & Hs2). apply seg_app. split.
    + apply seg_retarget; [done..|]. intros Hc. apply (Hdis c); [by constructor|]. do 2 constructor.
    + eapply seg_ext; [done| |].
      * intros i Hi. apply fset_ne. intros ->. apply (Hdis (p b) Hlast). by constructor.
      * intros i Hi. apply fset_ne. intros ->. apply NoDup_cons in Hnd2 as [Hc _].
        apply elem_of_cons in Hi as [->|?]; [|done]. apply (Hdis h); [by constructor|]. do 2 constructor.
Qed.

(** Linking [b] in after the head. *)
Lemma seg_push n p h l b :
  b ∉ h :: l → NoDup (h :: l) → seg n p h l h →
  let n1 := fset n b (n h) in
  seg (fset n1 h b) (fset (fset p b h) (n h) b) h (b :: l) h.
Proof.
  intros [Hbh Hbl]%not_elem_of_cons [Hh Hnd]%NoDup_cons Hs n1. simpl. rw fset_eq. split; [done|].
  destruct l as [|c l]; simpl in Hs.
  - destruct Hs as [En Hp]. simpl. rw En. split; [rw fset_ne // fset_eq //|].
    rw fset_ne // /n1 !fset_eq. done.
  - destruct Hs as (En & Hp & Hs). apply not_elem_of_cons in Hbl as [Hbc Hbl].
    apply not_elem_of_cons in Hh as [Hhc Hhl]. apply NoDup_cons in Hnd as [Hcl Hnd]. rw En.
    split; [rw fset_ne // fset_eq //|]. simpl. rw fset_ne // /n1 !fset_eq. split_and!; [done..|].
    eapply seg_ext; [done| |].
    + intros i Hi. rw !fset_ne //; intros ->; apply elem_of_cons in Hi as [?|?]; done.
    + intros i Hi. rw !fset_ne //; intros ->; apply elem_of_cons in Hi as [?|?]; done.
Qed.

(** What the links do not touch. *)
Definition core (b : buf) : Z * Z * Z * sleeplock * Z * block :=
  (b_flags b, b_dev b, b_blockno b, b_lock b, b_refcnt b, b_data b).
Definition same_core (l l' : list buf) : Prop :=
  length l' = length l ∧ ∀ i, core (l' !!! i) = core (l !!! i).

Lemma same_core_refl l : same_core l l.
Proof. done. Qed.
Lemma same_core_trans l1 l2 l3 : same_core l1 l2 → same_core l2 l3 → same_core l1 l3.
Proof. intros [L1 C1] [L2 C2]. split; [congruence|]. intros i. by rw C2 C1. Qed.
Lemma same_core_alter l i f :
  (i < length l)%nat → (∀ b, core (f b) = core b) → same_core l (alter f i l).
Proof.
  intros Hi Hf. split; [apply length_alter|]. intros j. rw lookup_total_alter //.
  case_decide; [subst; apply Hf|done].
Qed.

(** The links after [prev] or [next] of one element is set. *)
Lemma nx_set_next l i v j : (i < length l)%nat → nx (alter (set_next v) i l) j = fset (nx l) i v j.
Proof. intros. rw /nx lookup_total_alter // /fset. by case_decide. Qed.
Lemma pv_set_next l i v j : (i < length l)%nat → pv (alter (set_next v) i l) j = pv l j.
Proof. intros. rw /pv lookup_total_alter //. case_decide; by subst. Qed.
Lemma pv_set_prev l i v j : (i < length l)%nat → pv (alter (set_prev v) i l) j = fset (pv l) i v j.
Proof. intros. rw /pv lookup_total_alter // /fset. by case_decide. Qed.
Lemma nx_set_prev l i v j : (i < length l)%nat → nx (alter (set_prev v) i l) j = nx l j.
Proof. intros. rw /nx lookup_total_alter //. case_decide; by subst. Qed.

Lemma push_front_ok s b :
  let l := bs_buf s in
  (b < length l)%nat → (head < length l)%nat → (nx l head < length l)%nat → b ≠ head →
  ∃ l', push_front b s = Ok (tt, set_bufs l' s) ∧ same_core l l' ∧
    (∀ i, nx l' i = fset (fset (nx l) b (nx l head)) head b i) ∧
    (∀ i, pv l' i = fset (fset (pv l) b head) (nx l head) b i).
Proof.
  intros l Hb Hh Hn Hne. set (l1 := alter (set_next (nx l head)) b l).
  set (l2 := alter (set_prev head) b l1). set (l3 := alter (set_prev b) (nx l head) l2).
  assert (length l1 = length l ∧ length l2 = length l ∧ length l3 = length l) as (L1 & L2 & L3).
  { rw /l3 /l2 /l1 !length_alter //. }
  assert (nx l2 head = nx l head) as E2.
  { rw /l2 nx_set_prev; [lia|]. rw /l1 nx_set_next // fset_ne //. }
  exists (alter (set_next b) head l3). split.
  { rw /push_front /getb /updb. mrun. cbn [set_bufs bs_buf]. rw -/l -/(nx l head) -/l1 -/l2.
    rw -/(nx l2 head) E2 -/l3 //. }
  split; [|split].
  - apply (same_core_trans _ l3); [apply (same_core_trans _ l2); [apply (same_core_trans _ l1)|]|];
      apply same_core_alter; done || lia.
  - intros i. rw nx_set_next; [lia|]. rw /fset. case_decide; [done|].
    rw /l3 nx_set_prev; [lia|]. rw /l2 nx_set_prev; [lia|]. by rw /l1 nx_set_next.
  - intros i. rw pv_set_next; [lia|]. rw /l3 pv_set_prev; [lia|]. rw /fset. case_decide; [done|].
    rw /l2 pv_set_prev; [lia|]. rw /fset. case_decide; [done|]. by rw /l1 pv_set_next.
Qed.

Lemma unlink_ok s b :
  let l := bs_buf s in
  (b < length l)%nat → (nx l b < length l)%nat → (pv l b < length l)%nat → nx l b ≠ b →
  ∃ l', unlink b s = Ok (tt, set_bufs l' s) ∧ same_core l l' ∧
    (∀ i, nx l' i = fset (nx l) (pv l b) (nx l b) i) ∧
    (∀ i, pv l' i = fset (pv l) (nx l b) (pv l b) i).
Proof.
  intros l Hb Hn Hp Hne. set (l1 := alter (set_prev (pv l b)) (nx l b) l).
  assert (length l1 = length l) as L1 by rw length_alter //.
  assert (pv l1 b = pv l b ∧ nx l1 b = nx l b) as [E1 E2].
  { rw /l1 pv_set_prev // fset_ne // nx_set_prev //. }
  exists (alter (set_next (nx l b)) (pv l b) l1). split.
  { rw /unlink /getb /updb. mrun. cbn [set_bufs bs_buf]. rw -/l -/(nx l b) -/(pv l b) -/l1.
    rw -/(pv l1 b) -/(nx l1 b) E1 E2 //. }
  split; [|split].
  - eapply same_core_trans; [apply (same_core_alter _ (nx l b) (set_prev (pv l b)))|]; try done.
    apply same_core_alter; [lia|done].
  - intros i. rw nx_set_next; [lia|]. rw /fset. case_decide; [done|]. by rw /l1 nx_set_prev.
  - intros i. rw pv_set_next; [lia|]. by rw /l1 pv_set_prev.
Qed.

(** ** The cache's invariant *)

Definition nbuf : nat := Z.to_nat NBUF.

(** One buffer: its flags are none, valid, or valid and dirty; a buffer of the disk
    that is unlocked, valid and clean holds what the disk holds; an unused one is
    unlocked. *)
Record buf_ok (d : list block) (b : buf) : Prop := {
  bo_flags : b_flags b ∈ [0; 2; 6];
  bo_range : b_dev b = 1 → 0 ≤ b_blockno b < Z.of_nat (length d);
  bo_clean : b_dev b = 1 → sl_locked (b_lock b) = false → b_flags b = 2 →
    b_data b = d !!! Z.to_nat (b_blockno b);
  bo_ref : 0 ≤ b_refcnt b < 4294967296;
  bo_free : b_refcnt b = 0 → sl_locked (b_lock b) = false;
}.

(** [l] is the order of the ring, most recently used first.  No block is cached
    twice. *)
Record bc_inv (s : bstate) (l : list nat) : Prop := {
  bi_len : length (bs_buf s) = S nbuf;
  bi_ring : seg (nx (bs_buf s)) (pv (bs_buf s)) head l head;
  bi_perm : l ≡ₚ seq 0 nbuf;
  bi_uniq i j : (i < nbuf)%nat → (j < nbuf)%nat →
    b_dev (bs_buf s !!! i) = 1 → b_dev (bs_buf s !!! j) = 1 →
    b_blockno (bs_buf s !!! i) = b_blockno (bs_buf s !!! j) → i = j;
  bi_ok i : (i < nbuf)%nat → buf_ok (bs_disk s) (bs_buf s !!! i);
}.

(** What a block of the disk contains, as the cache's users see it. *)
Definition caches (blk : Z) (b : buf) : Prop := b_dev b = 1 ∧ b_blockno b = blk ∧ b_flags b ≠ 0.
Definition view (s : bstate) (blk : Z) : block :=
  match list_find (caches blk) (take nbuf (bs_buf s)) with
  | Some (_, b) => b_data b
  | None => bs_disk s !!! Z.to_nat blk
  end.

Lemma bi_elem s l i : bc_inv s l → i ∈ l ↔ (i < nbuf)%nat.
Proof. intros HI. rw (bi_perm _ _ HI) elem_of_seq. lia. Qed.
Lemma bi_nodup s l : bc_inv s l → NoDup (head :: l).
Proof.
  intros HI. apply NoDup_cons. split.
  - rw (bi_elem _ _ _ HI) /head /nbuf. lia.
  - rw (bi_perm _ _ HI). apply NoDup_seq.
Qed.

Lemma lookup_take_buf s l i b :
  bc_inv s l → take nbuf (bs_buf s) !! i = Some b ↔ (i < nbuf)%nat ∧ b = bs_buf s !!! i.
Proof.
  intros HI. rw lookup_take_Some. split.
  - intros [Hb Hi]. split; [done|]. by apply list_lookup_total_correct in Hb.
  - intros [Hi ->]. split; [|done]. apply list_lookup_lookup_total_lt. rw (bi_len _ _ HI). lia.
Qed.

Lemma view_cached s l i :
  bc_inv s l → (i < nbuf)%nat → b_dev (bs_buf s !!! i) = 1 → b_flags (bs_buf s !!! i) ≠ 0 →
  view s (b_blockno (bs_buf s !!! i)) = b_data (bs_buf s !!! i).
Proof.
  intros HI Hi Hd Hf. rw /view.
  destruct (list_find _ _) as [[j b]|] eqn:F.
  - apply list_find_Some in F as (Hj & (H1 & H2 & _) & _).
    apply (lookup_take_buf _ _ _ _ HI) in Hj as [Hj ->]. by rw (bi_uniq _ _ HI j i).
  - apply list_find_None in F. rewrite -> Forall_lookup in F. exfalso.
    apply (F i (bs_buf s !!! i)); [by apply (lookup_take_buf _ _ _ _ HI)|done].
Qed.

Lemma view_uncached s l blk :
  bc_inv s l → (∀ i, (i < nbuf)%nat → ¬ caches blk (bs_buf s !!! i)) →
  view s blk = bs_disk s !!! Z.to_nat blk.
Proof.
  intros HI Hn. rw /view. destruct (list_find _ _) as [[j b]|] eqn:F; [|done].
  apply list_find_Some in F as (Hj & Hc & _).
  apply (lookup_take_buf _ _ _ _ HI) in Hj as [Hj ->]. by destruct (Hn j Hj).
Qed.

(** Two states whose buffers and disk agree on a block have the same view of it. *)
Lemma view_ext s s' l l' blk :
  bc_inv s l → bc_inv s' l' →
  (∀ i, (i < nbuf)%nat → caches blk (bs_buf s !!! i) →
     ∃ j, (j < nbuf)%nat ∧ caches blk (bs_buf s' !!! j) ∧
       b_data (bs_buf s' !!! j) = b_data (bs_buf s !!! i)) →
  ((∀ i, (i < nbuf)%nat → ¬ caches blk (bs_buf s !!! i)) →
     view s' blk = bs_disk s !!! Z.to_nat blk) →
  view s' blk = view s blk.
Proof.
  intros HI HI' Hc Hu. rw {2}/view. destruct (list_find _ _) as [[i b]|] eqn:F.
  - apply list_find_Some in F as (Hi & Hcb & _).
    apply (lookup_take_buf _ _ _ _ HI) in Hi as [Hi ->]. destruct (Hc i Hi Hcb) as (j & Hj & (D & E & Fl) & <-).
    rw -E. by apply (view_cached _ _ _ HI').
  - apply Hu. intros i Hi Hcb. apply list_find_None in F. rewrite -> Forall_lookup in F.
    apply (F i (bs_buf s !!! i)); [by apply (lookup_take_buf _ _ _ _ HI)|done].
Qed.

(** The searches of [bget] in terms of the ring's order. *)
Definition is_block (bufs : list buf) (dev blk : Z) (b : nat) : Prop :=
  b_dev (bufs !!! b) = dev ∧ b_blockno (bufs !!! b) = blk.
Definition unused (bufs : list buf) (b : nat) : Prop :=
  b_refcnt (bufs !!! b) = 0 ∧ has (b_flags (bufs !!! b)) B_DIRTY = false.

Lemma find_cached_spec bufs l x dev blk fuel :
  seg (nx bufs) (pv bufs) x l head → head ∉ l → (length l < fuel)%nat →
  find_cached fuel bufs (nx bufs x) dev blk = snd <$> list_find (is_block bufs dev blk) l.
Proof.
  revert x fuel. induction l as [|y l IH] => x fuel /=.
  - intros [-> _] _ Hf. destruct fuel; [lia|]. done.
  - intros (-> & _ & Hs) [Hh Hl]%not_elem_of_cons Hf. destruct fuel; [lia|]. cbn [find_cached].
    rewrite -> decide_False by done. destruct (_ && _) eqn:E.
    + apply andb_true_iff in E as [E1%Z.eqb_eq E2%Z.eqb_eq]. by rewrite -> decide_True.
    + rewrite -> decide_False.
      * rw -/(nx bufs y) (IH y) //; [lia|]. by destruct (list_find _ l) as [[]|].
      * intros [E1 E2]. by rw E1 E2 !Z.eqb_refl in E.
Qed.

Lemma seg_reverse n p x l y : seg n p x l y → seg p n y (reverse l) x.
Proof.
  revert x. induction l as [|z l IH] => x /=; [tauto|]. intros (Hn & Hp & Hs).
  rw reverse_cons. apply seg_app. split; [by apply IH|]. done.
Qed.

Lemma find_unused_spec bufs l x fuel :
  seg (pv bufs) (nx bufs) x l head → head ∉ l → (length l < fuel)%nat →
  find_unused fuel bufs (pv bufs x) = snd <$> list_find (unused bufs) l.
Proof.
  revert x fuel. induction l as [|y l IH] => x fuel /=.
  - intros [-> _] _ Hf. destruct fuel; [lia|]. done.
  - intros (-> & _ & Hs) [Hh Hl]%not_elem_of_cons Hf. destruct fuel; [lia|]. cbn [find_unused].
    rewrite -> decide_False by done. destruct (_ && _) eqn:E.
    + apply andb_true_iff in E as [E1%Z.eqb_eq E2%negb_true_iff]. by rewrite -> decide_True.
    + rewrite -> decide_False.
      * rw -/(pv bufs y) (IH y) //; [lia|]. by destruct (list_find _ l) as [[]|].
      * intros [E1 E2]. by rw E1 E2 in E.
Qed.

(** ** What the operations do *)

(** Replacing buffer [b], links kept. *)
Lemma bc_inv_upd s l b x d' h :
  bc_inv s l → (b < nbuf)%nat → b_prev x = pv (bs_buf s) b → b_next x = nx (bs_buf s) b →
  buf_ok d' x → length d' = length (bs_disk s) →
  (b_dev x = 1 → ∀ j, (j < nbuf)%nat → j ≠ b → b_dev (bs_buf s !!! j) = 1 →
     b_blockno (bs_buf s !!! j) ≠ b_blockno x) →
  (∀ j, (j < nbuf)%nat → j ≠ b → buf_ok d' (bs_buf s !!! j)) →
  bc_inv (mkBs (<[b := x]> (bs_buf s)) d' (bs_me s) h) l.
Proof.
  intros HI Hb Ep En Hx Hd Hu Hok.
  assert (b < length (bs_buf s))%nat as Hbl by (rw (bi_len _ _ HI); lia).
  assert (∀ j, <[b := x]> (bs_buf s) !!! j = if decide (j = b) then x else bs_buf s !!! j) as Hget.
  { intros j. case_decide; [subst; by rw list_lookup_total_insert_eq|].
    by rw list_lookup_total_insert_ne. }
  split; cbn [bs_buf bs_disk].
  - rw length_insert. apply HI.
  - eapply seg_ext; [apply HI| |]; intros i _; rw /nx /pv Hget; case_decide; by subst.
  - apply HI.
  - intros i j Hi Hj. rw !Hget. case_decide as E1; case_decide as E2; subst; try done.
    + intros D1 D2 E. by destruct (Hu D1 j Hj E2 D2).
    + intros D1 D2 E. by destruct (Hu D2 i Hi E1 D1).
    + by apply HI.
  - intros i Hi. rw Hget. case_decide; [done|]. by apply Hok.
Qed.

Lemma updb_ok s b f :
  (b < length (bs_buf s))%nat →
  updb b f s = Ok (tt, mkBs (<[b := f (bs_buf s !!! b)]> (bs_buf s)) (bs_disk s) (bs_me s) (bs_hist s)).
Proof.
  intros Hb. destruct (lookup_lt_is_Some_2 _ _ Hb) as [x Hx]. rw /updb /modify /set_bufs.
  by rw (list_alter_insert_Some _ _ _ _ Hx) (list_lookup_total_correct _ _ _ Hx).
Qed.

Lemma lock_buf_ok s b :
  (b < length (bs_buf s))%nat → sl_locked (b_lock (bs_buf s !!! b)) = false →
  lock_buf b s = Ok (tt, mkBs (<[b := set_block (mkSl true (bs_me s)) (bs_buf s !!! b)]> (bs_buf s))
                          (bs_disk s) (bs_me s) (bs_hist s)).
Proof.
  intros Hb Hl. rw /lock_buf /getb. mget. rw /acquiresleep Hl. by apply updb_ok.
Qed.

(** A read fills a buffer that is not valid. *)
Lemma iderw_read s b :
  let B := bs_buf s !!! b in
  (b < length (bs_buf s))%nat → holdingsleep (bs_me s) (b_lock B) = true → b_flags B = 0 →
  b_dev B = 1 → 0 ≤ b_blockno B < Z.of_nat (length (bs_disk s)) →
  iderw b s = Ok (tt, mkBs (<[b := set_flags 2 (set_data (bs_disk s !!! Z.to_nat (b_blockno B)) B)]>
    (bs_buf s)) (bs_disk s) (bs_me s) (bs_hist s)).
Proof.
  intros B Hb Hh Hf Hd Hr. rw /iderw /getb. mget. rw -/B Hh. cbn [negb]. mget. rw -/B Hf.
  change (Z.land 0 (Z.lor B_VALID B_DIRTY) =? B_VALID) with false. cbn iota. mget. rw -/B Hd.
  cbn [Z.eqb negb Pos.eqb]. mget. change (has 0 B_DIRTY) with false. cbn iota.
  destruct (Z.leb_spec (Z.of_nat (length (bs_disk s))) (b_blockno (bs_buf s !!! b))); [subst B; lia|].
  mgo (updb_ok s b (set_data (bs_disk s !!! Z.to_nat (b_blockno B))) Hb).
  rw updb_ok; [by rw length_insert|]. cbn [bs_buf bs_disk bs_me bs_hist].
  rw list_lookup_total_insert_eq // list_insert_insert_eq -/B. cbn [b_flags set_data]. rw Hf //.
Qed.

(** A write of a dirty buffer. *)
Lemma iderw_write s b :
  let B := bs_buf s !!! b in
  (b < length (bs_buf s))%nat → holdingsleep (bs_me s) (b_lock B) = true → b_flags B = 6 →
  b_dev B = 1 → 0 ≤ b_blockno B < Z.of_nat (length (bs_disk s)) →
  iderw b s = Ok (tt, mkBs (<[b := set_flags 2 B]> (bs_buf s))
    (<[Z.to_nat (b_blockno B) := b_data B]> (bs_disk s)) (bs_me s) (bs_disk s :: bs_hist s)).
Proof.
  intros B Hb Hh Hf Hd Hr. rw /iderw /getb. mget. rw -/B Hh. cbn [negb]. mget. rw -/B Hf.
  change (Z.land 6 (Z.lor B_VALID B_DIRTY) =? B_VALID) with false. cbn iota. mget. rw -/B Hd.
  cbn [Z.eqb negb Pos.eqb]. mget. change (has 6 B_DIRTY) with true. cbn iota.
  destruct (Z.leb_spec (Z.of_nat (length (bs_disk s))) (b_blockno (bs_buf s !!! b))); [subst B; lia|].
  rw bind_assoc. mgo (updb_ok s b (set_flags 2) Hb). rw bind_assoc. mget. cbn [bs_buf set_disk bs_disk bs_me bs_hist].
  rw updb_ok; [by rw length_insert|]. cbn [bs_buf bs_disk bs_me bs_hist].
  rw list_lookup_total_insert_eq // list_insert_insert_eq -/B //.
Qed.

Lemma view_cases s l k :
  bc_inv s l →
  (∃ i, (i < nbuf)%nat ∧ caches k (bs_buf s !!! i) ∧ view s k = b_data (bs_buf s !!! i)) ∨
  (∀ i, (i < nbuf)%nat → ¬ caches k (bs_buf s !!! i)) ∧ view s k = bs_disk s !!! Z.to_nat k.
Proof.
  intros HI. rw /view. destruct (list_find _ _) as [[i b]|] eqn:F.
  - left. apply list_find_Some in F as (Hi & Hc & _).
    apply (lookup_take_buf _ _ _ _ HI) in Hi as [Hi ->]. by exists i.
  - right. split; [|done]. intros i Hi Hc. apply list_find_None in F. rewrite -> Forall_lookup in F.
    apply (F i (bs_buf s !!! i)); [by apply (lookup_take_buf _ _ _ _ HI)|done].
Qed.

(** The view when buffer [b] is replaced and the disk is not. *)
Lemma view_upd s l b x k :
  bc_inv s l → (b < nbuf)%nat →
  let s' := mkBs (<[b := x]> (bs_buf s)) (bs_disk s) (bs_me s) (bs_hist s) in
  bc_inv s' l →
  (caches k (bs_buf s !!! b) →
     caches k x ∧ b_data x = b_data (bs_buf s !!! b) ∨
     ¬ caches k x ∧ b_data (bs_buf s !!! b) = bs_disk s !!! Z.to_nat k) →
  (caches k x → ¬ caches k (bs_buf s !!! b) → b_data x = bs_disk s !!! Z.to_nat k) →
  view s' k = view s k.
Proof.
  intros HI Hb s' HI' H1 H2.
  assert (b < length (bs_buf s))%nat as Hbl by (rw (bi_len _ _ HI); lia).
  assert (bs_buf s' !!! b = x) as Eb by by rw /s' /= list_lookup_total_insert_eq.
  assert (∀ j, j ≠ b → bs_buf s' !!! j = bs_buf s !!! j) as Eo.
  { intros j Hj. by rw /s' /= list_lookup_total_insert_ne. }
  destruct (view_cases s l k HI) as [(i & Hi & Hc & ->)|[Hn ->]].
  - destruct (decide (i = b)) as [->|Hne].
    + destruct (H1 Hc) as [[Hx Ed]|[Hx Ed]].
      * destruct Hx as (X1 & X2 & X3). rw -Ed -Eb -X2. rewrite <- Eb at 1.
        apply (view_cached _ _ _ HI'); by rw ?Eb.
      * rw Ed. apply (view_uncached s' l k HI'). intros j Hj Hcj.
        destruct (decide (j = b)) as [->|Hj']; [by rw Eb in Hcj|]. rw Eo // in Hcj.
        destruct Hc as (C1 & C2 & _), Hcj as (C3 & C4 & _). apply Hj', (bi_uniq _ _ HI); congruence.
    + destruct Hc as (C1 & C2 & C3). rw -(Eo i Hne) in C1 C2 C3 |- *. rw -C2.
      by apply (view_cached _ _ _ HI').
  - destruct (decide (caches k x)) as [Hx|Hx].
    + destruct (H2 Hx (Hn b Hb)). rewrite <- Eb. destruct Hx as (X1 & X2 & X3). rw -X2. rewrite <- Eb at 1.
      apply (view_cached _ _ _ HI'); by rw ?Eb.
    + apply (view_uncached s' l k HI'). intros j Hj Hcj.
      destruct (decide (j = b)) as [->|Hj']; [by rw Eb in Hcj|]. rw Eo // in Hcj. by apply (Hn j).
Qed.

(** [b] is the least recently used buffer that may be recycled. *)
Definition last_unused (bufs : list buf) (l : list nat) (b : nat) : Prop :=
  unused bufs b ∧ ∃ l1 l2, l = l1 ++ b :: l2 ∧ Forall (λ j, ¬ unused bufs j) l2.

Lemma last_unused_find bufs l i b :
  list_find (unused bufs) (reverse l) = Some (i, b) → last_unused bufs l b.
Proof.
  intros (Hi & Hu & Hn)%list_find_Some. split; [done|].
  exists (reverse (drop (S i) (reverse l))), (reverse (take i (reverse l))). split.
  - rw -[l in LHS](reverse_involutive l) -[in LHS](take_drop_middle _ _ _ Hi).
    by rw reverse_app reverse_cons -app_assoc.
  - apply Forall_reverse, Forall_lookup. intros j y [Hy Hj]%lookup_take_Some. by eapply Hn.
Qed.

(** A buffer returned by [bread]: locked by the caller, valid, for block [blk]. *)
Record bread_post s l blk b s' : Prop := {
  br_inv : bc_inv s' l;
  br_idx : (b < nbuf)%nat;
  br_id : b_dev (bs_buf s' !!! b) = 1 ∧ b_blockno (bs_buf s' !!! b) = blk;
  br_lock : b_lock (bs_buf s' !!! b) = mkSl true (bs_me s);
  br_valid : b_flags (bs_buf s' !!! b) ≠ 0;
  br_dirty : b_flags (bs_buf s' !!! b) = 6 ↔ is_block (bs_buf s) 1 blk b ∧ b_flags (bs_buf s !!! b) = 6;
  br_data : b_data (bs_buf s' !!! b) = view s blk;
  br_view k : view s' k = view s k;
  br_disk : bs_disk s' = bs_disk s;
  br_me : bs_me s' = bs_me s;
  br_hist : bs_hist s' = bs_hist s;
  br_others i : i ≠ b → bs_buf s' !!! i = bs_buf s !!! i;
  br_ref : b_refcnt (bs_buf s' !!! b) =
    if decide (is_block (bs_buf s) 1 blk b) then b_refcnt (bs_buf s !!! b) + 1 else 1;
  br_lru : is_block (bs_buf s) 1 blk b ∨ last_unused (bs_buf s) l b;
}.

Lemma has_valid fl : fl ∈ [0; 2; 6] → has fl B_VALID = negb (fl =? 0).
Proof. rw !elem_of_cons elem_of_nil. intros [->|[->|[->|[]]]]; done. Qed.
Lemma has_dirty fl : fl ∈ [0; 2; 6] → has fl B_DIRTY = (fl =? 6).
Proof. rw !elem_of_cons elem_of_nil. intros [->|[->|[->|[]]]]; done. Qed.

(** What [bread] does with the buffer [bget] returns. *)
Definition bread_end (b : nat) : M bstate nat :=
  fl ← getb b b_flags; (if negb (has fl B_VALID) then iderw b else mret tt) ;; mret b.

(** The end of [bread]: buffer [b], locked by the caller, is [x]. *)
Lemma bread_finish s l b x :
  bc_inv s l → (b < nbuf)%nat → let s1 := mkBs (<[b := x]> (bs_buf s)) (bs_disk s) (bs_me s) (bs_hist s) in
  bc_inv s1 l → b_dev x = 1 → b_lock x = mkSl true (bs_me s) →
  ∃ x', (fl ← getb b b_flags; (if negb (has fl B_VALID) then iderw b else mret tt) ;; mret b) s1 =
    Ok (b, mkBs (<[b := x']> (bs_buf s)) (bs_disk s) (bs_me s) (bs_hist s)) ∧
    bc_inv (mkBs (<[b := x']> (bs_buf s)) (bs_disk s) (bs_me s) (bs_hist s)) l ∧
    x' = (if b_flags x =? 0 then set_flags 2 (set_data (bs_disk s !!! Z.to_nat (b_blockno x)) x) else x).
Proof.
  intros HI Hb s1 HI1 Hd Hl.
  assert (b < length (bs_buf s))%nat as Hbl by (rw (bi_len _ _ HI); lia).
  assert (bs_buf s1 !!! b = x) as Eb by by rw /s1 /= list_lookup_total_insert_eq.
  pose proof (bi_ok _ _ HI1 b Hb) as Hok. rw Eb in Hok. destruct Hok as [Of Or Oc Oref Ofr].
  eexists. split; [|split; [|done]].
  - rw /getb. mget. rw Eb has_valid // negb_involutive. destruct (Z.eqb_spec (b_flags x) 0) as [Ef|Ef].
    + mnext (apply iderw_read; rw ?Eb; [by rw /s1 length_insert| |done|done|by apply Or]).
      * rw Eb /s1. cbn [bs_buf bs_disk bs_me bs_hist]. by rw list_insert_insert_eq.
      * by rw Hl /holdingsleep /= Z.eqb_refl.
    + done.
  - destruct (Z.eqb_spec (b_flags x) 0) as [Ef|Ef]; [|done].
    set (x' := set_flags 2 _).
    assert (bc_inv (mkBs (<[b := x']> (bs_buf s1)) (bs_disk s1) (bs_me s1) (bs_hist s1)) l) as H.
    { apply bc_inv_upd; [done|done|by rw /pv Eb|by rw /nx Eb| |done| |].
      - split; simpl; [set_solver|done|by rw Hl|done|done].
      - intros _ j Hj Hne Hdj. intros Ebk. apply Hne. apply (bi_uniq _ _ HI1); try done; by rw Eb.
      - intros j Hj _. by apply HI1. }
    rw /s1 in H. cbn [bs_buf bs_disk bs_me bs_hist] in H. by rw list_insert_insert_eq in H.
Qed.

(** The locked buffer's new value keeps the invariant. *)
Lemma bc_inv_locked s l b x :
  bc_inv s l → (b < nbuf)%nat → b_prev x = pv (bs_buf s) b → b_next x = nx (bs_buf s) b →
  b_flags x ∈ [0; 2; 6] → 0 ≤ b_blockno x < Z.of_nat (length (bs_disk s)) →
  0 < b_refcnt x < 4294967296 → sl_locked (b_lock x) = true →
  (∀ j, (j < nbuf)%nat → j ≠ b → ¬ is_block (bs_buf s) 1 (b_blockno x) j) →
  bc_inv (mkBs (<[b := x]> (bs_buf s)) (bs_disk s) (bs_me s) (bs_hist s)) l.
Proof.
  intros HI Hb Ep En Hf Hr Href Hl Hu. apply bc_inv_upd; try done.
  - split; [done|done|by rw Hl|lia|lia].
  - intros Hd j Hj Hne Hdj E. by apply (Hu j Hj Hne).
  - intros j Hj _. by apply HI.
Qed.

Lemma bread_post_intro s l blk b x' :
  bc_inv s l → (b < nbuf)%nat → let s' := mkBs (<[b := x']> (bs_buf s)) (bs_disk s) (bs_me s) (bs_hist s) in
  bc_inv s' l → b_dev x' = 1 → b_blockno x' = blk → b_lock x' = mkSl true (bs_me s) → b_flags x' ≠ 0 →
  (b_flags x' = 6 ↔ is_block (bs_buf s) 1 blk b ∧ b_flags (bs_buf s !!! b) = 6) →
  (∀ k, view s' k = view s k) →
  b_refcnt x' = (if decide (is_block (bs_buf s) 1 blk b) then b_refcnt (bs_buf s !!! b) + 1 else 1) →
  is_block (bs_buf s) 1 blk b ∨ last_unused (bs_buf s) l b →
  bread_post s l blk b s'.
Proof.
  intros HI Hb s' HI' Hd Hbk Hl Hf Hdirty Hv Href Hrec.
  assert (b < length (bs_buf s))%nat as Hbl by (rw (bi_len _ _ HI); lia).
  assert (bs_buf s' !!! b = x') as Eb by by rw /s' /= list_lookup_total_insert_eq.
  split; rw ?Eb; try done.
  - rw -Hv -Hbk -Eb. symmetry. apply (view_cached s' l); by rw ?Eb.
  - intros i Hi. rw /s' /= list_lookup_total_insert_ne //.
Qed.

(** [bread] of a block that buffer [b] caches. *)
Lemma bread_hit s l blk b :
  bc_inv s l → 0 ≤ blk < Z.of_nat (length (bs_disk s)) → (b < nbuf)%nat → is_block (bs_buf s) 1 blk b →
  sl_locked (b_lock (bs_buf s !!! b)) = false → b_refcnt (bs_buf s !!! b) < 4294967295 →
  ∃ s', ((updb b (λ x, set_refcnt (u32 (b_refcnt x + 1)) x) ;; lock_buf b ;; mret b) ≫= bread_end) s =
    Ok (b, s') ∧ bread_post s l blk b s'.
Proof.
  intros HI Hblk Hb [Hd Hbk] Hul Href. rw /bread_end.
  assert (b < length (bs_buf s))%nat as Hbl by (rw (bi_len _ _ HI); lia).
  set (B := bs_buf s !!! b) in *.
  pose proof (bi_ok _ _ HI b Hb) as Hok. rw -/B in Hok. destruct Hok as [Of Or Oc Oref Ofr].
  set (x := set_block (mkSl true (bs_me s)) (set_refcnt (u32 (b_refcnt B + 1)) B)).
  assert (u32 (b_refcnt B + 1) = b_refcnt B + 1) as Er by (apply u32_small; lia).
  assert (bc_inv (mkBs (<[b := x]> (bs_buf s)) (bs_disk s) (bs_me s) (bs_hist s)) l) as HI1.
  { apply bc_inv_locked; simpl; try done; [by apply Or|lia|]. intros j Hj Hne [H1 H2].
    apply Hne, (bi_uniq _ _ HI); try done; congruence. }
  destruct (bread_finish s l b x HI Hb HI1 Hd eq_refl) as (x' & E & HI' & Ex').
  eexists _. split.
  + rw bind_assoc. mgo (updb_ok s b (λ x, set_refcnt (u32 (b_refcnt x + 1)) x) Hbl). rw bind_assoc.
    mnext (apply lock_buf_ok; cbn [bs_buf]; [by rw length_insert|by rw list_lookup_total_insert_eq]).
    cbn [bs_buf bs_disk bs_me bs_hist]. rw list_lookup_total_insert_eq // list_insert_insert_eq -/B -/x.
    mget. exact E.
  + assert ((b_flags x' = 6 ↔ b_flags B = 6) ∧ b_flags x' ≠ 0 ∧ b_dev x' = 1 ∧ b_blockno x' = blk ∧ b_lock x' = mkSl true (bs_me s) ∧
      b_refcnt x' = b_refcnt B + 1 ∧
      b_data x' = if b_flags B =? 0 then bs_disk s !!! Z.to_nat blk else b_data B)
      as (P0 & P1 & P2 & P3 & P4 & P5 & P6).
    { rw Ex'. cbn [b_flags x set_block set_refcnt]. destruct (Z.eqb_spec (b_flags B) 0); simpl.
      - rw Er. split_and!; try done; [lia|]. by rw Hbk.
      - rw Er. by split_and!. }
    apply bread_post_intro; try done; [rw P0 /is_block -/B; tauto| | |by left].
    * intros k. apply (view_upd s l); try done.
      -- rw -/B. intros (C1 & C2 & C3). left. rw P6. destruct (Z.eqb_spec (b_flags B) 0); [done|].
         split; [|done]. split_and!; congruence.
      -- rw -/B. intros (C1 & C2 & C3) Hn. rw P6. destruct (Z.eqb_spec (b_flags B) 0); [congruence|].
         exfalso. apply Hn. split_and!; congruence.
    * by rewrite -> decide_True.
Qed.

(** [bread] of a block that is not cached, into the unused buffer [b]. *)
Lemma bread_miss s l blk b :
  bc_inv s l → 0 ≤ blk < Z.of_nat (length (bs_disk s)) → (b < nbuf)%nat →
  (∀ j, (j < nbuf)%nat → ¬ is_block (bs_buf s) 1 blk j) → last_unused (bs_buf s) l b →
  ∃ s', ((updb b (set_id 1 blk) ;; updb b (set_flags 0) ;; updb b (set_refcnt 1) ;; lock_buf b ;; mret b) ≫=
      bread_end) s = Ok (b, s') ∧ bread_post s l blk b s'.
Proof.
  intros HI Hblk Hb Hnb Hlru. rw /bread_end. destruct Hlru as [[Href Hdirty] Hlru].
  assert (b < length (bs_buf s))%nat as Hbl by (rw (bi_len _ _ HI); lia).
  set (B := bs_buf s !!! b) in *.
  pose proof (bi_ok _ _ HI b Hb) as Hok. rw -/B in Hok. destruct Hok as [Of Or Oc Oref Ofr].
  set (x := set_block (mkSl true (bs_me s)) (set_refcnt 1 (set_flags 0 (set_id 1 blk B)))).
  assert (bc_inv (mkBs (<[b := x]> (bs_buf s)) (bs_disk s) (bs_me s) (bs_hist s)) l) as HI1.
  { apply bc_inv_locked; simpl; try done; [set_solver|]. intros j Hj _. by apply Hnb. }
  destruct (bread_finish s l b x HI Hb HI1 eq_refl eq_refl) as (x' & E & HI' & Ex').
  eexists _. split.
  + rw bind_assoc. mgo (updb_ok s b (set_id 1 blk) Hbl). rw -/B.
    rw bind_assoc. mnext (apply updb_ok; cbn [bs_buf]; by rw length_insert).
    cbn [bs_buf bs_disk bs_me bs_hist]. rw list_lookup_total_insert_eq // list_insert_insert_eq.
    rw bind_assoc. mnext (apply updb_ok; cbn [bs_buf]; by rw length_insert).
    cbn [bs_buf bs_disk bs_me bs_hist]. rw list_lookup_total_insert_eq // list_insert_insert_eq.
    rw bind_assoc.
    mnext (apply lock_buf_ok; cbn [bs_buf]; [by rw length_insert|
      rw list_lookup_total_insert_eq //; by apply Ofr]).
    cbn [bs_buf bs_disk bs_me bs_hist]. rw list_lookup_total_insert_eq // list_insert_insert_eq -/x.
    mget. exact E.
  + assert (x' = set_flags 2 (set_data (bs_disk s !!! Z.to_nat blk) x)) as -> by by rw Ex'.
    apply bread_post_intro; try done; [| | |right; by split].
    { split; [done|]. by intros [?%Hnb _]. }
    * intros k. apply (view_upd s l); try done.
      -- rw -/B. intros (C1 & C2 & C3). right.
         assert (k ≠ blk) as Hk by (intros ->; by apply (Hnb b Hb)).
         split; [by intros (_ & ? & _)|]. rw -C2. apply Oc; [done|by apply Ofr|].
         rw has_dirty // in Hdirty. apply Z.eqb_neq in Hdirty.
         rw !elem_of_cons elem_of_nil in Of. destruct Of as [?|[?|[?|[]]]]; done.
      -- intros (_ & <- & _) _. done.
    * rewrite -> decide_False; [done|]. by apply Hnb.
Qed.

Lemma bread_ok s l blk :
  bc_inv s l → 0 ≤ blk < Z.of_nat (length (bs_disk s)) →
  (∀ i, (i < nbuf)%nat → is_block (bs_buf s) 1 blk i →
     sl_locked (b_lock (bs_buf s !!! i)) = false ∧ b_refcnt (bs_buf s !!! i) < 4294967295) →
  (∃ i, (i < nbuf)%nat ∧ (is_block (bs_buf s) 1 blk i ∨ unused (bs_buf s) i)) →
  ∃ b s', bread 1 blk s = Ok (b, s') ∧ bread_post s l blk b s'.
Proof.
  intros HI Hblk Hfree (u & Hu & Hunused).
  pose proof (bi_nodup _ _ HI) as Hnd. apply NoDup_cons in Hnd as [Hh Hnd].
  assert (length l = nbuf) as Hll by (rw (bi_perm _ _ HI) length_seq //).
  change (bread 1 blk) with (bget 1 blk ≫= bread_end). rw /bget. rw bind_assoc. mget.
  change (b_next (bs_buf s !!! head)) with (nx (bs_buf s) head).
  change (b_prev (bs_buf s !!! head)) with (pv (bs_buf s) head).
  rw (find_cached_spec _ l head); [apply HI|done|rw Hll /nbuf; lia|].
  destruct (list_find (is_block (bs_buf s) 1 blk) l) as [[i b]|] eqn:F; cbn [fmap option_fmap option_map snd].
  - apply list_find_Some in F as (Hi & [Hd Hbk] & _).
    assert (b < nbuf)%nat as Hb by (apply (bi_elem _ _ _ HI); by eapply list_elem_of_lookup_2).
    destruct (Hfree b Hb) as [Hul Href]; [done|].
    destruct (bread_hit s l blk b) as (s' & E & P); try done. by exists b, s'.
  - apply list_find_None in F. rewrite -> Forall_forall in F.
    assert (∀ j, (j < nbuf)%nat → ¬ is_block (bs_buf s) 1 blk j) as Hnb.
    { intros j Hj. apply F. by apply (bi_elem _ _ _ HI). }
    rw (find_unused_spec _ (reverse l) head); [apply seg_reverse, HI|by rw elem_of_reverse|
      rw length_reverse Hll /nbuf; lia|].
    destruct (list_find (unused (bs_buf s)) (reverse l)) as [[i b]|] eqn:G;
      cbn [fmap option_fmap option_map snd].
    2: { exfalso. destruct Hunused as [?%Hnb|Hunused]; [done|done|].
         apply list_find_None in G. rewrite -> Forall_forall in G. apply (G u); [|done].
         by rw elem_of_reverse (bi_elem _ _ _ HI). }
    pose proof (last_unused_find _ _ _ _ G) as Hlru.
    apply list_find_Some in G as (Hi & _ & _).
    assert (b < nbuf)%nat as Hb.
    { apply (bi_elem _ _ _ HI). apply elem_of_reverse. by eapply list_elem_of_lookup_2. }
    destruct (bread_miss s l blk b) as (s' & E & P); try done. by exists b, s'.
Qed.

Lemma core_inj b b' : core b = core b' → b_flags b = b_flags b' ∧ b_dev b = b_dev b' ∧
  b_blockno b = b_blockno b' ∧ b_lock b = b_lock b' ∧ b_refcnt b = b_refcnt b' ∧ b_data b = b_data b'.
Proof. rw /core. by intros [= -> -> -> -> -> ->]. Qed.

(** Relinking the ring. *)
Lemma bc_inv_links s l l' bufs' :
  bc_inv s l → same_core (bs_buf s) bufs' → seg (nx bufs') (pv bufs') head l' head →
  l' ≡ₚ seq 0 nbuf →
  bc_inv (set_bufs bufs' s) l' ∧ ∀ k, view (set_bufs bufs' s) k = view s k.
Proof.
  intros HI [Hlen Hc] Hs Hp.
  assert (∀ i, core (bufs' !!! i) = core (bs_buf s !!! i)) as Hc' by done.
  assert (bc_inv (set_bufs bufs' s) l') as HI'.
  { split; cbn [bs_buf bs_disk set_bufs].
    - rw Hlen. apply HI.
    - done.
    - done.
    - intros i j Hi Hj. destruct (core_inj _ _ (Hc i)) as (_ & -> & -> & _).
      destruct (core_inj _ _ (Hc j)) as (_ & -> & -> & _). by apply HI.
    - intros i Hi. destruct (bi_ok _ _ HI i Hi) as [Of Or Oc Oref Ofr].
      destruct (core_inj _ _ (Hc i)) as (E1 & E2 & E3 & E4 & E5 & E6).
      split; rw ?E1 ?E2 ?E3 ?E4 ?E5 ?E6 //. }
  split; [done|]. intros k. apply (view_ext _ _ l l'); try done.
  - intros i Hi (C1 & C2 & C3). exists i. destruct (core_inj _ _ (Hc i)) as (E1 & E2 & E3 & _ & _ & E6).
    rw /caches /= E1 E2 E3 E6. by split_and!.
  - intros Hn. apply (view_uncached _ _ _ HI'). intros i Hi. cbn [bs_buf set_bufs].
    destruct (core_inj _ _ (Hc i)) as (E1 & E2 & E3 & _). rw /caches E1 E2 E3. by apply Hn.
Qed.

(** The links of the ring stay inside the array. *)
Lemma ring_bounds s l i :
  bc_inv s l → i ∈ head :: l →
  (nx (bs_buf s) i < length (bs_buf s))%nat ∧ (pv (bs_buf s) i < length (bs_buf s))%nat ∧
  (i < length (bs_buf s))%nat.
Proof.
  intros HI Hi. assert (∀ j, j ∈ head :: l → (j < length (bs_buf s))%nat) as Hb.
  { intros j. rw (bi_len _ _ HI) elem_of_cons (bi_elem _ _ _ HI) /head /nbuf. lia. }
  assert (∀ n p x l y, seg n p x l y → ∀ j, j ∈ x :: l → n j ∈ y :: l) as Hn.
  { clear. intros n p x l y. revert x. induction l as [|z l IH] => x /=.
    - intros [Hx _] j [->|[]%elem_of_nil]%elem_of_cons. rw Hx. constructor.
    - intros (Hx & _ & Hs) j [->|Hj]%elem_of_cons; [rw Hx; by do 2 constructor|].
      specialize (IH z Hs j Hj). apply elem_of_cons in IH as [->|?]; [by constructor|].
      by do 2 constructor. }
  split_and!; [| |by apply Hb].
  - apply Hb, (Hn _ _ _ _ _ (bi_ring _ _ HI)), Hi.
  - apply Hb. pose proof (Hn _ _ _ _ _ (seg_reverse _ _ _ _ _ (bi_ring _ _ HI)) i) as H.
    rw !elem_of_cons !elem_of_reverse in H. apply elem_of_cons, H. by apply elem_of_cons in Hi.
Qed.

(** Moving [b] to the front of the ring. *)
Lemma move_front_ok s l1 b l2 :
  bc_inv s (l1 ++ b :: l2) →
  ∃ bufs', (unlink b ;; push_front b) s = Ok (tt, set_bufs bufs' s) ∧ same_core (bs_buf s) bufs' ∧
    bc_inv (set_bufs bufs' s) (b :: l1 ++ l2) ∧ ∀ k, view (set_bufs bufs' s) k = view s k.
Proof.
  intros HI. pose proof (bi_nodup _ _ HI) as Hnd. pose proof (bi_ring _ _ HI) as Hs.
  assert (b ∈ head :: l1 ++ b :: l2) as Hbin by (rw elem_of_cons elem_of_app elem_of_cons; auto).
  destruct (ring_bounds s _ b HI Hbin) as (B1 & B2 & B3).
  assert (nx (bs_buf s) b ≠ b) as Hne.
  { apply seg_app in Hs as [_ Hs]. apply NoDup_cons in Hnd as [Hh Hnd].
    apply NoDup_app in Hnd as (_ & _ & [Hb _]%NoDup_cons).
    destruct l2 as [|c l2]; simpl in Hs; destruct Hs as (-> & _); intros E.
    - apply Hh. rw E elem_of_app elem_of_cons. auto.
    - apply Hb. rw E. constructor. }
  destruct (unlink_ok s b B3 B1 B2 Hne) as (u & E1 & C1 & N1 & P1).
  assert (seg (nx u) (pv u) head (l1 ++ l2) head) as Hs1.
  { eapply seg_ext; [by apply seg_unlink|done|done]. }
  assert (NoDup (head :: l1 ++ l2) ∧ b ∉ head :: l1 ++ l2) as [Hnd' Hb'].
  { apply NoDup_cons in Hnd as [Hh Hnd]. rw -(Permutation_middle l1 l2 b) in Hh Hnd.
    apply NoDup_cons in Hnd as [Hb Hnd]. apply not_elem_of_cons in Hh as [Hbh Hh].
    split; [by apply NoDup_cons|]. apply not_elem_of_cons. split; [congruence|done]. }
  destruct C1 as [L1 C1].
  assert (nx u head < length u)%nat as Hnh.
  { assert (head ∈ head :: l1 ++ b :: l2) as Hhin by constructor.
    destruct (ring_bounds s _ head HI Hhin) as (B4 & _). rw L1 N1 /fset. by case_decide. }
  apply not_elem_of_cons in Hb' as [Hbh Hb'].
  destruct (push_front_ok (set_bufs u s) b) as (v & E2 & [L2 C2] & N2 & P2); cbn [bs_buf set_bufs];
    [lia|rw L1 (bi_len _ _ HI) /head /nbuf; lia|done|done|].
  exists v. split; [by mgo E1|].
  assert (same_core (bs_buf s) v) as Hc.
  { split; [cbn [bs_buf set_bufs] in L2; congruence|]. intros i. rw C2. apply C1. }
  split; [done|]. apply (bc_inv_links s (l1 ++ b :: l2)); [done|done| |].
  - eapply seg_ext; [apply (seg_push (nx u) (pv u) head (l1 ++ l2) b); [|done|done]|done|done].
    by apply not_elem_of_cons.
  - rw (Permutation_middle l1 l2 b). apply HI.
Qed.

(** [brelse] of a buffer whose contents are on the disk or pinned as dirty: [s'] and
    the new order of the ring. *)
Record brelse_post s l b s' l' : Prop := {
  bl_inv : bc_inv s' l';
  bl_buf : b_flags (bs_buf s' !!! b) = b_flags (bs_buf s !!! b) ∧
    sl_locked (b_lock (bs_buf s' !!! b)) = false ∧
    b_refcnt (bs_buf s' !!! b) = b_refcnt (bs_buf s !!! b) - 1 ∧
    b_dev (bs_buf s' !!! b) = b_dev (bs_buf s !!! b) ∧
    b_blockno (bs_buf s' !!! b) = b_blockno (bs_buf s !!! b);
  bl_view k : view s' k = view s k;
  bl_disk : bs_disk s' = bs_disk s;
  bl_me : bs_me s' = bs_me s;
  bl_hist : bs_hist s' = bs_hist s;
  bl_others i : i ≠ b → core (bs_buf s' !!! i) = core (bs_buf s !!! i);
  bl_order : if decide (b_refcnt (bs_buf s !!! b) = 1)
    then ∃ l1 l2, l = l1 ++ b :: l2 ∧ l' = b :: l1 ++ l2 else l' = l;
}.

Lemma brelse_ok s l b :
  bc_inv s l → (b < nbuf)%nat → b_dev (bs_buf s !!! b) = 1 →
  b_lock (bs_buf s !!! b) = mkSl true (bs_me s) → 0 < b_refcnt (bs_buf s !!! b) →
  (b_flags (bs_buf s !!! b) = 2 →
     b_data (bs_buf s !!! b) = bs_disk s !!! Z.to_nat (b_blockno (bs_buf s !!! b))) →
  ∃ s' l', brelse b s = Ok (tt, s') ∧ brelse_post s l b s' l'.
Proof.
  intros HI Hb Hd Hl Href Hsync.
  assert (b < length (bs_buf s))%nat as Hbl by (rw (bi_len _ _ HI); lia).
  set (B := bs_buf s !!! b) in *. destruct (bi_ok _ _ HI b Hb) as [Of Or Oc Oref Ofr].
  rw -/B in Of Or Oc Oref Ofr.
  set (x := set_refcnt (u32 (b_refcnt B - 1)) (set_block (mkSl false 0) B)).
  assert (u32 (b_refcnt B - 1) = b_refcnt B - 1) as Er by (apply u32_small; lia).
  set (s1 := mkBs (<[b := x]> (bs_buf s)) (bs_disk s) (bs_me s) (bs_hist s)).
  assert (bs_buf s1 !!! b = x) as Eb by by rw /s1 /= list_lookup_total_insert_eq.
  assert (∀ i, i ≠ b → bs_buf s1 !!! i = bs_buf s !!! i) as Eo.
  { intros i Hi. by rw /s1 /= list_lookup_total_insert_ne. }
  assert (bc_inv s1 l) as HI1.
  { apply bc_inv_upd; try done.
    - split; simpl; [done|done| |rw Er; lia|done]. intros _ _ Hf. by apply Hsync.
    - intros _ j Hj Hne Hdj E. by apply Hne, (bi_uniq _ _ HI).
    - intros j Hj _. by apply HI. }
  assert (∀ k, view s1 k = view s k) as Hv1.
  { intros k. apply (view_upd s l b x); try done; by left. }
  assert (brelse b s = (if b_refcnt B - 1 =? 0 then unlink b ;; push_front b else mret tt) s1) as Es.
  { rw /brelse /getb. mget. rw -/B Hl /holdingsleep /= Z.eqb_refl. cbn [negb].
    mgo (updb_ok s b (λ x, set_block (releasesleep (b_lock x)) x) Hbl). rw -/B.
    mnext (apply updb_ok; cbn [bs_buf]; by rw length_insert).
    cbn [bs_buf bs_disk bs_me bs_hist]. rw list_lookup_total_insert_eq // list_insert_insert_eq.
    rw gets_bind. cbn [bs_buf]. rw list_lookup_total_insert_eq //. cbn [b_refcnt set_refcnt set_block].
    rw /s1 /x Er; done. }
  destruct (Z.eqb_spec (b_refcnt B - 1) 0) as [E0|E0].
  - assert (b ∈ l) as (l1 & l2 & El)%list_elem_of_split by by apply (bi_elem _ _ _ HI).
    rw El in HI1. destruct (move_front_ok s1 l1 b l2 HI1) as (u & Eu & [Lu Cu] & HIu & Hvu).
    exists (set_bufs u s1), (b :: l1 ++ l2). split; [by rw Es|].
    destruct (core_inj _ _ (Cu b)) as (F1 & F2 & F3 & F4 & F5 & _). rw Eb in F1 F2 F3 F4 F5.
    split; cbn [bs_buf bs_disk bs_me bs_hist set_bufs]; try done.
    + rw F1 F2 F3 F4 F5 /x /= Er -/B. by split_and!.
    + intros k. by rw Hvu Hv1.
    + intros i Hi. by rw Cu Eo.
    + rewrite -> decide_True by (rw -/B; lia). by exists l1, l2.
  - exists s1, l. split; [by rw Es|]. split; try done.
    + rw Eb /x /= Er -/B. by split_and!.
    + intros i Hi. by rw Eo.
    + rewrite -> decide_False; [done|]. rw -/B. lia.
Qed.

(** [bwrite] of a valid buffer. *)
Lemma bwrite_ok s l b :
  bc_inv s l → (b < nbuf)%nat → let B := bs_buf s !!! b in
  b_dev B = 1 → b_lock B = mkSl true (bs_me s) → b_flags B ≠ 0 →
  let s' := mkBs (<[b := set_flags 2 B]> (bs_buf s)) (<[Z.to_nat (b_blockno B) := b_data B]> (bs_disk s))
    (bs_me s) (bs_disk s :: bs_hist s) in
  bwrite b s = Ok (tt, s') ∧ bc_inv s' l ∧ ∀ k, 0 ≤ k → view s' k = view s k.
Proof.
  intros HI Hb B Hd Hl Hf s'.
  assert (b < length (bs_buf s))%nat as Hbl by (rw (bi_len _ _ HI); lia).
  destruct (bi_ok _ _ HI b Hb) as [Of Or Oc Oref Ofr]. rw -/B in Of Or Oc Oref Ofr.
  assert (Z.lor (b_flags B) B_DIRTY = 6) as E6.
  { rw !elem_of_cons elem_of_nil in Of. destruct Of as [?|[->|[->|[]]]]; done. }
  assert (bwrite b s = Ok (tt, s')) as E.
  { rw /bwrite /getb. mget. rw -/B Hl /holdingsleep /= Z.eqb_refl. cbn [negb].
    mgo (updb_ok s b (λ x, set_flags (Z.lor (b_flags x) B_DIRTY) x) Hbl). rw -/B E6.
    rw iderw_write; cbn [bs_buf bs_disk bs_me bs_hist]; rw ?length_insert ?list_lookup_total_insert_eq //.
    - by rw /= Hl /holdingsleep /= Z.eqb_refl.
    - by apply Or.
    - by rw list_insert_insert_eq. }
  split; [done|].
  assert (∀ j, (j < nbuf)%nat → j ≠ b → b_dev (bs_buf s !!! j) = 1 →
    b_blockno (bs_buf s !!! j) ≠ b_blockno B) as Hother.
  { intros j Hj Hne Hdj E'. by apply Hne, (bi_uniq _ _ HI). }
  assert (bc_inv s' l) as HI'.
  { apply bc_inv_upd; try done.
    - split; simpl; [set_solver|by rw length_insert|by rw Hl|done|done].
    - by rw length_insert.
    - intros j Hj Hne. destruct (bi_ok _ _ HI j Hj) as [O1 O2 O3 O4 O5]. split; try done.
      + by rw length_insert.
      + intros D1 D2 D3. rw list_lookup_total_insert_ne; [|by apply O3].
        specialize (O2 D1). specialize (Or Hd). specialize (Hother j Hj Hne D1). lia. }
  split; [done|].
  assert (bs_buf s' !!! b = set_flags 2 B) as Eb by by rw /s' /= list_lookup_total_insert_eq.
  assert (∀ i, i ≠ b → bs_buf s' !!! i = bs_buf s !!! i) as Eo.
  { intros i Hi. by rw /s' /= list_lookup_total_insert_ne. }
  intros k Hk. apply (view_ext s s' l l k HI HI').
  - intros i Hi Hc. exists i. destruct (decide (i = b)) as [->|Hi']; [|by rw Eo].
    rw Eb. destruct Hc as (C1 & C2 & C3). by split_and!.
  - intros Hn. assert (k ≠ b_blockno B) as Hkb by (intros ->; by apply (Hn b Hb)).
    rw (view_uncached s' l k HI').
    + intros i Hi. destruct (decide (i = b)) as [->|Hi']; [|rw Eo //; by apply Hn].
      rw Eb. by intros (_ & ? & _).
    + rw /s' /=. specialize (Or Hd). rw list_lookup_total_insert_ne //. lia.
Qed.
