(* ===== verification/BioSpec.v ===== *)
(** * What the buffer cache promises to its callers

    The abstract state of bio.c as log.c and fs.c use it: the buffers a process holds
    ([held], from buffer to block number), the blocks that are pinned in the cache by
    [B_DIRTY] ([pin]), what each block contains as read through the cache ([view]) and
    what is on the disk.  [brep] relates it to the ring of buffers of Bio.v; the
    lemmas below are the contract of each operation in these terms. *)
From S2P Require Import Prelude Params Bio.

Record brep (s : bstate) (l : list nat) (held : gmap nat Z) (pin : gset Z) : Prop := {
  rp_inv : bc_inv s l;
  rp_held i n : held !! i = Some n → (i < nbuf)%nat ∧ b_dev (bs_buf s !!! i) = 1 ∧
    b_blockno (bs_buf s !!! i) = n ∧ b_flags (bs_buf s !!! i) ≠ 0 ∧
    b_lock (bs_buf s !!! i) = mkSl true (bs_me s) ∧ b_refcnt (bs_buf s !!! i) = 1;
  rp_free i : (i < nbuf)%nat → held !! i = None →
    sl_locked (b_lock (bs_buf s !!! i)) = false ∧ b_refcnt (bs_buf s !!! i) = 0;
  rp_dirty i : (i < nbuf)%nat → b_flags (bs_buf s !!! i) = 6 →
    b_dev (bs_buf s !!! i) = 1 ∧ b_blockno (bs_buf s !!! i) ∈ pin;
  rp_pin n : n ∈ pin → ∃ i, (i < nbuf)%nat ∧ b_dev (bs_buf s !!! i) = 1 ∧
    b_blockno (bs_buf s !!! i) = n ∧ b_flags (bs_buf s !!! i) = 6;
}.

(** ** A buffer to recycle *)

Lemma brep_unused s l held pin :
  brep s l held pin → (size held + size pin < nbuf)%nat →
  ∃ i, (i < nbuf)%nat ∧ unused (bs_buf s) i.
Proof.
  intros R Hsz. destruct (decide (Exists (unused (bs_buf s)) (seq 0 nbuf))) as [E|E].
  { apply Exists_exists in E as (i & Hi & Hu). apply elem_of_seq in Hi. exists i. split; [lia|done]. }
  exfalso. apply not_Exists_Forall in E; [|intros; apply _]. rewrite -> Forall_forall in E.
  set (hs := filter (λ i, i ∈ dom held) (seq 0 nbuf)).
  set (ds := filter (λ i, i ∉ dom held) (seq 0 nbuf)).
  assert (length hs + length ds = nbuf)%nat as Hlen.
  { transitivity (length (seq 0 nbuf)); [|apply length_seq]. rw -length_app. apply Permutation_length, filter_app_complement. }
  assert (length hs ≤ size held)%nat as Hh.
  { rw -size_dom -(size_list_to_set (C:=gset nat)); [apply NoDup_filter, NoDup_seq|].
    apply subseteq_size. intros i. rw elem_of_list_to_set list_elem_of_filter. by intros []. }
  assert (∀ i, i ∈ ds → (i < nbuf)%nat ∧ b_dev (bs_buf s !!! i) = 1 ∧ b_blockno (bs_buf s !!! i) ∈ pin)
    as Hds.
  { intros i. rw list_elem_of_filter not_elem_of_dom. intros [Hn Hi].
    assert (i < nbuf)%nat as Hi' by (apply elem_of_seq in Hi; lia). split; [done|].
    apply (rp_dirty _ _ _ _ R); [done|]. destruct (rp_free _ _ _ _ R i Hi' Hn) as [_ H0].
    destruct (decide (b_flags (bs_buf s !!! i) = 6)) as [|Hf]; [done|]. destruct (E i Hi). split; [done|].
    rw has_dirty; [apply (bi_ok _ _ (rp_inv _ _ _ _ R) i Hi')|]. by apply Z.eqb_neq. }
  assert (length ds ≤ size pin)%nat as Hd; [|lia].
  rw -(length_fmap (λ i, b_blockno (bs_buf s !!! i)) ds) -(size_list_to_set (C:=gset Z)).
  - apply NoDup_fmap_2_strong; [|apply NoDup_filter, NoDup_seq]. intros i j Hi Hj Eb.
    destruct (Hds i Hi) as (I1 & I2 & _), (Hds j Hj) as (J1 & J2 & _).
    by apply (bi_uniq _ _ (rp_inv _ _ _ _ R)).
  - apply subseteq_size. intros n. rw elem_of_list_to_set list_elem_of_fmap.
    intros (i & -> & Hi). by apply Hds.
Qed.

(** ** The operations *)

(** A held block is cached by the buffer that holds it. *)
Lemma brep_view s l held pin i n :
  brep s l held pin → held !! i = Some n → view s n = b_data (bs_buf s !!! i).
Proof.
  intros R Hi. destruct (rp_held _ _ _ _ R i n Hi) as (H1 & H2 & <- & H4 & _).
  by apply (view_cached _ _ _ (rp_inv _ _ _ _ R)).
Qed.

Lemma bread_rep s l held pin n :
  brep s l held pin → 0 ≤ n < Z.of_nat (length (bs_disk s)) → (∀ i, held !! i ≠ Some n) →
  n ∈ pin ∨ (size held + size pin < nbuf)%nat →
  ∃ b s', bread 1 n s = Ok (b, s') ∧ bread_post s l n b s' ∧ held !! b = None ∧
    brep s' l (<[b := n]> held) pin.
Proof.
  intros R Hn Hnh Hsz.
  assert (∀ i, (i < nbuf)%nat → is_block (bs_buf s) 1 n i → held !! i = None) as Hfree.
  { intros i Hi [_ E]. destruct (held !! i) as [m|] eqn:Eh; [|done].
    destruct (rp_held _ _ _ _ R i m Eh) as (_ & _ & Em & _). destruct (Hnh i). congruence. }
  destruct (bread_ok s l n) as (b & s' & E & P); [apply R|done| | |].
  { intros i Hi Hb. destruct (rp_free _ _ _ _ R i Hi (Hfree i Hi Hb)) as [? ->]. split; [done|lia]. }
  { destruct Hsz as [Hp|Hsz].
    - destruct (rp_pin _ _ _ _ R n Hp) as (i & I1 & I2 & I3 & _). exists i. split; [done|by left].
    - destruct (brep_unused _ _ _ _ R Hsz) as (i & Hi & Hu). exists i. split; [done|by right]. }
  exists b, s'. split; [done|]. split; [done|].
  destruct P as [PI Px [Pd Pb] Pl Pf P6 Pdata Pv Pdisk Pme Phist Po Pref Pl'].
  assert (held !! b = None) as Hb.
  { destruct Pl' as [Hb|[[Hr _] _]]; [by apply Hfree|]. destruct (held !! b) as [m|] eqn:Eh; [|done].
    destruct (rp_held _ _ _ _ R b m Eh) as (_ & _ & _ & _ & _ & Hr'). rw Hr' in Hr. done. }
  split; [done|]. split; [done| | | |].
  - intros i m Hi. destruct (decide (i = b)) as [->|Hne].
    + rw lookup_insert_eq in Hi. injection Hi as <-. do 5 (split; [by rw ?Pme|]). rw Pref.
      destruct (rp_free _ _ _ _ R b Px Hb) as [_ ->]. by case_decide.
    + rw lookup_insert_ne // in Hi. rw Po // Pme. by apply (rp_held _ _ _ _ R).
  - intros i Hi Hn'. destruct (decide (i = b)) as [->|Hne]; [by rw lookup_insert_eq in Hn'|].
    rw lookup_insert_ne // in Hn'. rw Po //. by apply (rp_free _ _ _ _ R).
  - intros i Hi Hf. destruct (decide (i = b)) as [->|Hne]; [|rw Po // in Hf |- *; by apply (rp_dirty _ _ _ _ R)].
    apply P6 in Hf as [[Ed Eb] Hf]. split; [done|]. rw Pb -Eb. by apply (rp_dirty _ _ _ _ R).
  - intros m Hm. destruct (rp_pin _ _ _ _ R m Hm) as (i & H1 & H2 & H3 & H4).
    exists i. split; [done|]. destruct (decide (i = b)) as [->|Hne]; [|by rw Po].
    assert (m = n) as -> by (destruct Pl' as [[_ E']|[[_ Hd] _]]; [congruence|]; by rw H4 in Hd).
    split; [done|]. split; [done|]. by apply P6.
Qed.

(** Changing a held buffer's flags or data. *)
Lemma held_upd s l held pin i n x d h :
  brep s l held pin → held !! i = Some n →
  let B := bs_buf s !!! i in let s' := mkBs (<[i := x]> (bs_buf s)) d (bs_me s) h in
  b_dev x = b_dev B → b_blockno x = b_blockno B → b_lock x = b_lock B → b_refcnt x = b_refcnt B →
  b_flags x ≠ 0 → bc_inv s' l →
  brep s' l held (if decide (b_flags x = 6) then {[n]} ∪ pin else pin ∖ {[n]}).
Proof.
  intros R Hi B s' Ed Eb El Er Hf HI'.
  destruct (rp_held _ _ _ _ R i n Hi) as (Hib & H1 & H2 & H3 & H4 & H5). rw -/B in H1 H2 H3 H4 H5.
  assert (i < length (bs_buf s))%nat as Hil by (rw (bi_len _ _ (rp_inv _ _ _ _ R)); lia).
  assert (bs_buf s' !!! i = x) as Ex by by rw /s' /= list_lookup_total_insert_eq.
  assert (∀ j, j ≠ i → bs_buf s' !!! j = bs_buf s !!! j) as Eo.
  { intros j Hj. by rw /s' /= list_lookup_total_insert_ne. }
  assert (∀ j, (j < nbuf)%nat → j ≠ i → b_dev (bs_buf s !!! j) = 1 → b_blockno (bs_buf s !!! j) ≠ n) as Hu.
  { intros j Hj Hne Hd En. apply Hne, (bi_uniq _ _ (rp_inv _ _ _ _ R)); try done. by rw En -H2. }
  split; [done| | | |].
  - intros j m Hj. destruct (decide (j = i)) as [->|Hne]; [|rw Eo //; by apply (rp_held _ _ _ _ R)].
    assert (m = n) as -> by congruence. rw Ex. change (bs_me s') with (bs_me s). split; [done|].
    split_and!; congruence.
  - intros j Hj Hn. assert (j ≠ i) as Hne by congruence. rw Eo //. by apply (rp_free _ _ _ _ R).
  - intros j Hj Hfj. destruct (decide (j = i)) as [->|Hne].
    + rw Ex in Hfj |- *. rewrite -> decide_True by done. split; [congruence|]. set_solver.
    + rw Eo // in Hfj |- *. destruct (rp_dirty _ _ _ _ R j Hj Hfj) as [Hd Hp]. split; [done|].
      specialize (Hu j Hj Hne Hd). case_decide; set_solver.
  - intros m Hm. destruct (decide (m = n)) as [->|Hmn].
    + exists i. rw Ex. case_decide; [split; [done|]; split_and!; congruence|set_solver].
    + destruct (rp_pin _ _ _ _ R m) as (j & J1 & J2 & J3 & J4); [case_decide; set_solver|].
      assert (j ≠ i) as Hne by (intros ->; rw -/B in J3; congruence). exists j. by rw Eo.
Qed.

(** Storing into [b->data] changes what the held block contains. *)
Lemma set_data_rep s l held pin i n d :
  brep s l held pin → held !! i = Some n →
  ∃ s', updb i (set_data d) s = Ok (tt, s') ∧ brep s' l held pin ∧
    (∀ k, view s' k = if decide (k = n) then d else view s k) ∧
    bs_disk s' = bs_disk s ∧ bs_me s' = bs_me s ∧ bs_hist s' = bs_hist s.
Proof.
  intros R Hi. destruct (rp_held _ _ _ _ R i n Hi) as (Hib & H1 & H2 & H3 & H4 & H5).
  pose proof (rp_inv _ _ _ _ R) as HI.
  assert (i < length (bs_buf s))%nat as Hil by (rw (bi_len _ _ HI); lia).
  set (B := bs_buf s !!! i) in *. eexists. split; [by apply updb_ok|]. rw -/B. set (s' := mkBs _ _ _ _).
  destruct (bi_ok _ _ HI i Hib) as [Of Or Oc Oref Ofr]. rw -/B in Of Or Oc Oref Ofr.
  assert (bc_inv s' l) as HI'.
  { apply bc_inv_locked; try done; [by apply Or|rw /= H5; lia|by rw /= H4|].
    intros j Hj Hne [Hd E]. by apply Hne, (bi_uniq _ _ HI). }
  assert (bs_buf s' !!! i = set_data d B) as Ex by by rw /s' /= list_lookup_total_insert_eq.
  split; [|split; [|done]].
  - assert (brep s' l held (if decide (b_flags B = 6) then {[n]} ∪ pin else pin ∖ {[n]})) as R'
      by by apply (held_upd s l held pin i n (set_data d B)).
    destruct (decide (b_flags B = 6)) as [Hf|Hf].
    + destruct (rp_dirty _ _ _ _ R i Hib Hf) as [_ Hp]. rw -/B H2 in Hp.
      by replace ({[n]} ∪ pin) with pin in R' by set_solver.
    + replace (pin ∖ {[n]}) with pin in R'; [done|]. apply leibniz_equiv, set_equiv. intros m.
      assert (n ∉ pin); [|set_solver]. intros (j & J1 & J2 & J3 & J4)%(rp_pin _ _ _ _ R).
      assert (j = i) as -> by (apply (bi_uniq _ _ HI); try done; by rw J3 -H2). by rw -/B in J4.
  - intros k. case_decide as Hk.
    + subst k. rw -H2. change (b_blockno B) with (b_blockno (set_data d B)). rewrite <- Ex.
      rw (view_cached _ _ _ HI'); by rw ?Ex.
    + assert (∀ x, b_blockno x = n → ¬ caches k x) as Hc by (intros x E (_ & ? & _); congruence).
      apply (view_upd s l); try done; by intros ?%Hc.
Qed.

(** [b->flags |= B_DIRTY] pins the block in the cache. *)
Lemma set_dirty_rep s l held pin i n :
  brep s l held pin → held !! i = Some n →
  ∃ s', updb i (λ x, set_flags (Z.lor (b_flags x) B_DIRTY) x) s = Ok (tt, s') ∧
    brep s' l held ({[n]} ∪ pin) ∧ (∀ k, view s' k = view s k) ∧
    bs_disk s' = bs_disk s ∧ bs_me s' = bs_me s ∧ bs_hist s' = bs_hist s.
Proof.
  intros R Hi. destruct (rp_held _ _ _ _ R i n Hi) as (Hib & H1 & H2 & H3 & H4 & H5).
  pose proof (rp_inv _ _ _ _ R) as HI.
  assert (i < length (bs_buf s))%nat as Hil by (rw (bi_len _ _ HI); lia).
  set (B := bs_buf s !!! i) in *. eexists. split; [by apply updb_ok|]. rw -/B.
  destruct (bi_ok _ _ HI i Hib) as [Of Or Oc Oref Ofr]. rw -/B in Of Or Oc Oref Ofr.
  assert (Z.lor (b_flags B) B_DIRTY = 6) as E6.
  { rw !elem_of_cons elem_of_nil in Of. destruct Of as [?|[->|[->|[]]]]; done. }
  rw E6. set (s' := mkBs _ _ _ _).
  assert (bc_inv s' l) as HI'.
  { apply bc_inv_locked; try done; [set_solver|by apply Or|rw /= H5; lia|by rw /= H4|].
    intros j Hj Hne [Hd E]. by apply Hne, (bi_uniq _ _ HI). }
  split; [|split; [|done]].
  - by apply (held_upd s l held pin i n (set_flags 6 B)).
  - intros k. apply (view_upd s l); try done; rw -/B.
    + intros (C1 & C2 & C3). left. by split_and!.
    + intros (C1 & C2 & C3) Hn. by destruct Hn.
Qed.

(** [bwrite] puts the block on the disk and unpins it. *)
Lemma bwrite_rep s l held pin i n :
  brep s l held pin → held !! i = Some n →
  ∃ s', bwrite i s = Ok (tt, s') ∧ brep s' l held (pin ∖ {[n]}) ∧ (∀ k, 0 ≤ k → view s' k = view s k) ∧
    bs_disk s' = <[Z.to_nat n := view s n]> (bs_disk s) ∧ bs_me s' = bs_me s ∧
    bs_hist s' = bs_disk s :: bs_hist s.
Proof.
  intros R Hi. destruct (rp_held _ _ _ _ R i n Hi) as (Hib & H1 & H2 & H3 & H4 & H5).
  destruct (bwrite_ok s l i (rp_inv _ _ _ _ R) Hib H1 H4 H3) as (E & HI' & Hv).
  eexists. split; [done|]. split; [|split; [done|]].
  - apply (held_upd s l held pin i n (set_flags 2 (bs_buf s !!! i))); try done.
  - cbn [bs_disk bs_me]. by rw H2 (brep_view _ _ _ _ _ _ R Hi).
Qed.

(** [brelse] of a block that is pinned or that the disk has. *)
Lemma brelse_rep s l held pin i n :
  brep s l held pin → held !! i = Some n → (n ∈ pin ∨ view s n = bs_disk s !!! Z.to_nat n) →
  ∃ s' l1 l2, l = l1 ++ i :: l2 ∧ brelse i s = Ok (tt, s') ∧
    brep s' (i :: l1 ++ l2) (delete i held) pin ∧
    (∀ k, view s' k = view s k) ∧ bs_disk s' = bs_disk s ∧ bs_me s' = bs_me s ∧ bs_hist s' = bs_hist s.
Proof.
  intros R Hi Hsync. destruct (rp_held _ _ _ _ R i n Hi) as (Hib & H1 & H2 & H3 & H4 & H5).
  destruct (brelse_ok s l i) as (s' & l' & E & P); try done; [apply R|lia| |].
  { intros Hf. destruct Hsync as [Hp|Hv].
    - destruct (rp_pin _ _ _ _ R n Hp) as (j & J1 & J2 & J3 & J4).
      assert (j = i) as -> by (apply (bi_uniq _ _ (rp_inv _ _ _ _ R)); try done; congruence). congruence.
    - by rw -(brep_view _ _ _ _ _ _ R Hi) H2. }
  destruct P as [PI (P1 & P2 & P3 & P4 & P5) Pv Pd Pm Ph Po Pord].
  rewrite -> decide_True in Pord by done. destruct Pord as (l1 & l2 & -> & ->).
  exists s', l1, l2. do 2 (split; [done|]). split; [|done].
  split; [done| | | |].
  - intros j m [Hne Hj]%lookup_delete_Some. destruct (core_inj _ _ (Po j (not_eq_sym Hne))) as
      (-> & -> & -> & -> & -> & _). rw Pm. by apply (rp_held _ _ _ _ R).
  - intros j Hj Hn. destruct (decide (j = i)) as [->|Hne]; [rw P2 P3 H5; done|].
    destruct (core_inj _ _ (Po j Hne)) as (_ & _ & _ & -> & -> & _). rw lookup_delete_ne // in Hn.
    by apply (rp_free _ _ _ _ R).
  - intros j Hj. destruct (decide (j = i)) as [->|Hne]; [rw P1 P4 P5; by apply (rp_dirty _ _ _ _ R)|].
    destruct (core_inj _ _ (Po j Hne)) as (-> & -> & -> & _). by apply (rp_dirty _ _ _ _ R).
  - intros m Hm. destruct (rp_pin _ _ _ _ R m Hm) as (j & J1 & J2 & J3 & J4). exists j.
    destruct (decide (j = i)) as [->|Hne]; [by rw P1 P4 P5|].
    by destruct (core_inj _ _ (Po j Hne)) as (-> & -> & -> & _).
Qed.

(** ** The cache after [binit] *)

(** A buffer of the zeroed [bcache] array; [z] is a block of zeroes. *)
Definition zero_buf (z : block) : buf := mkBuf 0 0 0 (mkSl false 0) 0 0 0 z.
Definition zero_cache (z : block) (d : list block) (me : Z) : bstate :=
  mkBs (replicate (S nbuf) (zero_buf z)) d me [].

Lemma binit_run z d me :
  ∃ bufs, binit (zero_cache z d me) = Ok (tt, mkBs bufs d me []) ∧ length bufs = S nbuf ∧
    seg (nx bufs) (pv bufs) head (reverse (seq 0 nbuf)) head ∧
    Forall (λ b, core b = (0, 0, 0, mkSl false 0, 0, z)) bufs.
Proof.
  eexists. split; [vm_compute; reflexivity|]. split; [done|]. split.
  - vm_compute. tauto.
  - by repeat constructor.
Qed.

Lemma binit_rep z d me :
  ∃ s, binit (zero_cache z d me) = Ok (tt, s) ∧ brep s (reverse (seq 0 nbuf)) ∅ ∅ ∧
    (∀ k, view s k = d !!! Z.to_nat k) ∧ bs_disk s = d ∧ bs_me s = me ∧ bs_hist s = [].
Proof.
  destruct (binit_run z d me) as (bufs & E & Hlen & Hseg & Hall). exists (mkBs bufs d me []).
  split; [exact E|]. clear E.
  assert (∀ i, (i < nbuf)%nat → core (bufs !!! i) = (0, 0, 0, mkSl false 0, 0, z)) as Hc.
  { intros i Hi. rewrite -> Forall_lookup in Hall. apply (Hall i), list_lookup_lookup_total_lt. lia. }
  clear Hall.
  assert (bc_inv (mkBs bufs d me []) (reverse (seq 0 nbuf))) as HI.
  { split; cbn [bs_buf bs_disk].
    - exact Hlen.
    - exact Hseg.
    - apply reverse_Permutation.
    - clear Hseg. intros i j Hi _ Hd. pose proof (Hc i Hi) as [= ? ? ? ? ? ?]. congruence.
    - clear Hseg. intros i Hi. pose proof (Hc i Hi) as [= E1 E2 E3 E4 E5 E6].
      split; rw ?E1 ?E2 ?E3 ?E4 ?E5 ?E6; try done. set_solver. }
  clear Hseg. split; [|split; [|done]].
  - split; cbn [bs_buf]; [exact HI|done| | |by intros n ?%elem_of_empty].
    + intros i Hi _. pose proof (Hc i Hi) as [= E1 E2 E3 E4 E5 E6]. by rw E4 E5.
    + intros i Hi Hf. pose proof (Hc i Hi) as [= E1 E2 E3 E4 E5 E6]. congruence.
  - intros k. apply (view_uncached _ _ _ HI). intros i Hi (C & _). cbn [bs_buf] in C.
    pose proof (Hc i Hi) as [= E1 E2 E3 E4 E5 E6]. congruence.
Qed.

(** ** The properties *)

(** Reading a block through the cache, storing into its buffer, writing it and
    releasing it never panics or waits when the block is not held and some buffer can
    be recycled; it changes that block, both as the cache presents it and on the disk,
    and no other. *)
Theorem cache_write_through s l held pin n d :
  brep s l held pin → 0 ≤ n < Z.of_nat (length (bs_disk s)) → (∀ i, held !! i ≠ Some n) →
  (size held + size pin < nbuf)%nat →
  ∃ s' l', (b ← bread 1 n; updb b (set_data d) ;; bwrite b ;; brelse b) s = Ok (tt, s') ∧
    brep s' l' held (pin ∖ {[n]}) ∧
    (∀ k, 0 ≤ k → view s' k = if decide (k = n) then d else view s k) ∧
    bs_disk s' = <[Z.to_nat n := d]> (bs_disk s).
Proof.
  intros R Hn Hh Hsz.
  destruct (bread_rep s l held pin n) as (b & s1 & E1 & P1 & Hb & R1); [done..|by right|]. mgo E1.
  destruct (set_data_rep s1 l _ pin b n d R1) as (s2 & E2 & R2 & V2 & D2 & M2); [by rw lookup_insert_eq|].
  mgo E2. destruct (bwrite_rep s2 l _ pin b n R2) as (s3 & E3 & R3 & V3 & D3 & M3); [by rw lookup_insert_eq|].
  mgo E3. assert (view s2 n = d) as Hv by by rw V2 decide_True.
  assert (bs_disk s3 = <[Z.to_nat n := d]> (bs_disk s)) as Hd by by rw D3 D2 Hv (br_disk _ _ _ _ _ P1).
  destruct (brelse_rep s3 l _ _ b n R3) as (s4 & l1 & l2 & -> & E4 & R4 & V4 & D4 & M4).
  { by rw lookup_insert_eq. }
  { right. rw Hd list_lookup_total_insert_eq; [lia|]. by rw V3; [lia|]. }
  exists s4, (b :: l1 ++ l2). split; [done|]. split; [by rw delete_insert_id in R4|].
  split; [|by rw D4]. intros k Hk. rw V4 V3 // V2. case_decide; [done|]. apply P1.
Qed.

(** A block that is not cached replaces the contents of the least recently used
    buffer that nobody references and that is not dirty: every buffer behind it in the
    ring is in use.  Releasing it makes it the most recently used one and keeps the
    order of the others. *)
Theorem bread_recycles_lru s l held pin n :
  brep s l held pin → 0 ≤ n < Z.of_nat (length (bs_disk s)) →
  (∀ i, (i < nbuf)%nat → ¬ is_block (bs_buf s) 1 n i) → (size held + size pin < nbuf)%nat →
  ∃ b s1 s2 l1 l2, bread 1 n s = Ok (b, s1) ∧ brelse b s1 = Ok (tt, s2) ∧
    l = l1 ++ b :: l2 ∧ unused (bs_buf s) b ∧ Forall (λ j, ¬ unused (bs_buf s) j) l2 ∧
    b_data (bs_buf s1 !!! b) = bs_disk s !!! Z.to_nat n ∧
    brep s2 (b :: l1 ++ l2) held pin ∧ ∀ k, view s2 k = view s k.
Proof.
  intros R Hn Hnc Hsz.
  assert (view s n = bs_disk s !!! Z.to_nat n) as Hv.
  { apply (view_uncached s l n (rp_inv _ _ _ _ R)). intros i Hi (C1 & C2 & _). by apply (Hnc i Hi). }
  destruct (bread_rep s l held pin n) as (b & s1 & E1 & P & Hb & R1); [done|done| |by right|].
  { intros i Hi. destruct (rp_held _ _ _ _ R i n Hi) as (I1 & I2 & I3 & _). by apply (Hnc i I1). }
  destruct (br_lru _ _ _ _ _ P) as [?%Hnc|(Hu & l1 & l2 & El & Hl2)]; [done|apply P|].
  destruct (brelse_rep s1 l _ _ b n R1) as (s2 & l1' & l2' & El' & E2 & R2 & V2 & _).
  { by rw lookup_insert_eq. }
  { right. by rw (br_view _ _ _ _ _ P) Hv (br_disk _ _ _ _ _ P). }
  assert (l1' = l1 ∧ l2' = l2) as [-> ->].
  { pose proof (bi_nodup _ _ (rp_inv _ _ _ _ R)) as [_ Hnd]%NoDup_cons.
    rw El in El' Hnd. by destruct (NoDup_app_cons_inj _ _ _ _ _ Hnd El'). }
  exists b, s1, s2, l1, l2. do 5 (split; [done|]). split; [by rw (br_data _ _ _ _ _ P)|].
  split; [by rw delete_insert_id in R2|]. intros k. rw V2. apply P.
Qed.

(** A disk of three blocks, with the cache as [binit] leaves it. *)
Definition example_disk : list block := [[10]; [11]; [12]].

Lemma cache_write_through_witness :
  ∃ s s' l', binit (zero_cache [0] example_disk 1) = Ok (tt, s) ∧
    (b ← bread 1 2; updb b (set_data [7]) ;; bwrite b ;; brelse b) s = Ok (tt, s') ∧
    brep s' l' ∅ (∅ ∖ {[2]}) ∧ bs_disk s' = [[10]; [11]; [7]].
Proof.
  destruct (binit_rep [0] example_disk 1) as (s & E & R & _ & D & _). exists s.
  destruct (cache_write_through s _ _ _ 2 [7] R) as (s' & l' & E' & R' & _ & D').
  - rw D. split; [lia|reflexivity].
  - intros i. rw lookup_empty. discriminate.
  - clear E. vm_compute. lia.
  - exists s', l'. split; [exact E|]. split; [exact E'|]. split; [exact R'|]. rw D' D. reflexivity.
Defined.

Lemma bread_recycles_lru_witness :
  ∃ s b s1 s2, binit (zero_cache [0] example_disk 1) = Ok (tt, s) ∧
    bread 1 2 s = Ok (b, s1) ∧ brelse b s1 = Ok (tt, s2) ∧ b_data (bs_buf s1 !!! b) = [12].
Proof.
  destruct (binit_rep [0] example_disk 1) as (s & E & R & _ & D & _). exists s.
  destruct (bread_recycles_lru s _ _ _ 2 R) as (b & s1 & s2 & l1 & l2 & E1 & E2 & _ & _ & _ & Hd & _).
  - rw D. split; [lia|reflexivity].
  - intros i Hi [Hb _]. assert (Forall (λ x, b_dev x = 0) (bs_buf s)) as F.
    { vm_compute in E. injection E as <-. repeat (constructor; [reflexivity|]). constructor. }
    clear E. rewrite -> Forall_lookup in F.
    rw (F i (bs_buf s !!! i)) in Hb; [|done]. apply list_lookup_lookup_total_lt.
    rw (bi_len _ _ (rp_inv _ _ _ _ R)). lia.
  - clear E. vm_compute. lia.
  - exists b, s1, s2. split; [exact E|]. split; [exact E1|]. split; [exact E2|]. rw Hd D. reflexivity.
Defined.
