(* ===== verification/Ide.v ===== *)
(** * The disk driver (ide.c)

    The driver's queue is a linked list through the buffers' [qnext], whose first element
    is being transferred.  The controller is what its ports hold: the registers, the command
    it is running, the data it was given and the data it has for the driver; it runs one
    command at a time and interrupts when it is done.  [iderw] ends where it sleeps, and a
    woken caller looks again whether its buffer is done.

    The queue is served in order, and a request does to its buffer and to the disk what the
    memory disk of memide.c does at once. *)

From S2P Require Import Prelude Params Bio.

Definition SECTOR_SIZE : Z := 512.
Definition IDE_CMD_READ : Z := 0x20.
Definition IDE_CMD_WRITE : Z := 0x30.
Definition IDE_CMD_RDMUL : Z := 0xc4.
Definition IDE_CMD_WRMUL : Z := 0xc5.

Record dstate := mkD {
  d_buf : list buf;
  d_qnext : list (option nat);
  d_queue : option nat;                (* idequeue *)
  d_have1 : bool;                      (* havedisk1 *)
  d_me : Z;
  d_woken : list nat;                  (* the buffers whose sleepers were woken *)
  d_regs : Z → Z;                      (* the controller's registers, by port *)
  d_cmd : option (Z * Z * Z);          (* the command running, its drive and sector *)
  d_out : block;                       (* data for it *)
  d_in : block;                        (* data it read *)
  d_err : bool;                        (* the last command failed *)
  d_disk : Z → list block;             (* the drives' sectors *)
}.
Definition set_dbuf x s := mkD x (d_qnext s) (d_queue s) (d_have1 s) (d_me s) (d_woken s) (d_regs s) (d_cmd s) (d_out s) (d_in s) (d_err s) (d_disk s).
Definition set_qnext x s := mkD (d_buf s) x (d_queue s) (d_have1 s) (d_me s) (d_woken s) (d_regs s) (d_cmd s) (d_out s) (d_in s) (d_err s) (d_disk s).
Definition set_queue x s := mkD (d_buf s) (d_qnext s) x (d_have1 s) (d_me s) (d_woken s) (d_regs s) (d_cmd s) (d_out s) (d_in s) (d_err s) (d_disk s).
Definition set_have1 x s := mkD (d_buf s) (d_qnext s) (d_queue s) x (d_me s) (d_woken s) (d_regs s) (d_cmd s) (d_out s) (d_in s) (d_err s) (d_disk s).
Definition set_woken x s := mkD (d_buf s) (d_qnext s) (d_queue s) (d_have1 s) (d_me s) x (d_regs s) (d_cmd s) (d_out s) (d_in s) (d_err s) (d_disk s).
Definition set_ctl r c o i e s := mkD (d_buf s) (d_qnext s) (d_queue s) (d_have1 s) (d_me s) (d_woken s) r c o i e (d_disk s).
Definition set_disks x s := mkD (d_buf s) (d_qnext s) (d_queue s) (d_have1 s) (d_me s) (d_woken s) (d_regs s) (d_cmd s) (d_out s) (d_in s) (d_err s) x.

Definition getd {A} (i : nat) (f : buf → A) : M dstate A := gets (λ s, f (d_buf s !!! i)).
Definition updd (i : nat) (f : buf → buf) : M dstate unit := modify (λ s, set_dbuf (alter f i (d_buf s)) s).

(** ** The controller *)

(** The sector and the drive that the registers name. *)
Definition reg_lba (r : Z → Z) : Z := r 0x1f3 + 256 * r 0x1f4 + 65536 * r 0x1f5 + 16777216 * (r 0x1f6 mod 16).
Definition reg_drive (r : Z → Z) : Z := r 0x1f6 / 16 mod 2.
Definition set_reg (port v : Z) (r : Z → Z) : Z → Z := λ p, if p =? port then v else r p.
(** A byte written to a port; the command port starts the command. *)
Definition outb (port v : Z) : M dstate unit :=
  modify (λ s,
    if port =? 0x1f7 then set_ctl (d_regs s) (Some (u8 v, reg_drive (d_regs s), reg_lba (d_regs s))) (d_out s) (d_in s) false s
    else set_ctl (set_reg port (u8 v) (d_regs s)) (d_cmd s) (d_out s) (d_in s) (d_err s) s).
Definition outsl (data : block) : M dstate unit :=
  modify (λ s, set_ctl (d_regs s) (d_cmd s) data (d_in s) (d_err s) s).
Definition insl : M dstate block := gets d_in.
(** The command is carried out, or fails. *)
Definition disk_done (fails : bool) : M dstate unit :=
  modify (λ s,
    match d_cmd s with
    | None => s
    | Some (c, drive, lba) =>
        let s' := set_ctl (d_regs s) None (d_out s) (d_in s) fails s in
        if fails then s'
        else if c =? IDE_CMD_WRITE then
          set_disks (λ d, if d =? drive then <[Z.to_nat lba := d_out s]> (d_disk s d) else d_disk s d) s'
        else set_ctl (d_regs s) None (d_out s) (d_disk s drive !!! Z.to_nat lba) fails s
    end).

(** ** The driver *)

(** Waiting for a controller that is busy is waiting for its interrupt. *)
Definition idewait (checkerr : bool) : M dstate Z :=
  c ← gets d_cmd;
  match c with
  | Some _ => sleeps
  | None => e ← gets d_err; mret (if checkerr && e then -1 else 0)
  end.

(** [status i] is what the [i]th read of drive 1's status gives: all are 0 without one. *)
Definition ideinit (status : nat → Z) : M dstate unit :=
  idewait false ;;
  outb 0x1f6 (Z.lor 0xe0 (Z.shiftl 1 4)) ;;
  when (existsb (λ i, negb (status i =? 0)) (seq 0 1000)) (modify (set_have1 true)) ;;
  outb 0x1f6 (Z.lor 0xe0 (Z.shiftl 0 4)).

Definition idestart (b : option nat) : M dstate unit :=
  match b with
  | None => panic "idestart"
  | Some b =>
      x ← getd b id;
      if FSSIZE <=? b_blockno x then panic "incorrect blockno" else
      let sector_per_block := BSIZE / SECTOR_SIZE in
      let sector := b_blockno x * sector_per_block in
      let read_cmd := if sector_per_block =? 1 then IDE_CMD_READ else IDE_CMD_RDMUL in
      let write_cmd := if sector_per_block =? 1 then IDE_CMD_WRITE else IDE_CMD_WRMUL in
      if 7 <? sector_per_block then panic "idestart" else
      idewait false ;;
      outb 0x3f6 0 ;;
      outb 0x1f2 sector_per_block ;;
      outb 0x1f3 (Z.land sector 0xff) ;;
      outb 0x1f4 (Z.land (Z.shiftr sector 8) 0xff) ;;
      outb 0x1f5 (Z.land (Z.shiftr sector 16) 0xff) ;;
      outb 0x1f6 (Z.lor (Z.lor 0xe0 (Z.shiftl (Z.land (b_dev x) 1) 4)) (Z.land (Z.shiftr sector 24) 0x0f)) ;;
      if has (b_flags x) B_DIRTY then outb 0x1f7 write_cmd ;; outsl (b_data x)
      else outb 0x1f7 read_cmd
  end.

Definition ideintr : M dstate unit :=
  q ← gets d_queue;
  match q with
  | None => mret tt
  | Some b =>
      n ← gets (λ s, d_qnext s !!! b);
      modify (set_queue n) ;;
      fl ← getd b b_flags;
      (if negb (has fl B_DIRTY) then
         r ← idewait true;
         when (0 <=? r) (data ← insl; updd b (set_data data))
       else mret tt) ;;
      updd b (λ x, set_flags (Z.lor (b_flags x) B_VALID) x) ;;
      updd b (λ x, set_flags (Z.land (b_flags x) (Z.lnot B_DIRTY)) x) ;;
      modify (λ s, set_woken (b :: d_woken s) s) ;;
      q ← gets d_queue;
      match q with
      | None => mret tt
      | Some _ => idestart q
      end
  end.

(** The loop over the [qnext] links to the end: the last buffer of the queue from [p] on. *)
Fixpoint queue_last (k : nat) (p : nat) : M dstate nat :=
  match k with
  | O => mret p
  | S k => n ← gets (λ s, d_qnext s !!! p); match n with None => mret p | Some q => queue_last k q end
  end.
(** The caller goes to sleep unless its buffer is done: the result is whether it is. *)
Definition iderw_look (b : nat) : M dstate bool :=
  fl ← getd b b_flags; mret (Z.land fl (Z.lor B_VALID B_DIRTY) =? B_VALID).
Definition iderw (b : nat) : M dstate bool :=
  x ← getd b id;
  me ← gets d_me;
  if negb (holdingsleep me (b_lock x)) then panic "iderw: buf not locked" else
  if Z.land (b_flags x) (Z.lor B_VALID B_DIRTY) =? B_VALID then panic "iderw: nothing to do" else
  h ← gets d_have1;
  if negb (b_dev x =? 0) && negb h then panic "iderw: ide disk 1 not present" else
  modify (λ s, set_qnext (<[b := None]> (d_qnext s)) s) ;;
  q ← gets d_queue;
  match q with
  | None => modify (set_queue (Some b))
  | Some p =>
      k ← gets (λ s, length (d_buf s));
      l ← queue_last k p;
      modify (λ s, set_qnext (<[l := Some b]> (d_qnext s)) s)
  end ;;
  q ← gets d_queue;
  when (bool_decide (q = Some b)) (idestart (Some b)) ;;
  iderw_look b.

(** ** The queue as a list *)

Fixpoint chain (qn : list (option nat)) (h : option nat) (l : list nat) : Prop :=
  match l with
  | [] => h = None
  | x :: l => h = Some x ∧ chain qn (qn !!! x) l
  end.

Lemma chain_insert qn h l b v : b ∉ l → chain qn h l → chain (<[b := v]> qn) h l.
Proof.
  revert h. induction l as [|x l IH]; intros h Hb; [done|]. apply not_elem_of_cons in Hb as [Hbx Hb]. intros [-> H]. split; [done|].
  rewrite -> list_lookup_total_insert_ne by done. by apply IH.
Qed.
(** Appending a buffer whose own link is clear. *)
Lemma chain_snoc qn x l b :
  NoDup (x :: l) → b ∉ x :: l → Forall (λ i, (i < length qn)%nat) (x :: l) → chain qn (Some x) (x :: l) → qn !!! b = None →
  chain (<[default x (last l) := Some b]> qn) (Some x) (x :: l ++ [b]).
Proof.
  revert x. induction l as [|y l IH]; intros x Hd Hb Hf [_ H] Hn.
  - split; [done|]. apply Forall_cons in Hf as [Hf _]. cbn. rewrite -> list_lookup_total_insert_eq by done. split; [done|].
    rewrite -> list_lookup_total_insert_ne; [done|]. set_solver.
  - destruct H as [Hy H]. apply NoDup_cons in Hd as [Hx Hd]. apply Forall_cons in Hf as [_ Hf]. split; [done|].
    assert (default x (last (y :: l)) = default y (last l)) as -> by (destruct l; [done|]; rw last_cons_cons; by destruct (last _) eqn:E; [|apply last_None in E]).
    rewrite -> list_lookup_total_insert_ne.
    + rw Hy. apply IH; [done|set_solver|done| |done]. split; [done|]. done.
    + intros E. apply Hx. destruct (last l) as [z|] eqn:El; simpl in E; subst; [|set_solver].
      apply elem_of_cons. right. by apply last_Some_elem_of.
Qed.

Lemma queue_last_ok s l : ∀ k x,
  chain (d_qnext s) (Some x) (x :: l) → (length l ≤ k)%nat → queue_last k x s = Ok (default x (last l), s).
Proof.
  induction l as [|y l IH]; intros k x [_ H] Hk.
  - destruct k; cbn [queue_last]; [done|]. mget. cbn in H. by rw H.
  - destruct H as [Hy H]. simpl in Hk. destruct k as [|k]; [lia|]. cbn [queue_last]. mget. rw Hy. rw (IH k y); [by split|lia|].
    destruct l as [|z l]; [done|]. rw last_cons_cons. by destruct (last (z :: l)) eqn:E; [|apply last_None in E].
Qed.

(** ** Requests *)

(** What a request does to its buffer and to the disk. *)
Definition synced (x : buf) : buf := set_flags (Z.land (Z.lor (b_flags x) B_VALID) (Z.lnot B_DIRTY)) x.
Definition transfer (x : buf) (d : Z → list block) : buf * (Z → list block) :=
  if has (b_flags x) B_DIRTY then
    (synced x, λ k, if k =? b_dev x then <[Z.to_nat (b_blockno x) := b_data x]> (d k) else d k)
  else (synced (set_data (d (b_dev x) !!! Z.to_nat (b_blockno x)) x), d).

Record request (x : buf) : Prop := {
  rq_dev : b_dev x = 0 ∨ b_dev x = 1;
  rq_block : 0 ≤ b_blockno x < FSSIZE;
}.
Definition cmd_of (x : buf) : Z * Z * Z := (if has (b_flags x) B_DIRTY then IDE_CMD_WRITE else IDE_CMD_READ, b_dev x, b_blockno x).

(** The bytes put in the registers name the block. *)
Lemma lba_ok b :
  0 ≤ b < 1000 →
  u8 (Z.land b 0xff) + 256 * u8 (Z.land (Z.shiftr b 8) 0xff) + 65536 * u8 (Z.land (Z.shiftr b 16) 0xff) +
    16777216 * (u8 (Z.lor 0xe0 (Z.land (Z.shiftr b 24) 0x0f)) mod 16) = b ∧
  Z.land (Z.shiftr b 24) 0x0f = 0.
Proof.
  intros Hb. assert (Forall (λ b, u8 (Z.land b 0xff) + 256 * u8 (Z.land (Z.shiftr b 8) 0xff) + 65536 * u8 (Z.land (Z.shiftr b 16) 0xff) +
    16777216 * (u8 (Z.lor 0xe0 (Z.land (Z.shiftr b 24) 0x0f)) mod 16) = b ∧ Z.land (Z.shiftr b 24) 0x0f = 0) (seqZ 0 1000)) as H.
  { refine (bool_decide_eq_true_1 _ _). vm_compute. reflexivity. }
  rw Forall_forall in H. apply H, elem_of_seqZ. lia.
Qed.

Lemma outb_reg port v r c o i e s :
  port ≠ 0x1f7 → outb port v (set_ctl r c o i e s) = Ok (tt, set_ctl (set_reg port (u8 v) r) c o i e s).
Proof. intros H. rw /outb /modify. by rewrite -> (proj2 (Z.eqb_neq _ _)) by done. Qed.
Lemma outb_cmd v r c o i e s :
  outb 0x1f7 v (set_ctl r c o i e s) = Ok (tt, set_ctl r (Some (u8 v, reg_drive r, reg_lba r)) o i false s).
Proof. done. Qed.
Lemma ctl_self s : s = set_ctl (d_regs s) (d_cmd s) (d_out s) (d_in s) (d_err s) s.
Proof. by destruct s. Qed.

Definition start_regs (x : buf) (r : Z → Z) : Z → Z :=
  set_reg 0x1f6 (u8 (Z.lor (Z.lor 0xe0 (Z.shiftl (Z.land (b_dev x) 1) 4)) (Z.land (Z.shiftr (b_blockno x) 24) 0x0f)))
  (set_reg 0x1f5 (u8 (Z.land (Z.shiftr (b_blockno x) 16) 0xff)) (set_reg 0x1f4 (u8 (Z.land (Z.shiftr (b_blockno x) 8) 0xff))
  (set_reg 0x1f3 (u8 (Z.land (b_blockno x) 0xff)) (set_reg 0x1f2 (u8 1) (set_reg 0x3f6 (u8 0) r))))).
Lemma start_regs_ok x r : request x → reg_drive (start_regs x r) = b_dev x ∧ reg_lba (start_regs x r) = b_blockno x.
Proof.
  intros [Hd Hb]. destruct (lba_ok (b_blockno x)) as [Hl H0]; [done|]. rw /reg_drive /reg_lba /start_regs /set_reg. simpl Z.eqb. cbn match.
  rw H0 in Hl |- *. split; [by destruct Hd as [-> | ->]|]. rewrite <- Hl at 4. by destruct Hd as [-> | ->].
Qed.

Lemma idestart_ok s b :
  let x := d_buf s !!! b in
  d_cmd s = None → request x →
  ∃ r o, idestart (Some b) s = Ok (tt, set_ctl r (Some (cmd_of x)) o (d_in s) false s) ∧ (has (b_flags x) B_DIRTY = true → o = b_data x).
Proof.
  intros x Hc Hr. destruct (start_regs_ok x (d_regs s) Hr) as [E1 E2]. destruct Hr as [Hd Hb]. cbn [idestart]. rw /getd. mget. cbn [id].
  rw -/x. rewrite -> (proj2 (Z.leb_gt _ _)) by lia. change (BSIZE / SECTOR_SIZE) with 1. cbn zeta. rw Z.mul_1_r. cbn [Z.eqb Pos.eqb].
  change (7 <? 1) with false. cbn match. rw /idewait bind_assoc. mget. rw Hc bind_assoc gets_bind ret_bind. cbn beta. rw {1}(ctl_self s) Hc.
  do 6 (mnext (by apply outb_reg)). fold (start_regs x (d_regs s)).
  rw /cmd_of. destruct (has (b_flags x) B_DIRTY).
  - mgo (outb_cmd IDE_CMD_WRITE (start_regs x (d_regs s)) None (d_out s) (d_in s) (d_err s) s). rw E1 E2.
    eexists _, (b_data x). split; [reflexivity|done].
  - rw outb_cmd E1 E2. eexists _, _. split; [reflexivity|done].
Qed.

(** ** The driver as a queue of requests *)

Inductive event := EReq (me : Z) (b : nat) | EIrq.
Definition ide_step (ev : event) : M dstate unit :=
  match ev with
  | EReq me b => modify (λ s, mkD (d_buf s) (d_qnext s) (d_queue s) (d_have1 s) me (d_woken s) (d_regs s) (d_cmd s) (d_out s) (d_in s) (d_err s) (d_disk s)) ;;
      done ← iderw b; if (done : bool) then panic "returned at once" else mret tt
  | EIrq => disk_done false ;; ideintr
  end.
Fixpoint ide_run (evs : list event) : M dstate unit :=
  match evs with
  | [] => mret tt
  | ev :: evs => ide_step ev ;; ide_run evs
  end.

Record aq := mkA { a_buf : list buf; a_q : list nat; a_disk : Z → list block }.
(** A request is appended, and an interrupt completes the first. *)
Inductive a_step (have1 : bool) : aq → event → aq → Prop :=
  | A_req me b bufs q d :
      (b < length bufs)%nat → b ∉ q → request (bufs !!! b) → (b_dev (bufs !!! b) = 0 ∨ have1 = true) →
      holdingsleep me (b_lock (bufs !!! b)) = true →
      Z.land (b_flags (bufs !!! b)) (Z.lor B_VALID B_DIRTY) ≠ B_VALID →
      a_step have1 (mkA bufs q d) (EReq me b) (mkA bufs (q ++ [b]) d)
  | A_spurious bufs d : a_step have1 (mkA bufs [] d) EIrq (mkA bufs [] d)
  | A_irq b bufs q d :
      a_step have1 (mkA bufs (b :: q) d) EIrq
        (mkA (<[b := (transfer (bufs !!! b) d).1]> bufs) q (transfer (bufs !!! b) d).2).
Inductive a_run (have1 : bool) : aq → list event → aq → Prop :=
  | A_nil a : a_run have1 a [] a
  | A_cons a ev a1 evs a2 : a_step have1 a ev a1 → a_run have1 a1 evs a2 → a_run have1 a (ev :: evs) a2.

Record rep (s : dstate) (a : aq) : Prop := {
  r_buf : d_buf s = a_buf a;
  r_disk : ∀ k, d_disk s k = a_disk a k;
  r_chain : chain (d_qnext s) (d_queue s) (a_q a);
  r_len : length (d_qnext s) = length (d_buf s);
  r_nodup : NoDup (a_q a);
  r_in : Forall (λ i, (i < length (a_buf a))%nat ∧ request (a_buf a !!! i)) (a_q a);
  r_cmd : match a_q a with
          | [] => d_cmd s = None
          | b :: _ => d_cmd s = Some (cmd_of (a_buf a !!! b)) ∧
                      (has (b_flags (a_buf a !!! b)) B_DIRTY = true → d_out s = b_data (a_buf a !!! b))
          end;
}.

Lemma NoDup_bounded (l : list nat) n : NoDup l → Forall (λ i, (i < n)%nat) l → (length l ≤ n)%nat.
Proof.
  intros Hd Hf. rewrite <- (length_seq n 0). apply submseteq_length, NoDup_submseteq; [done|].
  intros i Hi. rw Forall_forall in Hf. apply elem_of_seq. pose proof (Hf i Hi). lia.
Qed.
Lemma updd_ok b f s :
  (b < length (d_buf s))%nat → updd b f s = Ok (tt, set_dbuf (<[b := f (d_buf s !!! b)]> (d_buf s)) s).
Proof.
  intros Hb. rw /updd /modify. rw (list_alter_insert_Some _ _ _ (d_buf s !!! b)) //. by apply list_lookup_lookup_total_lt.
Qed.

Lemma ide_req_ok s a have1 me b a' :
  rep s a → d_have1 s = have1 → a_step have1 a (EReq me b) a' → ∃ s', ide_step (EReq me b) s = Ok (tt, s') ∧ rep s' a' ∧ d_have1 s' = have1.
Proof.
  intros [R1 R2 R3 R4 R5 R6 R7] Hh1 St. inversion St as [me' b' bufs q d Hb Hq Hr Hdev Hlk Hfl| |]; subst; clear St. simpl in *.
  cbn [ide_step]. rw modify_bind. cbn beta. set (s0 := mkD _ _ _ _ me _ _ _ _ _ _ _).
  rw /iderw bind_assoc /getd gets_bind bind_assoc gets_bind. cbn [id d_me s0]. set (x := bufs !!! b) in *.
  change (d_buf s0) with (d_buf s). rw R1 -/x Hlk. cbn [negb]. rewrite -> (proj2 (Z.eqb_neq _ _)) by done.
  rw bind_assoc gets_bind. change (d_have1 s0) with (d_have1 s).
  rewrite -> (proj2 (andb_false_iff _ _)) by (destruct Hdev as [-> | ->]; [by left|by right]).
  rw bind_assoc modify_bind bind_assoc gets_bind. set (s1 := set_qnext _ s0). change (d_queue s1) with (d_queue s).
  destruct q as [|y l].
  - cbn [chain] in R3. rw R3. rw bind_assoc modify_bind bind_assoc gets_bind. set (s2 := set_queue (Some b) s1).
    rewrite -> bool_decide_true by done. cbn [when]. destruct (idestart_ok s2 b) as (r & o & E & Ho); [exact R7|by change (d_buf s2) with (d_buf s); rw R1|].
    rw bind_assoc. mgo E. rw /iderw_look /getd bind_assoc. mget. cbn [d_buf set_ctl]. change (d_buf s2) with (d_buf s) in Ho |- *. rw R1 -/x.
    rewrite -> (proj2 (Z.eqb_neq _ _)) by done. eexists. split; [reflexivity|]. split; [|done]. split; simpl; try done.
    + split; [done|]. rewrite -> list_lookup_total_insert_eq; [done|]. by rw R4 R1.
    + by rw length_insert.
    + by apply NoDup_singleton.
    + by apply Forall_singleton.
    + split; [done|]. rw R1 in Ho. exact Ho.
  - assert (chain (<[b := None]> (d_qnext s)) (Some y) (y :: l)) as Hc by (apply chain_insert; [done|]; destruct R3 as [_ ?]; by split).
    assert (d_queue s = Some y) as Ey by by destruct R3. rw Ey. rw bind_assoc bind_assoc gets_bind bind_assoc.
    assert (length l ≤ length (d_buf s1))%nat as Hk.
    { change (d_buf s1) with (d_buf s). rw R1. transitivity (length (y :: l)); [simpl; lia|].
      apply NoDup_bounded; [done|]. eapply Forall_impl; [done|]. by intros i [? _]. }
    mgo (queue_last_ok s1 l _ _ Hc Hk). rw modify_bind bind_assoc gets_bind. set (s2 := set_qnext _ s1). change (d_queue s2) with (d_queue s). rw Ey.
    rewrite -> bool_decide_false by set_solver. cbn [when]. rw bind_assoc ret_bind /iderw_look /getd bind_assoc. mget. change (d_buf s2) with (d_buf s). rw R1 -/x.
    rewrite -> (proj2 (Z.eqb_neq _ _)) by done. eexists. split; [reflexivity|]. split; [|done]. split; simpl; try done.
    + rw Ey. apply chain_snoc; [done|done| |done|].
      * rw length_insert R4 R1. eapply Forall_impl; [done|]. by intros i [? _].
      * apply list_lookup_total_insert_eq. by rw R4 R1.
    + by rw !length_insert.
    + change (y :: l ++ [b]) with ((y :: l) ++ [b]). apply NoDup_app. split; [done|]. split; [|apply NoDup_singleton]. intros i Hi Hb'. set_solver.
    + change (y :: l ++ [b]) with ((y :: l) ++ [b]). apply Forall_app. split; [done|]. by apply Forall_singleton.
Qed.

(** The controller carries out the command of the first request. *)
Lemma disk_done_ok s x d :
  d_cmd s = Some (cmd_of x) → (has (b_flags x) B_DIRTY = true → d_out s = b_data x) → (∀ k, d_disk s k = d k) →
  ∃ s', disk_done false s = Ok (tt, s') ∧ d_buf s' = d_buf s ∧ d_qnext s' = d_qnext s ∧ d_queue s' = d_queue s ∧ d_have1 s' = d_have1 s ∧
    d_cmd s' = None ∧ d_err s' = false ∧ (∀ k, d_disk s' k = (transfer x d).2 k) ∧
    (has (b_flags x) B_DIRTY = false → d_in s' = d (b_dev x) !!! Z.to_nat (b_blockno x)).
Proof.
  intros Hc Ho Hd. rw /disk_done /modify Hc /cmd_of /transfer. destruct (has (b_flags x) B_DIRTY) eqn:Eh; cbn [Z.eqb Pos.eqb IDE_CMD_WRITE IDE_CMD_READ].
  - eexists. split; [reflexivity|]. repeat (split; [done|]). split; [|done]. intros k. simpl. rw Hd Ho //.
  - eexists. split; [reflexivity|]. repeat (split; [done|]). intros _. simpl. by rw Hd.
Qed.

(** The handler's work on the first buffer, before it starts the next. *)
Lemma ideintr_sync s b d :
  let x := d_buf s !!! b in
  (b < length (d_buf s))%nat → d_cmd s = None → d_err s = false →
  (has (b_flags x) B_DIRTY = false → d_in s = d (b_dev x) !!! Z.to_nat (b_blockno x)) → d_queue s = Some b →
  ∃ s1, ideintr s = (q ← gets d_queue; match q with None => mret tt | Some _ => idestart q end) s1 ∧
    d_buf s1 = <[b := (transfer x d).1]> (d_buf s) ∧ d_qnext s1 = d_qnext s ∧ d_queue s1 = d_qnext s !!! b ∧
    d_have1 s1 = d_have1 s ∧ d_cmd s1 = None ∧ d_disk s1 = d_disk s.
Proof.
  intros x Hb Hc He Hi Hq. rw /ideintr gets_bind Hq gets_bind modify_bind. set (s0 := set_queue _ s). rw /getd gets_bind.
  change (d_buf s0 !!! b) with x.
  assert (∃ s1, (if negb (has (b_flags x) B_DIRTY) then r ← idewait true; when (0 <=? r) (data ← insl; updd b (set_data data)) else mret tt) s0 = Ok (tt, s1) ∧
    s1 = set_dbuf (<[b := if has (b_flags x) B_DIRTY then x else set_data (d_in s) x]> (d_buf s)) s0) as (s1 & E & ->).
  { destruct (has (b_flags x) B_DIRTY); cbn [negb].
    - eexists. split; [reflexivity|]. rewrite -> list_insert_id; [by destruct s|]. by apply list_lookup_lookup_total_lt.
    - rw /idewait bind_assoc gets_bind. change (d_cmd s0) with (d_cmd s). rw Hc bind_assoc gets_bind ret_bind.
      change (d_err s0) with (d_err s). rw He. cbn [andb]. change (0 <=? 0) with true. cbn [when]. rw /insl gets_bind updd_ok //. by eexists. }
  mgo E. set (y := if has (b_flags x) B_DIRTY then x else _).
  assert (∀ z (s' : dstate) f, d_buf s' = <[b := z]> (d_buf s) → updd b f s' = Ok (tt, set_dbuf (<[b := f z]> (d_buf s)) s')) as U.
  { intros z s' f E'. rw updd_ok; [by rw E' length_insert|]. rw E' list_lookup_total_insert_eq // list_insert_insert_eq //. }
  mgo (U y (set_dbuf (<[b := y]> (d_buf s)) s0) (λ x, set_flags (Z.lor (b_flags x) B_VALID) x) eq_refl).
  set (y1 := set_flags (Z.lor (b_flags y) B_VALID) y).
  set (s2 := set_dbuf (<[b := y1]> (d_buf s)) _). mgo (U y1 s2 (λ x, set_flags (Z.land (b_flags x) (Z.lnot B_DIRTY)) x) eq_refl).
  rw modify_bind. eexists. split; [reflexivity|]. simpl. split; [|done].
  assert ((transfer x d).1 = synced y) as ->; [|done].
  rw /transfer /y. destruct (has (b_flags x) B_DIRTY); [done|]. simpl. by rw Hi.
Qed.

Lemma ide_irq_ok s a have1 a' :
  rep s a → d_have1 s = have1 → a_step have1 a EIrq a' → ∃ s', ide_step EIrq s = Ok (tt, s') ∧ rep s' a' ∧ d_have1 s' = have1.
Proof.
  intros [R1 R2 R3 R4 R5 R6 R7] Hh1 St. inversion St as [|bufs d|b bufs q d]; subst; clear St; simpl in *; cbn [ide_step].
  { rw /disk_done modify_bind R7 /ideintr gets_bind R3. by exists s. }
  destruct R7 as [Rc Ro]. destruct (disk_done_ok s _ d Rc Ro R2) as (s1 & E1 & B1 & B2 & B3 & B4 & B5 & B6 & B7 & B8). mgo E1.
  set (x := bufs !!! b) in *. apply NoDup_cons in R5 as [Hbq Hnd]. apply Forall_cons in R6 as [[Hb Hr] R6].
  destruct R3 as [Rq R3]. assert (d_buf s1 !!! b = x) as Ex by (rw B1 R1 //).
  destruct (ideintr_sync s1 b d) as (s2 & -> & C1 & C2 & C3 & C4 & C5 & C6); rw ?Ex; try done; [by rw B1 R1|by rw B3|].
  rw Ex B1 R1 in C1. rw gets_bind C3 B2.
  assert (∀ i, i ∈ q → <[b := (transfer x d).1]> bufs !!! i = bufs !!! i) as Hsame.
  { intros i Hi. apply list_lookup_total_insert_ne. by intros ->. }
  assert (Forall (λ i, (i < length (<[b := (transfer x d).1]> bufs))%nat ∧ request (<[b := (transfer x d).1]> bufs !!! i)) q) as R6'.
  { apply Forall_forall. intros i Hi. rw length_insert Hsame //. rw Forall_forall in R6. by apply R6. }
  destruct q as [|y q]; cbn [chain] in R3.
  - rw R3. exists s2. split; [done|]. split; [|by rw C4 B4]. split; simpl; try done; [|by rw C3 B2 R3|].
    + intros k. by rw C6 B7.
    + by rw C2 C1 B2 length_insert R4 R1.
  - destruct R3 as [R3 R3']. rw R3. apply Forall_cons in R6' as Hy. destruct Hy as [[Hy1 Hy2] _].
    destruct (idestart_ok s2 y C5) as (r & o & E & Ho); [by rw C1|]. rw E. eexists. split; [reflexivity|]. split; [|by simpl; rw C4 B4].
    rw C1 in Ho |- *. split; simpl; try done.
    + intros k. by rw C6 B7.
    + rw C3 C2 B2 R3. by split.
    + by rw C2 C1 B2 length_insert R4 R1.
Qed.

Lemma ide_run_ok have1 evs : ∀ s a a',
  rep s a → d_have1 s = have1 → a_run have1 a evs a' → ∃ s', ide_run evs s = Ok (tt, s') ∧ rep s' a' ∧ d_have1 s' = have1.
Proof.
  induction evs as [|ev evs IH]; intros s a a' R Hh St; inversion St; subst; cbn [ide_run]; [by exists s|].
  destruct ev as [me b|].
  - destruct (ide_req_ok s a _ me b _ R eq_refl ltac:(done)) as (s1 & E1 & R1 & H1). mgo E1. by apply (IH s1 a1).
  - destruct (ide_irq_ok s a _ _ R eq_refl ltac:(done)) as (s1 & E1 & R1 & H1). mgo E1. by apply (IH s1 a1).
Qed.

(** ** Completion *)

Lemma synced_done x : Z.land (b_flags (synced x)) (Z.lor B_VALID B_DIRTY) = B_VALID.
Proof.
  simpl. rw /B_VALID /B_DIRTY. apply Z.bits_inj'. intros i Hi. rw !Z.land_spec Z.lor_spec Z.lnot_spec //.
  destruct (decide (i = 1)) as [->|H1]; [by rw orb_true_r|]. destruct (decide (i = 2)) as [->|H2]; [by rw andb_false_r|].
  assert (Z.testbit 6 i = false ∧ Z.testbit 2 i = false) as [E6 E2].
  { destruct (decide (i = 0)) as [->|H0]; [done|]. split; apply Z.bits_above_log2; simpl; lia. }
  change (Z.lor 2 4) with 6. by rw E6 E2 andb_false_r.
Qed.
Lemma transfer_synced x d : Z.land (b_flags (transfer x d).1) (Z.lor B_VALID B_DIRTY) = B_VALID.
Proof. rw /transfer. destruct (has _ _); apply synced_done. Qed.

(** As many interrupts as there are requests serve them all. *)
Lemma a_drain have1 q : ∀ bufs d, NoDup q → Forall (λ i, (i < length bufs)%nat) q →
  ∃ bufs' d', a_run have1 (mkA bufs q d) (replicate (length q) EIrq) (mkA bufs' [] d') ∧ length bufs' = length bufs ∧
    (∀ b, b ∈ q → Z.land (b_flags (bufs' !!! b)) (Z.lor B_VALID B_DIRTY) = B_VALID) ∧ (∀ b, b ∉ q → bufs' !!! b = bufs !!! b).
Proof.
  induction q as [|b q IH]; intros bufs d Hn Hf; [exists bufs, d; split; [constructor|]; split; [done|]; split; [by intros b ?%elem_of_nil|done]|].
  apply NoDup_cons in Hn as [Hb Hn]. apply Forall_cons in Hf as [Hfb Hf].
  destruct (IH (<[b := (transfer (bufs !!! b) d).1]> bufs) (transfer (bufs !!! b) d).2 Hn) as (bufs' & d' & R & L & H1 & H2).
  { by rw length_insert. }
  exists bufs', d'. split; [econstructor; [constructor|done]|]. split; [by rw L length_insert|]. split.
  - intros i [->|Hi]%elem_of_cons; [|by apply H1]. rw H2 // list_lookup_total_insert_eq //. apply transfer_synced.
  - intros i [Hi Hi']%not_elem_of_cons. rw H2 //. by apply list_lookup_total_insert_ne.
Qed.


(** Clearing the dirty bit and setting the valid one, in either order. *)
Lemma flags_clean f : Z.lor (Z.land f (Z.lnot B_DIRTY)) B_VALID = Z.land (Z.lor f B_VALID) (Z.lnot B_DIRTY).
Proof.
  rw /B_VALID /B_DIRTY. apply Z.bits_inj'. intros i Hi. rw Z.lor_spec !Z.land_spec Z.lor_spec !Z.lnot_spec //.
  destruct (decide (i = 2)) as [->|H2]; [by rw !andb_false_r|].
  assert (Z.testbit 4 i = false) as ->; [|by rw !andb_true_r].
  destruct (decide (i < 2)); [|apply Z.bits_above_log2; simpl; lia]. by assert (i = 0 ∨ i = 1) as [-> | ->] by lia.
Qed.
Lemma flags_not_dirty f : has f B_DIRTY = false → Z.land f (Z.lnot B_DIRTY) = f.
Proof.
  rw /has /B_DIRTY. intros H. rw -Z.ldiff_land.
  assert (Z.land f 4 = 0) as H0 by lia. apply Z.bits_inj'. intros i Hi. rw Z.ldiff_spec.
  destruct (Z.testbit 4 i) eqn:E4; [|by rw andb_true_r]. cbn [negb]. rw andb_false_r.
  assert (Z.testbit (Z.land f 4) i = false) as H1 by by rw H0 Z.bits_0. rw Z.land_spec E4 andb_true_r in H1. done.
Qed.

(** What the memory disk does. *)
Lemma memide_transfer bufs d me b hist :
  let x := bufs !!! b in
  (b < length bufs)%nat → holdingsleep me (b_lock x) = true → Z.land (b_flags x) (Z.lor B_VALID B_DIRTY) ≠ B_VALID →
  b_dev x = 1 → b_blockno x < Z.of_nat (length (d 1)) →
  ∃ h, Bio.iderw b (mkBs bufs (d 1) me hist) = Ok (tt, mkBs (<[b := (transfer x d).1]> bufs) ((transfer x d).2 1) me h).
Proof.
  intros x Hb Hlk Hfl Hdev Hlen. rw /Bio.iderw. mget. rw /getb. mget. cbn [bs_buf bs_disk bs_me]. rw -/x Hlk. cbn [negb]. mget. cbn [bs_buf]. rw -/x.
  rewrite -> (proj2 (Z.eqb_neq _ _)) by done. mget. cbn [bs_buf bs_disk]. rw -/x Hdev. cbn [Z.eqb Pos.eqb negb]. mget. cbn [bs_buf bs_disk]. rw -/x.
  rewrite -> (proj2 (Z.leb_gt _ _)) by done. rw /transfer. destruct (has (b_flags x) B_DIRTY) eqn:Eh.
  - rw bind_assoc. mgo (updb_ok (mkBs bufs (d 1) me hist) b (set_flags (Z.land (b_flags x) (Z.lnot B_DIRTY))) Hb). rw bind_assoc. mget.
    cbn [bs_buf bs_disk bs_me bs_hist set_disk]. rw -/x updb_ok; [by rw length_insert|]. cbn [bs_buf bs_disk bs_me bs_hist fst snd]. rw Hdev Z.eqb_refl.
    rw list_lookup_total_insert_eq // list_insert_insert_eq. cbn. rw flags_clean. by eexists.
  - mgo (updb_ok (mkBs bufs (d 1) me hist) b (set_data (d 1 !!! Z.to_nat (b_blockno x))) Hb). rw updb_ok; [by rw length_insert|].
    cbn [bs_buf bs_disk bs_me bs_hist fst snd]. rw list_lookup_total_insert_eq // list_insert_insert_eq -/x Hdev. cbn.
    rw /synced. cbn. rw -flags_clean flags_not_dirty //. by eexists.
Qed.

(** C37. The two disk drivers are interchangeable for one request: on an idle controller, a
    request to disk 1 and its interrupt leave the buffers and the disk as the memory disk's
    [iderw] does in one step. *)
Theorem ide_equiv_memide s bufs d me b hist :
  let x := bufs !!! b in
  rep s (mkA bufs [] d) → d_have1 s = true → (b < length bufs)%nat → b_dev x = 1 → 0 ≤ b_blockno x < FSSIZE →
  b_blockno x < Z.of_nat (length (d 1)) → holdingsleep me (b_lock x) = true →
  Z.land (b_flags x) (Z.lor B_VALID B_DIRTY) ≠ B_VALID →
  ∃ s' t, ide_run [EReq me b; EIrq] s = Ok (tt, s') ∧ Bio.iderw b (mkBs bufs (d 1) me hist) = Ok (tt, t) ∧
    d_buf s' = bs_buf t ∧ d_disk s' 1 = bs_disk t ∧ d_disk s' 0 = d 0.
Proof.
  intros x R Hh Hb Hdev Hbl Hlen Hlk Hfl.
  assert (a_run (d_have1 s) (mkA bufs [] d) [EReq me b; EIrq] (mkA (<[b := (transfer x d).1]> bufs) [] (transfer x d).2)) as St.
  { econstructor; [constructor; [done|set_solver|split; [by right|done]|by right|done|done]|]. econstructor; [|constructor]. apply A_irq. }
  destruct (ide_run_ok _ _ _ _ _ R eq_refl St) as (s' & E & R' & _).
  destruct (memide_transfer bufs d me b hist Hb Hlk Hfl Hdev Hlen) as (h & E').
  eexists s', _. split; [exact E|]. split; [exact E'|]. split; [apply (r_buf _ _ R')|]. split; [apply (r_disk _ _ R')|].
  rw (r_disk _ _ R') /= -/x /transfer. destruct (has _ _); [|done]. simpl. by rw Hdev.
Qed.

(** A read that fails leaves the buffer's old contents, marked valid. *)
Lemma ide_read_error_marked_valid s b :
  let x := d_buf s !!! b in
  d_queue s = Some b → d_qnext s !!! b = None → (b < length (d_buf s))%nat → b_flags x = 0 → d_cmd s = Some (cmd_of x) →
  ∃ s', (disk_done true ;; ideintr) s = Ok (tt, s') ∧ d_buf s' !!! b = set_flags B_VALID x.
Proof.
  intros x Hq Hn Hb Hf Hc. rw /disk_done modify_bind Hc /cmd_of. set (s1 := set_ctl _ _ _ _ _ s).
  rw /ideintr gets_bind. change (d_queue s1) with (d_queue s). rw Hq gets_bind modify_bind /getd gets_bind.
  change (d_buf (set_queue (d_qnext s1 !!! b) s1) !!! b) with x. rw Hf. change (has 0 B_DIRTY) with false. cbn [negb].
  rw /idewait bind_assoc bind_assoc gets_bind. cbn [d_cmd s1 set_ctl set_queue]. rw bind_assoc gets_bind ret_bind. cbn [andb d_err s1 set_ctl set_queue].
  change (0 <=? -1) with false. cbn [when]. rw ret_bind. mnext (by apply updd_ok). mnext (apply updd_ok; by rw length_insert). rw modify_bind gets_bind.
  cbn [d_queue set_woken set_dbuf set_queue s1 set_ctl d_qnext]. rw Hn. eexists. split; [reflexivity|].
  cbn [d_buf set_woken set_dbuf set_queue s1 set_ctl]. rw !list_lookup_total_insert_eq ?length_insert // -/x. cbn. by rw Hf.
Qed.

(** ** An example *)

Definition ex_buf : buf := mkBuf B_DIRTY 1 5 (mkSl true 9) 1 0 0 [7].
Definition ex_ide : dstate := mkD [ex_buf] [None] None true 9 [] (λ _, 0) None [] [] false (λ _, replicate 10 [0]).
Lemma ex_rep : rep ex_ide (mkA [ex_buf] [] (λ _, replicate 10 [0])).
Proof. split; try done; constructor. Qed.
Lemma ide_equiv_memide_witness :
  ∃ s' t, ide_run [EReq 9 0; EIrq] ex_ide = Ok (tt, s') ∧ Bio.iderw 0 (mkBs [ex_buf] (replicate 10 [0]) 9 []) = Ok (tt, t) ∧
    d_disk s' 1 = bs_disk t.
Proof.
  destruct (ide_equiv_memide ex_ide [ex_buf] (λ _, replicate 10 [0]) 9 0 [] ex_rep) as (s' & t & E1 & E2 & _ & E3 & _);
    [reflexivity|simpl; lia|reflexivity|by vm_compute|by vm_compute|reflexivity|by vm_compute|].
  exists s', t. split; [exact E1|]. split; [exact E2|exact E3].
Defined.
