(* ===== verification/Log.v ===== *)
(** * The log (log.c)

    The redo log between the file system and the buffer cache: the reservation of
    [begin_op]/[end_op], the absorbing [log_write], the commit protocol and recovery.
    The state is the buffer cache's with the fields of [struct log].  The spin lock
    [log.lock] makes each section it protects one step; a caller that has to wait in
    [begin_op] ends as [Sleeps].  A store past the end of [log.lh.block] stops the
    model with [Panic]. *)

From S2P Require Import Prelude Params Bytes Bio.

(** ** The super block (fs.h, [readsb] of fs.c) *)

Record superblock := mkSb {
  sb_size : Z;
  sb_nblocks : Z;
  sb_ninodes : Z;
  sb_nlog : Z;
  sb_logstart : Z;
  sb_inodestart : Z;
  sb_bmapstart : Z;
}.
Definition decode_sb (d : block) : superblock :=
  mkSb (get32 d 0) (get32 d 4) (get32 d 8) (get32 d 12) (get32 d 16) (get32 d 20) (get32 d 24).

Definition readsb (dev : Z) : M bstate superblock :=
  bp ← bread dev 1;
  d ← getb bp b_data;
  brelse bp ;;
  mret (decode_sb d).

(** ** The state *)

Record lstate := mkLs {
  ls_bio : bstate;
  ls_start : Z;
  ls_size : Z;
  ls_outstanding : Z;     (* how many FS sys calls are executing *)
  ls_committing : bool;   (* in commit(), please wait *)
  ls_dev : Z;
  ls_n : Z;               (* lh.n *)
  ls_block : list Z;      (* lh.block *)
  ls_wakeups : nat;       (* calls of wakeup(&log) so far *)
}.

Definition set_bio (b : bstate) (s : lstate) : lstate :=
  mkLs b (ls_start s) (ls_size s) (ls_outstanding s) (ls_committing s) (ls_dev s) (ls_n s) (ls_block s)
    (ls_wakeups s).
Definition set_where (start size dev : Z) (s : lstate) : lstate :=
  mkLs (ls_bio s) start size (ls_outstanding s) (ls_committing s) dev (ls_n s) (ls_block s) (ls_wakeups s).
Definition set_outstanding (x : Z) (s : lstate) : lstate :=
  mkLs (ls_bio s) (ls_start s) (ls_size s) x (ls_committing s) (ls_dev s) (ls_n s) (ls_block s) (ls_wakeups s).
Definition set_committing (x : bool) (s : lstate) : lstate :=
  mkLs (ls_bio s) (ls_start s) (ls_size s) (ls_outstanding s) x (ls_dev s) (ls_n s) (ls_block s) (ls_wakeups s).
Definition set_lh (n : Z) (bl : list Z) (s : lstate) : lstate :=
  mkLs (ls_bio s) (ls_start s) (ls_size s) (ls_outstanding s) (ls_committing s) (ls_dev s) n bl (ls_wakeups s).
Definition wakeup_log : M lstate unit := modify (λ s,
  mkLs (ls_bio s) (ls_start s) (ls_size s) (ls_outstanding s) (ls_committing s) (ls_dev s) (ls_n s)
    (ls_block s) (S (ls_wakeups s))).

Definition bio {A} (m : M bstate A) : M lstate A := lift ls_bio set_bio m.

(** [log.lh.n = n], and [log.lh.block[i] = v]. *)
Definition set_n (n : Z) : M lstate unit := modify (λ s, set_lh n (ls_block s) s).
Definition set_lh_block (i : nat) (v : Z) : M lstate unit :=
  bl ← gets ls_block;
  if decide (i < length bl)%nat then modify (λ s, set_lh (ls_n s) (<[i := v]> (ls_block s)) s)
  else panic "log.lh.block: index out of bounds".

(** ** Commit and recovery *)

(** One block of [install_trans]: log block [tail] to its home. *)
Definition install_block (tail : nat) : M lstate unit :=
  start ← gets ls_start; dev ← gets ls_dev; bl ← gets ls_block;
  lbuf ← bio (bread dev (u32 (start + Z.of_nat tail + 1)));
  dbuf ← bio (bread dev (u32 (bl !!! tail)));
  d ← bio (getb lbuf b_data);
  bio (updb dbuf (set_data d)) ;;
  bio (bwrite dbuf) ;;
  bio (brelse lbuf) ;;
  bio (brelse dbuf).
(** One block of [write_log]: cached block [tail] to the log. *)
Definition write_log_block (tail : nat) : M lstate unit :=
  start ← gets ls_start; dev ← gets ls_dev; bl ← gets ls_block;
  to ← bio (bread dev (u32 (start + Z.of_nat tail + 1)));
  from ← bio (bread dev (u32 (bl !!! tail)));
  d ← bio (getb from b_data);
  bio (updb to (set_data d)) ;;
  bio (bwrite to) ;;
  bio (brelse from) ;;
  bio (brelse to).

(** [for (tail = 0; tail < log.lh.n; tail++)]; neither body changes [log.lh.n]. *)
Fixpoint for_tail (body : nat → M lstate unit) (k : nat) (tail : nat) : M lstate unit :=
  match k with
  | O => mret tt
  | S k => body tail ;; for_tail body k (S tail)
  end.
Definition install_trans : M lstate unit := n ← gets ls_n; for_tail install_block (Z.to_nat n) 0.
Definition write_log : M lstate unit := n ← gets ls_n; for_tail write_log_block (Z.to_nat n) 0.

(** The header block: [n] at offset 0, [block[i]] at offset [4 + 4 i]. *)
Definition lh_off (i : nat) : nat := (4 + 4 * i)%nat.
Definition read_head : M lstate unit :=
  start ← gets ls_start; dev ← gets ls_dev;
  buf ← bio (bread dev (u32 start));
  d ← bio (getb buf b_data);
  set_n (s32 (get32 d 0)) ;;
  n ← gets ls_n;
  for_tail (λ i, set_lh_block i (s32 (get32 d (lh_off i)))) (Z.to_nat n) 0 ;;
  bio (brelse buf).

Fixpoint put_blocks (d : block) (i : nat) (bl : list Z) : block :=
  match bl with
  | [] => d
  | b :: bl => put_blocks (put32 d (lh_off i) b) (S i) bl
  end.
Definition write_head : M lstate unit :=
  start ← gets ls_start; dev ← gets ls_dev; n ← gets ls_n; bl ← gets ls_block;
  buf ← bio (bread dev (u32 start));
  d ← bio (getb buf b_data);
  bio (updb buf (set_data (put_blocks (put32 d 0 n) 0 (take (Z.to_nat n) bl)))) ;;
  bio (bwrite buf) ;;
  bio (brelse buf).

Definition recover_from_log : M lstate unit :=
  read_head ;;
  install_trans ;;
  set_n 0 ;;
  write_head.

(** [sizeof(struct logheader)] is [4 + 4 LOGSIZE]. *)
Definition initlog (dev : Z) : M lstate unit :=
  if BSIZE <=? 4 + 4 * LOGSIZE then panic "initlog: too big logheader" else
  sb ← bio (readsb dev);
  modify (set_where (s32 (sb_logstart sb)) (s32 (sb_nlog sb)) dev) ;;
  recover_from_log.

Definition commit : M lstate unit :=
  n ← gets ls_n;
  when (0 <? n) (
    write_log ;;
    write_head ;;
    install_trans ;;
    set_n 0 ;;
    write_head).

(** ** Transactions *)

Definition begin_op : M lstate unit :=
  committing ← gets ls_committing;
  if committing : bool then sleeps else
  n ← gets ls_n; outstanding ← gets ls_outstanding;
  if LOGSIZE <? n + (outstanding + 1) * MAXOPBLOCKS then sleeps else
  modify (set_outstanding (outstanding + 1)).

Definition end_op : M lstate unit :=
  modify (λ s, set_outstanding (ls_outstanding s - 1) s) ;;
  committing ← gets ls_committing;
  if committing : bool then panic "log.committing" else
  outstanding ← gets ls_outstanding;
  if outstanding =? 0 then
    modify (set_committing true) ;;
    commit ;;
    modify (set_committing false) ;;
    wakeup_log
  else wakeup_log.

(** The search of [log_write] for a block that is already logged. *)
Fixpoint absorb (bl : list Z) (blockno : Z) (k i : nat) : nat :=
  match k with
  | O => i
  | S k => if u32 (bl !!! i) =? blockno then i else absorb bl blockno k (S i)
  end.
Definition log_write (b : nat) : M lstate unit :=
  n ← gets ls_n; size ← gets ls_size;
  if (LOGSIZE <=? n) || (size - 1 <=? n) then panic "too big a transaction" else
  outstanding ← gets ls_outstanding;
  if outstanding <? 1 then panic "log_write outside of trans" else
  bl ← gets ls_block;
  blockno ← bio (getb b b_blockno);
  let i := absorb bl blockno (Z.to_nat n) 0 in
  set_lh_block i (s32 blockno) ;;
  when (Z.of_nat i =? n) (set_n (n + 1)) ;;
  bio (updb b (λ x, set_flags (Z.lor (b_flags x) B_DIRTY) x)).
