(* ===== verification/LogSpec.v ===== *)
(** * Crash safety of the log

    The disk writes of a commit in order, as a list of (block, contents) pairs, and
    what recovery makes of the disk that any prefix of them leaves. *)

From S2P Require Import Prelude Params Bytes Bio BioSpec Log.

(** ** Sequences of disk writes *)

Definition dblk (d : list block) (k : Z) : block := d !!! Z.to_nat k.

Fixpoint run (ws : list (Z * block)) (d : list block) : list block :=
  match ws with
  | [] => d
  | (k, x) :: ws => run ws (<[Z.to_nat k := x]> d)
  end.
(** The contents the disk had before each of the writes, latest first. *)
Fixpoint trail (ws : list (Z * block)) (d : list block) : list (list block) :=
  match ws with
  | [] => []
  | (k, x) :: ws => trail ws (<[Z.to_nat k := x]> d) ++ [d]
  end.

(** Between [b] and [b'] the disk was written with [ws]. *)
Definition writes (b b' : bstate) (ws : list (Z * block)) : Prop :=
  bs_disk b' = run ws (bs_disk b) ∧ bs_hist b' = trail ws (bs_disk b) ++ bs_hist b.

Lemma run_app ws1 ws2 d : run (ws1 ++ ws2) d = run ws2 (run ws1 d).
Proof. revert d. induction ws1 as [|[k x] ws1 IH]; intros d; [done|apply IH]. Qed.
Lemma trail_app ws1 ws2 d : trail (ws1 ++ ws2) d = trail ws2 (run ws1 d) ++ trail ws1 d.
Proof.
  revert d. induction ws1 as [|[k x] ws1 IH]; intros d; simpl; [by rw app_nil_r|].
  by rw IH app_assoc.
Qed.
Lemma writes_app b1 b2 b3 ws1 ws2 : writes b1 b2 ws1 → writes b2 b3 ws2 → writes b1 b3 (ws1 ++ ws2).
Proof.
  intros [D1 H1] [D2 H2]. split; [by rw run_app -D1|]. by rw H2 D1 H1 trail_app app_assoc.
Qed.
Lemma writes_nil b : writes b b [].
Proof. done. Qed.

Lemma length_run ws d : length (run ws d) = length d.
Proof. revert d. induction ws as [|[k x] ws IH]; intros d; [done|]. by rw /= IH length_insert. Qed.

(** A disk in the trail is what a proper prefix of the writes leaves. *)
Lemma elem_of_trail ws d d' : d' ∈ trail ws d → ∃ i, (i < length ws)%nat ∧ d' = run (take i ws) d.
Proof.
  revert d. induction ws as [|[k x] ws IH]; intros d; simpl; [by rw elem_of_nil|].
  rw elem_of_app list_elem_of_singleton. intros [(i & Hi & ->)%IH| ->].
  - exists (S i). split; [lia|done].
  - exists 0%nat. split; [lia|done].
Qed.

Lemma dblk_insert d k x i :
  0 ≤ k < Z.of_nat (length d) → 0 ≤ i →
  dblk (<[Z.to_nat k := x]> d) i = if decide (i = k) then x else dblk d i.
Proof.
  intros Hk Hi. rw /dblk. case_decide as E; [subst; rw list_lookup_total_insert_eq //; lia|].
  rw list_lookup_total_insert_ne //. lia.
Qed.

Definition in_disk (d : list block) (k : Z) : Prop := 0 ≤ k < Z.of_nat (length d).

(** Writing elsewhere. *)
Lemma dblk_run_notin ws d i :
  Forall (λ w, in_disk d w.1) ws → 0 ≤ i → i ∉ ws.*1 → dblk (run ws d) i = dblk d i.
Proof.
  revert d. induction ws as [|[k x] ws IH]; intros d; simpl; [done|].
  intros [Hk Hws]%Forall_cons Hi [Hne Hni]%not_elem_of_cons. rw IH //.
  - eapply Forall_impl; [apply Hws|]. intros [k' x']. by rw /in_disk length_insert.
  - rw dblk_insert //. by rewrite -> decide_False.
Qed.
(** The contents of a block that is written once. *)
Lemma dblk_run_in ws d k x :
  Forall (λ w, in_disk d w.1) ws → NoDup ws.*1 → (k, x) ∈ ws → dblk (run ws d) k = x.
Proof.
  revert d. induction ws as [|[k' x'] ws IH]; intros d; simpl; [by intros _ _ ?%elem_of_nil|].
  intros [Hk Hws]%Forall_cons [Hni Hnd]%NoDup_cons [[= <- <-]|Hin]%elem_of_cons.
  - simpl in Hk. rw dblk_run_notin //; [|apply Hk|].
    + eapply Forall_impl; [apply Hws|]. intros [k' x']. by rw /in_disk length_insert.
    + rw dblk_insert //; [apply Hk|]. by rewrite -> decide_True.
  - apply IH; try done. eapply Forall_impl; [apply Hws|]. intros [k'' x'']. by rw /in_disk length_insert.
Qed.

(** ** The cache between operations *)

(** No buffer is held; a block that is not pinned is on the disk. *)
Record crep (b : bstate) (pin : gset Z) : Prop := {
  cr_rep : ∃ l, brep b l ∅ pin;
  cr_sync i : 0 ≤ i → i ∉ pin → view b i = dblk (bs_disk b) i;
}.

Lemma crep_pin b pin i : crep b pin → i ∈ pin → in_disk (bs_disk b) i.
Proof.
  intros [(l & R) _] Hi. destruct (rp_pin _ _ _ _ R i Hi) as (j & J1 & J2 & <- & _).
  by apply (bi_ok _ _ (rp_inv _ _ _ _ R) j J1).
Qed.

Lemma size_empty_lt_nbuf : (S (size (∅ : gset Z)) < nbuf)%nat.
Proof. apply Nat.ltb_lt. reflexivity. Qed.

(** Copying the contents of buffer [x] into buffer [y], writing [y] and releasing
    both. *)
Lemma copy_end b l pin x y a c :
  brep b l (<[y := c]> (<[x := a]> ∅)) pin → x ≠ y → a ≠ c → in_disk (bs_disk b) c → 0 ≤ a →
  (∀ i, 0 ≤ i → i ∉ pin → view b i = dblk (bs_disk b) i) →
  ∃ b1 b2 b3 b', getb x b_data b = Ok (view b a, b) ∧
    updb y (set_data (view b a)) b = Ok (tt, b1) ∧ bwrite y b1 = Ok (tt, b2) ∧
    brelse x b2 = Ok (tt, b3) ∧ brelse y b3 = Ok (tt, b') ∧
    crep b' (pin ∖ {[c]}) ∧ writes b b' [(c, view b a)] ∧ bs_me b' = bs_me b ∧
    ∀ i, 0 ≤ i → view b' i = if decide (i = c) then view b a else view b i.
Proof.
  intros R Hxy Hac Hc Ha Hsync.
  assert ((<[y := c]> (<[x := a]> ∅) : gmap nat Z) !! x = Some a) as Lx.
  { by rw lookup_insert_ne // lookup_insert_eq. }
  assert ((<[y := c]> (<[x := a]> ∅) : gmap nat Z) !! y = Some c) as Ly by by rw lookup_insert_eq.
  assert (getb x b_data b = Ok (view b a, b)) as E0 by by rw /getb /gets -(brep_view _ _ _ _ _ _ R Lx).
  destruct (set_data_rep _ _ _ _ y c (view b a) R Ly) as (b1 & E1 & R1 & V1 & D1 & M1 & H1).
  destruct (bwrite_rep _ _ _ _ y c R1 Ly) as (b2 & E2 & R2 & V2 & D2 & M2 & H2).
  assert (view b1 c = view b a) as Vc by (rw V1; by rewrite -> decide_True).
  rw D1 Vc in D2. rw D1 in H2.
  assert (∀ i, 0 ≤ i → view b2 i = if decide (i = c) then view b a else view b i) as V2'.
  { intros i Hi. by rw V2 // V1. }
  assert (∀ i, 0 ≤ i → i ∉ pin ∖ {[c]} → view b2 i = dblk (bs_disk b2) i) as S2.
  { intros i Hi Hn. rw V2' // D2 dblk_insert //. case_decide; [done|]. apply Hsync; [done|set_solver]. }
  destruct (brelse_rep _ _ _ _ x a R2 Lx) as (b3 & l1 & l2 & _ & E3 & R3 & V3 & D3 & M3 & H3).
  { destruct (decide (a ∈ pin ∖ {[c]})); [by left|right; by apply S2]. }
  destruct (brelse_rep _ _ _ _ y c R3) as (b' & l1' & l2' & _ & E4 & R4 & V4 & D4 & M4 & H4).
  { by rw lookup_delete_ne. }
  { right. rw V3 D3. apply S2; [apply Hc|set_solver]. }
  exists b1, b2, b3, b'. do 5 (split; [done|]).
  assert (delete y (delete x (<[y := c]> (<[x := a]> ∅) : gmap nat Z)) = ∅) as Eh.
  { rw delete_insert_ne // delete_insert_eq delete_insert_eq delete_empty. by rw delete_empty. }
  rw Eh in R4. split; [|split; [|split]].
  - split; [by eexists|]. intros i Hi Hn. rw V4 V3 D4 D3. by apply S2.
  - split; [by rw D4 D3 D2|]. by rw H4 H3 H2 H1.
  - congruence.
  - intros i Hi. by rw V4 V3 V2'.
Qed.

(** ** The steps of commit and recovery *)

Lemma bio_Ok {A} (m : M bstate A) s b a b' :
  m b = Ok (a, b') → bio m (set_bio b s) = Ok (a, set_bio b' s).
Proof. rw /bio /lift /=. by intros ->. Qed.
Lemma set_bio_id s : set_bio (ls_bio s) s = s.
Proof. by destruct s. Qed.

(** Run the next operation on the buffer cache with its result [E]. *)
Ltac bgo E := rw (bind_Ok _ _ _ _ _ (bio_Ok _ _ _ _ _ E)); cbn beta.

Definition log_blk (s : lstate) (j : nat) : Z := ls_start s + 1 + Z.of_nat j.
Definition lh_blk (s : lstate) (j : nat) : Z := ls_block s !!! j.

(** The log's place on the disk. *)
Record log_geom (s : lstate) : Prop := {
  lg_dev : ls_dev s = 1;
  lg_start : 0 ≤ ls_start s;
  lg_end : ls_start s + ls_size s ≤ Z.of_nat (length (bs_disk (ls_bio s)));
  lg_disk : Z.of_nat (length (bs_disk (ls_bio s))) < 2147483648;
}.

Lemma log_geom_upd s b :
  log_geom s → length (bs_disk b) = length (bs_disk (ls_bio s)) → log_geom (set_bio b s).
Proof. intros [] E. split; simpl; by rw ?E. Qed.

(** Reading two blocks. *)
Lemma read2 b pin p q :
  crep b pin → in_disk (bs_disk b) p → in_disk (bs_disk b) q → p ≠ q →
  (p ∈ pin ∨ size pin < nbuf)%nat → (q ∈ pin ∨ S (size pin) < nbuf)%nat →
  ∃ l x y b1 b2, bread 1 p b = Ok (x, b1) ∧ bread 1 q b1 = Ok (y, b2) ∧ x ≠ y ∧
    brep b2 l (<[y := q]> (<[x := p]> ∅)) pin ∧ (∀ i, view b2 i = view b i) ∧
    bs_disk b2 = bs_disk b ∧ bs_hist b2 = bs_hist b ∧ bs_me b2 = bs_me b.
Proof.
  intros [(l & R) _] Hp Hq Hpq Hsp Hsq.
  destruct (bread_rep b l ∅ pin p R Hp) as (x & b1 & E1 & P1 & Hx & R1).
  { intros i. by rw lookup_empty. }
  { by rw map_size_empty. }
  destruct (bread_rep b1 l (<[x := p]> ∅) pin q R1) as (y & b2 & E2 & P2 & Hy & R2).
  { by rw (br_disk _ _ _ _ _ P1). }
  { intros i. destruct (decide (i = x)) as [->|]; [rw lookup_insert_eq|rw lookup_insert_ne // lookup_empty //].
    congruence. }
  { destruct Hsq; [by left|right]. rw map_size_insert lookup_empty map_size_empty. lia. }
  exists l, x, y, b1, b2. do 2 (split; [done|]).
  split; [intros ->; by rw lookup_insert_eq in Hy|]. split; [done|].
  split; [intros i; by rw (br_view _ _ _ _ _ P2) (br_view _ _ _ _ _ P1)|].
  split; [by rw (br_disk _ _ _ _ _ P2) (br_disk _ _ _ _ _ P1)|].
  split; [by rw (br_hist _ _ _ _ _ P2) (br_hist _ _ _ _ _ P1)|].
  by rw (br_me _ _ _ _ _ P2) (br_me _ _ _ _ _ P1).
Qed.

(** What copying block [a] to block [c] does to the cache and the disk. *)
Definition copied (b b' : bstate) (pin : gset Z) (a c : Z) : Prop :=
  crep b' (pin ∖ {[c]}) ∧ writes b b' [(c, view b a)] ∧ bs_me b' = bs_me b ∧
  ∀ i, 0 ≤ i → view b' i = if decide (i = c) then view b a else view b i.

Lemma copied_from b b2 b' pin a c :
  copied b2 b' pin a c → (∀ i, view b2 i = view b i) → bs_disk b2 = bs_disk b →
  bs_hist b2 = bs_hist b → bs_me b2 = bs_me b → copied b b' pin a c.
Proof.
  intros (C & [W1 W2] & Hme & V) Hv Hd Hh Hm. split; [done|]. split.
  { split; [by rw W1 Hd Hv|]. by rw W2 Hd Hv Hh. }
  split; [by rw Hme|]. intros i Hi. by rw V // !Hv.
Qed.

Lemma log_blk_range s j :
  log_geom s → 1 + Z.of_nat j < ls_size s → in_disk (bs_disk (ls_bio s)) (log_blk s j) ∧
  u32 (ls_start s + Z.of_nat j + 1) = log_blk s j.
Proof.
  intros [G1 G2 G3 G4] Hj. rw /in_disk /log_blk. split; [lia|]. rw u32_small; lia.
Qed.
Lemma lh_blk_range s j :
  log_geom s → in_disk (bs_disk (ls_bio s)) (lh_blk s j) → u32 (ls_block s !!! j) = lh_blk s j.
Proof. intros [G1 G2 G3 G4] [H1 H2]. rw /lh_blk in H1 H2 |- *. apply u32_small. lia. Qed.

Lemma install_block_ok s pin j :
  let b := ls_bio s in let a := log_blk s j in let c := lh_blk s j in
  log_geom s → crep b pin → 1 + Z.of_nat j < ls_size s → in_disk (bs_disk b) c → a ≠ c →
  (size pin < nbuf)%nat → (c ∈ pin ∨ S (size pin) < nbuf)%nat →
  ∃ b', install_block j s = Ok (tt, set_bio b' s) ∧ copied b b' pin a c.
Proof.
  intros b a c G C Hj Hc Hac Hsz Hcsz. destruct (log_blk_range s j G Hj) as [Ha Ea].
  pose proof (lh_blk_range s j G Hc) as Ec.
  destruct (read2 b pin a c) as (l & x & y & b1 & b2 & E1 & E2 & Hxy & R2 & V2 & D2 & H2 & M2); [done..|by right|done|].
  destruct (copy_end b2 l pin x y a c R2 Hxy Hac) as
    (b3 & b4 & b5 & b6 & F1 & F2 & F3 & F4 & F5 & F6); [by rw D2|apply Ha| |].
  { intros i Hi Hn. rw V2 D2. by apply C. }
  exists b6. split; [|by eapply copied_from].
  rw -(set_bio_id s) /install_block. mget. cbn [ls_start ls_dev ls_block set_bio].
  rw (lg_dev _ G) Ea Ec. bgo E1. bgo E2. bgo F1. bgo F2. bgo F3. bgo F4. exact (bio_Ok _ _ _ _ _ F5).
Qed.

Lemma write_log_block_ok s pin j :
  let b := ls_bio s in let a := lh_blk s j in let c := log_blk s j in
  log_geom s → crep b pin → 1 + Z.of_nat j < ls_size s → a ∈ pin → a ≠ c → (size pin < nbuf)%nat →
  ∃ b', write_log_block j s = Ok (tt, set_bio b' s) ∧ copied b b' pin a c.
Proof.
  intros b a c G C Hj Hap Hac Hsz. destruct (log_blk_range s j G Hj) as [Hc Ec].
  pose proof (crep_pin _ _ _ C Hap) as Ha. pose proof (lh_blk_range s j G Ha) as Ea.
  destruct (read2 b pin c a) as (l & y & x & b1 & b2 & E1 & E2 & Hxy & R2 & V2 & D2 & H2 & M2);
    [done|done|done|done|by right|by left|].
  rw insert_insert_ne // in R2.
  destruct (copy_end b2 l pin x y a c R2 (not_eq_sym Hxy) Hac) as
    (b3 & b4 & b5 & b6 & F1 & F2 & F3 & F4 & F5 & F6); [by rw D2|apply Ha| |].
  { intros i Hi Hn. rw V2 D2. by apply C. }
  exists b6. split; [|by eapply copied_from].
  rw -(set_bio_id s) /write_log_block. mget. cbn [ls_start ls_dev ls_block set_bio].
  rw (lg_dev _ G) Ea Ec. bgo E1. bgo E2. bgo F1. bgo F2. bgo F3. bgo F4. exact (bio_Ok _ _ _ _ _ F5).
Qed.

(** The blocks that [log.lh] lists at positions [t] to [t + k - 1]: on the disk, outside
    the log, and all different. *)
Record lh_ok (s : lstate) (t k : nat) : Prop := {
  lo_size : (0 < k)%nat → Z.of_nat (t + k) < ls_size s;
  lo_disk j : (t ≤ j < t + k)%nat → in_disk (bs_disk (ls_bio s)) (lh_blk s j);
  lo_home j : (t ≤ j < t + k)%nat → ¬ (ls_start s ≤ lh_blk s j < ls_start s + ls_size s);
  lo_inj i j : (t ≤ i < t + k)%nat → (t ≤ j < t + k)%nat → lh_blk s i = lh_blk s j → i = j;
}.

Lemma lh_log_ne s t k i j :
  lh_ok s t k → (t ≤ j < t + k)%nat → 1 + Z.of_nat i < ls_size s → lh_blk s j ≠ log_blk s i.
Proof. intros L Hj Hi E. apply (lo_home _ _ _ L j Hj). rw E /log_blk. lia. Qed.

Lemma lh_ok_S s t k b :
  lh_ok s t (S k) → length (bs_disk b) = length (bs_disk (ls_bio s)) → lh_ok (set_bio b s) (S t) k.
Proof.
  intros [L1 L2 L3 L4] E. split.
  - cbn [ls_size set_bio]. lia.
  - intros j Hj. rw /in_disk /= E. apply L2. lia.
  - intros j Hj. apply L3. lia.
  - intros i j Hi Hj. apply L4; lia.
Qed.

Lemma write_log_loop_ok k : ∀ s pin t, log_geom s → crep (ls_bio s) pin → lh_ok s t k →
  (∀ j, (t ≤ j < t + k)%nat → lh_blk s j ∈ pin) → (∀ j, 1 + Z.of_nat j < ls_size s → log_blk s j ∉ pin) →
  (size pin < nbuf)%nat →
  ∃ b', for_tail write_log_block k t s = Ok (tt, set_bio b' s) ∧ crep b' pin ∧
    writes (ls_bio s) b' ((λ j, (log_blk s j, view (ls_bio s) (lh_blk s j))) <$> seq t k) ∧
    bs_me b' = bs_me (ls_bio s) ∧ ∀ i, i ∈ pin → view b' i = view (ls_bio s) i.
Proof.
  induction k as [|k IH]; intros s pin t G C L Hp Hl Hsz.
  { exists (ls_bio s). by rw set_bio_id. }
  pose proof (lo_size _ _ _ L) as Hs.
  destruct (write_log_block_ok s pin t) as (b1 & E1 & C1 & W1 & M1 & V1); [done|done|lia|apply Hp; lia| |done|].
  { apply (lh_log_ne _ _ _ _ _ L); lia. }
  assert (pin ∖ {[log_blk s t]} = pin) as Ep.
  { assert (log_blk s t ∉ pin) by (apply Hl; lia). apply leibniz_equiv. set_solver. }
  rw Ep in C1.
  assert (length (bs_disk b1) = length (bs_disk (ls_bio s))) as El by by rw (proj1 W1) length_run.
  destruct (IH (set_bio b1 s) pin (S t)) as (b' & E & C' & W' & M' & V').
  { by apply log_geom_upd. }
  { done. }
  { by apply lh_ok_S. }
  { intros j Hj. apply (Hp j). lia. }
  { intros j Hj. by apply (Hl j). }
  { done. }
  assert (∀ i, i ∈ pin → view b1 i = view (ls_bio s) i) as V1'.
  { intros i Hi. rw V1; [by apply (crep_pin _ _ _ C)|]. case_decide; [|done]. subst i.
    destruct (Hl t); [lia|done]. }
  exists b'. split; [by rw /= (bind_Ok _ _ _ _ _ E1)|]. split; [done|]. split; [|split].
  - rw -cons_seq fmap_cons. apply (writes_app _ b1 _ [_] (_ <$> _) W1).
    erewrite list_fmap_ext; [exact W'|]. intros i j [-> Hj]%lookup_seq. cbn beta. f_equal.
    symmetry. apply V1', Hp. lia.
  - by rw M' M1.
  - intros i Hi. by rw V' // V1'.
Qed.

Lemma install_loop_ok k : ∀ s pin t, log_geom s → crep (ls_bio s) pin → lh_ok s t k →
  (∀ j, (t ≤ j < t + k)%nat → lh_blk s j ∈ pin ∨ (S (size pin) < nbuf)%nat) → (size pin < nbuf)%nat →
  let cs := lh_blk s <$> seq t k in
  ∃ b', for_tail install_block k t s = Ok (tt, set_bio b' s) ∧ crep b' (pin ∖ list_to_set cs) ∧
    writes (ls_bio s) b' ((λ j, (lh_blk s j, view (ls_bio s) (log_blk s j))) <$> seq t k) ∧
    bs_me b' = bs_me (ls_bio s) ∧ (∀ i, 0 ≤ i → i ∉ cs → view b' i = view (ls_bio s) i) ∧
    ∀ j, (t ≤ j < t + k)%nat → view b' (lh_blk s j) = view (ls_bio s) (log_blk s j).
Proof.
  induction k as [|k IH]; intros s pin t G C L Hp Hsz cs.
  { exists (ls_bio s). rw set_bio_id difference_empty_L. do 5 (split; [done|]). lia. }
  pose proof (lo_size _ _ _ L) as Hs.
  destruct (install_block_ok s pin t) as (b1 & E1 & C1 & W1 & M1 & V1); [done|done|lia| | |done|apply Hp; lia|].
  { apply L. lia. }
  { apply not_eq_sym, (lh_log_ne _ _ _ _ _ L); lia. }
  assert (length (bs_disk b1) = length (bs_disk (ls_bio s))) as El by by rw (proj1 W1) length_run.
  assert (size (pin ∖ {[lh_blk s t]}) ≤ size pin)%nat as Hle by (apply subseteq_size; set_solver).
  destruct (IH (set_bio b1 s) (pin ∖ {[lh_blk s t]}) (S t)) as (b' & E & C' & W' & M' & V' & V'').
  { by apply log_geom_upd. }
  { done. }
  { by apply lh_ok_S. }
  { intros j Hj. destruct (Hp j) as [Hin|]; [lia| |right; lia]. left. apply elem_of_difference. split; [done|].
    rw elem_of_singleton. intros Ej. apply (lo_inj _ _ _ L) in Ej; lia. }
  { lia. }
  assert (∀ j, (t ≤ j < t + S k)%nat → view b1 (log_blk s j) = view (ls_bio s) (log_blk s j)) as V1'.
  { intros j Hj. rw V1; [apply (log_blk_range s j G); lia|]. rewrite -> decide_False; [done|].
    apply not_eq_sym, (lh_log_ne _ _ _ _ _ L); lia. }
  exists b'. split; [by rw /= (bind_Ok _ _ _ _ _ E1)|]. split; [|split; [|split; [|split]]].
  - replace (pin ∖ list_to_set cs) with (pin ∖ {[lh_blk s t]} ∖ list_to_set (lh_blk s <$> seq (S t) k)); [done|].
    apply leibniz_equiv. rw /cs /=. set_solver.
  - rw -cons_seq fmap_cons. apply (writes_app _ b1 _ [_] (_ <$> _) W1).
    erewrite list_fmap_ext; [exact W'|]. intros i j [-> Hj]%lookup_seq. cbn beta. f_equal.
    symmetry. apply V1'. lia.
  - by rw M' M1.
  - intros i Hi Hn. rw /cs /= in Hn. apply not_elem_of_cons in Hn as [Hne Hn]. rw V' // V1 //.
    by rewrite -> decide_False.
  - intros j Hj. destruct (decide (j = t)) as [->|Hne].
    + rw V'; [apply L; lia| |].
      * intros (i & Ei & Hi)%list_elem_of_fmap. apply elem_of_seq in Hi.
        apply (lo_inj _ _ _ L) in Ei; lia.
      * rw V1; [apply L; lia|]. by rewrite -> decide_True.
    + assert (view b' (lh_blk s j) = view b1 (log_blk s j)) as -> by (apply V''; lia).
      apply V1'. lia.
Qed.

(** ** The header block *)

Lemma length_put_blocks d i bl : length (put_blocks d i bl) = length d.
Proof. revert d i. induction bl as [|b bl IH]; intros d i; [done|]. by rw /= IH length_put32. Qed.
Lemma get32_put_blocks_0 d i bl :
  (lh_off (i + length bl) ≤ length d)%nat → get32 (put_blocks d i bl) 0 = get32 d 0.
Proof.
  revert d i. induction bl as [|b bl IH]; intros d i; [done|]. rw /= /lh_off. intros Hl.
  rw IH; [rw length_put32 /lh_off; lia|]. rw get32_put32_ne //; rw /lh_off; lia.
Qed.
Lemma get32_put_blocks d i bl j :
  (lh_off (i + length bl) ≤ length d)%nat →
  get32 (put_blocks d i bl) (lh_off j) =
    if decide (i ≤ j < i + length bl)%nat then u32 (bl !!! (j - i)%nat) else get32 d (lh_off j).
Proof.
  revert d i. induction bl as [|b bl IH]; intros d i.
  { intros _. by rewrite -> decide_False by (simpl; lia). }
  rw /= /lh_off. intros Hl. rw IH; [rw length_put32 /lh_off; lia|].
  destruct (decide (j = i)) as [->|Hne].
  - rewrite -> decide_False, decide_True by lia. rw Nat.sub_diag /=. apply get32_put32_eq. rw /lh_off. lia.
  - rw get32_put32_ne; [rw /lh_off; lia|rw /lh_off; lia|]. repeat case_decide; try lia; [|done].
    by replace (j - i)%nat with (S (j - S i)) by lia.
Qed.

(** The header that [write_head] stores. *)
Definition head_block (s : lstate) : block :=
  put_blocks (put32 (view (ls_bio s) (ls_start s)) 0 (ls_n s)) 0 (take (Z.to_nat (ls_n s)) (ls_block s)).

Lemma write_head_ok s pin :
  log_geom s → crep (ls_bio s) pin → 0 < ls_size s → ls_start s ∉ pin → (size pin < nbuf)%nat →
  ∃ b', write_head s = Ok (tt, set_bio b' s) ∧ crep b' pin ∧
    writes (ls_bio s) b' [(ls_start s, head_block s)] ∧ bs_me b' = bs_me (ls_bio s) ∧
    ∀ i, 0 ≤ i → view b' i = if decide (i = ls_start s) then head_block s else view (ls_bio s) i.
Proof.
  intros [G1 G2 G3 G4] [(l & R) Hsync] Hs Hns Hsz. set (b := ls_bio s) in *. set (a := ls_start s) in *.
  assert (in_disk (bs_disk b) a) as Ha by (rw /in_disk; lia).
  destruct (bread_rep b l ∅ pin a R Ha) as (x & b1 & E1 & P1 & Hx & R1).
  { intros i. by rw lookup_empty. }
  { right. by rw map_size_empty. }
  assert ((<[x := a]> ∅ : gmap nat Z) !! x = Some a) as Lx by by rw lookup_insert_eq.
  assert (getb x b_data b1 = Ok (view b a, b1)) as E2.
  { by rw /getb /gets -(brep_view _ _ _ _ _ _ R1 Lx) (br_view _ _ _ _ _ P1). }
  destruct (set_data_rep _ _ _ _ x a (head_block s) R1 Lx) as (b2 & E3 & R3 & V3 & D3 & M3 & H3).
  destruct (bwrite_rep _ _ _ _ x a R3 Lx) as (b3 & E4 & R4 & V4 & D4 & M4 & H4).
  assert (view b2 a = head_block s) as Va by (rw V3; by rewrite -> decide_True).
  rw Va D3 (br_disk _ _ _ _ _ P1) in D4. rw D3 (br_disk _ _ _ _ _ P1) H3 (br_hist _ _ _ _ _ P1) in H4.
  assert (pin ∖ {[a]} = pin) as Ep by (apply leibniz_equiv; set_solver). rw Ep in R4.
  assert (∀ i, 0 ≤ i → view b3 i = if decide (i = a) then head_block s else view b i) as V4'.
  { intros i Hi. rw V4 // V3. case_decide; [done|]. by rw (br_view _ _ _ _ _ P1). }
  destruct (brelse_rep _ _ _ _ x a R4 Lx) as (b4 & l1 & l2 & _ & E5 & R5 & V5 & D5 & M5 & H5).
  { right. rw V4'; [apply Ha|]. rewrite -> D4, decide_True by done.
    rw list_lookup_total_insert_eq //. rw /in_disk in Ha. lia. }
  exists b4. split; [|split; [|split; [|split]]].
  - rw -(set_bio_id s) /write_head. mget. cbn [ls_start ls_dev ls_block ls_n set_bio].
    rw G1 (u32_small (ls_start s)); [rw /in_disk in Ha; rw /a in Ha; lia|].
    bgo E1. bgo E2. bgo E3. bgo E4. exact (bio_Ok _ _ _ _ _ E5).
  - rw delete_insert_id in R5; [done|]. split; [by eexists|]. intros i Hi Hn. rw V5 D5 V4' // D4 dblk_insert //.
    case_decide; [done|]. by apply Hsync.
  - split; [by rw D5 D4|]. by rw H5 H4.
  - by rw M5 M4 M3 (br_me _ _ _ _ _ P1).
  - intros i Hi. by rw V5 V4'.
Qed.

(** ** Reading *)

Lemma read_block_ok b pin a :
  crep b pin → in_disk (bs_disk b) a → (size pin < nbuf)%nat →
  ∃ x b1 b', bread 1 a b = Ok (x, b1) ∧ getb x b_data b1 = Ok (view b a, b1) ∧
    brelse x b1 = Ok (tt, b') ∧ crep b' pin ∧ writes b b' [] ∧ bs_me b' = bs_me b ∧
    ∀ i, view b' i = view b i.
Proof.
  intros [(l & R) Hsync] Ha Hsz.
  destruct (bread_rep b l ∅ pin a R Ha) as (x & b1 & E1 & P1 & Hx & R1).
  { intros i. by rw lookup_empty. }
  { right. by rw map_size_empty. }
  assert ((<[x := a]> ∅ : gmap nat Z) !! x = Some a) as Lx by by rw lookup_insert_eq.
  destruct (brelse_rep _ _ _ _ x a R1 Lx) as (b2 & l1 & l2 & _ & E5 & R5 & V5 & D5 & M5 & H5).
  { rw (br_view _ _ _ _ _ P1) (br_disk _ _ _ _ _ P1). destruct (decide (a ∈ pin)); [by left|right].
    by apply Hsync; [apply Ha|]. }
  exists x, b1, b2. split; [done|].
  split; [by rw /getb /gets -(brep_view _ _ _ _ _ _ R1 Lx) (br_view _ _ _ _ _ P1)|]. split; [done|].
  assert (∀ i, view b2 i = view b i) as V by (intros i; by rw V5 (br_view _ _ _ _ _ P1)).
  split; [|split; [|split; [|done]]].
  - rw delete_insert_id in R5; [done|]. split; [by eexists|].
    intros i Hi Hn. rw V D5 (br_disk _ _ _ _ _ P1). by apply Hsync.
  - split; [by rw D5 (br_disk _ _ _ _ _ P1)|by rw H5 (br_hist _ _ _ _ _ P1)].
  - by rw M5 (br_me _ _ _ _ _ P1).
Qed.

Lemma set_lh_blocks_ok f k : ∀ s t, (t + k ≤ length (ls_block s))%nat →
  ∃ bl, for_tail (λ i, set_lh_block i (f i)) k t s = Ok (tt, set_lh (ls_n s) bl s) ∧
    length bl = length (ls_block s) ∧ (∀ j, (t ≤ j < t + k)%nat → bl !!! j = f j) ∧
    (∀ j, (j < t)%nat → bl !!! j = ls_block s !!! j).
Proof.
  induction k as [|k IH]; intros s t Hl.
  { exists (ls_block s). split; [by destruct s|]. split; [done|]. split; [lia|done]. }
  set (s1 := set_lh (ls_n s) (<[t := f t]> (ls_block s)) s).
  destruct (IH s1 (S t)) as (bl & E & El & Hin & Hout); [rw /s1 /= length_insert; lia|].
  rw /s1 /= length_insert in El.
  assert (set_lh_block t (f t) s = Ok (tt, s1)) as E1.
  { rw /set_lh_block. mget. rewrite -> decide_True by lia. done. }
  exists bl. split; [by rw /= (bind_Ok _ _ _ _ _ E1)|]. split; [done|]. split.
  - intros j Hj. destruct (decide (j = t)) as [->|]; [|apply Hin; lia].
    rw Hout; [lia|]. rw /s1 /= list_lookup_total_insert_eq //. lia.
  - intros j Hj. rw Hout; [lia|]. rw /s1 /= list_lookup_total_insert_ne //. lia.
Qed.

(** What the header block of a disk says. *)
Definition head_n (d : block) : Z := s32 (get32 d 0).
Definition head_blk (d : block) (j : nat) : Z := s32 (get32 d (lh_off j)).

Lemma read_head_ok s pin :
  log_geom s → crep (ls_bio s) pin → 0 < ls_size s → (size pin < nbuf)%nat →
  let d := view (ls_bio s) (ls_start s) in
  (Z.to_nat (head_n d) ≤ length (ls_block s))%nat →
  ∃ b' bl, read_head s = Ok (tt, set_lh (head_n d) bl (set_bio b' s)) ∧ crep b' pin ∧
    writes (ls_bio s) b' [] ∧ bs_me b' = bs_me (ls_bio s) ∧ (∀ i, view b' i = view (ls_bio s) i) ∧
    length bl = length (ls_block s) ∧ ∀ j, (j < Z.to_nat (head_n d))%nat → bl !!! j = head_blk d j.
Proof.
  intros [G1 G2 G3 G4] C Hs Hsz d Hn.
  destruct (read_block_ok (ls_bio s) pin (ls_start s) C) as (x & b1 & b' & E1 & E2 & E3 & C' & W & Hm & V).
  { rw /in_disk. lia. }
  { done. }
  destruct (set_lh_blocks_ok (head_blk d) (Z.to_nat (head_n d)) (set_lh (head_n d) (ls_block s) (set_bio b1 s)) 0)
    as (bl & E4 & El & Hbl & _); [done|].
  exists b', bl. split; [|do 5 (split; [done|]); intros j Hj; apply Hbl; lia].
  rw -{1}(set_bio_id s) /read_head. mget. cbn [ls_start ls_dev set_bio].
  rw G1 (u32_small (ls_start s)); [lia|]. bgo E1. bgo E2. rw -/d /set_n. mget.
  cbn [ls_n set_lh set_bio ls_block]. rw -/(head_n d).
  mgo E4.
  exact (bio_Ok _ (set_lh (head_n d) bl s) _ _ _ E3).
Qed.

(** ** Commit *)

Definition lh_len (s : lstate) : nat := Z.to_nat (ls_n s).
Definition lh_set (s : lstate) : gset Z := list_to_set (lh_blk s <$> seq 0 (lh_len s)).

(** The log between the operations of a transaction: the header on the disk is empty,
    the blocks that [log.lh] lists are the pinned ones. *)
Record log_inv (s : lstate) : Prop := {
  li_geom : log_geom s;
  li_len : length (ls_block s) = Z.to_nat LOGSIZE;
  li_size : 0 < ls_size s ≤ LOGSIZE;
  li_n : 0 ≤ ls_n s < ls_size s;
  li_ok : lh_ok s 0 (lh_len s);
  li_rep : crep (ls_bio s) (lh_set s);
  li_head : head_n (dblk (bs_disk (ls_bio s)) (ls_start s)) = 0;
  li_hlen : length (dblk (bs_disk (ls_bio s)) (ls_start s)) = Z.to_nat BSIZE;
}.

Lemma lh_set_elem s i : i ∈ lh_set s ↔ ∃ j, (j < lh_len s)%nat ∧ i = lh_blk s j.
Proof.
  rw /lh_set elem_of_list_to_set list_elem_of_fmap. split.
  - intros (j & -> & Hj%elem_of_seq). exists j. split; [lia|done].
  - intros (j & Hj & ->). exists j. split; [done|]. apply elem_of_seq. lia.
Qed.
Lemma lh_set_size s : (size (lh_set s) ≤ lh_len s)%nat.
Proof.
  rw /lh_set. etransitivity; [apply size_list_to_set_le|]. by rw length_fmap length_seq.
Qed.
Lemma lh_set_small s : log_inv s → (size (lh_set s) < nbuf)%nat.
Proof.
  intros I. pose proof (lh_set_size s). pose proof (li_n _ I). pose proof (li_size _ I) as Hs.
  rw /LOGSIZE /MAXOPBLOCKS in Hs. rw /lh_len in H. rw /nbuf /NBUF /MAXOPBLOCKS. lia.
Qed.
Lemma lh_set_log s i : log_inv s → i ∈ lh_set s → ¬ (ls_start s ≤ i < ls_start s + ls_size s).
Proof. intros I (j & Hj & ->)%lh_set_elem. apply (lo_home _ _ _ (li_ok _ I)). lia. Qed.

Definition log_writes (s : lstate) : list (Z * block) :=
  (λ j, (log_blk s j, view (ls_bio s) (lh_blk s j))) <$> seq 0 (lh_len s).
Definition home_writes (s : lstate) : list (Z * block) :=
  (λ j, (lh_blk s j, view (ls_bio s) (lh_blk s j))) <$> seq 0 (lh_len s).
(** All the writes of a commit, in order. *)
Definition commit_writes (s : lstate) : list (Z * block) :=
  log_writes s ++ [(ls_start s, head_block s)] ++ home_writes s ++
  [(ls_start s, put32 (head_block s) 0 0)].

Lemma log_writes_disk s :
  log_inv s → Forall (λ w, in_disk (bs_disk (ls_bio s)) w.1) (log_writes s) ∧ NoDup (log_writes s).*1 ∧
  ∀ i, i ∈ (log_writes s).*1 → ls_start s < i < ls_start s + ls_size s.
Proof.
  intros [G _ Hsz Hn _ _ _ _]. rw /log_writes /lh_len -list_fmap_compose.
  split; [|split].
  - apply Forall_fmap, Forall_seq. intros j Hj. apply (log_blk_range s j G). lia.
  - apply NoDup_fmap_2_strong; [|apply NoDup_seq]. rw /log_blk /=. intros x y _ _ ?. lia.
  - intros i (j & -> & Hj%elem_of_seq)%list_elem_of_fmap. rw /log_blk /=. lia.
Qed.

(** After [write_log]: the log holds the new contents, and nothing else changed. *)
Lemma write_log_ok s :
  log_inv s → ∃ b', write_log s = Ok (tt, set_bio b' s) ∧ crep b' (lh_set s) ∧
    writes (ls_bio s) b' (log_writes s) ∧ bs_me b' = bs_me (ls_bio s) ∧
    (∀ j, (j < lh_len s)%nat → view b' (log_blk s j) = view (ls_bio s) (lh_blk s j)) ∧
    ∀ i, 0 ≤ i → ¬ (ls_start s < i < ls_start s + ls_size s) → view b' i = view (ls_bio s) i.
Proof.
  intros I. pose proof I as [G Hlen Hsz Hnn L C Hh Hhl].
  destruct (log_writes_disk s I) as (Wd & Wn & Wr).
  assert (∀ j, 1 + Z.of_nat j < ls_size s → log_blk s j ∉ lh_set s) as Hlog.
  { intros j Hj ?%lh_set_log; [|done]. rw /log_blk in H. pose proof (lg_start _ G). lia. }
  destruct (write_log_loop_ok (lh_len s) s (lh_set s) 0) as (b1 & E1 & C1 & W1 & M1 & V1); try done.
  { intros j Hj. apply lh_set_elem. exists j. split; [lia|done]. }
  { by apply lh_set_small. }
  exists b1. do 4 (split; [done|]). split.
  - intros j Hj. rw /lh_len in Hj. rw (cr_sync _ _ C1).
    + rw /log_blk. pose proof (lg_start _ G). lia.
    + apply Hlog. lia.
    + rw (proj1 W1). apply dblk_run_in; [done|done|]. apply list_elem_of_fmap. exists j. split; [done|].
      apply elem_of_seq. rw /lh_len. lia.
  - intros i Hi Hni. destruct (decide (i ∈ lh_set s)) as [Hin|Hin]; [by apply V1|].
    rw (cr_sync _ _ C1) // (cr_sync _ _ C) // (proj1 W1). apply dblk_run_notin; [done|done|].
    by intros ?%Wr.
Qed.

Lemma commit_ok s :
  log_inv s → 0 < ls_n s →
  ∃ b', commit s = Ok (tt, set_lh 0 (ls_block s) (set_bio b' s)) ∧ crep b' ∅ ∧
    writes (ls_bio s) b' (commit_writes s) ∧ bs_me b' = bs_me (ls_bio s) ∧
    ∀ i, 0 ≤ i → ¬ (ls_start s ≤ i < ls_start s + ls_size s) → view b' i = view (ls_bio s) i.
Proof.
  intros I Hn. pose proof I as [G Hlen Hsz Hnn L C Hh Hhl].
  pose proof (lh_set_small s I) as Hpin. pose proof (lg_start _ G) as Hst0.
  assert (ls_start s ∉ lh_set s) as Hst by (intros ?%lh_set_log; [lia|done]).
  (* write_log *)
  destruct (write_log_ok s I) as (b1 & E1 & C1 & W1 & M1 & V1 & V1').
  assert (length (bs_disk b1) = length (bs_disk (ls_bio s))) as El1 by by rw (proj1 W1) length_run.
  (* write_head *)
  destruct (write_head_ok (set_bio b1 s) (lh_set s)) as (b2 & E2 & C2 & W2 & M2 & V2); try done.
  { by apply log_geom_upd. }
  { simpl. lia. }
  assert (head_block (set_bio b1 s) = head_block s) as Eh.
  { rw /head_block /=. rw V1' //. lia. }
  rw Eh in W2 V2.
  assert (length (bs_disk b2) = length (bs_disk (ls_bio s))) as El2 by by rw (proj1 W2) length_run.
  assert (∀ j, (j < lh_len s)%nat → view b2 (log_blk s j) = view (ls_bio s) (lh_blk s j)) as V2'.
  { intros j Hj. rw V2; [rw /log_blk; lia|]. rewrite -> decide_False by (rw /log_blk /=; lia). by apply V1. }
  (* install_trans *)
  destruct (install_loop_ok (lh_len s) (set_bio b2 s) (lh_set s) 0) as (b3 & E3 & C3 & W3 & M3 & V3 & V3'); try done.
  { by apply log_geom_upd. }
  { destruct L as [L1 L2 L3 L4]. split; try done. intros j Hj. rw /in_disk /= El2. by apply L2. }
  { intros j Hj. left. apply lh_set_elem. exists j. split; [lia|done]. }
  assert (length (bs_disk b3) = length (bs_disk (ls_bio s))) as El3 by by rw (proj1 W3) length_run.
  rw -/(lh_set s) difference_diag_L in C3.
  assert (writes b2 b3 (home_writes s)) as W3'.
  { rw /home_writes. erewrite list_fmap_ext; [exact W3|]. intros i j [-> Hj]%lookup_seq. cbn beta. f_equal.
    symmetry. by apply V2'. }
  assert (view b3 (ls_start s) = head_block s) as Vh.
  { rw V3 //; [|rw V2 //; by rewrite -> decide_True]. intros H. apply Hst. by rw /lh_set elem_of_list_to_set. }
  (* write_head *)
  destruct (write_head_ok (set_lh 0 (ls_block s) (set_bio b3 s)) ∅) as (b4 & E4 & C4 & W4 & M4 & V4); try done.
  { split; [apply G|apply G| |]; simpl; rw El3; apply G. }
  { simpl. lia. }
  { pose proof size_empty_lt_nbuf. lia. }
  rw /head_block /= Vh in W4 V4.
  exists b4. split; [|split; [done|split; [|split]]].
  - rw /commit. mget. rewrite -> (proj2 (Z.ltb_lt _ _) Hn). cbn [when]. mgo E1. mgo E2.
    rw /install_trans bind_assoc. mget. mgo E3. rw /set_n. mget. exact E4.
  - apply (writes_app _ b1); [done|]. apply (writes_app _ b2); [done|]. by apply (writes_app _ b3).
  - by rw M4 /= M3 /= M2 /= M1.
  - intros i Hi Hni. rw V4 //. rewrite -> decide_False by lia.
    destruct (decide (i ∈ lh_set s)) as [(j & Hj & ->)%lh_set_elem|Hin].
    + change (view b3 (lh_blk (set_bio b2 s) j) = view (ls_bio s) (lh_blk s j)).
      rw V3' //=; [lia|]. by apply V2'.
    + rw V3 //. { intros H. apply Hin. by rw /lh_set elem_of_list_to_set. }
      rw V2 //=. rewrite -> decide_False by lia. apply V1'; [done|lia].
Qed.

(** ** Recovery *)

(** The header on disk [d] of a log at [start] with [size] blocks lists blocks of the
    disk outside the log, without repetition. *)
Record head_ok (start size : Z) (d : list block) : Prop := {
  ho_n : 0 ≤ head_n (dblk d start) < size;
  ho_disk j : (j < Z.to_nat (head_n (dblk d start)))%nat → in_disk d (head_blk (dblk d start) j);
  ho_home j : (j < Z.to_nat (head_n (dblk d start)))%nat →
    ¬ (start ≤ head_blk (dblk d start) j < start + size);
  ho_inj i j : (i < Z.to_nat (head_n (dblk d start)))%nat → (j < Z.to_nat (head_n (dblk d start)))%nat →
    head_blk (dblk d start) i = head_blk (dblk d start) j → i = j;
}.

Definition recover_writes (start : Z) (d : list block) : list (Z * block) :=
  ((λ j, (head_blk (dblk d start) j, dblk d (start + 1 + Z.of_nat j))) <$>
     seq 0 (Z.to_nat (head_n (dblk d start)))) ++
  [(start, put32 (dblk d start) 0 0)].

Lemma recover_ok s :
  log_geom s → crep (ls_bio s) ∅ → length (ls_block s) = Z.to_nat LOGSIZE → 0 < ls_size s ≤ LOGSIZE →
  head_ok (ls_start s) (ls_size s) (bs_disk (ls_bio s)) →
  ∃ b' bl, recover_from_log s = Ok (tt, set_lh 0 bl (set_bio b' s)) ∧ crep b' ∅ ∧
    writes (ls_bio s) b' (recover_writes (ls_start s) (bs_disk (ls_bio s))) ∧
    bs_me b' = bs_me (ls_bio s) ∧ length bl = length (ls_block s).
Proof.
  intros G C Hlen Hsz [N1 N2 N3 N4]. pose proof (lg_start _ G) as Hst0. pose proof size_empty_lt_nbuf as Hnb.
  set (h := dblk (bs_disk (ls_bio s)) (ls_start s)) in *.
  assert (∀ i, 0 ≤ i → view (ls_bio s) i = dblk (bs_disk (ls_bio s)) i) as Hv.
  { intros i Hi. apply (cr_sync _ _ C); [done|apply not_elem_of_empty]. }
  destruct (read_head_ok s ∅ G C) as (b1 & bl & E1 & C1 & W1 & M1 & V1 & Lbl & Hbl); [lia|lia| |].
  { rw Hv // -/h Hlen. lia. }
  rw Hv // -/h in E1 Hbl.
  assert (bs_disk b1 = bs_disk (ls_bio s)) as D1 by apply W1.
  set (s1 := set_lh (head_n h) bl (set_bio b1 s)) in *.
  assert (∀ j, (j < Z.to_nat (head_n h))%nat → lh_blk s1 j = head_blk h j) as Hj by apply Hbl.
  assert (log_geom s1) as G1 by (split; [apply G|apply G| |]; simpl; rw D1; apply G).
  destruct (install_loop_ok (Z.to_nat (head_n h)) s1 ∅ 0) as (b2 & E2 & C2 & W2 & M2 & V2 & _); [done|done| | |lia|].
  { split.
    - simpl. lia.
    - intros j Hj'. rw Hj /in_disk /=; [lia|]. rw D1. apply N2. lia.
    - intros j Hj'. rw Hj; [lia|]. apply N3. lia.
    - intros i j Hi Hj'. rw !Hj; [lia..|]. apply N4; lia. }
  { intros j _. right. lia. }
  rewrite -> (difference_disjoint_L ∅) in C2 by set_solver.
  assert (length (bs_disk b2) = length (bs_disk (ls_bio s))) as El2 by by rw (proj1 W2) length_run /s1 /= D1.
  assert (view b2 (ls_start s) = h) as Vh.
  { rw V2 //=; [|by rw V1 Hv]. intros (j & Ej & Hj'%elem_of_seq)%list_elem_of_fmap.
    rw Hj in Ej; [lia|]. apply (N3 j); lia. }
  destruct (write_head_ok (set_lh 0 bl (set_bio b2 s)) ∅) as (b3 & E3 & C3 & W3 & M3 & V3); [|done| | |lia|].
  { split; [apply G|apply G| |]; simpl; rw El2; apply G. }
  { simpl. lia. }
  { apply not_elem_of_empty. }
  rw /head_block /= Vh in W3.
  exists b3, bl. split; [|split; [done|split; [|split; [|done]]]].
  - rw /recover_from_log. mgo E1. rw /install_trans bind_assoc. mget. cbn [s1 ls_n set_lh set_bio].
    mgo E2. rw /set_n. mget. exact E3.
  - apply (writes_app _ b1 _ [] _ W1). apply (writes_app _ b2); [|done].
    erewrite list_fmap_ext; [exact W2|]. intros i j [-> Hj']%lookup_seq. cbn beta.
    rw Hj // /s1 /= V1 Hv //; rw /log_blk /=. lia.
  - by rw M3 /= M2 /= M1.
Qed.

(** What recovery leaves outside the log. *)
Lemma recover_disk start size d k :
  0 ≤ start → start + size ≤ Z.of_nat (length d) → 0 < size → head_ok start size d →
  0 ≤ k → ¬ (start ≤ k < start + size) →
  let d' := run (recover_writes start d) d in
  ((∀ j, (j < Z.to_nat (head_n (dblk d start)))%nat → k ≠ head_blk (dblk d start) j) → dblk d' k = dblk d k) ∧
  ∀ j, (j < Z.to_nat (head_n (dblk d start)))%nat → k = head_blk (dblk d start) j →
    dblk d' k = dblk d (start + 1 + Z.of_nat j).
Proof.
  intros Hst Hlen Hsz [N1 N2 N3 N4] Hk Hkl d'. set (h := dblk d start) in *.
  set (ws := (λ j, (head_blk h j, dblk d (start + 1 + Z.of_nat j))) <$> seq 0 (Z.to_nat (head_n h))).
  assert (Forall (λ w, in_disk d w.1) ws) as Wd.
  { apply Forall_fmap, Forall_seq. intros j Hj. apply N2. lia. }
  assert (dblk d' k = dblk (run ws d) k) as ->.
  { rw /d' /recover_writes -/ws run_app /= dblk_insert //; [rw length_run; lia|]. rewrite -> decide_False; [done|lia]. }
  split.
  - intros Hn. apply dblk_run_notin; [done|done|]. rw /ws -list_fmap_compose.
    intros (j & E & Hj%elem_of_seq)%list_elem_of_fmap. apply (Hn j); [lia|done].
  - intros j Hj ->. apply dblk_run_in; [done| |].
    + rw /ws -list_fmap_compose. apply NoDup_fmap_2_strong; [|apply NoDup_seq].
      intros x y Hx%elem_of_seq Hy%elem_of_seq. apply N4; lia.
    + apply list_elem_of_fmap. exists j. split; [done|]. apply elem_of_seq. lia.
Qed.
Lemma recover_head start size d :
  0 ≤ start → start + size ≤ Z.of_nat (length d) → 0 < size → head_ok start size d →
  (4 ≤ length (dblk d start))%nat →
  let d' := run (recover_writes start d) d in
  head_n (dblk d' start) = 0 ∧ length (dblk d' start) = length (dblk d start).
Proof.
  intros Hst Hlen Hsz N Hl d'.
  assert (dblk d' start = put32 (dblk d start) 0 0) as ->.
  { rw /d' /recover_writes run_app /= dblk_insert //; [rw length_run; lia|]. by rewrite -> decide_True. }
  rw /head_n get32_put32_eq //. by rw length_put32.
Qed.

(** ** The disks a crash can leave *)

Definition home (s : lstate) (k : Z) : Prop := 0 ≤ k ∧ ¬ (ls_start s ≤ k < ls_start s + ls_size s).

(** Nothing committed; committed and not yet installed everywhere; installed. *)
Definition crash_old (s : lstate) (d : list block) : Prop :=
  head_n (dblk d (ls_start s)) = 0 ∧ ∀ k, home s k → dblk d k = dblk (bs_disk (ls_bio s)) k.
Definition crash_mid (s : lstate) (d : list block) : Prop :=
  head_n (dblk d (ls_start s)) = ls_n s ∧
  (∀ j, (j < lh_len s)%nat → head_blk (dblk d (ls_start s)) j = lh_blk s j ∧
    dblk d (log_blk s j) = view (ls_bio s) (lh_blk s j)) ∧
  ∀ k, home s k → k ∉ lh_set s → dblk d k = dblk (bs_disk (ls_bio s)) k.
Definition crash_new (s : lstate) (d : list block) : Prop :=
  head_n (dblk d (ls_start s)) = 0 ∧ ∀ k, home s k → dblk d k = view (ls_bio s) k.

Lemma home_writes_disk s :
  log_inv s → Forall (λ w, in_disk (bs_disk (ls_bio s)) w.1) (home_writes s) ∧ NoDup (home_writes s).*1 ∧
  ∀ i, i ∈ (home_writes s).*1 ↔ i ∈ lh_set s.
Proof.
  intros [G _ Hsz Hn L _ _ _]. rw /home_writes /lh_len -list_fmap_compose.
  split; [|split].
  - apply Forall_fmap, Forall_seq. intros j Hj. apply L. rw /lh_len. lia.
  - apply NoDup_fmap_2_strong; [|apply NoDup_seq]. intros x y Hx%elem_of_seq Hy%elem_of_seq. apply L; rw /lh_len; lia.
  - intros i. by rw /lh_set elem_of_list_to_set.
Qed.

Lemma head_block_ok s :
  log_inv s → head_n (head_block s) = ls_n s ∧ length (head_block s) = Z.to_nat BSIZE ∧
  ∀ j, (j < lh_len s)%nat → head_blk (head_block s) j = lh_blk s j.
Proof.
  intros I. pose proof I as [G Hlen Hsz Hn L C Hh Hhl].
  assert (view (ls_bio s) (ls_start s) = dblk (bs_disk (ls_bio s)) (ls_start s)) as Ev.
  { apply (cr_sync _ _ C); [apply G|]. intros ?%lh_set_log; [lia|done]. }
  rw /LOGSIZE /MAXOPBLOCKS in Hsz. rw /LOGSIZE /MAXOPBLOCKS in Hlen. rw /BSIZE in Hhl |- *.
  rw /head_block Ev. set (h := dblk _ _) in *.
  assert (length (take (Z.to_nat (ls_n s)) (ls_block s)) = lh_len s) as El by (rw length_take /lh_len; lia).
  assert (lh_off (0 + lh_len s) ≤ length (put32 h 0 (ls_n s)))%nat as Hoff.
  { rw length_put32 Hhl /lh_off /lh_len. lia. }
  split; [|split].
  - rw /head_n get32_put_blocks_0; [by rw El|]. rw get32_put32_eq; [lia|]. rw s32_u32. apply s32_small. lia.
  - by rw length_put_blocks length_put32.
  - intros j Hj. rw /head_blk get32_put_blocks; [by rw El|]. rw El. rewrite -> decide_True by lia.
    rw s32_u32 Nat.sub_0_r. rw lookup_total_take_lt //. rw -/(lh_blk s j).
    destruct (lo_disk _ _ _ L j) as [D1 D2]; [lia|]. pose proof (lg_disk _ G). apply s32_small. lia.
Qed.

Lemma in_disk_run ws d k : in_disk (run ws d) k ↔ in_disk d k.
Proof. by rw /in_disk length_run. Qed.
Lemma Forall_in_disk_take d d' (ws : list (Z * block)) i :
  Forall (λ w, in_disk d w.1) ws → length d' = length d → Forall (λ w, in_disk d' w.1) (take i ws).
Proof. intros H E. apply Forall_take. eapply Forall_impl; [exact H|]. intros w. by rw /in_disk E. Qed.
Lemma elem_of_take_fst (ws : list (Z * block)) i k : k ∈ (take i ws).*1 → k ∈ ws.*1.
Proof. rw fmap_take. intros (j & Hj & _)%elem_of_take. by eapply list_elem_of_lookup_2. Qed.

(** While the log is being written. *)
Lemma crash_log s i :
  log_inv s → let d := run (take i (log_writes s)) (bs_disk (ls_bio s)) in
  ∀ k, 0 ≤ k → ¬ (ls_start s < k < ls_start s + ls_size s) → dblk d k = dblk (bs_disk (ls_bio s)) k.
Proof.
  intros I d k Hk Hkl. destruct (log_writes_disk s I) as (Wd & _ & Wr).
  apply dblk_run_notin; [by apply (Forall_in_disk_take _ _ _ _ Wd)|done|]. by intros ?%elem_of_take_fst%Wr.
Qed.

(** The disk when the header has been written. *)
Definition logged_disk (s : lstate) : list block :=
  <[Z.to_nat (ls_start s) := head_block s]> (run (log_writes s) (bs_disk (ls_bio s))).
Lemma logged_disk_ok s :
  log_inv s → let d := logged_disk s in
  length d = length (bs_disk (ls_bio s)) ∧ dblk d (ls_start s) = head_block s ∧
  (∀ j, (j < lh_len s)%nat → dblk d (log_blk s j) = view (ls_bio s) (lh_blk s j)) ∧
  ∀ k, home s k → dblk d k = dblk (bs_disk (ls_bio s)) k.
Proof.
  intros I d. pose proof (lg_start _ (li_geom _ I)) as Hst. pose proof (lg_end _ (li_geom _ I)) as He.
  pose proof (li_n _ I) as Hn. destruct (log_writes_disk s I) as (Wd & Wn & Wr).
  assert (length (run (log_writes s) (bs_disk (ls_bio s))) = length (bs_disk (ls_bio s))) as El by apply length_run.
  rw /d /logged_disk. split; [by rw length_insert|].
  assert (0 ≤ ls_start s < Z.of_nat (length (run (log_writes s) (bs_disk (ls_bio s))))) as Hin by lia.
  split; [rw dblk_insert //; by rewrite -> decide_True|]. split.
  - intros j Hj. rw /lh_len in Hj. rw dblk_insert //; [rw /log_blk; lia|].
    rewrite -> decide_False by (rw /log_blk; lia). apply dblk_run_in; [done|done|].
    apply list_elem_of_fmap. exists j. split; [done|]. apply elem_of_seq. rw /lh_len. lia.
  - intros k [Hk Hkl]. rw dblk_insert //. rewrite -> decide_False by lia.
    pose proof (crash_log s (length (log_writes s)) I k Hk) as H. rw firstn_all in H. apply H. lia.
Qed.

(** While the blocks are being installed. *)
Lemma crash_home s i :
  log_inv s → let d := run (take i (home_writes s)) (logged_disk s) in
  length d = length (bs_disk (ls_bio s)) ∧ dblk d (ls_start s) = head_block s ∧ crash_mid s d.
Proof.
  intros I d. destruct (logged_disk_ok s I) as (Hl & Hh & Hlog & Hho). destruct (home_writes_disk s I) as (Wd & Wn & Wi).
  pose proof (lg_start _ (li_geom _ I)) as Hst. pose proof (li_n _ I) as Hn.
  assert (∀ k, 0 ≤ k → k ∉ lh_set s → dblk d k = dblk (logged_disk s) k) as Hout.
  { intros k Hk Hk'. apply dblk_run_notin; [by apply (Forall_in_disk_take _ _ _ _ Wd)|done|].
    by intros ?%elem_of_take_fst%Wi. }
  assert (∀ k, ls_start s ≤ k < ls_start s + ls_size s → k ∉ lh_set s) as Hns.
  { intros k Hk ?%lh_set_log; done. }
  assert (dblk d (ls_start s) = head_block s) as Hh' by (rw Hout //; apply Hns; lia).
  split; [by rw length_run|]. split; [done|]. destruct (head_block_ok s I) as (B1 & _ & B3).
  split; [by rw Hh'|]. split.
  - intros j Hj. rw Hh'. split; [by apply B3|]. rw Hout; [rw /log_blk; lia| |by apply Hlog].
    apply Hns. rw /lh_len in Hj. rw /log_blk. lia.
  - intros k Hk Hk'. rw Hout //; [apply Hk|]. by apply Hho.
Qed.

(** The disk when everything is installed, and after the log is cleared. *)
Lemma crash_done s :
  log_inv s → let d := run (home_writes s) (logged_disk s) in
  let d' := <[Z.to_nat (ls_start s) := put32 (head_block s) 0 0]> d in
  length d' = length (bs_disk (ls_bio s)) ∧ length (dblk d' (ls_start s)) = Z.to_nat BSIZE ∧ crash_new s d'.
Proof.
  intros I d d'. pose proof (crash_home s (length (home_writes s)) I) as (Hl & Hh & _ & _ & Hmid).
  rw firstn_all -/d in Hl Hh Hmid. destruct (home_writes_disk s I) as (Wd & Wn & Wi).
  destruct (head_block_ok s I) as (B1 & B2 & B3). pose proof (lg_start _ (li_geom _ I)) as Hst.
  pose proof (lg_end _ (li_geom _ I)) as He. pose proof (li_n _ I) as Hn.
  assert (0 ≤ ls_start s < Z.of_nat (length d)) as Hin by lia.
  assert (dblk d' (ls_start s) = put32 (head_block s) 0 0) as Hh'.
  { rw dblk_insert //. by rewrite -> decide_True. }
  rw /d' length_insert. split; [done|]. rw -/d' Hh' length_put32. split; [done|].
  split; [rw Hh' /head_n get32_put32_eq //; rw B2 /BSIZE; lia|].
  intros k [Hk Hkl]. rw dblk_insert //. rewrite -> decide_False by lia.
  destruct (decide (k ∈ lh_set s)) as [Hin'|Hin'].
  - pose proof Hin' as (j & Hj & ->)%lh_set_elem. apply dblk_run_in; [|done|].
    + rw -(firstn_all (home_writes s)). apply (Forall_in_disk_take _ _ _ _ Wd).
      destruct (logged_disk_ok s I) as (-> & _). done.
    + apply list_elem_of_fmap. exists j. split; [done|]. apply elem_of_seq. lia.
  - rw Hmid //. symmetry. by apply (cr_sync _ _ (li_rep _ I)).
Qed.

Lemma crash_cases s i :
  log_inv s → let d := run (take i (commit_writes s)) (bs_disk (ls_bio s)) in
  length d = length (bs_disk (ls_bio s)) ∧ length (dblk d (ls_start s)) = Z.to_nat BSIZE ∧
  (crash_old s d ∨ crash_mid s d ∨ crash_new s d).
Proof.
  intros I d. split; [by rw /d length_run|]. pose proof (lg_start _ (li_geom _ I)) as Hst.
  rw /d /commit_writes. destruct (decide (i ≤ length (log_writes s))%nat) as [Hi|Hi].
  { rw take_app_le //. pose proof (crash_log s i I) as Hc. rw Hc //; [lia|]. split; [apply (li_hlen _ I)|]. left.
    split; [rw Hc //; [lia|apply (li_head _ I)]|]. intros k [Hk Hkl]. apply Hc; [done|lia]. }
  rw take_app_ge; [lia|]. rw run_app. destruct (i - length (log_writes s))%nat as [|m] eqn:Em; [lia|].
  simpl. rw -/(logged_disk s).
  destruct (decide (m ≤ length (home_writes s))%nat) as [Hm|Hm].
  { rw take_app_le //. destruct (crash_home s m I) as (Hl & Hh & Hmid). rw Hh.
    split; [apply (head_block_ok s I)|]. right; left. done. }
  rw take_app_ge; [lia|]. rw run_app. destruct (m - length (home_writes s))%nat as [|m'] eqn:Em'; [lia|].
  cbn [take run]. rw take_nil /=. destruct (crash_done s I) as (_ & H1 & H2). split; [done|]. by right; right.
Qed.

(** A disk in any of the three conditions can be recovered from. *)
Lemma crash_head_ok s d :
  log_inv s → length d = length (bs_disk (ls_bio s)) → crash_old s d ∨ crash_mid s d ∨ crash_new s d →
  head_ok (ls_start s) (ls_size s) d.
Proof.
  intros I El Hc. pose proof (li_n _ I) as Hn.
  destruct Hc as [[H0 _]|[(H0 & Hb & _)|[H0 _]]]; split; rw H0; try lia.
  - intros j Hj. rw (proj1 (Hb j Hj)) /in_disk El. apply (li_ok _ I). rw /lh_len. lia.
  - intros j Hj. rw (proj1 (Hb j Hj)). apply (li_ok _ I). rw /lh_len. lia.
  - intros i j Hi Hj. rw (proj1 (Hb i Hi)) (proj1 (Hb j Hj)). apply (li_ok _ I); rw /lh_len; lia.
Qed.
Lemma crash_recover s d :
  log_inv s → length d = length (bs_disk (ls_bio s)) → crash_old s d ∨ crash_mid s d ∨ crash_new s d →
  let d' := run (recover_writes (ls_start s) d) d in
  (∀ k, home s k → dblk d' k = dblk (bs_disk (ls_bio s)) k) ∨
  (∀ k, home s k → dblk d' k = view (ls_bio s) k).
Proof.
  intros I El Hc d'. pose proof (crash_head_ok s d I El Hc) as HO. pose proof (lg_start _ (li_geom _ I)) as Hst.
  pose proof (lg_end _ (li_geom _ I)) as He. pose proof (li_size _ I) as Hsz.
  assert (ls_start s + ls_size s ≤ Z.of_nat (length d)) as He' by lia.
  destruct Hc as [[H0 Hk]|[(H0 & Hb & Hk)|[H0 Hk]]].
  - left. intros k [Hk0 Hkl]. destruct (recover_disk _ _ _ k Hst He' (proj1 Hsz) HO Hk0 Hkl) as [Hout _].
    rw /d' Hout; [rw H0; lia|]. by apply Hk.
  - right. intros k [Hk0 Hkl]. destruct (recover_disk _ _ _ k Hst He' (proj1 Hsz) HO Hk0 Hkl) as [Hout Hin].
    rw H0 in Hout Hin. destruct (decide (k ∈ lh_set s)) as [Hin'|Hin'].
    + apply lh_set_elem in Hin' as (j & Hj & ->). destruct (Hb j Hj) as [Hb1 Hb2].
      by rw /d' (Hin j) // Hb1.
    + rw /d' Hout; [|rw Hk //; symmetry; by apply (cr_sync _ _ (li_rep _ I))].
      intros j Hj ->. apply Hin'. rw (proj1 (Hb j Hj)). apply lh_set_elem. by exists j.
  - right. intros k [Hk0 Hkl]. destruct (recover_disk _ _ _ k Hst He' (proj1 Hsz) HO Hk0 Hkl) as [Hout _].
    rw /d' Hout; [rw H0; lia|]. by apply Hk.
Qed.

(** ** Booting *)

Definition boot_log (z : block) (d : list block) (me : Z) : lstate :=
  mkLs (zero_cache z d me) 0 0 0 false 0 0 (replicate (Z.to_nat LOGSIZE) 0) 0.

(** The super block of the disk puts the log at [start], with [size] blocks. *)
Definition sb_log (d : list block) (start size : Z) : Prop :=
  sb_logstart (decode_sb (dblk d 1)) = start ∧ sb_nlog (decode_sb (dblk d 1)) = size.

#[local] Opaque binit.

Lemma boot_binit z d me b :
  binit (zero_cache z d me) = Ok (tt, b) →
  bio binit (boot_log z d me) = Ok (tt, set_bio b (boot_log z d me)).
Proof. intros E. rw /bio /lift. cbn [boot_log ls_bio]. by rw E. Qed.

Lemma initlog_run s d start size :
  crep (ls_bio s) ∅ → bs_disk (ls_bio s) = d → length (ls_block s) = Z.to_nat LOGSIZE →
  sb_log d start size → 0 ≤ start → 0 < size ≤ LOGSIZE → start + size ≤ Z.of_nat (length d) →
  1 < Z.of_nat (length d) < 2147483648 → head_ok start size d →
  ∃ b' bl, initlog 1 s = Ok (tt, set_lh 0 bl (set_bio b' (set_where start size 1 s))) ∧ crep b' ∅ ∧
    bs_disk b' = run (recover_writes start d) d ∧ length bl = Z.to_nat LOGSIZE.
Proof.
  intros C0 D0 Hbl [Hs1 Hs2] Hst Hsz He Hd HO. pose proof size_empty_lt_nbuf as Hnb.
  destruct (read_block_ok (ls_bio s) ∅ 1 C0) as (x & b1 & b2 & E1 & E2 & E3 & C2 & W2 & M2 & V2).
  { rw /in_disk D0. lia. }
  { lia. }
  assert (bs_disk b2 = d) as D2 by by rw (proj1 W2) /= D0.
  assert (view (ls_bio s) 1 = dblk d 1) as Vsb by by rw (cr_sync _ _ C0) // D0.
  set (s2 := set_where start size 1 (set_bio b2 s)).
  assert (log_geom s2) as G2 by (split; simpl; rw ?D2; lia).
  destruct (recover_ok s2) as (b' & bl & E4 & C' & W' & M' & Lbl); [done|done|done|done|by rw /= D2|].
  rw /= D2 in W'. exists b', bl. split; [|split; [done|split; [by rw (proj1 W') D2|by rw Lbl]]].
  rw /initlog. change (BSIZE <=? 4 + 4 * LOGSIZE) with false. cbn iota.
  assert (readsb 1 (ls_bio s) = Ok (decode_sb (dblk d 1), b2)) as E.
  { rw /readsb. mgo E1. mgo E2. mgo E3. by rw Vsb. }
  rw -{1}(set_bio_id s). bgo E. mget. rw Hs1 Hs2 (s32_small start); [lia|]. rw (s32_small size); [lia|]. exact E4.
Qed.

(** A log that has just been recovered. *)
Lemma recovered_inv s b' bl d start size :
  crep b' ∅ → bs_disk b' = run (recover_writes start d) d → length bl = Z.to_nat LOGSIZE →
  0 ≤ start → 0 < size ≤ LOGSIZE → start + size ≤ Z.of_nat (length d) → Z.of_nat (length d) < 2147483648 →
  head_ok start size d → length (dblk d start) = Z.to_nat BSIZE →
  log_inv (set_lh 0 bl (set_bio b' (set_where start size 1 s))).
Proof.
  intros C D' Lbl Hst Hsz He Hd HO Hlen.
  assert (length (bs_disk b') = length d) as El by by rw D' length_run.
  destruct (recover_head start size d) as [Hh Hl]; [done|done|lia|done|rw Hlen /BSIZE; lia|].
  split; cbn [ls_bio ls_block ls_size ls_n ls_start set_lh set_bio set_where]; rw ?D'; [|done|done|lia| | |done|by rw Hl].
  - split; cbn [ls_bio ls_dev ls_size ls_start set_lh set_bio set_where]; rw ?El; lia.
  - split; rw /lh_len /=; lia.
  - exact C.
Qed.

Lemma initlog_ok z d me start size :
  sb_log d start size → 0 ≤ start → 0 < size ≤ LOGSIZE → start + size ≤ Z.of_nat (length d) →
  1 < Z.of_nat (length d) < 2147483648 → head_ok start size d → length (dblk d start) = Z.to_nat BSIZE →
  ∃ s, (bio binit ;; initlog 1) (boot_log z d me) = Ok (tt, s) ∧ log_inv s ∧ ls_n s = 0 ∧
    ls_start s = start ∧ ls_size s = size ∧ ls_outstanding s = 0 ∧ ls_committing s = false ∧
    bs_disk (ls_bio s) = run (recover_writes start d) d.
Proof.
  intros Hsb Hst Hsz He Hd HO Hlen.
  destruct (binit_rep z d me) as (b0 & E0 & R0 & V0 & D0 & M0 & H0).
  assert (crep b0 ∅) as C0.
  { split; [by eexists|]. intros i _ _. by rw V0 D0. }
  destruct (initlog_run (set_bio b0 (boot_log z d me)) d start size) as (b' & bl & E & C' & D' & Lbl);
    [exact C0|exact D0|apply length_replicate|exact Hsb|exact Hst|exact Hsz|exact He|exact Hd|exact HO|].
  eexists. split; [rw (bind_Ok _ _ _ _ _ (boot_binit _ _ _ _ E0)); exact E|]. clear E E0.
  split; [apply (recovered_inv _ b' bl d); [done..|lia|done|done]|]. by do 5 (split; [done|]).
Qed.
