(* ===== verification/Tx.v ===== *)
(** * Transactions

    What log.c and bio.c together promise to fs.c inside [begin_op]/[end_op]: blocks
    are read into buffers, changed, logged and released, and the changes reach the
    disk together.  [BlockStore] is that interface; the log implements it. *)

From S2P Require Import Prelude Params Bytes Bio BioSpec Log LogSpec.

(** ** The interface *)

(** The operations fs.c uses on blocks.  [st_rep s held dirty logged v]: the buffers
    in [held] are locked for the given blocks; those of the blocks in [dirty] have been
    changed and not logged; the transaction has logged the blocks in [logged]; block
    [k] contains [v k].  [st_blocks] is the size of the disk and [st_home k] says that
    block [k] may be logged. *)
Class BlockStore (S : Type) := {
  st_bread : Z → Z → M S nat;
  st_data : nat → M S block;
  st_store : nat → block → M S unit;
  st_log_write : nat → M S unit;
  st_brelse : nat → M S unit;
  st_rep : S → gmap nat Z → gset Z → gset Z → (Z → block) → Prop;
  st_blocks : Z;
  st_home : Z → Prop;
  st_cap : nat;
  st_bread_ok s held dirty lg v n :
    st_rep s held dirty lg v → 0 ≤ n < st_blocks → (∀ i, held !! i ≠ Some n) →
    (size held + size lg < nbuf)%nat →
    ∃ x s', st_bread 1 n s = Ok (x, s') ∧ held !! x = None ∧ st_rep s' (<[x := n]> held) dirty lg v;
  st_data_ok s held dirty lg v x n :
    st_rep s held dirty lg v → held !! x = Some n → st_data x s = Ok (v n, s);
  st_store_ok s held dirty lg v x n d :
    st_rep s held dirty lg v → held !! x = Some n →
    ∃ s', st_store x d s = Ok (tt, s') ∧
      st_rep s' held ({[n]} ∪ dirty) lg (λ k, if decide (k = n) then d else v k);
  st_log_write_ok s held dirty lg v x n :
    st_rep s held dirty lg v → held !! x = Some n → st_home n → (size lg < st_cap)%nat →
    ∃ s', st_log_write x s = Ok (tt, s') ∧ st_rep s' held (dirty ∖ {[n]}) ({[n]} ∪ lg) v;
  st_brelse_ok s held dirty lg v x n :
    st_rep s held dirty lg v → held !! x = Some n → n ∉ dirty →
    ∃ s', st_brelse x s = Ok (tt, s') ∧ st_rep s' (delete x held) dirty lg v;
  st_home_blocks n : st_home n → 0 ≤ n < st_blocks;
}.

(** ** The log implements it *)

Record trep (s : lstate) (held : gmap nat Z) (dirty : gset Z) : Prop := {
  tr_geom : log_geom s;
  tr_len : length (ls_block s) = Z.to_nat LOGSIZE;
  tr_size : 0 < ls_size s ≤ LOGSIZE;
  tr_n : 0 ≤ ls_n s < ls_size s;
  tr_ok : lh_ok s 0 (lh_len s);
  tr_rep : ∃ l, brep (ls_bio s) l held (lh_set s);
  tr_sync i : 0 ≤ i → i ∉ lh_set s → i ∉ dirty → view (ls_bio s) i = dblk (bs_disk (ls_bio s)) i;
  tr_head : head_n (dblk (bs_disk (ls_bio s)) (ls_start s)) = 0;
  tr_hlen : length (dblk (bs_disk (ls_bio s)) (ls_start s)) = Z.to_nat BSIZE;
}.

Lemma trep_log_inv s : trep s ∅ ∅ ↔ log_inv s.
Proof.
  split.
  - intros [T1 T2 T3 T4 T5 T6 T7 T8 T9]. split; try done. split; [done|].
    intros i Hi Hn. by apply T7; [done|done|apply not_elem_of_empty].
  - intros [I1 I2 I3 I4 I5 [I6 I7] I8 I9]. split; try done. intros i Hi Hn _. by apply I7.
Qed.

(** Changing the cache only. *)
Lemma trep_bio s b held held' dirty dirty' :
  trep s held dirty → bs_disk b = bs_disk (ls_bio s) → (∃ l, brep b l held' (lh_set s)) →
  (∀ i, 0 ≤ i → i ∉ lh_set s → i ∉ dirty' → view b i = dblk (bs_disk b) i) →
  trep (set_bio b s) held' dirty'.
Proof.
  intros [T1 T2 T3 T4 T5 T6 T7 T8 T9] D R Hsync.
  split; cbn [ls_bio ls_block ls_size ls_n ls_start set_bio]; rw ?D; try done.
  - apply log_geom_upd; [done|by rw D].
  - destruct T5 as [L1 L2 L3 L4]. split; try done. intros j Hj. rw /in_disk /= D. by apply L2.
  - intros i Hi Hn Hd. rw Hsync // D //.
Qed.

Lemma tx_bread s held dirty n :
  trep s held dirty → in_disk (bs_disk (ls_bio s)) n → (∀ i, held !! i ≠ Some n) →
  (size held + size (lh_set s) < nbuf)%nat →
  ∃ x b, bio (bread (ls_dev s) n) s = Ok (x, set_bio b s) ∧ held !! x = None ∧
    trep (set_bio b s) (<[x := n]> held) dirty ∧ (∀ k, view b k = view (ls_bio s) k) ∧
    bs_disk b = bs_disk (ls_bio s).
Proof.
  intros T Hn Hh Hsz. destruct (tr_rep _ _ _ T) as (l & R).
  destruct (bread_rep (ls_bio s) l held (lh_set s) n R Hn Hh) as (x & b & E & P & Hx & R'); [by right|].
  exists x, b. split; [rw (lg_dev _ (tr_geom _ _ _ T)); rewrite <- (set_bio_id s) at 1; by apply bio_Ok|].
  split; [done|]. split; [|split; apply P]. apply (trep_bio s b held _ dirty); [done|apply P|by eexists|].
  intros i Hi Hni Hd. rw (br_view _ _ _ _ _ P) (br_disk _ _ _ _ _ P). by apply T.
Qed.

Lemma tx_data s held dirty x n :
  trep s held dirty → held !! x = Some n → bio (getb x b_data) s = Ok (view (ls_bio s) n, s).
Proof.
  intros T Hx. destruct (tr_rep _ _ _ T) as (l & R). rewrite <- (set_bio_id s) at 1 3. apply bio_Ok.
  by rw /getb /gets (brep_view _ _ _ _ _ _ R Hx).
Qed.

Lemma tx_store s held dirty x n d :
  trep s held dirty → held !! x = Some n →
  ∃ b, bio (updb x (set_data d)) s = Ok (tt, set_bio b s) ∧ trep (set_bio b s) held ({[n]} ∪ dirty) ∧
    (∀ k, view b k = if decide (k = n) then d else view (ls_bio s) k) ∧ bs_disk b = bs_disk (ls_bio s).
Proof.
  intros T Hx. destruct (tr_rep _ _ _ T) as (l & R).
  destruct (set_data_rep _ _ _ _ x n d R Hx) as (b & E & R' & V & D & M & H).
  exists b. split; [rewrite <- (set_bio_id s) at 1; by apply bio_Ok|]. split; [|done].
  apply (trep_bio s b held _ dirty); [done|done|by eexists|].
  intros i Hi Hni Hd. rw V D. rewrite -> decide_False by set_solver. apply T; [done|done|set_solver].
Qed.

Lemma tx_brelse s held dirty x n :
  trep s held dirty → held !! x = Some n → n ∉ dirty →
  ∃ b, bio (brelse x) s = Ok (tt, set_bio b s) ∧ trep (set_bio b s) (delete x held) dirty ∧
    (∀ k, view b k = view (ls_bio s) k) ∧ bs_disk b = bs_disk (ls_bio s).
Proof.
  intros T Hx Hd. destruct (tr_rep _ _ _ T) as (l & R).
  destruct (brelse_rep _ _ _ _ x n R Hx) as (b & l1 & l2 & El & E & R' & V & D & M & H).
  { destruct (decide (n ∈ lh_set s)); [by left|right]. apply T; [|done|done].
    destruct (rp_held _ _ _ _ R x n Hx) as (H1 & H2 & <- & _). by apply (bi_ok _ _ (rp_inv _ _ _ _ R) x). }
  exists b. split; [rewrite <- (set_bio_id s) at 1; by apply bio_Ok|]. split; [|done].
  apply (trep_bio s b held _ dirty); [done|done|by eexists|].
  intros i Hi Hni Hdi. rw V D. by apply T.
Qed.

(** The block is already listed, at the position [absorb] returns, or is not listed. *)
Lemma absorb_spec bl n k i :
  (∃ j, absorb bl n k i = j ∧ (i ≤ j < i + k)%nat ∧ u32 (bl !!! j) = n) ∨
  absorb bl n k i = (i + k)%nat ∧ ∀ j, (i ≤ j < i + k)%nat → u32 (bl !!! j) ≠ n.
Proof.
  revert i. induction k as [|k IH]; intros i; simpl.
  { right. split; [lia|]. intros j Hj. lia. }
  destruct (Z.eqb_spec (u32 (bl !!! i)) n) as [E|E]; [left; exists i; split; [done|]; split; [lia|done]|].
  destruct (IH (S i)) as [(j & E1 & E2 & E3)|[E1 E2]].
  - left. exists j. split; [done|]. split; [lia|done].
  - right. split; [lia|]. intros j Hj. destruct (decide (j = i)) as [->|]; [done|]. apply E2. lia.
Qed.

Lemma lh_set_size_eq s : lh_ok s 0 (lh_len s) → size (lh_set s) = lh_len s.
Proof.
  intros L. rw /lh_set size_list_to_set; [|by rw length_fmap length_seq].
  apply NoDup_fmap_2_strong; [|apply NoDup_seq]. intros i j Hi%elem_of_seq Hj%elem_of_seq. apply L; lia.
Qed.

(** Adding block [n] at the end of the list. *)
Lemma lh_append s n :
  let s' := set_lh (ls_n s + 1) (<[lh_len s := n]> (ls_block s)) s in
  length (ls_block s) = Z.to_nat LOGSIZE → ls_size s ≤ LOGSIZE → 0 ≤ ls_n s → ls_n s + 1 < ls_size s →
  lh_ok s 0 (lh_len s) → n ∉ lh_set s → in_disk (bs_disk (ls_bio s)) n →
  ¬ (ls_start s ≤ n < ls_start s + ls_size s) →
  lh_len s' = S (lh_len s) ∧ lh_set s' = {[n]} ∪ lh_set s ∧ lh_ok s' 0 (lh_len s').
Proof.
  intros s' Hlen Hsz Hn Hn' L Hni Hd Hh.
  assert (lh_len s' = S (lh_len s)) as El by (rw /lh_len /s' /=; lia).
  assert (lh_blk s' (lh_len s) = n) as En.
  { rw /lh_blk /s' /= list_lookup_total_insert_eq //. rw Hlen /lh_len. lia. }
  assert (∀ j, (j < lh_len s)%nat → lh_blk s' j = lh_blk s j) as Ej.
  { intros j Hj. rw /lh_blk /s' /= list_lookup_total_insert_ne //. lia. }
  assert (∀ j, (j < lh_len s)%nat → lh_blk s j ≠ n) as Hne.
  { intros j Hj E. apply Hni, lh_set_elem. by exists j. }
  split; [done|]. split.
  - apply leibniz_equiv, set_equiv. intros i. rw elem_of_union elem_of_singleton !lh_set_elem El. split.
    + intros (j & Hj & ->). destruct (decide (j = lh_len s)) as [->|]; [by left|right].
      exists j. split; [lia|]. apply Ej. lia.
    + intros [->|(j & Hj & ->)]; [exists (lh_len s); split; [lia|done]|]. exists j. split; [lia|]. by rw Ej.
  - rw El. destruct L as [L1 L2 L3 L4].
    assert (∀ j, (j < S (lh_len s))%nat → lh_blk s' j = if decide (j = lh_len s) then n else lh_blk s j) as Ea.
    { intros j Hj. case_decide; [subst j; done|]. apply Ej. lia. }
    split.
    + intros _. rw /s' /= /lh_len. lia.
    + intros j Hj. rw Ea; [lia|]. case_decide; [done|]. apply L2. lia.
    + intros j Hj. rw Ea; [lia|]. case_decide; [done|]. apply L3. lia.
    + intros i j Hi Hj. rw !Ea; [lia..|]. repeat case_decide; intros E; [congruence| | |].
      * by destruct (Hne j); [lia|].
      * by destruct (Hne i); [lia|].
      * apply L4; [lia|lia|done].
Qed.

(** What [log_write] does to [log.lh]. *)
Lemma lh_record s n :
  log_geom s → length (ls_block s) = Z.to_nat LOGSIZE → ls_size s ≤ LOGSIZE → 0 ≤ ls_n s →
  ls_n s + 1 < ls_size s → lh_ok s 0 (lh_len s) → in_disk (bs_disk (ls_bio s)) n →
  ¬ (ls_start s ≤ n < ls_start s + ls_size s) →
  ∃ m bl, let s1 := set_lh m bl s in let i := absorb (ls_block s) n (lh_len s) 0 in
    (set_lh_block i (s32 n) ;; when (Z.of_nat i =? ls_n s) (set_n (ls_n s + 1))) s = Ok (tt, s1) ∧
    0 ≤ m < ls_size s ∧ length bl = Z.to_nat LOGSIZE ∧ lh_set s1 = {[n]} ∪ lh_set s ∧ lh_ok s1 0 (lh_len s1).
Proof.
  intros G Hlen Hsz Hn Hn' L [Hd1 Hd2] Hh. pose proof (lg_disk _ G) as Hd.
  assert (s32 n = n) as -> by (apply s32_small; lia).
  destruct (absorb_spec (ls_block s) n (lh_len s) 0) as [(j & Ea & Hj & Ej)|[Ea Hni]]; cbn zeta; rw Ea.
  - assert (j < length (ls_block s))%nat as Hjl by (rw Hlen; rw /lh_len in Hj; lia).
    assert (lh_blk s j = n) as Ej'.
    { destruct (lo_disk _ _ _ L j Hj) as [J1 J2]. rw /lh_blk in J1 J2 |- *. rw -Ej u32_small //. lia. }
    exists (ls_n s), (ls_block s). rw /set_lh_block bind_assoc. mget. rewrite -> decide_True by done. mget.
    assert (<[j := n]> (ls_block s) = ls_block s) as ->.
    { apply list_insert_id. rw -Ej' /lh_blk. by apply list_lookup_lookup_total_lt. }
    rewrite -> (proj2 (Z.eqb_neq (Z.of_nat j) (ls_n s))) by (rw /lh_len in Hj; lia). cbn [when].
    assert (set_lh (ls_n s) (ls_block s) s = s) as -> by by destruct s.
    split; [done|]. split; [lia|]. split; [done|]. split; [|done].
    assert (n ∈ lh_set s); [apply lh_set_elem; exists j; split; [lia|done]|]. apply leibniz_equiv. set_solver.
  - assert (n ∉ lh_set s) as Hnl.
    { intros (j & Hj & Ej)%lh_set_elem. apply (Hni j); [lia|]. rw -/(lh_blk s j) -Ej. apply u32_small. lia. }
    destruct (lh_append s n) as (_ & A2 & A3); try done.
    exists (ls_n s + 1), (<[lh_len s := n]> (ls_block s)). rw /set_lh_block bind_assoc. mget.
    rewrite -> decide_True by (rw Hlen /= /lh_len; lia). mget.
    rewrite -> (proj2 (Z.eqb_eq _ _)) by (rw /lh_len; lia). cbn [when].
    split; [done|]. split; [lia|]. split; [by rw length_insert|done].
Qed.

Lemma tx_log_write s held dirty x n :
  trep s held dirty → held !! x = Some n → 1 ≤ ls_outstanding s → ls_n s < ls_size s - 1 →
  ¬ (ls_start s ≤ n < ls_start s + ls_size s) →
  ∃ m bl b, let s' := set_lh m bl (set_bio b s) in
    log_write x s = Ok (tt, s') ∧ trep s' held (dirty ∖ {[n]}) ∧ lh_set s' = {[n]} ∪ lh_set s ∧
    (∀ k, view b k = view (ls_bio s) k) ∧ bs_disk b = bs_disk (ls_bio s).
Proof.
  intros T Hx Ho Hn Hh. pose proof T as [T1 T2 T3 T4 T5 (l & R) T7 T8 T9].
  destruct (rp_held _ _ _ _ R x n Hx) as (X1 & X2 & X3 & X4 & X5 & X6).
  destruct (bi_ok _ _ (rp_inv _ _ _ _ R) x X1) as [_ Hr _ _ _]. specialize (Hr X2). rw X3 in Hr.
  destruct (set_dirty_rep _ _ _ _ x n R Hx) as (b & E & R' & V & D & M & H).
  destruct (lh_record s n) as (m & bl & E1 & Hm & Hbl & Hset & Hok); try done; [lia..|].
  exists m, bl, b. rw /log_write. split; [|split; [|done]].
  - mget. rewrite -> (proj2 (orb_false_iff _ _)) by (split; apply Z.leb_gt; lia). mget.
    rewrite -> (proj2 (Z.ltb_ge _ _)) by lia. mget.
    assert (bio (getb x b_blockno) s = Ok (n, s)) as E0.
    { rewrite <- (set_bio_id s) at 1 2. apply bio_Ok. by rw /getb /gets X3. }
    mgo E0. cbn zeta in E1 |- *. rw -/(lh_len s). rw -bind_assoc. mgo E1.
    exact (bio_Ok _ (set_lh m bl s) (ls_bio s) tt b E).
  - split; cbn [ls_bio ls_block ls_size ls_n ls_start set_lh set_bio]; rw ?D; try done.
    + by split; cbn [ls_bio ls_dev ls_size ls_start set_lh set_bio]; rw ?D; apply T1.
    + destruct Hok as [L1 L2 L3 L4]. split; try done. intros j Hj. rw /in_disk /= D. by apply L2.
    + exists l. change (lh_set (set_lh m bl (set_bio b s))) with (lh_set (set_lh m bl s)). by rw Hset.
    + intros i Hi Hni Hdi. change (lh_set (set_lh m bl (set_bio b s))) with (lh_set (set_lh m bl s)) in Hni.
      rw V. apply T7; [done|set_solver|set_solver].
Qed.

(** The log as a block store, for a disk of [blocks] blocks with the log's [size] blocks
    at [start]. *)
Record log_rep (blocks start size : Z) (s : lstate) (held : gmap nat Z) (dirty logged : gset Z)
    (v : Z → block) : Prop := {
  lr_rep : trep s held dirty;
  lr_set : lh_set s = logged;
  lr_view k : 0 ≤ k → view (ls_bio s) k = v k;
  lr_start : ls_start s = start;
  lr_size : ls_size s = size;
  lr_blocks : Z.of_nat (length (bs_disk (ls_bio s))) = blocks;
  lr_open : ls_outstanding s = 1;
  lr_quiet : ls_committing s = false;
}.

Lemma trep_held_range s held dirty x n :
  trep s held dirty → held !! x = Some n → in_disk (bs_disk (ls_bio s)) n.
Proof.
  intros T Hx. destruct (tr_rep _ _ _ T) as (l & R).
  destruct (rp_held _ _ _ _ R x n Hx) as (H1 & H2 & <- & _). by apply (bi_ok _ _ (rp_inv _ _ _ _ R) x).
Qed.

(** A change of the cache that keeps the disk. *)
Lemma log_rep_bio blocks start size s b held held' dirty dirty' lg v v' :
  log_rep blocks start size s held dirty lg v → trep (set_bio b s) held' dirty' →
  (∀ k, 0 ≤ k → view b k = v' k) → length (bs_disk b) = length (bs_disk (ls_bio s)) →
  log_rep blocks start size (set_bio b s) held' dirty' lg v'.
Proof. intros [] T V L. split; try done. by rw /= L. Qed.

#[export, refine] Instance log_store (blocks start size : Z) : BlockStore lstate := {|
  st_bread dev n := bio (bread dev n);
  st_data x := bio (getb x b_data);
  st_store x d := bio (updb x (set_data d));
  st_log_write := log_write;
  st_brelse x := bio (brelse x);
  st_rep := log_rep blocks start size;
  st_blocks := blocks;
  st_home n := 0 ≤ n < blocks ∧ ¬ (start ≤ n < start + size);
  st_cap := Z.to_nat (size - 1);
|}.
Proof.
  - intros s held dirty lg v n R Hn Hh Hsz. pose proof R as [T L V G1 G2 G3 G4 G5].
    destruct (tx_bread s held dirty n T) as (x & b & E & Hx & T' & V' & D); [by rw /in_disk G3|done|by rw L|].
    rw (lg_dev _ (tr_geom _ _ _ T)) in E. exists x, (set_bio b s). split; [done|]. split; [done|].
    apply (log_rep_bio _ _ _ s b _ _ _ _ lg v v R T'); [intros k Hk; by rw V' V|by rw D].
  - intros s held dirty lg v x n R Hx. pose proof R as [T L V G1 G2 G3 G4 G5].
    rw (tx_data s held dirty x n T Hx) V //. by apply (trep_held_range s held dirty x n T).
  - intros s held dirty lg v x n d R Hx. pose proof R as [T L V G1 G2 G3 G4 G5].
    destruct (tx_store s held dirty x n d T Hx) as (b & E & T' & V' & D).
    exists (set_bio b s). split; [done|]. apply (log_rep_bio _ _ _ s b _ _ _ _ lg v _ R T'); [|by rw D].
    intros k Hk. rw V' V //.
  - intros s held dirty lg v x n R Hx [Hr Hh] Hsz. pose proof R as [T L V G1 G2 G3 G4 G5].
    rw -L (lh_set_size_eq _ (tr_ok _ _ _ T)) /lh_len in Hsz.
    destruct (tx_log_write s held dirty x n T Hx) as (m & bl & b & E & T' & L' & V' & D);
      [by rw G4|rw G2; pose proof (tr_n _ _ _ T); lia|by rw G1 G2|].
    eexists. split; [done|]. split; try done; [by rw L' L|intros k Hk; by rw /= V' V|by rw /= D].
  - intros s held dirty lg v x n R Hx Hd. pose proof R as [T L V G1 G2 G3 G4 G5].
    destruct (tx_brelse s held dirty x n T Hx Hd) as (b & E & T' & V' & D).
    exists (set_bio b s). split; [done|]. apply (log_rep_bio _ _ _ s b _ _ _ _ lg v v R T'); [|by rw D].
    intros k Hk. by rw V' V.
  - by intros n [].
Defined.

(** ** Beginning and ending a transaction *)

Lemma commit_inv s b' bl :
  log_inv s → crep b' ∅ → writes (ls_bio s) b' (commit_writes s) → length bl = Z.to_nat LOGSIZE →
  log_inv (set_lh 0 bl (set_bio b' s)) ∧ length (bs_disk b') = length (bs_disk (ls_bio s)) ∧
  ∀ k, home s k → dblk (bs_disk b') k = view (ls_bio s) k.
Proof.
  intros I C [D _] Lbl. pose proof (crash_done s I) as (C1 & C2 & C3 & C4).
  assert (bs_disk b' = <[Z.to_nat (ls_start s) := put32 (head_block s) 0 0]> (run (home_writes s) (logged_disk s))) as D'.
  { by rw D /commit_writes run_app /= run_app. }
  rw -D' in C1 C2 C3 C4. split; [|by split]. destruct I as [I1 I2 I3 I4 I5 I6 I7 I8].
  split; cbn [ls_bio ls_block ls_size ls_n ls_start set_lh set_bio]; try done.
  - destruct I1. by split; cbn [ls_bio ls_dev ls_size ls_start set_lh set_bio]; rw ?C1.
  - lia.
  - split; rw /lh_len /=; lia.
Qed.

(** [commit] when there is nothing to write. *)
Lemma commit_empty s : ls_n s = 0 → commit s = Ok (tt, s).
Proof. intros E. rw /commit. mget. by rw E. Qed.

Lemma commit_any s :
  log_inv s → ∃ b', commit s = Ok (tt, set_lh 0 (ls_block s) (set_bio b' s)) ∧
    log_inv (set_lh 0 (ls_block s) (set_bio b' s)) ∧ length (bs_disk b') = length (bs_disk (ls_bio s)) ∧
    ∀ k, home s k → view b' k = view (ls_bio s) k ∧ dblk (bs_disk b') k = view (ls_bio s) k.
Proof.
  intros I. destruct (decide (ls_n s = 0)) as [E0|E0].
  - exists (ls_bio s). rw set_bio_id -E0. assert (set_lh (ls_n s) (ls_block s) s = s) as -> by by destruct s.
    split; [by apply commit_empty|]. split; [done|]. split; [done|]. intros k [Hk _]. split; [done|]. symmetry.
    apply (cr_sync _ _ (li_rep _ I)); [done|]. intros (j & Hj & _)%lh_set_elem. rw /lh_len E0 in Hj. lia.
  - pose proof (li_n _ I) as Hn.
    destruct (commit_ok s I) as (b' & E & C & W & M & V); [lia|]. exists b'. split; [done|].
    destruct (commit_inv s b' (ls_block s) I C W (li_len _ I)) as (I' & L' & D). split; [done|]. split; [done|].
    intros k Hk. split; [by apply V; apply Hk|by apply D].
Qed.

(** The end of the last operation puts every block the transaction logged on the disk;
    the end of another leaves the disk alone. *)
Lemma end_op_last s :
  trep s ∅ ∅ → ls_outstanding s = 1 → ls_committing s = false →
  ∃ s', end_op s = Ok (tt, s') ∧ log_inv s' ∧ ls_n s' = 0 ∧ ls_outstanding s' = 0 ∧
    ls_committing s' = false ∧
    (ls_start s' = ls_start s ∧ ls_size s' = ls_size s ∧ length (bs_disk (ls_bio s')) = length (bs_disk (ls_bio s))) ∧
    ∀ k, home s k → view (ls_bio s') k = view (ls_bio s) k ∧
      dblk (bs_disk (ls_bio s')) k = view (ls_bio s) k.
Proof.
  intros T Ho Hc. apply trep_log_inv in T. rw /end_op. mget. cbn [ls_committing set_outstanding]. rw Hc. mget.
  cbn [ls_outstanding set_outstanding]. rw Ho. change (1 - 1) with 0. change (0 =? 0) with true. cbn iota. mget.
  set (s1 := set_committing true (set_outstanding 0 s)).
  assert (log_inv s1) as I1.
  { destruct T as [I1 I2 I3 I4 I5 I6 I7 I8]. destruct I1, I5. by split. }
  destruct (commit_any s1 I1) as (b' & E & I' & L' & V). mgo E. mget.
  eexists. split; [done|]. split; [|by do 4 (split; [done|])].
  destruct I' as [J1 J2 J3 J4 J5 J6 J7 J8]. destruct J1, J5. by split.
Qed.
Lemma end_op_other s :
  1 < ls_outstanding s → ls_committing s = false →
  end_op s = Ok (tt, mkLs (ls_bio s) (ls_start s) (ls_size s) (ls_outstanding s - 1) false (ls_dev s) (ls_n s)
    (ls_block s) (S (ls_wakeups s))).
Proof.
  intros Ho Hc. rw /end_op. mget. cbn [ls_committing set_outstanding]. rw Hc. mget.
  cbn [ls_outstanding set_outstanding]. rewrite -> (proj2 (Z.eqb_neq _ _)) by lia. rw /wakeup_log /modify /=. by rw Hc.
Qed.
Lemma begin_op_ok s :
  ls_committing s = false → ls_n s + (ls_outstanding s + 1) * MAXOPBLOCKS ≤ LOGSIZE →
  begin_op s = Ok (tt, set_outstanding (ls_outstanding s + 1) s).
Proof.
  intros Hc Hn. rw /begin_op. mget. rw Hc. mget. by rewrite -> (proj2 (Z.ltb_ge _ _)) by lia.
Qed.

(** ** Transactions as an interface *)

(** [st_idle s v]: no transaction is open, and the disk holds [v]. *)
Class TxStore (S : Type) := {
  tx_blocks :: BlockStore S;
  st_begin_op : M S unit;
  st_end_op : M S unit;
  st_idle : S → (Z → block) → Prop;
  st_begin_ok s v : st_idle s v → ∃ s', st_begin_op s = Ok (tt, s') ∧ st_rep s' ∅ ∅ ∅ v;
  st_end_ok s lg v :
    st_rep s ∅ ∅ lg v →
    ∃ s' v', st_end_op s = Ok (tt, s') ∧ st_idle s' v' ∧ ∀ k, st_home k → v' k = v k;
}.

Record log_idle (blocks start size : Z) (s : lstate) (v : Z → block) : Prop := {
  id_inv : log_inv s;
  id_n : ls_n s = 0;
  id_out : ls_outstanding s = 0;
  id_quiet : ls_committing s = false;
  id_start : ls_start s = start;
  id_size : ls_size s = size;
  id_blocks : Z.of_nat (length (bs_disk (ls_bio s))) = blocks;
  id_disk k : 0 ≤ k → dblk (bs_disk (ls_bio s)) k = v k;
}.

Lemma idle_view blocks start size s v k : log_idle blocks start size s v → 0 ≤ k → view (ls_bio s) k = v k.
Proof.
  intros I Hk. rw -(id_disk _ _ _ _ _ I) //. apply (cr_sync _ _ (li_rep _ (id_inv _ _ _ _ _ I))); [done|].
  intros (j & Hj & _)%lh_set_elem. rw /lh_len (id_n _ _ _ _ _ I) in Hj. lia.
Qed.

#[export, refine] Instance log_txstore (blocks start size : Z) : TxStore lstate := {|
  tx_blocks := log_store blocks start size;
  st_begin_op := begin_op;
  st_end_op := end_op;
  st_idle := log_idle blocks start size;
|}.
Proof.
  - intros s v Id. pose proof Id as [I N O Q S1 S2 B D]. exists (set_outstanding 1 s). split.
    { rw begin_op_ok //; [by rw N O|]. by rw O. }
    assert (log_inv (set_outstanding 1 s)) as I1 by by destruct I as [I1 I2 I3 I4 I5 I6 I7 I8]; destruct I1, I5.
    split; try done; [by apply trep_log_inv|by rw /lh_set /lh_len /= N|]. intros k Hk. by apply (idle_view blocks start size s v k Id).
  - intros s lg v [T L V S1 S2 B O Q].
    destruct (end_op_last s T O Q) as (s' & E & I & N & O' & Q' & F & Hv).
    exists s', (dblk (bs_disk (ls_bio s'))). split; [done|]. destruct F as (F1 & F2 & F3).
    split; [split; try done; [by rw F1|by rw F2|by rw F3]|].
    intros k [Hk Hh]. destruct (Hv k) as [_ ->]; [rw /home S1 S2; lia|]. apply V. lia.
Defined.

(** ** Crash safety *)

(** C4. Whatever point of a commit a crash interrupts, booting from the disk it leaves
    recovers: every block outside the log has, all of them, the contents from before
    the transaction, or, all of them, the contents the transaction gave them; the log
    is empty again.  The commit itself returns, and leaves the transaction's contents
    on the disk and in the cache. *)
Theorem commit_crash_safe s z me :
  log_inv s → 0 < ls_n s → sb_log (bs_disk (ls_bio s)) (ls_start s) (ls_size s) →
  home s 1 → 1 ∉ lh_set s →
  ∃ s' h, commit s = Ok (tt, s') ∧ log_inv s' ∧ bs_hist (ls_bio s') = h ++ bs_hist (ls_bio s) ∧
    (∀ k, home s k → view (ls_bio s') k = view (ls_bio s) k ∧
       dblk (bs_disk (ls_bio s')) k = view (ls_bio s) k) ∧
    ∀ d, d ∈ bs_disk (ls_bio s') :: h →
      ∃ s2, (bio binit ;; initlog 1) (boot_log z d me) = Ok (tt, s2) ∧ log_inv s2 ∧ ls_n s2 = 0 ∧
        ((∀ k, home s k → dblk (bs_disk (ls_bio s2)) k = dblk (bs_disk (ls_bio s)) k) ∨
         (∀ k, home s k → dblk (bs_disk (ls_bio s2)) k = view (ls_bio s) k)).
Proof.
  intros I Hn Hsb H1 H1s. destruct (commit_ok s I Hn) as (b' & E & C & W & M & V).
  destruct (commit_inv s b' (ls_block s) I C W (li_len _ I)) as (I' & _ & D). pose proof W as [W1 W2].
  exists (set_lh 0 (ls_block s) (set_bio b' s)), (trail (commit_writes s) (bs_disk (ls_bio s))).
  do 3 (split; [done|]). split; [intros k Hk; split; [apply V; apply Hk|by apply D]|].
  intros d Hd.
  assert (∃ i, d = run (take i (commit_writes s)) (bs_disk (ls_bio s))) as (i & ->).
  { apply elem_of_cons in Hd as [->|(i & _ & ->)%elem_of_trail]; [|by exists i].
    exists (length (commit_writes s)). by rw firstn_all. }
  clear Hd. set (d := run _ _). destruct (crash_cases s i I) as (El & Eh & Hc).
  assert (sb_log d (ls_start s) (ls_size s)) as Hsb'.
  { assert (dblk d 1 = dblk (bs_disk (ls_bio s)) 1) as E1; [|by rw /sb_log E1].
    destruct Hc as [[_ Hk]|[(_ & _ & Hk)|[_ Hk]]]; [by apply Hk|by apply Hk|].
    rw Hk //. by apply (cr_sync _ _ (li_rep _ I)). }
  pose proof I as [G _ Hsz Hnn _ _ _ _]. destruct G as [G1 G2 G3 G4]. destruct H1 as [_ H1].
  destruct (initlog_ok z d me (ls_start s) (ls_size s)) as (s2 & E2 & I2 & N2 & _ & _ & _ & _ & D2);
    [done|done|done|by rw El|rw El; lia|by apply (crash_head_ok s)|done|].
  exists s2. do 3 (split; [done|]). rw D2. by apply crash_recover.
Qed.

(** An empty disk of 40 blocks with its log in blocks 2 to 31. *)
Definition zblock : block := replicate (Z.to_nat BSIZE) 0.
Definition example_sb : block := put32 (put32 zblock 16 2) 12 30.
Definition example_log_disk : list block := <[1%nat := example_sb]> (replicate 40 zblock).

Lemma example_boot :
  ∃ s, log_inv s ∧ ls_n s = 0 ∧ ls_start s = 2 ∧ ls_size s = 30 ∧ ls_outstanding s = 0 ∧
    ls_committing s = false ∧ bs_disk (ls_bio s) = example_log_disk.
Proof.
  destruct (initlog_ok [] example_log_disk 1 2 30) as (s & _ & I & N & S1 & S2 & O & Cm & D).
  - by vm_compute.
  - lia.
  - by vm_compute.
  - by vm_compute.
  - by vm_compute.
  - assert (head_n (dblk example_log_disk 2) = 0) as E by by vm_compute.
    split; rw E; lia.
  - by vm_compute.
  - exists s. do 6 (split; [done|]). rw D. by vm_compute.
Qed.

(** A transaction that has logged block 35 with contents [d]. *)
Lemma example_tx d :
  ∃ s, log_inv s ∧ ls_n s = 1 ∧ lh_set s = {[35]} ∧ ls_start s = 2 ∧ ls_size s = 30 ∧
    ls_outstanding s = 1 ∧ ls_committing s = false ∧
    bs_disk (ls_bio s) = example_log_disk ∧ view (ls_bio s) 35 = d.
Proof.
  destruct example_boot as (s0 & I & N & S1 & S2 & O & Cm & D).
  set (s1 := set_outstanding 1 s0).
  assert (trep s1 ∅ ∅) as T1.
  { apply trep_log_inv. destruct I as [I1 I2 I3 I4 I5 I6 I7 I8]. destruct I1, I5. by split. }
  assert (lh_set s1 = ∅) as L1 by by rw /lh_set /lh_len /s1 /= N.
  destruct (tx_bread s1 ∅ ∅ 35 T1) as (x & b2 & _ & Hx & T2 & V2 & D2).
  { rw /in_disk /s1 /= D. by vm_compute. }
  { intros i. by rw lookup_empty. }
  { rw L1. apply Nat.ltb_lt. reflexivity. }
  assert ((<[x := 35]> ∅ : gmap nat Z) !! x = Some 35) as Lx by by rw lookup_insert_eq.
  destruct (tx_store _ _ _ x 35 d T2 Lx) as (b3 & _ & T3 & V3 & D3).
  destruct (tx_log_write _ _ _ x 35 T3 Lx) as (m & bl & b4 & _ & T4 & L4 & V4 & D4); [done|rw /= N S2; lia|rw /= S1 S2; lia|].
  destruct (tx_brelse _ _ _ x 35 T4 Lx) as (b5 & _ & T5 & V5 & D5); [set_solver|].
  rewrite -> delete_insert_id in T5 by done.
  replace ((({[35]} ∪ ∅) ∖ {[35]}) : gset Z) with (∅ : gset Z) in T5 by (apply leibniz_equiv; set_solver).
  set (s5 := set_bio b5 _) in T5.
  assert (lh_set s5 = {[35]}) as L5.
  { transitivity ({[35]} ∪ lh_set s1); [exact L4|]. rw L1. apply leibniz_equiv. set_solver. }
  exists s5. apply trep_log_inv in T5 as I5. split; [done|].
  split.
  { pose proof (lh_set_size_eq _ (li_ok _ I5)) as Hs. rw L5 size_singleton /lh_len in Hs. pose proof (li_n _ I5). lia. }
  split; [done|]. split; [done|]. split; [done|]. split; [done|]. split; [done|]. split.
  - by rw /s5 /= D5 /= D4 /= D3 /= D2 /s1 /= D.
  - rw /s5 /= V5 /= V4 /= V3. by rewrite -> decide_True.
Qed.

Lemma commit_crash_safe_witness :
  ∃ s s' h, commit s = Ok (tt, s') ∧ dblk (bs_disk (ls_bio s')) 35 = [1; 2; 3] ∧
    ∀ d, d ∈ bs_disk (ls_bio s') :: h →
      ∃ s2, (bio binit ;; initlog 1) (boot_log [] d 1) = Ok (tt, s2) ∧
        (dblk (bs_disk (ls_bio s2)) 35 = zblock ∨ dblk (bs_disk (ls_bio s2)) 35 = [1; 2; 3]).
Proof.
  destruct (example_tx [1; 2; 3]) as (s & I & N & L & S1 & S2 & _ & _ & D & V). exists s.
  assert (home s 35) as H35 by (rw /home S1 S2; lia).
  destruct (commit_crash_safe s [] 1 I) as (s' & h & E & _ & _ & Hd & Hc).
  - rw N. lia.
  - rw D S1 S2. by vm_compute.
  - rw /home S1 S2. lia.
  - rw L. set_solver.
  - exists s', h. split; [exact E|]. split; [rw -V; by apply Hd|].
    intros d Hin. destruct (Hc d Hin) as (s2 & E2 & _ & _ & H2). exists s2. split; [exact E2|].
    destruct H2 as [H2|H2]; [left|right]; rw (H2 35 H35); [rw D; by vm_compute|done].
Defined.

(** ** Reservation of log space

    Several operations share the log.  A state is the log's with, for each operation
    between its [begin_op] and its [end_op], how many blocks it has added to the log;
    an operation adds at most [MAXOPBLOCKS]. *)

Inductive log_step : lstate * list Z → lstate * list Z → Prop :=
  | step_begin s s' us : begin_op s = Ok (tt, s') → log_step (s, us) (s', us ++ [0])
  | step_write s s' us i u x : us !! i = Some u → log_write x s = Ok (tt, s') →
      u + (ls_n s' - ls_n s) ≤ MAXOPBLOCKS →
      log_step (s, us) (s', <[i := u + (ls_n s' - ls_n s)]> us)
  | step_cache s us b : log_step (s, us) (set_bio b s, us)
  | step_end s s' l1 u l2 : end_op s = Ok (tt, s') → log_step (s, l1 ++ u :: l2) (s', l1 ++ l2).

(** The blocks in the log and what the running operations may still add fit. *)
Definition reserved (us : list Z) : Z := Zsum (λ u, MAXOPBLOCKS - u) us.
Record space_inv (x : lstate * list Z) : Prop := {
  sp_n : 0 ≤ ls_n x.1;
  sp_ops : ls_outstanding x.1 = Z.of_nat (length x.2);
  sp_used : Forall (λ u, 0 ≤ u ≤ MAXOPBLOCKS) x.2;
  sp_fits : ls_n x.1 + reserved x.2 ≤ LOGSIZE;
}.

(** The fields that commit does not touch. *)
Definition only_bio {A} (m : M lstate A) : Prop := ∀ s a s', m s = Ok (a, s') → ∃ b, s' = set_bio b s.
Lemma only_bio_bio {A} (m : M bstate A) : only_bio (bio m).
Proof. intros s a s'. rw /bio /lift. destruct (m (ls_bio s)) as [[a' b]| |]; [|done..]. intros [= <- <-]. by exists b. Qed.
Lemma only_bio_bind {A B} (m : M lstate A) (k : A → M lstate B) :
  only_bio m → (∀ a, only_bio (k a)) → only_bio (m ≫= k).
Proof.
  intros Hm Hk s b s' H. mstep_in H. apply Hm in E as (b1 & ->). apply Hk in H as (b2 & ->). by exists b2.
Qed.
Lemma only_bio_gets {A} (f : lstate → A) : only_bio (gets f).
Proof. intros s a s' [= <- <-]. exists (ls_bio s). by rw set_bio_id. Qed.
Lemma only_bio_for body k : (∀ t, only_bio (body t)) → ∀ t, only_bio (for_tail body k t).
Proof.
  intros Hb. induction k as [|k IH]; intros t; simpl; [by apply (only_bio_gets (λ _, tt))|].
  by apply only_bio_bind.
Qed.
Ltac obio := repeat first [apply only_bio_bind; [|intros ?] | apply only_bio_gets | apply only_bio_bio].

Lemma only_bio_write_log : only_bio write_log.
Proof. obio. apply only_bio_for. intros t. rw /write_log_block. obio. Qed.
Lemma only_bio_install : only_bio install_trans.
Proof. obio. apply only_bio_for. intros t. rw /install_block. obio. Qed.
Lemma only_bio_write_head : only_bio write_head.
Proof. rw /write_head. obio. Qed.

Lemma commit_fields s s' :
  commit s = Ok (tt, s') → 0 ≤ ls_n s → ls_n s' = 0 ∧ ls_outstanding s' = ls_outstanding s.
Proof.
  rw /commit. mget. intros H Hn. destruct (Z.ltb_spec 0 (ls_n s)) as [Hp|Hp]; cbn [when] in H.
  - mstep_in H. apply only_bio_write_log in E as (b1 & ->). mstep_in H. apply only_bio_write_head in E as (b2 & ->).
    mstep_in H. apply only_bio_install in E as (b3 & ->). rw /set_n in H. rw modify_bind in H.
    by apply only_bio_write_head in H as (b4 & ->).
  - injection H as <-. split; [lia|done].
Qed.

Lemma reserved_app us vs : reserved (us ++ vs) = reserved us + reserved vs.
Proof. apply Zsum_app. Qed.

Lemma log_write_n x s s' :
  log_write x s = Ok (tt, s') → ls_n s ≤ ls_n s' ∧ ls_outstanding s' = ls_outstanding s.
Proof.
  rw /log_write. mget. destruct (_ || _); [done|]. mget. destruct (ls_outstanding s <? 1); [done|]. mget. intros H.
  mstep_in H. apply only_bio_bio in E as (b1 & ->). cbn zeta in H. mstep_in H.
  assert (∃ bl, s0 = set_lh (ls_n s) bl (set_bio b1 s)) as (bl & ->).
  { rw /set_lh_block in E. rw gets_bind in E. case_decide; [|done]. injection E as <- <-. by eexists. }
  mstep_in H. apply only_bio_bio in H as (b2 & ->).
  destruct (Z.of_nat _ =? ls_n s); cbn [when] in E0; injection E0 as <- <-; simpl; lia.
Qed.
Lemma begin_op_inv s s' :
  begin_op s = Ok (tt, s') →
  s' = set_outstanding (ls_outstanding s + 1) s ∧ ls_n s + (ls_outstanding s + 1) * MAXOPBLOCKS ≤ LOGSIZE.
Proof.
  rw /begin_op. mget. destruct (ls_committing s); [done|]. mget.
  destruct (Z.ltb_spec LOGSIZE (ls_n s + (ls_outstanding s + 1) * MAXOPBLOCKS)); [done|].
  by intros [= <-].
Qed.
Lemma end_op_inv s s' :
  end_op s = Ok (tt, s') → 0 ≤ ls_n s →
  ls_outstanding s' = ls_outstanding s - 1 ∧ (ls_n s' = ls_n s ∨ ls_n s' = 0).
Proof.
  rw /end_op. mget. cbn [ls_committing set_outstanding]. destruct (ls_committing s); [done|]. mget.
  cbn [ls_outstanding set_outstanding]. destruct (_ =? 0); intros H Hn.
  - rw modify_bind in H. mstep_in H. destruct a. apply commit_fields in E as [E1 E2]; [|done].
    rw modify_bind in H. injection H as <-. simpl. split; [by rw E2|by right].
  - injection H as <-. split; [done|by left].
Qed.

Lemma reserved_bound us : Forall (λ u, 0 ≤ u ≤ MAXOPBLOCKS) us →
  0 ≤ reserved us ≤ Z.of_nat (length us) * MAXOPBLOCKS.
Proof.
  rw /reserved /MAXOPBLOCKS. induction 1 as [|u us Hu Hus IH]; simpl; [lia|]. lia.
Qed.

Lemma space_step x y : space_inv x → log_step x y → space_inv y.
Proof.
  intros [P1 P2 P3 P4] St. destruct St as [s s' us E|s s' us i u x Hi E Hu|s us b|s s' l1 u l2 E]; cbn [fst snd] in *.
  - apply begin_op_inv in E as [-> Hf]. pose proof (reserved_bound us P3). rw P2 in Hf.
    split; cbn [fst snd ls_n ls_outstanding set_outstanding]; [done| | |].
    + rw length_app /=. lia.
    + apply Forall_app. split; [done|]. apply Forall_singleton. rw /MAXOPBLOCKS. lia.
    + rw reserved_app /reserved /= -/(reserved us). lia.
  - apply log_write_n in E as [E1 E2]. pose proof (Forall_lookup_1 _ _ _ _ P3 Hi) as Hui. cbn beta in Hui.
    split; cbn [fst snd]; [lia|by rw E2 length_insert| |].
    + apply Forall_insert; [done|lia].
    + rw /reserved (Zsum_insert _ _ _ u) // -/(reserved us). lia.
  - by split.
  - apply end_op_inv in E as [E1 E2]; [|done]. rw reserved_app /reserved /= -/(reserved l1) -/(reserved l2) in P4.
    apply Forall_app in P3 as [Q1 Q2]. apply Forall_cons in Q2 as [Q2 Q3]. rw length_app /= in P2.
    split; cbn [fst snd]; [lia| | |].
    + rw length_app. lia.
    + by apply Forall_app.
    + rw reserved_app. lia.
Qed.



(** An operation that logs the given blocks. *)
Fixpoint log_blocks (ns : list Z) : M lstate unit :=
  match ns with
  | [] => mret tt
  | n :: ns => b ← bio (bread 1 n); log_write b ;; bio (brelse b) ;; log_blocks ns
  end.
Definition zrange (a : Z) (n : nat) : list Z := (λ i, a + Z.of_nat i) <$> seq 0 n.

(** With the log that mkfs makes, of [LOGSIZE] blocks, three operations that each log
    at most [MAXOPBLOCKS] blocks are all let in by [begin_op], and the last block of the
    third makes [log_write] panic: the header takes one of the log's blocks. *)
Theorem log_reservation_overruns :
  let s0 := set_where 2 LOGSIZE 1 (boot_log [] (replicate 100 []) 1) in
  ∃ s, (bio binit ;; begin_op ;; begin_op ;; begin_op ;; log_blocks (zrange 40 10) ;;
        log_blocks (zrange 50 10) ;; log_blocks (zrange 60 9)) s0 = Ok (tt, s) ∧
    ls_outstanding s = 3 ∧ ls_n s = 29 ∧ log_blocks [69] s = Panic "too big a transaction".
Proof. eexists. split; [vm_compute; reflexivity|]. split; [|split]; vm_compute; reflexivity. Qed.

(** C18. A transaction of one operation that changes one block, from [begin_op] to
    [end_op]: the block's new contents are on the disk when it ends, and no other block
    outside the log has changed. *)
Theorem transaction_durable s n d :
  log_inv s → ls_n s = 0 → ls_outstanding s = 0 → ls_committing s = false → 2 < ls_size s →
  in_disk (bs_disk (ls_bio s)) n → home s n →
  ∃ s', (begin_op ;; x ← bio (bread 1 n); bio (updb x (set_data d)) ;; log_write x ;; bio (brelse x) ;; end_op) s =
      Ok (tt, s') ∧ log_inv s' ∧ ls_n s' = 0 ∧
    ∀ k, home s k → dblk (bs_disk (ls_bio s')) k = if decide (k = n) then d else dblk (bs_disk (ls_bio s)) k.
Proof.
  intros I Hn Ho Hc Hsz Hd [_ Hh].
  assert (begin_op s = Ok (tt, set_outstanding 1 s)) as E0.
  { rw (begin_op_ok s Hc); [by rw Hn Ho|by rw Ho]. }
  mgo E0. clear E0. set (s1 := set_outstanding 1 s).
  assert (trep s1 ∅ ∅) as T1.
  { apply trep_log_inv. destruct I as [I1 I2 I3 I4 I5 I6 I7 I8]. destruct I1, I5. by split. }
  assert (lh_set s1 = ∅) as L1 by by rw /lh_set /lh_len /s1 /= Hn.
  destruct (tx_bread s1 ∅ ∅ n T1) as (x & b2 & E2 & Hx & T2 & V2 & D2); [done|intros i; by rw lookup_empty| |].
  { rw L1. apply Nat.ltb_lt. reflexivity. }
  rw (lg_dev _ (tr_geom _ _ _ T1)) in E2. mgo E2.
  assert ((<[x := n]> ∅ : gmap nat Z) !! x = Some n) as Lx by by rw lookup_insert_eq.
  destruct (tx_store _ _ _ x n d T2 Lx) as (b3 & E3 & T3 & V3 & D3). mgo E3.
  destruct (tx_log_write _ _ _ x n T3 Lx) as (m & bl & b4 & E4 & T4 & L4 & V4 & D4); [done|rw /= Hn; lia|done|]. mgo E4.
  destruct (tx_brelse _ _ _ x n T4 Lx) as (b5 & E5 & T5 & V5 & D5); [set_solver|]. mgo E5.
  rewrite -> delete_insert_id in T5 by done.
  replace ((({[n]} ∪ ∅) ∖ {[n]}) : gset Z) with (∅ : gset Z) in T5 by (apply leibniz_equiv; set_solver).
  set (s5 := set_bio b5 _) in *. destruct (end_op_last s5 T5) as (s' & E6 & I' & N' & _ & _ & _ & V6); [done|done|].
  exists s'. split; [done|]. split; [done|]. split; [done|]. intros k Hk.
  destruct (V6 k Hk) as [_ ->]. rw /s5 /= V5 /= V4 /= V3 /=. case_decide; [done|]. rw V2 /s1 /=.
  apply (cr_sync _ _ (li_rep _ I)); [apply Hk|]. intros (j & Hj & _)%lh_set_elem. rw /lh_len Hn in Hj. lia.
Qed.

Lemma transaction_durable_witness :
  ∃ s s', (begin_op ;; x ← bio (bread 1 35); bio (updb x (set_data [7])) ;; log_write x ;; bio (brelse x) ;; end_op) s =
      Ok (tt, s') ∧ dblk (bs_disk (ls_bio s')) 35 = [7].
Proof.
  destruct example_boot as (s & I & N & S1 & S2 & O & Cm & D). exists s.
  assert (home s 35) as H35 by (rw /home S1 S2; lia).
  destruct (transaction_durable s 35 [7] I N O Cm) as (s' & E & _ & _ & H); [rw S2; lia| |done|].
  - rw /in_disk D. by vm_compute.
  - exists s'. split; [exact E|]. by rw (H 35 H35).
Defined.
