(* ===== verification/Fs.v ===== *)
(** * The file system (fs.c)

    Block allocation, inodes, file contents, directories and path names, over a
    [BlockStore]: the log and the buffer cache are used through that interface only.
    An inode pointer is an index into [icache.inode]; a null pointer is [None].  The
    kernel's buffers and path names are lists of bytes, a string without its final
    NUL.  The spin lock [icache.lock] makes each section it protects one step; a call
    that would wait for an inode's sleep lock ends as [Sleeps]. *)

From S2P Require Import Prelude Params Bytes Bio Log Tx.

(** ** Data *)

Record inode := mkInode {
  i_dev : Z;
  i_inum : Z;
  i_ref : Z;
  i_lock : sleeplock;
  i_valid : bool;
  i_type : Z;
  i_major : Z;
  i_minor : Z;
  i_nlink : Z;
  i_size : Z;
  i_addrs : list Z;
}.
#[export] Instance inode_inhabited : Inhabited inode :=
  populate (mkInode 0 0 0 (mkSl false 0) false 0 0 0 0 0 []).

Definition set_iid (dev inum : Z) (p : inode) : inode :=
  mkInode dev inum (i_ref p) (i_lock p) (i_valid p) (i_type p) (i_major p) (i_minor p) (i_nlink p) (i_size p) (i_addrs p).
Definition set_iref (x : Z) (p : inode) : inode :=
  mkInode (i_dev p) (i_inum p) x (i_lock p) (i_valid p) (i_type p) (i_major p) (i_minor p) (i_nlink p) (i_size p) (i_addrs p).
Definition set_ilock (x : sleeplock) (p : inode) : inode :=
  mkInode (i_dev p) (i_inum p) (i_ref p) x (i_valid p) (i_type p) (i_major p) (i_minor p) (i_nlink p) (i_size p) (i_addrs p).
Definition set_ivalid (x : bool) (p : inode) : inode :=
  mkInode (i_dev p) (i_inum p) (i_ref p) (i_lock p) x (i_type p) (i_major p) (i_minor p) (i_nlink p) (i_size p) (i_addrs p).
Definition set_itype (x : Z) (p : inode) : inode :=
  mkInode (i_dev p) (i_inum p) (i_ref p) (i_lock p) (i_valid p) x (i_major p) (i_minor p) (i_nlink p) (i_size p) (i_addrs p).
Definition set_idev (major minor : Z) (p : inode) : inode :=
  mkInode (i_dev p) (i_inum p) (i_ref p) (i_lock p) (i_valid p) (i_type p) major minor (i_nlink p) (i_size p) (i_addrs p).
Definition set_inlink (x : Z) (p : inode) : inode :=
  mkInode (i_dev p) (i_inum p) (i_ref p) (i_lock p) (i_valid p) (i_type p) (i_major p) (i_minor p) x (i_size p) (i_addrs p).
Definition set_isize (x : Z) (p : inode) : inode :=
  mkInode (i_dev p) (i_inum p) (i_ref p) (i_lock p) (i_valid p) (i_type p) (i_major p) (i_minor p) (i_nlink p) x (i_addrs p).
Definition set_iaddrs (x : list Z) (p : inode) : inode :=
  mkInode (i_dev p) (i_inum p) (i_ref p) (i_lock p) (i_valid p) (i_type p) (i_major p) (i_minor p) (i_nlink p) (i_size p) x.

(** [struct dinode] is 64 bytes: type, major, minor, nlink (16 bits each), size and the
    block addresses (32 bits each). *)
Definition IPB : Z := BSIZE / 64.
Definition IBLOCK (i : Z) (sb : superblock) : Z := u32 (u32 i / IPB + sb_inodestart sb).
Definition BBLOCK (b : Z) (sb : superblock) : Z := u32 (u32 b / BPB + sb_bmapstart sb).
Definition dinode_off (inum : Z) : nat := Z.to_nat (u32 inum mod IPB * 64).

Definition get_addrs (d : block) (o : nat) : list Z :=
  (λ i, get32 d (o + 12 + 4 * i)%nat) <$> seq 0 (Z.to_nat (NDIRECT + 1)).
Fixpoint put_addrs (d : block) (o : nat) (a : list Z) : block :=
  match a with
  | [] => d
  | x :: a => put_addrs (put32 d o x) (o + 4) a
  end.
(** The inode of [d] at byte [o] into [p], and [p] into [d]. *)
Definition load_dinode (d : block) (o : nat) (p : inode) : inode :=
  mkInode (i_dev p) (i_inum p) (i_ref p) (i_lock p) (i_valid p)
    (s16 (get16 d o)) (s16 (get16 d (o + 2))) (s16 (get16 d (o + 4))) (s16 (get16 d (o + 6)))
    (get32 d (o + 8)) (get_addrs d o).
Definition store_dinode (d : block) (o : nat) (p : inode) : block :=
  let d := put16 d o (i_type p) in
  let d := put16 d (o + 2) (i_major p) in
  let d := put16 d (o + 4) (i_minor p) in
  let d := put16 d (o + 6) (i_nlink p) in
  let d := put32 d (o + 8) (i_size p) in
  put_addrs d (o + 12) (i_addrs p).

(** Directory entries: a 16-bit inode number and a name of [DIRSIZ] bytes. *)
Definition DIRENT : Z := 16.
Definition de_inum (de : list Z) : Z := get16 de 0.
Definition de_name (de : list Z) : list Z := slice de 2 (Z.to_nat DIRSIZ).
(** [strncpy(de.name, name, DIRSIZ)] *)
Definition pad_name (name : list Z) : list Z :=
  take (Z.to_nat DIRSIZ) (name ++ replicate (Z.to_nat DIRSIZ) 0).
Definition mk_dirent (inum : Z) (name : list Z) : list Z := [u8 inum; u8 (inum / 256)] ++ pad_name name.

(** [strncmp] on strings whose end is the end of the list. *)
Fixpoint strncmp_list (n : nat) (p q : list Z) : Z :=
  match n with
  | O => 0
  | S n =>
      let a := default 0 (p !! 0%nat) in let b := default 0 (q !! 0%nat) in
      if (a =? b) && negb (a =? 0) then strncmp_list n (tail p) (tail q) else a - b
  end.
Definition namecmp (s t : list Z) : Z := strncmp_list (Z.to_nat DIRSIZ) s t.

Record stat := mkStat { st_type : Z; st_dev : Z; st_ino : Z; st_nlink : Z; st_size : Z }.

(** ** State *)

(** A device driver's [read] and [write] in [devsw], over the file system's state. *)
Record devops (T : Type) := mkDev {
  dev_read : option (nat → Z → M T (Z * list Z));
  dev_write : option (nat → list Z → Z → M T Z);
}.
Arguments mkDev {T}.
Arguments dev_read {T}.
Arguments dev_write {T}.

Section fs.
Context {S D : Type} `{!BlockStore S}.
Record fstate := mkFs {
  f_st : S;
  f_sb : superblock;
  f_inode : list inode;
  f_dev : D;
  f_me : Z;       (* myproc()->pid *)
  f_cwd : nat;    (* myproc()->cwd *)
}.
Definition set_st (x : S) (s : fstate) : fstate := mkFs x (f_sb s) (f_inode s) (f_dev s) (f_me s) (f_cwd s).
Definition set_sb (x : superblock) (s : fstate) : fstate := mkFs (f_st s) x (f_inode s) (f_dev s) (f_me s) (f_cwd s).
Definition set_inodes (x : list inode) (s : fstate) : fstate := mkFs (f_st s) (f_sb s) x (f_dev s) (f_me s) (f_cwd s).
Definition set_fdev (x : D) (s : fstate) : fstate := mkFs (f_st s) (f_sb s) (f_inode s) x (f_me s) (f_cwd s).

(** [devsw], by major device number. *)
Context (devsw : Z → devops fstate).

Definition st {A} (m : M S A) : M fstate A := lift f_st set_st m.
Definition dev {A} (m : M D A) : M fstate A := lift f_dev set_fdev m.
Definition geti {A} (ip : nat) (f : inode → A) : M fstate A := gets (λ s, f (f_inode s !!! ip)).
Definition updi (ip : nat) (f : inode → inode) : M fstate unit :=
  modify (λ s, set_inodes (alter f ip (f_inode s)) s).

(** ** Blocks *)

(** [readsb(dev, &sb)] into the global super block. *)
Definition fs_readsb (dev : Z) : M fstate unit :=
  bp ← st (st_bread dev 1);
  d ← st (st_data bp);
  modify (set_sb (decode_sb d)) ;;
  st (st_brelse bp).

Definition bzero (dev bno : Z) : M fstate unit :=
  bp ← st (st_bread dev (u32 bno));
  st (st_store bp (replicate (Z.to_nat BSIZE) 0)) ;;
  st (st_log_write bp) ;;
  st (st_brelse bp).

(** [1 << (bi % 8)], tested, set and cleared in byte [bi / 8]. *)
Definition bit_mask (bi : Z) : Z := Z.shiftl 1 (bi mod 8).
Definition bit_set (d : block) (bi : Z) : bool :=
  negb (Z.land (byte_at d (Z.to_nat (bi / 8))) (bit_mask bi) =? 0).
Definition set_bit (d : block) (bi : Z) : block :=
  <[Z.to_nat (bi / 8) := u8 (Z.lor (byte_at d (Z.to_nat (bi / 8))) (bit_mask bi))]> d.
Definition clear_bit (d : block) (bi : Z) : block :=
  <[Z.to_nat (bi / 8) := u8 (Z.land (byte_at d (Z.to_nat (bi / 8))) (Z.lnot (bit_mask bi)))]> d.

(** The inner loop of [balloc]: the first free bit from [bi] on. *)
Fixpoint find_free (d : block) (b size : Z) (k : nat) (bi : Z) : option Z :=
  match k with
  | O => None
  | Datatypes.S k =>
      if negb (b + bi <? size) then None
      else if bit_set d bi then find_free d b size k (bi + 1) else Some bi
  end.
Fixpoint balloc_loop (dev : Z) (k : nat) (b : Z) : M fstate Z :=
  match k with
  | O => panic "balloc: out of blocks"
  | Datatypes.S k =>
      sb ← gets f_sb;
      if negb (b <? sb_size sb) then panic "balloc: out of blocks" else
      bp ← st (st_bread dev (BBLOCK b sb));
      d ← st (st_data bp);
      match find_free d b (sb_size sb) (Z.to_nat BPB) 0 with
      | Some bi =>
          st (st_store bp (set_bit d bi)) ;;
          st (st_log_write bp) ;;
          st (st_brelse bp) ;;
          bzero dev (b + bi) ;;
          mret (b + bi)
      | None => st (st_brelse bp) ;; balloc_loop dev k (b + BPB)
      end
  end.
(** The outer loop visits at most one more bitmap block than the disk has. *)
Definition balloc (dev : Z) : M fstate Z :=
  sb ← gets f_sb;
  balloc_loop dev (Z.to_nat (sb_size sb / BPB + 2)) 0.

Definition bfree (dev b : Z) : M fstate unit :=
  fs_readsb dev ;;
  sb ← gets f_sb;
  bp ← st (st_bread dev (BBLOCK b sb));
  d ← st (st_data bp);
  let bi := u32 b mod BPB in
  if negb (bit_set d bi) then panic "freeing free block" else
  st (st_store bp (clear_bit d bi)) ;;
  st (st_log_write bp) ;;
  st (st_brelse bp).

(** ** Inodes *)

Definition iinit (dev : Z) : M fstate unit :=
  modify (λ s, set_inodes (set_ilock initsleeplock <$> f_inode s) s) ;;
  fs_readsb dev.

(** The search of [iget]: the entry for the inode, or the first unused one. *)
Fixpoint iget_scan (l : list inode) (dev inum : Z) (i : nat) (empty : option nat) : nat + option nat :=
  match l with
  | [] => inr empty
  | p :: l =>
      if (0 <? i_ref p) && (i_dev p =? dev) && (i_inum p =? inum) then inl i
      else iget_scan l dev inum (Datatypes.S i)
        (match empty with None => if i_ref p =? 0 then Some i else None | Some e => Some e end)
  end.
Definition iget (dev inum : Z) : M fstate nat :=
  l ← gets f_inode;
  match iget_scan l dev inum 0 None with
  | inl ip => updi ip (λ p, set_iref (i_ref p + 1) p) ;; mret ip
  | inr None => panic "iget: no inodes"
  | inr (Some ip) => updi ip (λ p, set_ivalid false (set_iref 1 (set_iid dev inum p))) ;; mret ip
  end.

Fixpoint ialloc_loop (dev type : Z) (k : nat) (inum : Z) : M fstate nat :=
  match k with
  | O => panic "ialloc: no inodes"
  | Datatypes.S k =>
      sb ← gets f_sb;
      if negb (inum <? sb_ninodes sb) then panic "ialloc: no inodes" else
      bp ← st (st_bread dev (IBLOCK inum sb));
      d ← st (st_data bp);
      let o := dinode_off inum in
      if get16 d o =? 0 then
        st (st_store bp (put16 (splice d o (replicate 64 0)) o type)) ;;
        st (st_log_write bp) ;;
        st (st_brelse bp) ;;
        iget dev inum
      else st (st_brelse bp) ;; ialloc_loop dev type k (inum + 1)
  end.
Definition ialloc (dev type : Z) : M fstate nat :=
  sb ← gets f_sb;
  ialloc_loop dev type (Z.to_nat (sb_ninodes sb)) 1.

Definition iupdate (ip : nat) : M fstate unit :=
  sb ← gets f_sb;
  p ← geti ip id;
  bp ← st (st_bread (i_dev p) (IBLOCK (i_inum p) sb));
  d ← st (st_data bp);
  st (st_store bp (store_dinode d (dinode_off (i_inum p)) p)) ;;
  st (st_log_write bp) ;;
  st (st_brelse bp).

Definition idup (ip : nat) : M fstate nat :=
  updi ip (λ p, set_iref (i_ref p + 1) p) ;; mret ip.

(** [acquiresleep(&ip->lock)] and [releasesleep(&ip->lock)] *)
Definition lock_inode (ip : nat) : M fstate unit :=
  me ← gets f_me;
  lk ← geti ip i_lock;
  match acquiresleep me lk with
  | None => sleeps
  | Some lk => updi ip (set_ilock lk)
  end.
Definition unlock_inode (ip : nat) : M fstate unit :=
  updi ip (λ p, set_ilock (releasesleep (i_lock p)) p).

Definition ilock (ip : option nat) : M fstate unit :=
  match ip with
  | None => panic "ilock"
  | Some ip =>
      ref ← geti ip i_ref;
      if ref <? 1 then panic "ilock" else
      lock_inode ip ;;
      valid ← geti ip i_valid;
      when (negb valid) (
        sb ← gets f_sb;
        p ← geti ip id;
        bp ← st (st_bread (i_dev p) (IBLOCK (i_inum p) sb));
        d ← st (st_data bp);
        updi ip (load_dinode d (dinode_off (i_inum p))) ;;
        st (st_brelse bp) ;;
        updi ip (set_ivalid true) ;;
        type ← geti ip i_type;
        if type =? 0 then panic "ilock: no type" else mret tt)
  end.

Definition iunlock (ip : option nat) : M fstate unit :=
  match ip with
  | None => panic "iunlock"
  | Some ip =>
      me ← gets f_me;
      p ← geti ip id;
      if negb (holdingsleep me (i_lock p)) || (i_ref p <? 1) then panic "iunlock" else
      unlock_inode ip
  end.

(** ** Contents *)

Definition bmap (ip : nat) (bn : Z) : M fstate Z :=
  p ← geti ip id;
  if bn <? NDIRECT then
    let addr := i_addrs p !!! Z.to_nat bn in
    if addr =? 0 then
      addr ← balloc (i_dev p);
      updi ip (λ p, set_iaddrs (<[Z.to_nat bn := addr]> (i_addrs p)) p) ;;
      mret addr
    else mret addr
  else
  let bn := bn - NDIRECT in
  if bn <? NINDIRECT then
    addr ← (if i_addrs p !!! Z.to_nat NDIRECT =? 0 then
              addr ← balloc (i_dev p);
              updi ip (λ p, set_iaddrs (<[Z.to_nat NDIRECT := addr]> (i_addrs p)) p) ;;
              mret addr
            else mret (i_addrs p !!! Z.to_nat NDIRECT));
    bp ← st (st_bread (i_dev p) addr);
    a ← st (st_data bp);
    let o := (4 * Z.to_nat bn)%nat in
    addr ← (if get32 a o =? 0 then
              addr ← balloc (i_dev p);
              st (st_store bp (put32 a o addr)) ;;
              st (st_log_write bp) ;;
              mret addr
            else mret (get32 a o));
    st (st_brelse bp) ;;
    mret addr
  else panic "bmap: out of range".

(** The loops of [itrunc] over the direct addresses and over the indirect block. *)
Fixpoint itrunc_direct (ip : nat) (k : nat) (i : nat) : M fstate unit :=
  match k with
  | O => mret tt
  | Datatypes.S k =>
      p ← geti ip id;
      when (negb (i_addrs p !!! i =? 0)) (
        bfree (i_dev p) (i_addrs p !!! i) ;;
        updi ip (λ p, set_iaddrs (<[i := 0]> (i_addrs p)) p)) ;;
      itrunc_direct ip k (Datatypes.S i)
  end.
Fixpoint itrunc_indirect (dev : Z) (a : block) (k : nat) (j : nat) : M fstate unit :=
  match k with
  | O => mret tt
  | Datatypes.S k =>
      when (negb (get32 a (4 * j) =? 0)) (bfree dev (get32 a (4 * j))) ;;
      itrunc_indirect dev a k (Datatypes.S j)
  end.
Definition itrunc (ip : nat) : M fstate unit :=
  itrunc_direct ip (Z.to_nat NDIRECT) 0 ;;
  p ← geti ip id;
  let ind := i_addrs p !!! Z.to_nat NDIRECT in
  when (negb (ind =? 0)) (
    bp ← st (st_bread (i_dev p) ind);
    a ← st (st_data bp);
    itrunc_indirect (i_dev p) a (Z.to_nat NINDIRECT) 0 ;;
    st (st_brelse bp) ;;
    bfree (i_dev p) ind ;;
    updi ip (λ p, set_iaddrs (<[Z.to_nat NDIRECT := 0]> (i_addrs p)) p)) ;;
  updi ip (set_isize 0) ;;
  iupdate ip.

Definition iput (ip : nat) : M fstate unit :=
  lock_inode ip ;;
  p ← geti ip id;
  when (i_valid p && (i_nlink p =? 0)) (
    r ← geti ip i_ref;
    when (r =? 1) (
      itrunc ip ;;
      updi ip (set_itype 0) ;;
      iupdate ip ;;
      updi ip (set_ivalid false))) ;;
  unlock_inode ip ;;
  updi ip (λ p, set_iref (i_ref p - 1) p).

Definition iunlockput (ip : nat) : M fstate unit := iunlock (Some ip) ;; iput ip.

Definition stati (ip : nat) : M fstate stat :=
  p ← geti ip id;
  mret (mkStat (i_type p) (i_dev p) (i_inum p) (i_nlink p) (i_size p)).

(** The loop of [readi] with [tot] bytes read so far; each round reads at least one, and
    all but the first and last a whole block. *)
Fixpoint readi_loop (ip : nat) (k : nat) (tot off n : Z) (dst : list Z) : M fstate (list Z) :=
  if negb (tot <? n) then mret dst else
  match k with
  | O => panic "readi: out of fuel"
  | Datatypes.S k =>
      dev ← geti ip i_dev;
      addr ← bmap ip (off / BSIZE);
      bp ← st (st_bread dev addr);
      d ← st (st_data bp);
      let m := Z.min (n - tot) (BSIZE - off mod BSIZE) in
      st (st_brelse bp) ;;
      readi_loop ip k (tot + m) (off + m) n (dst ++ slice d (Z.to_nat (off mod BSIZE)) (Z.to_nat m))
  end.
Definition rounds (n : Z) : nat := Z.to_nat (n / BSIZE + 2).
Definition readi (ip : nat) (off n : Z) : M fstate (Z * list Z) :=
  p ← geti ip id;
  if i_type p =? T_DEV then
    if (i_major p <? 0) || (NDEV <=? i_major p) then mret (-1, [])
    else match dev_read (devsw (i_major p)) with
         | None => mret (-1, [])
         | Some rd => rd ip n
         end
  else
  if (i_size p <? off) || (u32 (off + n) <? off) then mret (-1, []) else
  let n := if i_size p <? u32 (off + n) then i_size p - off else n in
  dst ← readi_loop ip (rounds n) 0 off n [];
  mret (n, dst).

Fixpoint writei_loop (ip : nat) (k : nat) (tot off n : Z) (src : list Z) : M fstate Z :=
  if negb (tot <? n) then mret off else
  match k with
  | O => panic "writei: out of fuel"
  | Datatypes.S k =>
      dev ← geti ip i_dev;
      addr ← bmap ip (off / BSIZE);
      bp ← st (st_bread dev addr);
      d ← st (st_data bp);
      let m := Z.min (n - tot) (BSIZE - off mod BSIZE) in
      st (st_store bp (splice d (Z.to_nat (off mod BSIZE)) (take (Z.to_nat m) src))) ;;
      st (st_log_write bp) ;;
      st (st_brelse bp) ;;
      writei_loop ip k (tot + m) (off + m) n (drop (Z.to_nat m) src)
  end.
Definition writei (ip : nat) (src : list Z) (off n : Z) : M fstate Z :=
  p ← geti ip id;
  if i_type p =? T_DEV then
    if (i_major p <? 0) || (NDEV <=? i_major p) then mret (-1)
    else match dev_write (devsw (i_major p)) with
         | None => mret (-1)
         | Some wr => wr ip src n
         end
  else
  if (i_size p <? off) || (u32 (off + n) <? off) then mret (-1) else
  if MAXFILE * BSIZE <? u32 (off + n) then mret (-1) else
  off ← writei_loop ip (rounds n) 0 off n src;
  size ← geti ip i_size;
  when ((0 <? n) && (size <? off)) (updi ip (set_isize off) ;; iupdate ip) ;;
  mret n.

(** ** Directories *)

Fixpoint dirlookup_loop (dp : nat) (name : list Z) (k : nat) (off : Z) : M fstate (option (nat * Z)) :=
  match k with
  | O => mret None
  | Datatypes.S k =>
      size ← geti dp i_size;
      if negb (off <? size) then mret None else
      r ← readi dp off DIRENT;
      if negb (r.1 =? DIRENT) then panic "dirlookup read" else
      if de_inum r.2 =? 0 then dirlookup_loop dp name k (off + DIRENT)
      else if namecmp name (de_name r.2) =? 0 then
        dev ← geti dp i_dev;
        ip ← iget dev (de_inum r.2);
        mret (Some (ip, off))
      else dirlookup_loop dp name k (off + DIRENT)
  end.
(** The inode found with the offset of its entry, which [*poff] receives. *)
Definition dirlookup (dp : nat) (name : list Z) : M fstate (option (nat * Z)) :=
  p ← geti dp id;
  if negb (i_type p =? T_DIR) then panic "dirlookup not DIR" else
  dirlookup_loop dp name (Z.to_nat (i_size p / DIRENT + 2)) 0.

(** The first empty entry, or the end of the directory. *)
Fixpoint dirlink_loop (dp : nat) (k : nat) (off : Z) : M fstate Z :=
  match k with
  | O => mret off
  | Datatypes.S k =>
      size ← geti dp i_size;
      if negb (off <? size) then mret off else
      r ← readi dp off DIRENT;
      if negb (r.1 =? DIRENT) then panic "dirlink read" else
      if de_inum r.2 =? 0 then mret off else dirlink_loop dp k (off + DIRENT)
  end.
Definition dirlink (dp : nat) (name : list Z) (inum : Z) : M fstate Z :=
  r ← dirlookup dp name;
  match r with
  | Some (ip, _) => iput ip ;; mret (-1)
  | None =>
      size ← geti dp i_size;
      off ← dirlink_loop dp (Z.to_nat (size / DIRENT + 2)) 0;
      n ← writei dp (mk_dirent inum name) off DIRENT;
      if negb (n =? DIRENT) then panic "dirlink" else mret 0
  end.

(** ** Paths *)

Definition SLASH : Z := 47.
Fixpoint skip_slashes (path : list Z) : list Z :=
  match path with
  | c :: rest => if c =? SLASH then skip_slashes rest else path
  | [] => []
  end.
Fixpoint take_elem (path : list Z) : list Z * list Z :=
  match path with
  | [] => ([], [])
  | c :: rest => if c =? SLASH then ([], path) else let r := take_elem rest in (c :: r.1, r.2)
  end.
(** The element's name, of at most [DIRSIZ] bytes, and the rest of the path. *)
Definition skipelem (path : list Z) : option (list Z * list Z) :=
  match skip_slashes path with
  | [] => None
  | path => let r := take_elem path in Some (take (Z.to_nat DIRSIZ) r.1, skip_slashes r.2)
  end.

(** [name] is the caller's buffer: it holds the last element copied. *)
Fixpoint namex_loop (k : nat) (ip : nat) (path : list Z) (parent : bool) (name : list Z) :
    M fstate (option nat * list Z) :=
  match k with
  | O => panic "namex: out of fuel"
  | Datatypes.S k =>
      match skipelem path with
      | None => if parent : bool then iput ip ;; mret (None, name) else mret (Some ip, name)
      | Some (name, path) =>
          ilock (Some ip) ;;
          type ← geti ip i_type;
          if negb (type =? T_DIR) then iunlockput ip ;; mret (None, name) else
          if parent && bool_decide (path = []) then iunlock (Some ip) ;; mret (Some ip, name) else
          r ← dirlookup ip name;
          match r with
          | None => iunlockput ip ;; mret (None, name)
          | Some (next, _) => iunlockput ip ;; namex_loop k next path parent name
          end
      end
  end.
Definition namex (path : list Z) (parent : bool) : M fstate (option nat * list Z) :=
  cwd ← gets f_cwd;
  ip ← (if bool_decide (path !! 0%nat = Some SLASH) then iget ROOTDEV ROOTINO else idup cwd);
  namex_loop (Datatypes.S (length path)) ip path parent [].
Definition namei (path : list Z) : M fstate (option nat) := r ← namex path false; mret r.1.
Definition nameiparent (path : list Z) : M fstate (option nat * list Z) := namex path true.
End fs.
