(* ===== verification/FsSpec.v ===== *)
(** * Blocks and bits of the file system

    The contract of block allocation in terms of the contents of the blocks, and the
    steps fs.c builds its operations from. *)

From S2P Require Import Prelude Params Bytes Bio BioSpec Log Tx Fs.

(** The contents of the blocks after storing [d] in block [n]. *)
Definition vset (v : Z → block) (n : Z) (d : block) : Z → block := λ k, if decide (k = n) then d else v k.
Lemma vset_eq v n d : vset v n d n = d.
Proof. rw /vset. by rewrite -> decide_True. Qed.
Lemma vset_ne v n d k : k ≠ n → vset v n d k = v k.
Proof. intros H. rw /vset. by rewrite -> decide_False. Qed.

(** ** The bits of a bitmap block *)

Definition bitmap_ok (d : block) : Prop := length d = Z.to_nat BSIZE.

Lemma bit_set_testbit d bi :
  0 ≤ bi → bit_set d bi = Z.testbit (byte_at d (Z.to_nat (bi / 8))) (bi mod 8).
Proof.
  intros Hb. rw /bit_set /bit_mask Z.shiftl_1_l. set (x := byte_at _ _). set (i := bi mod 8).
  assert (0 ≤ i) by (rw /i; dlia).
  destruct (Z.testbit x i) eqn:E; destruct (Z.eqb_spec (Z.land x (2 ^ i)) 0) as [H0|H0]; try done; exfalso.
  - assert (Z.testbit (Z.land x (2 ^ i)) i = true) as Ht by (rw Z.land_spec E Z.pow2_bits_true //).
    by rw H0 Z.bits_0 in Ht.
  - apply H0. apply Z.bits_inj'. intros k Hk. rw Z.land_spec Z.bits_0.
    destruct (decide (k = i)) as [->|Hne]; [by rw E|]. rw Z.pow2_bits_false; [lia|]. by rw andb_false_r.
Qed.

Lemma testbit_u8 x i : 0 ≤ i < 8 → Z.testbit (u8 x) i = Z.testbit x i.
Proof. intros Hi. rw /u8. change 256 with (2 ^ 8). apply Z.mod_pow2_bits_low. lia. Qed.

Lemma bit_set_set d bi bj :
  bitmap_ok d → 0 ≤ bi < BPB → 0 ≤ bj < BPB →
  bit_set (set_bit d bi) bj = if decide (bj = bi) then true else bit_set d bj.
Proof.
  rw /bitmap_ok /BPB /BSIZE. intros Hl Hi Hj. rw !bit_set_testbit; [lia..|].
  rw /set_bit byte_at_insert; [rw Hl; dlia|]. rw /bit_mask Z.shiftl_1_l.
  destruct (decide (Z.to_nat (bj / 8) = Z.to_nat (bi / 8))) as [E|E].
  - assert (bj / 8 = bi / 8) as E8 by dlia. rw -E8.
    assert (∀ y, u8 (u8 y) = u8 y) as -> by (intros y; rw /u8 Z.mod_mod //).
    rw testbit_u8; [dlia|]. rw Z.lor_spec. case_decide as Hd.
    + subst. rw Z.pow2_bits_true; [dlia|]. by rw orb_true_r.
    + rw Z.pow2_bits_false; [dlia|]. by rw orb_false_r.
  - rewrite -> decide_False; [done|]. intros ->. done.
Qed.
Lemma bit_set_clear d bi bj :
  bitmap_ok d → 0 ≤ bi < BPB → 0 ≤ bj < BPB →
  bit_set (clear_bit d bi) bj = if decide (bj = bi) then false else bit_set d bj.
Proof.
  rw /bitmap_ok /BPB /BSIZE. intros Hl Hi Hj. rw !bit_set_testbit; [lia..|].
  rw /clear_bit byte_at_insert; [rw Hl; dlia|]. rw /bit_mask Z.shiftl_1_l.
  destruct (decide (Z.to_nat (bj / 8) = Z.to_nat (bi / 8))) as [E|E].
  - assert (bj / 8 = bi / 8) as E8 by dlia. rw -E8.
    assert (∀ y, u8 (u8 y) = u8 y) as -> by (intros y; rw /u8 Z.mod_mod //).
    rw testbit_u8; [dlia|]. rw Z.land_spec Z.lnot_spec; [dlia|]. case_decide as Hd.
    + subst. rw Z.pow2_bits_true; [dlia|]. by rw andb_false_r.
    + rw Z.pow2_bits_false; [dlia|]. by rw andb_true_r.
  - rewrite -> decide_False; [done|]. intros ->. done.
Qed.
Lemma length_set_bit d bi : length (set_bit d bi) = length d.
Proof. by rw /set_bit length_insert. Qed.
Lemma length_clear_bit d bi : length (clear_bit d bi) = length d.
Proof. by rw /clear_bit length_insert. Qed.

(** The search finds the first clear bit below the end of the disk. *)
Lemma find_free_spec d b size k bi :
  match find_free d b size k bi with
  | Some j => bi ≤ j < bi + Z.of_nat k ∧ b + j < size ∧ bit_set d j = false ∧
      ∀ i, bi ≤ i < j → bit_set d i = true
  | None => ∀ i, bi ≤ i < bi + Z.of_nat k → b + i < size → bit_set d i = true
  end.
Proof.
  revert bi. induction k as [|k IH]; intros bi; cbn [find_free]; [lia|].
  destruct (Z.ltb_spec (b + bi) size) as [Hs|Hs]; cbn [negb]; [|lia].
  destruct (bit_set d bi) eqn:E.
  - specialize (IH (bi + 1)). destruct (find_free d b size k (bi + 1)) as [j|].
    + destruct IH as (I1 & I2 & I3 & I4). split; [lia|]. split; [done|]. split; [done|].
      intros i Hi. destruct (decide (i = bi)) as [->|]; [done|]. apply I4. lia.
    + intros i Hi Hs'. destruct (decide (i = bi)) as [->|]; [done|]. apply IH; lia.
  - split; [lia|]. split; [done|]. split; [done|]. lia.
Qed.

(** ** Steps *)

Section steps.
Context {S D : Type} `{!BlockStore S}.
Abbreviation fs := (@fstate S D).

Lemma st_Ok {A} (m : M S A) (s : fs) t a t' :
  m t = Ok (a, t') → st m (set_st t s) = Ok (a, set_st t' s).
Proof. rw /st /lift /=. by intros ->. Qed.
Lemma st_Ok' {A} (m : M S A) (s : fs) a t' :
  m (f_st s) = Ok (a, t') → st m s = Ok (a, set_st t' s).
Proof. rw /st /lift /=. by intros ->. Qed.

(** Between the operations nothing is changed without being logged. *)
Definition frep (s : fs) (held : gmap nat Z) (lg : gset Z) (v : Z → block) : Prop :=
  st_rep (f_st s) held ∅ lg v.

(** [bread], use of the data, [brelse]. *)
Lemma read_step (s : fs) held lg v n :
  frep s held lg v → 0 ≤ n < st_blocks → (∀ i, held !! i ≠ Some n) → (size held + size lg < nbuf)%nat →
  ∃ x t1 t2, st (st_bread 1 n) s = Ok (x, set_st t1 s) ∧ held !! x = None ∧
    st_rep t1 (<[x := n]> held) ∅ lg v ∧
    (∀ s' : fs, f_st s' = t1 → st (st_data x) s' = Ok (v n, s')) ∧
    (∀ s' : fs, f_st s' = t1 → st (st_brelse x) s' = Ok (tt, set_st t2 s')) ∧ st_rep t2 held ∅ lg v.
Proof.
  intros R Hn Hh Hsz. destruct (st_bread_ok _ _ _ _ _ _ R Hn Hh Hsz) as (x & t1 & E1 & Hx & R1).
  assert ((<[x := n]> held) !! x = Some n) as Lx by by rw lookup_insert_eq.
  destruct (st_brelse_ok _ _ _ _ _ _ _ R1 Lx) as (t2 & E2 & R2); [apply not_elem_of_empty|].
  rw delete_insert_id // in R2.
  exists x, t1, t2. split; [by apply st_Ok'|]. split; [done|]. split; [done|]. split; [|split; [|done]].
  - intros s' <-. rw (st_Ok' _ _ _ _ (st_data_ok _ _ _ _ _ _ _ R1 Lx)). by destruct s'.
  - intros s' <-. by apply st_Ok'.
Qed.

(** A held block is changed and logged. *)
Lemma write_step (s : fs) held lg v x n d :
  frep s held lg v → held !! x = Some n → st_home n → (size lg < st_cap)%nat →
  ∃ t1 t2, (∀ s' : fs, f_st s' = f_st s → st (st_store x d) s' = Ok (tt, set_st t1 s')) ∧
    (∀ s' : fs, f_st s' = t1 → st (st_log_write x) s' = Ok (tt, set_st t2 s')) ∧
    st_rep t2 held ∅ ({[n]} ∪ lg) (vset v n d).
Proof.
  intros R Hx Hn Hsz. destruct (st_store_ok _ _ _ _ _ _ _ d R Hx) as (t1 & E1 & R1).
  destruct (st_log_write_ok _ _ _ _ _ _ _ R1 Hx Hn Hsz) as (t2 & E2 & R2).
  replace ((({[n]} ∪ ∅) ∖ {[n]}) : gset Z) with (∅ : gset Z) in R2 by (apply leibniz_equiv; set_solver).
  exists t1, t2. split; [intros s' Es; apply st_Ok'; by rw Es|]. split; [|done]. intros s' <-. by apply st_Ok'.
Qed.

(** [bread], change of the data, [log_write], [brelse]. *)
Lemma update_step (s : fs) held lg v n d :
  frep s held lg v → st_home n → (∀ i, held !! i ≠ Some n) → (size held + size lg < nbuf)%nat →
  (size lg < st_cap)%nat →
  ∃ x t1 t2 t3 t4, st (st_bread 1 n) s = Ok (x, set_st t1 s) ∧
    (∀ s' : fs, f_st s' = t1 → st (st_data x) s' = Ok (v n, s')) ∧
    (∀ s' : fs, f_st s' = t1 → st (st_store x d) s' = Ok (tt, set_st t2 s')) ∧
    (∀ s' : fs, f_st s' = t2 → st (st_log_write x) s' = Ok (tt, set_st t3 s')) ∧
    (∀ s' : fs, f_st s' = t3 → st (st_brelse x) s' = Ok (tt, set_st t4 s')) ∧
    st_rep t4 held ∅ ({[n]} ∪ lg) (vset v n d).
Proof.
  intros R Hn Hh Hsz Hc. pose proof (st_home_blocks n Hn) as Hr.
  destruct (read_step s held lg v n R Hr Hh Hsz) as (x & t1 & _ & E1 & Hx & R1 & E2 & _ & _).
  assert ((<[x := n]> held) !! x = Some n) as Lx by by rw lookup_insert_eq.
  destruct (write_step (set_st t1 s) _ lg v x n d R1 Lx Hn Hc) as (t2 & t3 & E3 & E4 & R3).
  destruct (st_brelse_ok _ _ _ _ _ _ _ R3 Lx) as (t4 & E5 & R4); [apply not_elem_of_empty|].
  rw delete_insert_id // in R4. exists x, t1, t2, t3, t4. split; [done|]. split; [done|].
  split; [done|]. split; [done|]. split; [|done]. intros s' <-. by apply st_Ok'.
Qed.
End steps.

(** Take the next step on the block store with its lemma [E]. *)
Ltac fgo E := erewrite bind_Ok; [|apply E; reflexivity]; cbn beta.

(** ** Block allocation *)

Section alloc.
Context {S D : Type} `{!BlockStore S} (sb : superblock).
Abbreviation fs := (@fstate S D).

(** The disk layout that the super block describes: the bitmap covers the disk, and the
    bitmap and the inodes are in blocks that can be logged. *)
Record geom : Prop := {
  ge_size : 0 < sb_size sb ≤ st_blocks;
  ge_blocks : 1 < st_blocks < 2147483648;
  ge_super : st_home 1;
  ge_bmap : 0 ≤ sb_bmapstart sb < 2147483648;
  ge_istart : 0 ≤ sb_inodestart sb < 2147483648;
  ge_ninodes : 0 ≤ sb_ninodes sb < 2147483648;
  ge_bitmap b : 0 ≤ b < sb_size sb → st_home (BBLOCK b sb);
  ge_inode i : 0 ≤ i < sb_ninodes sb → st_home (IBLOCK i sb);
  ge_disj b i : 0 ≤ b < sb_size sb → 0 ≤ i < sb_ninodes sb → BBLOCK b sb ≠ IBLOCK i sb;
  ge_super_b b : 0 ≤ b < sb_size sb → BBLOCK b sb ≠ 1;
  ge_super_i i : 0 ≤ i < sb_ninodes sb → IBLOCK i sb ≠ 1;
}.

Definition used (v : Z → block) (b : Z) : Prop := bit_set (v (BBLOCK b sb)) (b mod BPB) = true.

(** Blocks that hold the file system's own data. *)
Definition meta (k : Z) : Prop :=
  k = 0 ∨ k = 1 ∨ (∃ b, 0 ≤ b < sb_size sb ∧ k = BBLOCK b sb) ∨ (∃ i, 0 ≤ i < sb_ninodes sb ∧ k = IBLOCK i sb).

(** The contents of a file system's disk: whole blocks, and every block that is not
    free to be allocated is marked. *)
Record fswf (v : Z → block) : Prop := {
  fw_len k : st_home k → length (v k) = Z.to_nat BSIZE;
  fw_free b : 0 ≤ b < sb_size sb → ¬ used v b → st_home b ∧ ¬ meta b;
  fw_sb : decode_sb (v 1) = sb;
}.

Lemma BBLOCK_eq b : geom → 0 ≤ b < sb_size sb → BBLOCK b sb = b / BPB + sb_bmapstart sb.
Proof.
  intros G Hb. pose proof (ge_bmap G). pose proof (ge_blocks G). pose proof (ge_size G).
  rw /BBLOCK (u32_small b); [lia|]. rw /BPB /BSIZE. apply u32_small. dlia.
Qed.
Lemma IBLOCK_eq i : geom → 0 ≤ i < sb_ninodes sb → IBLOCK i sb = i / 8 + sb_inodestart sb.
Proof.
  intros G Hi. pose proof (ge_istart G). pose proof (ge_ninodes G).
  rw /IBLOCK (u32_small i); [lia|]. change IPB with 8. apply u32_small. dlia.
Qed.
Lemma BBLOCK_meta b : 0 ≤ b < sb_size sb → meta (BBLOCK b sb).
Proof. intros Hb. do 2 right. left. by exists b. Qed.
Lemma IBLOCK_meta i : 0 ≤ i < sb_ninodes sb → meta (IBLOCK i sb).
Proof. intros Hi. do 3 right. by exists i. Qed.

(** What marking block [b] and changing its contents does to the bitmap. *)
Definition alloc_view (v : Z → block) (b : Z) : Z → block :=
  vset (vset v (BBLOCK b sb) (set_bit (v (BBLOCK b sb)) (b mod BPB))) b (replicate (Z.to_nat BSIZE) 0).

Lemma used_vset_data v b n d : ¬ meta n → 0 ≤ b < sb_size sb → used (vset v n d) b ↔ used v b.
Proof. intros Hn Hb. rw /used vset_ne //. intros E. apply Hn. rw -E. by apply BBLOCK_meta. Qed.

Lemma mod_BPB b : 0 ≤ b mod BPB < BPB.
Proof. rw /BPB /BSIZE. apply Z.mod_pos_bound. lia. Qed.

Lemma used_alloc v b b' :
  geom → fswf v → 0 ≤ b < sb_size sb → 0 ≤ b' < sb_size sb → ¬ used v b →
  used (alloc_view v b) b' ↔ b' = b ∨ used v b'.
Proof.
  intros G W Hb Hb' Hu. destruct (fw_free _ W b Hb Hu) as [_ Hm]. rw /alloc_view used_vset_data //.
  rw /used. destruct (decide (BBLOCK b' sb = BBLOCK b sb)) as [E|E].
  - rw E vset_eq bit_set_set; [|apply mod_BPB|apply mod_BPB|].
    { apply (fw_len _ W). by apply ge_bitmap. }
    rw !BBLOCK_eq // in E. destruct (decide (b' = b)) as [->|Hne]; [rewrite -> decide_True; naive_solver|].
    rewrite -> decide_False; [naive_solver|]. intros Em. apply Hne.
    rw (Z_div_mod_eq_full b' BPB) (Z_div_mod_eq_full b BPB). lia.
  - rw vset_ne //. naive_solver.
Qed.

Lemma fswf_alloc v b :
  geom → fswf v → 0 ≤ b < sb_size sb → ¬ used v b → fswf (alloc_view v b).
Proof.
  intros G W Hb Hu. destruct (fw_free _ W b Hb Hu) as [Hh Hm]. split.
  - intros k Hk. rw /alloc_view. destruct (decide (k = b)) as [->|Hk1]; [by rw vset_eq length_replicate|].
    rw vset_ne //. destruct (decide (k = BBLOCK b sb)) as [->|Hk2]; [|rw vset_ne //; by apply W].
    rw vset_eq length_set_bit. by apply W.
  - intros b' Hb' Hu'. apply (fw_free _ W); [done|]. intros H. apply Hu'. apply used_alloc; try done. by right.
  - rw /alloc_view vset_ne; [intros <-; apply Hm; by right; left|].
    rw vset_ne; [|apply W]. by apply not_eq_sym, ge_super_b.
Qed.

(** The blocks a caller of [balloc] may hold. *)
Definition held_ok (v : Z → block) (held : gmap nat Z) : Prop :=
  ∀ i n, held !! i = Some n → 0 ≤ n < sb_size sb ∧ used v n ∧ ¬ meta n.

Lemma bzero_ok (s : fs) held lg v b :
  frep s held lg v → st_home b → (∀ i, held !! i ≠ Some b) → geom →
  (size held + size lg < nbuf)%nat → (size lg < st_cap)%nat →
  ∃ t, bzero 1 b s = Ok (tt, set_st t s) ∧
    st_rep t held ∅ ({[b]} ∪ lg) (vset v b (replicate (Z.to_nat BSIZE) 0)).
Proof.
  intros R Hb Hh G Hsz Hc. pose proof (st_home_blocks b Hb). pose proof (ge_blocks G).
  destruct (update_step s held lg v b (replicate (Z.to_nat BSIZE) 0)) as (x & t1 & t2 & t3 & t4 & E1 & _ & E3 & E4 & E5 & R');
    try done.
  exists t4. split; [|done]. rw /bzero u32_small; [lia|]. mgo E1. fgo E3. fgo E4. by rw E5.
Qed.

Lemma balloc_loop_ok k : ∀ (s : fs) held lg v b f,
  geom → fswf v → frep s held lg v → f_sb s = sb → held_ok v held →
  b mod BPB = 0 → 0 ≤ b → sb_size sb < b + BPB * Z.of_nat k → b ≤ f < sb_size sb → ¬ used v f →
  (∀ i, 0 ≤ i < b → used v i) →
  (1 + size held + size lg < nbuf)%nat → (1 + size lg < st_cap)%nat →
  ∃ a t, balloc_loop 1 k b s = Ok (a, set_st t s) ∧ 0 ≤ a < sb_size sb ∧ ¬ used v a ∧
    (∀ i, 0 ≤ i < a → used v i) ∧ st_rep t held ∅ ({[a]} ∪ ({[BBLOCK a sb]} ∪ lg)) (alloc_view v a).
Proof.
  induction k as [|k IH]; intros s held lg v b f G W R Hsb Hheld Hb Hb0 Hk Hf Hfu Hlow Hsz Hc.
  { lia. }
  assert (0 < BPB) as HB by (rw /BPB /BSIZE; lia). assert (0 ≤ b < sb_size sb) as Hbs by lia.
  cbn [balloc_loop]. mget. rw Hsb. rewrite -> (proj2 (Z.ltb_lt _ _)) by lia. cbn [negb].
  assert (∀ i, held !! i ≠ Some (BBLOCK b sb)) as Hnh.
  { intros i Hi. destruct (Hheld i _ Hi) as (_ & _ & Hm). by apply Hm, BBLOCK_meta. }
  pose proof (ge_bitmap G b Hbs) as Hhome.
  assert (∀ i, 0 ≤ i < BPB → b + i < sb_size sb → BBLOCK (b + i) sb = BBLOCK b sb ∧ (b + i) mod BPB = i) as Hbi.
  { intros i Hi Hs. rw (BBLOCK_eq b) //. rw BBLOCK_eq //; [lia|]. clear -Hb Hi. rw /BPB /BSIZE in Hb.
    rw /BPB /BSIZE in Hi. rw /BPB /BSIZE. split; dlia. }
  assert (∀ i, 0 ≤ i < BPB → b + i < sb_size sb → bit_set (v (BBLOCK b sb)) i = true ↔ used v (b + i)) as Hused.
  { intros i Hi Hs. rw /used. by destruct (Hbi i Hi Hs) as [-> ->]. }
  pose proof (find_free_spec (v (BBLOCK b sb)) b (sb_size sb) (Z.to_nat BPB) 0) as Hspec.
  destruct (find_free _ _ _ _ _) as [bi|] eqn:Ef.
  - destruct Hspec as (I1 & I2 & I3 & I4). rw Z2Nat.id in I1; [lia|]. destruct (Hbi bi) as [Eb Em]; [lia|lia|].
    assert (¬ used v (b + bi)) as Hau by (rw -Hused; [lia|lia|congruence]).
    destruct (update_step s held lg v (BBLOCK b sb) (set_bit (v (BBLOCK b sb)) bi)) as
      (x & t1 & t2 & t3 & t4 & E1 & E2 & E3 & E4 & E5 & R'); [done|done|done|lia|lia|].
    destruct (fw_free _ W (b + bi)) as [Hah Ham]; [lia|done|].
    destruct (bzero_ok (set_st t4 s) held ({[BBLOCK b sb]} ∪ lg) _ (b + bi) R' Hah) as (t5 & E6 & R'').
    { intros i Hi. destruct (Hheld i _ Hi) as (_ & Hu' & _). done. }
    { done. }
    { pose proof (size_union_singleton lg (BBLOCK b sb)). lia. }
    { pose proof (size_union_singleton lg (BBLOCK b sb)). lia. }
    exists (b + bi), t5. split; [|split; [lia|split; [done|split]]].
    + mgo E1. fgo E2. rw Ef. fgo E3. fgo E4. fgo E5. mgo E6. done.
    + intros i Hi. destruct (decide (i < b)); [by apply Hlow; lia|].
      replace i with (b + (i - b)) by lia. apply Hused; [lia|lia|]. apply I4. lia.
    + rw /alloc_view Eb Em. done.
  - destruct (read_step s held lg v (BBLOCK b sb)) as (x & t1 & t2 & E1 & _ & _ & E2 & E3 & R'); [done|by apply st_home_blocks|done|lia|].
    assert (b + BPB ≤ f) as Hf'.
    { destruct (decide (b + BPB ≤ f)); [done|]. exfalso. apply Hfu. replace f with (b + (f - b)) by lia.
      apply Hused; [lia|lia|]. apply Hspec; lia. }
    destruct (IH (set_st t2 s) held lg v (b + BPB) f) as (a & t & E & Ha & Hau & Hlow' & R''); try done; try lia.
    + rw -Z.add_mod_idemp_r; [lia|]. rw Z.mod_same; [lia|]. by rw Z.add_0_r.
    + intros i Hi. destruct (decide (i < b)); [by apply Hlow; lia|]. replace i with (b + (i - b)) by lia.
      apply Hused; [lia|lia|]. apply Hspec; lia.
    + exists a, t. split; [|done]. mgo E1. fgo E2. rw Ef. fgo E3. exact E.
Qed.

Lemma balloc_ok (s : fs) held lg v f :
  geom → fswf v → frep s held lg v → f_sb s = sb → held_ok v held → 0 ≤ f < sb_size sb → ¬ used v f →
  (1 + size held + size lg < nbuf)%nat → (1 + size lg < st_cap)%nat →
  ∃ a t, balloc 1 s = Ok (a, set_st t s) ∧ 0 ≤ a < sb_size sb ∧ ¬ used v a ∧
    (∀ i, 0 ≤ i < a → used v i) ∧ st_rep t held ∅ ({[a]} ∪ ({[BBLOCK a sb]} ∪ lg)) (alloc_view v a).
Proof.
  intros G W R Hsb Hh Hf Hfu Hsz Hc. rw /balloc. mget. rw Hsb.
  apply (balloc_loop_ok _ s held lg v 0 f); try done; try lia. rw /BPB /BSIZE. dlia.
Qed.
End alloc.
