(* ===== verification/FsFile.v ===== *)
(** * File contents

    A file's contents as a function from block numbers to blocks, unallocated blocks
    being zero; [bmap] never changes them, [readi] reads them and [writei] changes
    exactly the bytes it is given. *)

From S2P Require Import Prelude Params Bytes Bio BioSpec Log Tx Fs FsSpec.

Section file.
Context {S D : Type} `{!BlockStore S} (sb : superblock).
Abbreviation fs := (@fstate S D).

(** ** The blocks of an inode *)

Definition zeros : block := replicate (Z.to_nat BSIZE) 0.
Definition ind (p : inode) : Z := i_addrs p !!! 12%nat.
(** The address of block [bn], 0 when there is none. *)
Definition iblk (v : Z → block) (p : inode) (bn : Z) : Z :=
  if bn <? NDIRECT then i_addrs p !!! Z.to_nat bn
  else if ind p =? 0 then 0 else get32 (v (ind p)) (4 * Z.to_nat (bn - NDIRECT)).
Definition fdata (v : Z → block) (p : inode) (bn : Z) : block :=
  if iblk v p bn =? 0 then zeros else v (iblk v p bn).

(** A block that belongs to a file. *)
Record dok (v : Z → block) (b : Z) : Prop := {
  do_range : 0 < b < sb_size sb;
  do_used : used sb v b;
  do_meta : ¬ meta sb b;
  do_home : st_home b;
}.

(** The blocks of an inode are allocated and all different. *)
Record iwf (v : Z → block) (p : inode) : Prop := {
  iw_len : length (i_addrs p) = 13%nat;
  iw_dev : i_dev p = 1;
  iw_ind : ind p ≠ 0 → dok v (ind p);
  iw_data bn : 0 ≤ bn < MAXFILE → iblk v p bn ≠ 0 → dok v (iblk v p bn);
  iw_inj bn bn' : 0 ≤ bn < MAXFILE → 0 ≤ bn' < MAXFILE → iblk v p bn ≠ 0 → iblk v p bn = iblk v p bn' → bn = bn';
  iw_ne bn : 0 ≤ bn < MAXFILE → ind p ≠ 0 → iblk v p bn ≠ ind p;
}.

(** The inode [p'] has block [a] at [bn] where [p] had none; everything else it has from
    [p]. *)
Lemma iwf_add v p v' p' bn a :
  iwf v p → 0 ≤ bn < MAXFILE → iblk v p bn = 0 → ¬ used sb v a → 0 ≤ a < sb_size sb →
  length (i_addrs p') = 13%nat → i_dev p' = 1 → ind p' = ind p →
  (∀ b, 0 ≤ b < MAXFILE → iblk v' p' b = if decide (b = bn) then a else iblk v p b) →
  (∀ k, dok v k → dok v' k) → dok v' a → (∀ k, dok v k → k ≠ ind p → v' k = v k) → v' a = zeros →
  iwf v' p' ∧ ∀ b, 0 ≤ b < MAXFILE → fdata v' p' b = fdata v p b.
Proof.
  intros W Hbn H0 Hu Ha Hlen Hdev Hind Hblk Hdok Hadok Hsame Hz.
  assert (∀ k, dok v k → k ≠ a) as Hne by (intros k Hk ->; by apply Hu, Hk).
  assert (a ≠ 0) as Ha0 by (destruct Hadok as [[? ?] _ _ _]; lia).
  split; [split; try done|].
  - rw Hind. intros Hi. by apply Hdok, W.
  - intros b Hb. rw Hblk //. case_decide; [done|]. intros Hb0. by apply Hdok, W.
  - intros b b' Hb Hb'. rw !Hblk //. repeat case_decide; subst; try done.
    + intros _ E. exfalso. destruct (decide (iblk v p b' = 0)) as [E0|E0]; [congruence|].
      by apply (Hne (iblk v p b')); [apply W|].
    + intros E0 E. exfalso. by apply (Hne (iblk v p b)); [apply W|].
    + by apply W.
  - intros b Hb. rw Hind Hblk //. intros Hi. case_decide; [|by apply W].
    intros E. by apply (Hne (ind p)); [apply W|].
  - intros b Hb. rw /fdata Hblk //. case_decide.
    + subst b. rewrite -> (proj2 (Z.eqb_neq _ _)) by done. by rw H0.
    + destruct (Z.eqb_spec (iblk v p b) 0) as [E|E]; [done|]. apply Hsame; [by apply W|].
      destruct (decide (ind p = 0)) as [Ei|Ei]; [by rw Ei|]. by apply W.
Qed.

(** ** Allocation *)

Lemma alloc_other v a k : geom sb → fswf sb v → 0 ≤ a < sb_size sb → ¬ used sb v a → dok v k → alloc_view sb v a k = v k.
Proof.
  intros G W Ha Hu [K1 K2 K3 K4]. rw /alloc_view !vset_ne //.
  - intros ->. done.
  - intros ->. apply K3. by apply BBLOCK_meta.
Qed.
Lemma alloc_zero v a : alloc_view sb v a a = zeros.
Proof. by rw /alloc_view vset_eq. Qed.
Lemma alloc_dok v a k :
  geom sb → fswf sb v → 0 ≤ a < sb_size sb → ¬ used sb v a → dok v k ∨ k = a → dok (alloc_view sb v a) k.
Proof.
  intros G W Ha Hu Hk. destruct (fw_free _ _ W a Ha Hu) as [Hh Hm].
  assert (a ≠ 0) as Ha0 by (intros ->; apply Hm; by left).
  destruct Hk as [[K1 K2 K3 K4]| ->]; split; try done; try lia; apply used_alloc; try done; try lia; first [by right|by left].
Qed.

(** Allocating a block changes no inode. *)
Lemma iblk_ext v v' p bn : (ind p ≠ 0 → v' (ind p) = v (ind p)) → iblk v' p bn = iblk v p bn.
Proof. intros H. rw /iblk. destruct (bn <? NDIRECT); [done|]. destruct (Z.eqb_spec (ind p) 0); [done|]. by rw H. Qed.
Lemma iwf_ext v v' p :
  iwf v p → (∀ k, dok v k → dok v' k) → (∀ k, dok v k → v' k = v k) →
  iwf v' p ∧ (∀ b, iblk v' p b = iblk v p b) ∧ ∀ b, 0 ≤ b < MAXFILE → fdata v' p b = fdata v p b.
Proof.
  intros W Hd He. assert (∀ b, iblk v' p b = iblk v p b) as Hb by (intros b; apply iblk_ext; intros ?; by apply He, W).
  split; [|split; [done|]].
  - destruct W as [W1 W2 W3 W4 W5 W6]. split; try done.
    + intros Hi. by apply Hd, W3.
    + intros b Hb'. rw Hb. intros H0. by apply Hd, W4.
    + intros b b' H1 H2. rw !Hb. by apply W5.
    + intros b Hb'. rw Hb. by apply W6.
  - intros b Hb'. rw /fdata Hb. destruct (Z.eqb_spec (iblk v p b) 0); [done|]. by apply He, W.
Qed.

(** A new direct block. *)
Lemma alloc_direct v p a bn :
  geom sb → fswf sb v → iwf v p → 0 ≤ a < sb_size sb → ¬ used sb v a → 0 ≤ bn < NDIRECT → iblk v p bn = 0 →
  let v' := alloc_view sb v a in let p' := set_iaddrs (<[Z.to_nat bn := a]> (i_addrs p)) p in
  iwf v' p' ∧ (∀ b, 0 ≤ b < MAXFILE → iblk v' p' b = if decide (b = bn) then a else iblk v p b) ∧
  ∀ b, 0 ≤ b < MAXFILE → fdata v' p' b = fdata v p b.
Proof.
  intros G W I Ha Hu Hbn H0 v' p'. rw /NDIRECT in Hbn. pose proof (iw_len _ _ I) as Hlen.
  assert (ind p' = ind p) as Hind by (rw /ind /p' /= list_lookup_total_insert_ne //; lia).
  assert (∀ b, 0 ≤ b < MAXFILE → iblk v' p' b = if decide (b = bn) then a else iblk v p b) as Hblk.
  { intros b Hb. rw /iblk /NDIRECT Hind. destruct (Z.ltb_spec b 12).
    - rw /p' /=. case_decide; [subst; rw list_lookup_total_insert_eq //; lia|].
      rw list_lookup_total_insert_ne //. lia.
    - rewrite -> decide_False by lia. destruct (Z.eqb_spec (ind p) 0); [done|]. f_equal.
      by apply alloc_other, I. }
  destruct (iwf_add v p v' p' bn a) as [I' F']; try done.
  - rw /MAXFILE /NDIRECT /NINDIRECT /BSIZE. change (512 / 4) with 128. lia.
  - by rw /p' /= length_insert.
  - apply I.
  - intros k Hk. apply alloc_dok; try done. by left.
  - apply alloc_dok; try done. by right.
  - intros k Hk _. by apply alloc_other.
  - apply alloc_zero.
Qed.

Lemma get32_zeros o : get32 zeros o = 0.
Proof.
  assert (∀ k, byte_at zeros k = 0) as H.
  { intros k. rw /byte_at /zeros. destruct (decide (k < Z.to_nat BSIZE)%nat); [rw lookup_replicate_2 //|].
    rw lookup_ge_None_2 //. rw length_replicate. lia. }
  by rw /get32 /get16 !H.
Qed.

(** A new indirect block. *)
Lemma alloc_indirect v p a :
  geom sb → fswf sb v → iwf v p → 0 ≤ a < sb_size sb → ¬ used sb v a → ind p = 0 →
  let v' := alloc_view sb v a in let p' := set_iaddrs (<[12%nat := a]> (i_addrs p)) p in
  iwf v' p' ∧ ind p' = a ∧ a ≠ 0 ∧ (∀ b, iblk v' p' b = iblk v p b) ∧
  ∀ b, 0 ≤ b < MAXFILE → fdata v' p' b = fdata v p b.
Proof.
  intros G W I Ha Hu H0 v' p'. pose proof (iw_len _ _ I) as Hlen.
  assert (dok v' a) as Hda by (apply alloc_dok; try done; by right).
  assert (a ≠ 0) as Ha0 by (destruct Hda as [[? ?] _ _ _]; lia).
  assert (ind p' = a) as Hind by (rw /ind /p' /= list_lookup_total_insert_eq //; lia).
  assert (∀ b, iblk v' p' b = iblk v p b) as Hblk.
  { intros b. rw /iblk Hind H0 /=. destruct (Z.ltb_spec b NDIRECT) as [Hb|Hb].
    - rw /p' /=. rw list_lookup_total_insert_ne //. rw /NDIRECT in Hb. lia.
    - rewrite -> (proj2 (Z.eqb_neq _ _)) by done. by rw /v' alloc_zero get32_zeros. }
  assert (∀ k, dok v k → dok v' k) as Hdok by (intros k Hk; apply alloc_dok; try done; by left).
  assert (∀ k, dok v k → k ≠ a) as Hne by (intros k Hk ->; by apply Hu, Hk).
  split; [split|split; [done|split; [done|split; [done|]]]].
  - by rw /p' /= length_insert.
  - apply I.
  - by rw Hind.
  - intros b Hb. rw Hblk. intros E. by apply Hdok, I.
  - intros b b' Hb Hb'. rw !Hblk. by apply I.
  - intros b Hb _. rw Hblk Hind. destruct (decide (iblk v p b = 0)) as [->|E]; [done|]. by apply Hne, I.
  - intros b Hb. rw /fdata Hblk. destruct (Z.eqb_spec (iblk v p b) 0); [done|]. by apply alloc_other, I.
Qed.

(** Changing the contents of a file's block. *)
Lemma fswf_data v k d : geom sb → fswf sb v → dok v k → length d = Z.to_nat BSIZE → fswf sb (vset v k d).
Proof.
  intros G W Hk Hd. split.
  - intros n Hn. rw /vset. case_decide; [done|by apply W].
  - intros b Hb. rw used_vset_data //; [apply Hk|]. by apply W.
  - rw vset_ne; [|apply W]. intros <-. apply (do_meta _ _ Hk). by right; left.
Qed.
Lemma dok_data v k d b : dok v k → dok (vset v k d) b ↔ dok v b.
Proof.
  intros Hk. split; intros [B1 B2 B3 B4]; split; try done.
  - apply (used_vset_data sb v b k d); [apply Hk|lia|done].
  - apply (used_vset_data sb v b k d); [apply Hk|lia|done].
Qed.

Lemma MAXFILE_eq : MAXFILE = 140.
Proof. done. Qed.

(** A new block in the indirect block. *)
Lemma alloc_entry v p a bn :
  geom sb → fswf sb v → iwf v p → 0 ≤ a < sb_size sb → ¬ used sb v a → NDIRECT ≤ bn < MAXFILE → ind p ≠ 0 →
  iblk v p bn = 0 →
  let v1 := alloc_view sb v a in
  let v' := vset v1 (ind p) (put32 (v1 (ind p)) (4 * Z.to_nat (bn - NDIRECT)) a) in
  fswf sb v' ∧ iwf v' p ∧ (∀ b, 0 ≤ b < MAXFILE → iblk v' p b = if decide (b = bn) then a else iblk v p b) ∧ (∀ b, 0 ≤ b < MAXFILE → fdata v' p b = fdata v p b) ∧
  ∀ k, dok v k → dok v' k.
Proof.
  intros G W I Ha Hu Hbn Hi H0 v1 v'. rw /NDIRECT MAXFILE_eq in Hbn. pose proof (iw_ind _ _ I Hi) as Hdi.
  pose proof (fswf_alloc sb v a G W Ha Hu) as W1.
  assert (∀ k, dok v k → dok v1 k) as Hd1 by (intros k Hk; apply alloc_dok; try done; by left).
  assert (dok v1 a) as Hda by (apply alloc_dok; try done; by right).
  assert (v1 (ind p) = v (ind p)) as E1 by by apply alloc_other.
  assert (length (v1 (ind p)) = Z.to_nat BSIZE) as Hl.
  { apply W1. apply Hdi. }
  rw /BSIZE in Hl.
  assert (a ≠ ind p) as Hai by (intros E; apply Hu; rw E; apply Hdi).
  assert (∀ k, dok v k → dok v' k) as Hd' by (intros k Hk; apply dok_data; by apply Hd1).
  assert (∀ b, 0 ≤ b < MAXFILE → iblk v' p b = if decide (b = bn) then a else iblk v p b) as Hblk.
  { intros b Hb. rw MAXFILE_eq in Hb. rw /iblk /NDIRECT. destruct (Z.ltb_spec b 12) as [Hb'|Hb'].
    { by rewrite -> decide_False by lia. }
    rewrite -> (proj2 (Z.eqb_neq _ _)) by done. rw /v' vset_eq /NDIRECT. case_decide as Hd.
    - subst b. rw get32_put32_eq; [lia|]. apply u32_small. pose proof (ge_size _ G). pose proof (ge_blocks _ G). lia.
    - rw get32_put32_ne; [lia|lia|]. by rw E1. }
  split; [|split; [|split; [|split]]].
  - apply fswf_data; [done|done|by apply Hd1|]. by rw length_put32.
  - destruct (iwf_add v p v' p bn a) as [I' _]; try done; try apply I; [rw MAXFILE_eq; lia|apply dok_data; [by apply Hd1|done]| |].
    + intros k Hk Hki. rw /v' vset_ne //. by apply alloc_other.
    + rw /v' vset_ne //. apply alloc_zero.
  - done.
  - destruct (iwf_add v p v' p bn a) as [_ F']; try done; try apply I; [rw MAXFILE_eq; lia|apply dok_data; [by apply Hd1|done]| |].
    + intros k Hk Hki. rw /v' vset_ne //. by apply alloc_other.
    + rw /v' vset_ne //. apply alloc_zero.
  - done.
Qed.

(** ** Free blocks *)

#[global] Instance used_dec v b : Decision (used sb v b).
Proof. rw /used. apply _. Defined.
Definition nfree (v : Z → block) : nat := length (filter (λ b, ¬ used sb v b) (seqZ 0 (sb_size sb))).

Lemma nfree_pos v : (0 < nfree v)%nat → ∃ b, 0 ≤ b < sb_size sb ∧ ¬ used sb v b.
Proof.
  rw /nfree. destruct (filter _ _) as [|b l] eqn:E; simpl; [lia|]. intros _. exists b.
  assert (b ∈ filter (λ b, ¬ used sb v b) (seqZ 0 (sb_size sb))) as Hb by (rw E; apply elem_of_cons; by left).
  apply list_elem_of_filter in Hb as [Hu Hb%elem_of_seqZ]. split; [lia|done].
Qed.
Lemma nfree_ext v v' : (∀ b, 0 ≤ b < sb_size sb → used sb v' b ↔ used sb v b) → nfree v' = nfree v.
Proof.
  intros H. rw /nfree. apply Permutation_length, NoDup_Permutation; [apply NoDup_filter, NoDup_seqZ..|].
  intros b. rw !list_elem_of_filter elem_of_seqZ. split; intros [Hu Hb]; (split; [|done]); rw H in Hu |- *; try lia; done.
Qed.
Lemma nfree_alloc v a :
  geom sb → fswf sb v → 0 ≤ a < sb_size sb → ¬ used sb v a → nfree v = Datatypes.S (nfree (alloc_view sb v a)).
Proof.
  intros G W Ha Hu. rw /nfree.
  change (Datatypes.S (length ?l)) with (length (a :: l)). apply Permutation_length, NoDup_Permutation.
  - apply NoDup_filter, NoDup_seqZ.
  - apply NoDup_cons. split; [|apply NoDup_filter, NoDup_seqZ]. rw list_elem_of_filter. intros [Hn _].
    apply Hn. apply used_alloc; try done. by left.
  - intros b. rw elem_of_cons !list_elem_of_filter elem_of_seqZ. split.
    + intros [Hb Hr]. destruct (decide (b = a)) as [->|Hne]; [by left|right]. split; [|done].
      rewrite -> (used_alloc sb v a b) by (done || lia). by intros [?|?].
    + intros [->|[Hb Hr]]; [split; [done|lia]|]. split; [|done]. rewrite -> (used_alloc sb v a b) in Hb by (done || lia). tauto.
Qed.

(** ** bmap *)

(** What [bmap] does: the file's contents stay, block [bn] is there, and at most two
    blocks have been allocated. *)
Record bmapped (v : Z → block) (p : inode) (lg : gset Z) (bn : Z) (v' : Z → block) (p' : inode) (lg' : gset Z) : Prop := {
  bm_fs : fswf sb v';
  bm_iwf : iwf v' p';
  bm_blk : iblk v' p' bn ≠ 0;
  bm_data b : 0 ≤ b < MAXFILE → fdata v' p' b = fdata v p b;
  bm_p : p' = set_iaddrs (i_addrs p') p;
  bm_lg : (size lg' ≤ size lg + 5)%nat;
  bm_free : (nfree v ≤ nfree v' + 2)%nat;
  bm_keep b : 0 ≤ b < MAXFILE → iblk v p b ≠ 0 → iblk v' p' b = iblk v p b;
  bm_dok k : dok v k → dok v' k;
  bm_frame k : dok v k → k ≠ ind p → v' k = v k;
  bm_meta i : 0 ≤ i < sb_ninodes sb → v' (IBLOCK i sb) = v (IBLOCK i sb);
}.

Lemma alloc_inode v a i :
  geom sb → fswf sb v → 0 ≤ a < sb_size sb → ¬ used sb v a → 0 ≤ i < sb_ninodes sb →
  alloc_view sb v a (IBLOCK i sb) = v (IBLOCK i sb).
Proof.
  intros G W Ha Hu Hi. destruct (fw_free _ _ W a Ha Hu) as [_ Hm]. rw /alloc_view !vset_ne //.
  - intros E. apply Hm. rw -E. by apply IBLOCK_meta.
  - by apply not_eq_sym, ge_disj.
Qed.

Lemma updi_ok (s : fs) ip f :
  (ip < length (f_inode s))%nat →
  updi ip f s = Ok (tt, set_inodes (<[ip := f (f_inode s !!! ip)]> (f_inode s)) s).
Proof.
  intros Hi. rw /updi /modify. do 2 f_equal. f_equal. apply list_alter_insert_Some.
  by apply list_lookup_lookup_total_lt.
Qed.
Lemma set_inodes_id (s : fs) ip :
  (ip < length (f_inode s))%nat → set_inodes (<[ip := f_inode s !!! ip]> (f_inode s)) s = s.
Proof. intros Hi. destruct s. rw /set_inodes /=. f_equal. apply list_insert_id. by apply list_lookup_lookup_total_lt. Qed.

Lemma set_inodes_set_st (s : fs) ip :
  (ip < length (f_inode s))%nat → set_inodes (<[ip := f_inode s !!! ip]> (f_inode s)) (set_st (f_st s) s) = s.
Proof. intros Hi. destruct s. exact (set_inodes_id _ ip Hi). Qed.

Lemma held_ok_empty v : held_ok sb v ∅.
Proof. intros i n. by rw lookup_empty. Qed.
Lemma held_ok_single v x n : dok v n → held_ok sb v (<[x := n]> ∅).
Proof.
  intros [H1 H2 H3 H4] i m. destruct (decide (i = x)) as [->|]; [|by rw lookup_insert_ne // lookup_empty].
  rw lookup_insert_eq. intros [= <-]. split; [lia|done].
Qed.

(** [bmap] of a block that is there. *)
Lemma bmap_hit (s : fs) ip lg v bn :
  let p := f_inode s !!! ip in
  geom sb → fswf sb v → frep s ∅ lg v → (ip < length (f_inode s))%nat → iwf v p → 0 ≤ bn < MAXFILE →
  iblk v p bn ≠ 0 → (size lg < nbuf)%nat →
  ∃ t, bmap ip bn s = Ok (iblk v p bn, set_st t s) ∧ st_rep t ∅ ∅ lg v.
Proof.
  intros p G W R Hip I Hbn H0 Hsz. rw /bmap /geti. mget. rw -/p. cbn [id]. rw /iblk in H0 |- *.
  destruct (Z.ltb_spec bn NDIRECT) as [Hd|Hd].
  { rewrite -> (proj2 (Z.eqb_neq _ _)) by done. exists (f_st s). split; [by destruct s|done]. }
  destruct (Z.eqb_spec (ind p) 0) as [Hi|Hi]; [done|].
  rewrite -> (proj2 (Z.ltb_lt _ _)) by (rw MAXFILE_eq in Hbn; rw /NDIRECT /NINDIRECT /BSIZE; change (512 / 4) with 128; lia).
  change (i_addrs p !!! Z.to_nat NDIRECT) with (ind p). rewrite -> (proj2 (Z.eqb_neq _ _)) by done. mget.
  destruct (read_step s ∅ lg v (ind p)) as (x & t1 & t2 & E1 & _ & _ & E2 & E3 & R'); [done| |by intros i; rw lookup_empty|by rw map_size_empty|].
  { apply st_home_blocks. by apply I. }
  rw (iw_dev _ _ I). mgo E1. fgo E2. rewrite -> (proj2 (Z.eqb_neq _ _)) by done. mget. fgo E3.
  exists t2. by split.
Qed.

(** [bmap] of a direct block that is not there. *)
Lemma bmap_direct (s : fs) ip lg v bn :
  let p := f_inode s !!! ip in
  geom sb → fswf sb v → frep s ∅ lg v → f_sb s = sb → (ip < length (f_inode s))%nat → iwf v p →
  0 ≤ bn < NDIRECT → iblk v p bn = 0 → (0 < nfree v)%nat → (1 + size lg < st_cap)%nat → (1 + size lg < nbuf)%nat →
  ∃ t v' p' lg', bmap ip bn s = Ok (iblk v' p' bn, set_inodes (<[ip := p']> (f_inode s)) (set_st t s)) ∧
    st_rep t ∅ ∅ lg' v' ∧ bmapped v p lg bn v' p' lg'.
Proof.
  intros p G W R Hsb Hip I Hbn H0 Hfree Hc Hsz. destruct (nfree_pos v Hfree) as (f & Hf & Hfu).
  destruct (balloc_ok sb s ∅ lg v f) as (a & t & E & Ha & Hau & _ & R');
    [done..|apply held_ok_empty|done|done|rw map_size_empty; lia|done|].
  destruct (alloc_direct v p a bn G W I Ha Hau Hbn H0) as (I' & Hblk & Hdata).
  set (p' := set_iaddrs (<[Z.to_nat bn := a]> (i_addrs p)) p) in *.
  assert (0 ≤ bn < MAXFILE) as Hbn' by (rw MAXFILE_eq; rw /NDIRECT in Hbn; lia).
  assert (iblk (alloc_view sb v a) p' bn = a) as Hb by (rw Hblk //; by rewrite -> decide_True).
  exists t, (alloc_view sb v a), p', ({[a]} ∪ ({[BBLOCK a sb]} ∪ lg)). split; [|split; [done|]].
  - rw Hb /bmap /geti. mget. rw -/p. cbn [id]. rewrite -> (proj2 (Z.ltb_lt _ _)) by lia.
    rw /iblk (proj2 (Z.ltb_lt _ _)) in H0; [lia|]. rw H0. cbn [Z.eqb]. rw (iw_dev _ _ I). mgo E.
    mgo (updi_ok (set_st t s) ip (λ p, set_iaddrs (<[Z.to_nat bn := a]> (i_addrs p)) p) Hip). done.
  - pose proof (size_union_singleton lg (BBLOCK a sb)). pose proof (size_union_singleton ({[BBLOCK a sb]} ∪ lg) a).
    split; try done; try lia.
    + by apply fswf_alloc.
    + rw Hb. destruct (fw_free _ _ W a Ha Hau) as [_ Hm]. intros ->. apply Hm. by left.
    + rw (nfree_alloc v a) //. lia.
    + intros b Hb' Hn. rw Hblk //. by rewrite -> decide_False by (intros ->; done).
    + intros k Hk. apply alloc_dok; try done. by left.
    + intros k Hk _. by apply alloc_other.
    + intros i Hi. by apply alloc_inode.
Qed.

(** The first half of [bmap] for an indirect block: the indirect block itself. *)
Lemma bmap_ensure (s : fs) ip lg v :
  let p := f_inode s !!! ip in
  geom sb → fswf sb v → frep s ∅ lg v → f_sb s = sb → (ip < length (f_inode s))%nat → iwf v p →
  (0 < nfree v)%nat → (1 + size lg < st_cap)%nat → (1 + size lg < nbuf)%nat →
  ∃ t v1 p1 lg1,
    (if i_addrs p !!! Z.to_nat NDIRECT =? 0 then
       addr ← balloc (i_dev p);
       updi ip (λ p, set_iaddrs (<[Z.to_nat NDIRECT := addr]> (i_addrs p)) p) ;; mret addr
     else mret (i_addrs p !!! Z.to_nat NDIRECT)) s =
      Ok (ind p1, set_inodes (<[ip := p1]> (f_inode s)) (set_st t s)) ∧
    st_rep t ∅ ∅ lg1 v1 ∧ fswf sb v1 ∧ iwf v1 p1 ∧ ind p1 ≠ 0 ∧ (∀ b, iblk v1 p1 b = iblk v p b) ∧
    (∀ b, 0 ≤ b < MAXFILE → fdata v1 p1 b = fdata v p b) ∧ p1 = set_iaddrs (i_addrs p1) p ∧
    (size lg1 ≤ size lg + 2)%nat ∧ (nfree v ≤ nfree v1 + 1)%nat ∧ (∀ k, dok v k → dok v1 k ∧ v1 k = v k) ∧
    (∀ k, dok v k → k ≠ ind p → k ≠ ind p1) ∧
    ∀ i, 0 ≤ i < sb_ninodes sb → v1 (IBLOCK i sb) = v (IBLOCK i sb).
Proof.
  intros p G W R Hsb Hip I Hfree Hc Hsz. change (i_addrs p !!! Z.to_nat NDIRECT) with (ind p).
  destruct (Z.eqb_spec (ind p) 0) as [Hi|Hi].
  - destruct (nfree_pos v Hfree) as (f & Hf & Hfu).
    destruct (balloc_ok sb s ∅ lg v f) as (a & t & E & Ha & Hau & _ & R');
      [done..|apply held_ok_empty|done|done|rw map_size_empty; lia|done|].
    destruct (alloc_indirect v p a G W I Ha Hau Hi) as (I' & Hia & Ha0 & Hb & Hdata).
    set (p' := set_iaddrs (<[12%nat := a]> (i_addrs p)) p) in *.
    exists t, (alloc_view sb v a), p', ({[a]} ∪ ({[BBLOCK a sb]} ∪ lg)). split.
    { rw (iw_dev _ _ I). mgo E.
      mgo (updi_ok (set_st t s) ip (λ p, set_iaddrs (<[Z.to_nat NDIRECT := a]> (i_addrs p)) p) Hip). by rw Hia. }
    split; [done|]. split; [by apply fswf_alloc|]. split; [done|]. split; [by rw Hia|]. split; [done|]. split; [done|].
    split; [done|].
    pose proof (size_union_singleton lg (BBLOCK a sb)). pose proof (size_union_singleton ({[BBLOCK a sb]} ∪ lg) a).
    split; [lia|]. split; [rw (nfree_alloc v a) //; lia|]. split; [|split].
    + intros k Hk. split; [apply alloc_dok; try done; by left|by apply alloc_other].
    + intros k Hk _. rw Hia. intros ->. by apply Hau, Hk.
    + intros i Hi'. by apply alloc_inode.
  - exists (f_st s), v, p, lg. split; [by rw (set_inodes_set_st s ip Hip)|]. do 6 (split; [done|]).
    split; [by destruct p|]. split; [lia|]. split; [lia|]. done.
Qed.

Lemma bmap_indirect (s : fs) ip lg v bn :
  let p := f_inode s !!! ip in
  geom sb → fswf sb v → frep s ∅ lg v → f_sb s = sb → (ip < length (f_inode s))%nat → iwf v p →
  NDIRECT ≤ bn < MAXFILE → iblk v p bn = 0 → (1 < nfree v)%nat → (4 + size lg < st_cap)%nat → (4 + size lg < nbuf)%nat →
  ∃ t v' p' lg', bmap ip bn s = Ok (iblk v' p' bn, set_inodes (<[ip := p']> (f_inode s)) (set_st t s)) ∧
    st_rep t ∅ ∅ lg' v' ∧ bmapped v p lg bn v' p' lg'.
Proof.
  intros p G W R Hsb Hip I Hbn H0 Hfree Hc Hsz.
  destruct (bmap_ensure s ip lg v G W R Hsb Hip I) as
    (t0 & v1 & p1 & lg1 & E0 & R1 & W1 & I1 & Hi1 & Hb1 & F1 & Hp1 & L1 & N1 & K1 & K1' & M1); [lia|lia|lia|].
  rw -/p in E0 Hb1 F1 Hp1 K1'.
  set (s1 := set_inodes (<[ip := p1]> (f_inode s)) (set_st t0 s)) in *.
  assert (f_inode s1 !!! ip = p1) as Ep1 by by rw /s1 /= list_lookup_total_insert_eq.
  assert (dok v1 (ind p1)) as Hdi by by apply I1.
  destruct (read_step s1 ∅ lg1 v1 (ind p1)) as (x & t1 & _ & E1 & Hx & R2 & E2 & _ & _);
    [done|apply st_home_blocks, Hdi|by intros i; rw lookup_empty|rw map_size_empty; lia|].
  assert (iblk v1 p1 bn = get32 (v1 (ind p1)) (4 * Z.to_nat (bn - NDIRECT))) as Eb.
  { rw /iblk (proj2 (Z.ltb_ge _ _)); [lia|]. by rewrite -> (proj2 (Z.eqb_neq _ _)). }
  destruct (nfree_pos v1) as (f & Hf & Hfu); [lia|].
  destruct (balloc_ok sb (set_st t1 s1) (<[x := ind p1]> ∅) lg1 v1 f) as (a & t2 & E3 & Ha & Hau & _ & R3);
    [done..|by apply held_ok_single|done|done|rw map_size_insert lookup_empty map_size_empty; lia|lia|].
  destruct (alloc_entry v1 p1 a bn G W1 I1 Ha Hau Hbn Hi1) as (W' & I' & Hblk & F' & K'); [by rw Hb1|].
  set (v2 := alloc_view sb v1 a) in *. set (lg2 := {[a]} ∪ ({[BBLOCK a sb]} ∪ lg1)) in *.
  assert (size lg2 ≤ size lg1 + 2)%nat as L2.
  { pose proof (size_union_singleton lg1 (BBLOCK a sb)). pose proof (size_union_singleton ({[BBLOCK a sb]} ∪ lg1) a).
    rw /lg2. lia. }
  assert ((<[x := ind p1]> ∅ : gmap nat Z) !! x = Some (ind p1)) as Lx by by rw lookup_insert_eq.
  destruct (write_step (set_st t2 s1) _ lg2 v2 x (ind p1) (put32 (v1 (ind p1)) (4 * Z.to_nat (bn - NDIRECT)) a) R3 Lx)
    as (t3 & t4 & E4 & E5 & R4); [apply Hdi|lia|].
  destruct (st_brelse_ok _ _ _ _ _ _ _ R4 Lx) as (t5 & E6 & R5); [apply not_elem_of_empty|].
  rw delete_insert_id // in R5.
  assert (v2 (ind p1) = v1 (ind p1)) as Ev2 by by apply alloc_other. rw Ev2 in Hblk F' W' I' K'.
  set (v' := vset v2 (ind p1) _) in *. 
  assert (0 ≤ bn < MAXFILE) as Hbn' by (rw /NDIRECT in Hbn; lia).
  assert (iblk v' p1 bn = a) as Hb' by (rw Hblk //; by rewrite -> decide_True).
  exists t5, v', p1, ({[ind p1]} ∪ lg2). split; [|split; [done|]].
  - rw /bmap /geti. mget. rw -/p. cbn [id]. rewrite -> (proj2 (Z.ltb_ge _ _)) by lia.
    rewrite -> (proj2 (Z.ltb_lt _ _)) by (rw MAXFILE_eq in Hbn; rw /NDIRECT /NINDIRECT /BSIZE in Hbn |- *; change (512 / 4) with 128; lia).
    mgo E0. rw (iw_dev _ _ I). mgo E1. fgo E2. rw -Eb Hb1 H0. cbn [Z.eqb]. rw bind_assoc. mgo E3.
    rw bind_assoc. fgo E4. rw bind_assoc. fgo E5. mget. mgo (st_Ok' (st_brelse x) (set_st t4 (set_st t3 (set_st t2 s1))) tt t5 E6).
    by rw Hb'.
  - pose proof (size_union_singleton lg2 (ind p1)).
    assert (nfree v' = nfree v2) as En by (apply nfree_ext; intros b Hb; apply used_vset_data; [apply Hdi|done]).
    split; try done.
    + rw Hb'. destruct (fw_free _ _ W1 a Ha Hau) as [_ Hm]. intros ->. apply Hm. by left.
    + intros b Hb. by rw F' // F1.
    + lia.
    + rw En. pose proof (nfree_alloc v1 a G W1 Ha Hau) as En'. rw -/v2 in En'. lia.
    + intros b Hb Hn. rw Hblk //. rewrite -> decide_False by (intros ->; done). by apply Hb1.
    + intros k Hk. apply K'. by apply K1.
    + intros k Hk Hki. destruct (K1 k Hk) as [Hk1 <-]. rw /v' vset_ne; [by apply K1'|]. by apply alloc_other.
    + intros i Hi. rw /v' vset_ne; [|rw /v2 alloc_inode //; by apply M1].
      intros E. apply (do_meta _ _ Hdi). rw -E. by apply IBLOCK_meta.
Qed.

Lemma bmap_ok (s : fs) ip lg v bn :
  let p := f_inode s !!! ip in
  geom sb → fswf sb v → frep s ∅ lg v → f_sb s = sb → (ip < length (f_inode s))%nat → iwf v p →
  0 ≤ bn < MAXFILE → (1 < nfree v)%nat → (4 + size lg < st_cap)%nat → (4 + size lg < nbuf)%nat →
  ∃ t v' p' lg', bmap ip bn s = Ok (iblk v' p' bn, set_inodes (<[ip := p']> (f_inode s)) (set_st t s)) ∧
    st_rep t ∅ ∅ lg' v' ∧ bmapped v p lg bn v' p' lg'.
Proof.
  intros p G W R Hsb Hip I Hbn Hfree Hc Hsz. destruct (decide (iblk v p bn = 0)) as [H0|H0].
  - destruct (decide (bn < NDIRECT)); [apply bmap_direct|apply bmap_indirect]; try done; lia.
  - destruct (bmap_hit s ip lg v bn G W R Hip I Hbn H0) as (t & E & R'); [lia|].
    exists t, v, p, lg. rw E. split; [do 2 f_equal; symmetry; exact (set_inodes_id (set_st t s) ip Hip)|].
    split; [done|]. split; try done; try lia. by destruct p.
Qed.

(** ** Bytes *)

Definition fbyte (v : Z → block) (p : inode) (pos : Z) : Z := fdata v p (pos / BSIZE) !!! Z.to_nat (pos mod BSIZE).
Definition frange (v : Z → block) (p : inode) (off n : Z) : list Z := (λ i, fbyte v p (off + i)) <$> seqZ 0 n.

Lemma fdata_len v p bn : fswf sb v → iwf v p → 0 ≤ bn < MAXFILE → length (fdata v p bn) = Z.to_nat BSIZE.
Proof.
  intros W I Hbn. rw /fdata. destruct (Z.eqb_spec (iblk v p bn) 0); [apply length_replicate|].
  apply W. by apply (iw_data _ _ I).
Qed.

Lemma frange_app v p off a b :
  0 ≤ a → 0 ≤ b → frange v p off (a + b) = frange v p off a ++ frange v p (off + a) b.
Proof.
  intros Ha Hb. rw /frange seqZ_app // fmap_app. f_equal. apply list_eq. intros i.
  rw 2!list_lookup_fmap. destruct (decide (Z.of_nat i < b)).
  - rewrite -> !lookup_seqZ_lt by lia. simpl. do 2 f_equal. lia.
  - by rewrite -> !lookup_seqZ_ge by lia.
Qed.

(** The part of a range that is in one block. *)
Lemma frange_slice v p off m :
  fswf sb v → iwf v p → 0 ≤ off → off / BSIZE < MAXFILE → 0 ≤ m → off mod BSIZE + m ≤ BSIZE →
  frange v p off m = slice (fdata v p (off / BSIZE)) (Z.to_nat (off mod BSIZE)) (Z.to_nat m).
Proof.
  intros W I Hoff Hmax Hm Hend. rw /BSIZE in Hend.
  assert (0 ≤ off / BSIZE) as Hq by (rw /BSIZE; dlia).
  pose proof (fdata_len v p (off / BSIZE) W I (conj Hq Hmax)) as Hl. rw /BSIZE in Hl.
  apply list_eq. intros i. rw /frange list_lookup_fmap lookup_slice. case_decide as Hi.
  - rewrite -> lookup_seqZ_lt by lia. simpl. rw /fbyte Z.add_0_l.
    assert ((off + Z.of_nat i) / BSIZE = off / BSIZE) as -> by (rw /BSIZE; dlia).
    assert (Z.to_nat ((off + Z.of_nat i) mod BSIZE) = (Z.to_nat (off mod BSIZE) + i)%nat) as -> by (rw /BSIZE; dlia).
    symmetry. apply list_lookup_lookup_total_lt. rw /BSIZE Hl. dlia.
  - by rewrite -> lookup_seqZ_ge by lia.
Qed.

(** How many blocks a range of bytes touches. *)
Definition nblocks (off n : Z) : Z := (off mod BSIZE + n + (BSIZE - 1)) / BSIZE.

(** ** readi *)

(** Every block below the end of the file is there. *)
Definition nohole (v : Z → block) (p : inode) : Prop :=
  ∀ bn, 0 ≤ bn < MAXFILE → bn * BSIZE < i_size p → iblk v p bn ≠ 0.

Lemma readi_loop_ok k : ∀ (s : fs) ip lg v tot off n dst,
  let p := f_inode s !!! ip in
  geom sb → fswf sb v → frep s ∅ lg v → (ip < length (f_inode s))%nat → iwf v p → nohole v p →
  0 ≤ tot → 0 ≤ off → off + (n - tot) ≤ i_size p → i_size p ≤ MAXFILE * BSIZE →
  (tot < n → nblocks off (n - tot) ≤ Z.of_nat k) → (size lg < nbuf)%nat →
  ∃ t, readi_loop ip k tot off n dst s = Ok (dst ++ frange v p off (n - tot), set_st t s) ∧ st_rep t ∅ ∅ lg v.
Proof.
  induction k as [|k IH]; intros s ip lg v tot off n dst p G W R Hip I Hnh Ht Hoff Hend Hmax Hk Hsz.
  { cbn [readi_loop]. destruct (Z.ltb_spec tot n) as [Htn|Htn]; cbn [negb].
    - specialize (Hk Htn). rw /nblocks /BSIZE in Hk. exfalso. dlia.
    - exists (f_st s). rw /frange seqZ_nil; [lia|]. rw app_nil_r. split; [by destruct s|done]. }
  cbn [readi_loop]. destruct (Z.ltb_spec tot n) as [Htn|Htn]; cbn [negb].
  2: { exists (f_st s). rw /frange seqZ_nil; [lia|]. rw app_nil_r. split; [by destruct s|done]. }
  specialize (Hk Htn). rw MAXFILE_eq /BSIZE in Hmax. set (bn := off / BSIZE).
  assert (0 ≤ bn < MAXFILE) as Hbn by (rw MAXFILE_eq /bn /BSIZE; dlia).
  assert (iblk v p bn ≠ 0) as Hb0 by (apply Hnh; [done|]; rw /bn /BSIZE; dlia).
  destruct (bmap_hit s ip lg v bn) as (t1 & E1 & R1); try done. rw -/p in E1.
  destruct (read_step (set_st t1 s) ∅ lg v (iblk v p bn)) as (x & t2 & t3 & E2 & _ & _ & E3 & E4 & R3);
    [done| |by intros i; rw lookup_empty|by rw map_size_empty|].
  { apply st_home_blocks. by apply I. }
  set (m := Z.min (n - tot) (BSIZE - off mod BSIZE)).
  assert (0 < m ∧ m ≤ n - tot ∧ off mod BSIZE + m ≤ BSIZE) as (Hm0 & Hm1 & Hm2) by (rw /m /BSIZE; dlia).
  destruct (IH (set_st t3 s) ip lg v (tot + m) (off + m) n (dst ++ frange v p off m)) as (t & E & R'); try done; try lia.
  { change (f_inode (set_st t3 s) !!! ip) with p. lia. }
  { intros Hlt. assert (m = BSIZE - off mod BSIZE) as Em by (rw /m; lia).
    rw /nblocks in Hk |- *. assert ((off + m) mod BSIZE = 0) as -> by (rw Em /BSIZE; dlia).
    rw Em. rw /BSIZE in Hk |- *. dlia. }
  exists t. split; [|done]. rw /geti. mget. rw -/p (iw_dev _ _ I). mgo E1. mgo E2. fgo E3. fgo E4.
  assert (frange v p off (n - tot) = frange v p off m ++ frange v p (off + m) (n - (tot + m))) as ->.
  { rw -frange_app; [lia|lia|]. f_equal. lia. }
  rw app_assoc.
  rewrite -> (frange_slice v p off m) in E |- * by (done || lia).
  assert (fdata v p (off / BSIZE) = v (iblk v p bn)) as Ef by by rw /fdata -/bn (proj2 (Z.eqb_neq _ _)).
  rw Ef in E |- *. exact E.
Qed.

(** ** writei *)

(** Storing [d] in block [bn] of a file. *)
Lemma iwf_write v p bn d :
  geom sb → fswf sb v → iwf v p → 0 ≤ bn < MAXFILE → iblk v p bn ≠ 0 → length d = Z.to_nat BSIZE →
  let v' := vset v (iblk v p bn) d in
  fswf sb v' ∧ iwf v' p ∧ (∀ b, iblk v' p b = iblk v p b) ∧
  ∀ b, 0 ≤ b < MAXFILE → fdata v' p b = if decide (b = bn) then d else fdata v p b.
Proof.
  intros G W I Hbn H0 Hd v'. pose proof (iw_data _ _ I bn Hbn H0) as Hdok.
  assert (∀ b, iblk v' p b = iblk v p b) as Hb.
  { intros b. apply iblk_ext. intros Hi. rw /v' vset_ne //. by apply not_eq_sym, (iw_ne _ _ I). }
  split; [by apply fswf_data|]. split; [|split; [done|]].
  - destruct I as [I1 I2 I3 I4 I5 I6]. split; try done.
    + intros Hi. apply dok_data; [done|]. by apply I3.
    + intros b Hb'. rw Hb. intros Hn. apply dok_data; [done|]. by apply I4.
    + intros b b' H1 H2. rw !Hb. by apply I5.
    + intros b Hb'. rw Hb. by apply I6.
  - intros b Hb'. rw /fdata Hb. case_decide as Hd'.
    + subst b. rewrite -> (proj2 (Z.eqb_neq _ _)) by done. by rw /v' vset_eq.
    + destruct (Z.eqb_spec (iblk v p b) 0); [done|]. rw /v' vset_ne //. intros E. apply Hd'.
      by apply (iw_inj _ _ I).
Qed.

(** The file [p'] has the contents of [p] with [src] at [off]. *)
Definition written (v : Z → block) (p : inode) (off : Z) (src : list Z) (v' : Z → block) (p' : inode) : Prop :=
  ∀ pos, 0 ≤ pos < MAXFILE * BSIZE → fbyte v' p' pos =
    if decide (off ≤ pos < off + Z.of_nat (length src)) then src !!! Z.to_nat (pos - off) else fbyte v p pos.

Lemma pos_block pos : 0 ≤ pos < MAXFILE * BSIZE → 0 ≤ pos / BSIZE < MAXFILE.
Proof. rw MAXFILE_eq /BSIZE. intros Hp. split; [apply Z.div_pos; lia|apply Z.div_lt_upper_bound; lia]. Qed.

Lemma written_nil v p off v' p' :
  (∀ b, 0 ≤ b < MAXFILE → fdata v' p' b = fdata v p b) → written v p off [] v' p'.
Proof.
  intros H pos Hpos. rewrite -> decide_False by (simpl; lia). rw /fbyte H //.
  by apply pos_block.
Qed.

(** One block's part of a write. *)
Lemma written_block v p off src v' p' :
  fswf sb v → iwf v p → 0 ≤ off → off / BSIZE < MAXFILE → off mod BSIZE + Z.of_nat (length src) ≤ BSIZE →
  (∀ b, 0 ≤ b < MAXFILE → fdata v' p' b =
     if decide (b = off / BSIZE) then splice (fdata v p b) (Z.to_nat (off mod BSIZE)) src else fdata v p b) →
  written v p off src v' p'.
Proof.
  intros W I Hoff Hmax Hend H pos Hpos.
  assert (0 ≤ off / BSIZE) as Hq by (rw /BSIZE; dlia).
  pose proof (fdata_len v p (off / BSIZE) W I (conj Hq Hmax)) as Hl.
  assert (0 ≤ pos / BSIZE < MAXFILE) as Hb by by apply pos_block.
  rw /fbyte H //. rw /BSIZE in Hend Hl Hoff Hq Hmax |- *. case_decide as Hd.
  - pose proof (Z_div_mod_eq_full off 512) as Eo. pose proof (Z_div_mod_eq_full pos 512) as Ep.
    pose proof (Z.mod_pos_bound off 512). pose proof (Z.mod_pos_bound pos 512).
    rw Hd in Ep. rw list_lookup_total_alt lookup_splice; [rw Hd Hl; lia|].
    destruct (decide (off ≤ pos < off + Z.of_nat (length src))) as [Hr|Hr].
    + rewrite -> decide_True by lia. rw list_lookup_total_alt.
      by replace (Z.to_nat (pos mod 512) - Z.to_nat (off mod 512))%nat with (Z.to_nat (pos - off)) by lia.
    + rewrite -> decide_False by lia. by rw list_lookup_total_alt.
  - rewrite -> decide_False; [done|]. clear -Hd Hend Hoff. intros Hr. apply Hd. symmetry.
    pose proof (Z_div_mod_eq_full off 512). pose proof (Z.mod_pos_bound off 512).
    apply (Z.div_unique _ _ _ (pos - 512 * (off / 512))); lia.
Qed.

Lemma written_trans v p off s1 s2 v1 p1 v2 p2 :
  written v p off s1 v1 p1 → written v1 p1 (off + Z.of_nat (length s1)) s2 v2 p2 → written v p off (s1 ++ s2) v2 p2.
Proof.
  intros H1 H2 pos Hpos. rw H2 // H1 // length_app. repeat case_decide; try lia; try done.
  - rw lookup_total_app_r; [lia|]. f_equal. lia.
  - by rw lookup_total_app_l; [lia|].
Qed.

(** The state after some rounds of [writei]. *)
Record wstate (v : Z → block) (p : inode) (lg : gset Z) (k : nat) (v' : Z → block) (p' : inode) (lg' : gset Z) : Prop := {
  ws_fs : fswf sb v';
  ws_iwf : iwf v' p';
  ws_p : p' = set_iaddrs (i_addrs p') p;
  ws_lg : (size lg' ≤ size lg + 6 * k)%nat;
  ws_free : (nfree v ≤ nfree v' + 2 * k)%nat;
  ws_keep b : 0 ≤ b < MAXFILE → iblk v p b ≠ 0 → iblk v' p' b ≠ 0;
  ws_meta i : 0 ≤ i < sb_ninodes sb → v' (IBLOCK i sb) = v (IBLOCK i sb);
}.

Lemma fdata_some v p bn : iblk v p bn ≠ 0 → fdata v p bn = v (iblk v p bn).
Proof. intros H. rw /fdata. by rewrite -> (proj2 (Z.eqb_neq _ _)). Qed.

Lemma set_iaddrs_trans p p1 p2 : p1 = set_iaddrs (i_addrs p1) p → p2 = set_iaddrs (i_addrs p2) p1 → p2 = set_iaddrs (i_addrs p2) p.
Proof. intros -> ->. done. Qed.

Lemma wstate_trans v p lg k v1 p1 lg1 k1 v2 p2 lg2 :
  wstate v p lg k v1 p1 lg1 → wstate v1 p1 lg1 k1 v2 p2 lg2 → wstate v p lg (k + k1) v2 p2 lg2.
Proof.
  intros [A1 A2 A3 A4 A5 A6 A7] [B1 B2 B3 B4 B5 B6 B7]. split; try done; try lia.
  - by apply (set_iaddrs_trans p p1).
  - intros b Hb H. by apply B6, A6.
  - intros i Hi. by rw B7 // A7.
Qed.

(** One round of [writei]: [chunk] into the block that [off] is in. *)
Lemma write_round (s : fs) ip lg v off chunk :
  let p := f_inode s !!! ip in
  geom sb → fswf sb v → frep s ∅ lg v → f_sb s = sb → (ip < length (f_inode s))%nat → iwf v p →
  0 ≤ off < MAXFILE * BSIZE → off mod BSIZE + Z.of_nat (length chunk) ≤ BSIZE →
  (1 < nfree v)%nat → (5 + size lg < st_cap)%nat → (5 + size lg < nbuf)%nat →
  ∃ t1 x t2 t3 t4 t5 v2 p1 lg2, let bn := off / BSIZE in let s1 := set_inodes (<[ip := p1]> (f_inode s)) (set_st t1 s) in
    bmap ip bn s = Ok (iblk v2 p1 bn, s1) ∧
    st (st_bread 1 (iblk v2 p1 bn)) s1 = Ok (x, set_st t2 s1) ∧
    (∃ d, (∀ s' : fs, f_st s' = t2 → st (st_data x) s' = Ok (d, s')) ∧
       ∀ s' : fs, f_st s' = t2 → st (st_store x (splice d (Z.to_nat (off mod BSIZE)) chunk)) s' = Ok (tt, set_st t3 s')) ∧
    (∀ s' : fs, f_st s' = t3 → st (st_log_write x) s' = Ok (tt, set_st t4 s')) ∧
    (∀ s' : fs, f_st s' = t4 → st (st_brelse x) s' = Ok (tt, set_st t5 s')) ∧
    st_rep t5 ∅ ∅ lg2 v2 ∧ wstate v p lg 1 v2 p1 lg2 ∧ written v p off chunk v2 p1 ∧ iblk v2 p1 bn ≠ 0.
Proof.
  intros p G W R Hsb Hip I Hoff Hend Hfree Hc Hsz. pose proof (pos_block off Hoff) as Hbn. set (bn := off / BSIZE) in *.
  destruct (bmap_ok s ip lg v bn) as (t1 & v1 & p1 & lg1 & E1 & R1 & B); try done; [lia|lia|].
  rw -/p in B. destruct B as [B1 B2 B3 B4 B5 B6 B7 B8 B9 B10 B11].
  set (s1 := set_inodes (<[ip := p1]> (f_inode s)) (set_st t1 s)) in *. set (addr := iblk v1 p1 bn) in *.
  pose proof (iw_data _ _ B2 bn Hbn B3) as Hdok. rw -/addr in Hdok.
  assert (length (v1 addr) = Z.to_nat BSIZE) as Hl by (apply B1, Hdok).
  set (d := splice (v1 addr) (Z.to_nat (off mod BSIZE)) chunk).
  assert (length d = Z.to_nat BSIZE) as Hld.
  { rw /d length_splice // Hl. rw /BSIZE in Hend |- *. pose proof (Z.mod_pos_bound off 512). lia. }
  destruct (update_step s1 ∅ lg1 v1 addr d) as (x & t2 & t3 & t4 & t5 & E2 & E3 & E4 & E5 & E6 & R5);
    [done|apply Hdok|by intros i; rw lookup_empty|rw map_size_empty; lia|lia|].
  destruct (iwf_write v1 p1 bn d G B1 B2 Hbn B3 Hld) as (W2 & I2 & Hb2 & F2). rw -/addr in W2 I2 Hb2 F2.
  exists t1, x, t2, t3, t4, t5, (vset v1 addr d), p1, ({[addr]} ∪ lg1). cbn zeta. rw Hb2 -/addr -/s1.
  split; [done|]. split; [done|]. split; [exists (v1 addr); done|]. split; [done|]. split; [done|]. split; [done|].
  split; [|split; [|done]].
  - pose proof (size_union_singleton lg1 addr). split; try done; try lia.
    + assert (nfree (vset v1 addr d) = nfree v1) as ->; [|lia].
      apply nfree_ext. intros b Hb. apply used_vset_data; [apply Hdok|done].
    + intros b Hb H0. rw Hb2. intros E0.
      by rw (B8 b Hb H0) in E0.
    + intros i Hi. rw vset_ne; [|by apply B11]. intros E. apply (do_meta _ _ Hdok). rw -E. by apply IBLOCK_meta.
  - apply written_block; try done; [lia|apply Hbn|]. intros b Hb. rw F2 // -/bn. case_decide; [|by apply B4].
    subst b. rw -B4 // fdata_some //.
Qed.

Lemma nblocks_step off n m :
  0 ≤ off → 0 < m → m ≤ n → off mod BSIZE + m ≤ BSIZE → (m < n → off mod BSIZE + m = BSIZE) →
  m < n → nblocks (off + m) (n - m) + 1 = nblocks off n.
Proof.
  intros Hoff Hm Hmn Hend Hfull Hlt. specialize (Hfull Hlt). rw /nblocks.
  assert ((off + m) mod BSIZE = 0) as -> by (rw /BSIZE in Hfull |- *; dlia).
  assert (off mod BSIZE + n + (BSIZE - 1) = n - m + (BSIZE - 1) + 1 * BSIZE) as -> by lia.
  rw Z.div_add; [rw /BSIZE; lia|]. by rw Z.add_0_l.
Qed.
Lemma nblocks_pos off n : 0 < n → 0 < nblocks off n.
Proof. intros Hn. rw /nblocks /BSIZE. pose proof (Z.mod_pos_bound off 512). apply Z.div_str_pos. lia. Qed.

Lemma writei_loop_ok c : ∀ k (s : fs) ip lg v tot off n src,
  let p := f_inode s !!! ip in
  geom sb → fswf sb v → frep s ∅ lg v → f_sb s = sb → (ip < length (f_inode s))%nat → iwf v p → (c ≤ k)%nat →
  0 ≤ off → Z.of_nat (length src) = n - tot → off + (n - tot) ≤ MAXFILE * BSIZE →
  (tot < n → nblocks off (n - tot) ≤ Z.of_nat c) →
  (2 * c ≤ nfree v)%nat → (6 * c + size lg ≤ st_cap)%nat → (6 * c + size lg ≤ nbuf)%nat →
  ∃ t v' p' lg', writei_loop ip k tot off n src s =
      Ok (off + (n - tot), set_inodes (<[ip := p']> (f_inode s)) (set_st t s)) ∧
    st_rep t ∅ ∅ lg' v' ∧ wstate v p lg c v' p' lg' ∧ written v p off src v' p' ∧
    ∀ bn, tot < n → off / BSIZE ≤ bn → bn * BSIZE < off + (n - tot) → iblk v' p' bn ≠ 0.
Proof.
  induction c as [|c IH]; intros k s ip lg v tot off n src p G W R Hsb Hip I Hck Hoff Hlen Hmax Hnb Hfree Hc Hsz.
  - assert (tot = n) as ->.
    { destruct (decide (tot < n)) as [H|H]; [|lia]. specialize (Hnb H). pose proof (nblocks_pos off (n - tot)). lia. }
    assert (src = []) as -> by (apply nil_length_inv; lia).
    exists (f_st s), v, p, lg. split; [|split; [done|split; [|split]]].
    + rw (set_inodes_set_st s ip Hip). destruct k; simpl; rw Z.ltb_irrefl; by rw Z.sub_diag Z.add_0_r.
    + split; try done; try lia. by destruct p.
    + by apply written_nil.
    + lia.
  - destruct (decide (tot < n)) as [Htn|Htn].
    2: { assert (src = []) as -> by (apply nil_length_inv; lia). assert (tot = n) as -> by (simpl in Hlen; lia).
      destruct (IH k s ip lg v n off n []) as (t & v' & p' & lg' & E & R' & W' & H' & B'); try done; try lia.
      exists t, v', p', lg'. do 2 (split; [done|]). split; [|done]. destruct W'. split; try done; lia. }
    destruct k as [|k]; [lia|]. cbn [writei_loop]. rewrite -> (proj2 (Z.ltb_lt _ _)) by lia. cbn [negb].
    set (m := Z.min (n - tot) (BSIZE - off mod BSIZE)).
    assert (0 ≤ off mod BSIZE < BSIZE) as Hmod by (apply Z.mod_pos_bound; rw /BSIZE; lia).
    assert (0 < m ∧ m ≤ n - tot ∧ off mod BSIZE + m ≤ BSIZE ∧ (m < n - tot → off mod BSIZE + m = BSIZE)) as (Hm0 & Hm1 & Hm2 & Hm3).
    { rw /m. lia. }
    set (chunk := take (Z.to_nat m) src).
    assert (Z.of_nat (length chunk) = m) as Hcl by (rw /chunk length_take; lia).
    destruct (write_round s ip lg v off chunk) as
      (t1 & x & t2 & t3 & t4 & t5 & v2 & p1 & lg2 & E1 & E2 & (d & E3 & E4) & E5 & E6 & R2 & W2 & H2 & B2); try done; try lia.
    cbn zeta in E1, E2. rw -/p in W2 H2.
    set (s2 := set_inodes (<[ip := p1]> (f_inode s)) (set_st t5 s)).
    assert (f_inode s2 !!! ip = p1) as Ep by by rw /s2 /= list_lookup_total_insert_eq.
    destruct (IH k s2 ip lg2 v2 (tot + m) (off + m) n (drop (Z.to_nat m) src)) as (t & v' & p' & lg' & E & R' & W' & H' & B').
    { done. }
    { apply W2. }
    { done. }
    { done. }
    { by rw /s2 /= length_insert. }
    { rw Ep. apply W2. }
    { lia. }
    { lia. }
    { rw length_drop. lia. }
    { lia. }
    { intros Hlt. specialize (Hnb Htn). pose proof (nblocks_step off (n - tot) m). replace (n - (tot + m)) with (n - tot - m) by lia. lia. }
    { pose proof (ws_free _ _ _ _ _ _ _ W2). lia. }
    { pose proof (ws_lg _ _ _ _ _ _ _ W2). lia. }
    { pose proof (ws_lg _ _ _ _ _ _ _ W2). lia. }
    rw Ep in W' H'. exists t, v', p', lg'. split; [|split; [done|split; [|split]]].
    + rw /geti. mget. rw -/p (iw_dev _ _ I). mgo E1. mgo E2. fgo E3. rw -/chunk. fgo E4. fgo E5. fgo E6.
      transitivity (writei_loop ip k (tot + m) (off + m) n (drop (Z.to_nat m) src) s2); [done|]. rw E /s2 /=.
      rw list_insert_insert_eq. do 2 f_equal. lia.
    + apply (wstate_trans v p lg 1 v2 p1 lg2 c); [done|done].
    + rw -(take_drop (Z.to_nat m) src). apply (written_trans _ _ _ _ _ v2 p1); [done|]. by rw -/chunk Hcl.
    + intros bn _ Hb1 Hb2.
      destruct (decide (m < n - tot ∧ (off + m) / BSIZE ≤ bn)) as [[Hlt Hb]|Hb]; [apply B'; [lia|done|lia]|].
      assert (bn = off / BSIZE) as ->.
      { destruct (decide (m < n - tot)) as [Hlt|Hlt].
        - specialize (Hm3 Hlt). assert ((off + m) / BSIZE = off / BSIZE + 1); [|lia].
          rw /BSIZE in Hm3 |- *. clear -Hm3. dlia.
        - assert (m = n - tot) as Em by lia. clear -Hb1 Hb2 Em Hm2 Hmod. rw -Em in Hb2. rw /BSIZE in Hb1 Hb2 Hm2 |- *. dlia. }
      apply W'; [|done]. split; [apply Z.div_pos; [done|rw /BSIZE; lia]|]. apply pos_block. lia.
Qed.

(** ** iupdate *)

Lemma length_put_addrs d o a : length (put_addrs d o a) = length d.
Proof. revert d o. induction a as [|x a IH]; intros d o; [done|]. by rw /= IH length_put32. Qed.
Lemma length_store_dinode d o p : length (store_dinode d o p) = length d.
Proof. by rw /store_dinode length_put_addrs length_put32 !length_put16. Qed.

(** Changing an inode block changes no file's contents. *)
Lemma inode_block v i d p :
  geom sb → fswf sb v → 0 ≤ i < sb_ninodes sb → length d = Z.to_nat BSIZE → iwf v p →
  let v' := vset v (IBLOCK i sb) d in
  fswf sb v' ∧ iwf v' p ∧ (∀ b, iblk v' p b = iblk v p b) ∧ (∀ b, 0 ≤ b < MAXFILE → fdata v' p b = fdata v p b) ∧
  nfree v' = nfree v.
Proof.
  intros G W Hi Hd I v'.
  assert (∀ b, 0 ≤ b < sb_size sb → used sb v' b ↔ used sb v b) as Hu.
  { intros b Hb. rw /used /v' vset_ne //. by apply ge_disj. }
  assert (∀ k, dok v k → dok v' k) as Hdok.
  { intros k [K1 K2 K3 K4]. split; try done. apply Hu; [lia|done]. }
  destruct (iwf_ext v v' p I Hdok) as (I' & Hb & F).
  { intros k Hk. rw /v' vset_ne //. intros ->. apply (do_meta _ _ Hk). by apply IBLOCK_meta. }
  split; [|by split_and!; try done; apply nfree_ext]. split.
  - intros k Hk. rw /v' /vset. case_decide; [done|by apply W].
  - intros b Hb'. rw Hu //. by apply W.
  - rw /v' vset_ne; [|apply W]. by apply not_eq_sym, ge_super_i.
Qed.

Lemma iupdate_ok (s : fs) ip lg v :
  let p := f_inode s !!! ip in
  geom sb → frep s ∅ lg v → f_sb s = sb → i_dev p = 1 → 0 ≤ i_inum p < sb_ninodes sb →
  (size lg < st_cap)%nat → (size lg < nbuf)%nat →
  ∃ t, iupdate ip s = Ok (tt, set_st t s) ∧
    st_rep t ∅ ∅ ({[IBLOCK (i_inum p) sb]} ∪ lg)
      (vset v (IBLOCK (i_inum p) sb) (store_dinode (v (IBLOCK (i_inum p) sb)) (dinode_off (i_inum p)) p)).
Proof.
  intros p G R Hsb Hd Hi Hc Hsz.
  destruct (update_step s ∅ lg v (IBLOCK (i_inum p) sb) (store_dinode (v (IBLOCK (i_inum p) sb)) (dinode_off (i_inum p)) p))
    as (x & t1 & t2 & t3 & t4 & E1 & E2 & E3 & E4 & E5 & R');
    [done|by apply ge_inode|by intros i; rw lookup_empty|by rw map_size_empty|done|].
  exists t4. split; [|done]. rw /iupdate /geti. mget. rw -/p. cbn [id]. rw Hsb Hd. mgo E1. fgo E2. fgo E3. fgo E4.
  by rw E5.
Qed.

(** ** The operations *)

Context (devsw : Z → devops (@fstate S D)).

Lemma rounds_ge off n : 0 ≤ n → nblocks off n ≤ Z.of_nat (rounds n).
Proof.
  intros Hn. rw /nblocks /rounds /BSIZE. pose proof (Z.mod_pos_bound off 512). pose proof (Z.div_pos n 512 Hn).
  pose proof (Z_div_mod_eq_full n 512). pose proof (Z.mod_pos_bound n 512). rw Z2Nat.id; [lia|].
  enough ((off mod 512 + n + (512 - 1)) / 512 < n / 512 + 3) by lia. apply Z.div_lt_upper_bound; lia.
Qed.

(** What [readi] returns for [n] bytes from [off] of a file of the given size. *)
Definition read_len (size off n : Z) : Z := if size <? off + n then size - off else n.

Lemma readi_ok (s : fs) ip lg v off n :
  let p := f_inode s !!! ip in
  geom sb → fswf sb v → frep s ∅ lg v → (ip < length (f_inode s))%nat → iwf v p → nohole v p →
  i_type p ≠ T_DEV → 0 ≤ i_size p ≤ MAXFILE * BSIZE → 0 ≤ off < 4294967296 → 0 ≤ n < 4294967296 →
  (size lg < nbuf)%nat →
  ∃ t, st_rep t ∅ ∅ lg v ∧
    readi devsw ip off n s = Ok (if (i_size p <? off) || (4294967296 <=? off + n) then (-1, [])
      else (read_len (i_size p) off n, frange v p off (read_len (i_size p) off n)), set_st t s).
Proof.
  intros p G W R Hip I Hnh Ht Hsize Hoff Hn Hsz. rw /readi /geti. mget. rw -/p. cbn [id].
  rewrite -> (proj2 (Z.eqb_neq _ _)) by done.
  assert ((u32 (off + n) <? off) = (4294967296 <=? off + n)) as ->.
  { rw /u32. destruct (Z.leb_spec 4294967296 (off + n)); [apply Z.ltb_lt; dlia|apply Z.ltb_ge; dlia]. }
  destruct (_ || _) eqn:Eo; [exists (f_st s); split; [done|by destruct s]|].
  apply orb_false_iff in Eo as [E1%Z.ltb_ge E2%Z.leb_gt]. rw u32_small; [lia|]. rw -/(read_len (i_size p) off n).
  set (n' := read_len (i_size p) off n).
  assert (0 ≤ n' ∧ off + n' ≤ i_size p) as [Hn0 Hn'].
  { rw /n' /read_len. destruct (Z.ltb_spec (i_size p) (off + n)); lia. }
  destruct (readi_loop_ok (rounds n') s ip lg v 0 off n' []) as (t & E & R'); try done; try lia.
  { rw Z.sub_0_r. done. }
  { apply Hsize. }
  { intros _. rw Z.sub_0_r. by apply rounds_ge. }
  exists t. split; [done|]. mgo E. by rw /= Z.sub_0_r.
Qed.

Lemma writei_ok (s : fs) ip lg v src off n c :
  let p := f_inode s !!! ip in
  geom sb → fswf sb v → frep s ∅ lg v → f_sb s = sb → (ip < length (f_inode s))%nat → iwf v p → nohole v p →
  i_type p ≠ T_DEV → 0 ≤ i_inum p < sb_ninodes sb → 0 ≤ i_size p → 0 ≤ off ≤ i_size p → 0 ≤ n →
  off + n ≤ MAXFILE * BSIZE → Z.of_nat (length src) = n →
  nblocks off n ≤ Z.of_nat c → (c ≤ rounds n)%nat →
  (2 * c ≤ nfree v)%nat → (6 * c + size lg < st_cap)%nat → (6 * c + size lg < nbuf)%nat →
  ∃ t v' p' lg', writei devsw ip src off n s = Ok (n, set_inodes (<[ip := p']> (f_inode s)) (set_st t s)) ∧
    st_rep t ∅ ∅ lg' v' ∧ fswf sb v' ∧ iwf v' p' ∧ nohole v' p' ∧ written v p off src v' p' ∧
    i_size p' = Z.max (i_size p) (off + n) ∧ p' = set_isize (i_size p') (set_iaddrs (i_addrs p') p) ∧
    (size lg' ≤ size lg + 6 * c + 1)%nat ∧ (nfree v ≤ nfree v' + 2 * c)%nat ∧
    ((0 < n ∧ i_size p < off + n) → v' (IBLOCK (i_inum p) sb) = store_dinode (v (IBLOCK (i_inum p) sb)) (dinode_off (i_inum p)) p').
Proof.
  intros p G W R Hsb Hip I Hnh Ht Hinum Hs0 Hoff Hn Hmax Hlen Hnb Hcr Hfree Hc Hsz.
  assert (off + n < 4294967296) as Hu by (rw MAXFILE_eq /BSIZE in Hmax; lia).
  destruct (writei_loop_ok c (rounds n) s ip lg v 0 off n src) as (t & v1 & p1 & lg1 & E & R1 & WS & H1 & B1); try done; try lia.
  { by rw Z.sub_0_r. }
  rw -/p in WS H1. rw Z.sub_0_r in E B1. set (s1 := set_inodes (<[ip := p1]> (f_inode s)) (set_st t s)) in *.
  assert (i_size p1 = i_size p ∧ i_inum p1 = i_inum p ∧ i_dev p1 = 1) as (Es & Ei & Ed).
  { rw (ws_p _ _ _ _ _ _ _ WS). split; [done|]. split; [done|]. apply I. }
  assert (∀ v2 p2, (∀ b, iblk v2 p2 b = iblk v1 p1 b) → i_size p2 = Z.max (i_size p) (off + n) →
    (0 < n ∨ i_size p2 = i_size p) → nohole v2 p2) as Hnh'.
  { intros v2 p2 Hb Hs Hor bn Hbn Hlt. rw Hb. rw Hs in Hlt.
    destruct (decide (bn * BSIZE < i_size p)) as [Hin|Hout]; [by apply (ws_keep _ _ _ _ _ _ _ WS), Hnh|].
    apply B1; [lia| |lia]. apply Z.lt_succ_r. apply Z.div_lt_upper_bound; rw /BSIZE in Hout |- *; lia. }
  assert (writei devsw ip src off n s = (size ← geti ip i_size;
    when ((0 <? n) && (size <? off + n)) (updi ip (set_isize (off + n)) ;; iupdate ip) ;; mret n) s1) as Ew.
  { rw /writei /geti. rw gets_bind. rw -/p. cbn [id]. rewrite -> (proj2 (Z.eqb_neq _ _)) by done.
    rewrite -> (u32_small (off + n)) by lia. rewrite -> (proj2 (orb_false_iff _ _)) by (split; apply Z.ltb_ge; lia).
    rewrite -> (proj2 (Z.ltb_ge _ _)) by lia. by mgo E. }
  rw Ew /geti. mget. assert (f_inode s1 !!! ip = p1) as Ep1 by by rw /s1 /= list_lookup_total_insert_eq.
  rw Ep1 Es. pose proof (ws_lg _ _ _ _ _ _ _ WS) as Hlg.
  destruct ((0 <? n) && (i_size p <? off + n)) eqn:Eg; cbn [when].
  - apply andb_true_iff in Eg as [Eg1%Z.ltb_lt Eg2%Z.ltb_lt]. set (p2 := set_isize (off + n) p1).
    assert (ip < length (f_inode s1))%nat as Hip1 by by rw /s1 /= length_insert.
    pose proof (updi_ok s1 ip (set_isize (off + n)) Hip1) as Eu. rw Ep1 -/p2 in Eu.
    set (s2 := set_inodes (<[ip := p2]> (f_inode s1)) s1) in *.
    assert (f_inode s2 !!! ip = p2) as Ep2 by by rw /s2 /= list_lookup_total_insert_eq.
    destruct (iupdate_ok s2 ip lg1 v1) as (t2 & E2 & R2); rw ?Ep2; try done; [by rw /p2 /= Ei|lia|lia|].
    rw Ep2 in R2. change (i_inum p2) with (i_inum p1) in R2. rw Ei in R2. set (IB := IBLOCK (i_inum p) sb) in *.
    destruct (inode_block v1 (i_inum p) (store_dinode (v1 IB) (dinode_off (i_inum p)) p2) p1) as (W2 & I2 & Hb2 & F2 & N2); try done.
    { apply WS. }
    { rw length_store_dinode. apply WS. by apply ge_inode. }
    { apply WS. }
    rw -/IB in W2 I2 Hb2 F2 N2. set (v2 := vset v1 IB _) in *.
    exists t2, v2, p2, ({[IB]} ∪ lg1). split; [|do 2 (split; [done|])].
    { rw bind_assoc. mgo Eu. mgo E2. rw /s2 /s1 /=. by rw list_insert_insert_eq. }
    pose proof (size_union_singleton lg1 IB).
    split; [by destruct I2|]. split; [|split; [|split; [|split; [|split; [lia|split; [rw N2; apply WS|]]]]]].
    + apply Hnh'; [done|simpl; lia|by left].
    + intros pos Hpos. rw /fbyte. change (fdata v2 p2 (pos / BSIZE)) with (fdata v2 p1 (pos / BSIZE)).
      rw F2; [by apply pos_block|]. by apply H1.
    + simpl. lia.
    + rw /p2 (ws_p _ _ _ _ _ _ _ WS). done.
    + intros _. rw /v2 vset_eq. f_equal. by apply WS.
  - exists t, v1, p1, lg1. split; [done|]. split; [done|]. split; [apply WS|]. split; [apply WS|].
    apply andb_false_iff in Eg. rw Z.ltb_ge Z.ltb_ge in Eg.
    assert (i_size p = Z.max (i_size p) (off + n)) as Emax by lia.
    split; [apply Hnh'; [done|by rw Es|by right]|]. split; [done|]. split; [by rw Es|]. split; [|split; [lia|split; [apply WS|lia]]].
    rw Es {1}(ws_p _ _ _ _ _ _ _ WS). by destruct p.
Qed.
End file.
