(* ===== verification/Files.v ===== *)
(** * Files

    What reading and writing a file promise, for any block store that keeps the promises
    of [BlockStore], with an example file system on a disk with a log. *)

From S2P Require Import Prelude Params Bytes Bio BioSpec Log LogSpec Tx Fs FsSpec FsFile.

(** ** An example disk *)

(** 64 blocks: the log in 2 to 31, eight inodes in block 32, the bitmap in block 33; the
    blocks from 34 on are free. *)
Definition ex_sb : superblock := decode_sb
  (put32 (put32 (put32 (put32 (put32 (put32 (put32 zblock 0 64) 4 30) 8 8) 12 30) 16 2) 20 32) 24 33).
Definition ex_sb_block : block :=
  put32 (put32 (put32 (put32 (put32 (put32 (put32 zblock 0 64) 4 30) 8 8) 12 30) 16 2) 20 32) 24 33.
Definition ex_bitmap : block := splice zblock 0 [255; 255; 255; 255; 3].
Definition ex_disk : list block := <[1%nat := ex_sb_block]> (<[33%nat := ex_bitmap]> (replicate 64 zblock)).
Definition ex_view : Z → block := dblk ex_disk.

Abbreviation ex_store := (log_store 64 2 30).

(** A disk with that super block and an empty log. *)
Record formatted (d : list block) : Prop := {
  fm_len : length d = 64%nat;
  fm_blocks : Forall (λ b, length b = Z.to_nat BSIZE) d;
  fm_log : sb_log d 2 30;
  fm_head : head_n (dblk d 2) = 0;
  fm_run : run (recover_writes 2 d) d = d;
  fm_sb : decode_sb (dblk d 1) = ex_sb;
  fm_bitmap : Forall (λ b, bit_set (dblk d 33) b = true) (seqZ 0 34);
}.
Lemma formatted_block d k : formatted d → 0 ≤ k < 64 → length (dblk d k) = Z.to_nat BSIZE.
Proof.
  intros [F1 F2 _ _ _ _ _] Hk. rw Forall_forall in F2. apply F2. rw /dblk. apply list_elem_of_lookup_total_2. lia.
Qed.
(** The system that has booted from it. *)
Lemma idle_of d : formatted d → ∃ s, log_idle 64 2 30 s (dblk d).
Proof.
  intros F. pose proof F as [F1 _ F3 F4 F5 _ _]. destruct (initlog_ok [] d 1 2 30) as (s & _ & I & N & S1 & S2 & O & Cm & D);
    [done|lia|done|lia|lia|split; rw F4; lia|by apply formatted_block|].
  exists s. rw F5 in D. split; try done; [rw D; lia|]. intros k Hk. by rw D.
Qed.
Lemma boot_of d : formatted d → ∃ s : lstate, st_rep (BlockStore := ex_store) s ∅ ∅ ∅ (dblk d).
Proof.
  intros F. destruct (idle_of d F) as (s & Id). destruct (st_begin_ok (TxStore := log_txstore 64 2 30) s (dblk d) Id) as (s' & _ & R). by exists s'.
Qed.

Lemma ex_formatted : formatted ex_disk.
Proof.
  split; [done| |by vm_compute|by vm_compute|by vm_compute|by vm_compute|repeat constructor].
  apply Forall_insert; [|by vm_compute]. apply Forall_insert; [|by vm_compute]. apply Forall_replicate. by vm_compute.
Qed.
Lemma ex_boot : ∃ s : lstate, st_rep (BlockStore := ex_store) s ∅ ∅ ∅ ex_view.
Proof. apply boot_of, ex_formatted. Qed.

Section files.
Context {S D : Type} `{!BlockStore S} (sb : superblock) (devsw : Z → devops (@fstate S D)).
Abbreviation fs := (@fstate S D).

(** ** Locking *)

(** An inode that is in the cache, valid and not locked. *)
Record free_inode (p : inode) : Prop := {
  fi_lock : sl_locked (i_lock p) = false;
  fi_valid : i_valid p = true;
  fi_ref : 1 ≤ i_ref p;
}.

Lemma ilock_ok (s : fs) ip :
  (ip < length (f_inode s))%nat → free_inode (f_inode s !!! ip) →
  ilock (Some ip) s = Ok (tt, set_inodes (<[ip := set_ilock (mkSl true (f_me s)) (f_inode s !!! ip)]> (f_inode s)) s).
Proof.
  intros Hip [F1 F2 F3]. rw /ilock /geti. mget. rewrite -> (proj2 (Z.ltb_ge _ _)) by lia.
  rw /lock_inode bind_assoc. mget. rw bind_assoc /geti. mget. rw /acquiresleep F1.
  mgo (updi_ok s ip (set_ilock (mkSl true (f_me s))) Hip). mget. cbn [f_inode set_inodes].
  by rw list_lookup_total_insert_eq //= F2.
Qed.
Lemma iunlock_ok (s : fs) ip :
  (ip < length (f_inode s))%nat → i_lock (f_inode s !!! ip) = mkSl true (f_me s) → 1 ≤ i_ref (f_inode s !!! ip) →
  iunlock (Some ip) s = Ok (tt, set_inodes (<[ip := set_ilock (mkSl false 0) (f_inode s !!! ip)]> (f_inode s)) s).
Proof.
  intros Hip Hl Hr. rw /iunlock /geti. mget. cbn [id]. rw /holdingsleep Hl /= Z.eqb_refl /=.
  rewrite -> (proj2 (Z.ltb_ge _ _)) by lia. rw /unlock_inode. by rw (updi_ok s ip _ Hip).
Qed.

(** ** Reading and writing *)

(** The inode [ip], locked and valid, is a file or directory of a well-formed file system,
    with every block up to its size present. *)
Record opened (s : fs) (ip : nat) (lg : gset Z) (v : Z → block) : Prop := {
  op_geom : geom sb;
  op_fs : fswf sb v;
  op_rep : frep s ∅ lg v;
  op_sb : f_sb s = sb;
  op_ip : (ip < length (f_inode s))%nat;
  op_iwf : iwf sb v (f_inode s !!! ip);
  op_hole : nohole v (f_inode s !!! ip);
  op_type : i_type (f_inode s !!! ip) ≠ T_DEV;
  op_inum : 0 ≤ i_inum (f_inode s !!! ip) < sb_ninodes sb;
  op_size : 0 ≤ i_size (f_inode s !!! ip) ≤ MAXFILE * BSIZE;
}.

(** What a write of [n] bytes at [off] needs: two free blocks and six log entries for
    each block it touches, and an entry for the inode. *)
Record room (s : fs) (lg : gset Z) (v : Z → block) (off n : Z) : Prop := {
  rm_free : 2 * nblocks off n ≤ Z.of_nat (nfree sb v);
  rm_log : 6 * nblocks off n + Z.of_nat (size lg) < Z.of_nat st_cap;
  rm_buf : 6 * nblocks off n + 1 + Z.of_nat (size lg) < NBUF;
}.

Lemma opened_read s ip lg v off n :
  opened s ip lg v → 0 ≤ off < 4294967296 → 0 ≤ n < 4294967296 → (size lg < nbuf)%nat →
  ∃ t, st_rep t ∅ ∅ lg v ∧
    readi devsw ip off n s =
      Ok (if (i_size (f_inode s !!! ip) <? off) || (4294967296 <=? off + n) then (-1, [])
          else (read_len (i_size (f_inode s !!! ip)) off n,
                frange v (f_inode s !!! ip) off (read_len (i_size (f_inode s !!! ip)) off n)), set_st t s).
Proof. intros [] ???. by apply (readi_ok sb). Qed.

Lemma nblocks_nonneg off n : 0 ≤ n → 0 ≤ nblocks off n.
Proof. intros Hn. rw /nblocks /BSIZE. pose proof (Z.mod_pos_bound off 512). apply Z.div_pos; lia. Qed.

(** The inode after a write: its size and its blocks may have changed. *)
Definition rewritten (p p' : inode) : Prop := p' = set_isize (i_size p') (set_iaddrs (i_addrs p') p).

Lemma opened_write s ip lg v src off :
  let n := Z.of_nat (length src) in let p := f_inode s !!! ip in
  opened s ip lg v → room s lg v off n → 0 ≤ off ≤ i_size p → off + n ≤ MAXFILE * BSIZE →
  ∃ t v' p' lg', let s' := set_inodes (<[ip := p']> (f_inode s)) (set_st t s) in
    writei devsw ip src off n s = Ok (n, s') ∧ opened s' ip lg' v' ∧ rewritten p p' ∧
    i_size p' = Z.max (i_size p) (off + n) ∧ written v p off src v' p' ∧
    Z.of_nat (size lg') ≤ Z.of_nat (size lg) + 6 * nblocks off n + 1 ∧
    Z.of_nat (nfree sb v) ≤ Z.of_nat (nfree sb v') + 2 * nblocks off n.
Proof.
  intros n p [O1 O2 O3 O4 O5 O6 O7 O8 O9 O10] [R1 R2 R3] Hoff Hmax.
  pose proof (rounds_ge off n ltac:(lia)) as Hr. pose proof (nblocks_nonneg off n ltac:(lia)) as Hb.
  change NBUF with (Z.of_nat nbuf) in R3.
  destruct (writei_ok sb devsw s ip lg v src off n (Z.to_nat (nblocks off n))) as
    (t & v' & p' & lg' & E & R' & W' & I' & N' & Hw & Hs & Hp & Hl & Hf & _); try done; try lia.
  exists t, v', p', lg'. set (s' := set_inodes (<[ip := p']> (f_inode s)) (set_st t s)) in *. cbn zeta.
  assert (f_inode s' !!! ip = p') as Ep by by rw /s' /= list_lookup_total_insert_eq.
  split; [done|]. split; [|do 3 (split; [done|]); split; lia].
  split; rw ?Ep; try done.
  - by rw /s' /= length_insert.
  - by rw Hp.
  - by rw Hp.
  - rw Hs. lia.
Qed.

(** [readi] on a file: an offset past the end, or an offset and length whose sum does
    not fit in 32 bits, is refused with -1; otherwise it returns the file's bytes from the
    offset on, as many as asked for or as there are, and changes nothing. *)
Theorem readi_reads s ip lg v off n :
  opened s ip lg v → 0 ≤ off < 4294967296 → 0 ≤ n < 4294967296 → (size lg < nbuf)%nat →
  ∃ s', opened s' ip lg v ∧ f_inode s' = f_inode s ∧
    readi devsw ip off n s = Ok (
      if (i_size (f_inode s !!! ip) <? off) || (4294967296 <=? off + n) then (-1, [])
      else let m := Z.min n (i_size (f_inode s !!! ip) - off) in
           (m, (λ i, fbyte v (f_inode s !!! ip) (off + i)) <$> seqZ 0 m), s').
Proof.
  intros O Ho Hn Hl. destruct (opened_read s ip lg v off n O Ho Hn Hl) as (t & R & E).
  exists (set_st t s). split; [by destruct O|]. split; [done|]. rw E. do 2 f_equal.
  destruct (_ || _); [done|].
  assert (read_len (i_size (f_inode s !!! ip)) off n = Z.min n (i_size (f_inode s !!! ip) - off)) as ->; [|done].
  rw /read_len. destruct (Z.ltb_spec (i_size (f_inode s !!! ip)) (off + n)); lia.
Qed.


(** The bytes of a range that has just been written. *)
Lemma frange_written v p off src v' p' :
  written v p off src v' p' → 0 ≤ off → off + Z.of_nat (length src) ≤ MAXFILE * BSIZE →
  frange v' p' off (Z.of_nat (length src)) = src.
Proof.
  intros Hw Ho Hm. rw /frange. apply list_eq. intros i. rw list_lookup_fmap.
  destruct (decide (i < length src)%nat) as [Hi|Hi].
  - rewrite -> lookup_seqZ_lt by lia. simpl. rw Hw; [lia|]. rewrite -> decide_True by lia.
    replace (Z.to_nat (off + (0 + Z.of_nat i) - off)) with i by lia. symmetry. by apply list_lookup_lookup_total_lt.
  - rewrite -> lookup_seqZ_ge by lia. symmetry. apply lookup_ge_None_2. lia.
Qed.

(** What [writei] writes, [readi] reads back. *)
Theorem writei_readi s ip lg v src off :
  let n := Z.of_nat (length src) in
  opened s ip lg v → room s lg v off n → 0 ≤ off ≤ i_size (f_inode s !!! ip) → off + n ≤ MAXFILE * BSIZE →
  ∃ s', (r ← writei devsw ip src off n; x ← readi devsw ip off n; mret (r, x)) s = Ok ((n, (n, src)), s').
Proof.
  intros n O R Ho Hm. pose proof R as [_ _ R3]. assert (off + n < 4294967296) as Hu by (rw MAXFILE_eq /BSIZE in Hm; lia).
  destruct (opened_write s ip lg v src off O R Ho Hm) as (t1 & v1 & p1 & lg1 & E1 & O1 & _ & Hs & Hw & Hl & _).
  set (s1 := set_inodes (<[ip := p1]> (f_inode s)) (set_st t1 s)) in *.
  assert (f_inode s1 !!! ip = p1) as Ep by (rw /s1 /=; rewrite -> list_lookup_total_insert_eq; [done|apply O]).
  destruct (opened_read s1 ip lg1 v1 off n O1) as (t & _ & E2); [lia|lia| |].
  { pose proof (nblocks_nonneg off n ltac:(lia)). change NBUF with (Z.of_nat nbuf) in R3.
    fold n in Hl. lia. }
  exists (set_st t s1). mgo E1. mgo E2. rw Ep Hs -/n.
  rewrite -> (proj2 (orb_false_iff _ _)) by (split; [apply Z.ltb_ge|apply Z.leb_gt]; lia).
  rw /read_len. rewrite -> (proj2 (Z.ltb_ge _ _)) by lia. by rw (frange_written _ _ _ _ _ _ Hw); [lia|lia|].
Qed.
End files.

(** ** An example *)

Lemma ex_BBLOCK b : 0 ≤ b < 64 → BBLOCK b ex_sb = 33.
Proof.
  intros Hb. rw /BBLOCK (u32_small b); [lia|]. change BPB with 4096. rw Z.div_small; [lia|]. by vm_compute.
Qed.
Lemma ex_IBLOCK i : 0 ≤ i < 8 → IBLOCK i ex_sb = 32.
Proof.
  intros Hi. rw /IBLOCK (u32_small i); [lia|]. change IPB with 8. rw Z.div_small; [lia|]. by vm_compute.
Qed.
Lemma ex_geom : geom (BlockStore0 := ex_store) ex_sb.
Proof.
  assert (sb_size ex_sb = 64 ∧ sb_ninodes ex_sb = 8 ∧ sb_bmapstart ex_sb = 33 ∧ sb_inodestart ex_sb = 32) as (E1 & E2 & E3 & E4)
    by by vm_compute.
  split; rw ?E1 ?E2 ?E3 ?E4; simpl; try lia; intros; rewrite -> ?ex_BBLOCK, ?ex_IBLOCK by lia; try lia; split; lia.
Qed.
Lemma formatted_fswf d : formatted d → fswf (BlockStore0 := ex_store) ex_sb (dblk d).
Proof.
  intros F. split; [|change (sb_size ex_sb) with 64; intros b Hb Hu|by destruct F].
  - intros k Hk. apply formatted_block; [done|]. simpl in Hk. lia.
  - assert (34 ≤ b) as Hb'.
    { destruct (decide (b < 34)); [|lia]. exfalso. apply Hu. rw /used ex_BBLOCK; [lia|]. change BPB with 4096. rw Z.mod_small; [lia|].
      pose proof (fm_bitmap _ F) as H. rw Forall_forall in H. apply H. apply elem_of_seqZ. lia. }
    split; [simpl; lia|]. rw /meta. change (sb_size ex_sb) with 64. change (sb_ninodes ex_sb) with 8.
    intros [?|[?|[(c & Hc & Ec)|(i & Hi & Ei)]]]; [lia|lia|rw ex_BBLOCK // in Ec; lia|rw ex_IBLOCK // in Ei; lia].
Qed.
Lemma ex_fswf : fswf (BlockStore0 := ex_store) ex_sb ex_view.
Proof. apply formatted_fswf, ex_formatted. Qed.

(** The empty file of inode 1. *)
Definition ex_empty (ty : Z) : inode := mkInode 1 1 1 (mkSl true 1) true ty 0 0 1 0 (replicate 13 0).
Abbreviation ex_fs_of s ty l := (@mkFs lstate unit s ex_sb (ex_empty ty :: l) tt 1 0).
Abbreviation ex_fs s := (ex_fs_of s T_FILE []).
Definition no_dev : Z → devops (@fstate lstate unit) := λ _, mkDev None None.

Lemma ex_opened_of ty l : ty ≠ T_DEV → ∃ s, opened (BlockStore0 := ex_store) ex_sb (ex_fs_of s ty l) 0 ∅ ex_view.
Proof.
  intros Hty. destruct ex_boot as (s & R). exists s.
  assert (∀ bn, iblk ex_view (ex_empty ty) bn = 0) as H0.
  { intros bn. rw /iblk. cbn [ind ex_empty i_addrs]. destruct (Z.ltb_spec bn NDIRECT) as [Hb|Hb]; [|done].
    rw /NDIRECT in Hb. rw lookup_total_replicate_2; [lia|]. done. }
  split; try done; cbn [f_inode lookup_total list_lookup_total].
  - apply ex_geom.
  - apply ex_fswf.
  - simpl. lia.
  - split; try done.
    + intros bn _. by rw H0.
    + intros bn bn' _ _. by rw H0.
  - intros bn Hb Hs. simpl in Hs. rw /BSIZE in Hs. lia.
Qed.
Lemma ex_opened : ∃ s, opened (BlockStore0 := ex_store) ex_sb (ex_fs s) 0 ∅ ex_view.
Proof. by apply ex_opened_of. Qed.

#[local] Instance ex_inst : BlockStore lstate := ex_store.

Lemma readi_reads_witness :
  ∃ s s', readi no_dev 0 0 5 (ex_fs s) = Ok ((0, []), s').
Proof.
  destruct ex_opened as (s & O). exists s.
  destruct (readi_reads ex_sb no_dev (ex_fs s) 0 ∅ ex_view 0 5 O) as (s' & _ & _ & E); [lia|lia|rw size_empty; by apply Nat.ltb_lt|].
  exists s'. exact E.
Defined.

Lemma ex_room (s : @fstate lstate unit) n : 0 ≤ n ≤ 512 → room (BlockStore0 := ex_store) ex_sb s ∅ ex_view 0 n.
Proof.
  intros Hn. assert (nblocks 0 n ≤ 1) as Hb.
  { rw /nblocks /BSIZE. change (0 mod 512) with 0. enough ((0 + n + (512 - 1)) / 512 < 2) by lia.
    apply Z.div_lt_upper_bound; lia. }
  assert (nfree ex_sb ex_view = 30%nat) as Hf by by vm_compute.
  split; rw ?Hf ?size_empty; simpl; rw /NBUF /MAXOPBLOCKS; lia.
Qed.


Lemma writei_readi_witness :
  ∃ s s', (r ← writei no_dev 0 [104; 105] 0 2; x ← readi no_dev 0 0 2; mret (r, x)) (ex_fs s) =
    Ok ((2, (2, [104; 105])), s').
Proof.
  destruct ex_opened as (s & O). exists s.
  destruct (writei_readi ex_sb no_dev (ex_fs s) 0 ∅ ex_view [104; 105] 0 O) as (s' & E);
    [by apply ex_room|simpl; lia|by vm_compute|].
  exists s'. exact E.
Defined.
