(* ===== verification/FsDir.v ===== *)
(** * Directories

    A directory's entries are the consecutive 16-byte pieces of its contents.
    [dirlookup] finds the first entry in use with the given name, [dirlink] fills the
    first free one or appends, and the two agree. *)

From S2P Require Import Prelude Params Bytes Bio BioSpec Log LogSpec Tx Fs FsSpec FsFile Files.

(** ** Names *)

Lemma strncmp_pad n : ∀ p m, (n ≤ m)%nat → strncmp_list n p (take n (p ++ replicate m 0)) = 0.
Proof.
  induction n as [|n IH]; intros p m Hm; [done|]. destruct m as [|m]; [lia|]. destruct p as [|c p]; cbn; [done|].
  rw Z.eqb_refl /=. destruct (Z.eqb_spec c 0) as [->|Hc]; [done|]. cbn. apply (IH p (S m)). lia.
Qed.
Lemma namecmp_pad name : namecmp name (pad_name name) = 0.
Proof. by apply strncmp_pad. Qed.
Lemma length_pad_name name : length (pad_name name) = 14%nat.
Proof. rw /pad_name length_take length_app length_replicate. change (Z.to_nat DIRSIZ) with 14%nat. lia. Qed.
Lemma u16_small x : 0 ≤ x < 65536 → u16 x = x.
Proof. apply Z.mod_small. Qed.
Lemma length_mk_dirent inum name : length (mk_dirent inum name) = Z.to_nat DIRENT.
Proof. by rw /mk_dirent length_app length_pad_name. Qed.
Lemma de_name_mk inum name : de_name (mk_dirent inum name) = pad_name name.
Proof.
  rw /de_name /mk_dirent /slice /=. change (Z.to_nat DIRSIZ) with 14%nat. apply take_ge. by rw length_pad_name.
Qed.
Lemma de_inum_mk inum name : de_inum (mk_dirent inum name) = u16 inum.
Proof.
  rw /de_inum /get16 /byte_at /mk_dirent /=. rw /u8 !Z.mod_mod //. rw /u16. dlia.
Qed.

(** The part of a name that [namecmp] looks at: up to [DIRSIZ] bytes, up to the first NUL. *)
Fixpoint canon (n : nat) (p : list Z) : list Z :=
  match n with
  | O => []
  | Datatypes.S n => let a := default 0 (p !! 0%nat) in if a =? 0 then [] else a :: canon n (tail p)
  end.
Definition same_name (a b : list Z) : Prop := canon (Z.to_nat DIRSIZ) a = canon (Z.to_nat DIRSIZ) b.

Lemma strncmp_canon n : ∀ p q, strncmp_list n p q = 0 ↔ canon n p = canon n q.
Proof.
  induction n as [|n IH]; intros p q; [done|]. cbn [strncmp_list canon]. cbn zeta.
  set (a := default 0 (p !! 0%nat)). set (b := default 0 (q !! 0%nat)).
  destruct (Z.eqb_spec a b) as [E|E]; destruct (Z.eqb_spec a 0) as [Ea|Ea]; destruct (Z.eqb_spec b 0) as [Eb|Eb];
    cbn [negb andb]; try lia; rw ?IH; split; intros H; try lia; try done; try congruence.
Qed.
Lemma namecmp_same a b : namecmp a b = 0 ↔ same_name a b.
Proof. apply strncmp_canon. Qed.
#[export] Instance same_name_dec a b : Decision (same_name a b) := decide (canon _ a = canon _ b).
Lemma same_name_pad a b : same_name a (pad_name b) ↔ same_name a b.
Proof. pose proof (proj1 (namecmp_same _ _) (namecmp_pad b)) as H. rw /same_name in H |- *. by rw -H. Qed.

Section dir.
Context {S D : Type} `{!BlockStore S} (sb : superblock) (devsw : Z → devops (@fstate S D)).
Abbreviation fs := (@fstate S D).

Definition dentry (v : Z → block) (p : inode) (i : Z) : list Z := frange v p (DIRENT * i) DIRENT.
Definition in_use (v : Z → block) (p : inode) (i : Z) : Prop := de_inum (dentry v p i) ≠ 0.
Definition named (v : Z → block) (p : inode) (name : list Z) (i : Z) : Prop :=
  in_use v p i ∧ same_name name (de_name (dentry v p i)).
Definition nentries (p : inode) : Z := i_size p / DIRENT.

Record isdir (s : fs) (dp : nat) (lg : gset Z) (v : Z → block) : Prop := {
  id_open : opened sb s dp lg v;
  id_type : i_type (f_inode s !!! dp) = T_DIR;
  id_whole : i_size (f_inode s !!! dp) mod DIRENT = 0;
  id_buf : (size lg < nbuf)%nat;
}.

Lemma isdir_st s dp lg v t : isdir s dp lg v → st_rep t ∅ ∅ lg v → isdir (set_st t s) dp lg v.
Proof. intros [O T H B] R. split; try done. by destruct O. Qed.

Lemma isdir_size s dp lg v : isdir s dp lg v → i_size (f_inode s !!! dp) = DIRENT * nentries (f_inode s !!! dp).
Proof. intros [_ _ H _]. rw /nentries. rw /DIRENT in H |- *. clear -H. dlia. Qed.

(** An entry is inside one block. *)
Lemma nblocks_entry e : 0 ≤ e → nblocks (DIRENT * e) (Z.of_nat (Z.to_nat DIRENT)) = 1.
Proof. intros He. rw /nblocks /DIRENT /BSIZE. dlia. Qed.
Lemma room_entry (s : fs) t lg v e : 0 ≤ e → room sb s lg v 0 DIRENT → room sb (set_st t s) lg v (DIRENT * e) (Z.of_nat (Z.to_nat DIRENT)).
Proof. intros He [R1 R2 R3]. by split; rw nblocks_entry. Qed.

(** The loops' [readi] of one entry. *)
Lemma read_entry s dp lg v i :
  isdir s dp lg v → 0 ≤ i < nentries (f_inode s !!! dp) →
  ∃ t, st_rep t ∅ ∅ lg v ∧ readi devsw dp (DIRENT * i) DIRENT s = Ok ((DIRENT, dentry v (f_inode s !!! dp) i), set_st t s).
Proof.
  intros [O T H B] Hi. set (p := f_inode s !!! dp) in *. rw /nentries /DIRENT in Hi. rw /DIRENT in H.
  pose proof (op_size _ _ _ _ _ O) as Hs. rw -/p MAXFILE_eq /BSIZE in Hs.
  assert (16 * i + 16 ≤ i_size p) as Hend by (clear -Hi H Hs; dlia).
  destruct (opened_read sb devsw s dp lg v (DIRENT * i) DIRENT O) as (t & R & E); [rw /DIRENT; lia|rw /DIRENT; lia|done|].
  exists t. split; [done|]. rw E -/p /DIRENT /read_len.
  rewrite -> (proj2 (orb_false_iff _ _)) by (split; [apply Z.ltb_ge|apply Z.leb_gt]; lia).
  by rewrite -> (proj2 (Z.ltb_ge _ _)) by lia.
Qed.

(** ** dirlookup *)

Lemma dirlookup_loop_ok name k : ∀ s dp lg v j,
  let p := f_inode s !!! dp in
  isdir s dp lg v → 0 ≤ j ≤ nentries p → nentries p - j < Z.of_nat k → (∀ i, 0 ≤ i < j → ¬ named v p name i) →
  ∃ t, st_rep t ∅ ∅ lg v ∧
   ((∀ i, 0 ≤ i < nentries p → ¬ named v p name i) ∧ dirlookup_loop devsw dp name k (DIRENT * j) s = Ok (None, set_st t s) ∨
    ∃ i, 0 ≤ i < nentries p ∧ named v p name i ∧ (∀ i', 0 ≤ i' < i → ¬ named v p name i') ∧
      dirlookup_loop devsw dp name k (DIRENT * j) s =
        (ip ← iget (i_dev p) (de_inum (dentry v p i)); mret (Some (ip, DIRENT * i))) (set_st t s)).
Proof.
  induction k as [|k IH]; intros s dp lg v j p I Hj Hk Hno; [lia|]. cbn [dirlookup_loop]. rw /geti. mget. rw -/p.
  pose proof (isdir_size _ _ _ _ I) as Esz. rw -/p in Esz.
  destruct (Z.ltb_spec (DIRENT * j) (i_size p)) as [Hlt|Hge]; cbn [negb].
  2: { exists (f_st s). split; [apply I|]. left. split; [|by destruct s]. intros i Hi. apply Hno. rw /DIRENT in Esz Hge. lia. }
  assert (0 ≤ j < nentries p) as Hj' by (rw /DIRENT in Esz Hlt; lia).
  destruct (read_entry s dp lg v j I Hj') as (t & R & E). rw -/p in E. mgo E. cbn [fst snd]. rw Z.eqb_refl. cbn [negb].
  assert (isdir (set_st t s) dp lg v) as I' by by apply isdir_st.
  replace (DIRENT * j + DIRENT) with (DIRENT * (j + 1)) by lia.
  assert (∀ (H : ¬ named v p name j), ∀ i, 0 ≤ i < j + 1 → ¬ named v p name i) as Hnext.
  { intros H i Hi. destruct (decide (i = j)) as [->|]; [done|]. apply Hno. lia. }
  destruct (Z.eqb_spec (de_inum (dentry v p j)) 0) as [H0|H0].
  { destruct (IH (set_st t s) dp lg v (j + 1) I') as (t' & R' & H'); [simpl; fold p; lia|simpl; fold p; lia|apply Hnext; by intros [? _]|].
    exists t'. by split. }
  destruct (Z.eqb_spec (namecmp name (de_name (dentry v p j))) 0) as [Hn|Hn]; rw namecmp_same in Hn.
  - exists t. split; [done|]. right. exists j. split; [done|]. split; [by split|]. split; [done|]. mget. done.
  - destruct (IH (set_st t s) dp lg v (j + 1) I') as (t' & R' & H'); [simpl; fold p; lia|simpl; fold p; lia|apply Hnext; by intros [_ ?]|].
    exists t'. by split.
Qed.

Lemma dirlookup_ok name s dp lg v :
  let p := f_inode s !!! dp in
  isdir s dp lg v →
  ∃ t, st_rep t ∅ ∅ lg v ∧
   ((∀ i, 0 ≤ i < nentries p → ¬ named v p name i) ∧ dirlookup devsw dp name s = Ok (None, set_st t s) ∨
    ∃ i, 0 ≤ i < nentries p ∧ named v p name i ∧ (∀ i', 0 ≤ i' < i → ¬ named v p name i') ∧
      dirlookup devsw dp name s =
        (ip ← iget (i_dev p) (de_inum (dentry v p i)); mret (Some (ip, DIRENT * i))) (set_st t s)).
Proof.
  intros p I. rw /dirlookup /geti. mget. cbn [id]. rw -/p (id_type _ _ _ _ I). cbn [negb]. rw Z.eqb_refl. cbn [negb].
  pose proof (op_size _ _ _ _ _ (id_open _ _ _ _ I)) as Hs. rw -/p in Hs.
  assert (0 ≤ nentries p) as Hn by (rw /nentries /DIRENT; apply Z.div_pos; lia).
  apply (dirlookup_loop_ok name _ s dp lg v 0); [done|fold p; lia| |lia].
  fold p. rw /nentries in Hn |- *. lia.
Qed.

(** ** dirlink *)

(** The loop stops at the first entry not in use, or at the end. *)
Lemma dirlink_loop_ok k : ∀ s dp lg v j,
  let p := f_inode s !!! dp in
  isdir s dp lg v → 0 ≤ j ≤ nentries p → nentries p - j < Z.of_nat k →
  ∃ t e, st_rep t ∅ ∅ lg v ∧ j ≤ e ≤ nentries p ∧ (e < nentries p → ¬ in_use v p e) ∧
    dirlink_loop devsw dp k (DIRENT * j) s = Ok (DIRENT * e, set_st t s).
Proof.
  induction k as [|k IH]; intros s dp lg v j p I Hj Hk; [lia|]. cbn [dirlink_loop]. rw /geti. mget. rw -/p.
  pose proof (isdir_size _ _ _ _ I) as Esz. rw -/p in Esz.
  destruct (Z.ltb_spec (DIRENT * j) (i_size p)) as [Hlt|Hge]; cbn [negb].
  2: { exists (f_st s), j. split; [apply I|]. rw /DIRENT in Esz Hge. split; [lia|]. split; [lia|]. by destruct s. }
  assert (0 ≤ j < nentries p) as Hj' by (rw /DIRENT in Esz Hlt; lia).
  destruct (read_entry s dp lg v j I Hj') as (t & R & E). rw -/p in E. mgo E. cbn [fst snd]. rw Z.eqb_refl. cbn [negb].
  destruct (Z.eqb_spec (de_inum (dentry v p j)) 0) as [H0|H0].
  { exists t, j. split; [done|]. split; [lia|]. split; [|done]. rw /in_use. lia. }
  replace (DIRENT * j + DIRENT) with (DIRENT * (j + 1)) by lia.
  destruct (IH (set_st t s) dp lg v (j + 1)) as (t' & e & R' & He & Hf & E'); [by apply isdir_st|simpl; fold p; lia|simpl; fold p; lia|].
  simpl in He. fold p in He. exists t', e. split; [done|]. split; [lia|]. by split.
Qed.

(** The entries of a directory after one of them, or one past the end, is written. *)
Lemma dentry_written v p e d v' p' i :
  written v p (DIRENT * e) d v' p' → length d = Z.to_nat DIRENT → 0 ≤ e → 0 ≤ i →
  DIRENT * e + DIRENT ≤ MAXFILE * BSIZE → DIRENT * i + DIRENT ≤ MAXFILE * BSIZE →
  dentry v' p' i = if decide (i = e) then d else dentry v p i.
Proof.
  intros Hw Hd He Hi Hme Hmi. rw /dentry. case_decide as Hie.
  - subst i. replace DIRENT with (Z.of_nat (length d)) at 2 by (rw Hd; done). apply (frange_written v p); [done| |]; rw /DIRENT in Hd Hme |- *; lia.
  - rw /frange. apply list_fmap_ext. intros k x Hk. apply lookup_seqZ in Hk as [-> Hk]. rw /DIRENT in Hk Hd Hmi Hme Hw |- *.
    rw Hw; [lia|]. by rewrite -> decide_False by lia.
Qed.

Definition resolves (v : Z → block) (p : inode) (name : list Z) (i : Z) : Prop :=
  0 ≤ i < nentries p ∧ named v p name i ∧ ∀ i', 0 ≤ i' < i → ¬ named v p name i'.
Definition absent (v : Z → block) (p : inode) (name : list Z) : Prop := ∀ i, 0 ≤ i < nentries p → ¬ named v p name i.

Lemma dirlink_ok s dp lg v name inum :
  let p := f_inode s !!! dp in
  isdir s dp lg v → room sb s lg v 0 DIRENT → i_size p + DIRENT ≤ MAXFILE * BSIZE → absent v p name →
  ∃ t v' p' lg' e, let s' := set_inodes (<[dp := p']> (f_inode s)) (set_st t s) in
    dirlink devsw dp name inum s = Ok (0, s') ∧ isdir s' dp lg' v' ∧ rewritten p p' ∧
    0 ≤ e ≤ nentries p ∧ (e < nentries p → ¬ in_use v p e) ∧ nentries p' = Z.max (nentries p) (e + 1) ∧
    ∀ i, 0 ≤ i < nentries p' → dentry v' p' i = if decide (i = e) then mk_dirent inum name else dentry v p i.
Proof.
  intros p I R Hmax Habs. pose proof (isdir_size _ _ _ _ I) as Esz. rw -/p in Esz.
  pose proof (op_size _ _ _ _ _ (id_open _ _ _ _ I)) as Hs. rw -/p in Hs.
  assert (0 ≤ nentries p) as Hn by (rw /nentries /DIRENT; apply Z.div_pos; lia).
  rw /dirlink. destruct (dirlookup_ok name s dp lg v I) as (t1 & R1 & [[_ E1]|(i & Hi & Hi' & _)]); [|by destruct (Habs i)].
  mgo E1. rw /geti. mget. rw -/p. assert (isdir (set_st t1 s) dp lg v) as I1 by by apply isdir_st.
  destruct (dirlink_loop_ok (Z.to_nat (i_size p / DIRENT + 2)) (set_st t1 s) dp lg v 0 I1) as (t2 & e & R2 & He & Hf & E2);
    [simpl; fold p; lia|simpl; fold p; rw /nentries in Hn |- *; lia|].
  mgo E2. assert (isdir (set_st t2 s) dp lg v) as I2 by by apply isdir_st.
  simpl in He, Hf. fold p in He, Hf. pose proof (length_mk_dirent inum name) as Hl.
  destruct (opened_write sb devsw (set_st t2 s) dp lg v (mk_dirent inum name) (DIRENT * e))
    as (t & v' & p' & lg' & E & O' & Hp & Hs' & Hw & Hlg & _);
    [apply I2|rw Hl; apply room_entry; [lia|done]| |rw Hl; simpl; rw /DIRENT in Hmax Esz |- *; simpl; fold p; lia|].
  { simpl; fold p. rw Esz. rw /DIRENT. lia. }
  rw Hl in E. change (Z.of_nat (Z.to_nat DIRENT)) with DIRENT in E. rw Hl in Hs'. change (Z.of_nat (Z.to_nat DIRENT)) with DIRENT in Hs'.
  simpl in Hs', Hw, Hp. fold p in Hs', Hw, Hp. mgo E. rw Z.eqb_refl. cbn [negb].
  exists t, v', p', lg', e. cbn zeta. set (s' := set_inodes _ (set_st t s)).
  assert (f_inode s' !!! dp = p') as Ep by (rw /s' /=; rewrite -> list_lookup_total_insert_eq; [done|apply I]).
  assert (i_size p' = DIRENT * Z.max (nentries p) (e + 1)) as Esz' by (rw Hs' Esz /DIRENT; lia).
  assert (nentries p' = Z.max (nentries p) (e + 1)) as En by (rw /nentries Esz' Z.mul_comm Z.div_mul //).
  split; [done|]. split.
  { split; [done|rw Ep Hp; exact (id_type _ _ _ _ I)|rw Ep Esz' Z.mul_comm Z_mod_mult //|].
    rw Hl in Hlg. pose proof R as [_ _ R3]. rw nblocks_entry in Hlg; [lia|]. change (nblocks 0 DIRENT) with 1 in R3. change NBUF with (Z.of_nat nbuf) in R3. lia. }
  split; [done|]. split; [lia|]. split; [done|]. split; [done|].
  intros i Hi. apply (dentry_written v p); [done|done|lia|lia| |]; rw /DIRENT in Hmax Esz Hi |- *; lia.
Qed.

Lemma named_written v p v' p' e i name name' inum :
  (i = e → dentry v' p' i = mk_dirent inum name) → (i ≠ e → dentry v' p' i = dentry v p i) → 0 < inum < 65536 →
  named v' p' name' i ↔ if decide (i = e) then same_name name' name else named v p name' i.
Proof.
  intros Hd1 Hd2 Hi. rw /named /in_use. case_decide as H; [|by rw Hd2].
  rw (Hd1 H) de_inum_mk de_name_mk same_name_pad u16_small; [lia|]. split; [by intros []|]. intros. split; [lia|done].
Qed.

(** A name resolves, after [dirlink], to the new entry, and any other name as before. *)
Lemma resolves_written v p v' p' e name name' inum :
  0 ≤ e ≤ nentries p → (e < nentries p → ¬ in_use v p e) → nentries p' = Z.max (nentries p) (e + 1) →
  (∀ i, 0 ≤ i < nentries p' → dentry v' p' i = if decide (i = e) then mk_dirent inum name else dentry v p i) →
  0 < inum < 65536 → absent v p name → ∀ i,
  resolves v' p' name' i ↔ if decide (same_name name' name) then i = e else resolves v p name' i.
Proof.
  intros He Hfree Hn Hd Hinum Habs i.
  assert (∀ i, 0 ≤ i < nentries p' → named v' p' name' i ↔ if decide (i = e) then same_name name' name else named v p name' i) as N.
  { intros k Hk. apply (named_written _ _ _ _ _ _ _ _ inum); [| |done]; intros Hke; rw Hd //; by case_decide. }
  rw /resolves. case_decide as Hs.
  - assert (∀ k, 0 ≤ k < nentries p' → named v' p' name' k ↔ k = e) as N'.
    { intros k Hk. rw N //. case_decide as Hke; [done|]. split; [|done]. intros [Hu Hm]. exfalso.
      apply (Habs k); [lia|]. split; [done|]. rw /same_name in Hs, Hm |- *. by rw -Hs. }
    split; [intros (? & ? & _); by apply N'|intros ->]. split; [lia|]. split; [apply N'; [lia|done]|].
    intros k Hk. rw N'; lia.
  - assert (∀ k, 0 ≤ k < nentries p' → named v' p' name' k ↔ k < nentries p ∧ named v p name' k) as N'.
    { intros k Hk. rw N //. case_decide as Hke; [|split; [split; [lia|done]|by intros []]].
      split; [done|]. intros [Hk' [Hu _]]. exfalso. subst k. by apply Hfree. }
    split; [intros (H1 & H2 & H3)|intros (H1 & H2 & H3)].
    + apply N' in H2 as [H2 H2']; [|done]. split; [lia|]. split; [done|]. intros k Hk Hk'. apply (H3 k Hk), N'; [lia|]. split; [lia|done].
    + split; [lia|]. split; [by apply N'; [lia|split; [lia|]]|]. intros k Hk Hk'. apply N' in Hk' as [_ Hk']; [|lia]. by apply (H3 k Hk).
Qed.


(** ** iget *)

Definition holds (dev inum : Z) (q : inode) : Prop := 0 < i_ref q ∧ i_dev q = dev ∧ i_inum q = inum.
Definition available (dev inum : Z) (l : list inode) : Prop :=
  ∃ k q, l !! k = Some q ∧ (i_ref q = 0 ∨ holds dev inum q).

Lemma iget_scan_ok dev inum l : ∀ i e,
  match iget_scan l dev inum i e with
  | inl j => ∃ k q, j = (i + k)%nat ∧ l !! k = Some q ∧ holds dev inum q
  | inr r => (∀ k q, l !! k = Some q → ¬ holds dev inum q) ∧
      match e, r with
      | Some j, _ => r = Some j
      | None, Some j => ∃ k q, j = (i + k)%nat ∧ l !! k = Some q ∧ i_ref q = 0
      | None, None => ∀ k q, l !! k = Some q → i_ref q ≠ 0
      end
  end.
Proof.
  induction l as [|q l IH]; intros i e; cbn [iget_scan]; [destruct e; split; done|].
  destruct ((0 <? i_ref q) && (i_dev q =? dev) && (i_inum q =? inum)) eqn:Eq.
  { exists 0%nat, q. split; [lia|]. split; [done|]. rw /holds. lia. }
  assert (¬ holds dev inum q) as Hq by (rw /holds; lia).
  set (e' := match e with None => if i_ref q =? 0 then Some i else None | Some e => Some e end).
  specialize (IH (Datatypes.S i) e'). destruct (iget_scan l dev inum (Datatypes.S i) e') as [j|r].
  { destruct IH as (k & q' & -> & Hk & Hq'). exists (Datatypes.S k), q'. split; [lia|done]. }
  destruct IH as [Hno IH]. split; [by intros [|k] q' Hk; [injection Hk as <-|apply (Hno k)]|].
  rw /e' in IH. destruct e as [j|]; [done|]. destruct (Z.eqb_spec (i_ref q) 0) as [H0|H0].
  { rw IH. exists 0%nat, q. split; [lia|done]. }
  destruct r as [j|]; [|by intros [|k] q' Hk; [injection Hk as <-|apply (IH k)]].
  destruct IH as (k & q' & -> & Hk & Hq'). exists (Datatypes.S k), q'. split; [lia|done].
Qed.

Lemma iget_ok dev inum (s : fs) :
  available dev inum (f_inode s) → ∃ ip q, (ip < length (f_inode s))%nat ∧ holds dev inum q ∧
    iget dev inum s = Ok (ip, set_inodes (<[ip := q]> (f_inode s)) s).
Proof.
  intros (k & q & Hk & Hq). rw /iget. mget. pose proof (iget_scan_ok dev inum (f_inode s) 0 None) as Hs.
  destruct (iget_scan (f_inode s) dev inum 0 None) as [j|[j|]].
  - destruct Hs as (k' & q' & -> & Hk' & (H1 & H2 & H3)). exists (0 + k')%nat, (set_iref (i_ref q' + 1) q').
    split; [by apply lookup_lt_Some in Hk'|]. split; [rw /holds /=; lia|]. rw /updi. mrun.
    by rw (list_alter_insert_Some _ _ _ q').
  - destruct Hs as (_ & k' & q' & -> & Hk' & H0).
    exists (0 + k')%nat, (set_ivalid false (set_iref 1 (set_iid dev inum q'))).
    split; [by apply lookup_lt_Some in Hk'|]. split; [rw /holds /=; lia|]. rw /updi. mrun.
    by rw (list_alter_insert_Some _ _ _ q').
  - exfalso. destruct Hs as [Hno H0]. destruct Hq as [Hq|Hq]; [by apply (H0 k q)|by apply (Hno k q)].
Qed.

(** A name linked into a directory is found there: after [dirlink], [dirlookup] returns
    an inode of the cache, referenced, that holds the inode linked on the directory's
    device, provided the cache has the inode or a free entry. *)
Theorem dirlink_dirlookup s dp lg v name inum :
  let p := f_inode s !!! dp in
  isdir s dp lg v → room sb s lg v 0 DIRENT → i_size p + DIRENT ≤ MAXFILE * BSIZE → 0 < inum < 65536 → absent v p name →
  available (i_dev p) inum (f_inode s) →
  ∃ ip off s', (r ← dirlink devsw dp name inum; x ← dirlookup devsw dp name; mret (r, x)) s = Ok ((0, Some (ip, off)), s') ∧
    holds (i_dev p) inum (f_inode s' !!! ip).
Proof.
  intros p I R Hmax Hi Habs Hav.
  destruct (dirlink_ok s dp lg v name inum I R Hmax Habs) as (t & v' & p' & lg' & e & E & I' & Hp & He & Hf & Hn & Hd). fold p in Hp, He, Hf, Hn, Hd.
  mgo E. set (s' := set_inodes _ (set_st t s)) in *.
  assert (dp < length (f_inode s))%nat as Hdp by apply I.
  assert (f_inode s' !!! dp = p') as Ep by by rw /s' /= list_lookup_total_insert_eq.
  pose proof (resolves_written v p v' p' e name name inum He Hf Hn Hd Hi Habs) as Hr.
  destruct (dirlookup_ok name s' dp lg' v' I') as (t' & R' & H'). rw Ep in H'.
  destruct H' as [[Ha _]|(i & Hi1 & Hi2 & Hi3 & E')].
  { exfalso. destruct (proj2 (Hr e)) as (H1 & H2 & _); [by case_decide|]. by apply (Ha e). }
  assert (resolves v' p' name i) as Hres by by split.
  apply Hr in Hres. rewrite -> decide_True in Hres by done. subst i.
  assert (de_inum (dentry v' p' e) = inum) as Ed by (rw Hd // decide_True // de_inum_mk u16_small //; lia).
  assert (i_dev p' = i_dev p) as Edev by by rw Hp.
  destruct (iget_ok (i_dev p) inum (set_st t' s')) as (ip & q & Hip & Hq & Eg).
  { destruct Hav as (k & q & Hk & Hq). destruct (decide (k = dp)) as [->|Hne].
    - exists dp, p'. split; [by rw /s' /= list_lookup_insert_eq|]. assert (q = p) as -> by (rw /p; symmetry; by apply list_lookup_total_correct).
      rw Hp. exact Hq.
    - exists k, q. split; [|done]. by rw /s' /= list_lookup_insert_ne. }
  rw Ed Edev in E'. rewrite -> (bind_Ok _ _ _ _ _ Eg) in E'. mgo E'. eexists _, _, _. split; [reflexivity|]. by rw /= list_lookup_total_insert_eq.
Qed.
End dir.

(** ** An example: an empty directory *)

#[local] Instance ex_inst : BlockStore lstate := ex_store.
Abbreviation ex_free := (mkInode 0 0 0 (mkSl false 0) false 0 0 0 0 0 []).

Lemma ex_isdir : ∃ s, isdir ex_sb (ex_fs_of s T_DIR [ex_free]) 0 ∅ ex_view.
Proof.
  destruct (ex_opened_of T_DIR [ex_free]) as (s & O); [done|]. exists s.
  split; [exact O|reflexivity|reflexivity|]. rw size_empty. by apply Nat.ltb_lt.
Qed.


Lemma dirlink_dirlookup_witness :
  ∃ s ip off s', (r ← dirlink no_dev 0 [104; 105] 3; x ← dirlookup no_dev 0 [104; 105]; mret (r, x)) (ex_fs_of s T_DIR [ex_free]) =
    Ok ((0, Some (ip, off)), s') ∧ i_inum (f_inode s' !!! ip) = 3.
Proof.
  destruct ex_isdir as (s & I). exists s.
  destruct (dirlink_dirlookup ex_sb no_dev (ex_fs_of s T_DIR [ex_free]) 0 ∅ ex_view [104; 105] 3 I) as (ip & off & s' & E & _ & _ & H);
    [by apply ex_room|by vm_compute|lia| | |].
  { intros i Hi. change (nentries _) with 0 in Hi. lia. }
  { exists 1%nat, ex_free. split; [reflexivity|by left]. }
  exists ip, off, s'. split; [exact E|exact H].
Defined.
