(* ===== verification/FsPath.v ===== *)
(** * Paths (fs.c)

    What a path denotes is a function of the disk's contents alone: from the root or the
    current directory, one directory entry after the other.  [namex] computes it through
    the inode cache, with inodes read, locked, referenced and released on the way, and
    leaves the cache as it found it but for one reference to the result. *)

From S2P Require Import Prelude Params Bytes Bio BioSpec Log LogSpec Tx Fs FsSpec FsFile Files FsDir.

(** ** Path elements *)

Lemma skip_slashes_length p : (length (skip_slashes p) ≤ length p)%nat.
Proof. induction p as [|c p IH]; cbn; [done|]. destruct (c =? SLASH); cbn; lia. Qed.
Lemma skip_slashes_head p c q : skip_slashes p = c :: q → c ≠ SLASH.
Proof. induction p as [|x p IH]; cbn; [done|]. destruct (Z.eqb_spec x SLASH) as [|Hx]; [done|]. by intros [= -> ->]. Qed.
Lemma take_elem_length p : (length (take_elem p).2 ≤ length p)%nat.
Proof. induction p as [|c p IH]; cbn; [done|]. destruct (c =? SLASH); cbn; lia. Qed.
(** The rest of a path is shorter than the path. *)
Lemma skipelem_shorter path name rest : skipelem path = Some (name, rest) → (length rest < length path)%nat.
Proof.
  rw /skipelem. destruct (skip_slashes path) as [|c q] eqn:E; [done|]. intros [= _ <-].
  pose proof (skip_slashes_length path) as Hl. rw E in Hl. pose proof (skip_slashes_head _ _ _ E) as Hc.
  cbn [take_elem]. destruct (Z.eqb_spec c SLASH); [done|]. cbn [snd].
  pose proof (skip_slashes_length (take_elem q).2). pose proof (take_elem_length q). cbn in Hl. lia.
Qed.

Section path.
Context {S D : Type} `{!BlockStore S} (sb : superblock) (devsw : Z → devops (@fstate S D)).
Abbreviation fs := (@fstate S D).

(** ** The tree on the disk *)

(** The inode [p] with the fields that the disk has for it. *)
Definition loaded (v : Z → block) (p : inode) : inode :=
  set_ivalid true (load_dinode (v (IBLOCK (i_inum p) sb)) (dinode_off (i_inum p)) p).
Definition dnode (v : Z → block) (inum : Z) : inode := loaded v (mkInode 1 inum 1 (mkSl false 0) true 0 0 0 0 0 []).

(** An inode that is allocated and linked. *)
Definition live (v : Z → block) (inum : Z) : Prop :=
  0 ≤ inum < sb_ninodes sb ∧ i_type (dnode v inum) ≠ 0 ∧ i_nlink (dnode v inum) ≠ 0.

(** The inode that [name] has in the directory [p]. *)
#[local] Instance named_dec v p name i : Decision (named v p name i).
Proof. rw /named /in_use. apply _. Defined.
Definition entry_of (v : Z → block) (p : inode) (name : list Z) : option Z :=
  (λ r : nat * Z, de_inum (dentry v p r.2)) <$> list_find (named v p name) (seqZ 0 (nentries p)).

(** What a path denotes from inode [inum] on, or with [parent] the directory that its last
    element is in; with the name of the last element. *)
Fixpoint walk (k : nat) (v : Z → block) (parent : bool) (inum : Z) (path name : list Z) : option Z * list Z :=
  match k with
  | O => (None, name)
  | Datatypes.S k =>
      match skipelem path with
      | None => (if parent then None else Some inum, name)
      | Some (name, path) =>
          if negb (i_type (dnode v inum) =? T_DIR) then (None, name) else
          if parent && bool_decide (path = []) then (Some inum, name) else
          match entry_of v (dnode v inum) name with
          | None => (None, name)
          | Some next => walk k v parent next path name
          end
      end
  end.

(** A consistent file system: every linked inode has blocks of its own for its contents,
    directories are made of whole entries, and every entry in use names a linked inode. *)
Record tree (v : Z → block) : Prop := {
  tr_geom : geom sb;
  tr_fs : fswf sb v;
  tr_root : live v ROOTINO;
  tr_iwf n : live v n → iwf sb v (dnode v n);
  tr_hole n : live v n → nohole v (dnode v n);
  tr_size n : live v n → 0 ≤ i_size (dnode v n) ≤ MAXFILE * BSIZE;
  tr_whole n : live v n → i_type (dnode v n) = T_DIR → i_size (dnode v n) mod DIRENT = 0;
  tr_entry n i : live v n → i_type (dnode v n) = T_DIR → 0 ≤ i < nentries (dnode v n) → in_use v (dnode v n) i →
    live v (de_inum (dentry v (dnode v n) i));
}.

(** An inode of the cache with what the disk has is the disk's. *)
Definition same_file (p q : inode) : Prop := i_addrs p = i_addrs q ∧ i_size p = i_size q ∧ i_type p = i_type q ∧ i_dev p = i_dev q.
Lemma loaded_same v p : i_dev p = 1 → same_file (dnode v (i_inum p)) (loaded v p).
Proof. intros H. by rw /same_file /= H. Qed.
Lemma iblk_same v p q bn : same_file p q → iblk v p bn = iblk v q bn.
Proof. intros (H & _). by rw /iblk /ind H. Qed.
Lemma iwf_same v p q : same_file p q → iwf sb v p → iwf sb v q.
Proof.
  intros H [I1 I2 I3 I4 I5 I6]. pose proof (iblk_same v p q) as Hb. pose proof H as (Ha & _ & _ & Hd). split; [by rw -Ha|by rw -Hd|by rw /ind -Ha|..].
  - intros bn. rw -Hb //. apply I4.
  - intros bn bn'. rw -!Hb //. apply I5.
  - intros bn. rw -Hb // /ind -Ha. apply I6.
Qed.
Lemma nohole_same v p q : same_file p q → nohole v p → nohole v q.
Proof. intros H N bn Hbn. pose proof H as (_ & Hs & _). rw -(iblk_same v p q) // -Hs. by apply N. Qed.
Lemma frange_same v p q off n : same_file p q → frange v p off n = frange v q off n.
Proof. intros H. rw /frange /fbyte /fdata. apply list_fmap_ext. intros k x _. by rw (iblk_same v p q). Qed.
Lemma nentries_same p q : same_file p q → nentries p = nentries q.
Proof. intros (_ & H & _). by rw /nentries H. Qed.
Lemma named_same v p q name i : same_file p q → named v p name i ↔ named v q name i.
Proof. intros H. by rw /named /in_use /dentry (frange_same v p q). Qed.

(** [entry_of] is the first entry of that name. *)
Lemma entry_of_Some v p name i : 0 ≤ i < nentries p → named v p name i → (∀ j, 0 ≤ j < i → ¬ named v p name j) →
  entry_of v p name = Some (de_inum (dentry v p i)).
Proof.
  intros Hi Hn Hno. rw /entry_of.
  assert (list_find (named v p name) (seqZ 0 (nentries p)) = Some (Z.to_nat i, i)) as ->; [|done].
  apply list_find_Some. split; [rw lookup_seqZ_lt; [lia|]; f_equal; lia|]. split; [done|].
  intros j x Hj Hlt. apply lookup_seqZ in Hj as [-> Hj]. apply Hno. lia.
Qed.
Lemma entry_of_None v p name : (∀ i, 0 ≤ i < nentries p → ¬ named v p name i) → entry_of v p name = None.
Proof.
  intros Hno. rw /entry_of. destruct (list_find _ _) as [ [k i]|] eqn:E; [|done]. exfalso.
  apply list_find_Some in E as (Hk & Hn & _). apply lookup_seqZ in Hk as [-> Hk]. apply (Hno (0 + Z.of_nat k)); [lia|done].
Qed.
(** ** The inode cache *)

(** The cache when only [lk] is locked: what is in memory of a referenced inode is what the
    disk has. *)
Record cache (v : Z → block) (lk : option nat) (s : fs) : Prop := {
  ca_sb : f_sb s = sb;
  ca_free k : (k < length (f_inode s))%nat → lk ≠ Some k → sl_locked (i_lock (f_inode s !!! k)) = false;
  ca_mine k : lk = Some k → i_lock (f_inode s !!! k) = mkSl true (f_me s);
  ca_ref k : (k < length (f_inode s))%nat → 0 ≤ i_ref (f_inode s !!! k);
  ca_fresh k : (k < length (f_inode s))%nat → 0 < i_ref (f_inode s !!! k) → i_dev (f_inode s !!! k) = 1 →
    i_valid (f_inode s !!! k) = true → loaded v (f_inode s !!! k) = f_inode s !!! k;
}.

(** [s] has the inodes that [s0] has in use, each with [h] references more. *)
Record refs (s0 : fs) (h : nat → Z) (s : fs) : Prop := {
  rf_sb : f_sb s = f_sb s0;
  rf_dev : f_dev s = f_dev s0;
  rf_me : f_me s = f_me s0;
  rf_cwd : f_cwd s = f_cwd s0;
  rf_len : length (f_inode s) = length (f_inode s0);
  rf_ref k : (k < length (f_inode s0))%nat → i_ref (f_inode s !!! k) = i_ref (f_inode s0 !!! k) + h k;
  rf_id k : (k < length (f_inode s0))%nat → 0 < i_ref (f_inode s0 !!! k) →
    i_dev (f_inode s !!! k) = i_dev (f_inode s0 !!! k) ∧ i_inum (f_inode s !!! k) = i_inum (f_inode s0 !!! k);
}.
Definition one (r : option nat) (k : nat) : Z := if decide (r = Some k) then 1 else 0.

(** A reference to inode [inum] of the disk. *)
Record node (s : fs) (ip : nat) (inum : Z) : Prop := {
  nd_in : (ip < length (f_inode s))%nat;
  nd_ref : 0 < i_ref (f_inode s !!! ip);
  nd_dev : i_dev (f_inode s !!! ip) = 1;
  nd_inum : i_inum (f_inode s !!! ip) = inum;
}.

(** The state after a change of one inode and of the block store. *)
Definition upd (ip : nat) (q : inode) (t : S) (s : fs) : fs := set_inodes (<[ip := q]> (f_inode s)) (set_st t s).
Lemma upd_at ip q t s k : (ip < length (f_inode s))%nat → f_inode (upd ip q t s) !!! k = if decide (k = ip) then q else f_inode s !!! k.
Proof. intros Hip. cbn. case_decide as H; [subst; by rw list_lookup_total_insert_eq|by rw list_lookup_total_insert_ne]. Qed.
Lemma upd_len ip q t s : length (f_inode (upd ip q t s)) = length (f_inode s).
Proof. apply length_insert. Qed.

Lemma refs_refl s : refs s (λ _, 0) s.
Proof. split; try done. intros. lia. Qed.
Lemma refs_ext s0 h h' s : refs s0 h s → (∀ k, h k = h' k) → refs s0 h' s.
Proof. intros [] H. split; try done. intros. by rw -H; auto. Qed.
Lemma refs_upd s0 h s ip q t : refs s0 h s → (ip < length (f_inode s))%nat →
  (0 < i_ref (f_inode s0 !!! ip) → i_dev q = i_dev (f_inode s !!! ip) ∧ i_inum q = i_inum (f_inode s !!! ip)) →
  refs s0 (λ k, h k + if decide (k = ip) then i_ref q - i_ref (f_inode s !!! ip) else 0) (upd ip q t s).
Proof.
  intros [R1 R2 R3 R4 R5 R6 R7] Hip Hq. split; try done; [by rw upd_len| |]; intros k Hk; rw upd_at //.
  - case_decide as H; [subst k; rw R6 //; lia|rw R6 //; lia].
  - intros Hr. case_decide as H; [subst k; destruct (Hq Hr) as [-> ->]|]; by apply R7.
Qed.
Lemma cache_upd v lk lk' s ip q t : cache v lk s → (ip < length (f_inode s))%nat → (∀ k, k ≠ ip → lk = Some k ↔ lk' = Some k) →
  (if decide (lk' = Some ip) then i_lock q = mkSl true (f_me s) else sl_locked (i_lock q) = false) → 0 ≤ i_ref q →
  (0 < i_ref q → i_dev q = 1 → i_valid q = true → loaded v q = q) → cache v lk' (upd ip q t s).
Proof.
  intros [C1 C2 C3 C4 C5] Hip Hlk Hl Hr Hf. split; [done|..]; intros k; rw ?upd_len upd_at //.
  - intros Hk Hn. destruct (decide (k = ip)) as [H|H]; [subst k; by rewrite -> decide_False in Hl by done|]. apply C2; [done|]. by rewrite -> Hlk.
  - intros E. destruct (decide (k = ip)) as [H|H]; [subst k; by rewrite -> decide_True in Hl by done|]. apply C3. by apply Hlk.
  - intros Hk. destruct (decide (k = ip)); [done|by apply C4].
  - intros Hk. destruct (decide (k = ip)); [done|by apply C5].
Qed.

(** ** Operations on the cache *)

(** [ilock] of an inode that is not in memory reads it. *)
Lemma ilock_reads (s : fs) ip lg v :
  let p := f_inode s !!! ip in let q := set_ivalid true (load_dinode (v (IBLOCK (i_inum p) (f_sb s))) (dinode_off (i_inum p)) (set_ilock (mkSl true (f_me s)) p)) in
  (ip < length (f_inode s))%nat → frep s ∅ lg v → 1 ≤ i_ref p → sl_locked (i_lock p) = false → i_valid p = false → i_dev p = 1 →
  0 ≤ IBLOCK (i_inum p) (f_sb s) < st_blocks → (size lg < nbuf)%nat → i_type q ≠ 0 →
  ∃ t, ilock (Some ip) s = Ok (tt, set_inodes (<[ip := q]> (f_inode s)) (set_st t s)) ∧ st_rep t ∅ ∅ lg v.
Proof.
  intros p q Hip R Hr Hl Hv Hd Hb Hsz Ht. rw /ilock /geti gets_bind -/p. rewrite -> (proj2 (Z.ltb_ge _ _)) by lia.
  rw /lock_inode bind_assoc gets_bind bind_assoc /geti gets_bind -/p /acquiresleep Hl.
  mgo (updi_ok s ip (set_ilock (mkSl true (f_me s))) Hip). rw gets_bind. cbn [f_inode set_inodes]. rw list_lookup_total_insert_eq // -/p. cbn [i_valid set_ilock]. rw Hv.
  cbn [negb when]. rw gets_bind gets_bind. cbn [f_sb f_inode set_inodes id]. rw list_lookup_total_insert_eq // -/p. cbn [i_dev i_inum set_ilock]. rw Hd.
  set (s1 := set_inodes _ s). set (p1 := set_ilock (mkSl true (f_me s)) p) in *.
  destruct (read_step s1 ∅ lg v (IBLOCK (i_inum p) (f_sb s))) as (x & t1 & t2 & E1 & _ & _ & E2 & E3 & R'); [done|exact Hb|by intros i; rw lookup_empty|by rw map_size_empty|].
  mgo E1. fgo E2. set (d := v _) in *.
  assert ((ip < length (f_inode (set_st t1 s1)))%nat) as Hip1 by by rw /= length_insert.
  mgo (updi_ok (set_st t1 s1) ip (load_dinode d (dinode_off (i_inum p))) Hip1). fgo E3.
  set (s2 := set_st t2 _). assert (ip < length (f_inode s2))%nat as Hip2 by by rw /= !length_insert.
  mgo (updi_ok s2 ip (set_ivalid true) Hip2). rw gets_bind. cbn [f_inode set_inodes]. rw list_lookup_total_insert_eq //.
  assert (f_inode s2 !!! ip = load_dinode d (dinode_off (i_inum p)) p1) as Hs2.
  { rw /s2 /= list_lookup_total_insert_eq; [by rw length_insert|]. by rw list_lookup_total_insert_eq. }
  rw Hs2 -/q. rewrite -> (proj2 (Z.eqb_neq _ _)) by done. exists t2. split; [|done].
  rw /s2 /s1 /set_inodes /set_st /= !list_insert_insert_eq //.
Qed.


Lemma upd_same ip q s : set_inodes (<[ip := q]> (f_inode s)) s = upd ip q (f_st s) s.
Proof. by destruct s. Qed.

(** [ilock] locks an inode and has it in memory. *)
Lemma ilock_node v s ip inum lg : geom sb → cache v None s → frep s ∅ lg v → (size lg < nbuf)%nat → node s ip inum → live v inum →
  ∃ t, ilock (Some ip) s = Ok (tt, upd ip (set_ilock (mkSl true (f_me s)) (loaded v (f_inode s !!! ip))) t s) ∧ st_rep t ∅ ∅ lg v.
Proof.
  intros G [C1 C2 C3 C4 C5] R Hl [N1 N2 N3 N4] (L1 & L2 & L3). specialize (C2 ip N1 ltac:(done)). subst inum.
  destruct (i_valid (f_inode s !!! ip)) eqn:Hv.
  - exists (f_st s). split; [|done]. rw (ilock_ok s ip N1); [split; [done|done|lia]|]. by rw C5 // upd_same.
  - destruct (ilock_reads s ip lg v) as (t & E & R'); [done|done|lia|done|done|done|rw C1; by apply st_home_blocks, (ge_inode _ G)|done|rw C1; exact L2|].
    exists t. split; [|done]. rw E /upd /loaded C1. done.
Qed.

(** [iput] of an inode that is linked, or that was not read, drops the reference. *)
Lemma iput_linked (s : fs) ip : let p := f_inode s !!! ip in
  (ip < length (f_inode s))%nat → sl_locked (i_lock p) = false → (i_valid p = true → i_nlink p ≠ 0) →
  iput ip s = Ok (tt, upd ip (set_iref (i_ref p - 1) (set_ilock (mkSl false 0) p)) (f_st s) s).
Proof.
  intros p Hip Hl Hn. rw /iput /lock_inode bind_assoc gets_bind bind_assoc /geti gets_bind -/p /acquiresleep Hl.
  mgo (updi_ok s ip (set_ilock (mkSl true (f_me s))) Hip). fold p. set (q2 := set_ilock _ _). rw upd_same. set (s2 := upd ip q2 _ s).
  assert (f_inode s2 !!! ip = q2) as E2 by (rw /s2 upd_at //; by rw decide_True).
  rw gets_bind E2. cbn [id i_valid i_nlink set_ilock q2]. assert (i_valid p && (i_nlink p =? 0) = false) as -> by (destruct (i_valid p); [apply Z.eqb_neq; auto|done]). cbn [when].
  erewrite bind_Ok; [|reflexivity]. rw /unlock_inode. assert (ip < length (f_inode s2))%nat as H2 by by rw /s2 upd_len.
  mgo (updi_ok s2 ip (λ p, set_ilock (releasesleep (i_lock p)) p) H2). rw E2 upd_same. set (q3 := set_ilock _ q2). set (s3 := upd ip q3 _ s2).
  assert (f_inode s3 !!! ip = q3) as E3 by (rw /s3 upd_at //; by rw decide_True). assert (ip < length (f_inode s3))%nat as H3 by by rw /s3 upd_len.
  rw (updi_ok s3 ip _ H3) E3. by rw /s3 /s2 /upd /set_inodes /= !list_insert_insert_eq.
Qed.
(** [iunlockput] unlocks as well. *)
Lemma iunlockput_linked (s : fs) ip : let p := f_inode s !!! ip in
  (ip < length (f_inode s))%nat → i_lock p = mkSl true (f_me s) → 1 ≤ i_ref p → i_nlink p ≠ 0 →
  iunlockput ip s = Ok (tt, upd ip (set_iref (i_ref p - 1) (set_ilock (mkSl false 0) p)) (f_st s) s).
Proof.
  intros p Hip Hl Hr Hn. rw /iunlockput. mgo (iunlock_ok s ip Hip Hl Hr). fold p. rw upd_same. set (q := set_ilock _ _).
  assert (f_inode (upd ip q (f_st s) s) !!! ip = q) as E1 by (rw upd_at //; by rw decide_True).
  rw iput_linked; rw ?upd_len ?E1 //. by rw /upd /set_inodes /= list_insert_insert_eq.
Qed.

(** [iget] takes a reference to inode [inum], for which a free entry is always enough. *)
Lemma iget_node v lk s0 h s inum : cache v lk s → refs s0 h s → (∀ k, 0 ≤ h k) → (∃ k, (k < length (f_inode s))%nat ∧ i_ref (f_inode s !!! k) = 0) →
  ∃ jp q, let s' := upd jp q (f_st s) s in iget 1 inum s = Ok (jp, s') ∧ cache v lk s' ∧ refs s0 (λ k, h k + one (Some jp) k) s' ∧ node s' jp inum ∧
    ∀ k, 0 < i_ref (f_inode s !!! k) → f_inode s' !!! k = set_iref (i_ref (f_inode s !!! k) + one (Some jp) k) (f_inode s !!! k).
Proof.
  intros HC HR Hh (k0 & Hk0 & Hz). assert (∃ jp q, (jp < length (f_inode s))%nat ∧ iget 1 inum s = Ok (jp, upd jp q (f_st s) s) ∧ holds 1 inum q ∧ i_lock q = i_lock (f_inode s !!! jp) ∧
    i_ref q = i_ref (f_inode s !!! jp) + 1 ∧ (0 < i_ref (f_inode s !!! jp) ∧ q = set_iref (i_ref (f_inode s !!! jp) + 1) (f_inode s !!! jp) ∨ i_ref (f_inode s !!! jp) = 0 ∧ i_valid q = false)) as (jp & q & Hj & E & Hq & Hl & Hr & Hor).
  { rw /iget gets_bind. pose proof (iget_scan_ok 1 inum (f_inode s) 0 None) as Hs. destruct (iget_scan (f_inode s) 1 inum 0 None) as [j|[j|] ].
    - destruct Hs as (k & q & -> & Hk & H1 & H2 & H3). cbn [Nat.add]. pose proof (lookup_lt_Some _ _ _ Hk) as Hlt. mgo (updi_ok s k (λ p, set_iref (i_ref p + 1) p) Hlt).
      rw upd_same. eexists k, _. split; [done|]. split; [done|]. rw (list_lookup_total_correct _ _ _ Hk). split; [rw /holds /=; lia|]. split; [done|]. split; [done|by left].
    - destruct Hs as (_ & k & q & -> & Hk & H0). cbn [Nat.add]. pose proof (lookup_lt_Some _ _ _ Hk) as Hlt. mgo (updi_ok s k (λ p, set_ivalid false (set_iref 1 (set_iid 1 inum p))) Hlt).
      rw upd_same. eexists k, _. split; [done|]. split; [done|]. rw (list_lookup_total_correct _ _ _ Hk). split; [done|]. split; [done|]. split; [cbn; lia|by right].
    - exfalso. destruct Hs as [_ H0]. apply (H0 k0 (f_inode s !!! k0)); [by apply list_lookup_lookup_total_lt|done]. }
  exists jp, q. destruct Hq as (Hq1 & Hq2 & Hq3). split; [done|]. split; [|split; [|split] ].
  - apply (cache_upd v lk); [done|done|done| |lia|].
    + case_decide as H; rw Hl; [by apply (ca_mine _ _ _ HC)|by apply (ca_free _ _ _ HC)].
    + intros _ _ Hv. destruct Hor as [ [Ho ->]|[_ Hv'] ]; [|by rw Hv' in Hv]. cbn in Hv, Hq1, Hq2. pose proof (ca_fresh _ _ _ HC jp Hj Ho Hq2 Hv) as Hf.
      transitivity (set_iref (i_ref (f_inode s !!! jp) + 1) (loaded v (f_inode s !!! jp))); [done|by rw Hf].
  - eapply refs_ext; [apply (refs_upd s0 h s jp q (f_st s)); [done|done|]|].
    + intros Hs0. destruct Hor as [ [Ho ->]|[H0 _] ]; [done|]. exfalso. pose proof (rf_ref _ _ _ HR jp) as H. specialize (Hh jp). rw -(rf_len _ _ _ HR) in H. specialize (H Hj). lia.
    + intros k. cbn beta. rw /one. destruct (decide (k = jp)) as [->|Hne]; [rewrite -> decide_True by done; lia|]. by rewrite -> decide_False by congruence.
  - split; [by rw upd_len|rewrite -> upd_at, decide_True by done; done..].
  - intros k Hk. rw upd_at // /one. destruct (decide (k = jp)) as [->|Hne]; [rewrite -> decide_True by done|rewrite -> decide_False by congruence].
    + destruct Hor as [ [Ho ->]|[H0 _] ]; [done|lia].
    + rw Z.add_0_r. by destruct (f_inode s !!! k).
Qed.

(** ** The walk *)

Section walk.
Context (v : Z → block) (lg : gset Z) (s0 : fs).
Hypothesis disk : tree v.
Hypothesis few : (size lg < nbuf)%nat.
Hypothesis refs0 : ∀ k, (k < length (f_inode s0))%nat → 0 ≤ i_ref (f_inode s0 !!! k).

(** Between two elements the walk has one reference; in a directory it also has the lock. *)
Record stands (h : nat → Z) (s : fs) : Prop := {
  sd_cache : cache v None s;
  sd_rep : frep s ∅ lg v;
  sd_refs : refs s0 h s;
}.
Record inside (h : nat → Z) (ip : nat) (inum : Z) (s : fs) : Prop := {
  in_cache : cache v (Some ip) s;
  in_rep : frep s ∅ lg v;
  in_refs : refs s0 h s;
  in_node : node s ip inum;
  in_file : same_file (dnode v inum) (f_inode s !!! ip);
  in_linked : i_nlink (f_inode s !!! ip) ≠ 0;
}.

Lemma inside_st h ip inum s t : inside h ip inum s → st_rep t ∅ ∅ lg v → inside h ip inum (set_st t s).
Proof. intros [ [] R [] [] ? ?] R'. by split. Qed.

Lemma enter h ip inum s : stands h s → node s ip inum → live v inum → ∃ s', ilock (Some ip) s = Ok (tt, s') ∧ inside h ip inum s'.
Proof.
  intros [HC HF HR] HN HL. destruct (ilock_node v s ip inum lg (tr_geom _ disk) HC HF few HN HL) as (t & E & R). destruct HN as [N1 N2 N3 N4].
  eexists. split; [exact E|]. set (q := set_ilock _ _). split; [| |..].
  - apply (cache_upd v None); [done|done|intros k Hk; split; congruence|by rw decide_True|cbn; lia|done].
  - done.
  - eapply refs_ext; [by apply refs_upd|]. intros k. cbn beta. case_decide; cbn; lia.
  - split; [by rw upd_len|rewrite -> upd_at, decide_True by done; done..].
  - rewrite -> upd_at, decide_True by done. subst inum. by rw /same_file /= N3.
  - rewrite -> upd_at, decide_True by done. subst inum. apply HL.
Qed.

Lemma leave h ip inum s : inside h ip inum s → ∃ s', iunlockput ip s = Ok (tt, s') ∧ stands (λ k, h k - one (Some ip) k) s' ∧
  ∀ k, i_dev (f_inode s' !!! k) = i_dev (f_inode s !!! k) ∧ i_inum (f_inode s' !!! k) = i_inum (f_inode s !!! k).
Proof.
  intros [HC HF HR [N1 N2 N3 N4] HS HL]. pose proof (ca_mine _ _ _ HC ip eq_refl) as Hm.
  pose proof (iunlockput_linked s ip N1 Hm ltac:(lia) HL) as E. cbn zeta in E. eexists. split; [exact E|]. split; [split|].
  - apply (cache_upd v (Some ip)); [done|done|intros k Hk; split; congruence|done|cbn; lia|]. cbn. intros H0 H1 H2.
    pose proof (ca_fresh _ _ _ HC ip N1 N2 H1 H2) as Hf. set (p := f_inode s !!! ip) in *. transitivity (set_iref (i_ref p - 1) (set_ilock (mkSl false 0) (loaded v p))); [done|by rw Hf].
  - done.
  - eapply refs_ext; [by apply refs_upd|]. intros k. cbn beta. rw /one. destruct (decide (k = ip)) as [->|Hne]; [rewrite -> decide_True by done; cbn; lia|]. rewrite -> decide_False by congruence. lia.
  - intros k. rw upd_at //. by destruct (decide (k = ip)) as [->|].
Qed.

(** What reading a file needs, from what the disk has. *)
Lemma inside_opened h ip inum s : inside h ip inum s → live v inum → i_type (dnode v inum) ≠ T_DEV → opened sb s ip lg v.
Proof.
  intros [HC HF HR [N1 N2 N3 N4] HS HN] HL Ht. pose proof HS as (_ & Hs & Hty & _). pose proof (tr_size _ disk _ HL) as Hsz.
  split; [apply disk|apply disk|done|by apply (ca_sb _ _ _ HC)|done|..].
  - by apply (iwf_same v (dnode v inum)), disk.
  - by apply (nohole_same v (dnode v inum)), disk.
  - by rw -Hty.
  - rw N4. apply HL.
  - by rw -Hs.
Qed.
Lemma inside_isdir h ip inum s : inside h ip inum s → live v inum → i_type (dnode v inum) = T_DIR → isdir sb s ip lg v.
Proof.
  intros HI HL Ht. pose proof (in_file _ _ _ _ HI) as (_ & Hs & Hty & _). split; [|by rw -Hty|rw -Hs; by apply (tr_whole _ disk)|done].
  eapply inside_opened; [done|done|by rw Ht].
Qed.

(** Two free entries of the cache are enough for a walk. *)
Definition spare : Prop := ∃ k1 k2, k1 ≠ k2 ∧ (k1 < length (f_inode s0))%nat ∧ (k2 < length (f_inode s0))%nat ∧
  i_ref (f_inode s0 !!! k1) = 0 ∧ i_ref (f_inode s0 !!! k2) = 0.
Lemma spare_one r s : spare → refs s0 (one r) s → ∃ k, (k < length (f_inode s))%nat ∧ i_ref (f_inode s !!! k) = 0.
Proof.
  intros (k1 & k2 & Hne & H1 & H2 & Z1 & Z2) HR. pose proof (rf_ref _ _ _ HR _ H1) as R1. pose proof (rf_ref _ _ _ HR _ H2) as R2.
  rw /one in R1, R2. rw (rf_len _ _ _ HR). destruct (decide (r = Some k1)) as [E|E]; [exists k2|exists k1]; (split; [done|]); [|lia].
  rewrite -> decide_False in R2 by congruence. lia.
Qed.
Lemma one_diff r k : one r k - one r k = one None k.
Proof. rw Z.sub_diag /one. by rewrite -> decide_False by done. Qed.
Lemma one_nonneg r k : 0 ≤ one r k.
Proof. rw /one. case_decide; lia. Qed.

(** [dirlookup] in a directory of the tree. *)
Lemma look ip inum s name : spare → inside (one (Some ip)) ip inum s → live v inum → i_type (dnode v inum) = T_DIR →
  ∃ s', (entry_of v (dnode v inum) name = None ∧ dirlookup devsw ip name s = Ok (None, s') ∧ inside (one (Some ip)) ip inum s') ∨
    ∃ next jp off, entry_of v (dnode v inum) name = Some next ∧ dirlookup devsw ip name s = Ok (Some (jp, off), s') ∧
      inside (λ k, one (Some ip) k + one (Some jp) k) ip inum s' ∧ node s' jp next ∧ live v next.
Proof.
  intros Hsp HI HL Ht. pose proof (inside_isdir _ _ _ _ HI HL Ht) as Hd. pose proof (in_file _ _ _ _ HI) as Hf. pose proof (nentries_same _ _ Hf) as Hn.
  destruct (dirlookup_ok sb devsw name s ip lg v Hd) as (t & R & [ [Hno E]|(i & Hi & Hi1 & Hi2 & E)]); rw -Hn in Hno || rw -Hn in Hi.
  { exists (set_st t s). left. split; [|split; [done|by apply inside_st] ]. apply entry_of_None. intros i Hi. rw (named_same v _ _ _ _ Hf). by apply Hno. }
  pose proof (inside_st _ _ _ _ t HI R) as [HC' HF' HR' [N1 N2 N3 N4] HS' HL']. rewrite <- (named_same v _ _ _ _ Hf) in Hi1.
  assert (entry_of v (dnode v inum) name = Some (de_inum (dentry v (dnode v inum) i))) as He.
  { apply entry_of_Some; [done|done|]. intros j Hj. rw (named_same v _ _ _ _ Hf). by apply Hi2. }
  assert (dentry v (f_inode s !!! ip) i = dentry v (dnode v inum) i) as Hde by (rw /dentry; symmetry; by apply frange_same). rw Hde in E.
  replace (i_dev (f_inode s !!! ip)) with 1 in E by (symmetry; exact N3). set (next := de_inum _) in *.
  destruct (iget_node v _ s0 _ _ next HC' HR' (one_nonneg _) (spare_one _ _ Hsp HR')) as (jp & q & E2 & C2 & R2 & N2' & K2). cbn zeta in E2, C2, R2, N2', K2.
  eexists. right. exists next, jp, (DIRENT * i). split; [done|]. split; [rw E; by erewrite bind_Ok; [|exact E2]|]. split; [|split; [done|]; by apply (tr_entry _ disk); [..|apply Hi1] ].
  split; [done|done|done|..].
  - split; [by rw upd_len|rw (K2 ip N2)..]; [|done|done]. cbn. pose proof (one_nonneg (Some jp) ip). cbn in N2. lia.
  - by rw (K2 ip N2).
  - by rw (K2 ip N2).
Qed.

(** [iunlock], and [iput] of an inode that is not locked. *)
Lemma stay h ip inum s : inside h ip inum s → ∃ s', iunlock (Some ip) s = Ok (tt, s') ∧ stands h s' ∧ node s' ip inum.
Proof.
  intros [HC HF HR [N1 N2 N3 N4] HS HL]. pose proof (ca_mine _ _ _ HC ip eq_refl) as Hm.
  pose proof (iunlock_ok s ip N1 Hm ltac:(lia)) as E. rw upd_same in E. eexists. split; [exact E|]. split; [split|].
  - apply (cache_upd v (Some ip)); [done|done|intros k Hk; split; congruence|done|cbn; lia|]. cbn. intros H0 H1 H2.
    pose proof (ca_fresh _ _ _ HC ip N1 N2 H1 H2) as Hf. set (p := f_inode s !!! ip) in *. transitivity (set_ilock (mkSl false 0) (loaded v p)); [done|by rw Hf].
  - done.
  - eapply refs_ext; [by apply refs_upd|]. intros k. cbn beta. case_decide; cbn; lia.
  - split; [by rw upd_len|rewrite -> upd_at, decide_True by done; done..].
Qed.
Lemma drop_ref h ip inum s : stands h s → node s ip inum → live v inum → ∃ s', iput ip s = Ok (tt, s') ∧ stands (λ k, h k - one (Some ip) k) s'.
Proof.
  intros [HC HF HR] [N1 N2 N3 N4] HL. pose proof (ca_free _ _ _ HC ip N1 ltac:(done)) as Hl. pose proof (ca_fresh _ _ _ HC ip N1 N2 N3) as Hf.
  assert (i_valid (f_inode s !!! ip) = true → i_nlink (f_inode s !!! ip) ≠ 0) as Hn. { intros Hv. rw -(Hf Hv). subst inum. apply HL. }
  pose proof (iput_linked s ip N1 Hl Hn) as E. cbn zeta in E. eexists. split; [exact E|]. split.
  - apply (cache_upd v None); [done|done|done|done|cbn; lia|]. cbn. intros _ _ Hv. set (p := f_inode s !!! ip) in *.
    transitivity (set_iref (i_ref p - 1) (set_ilock (mkSl false 0) (loaded v p))); [done|by rw Hf].
  - done.
  - eapply refs_ext; [by apply refs_upd|]. intros k. cbn beta. rw /one. destruct (decide (k = ip)) as [->|Hne]; [rewrite -> decide_True by done; cbn; lia|]. rewrite -> decide_False by congruence. lia.
Qed.
Lemma stands_ext h h' s : stands h s → (∀ k, h k = h' k) → stands h' s.
Proof. intros [] H. split; [done|done|by eapply refs_ext]. Qed.

(** The walk's result: the inode that the path denotes, with one reference more, or none. *)
Definition reached (o : option Z) (r : option nat) (s : fs) : Prop := stands (one r) s ∧
  match o, r with
  | Some inum, Some ip => node s ip inum ∧ live v inum
  | None, None => True
  | _, _ => False
  end.
Lemma namex_loop_ok parent k : spare → ∀ ip path name s inum, (length path < k)%nat → stands (one (Some ip)) s → node s ip inum → live v inum →
  ∃ r s', namex_loop devsw k ip path parent name s = Ok ((r, (walk k v parent inum path name).2), s') ∧ reached (walk k v parent inum path name).1 r s'.
Proof.
  intros Hsp. induction k as [|k IH]; intros ip path name s inum Hk HS HN HL; [lia|]. cbn [namex_loop walk].
  destruct (skipelem path) as [ [nm rest]|] eqn:Esk.
  2: { destruct parent; [|exists (Some ip), s; by split]. destruct (drop_ref _ _ _ _ HS HN HL) as (s' & E & H'). mgo E. exists None, s'. split; [done|]. split; [|done].
       eapply stands_ext; [done|]. intros j. cbn beta. rw one_diff. done. }
  pose proof (skipelem_shorter _ _ _ Esk) as Hsh. destruct (enter _ _ _ _ HS HN HL) as (s1 & E1 & I1). mgo E1. rw /geti gets_bind. pose proof (in_file _ _ _ _ I1) as (_ & _ & <- & _).
  assert (∀ s2, inside (one (Some ip)) ip inum s2 → ∃ s', (iunlockput ip ;; mret (None, nm)) s2 = Ok ((None : option nat, nm), s') ∧ reached None None s') as Hnone.
  { intros s2 I2. destruct (leave _ _ _ _ I2) as (s' & E & H' & _). exists s'. split; [by mgo E|]. split; [|done]. eapply stands_ext; [done|]. intros j. cbn beta. rw one_diff. done. }
  destruct (Z.eqb_spec (i_type (dnode v inum)) T_DIR) as [Ht|Ht]; cbn [negb].
  2: { destruct (Hnone s1 I1) as (s' & E & H'). by exists None, s'. }
  destruct (parent && bool_decide (rest = [])).
  { destruct (stay _ _ _ _ I1) as (s' & E & H' & N'). mgo E. exists (Some ip), s'. by split. }
  destruct (look ip inum s1 nm Hsp I1 HL Ht) as (s2 & [(-> & E2 & I2)|(next & jp & off & -> & E2 & I2 & N2 & L2)]); mgo E2.
  { destruct (Hnone s2 I2) as (s' & E & H'). by exists None, s'. }
  destruct (leave _ _ _ _ I2) as (s3 & E3 & S3 & K3). mgo E3. apply IH; [lia|eapply stands_ext; [done|]; intros j; cbn beta; lia| |done].
  destruct N2 as [N1 N2 N3 N4]. pose proof (sd_refs _ _ S3) as R3. pose proof (in_refs _ _ _ _ I2) as R2. pose proof (rf_len _ _ _ R2) as Hl2. pose proof (rf_len _ _ _ R3) as Hl3. destruct (K3 jp) as [K1 K2].
  split; [lia| |by rw K1|by rw K2]. rw (rf_ref _ _ _ R3); [lia|]. pose proof (refs0 jp ltac:(lia)). rw /one. rewrite -> (decide_True (P := Some jp = Some jp)) by done. lia.
Qed.
(** The inode that a path starts from. *)
Definition start (path : list Z) (cwd : Z) : Z := if bool_decide (path !! 0%nat = Some SLASH) then ROOTINO else cwd.
Lemma namex_ok parent path cwd : spare → stands (one None) s0 → node s0 (f_cwd s0) cwd → live v cwd →
  let w := walk (Datatypes.S (length path)) v parent (start path cwd) path [] in
  ∃ r s', namex devsw path parent s0 = Ok ((r, w.2), s') ∧ reached w.1 r s'.
Proof.
  intros Hsp HS HN HL. rw /namex /start gets_bind. pose proof HS as [HC HF HR]. destruct (bool_decide _).
  - destruct (iget_node v _ s0 _ _ ROOTINO HC HR (one_nonneg _) (spare_one _ _ Hsp HR)) as (jp & q & E & C & R & N & _). cbn zeta in E, C, R, N. mgo E.
    apply namex_loop_ok; [done|lia| |done|apply disk]. split; [done|done|by eapply refs_ext; [done|] ].
  - pose proof HN as [N1 N2 N3 N4]. rw /idup bind_assoc. mgo (updi_ok s0 (f_cwd s0) (λ p, set_iref (i_ref p + 1) p) N1). erewrite bind_Ok; [|reflexivity]. rw upd_same.
    apply namex_loop_ok; [done|lia| |split; [by rw upd_len|rewrite -> upd_at, decide_True by done; done || cbn; lia..]|done]. split; [| |].
    + apply (cache_upd v None); [done|done|done|by apply (ca_free _ _ _ HC)|cbn; lia|]. cbn. intros _ _ Hv. pose proof (ca_fresh _ _ _ HC _ N1 N2 N3 Hv) as Hf.
      set (p := f_inode s0 !!! f_cwd s0) in *. transitivity (set_iref (i_ref p + 1) (loaded v p)); [done|by rw Hf].
    + done.
    + eapply refs_ext; [by apply refs_upd|]. intros k. cbn beta. rw /one. destruct (decide (None = Some k)) as [?|_]; [done|]. destruct (decide (k = f_cwd s0)) as [->|Hne]; [rewrite -> (decide_True (P := Some _ = Some _)) by done; cbn; lia|].
      by rewrite -> (decide_False (P := Some _ = Some _)) by congruence.
Qed.
End walk.

End path.

(** ** An example *)

(** A disk with a root directory, inode 1, that has the entries [.] and [init], and a
    program of four bytes, inode 2. *)
Definition tr_root_node : inode := mkInode 1 1 1 (mkSl false 0) true T_DIR 0 0 1 32 (34 :: replicate 12 0).
Definition tr_init_node : inode := mkInode 1 2 1 (mkSl false 0) true T_FILE 0 0 1 88 (35 :: replicate 12 0).
Definition tr_inodes : block := store_dinode (store_dinode zblock 64 tr_root_node) 128 tr_init_node.
Definition tr_root_block : block := splice zblock 0 (mk_dirent 1 [46] ++ mk_dirent 2 [105; 110; 105; 116]).
Definition tr_elf : block :=
  splice (put32 (put32 (put32 (put32 (put32 (put16 (put32 (put32 zblock 0 0x464C457F) 28 52) 44 1) 52 1) 56 84) 60 0) 68 4) 72 8) 84 [235; 254; 144; 144].
Definition tr_bitmap : block := splice zblock 0 [255; 255; 255; 255; 15].
Definition tr_disk : list block :=
  <[1%nat := ex_sb_block]> (<[32%nat := tr_inodes]> (<[33%nat := tr_bitmap]> (<[34%nat := tr_root_block]> (<[35%nat := tr_elf]> (replicate 64 zblock))))).
Definition tr_view : Z → block := dblk tr_disk.

Lemma tr_formatted : formatted tr_disk.
Proof.
  split; [done| |by vm_compute|by vm_compute|by vm_compute|by vm_compute|repeat constructor].
  do 5 (apply Forall_insert; [|by vm_compute]). apply Forall_replicate. by vm_compute.
Qed.
Lemma forallb_below (f : Z → bool) n m : forallb f (seqZ 0 m) = true → 0 ≤ n < m → f n = true.
Proof. intros H Hn. rewrite -> List.forallb_forall in H. apply H, list_elem_of_In, elem_of_seqZ. lia. Qed.
Definition tr_unused (n : Z) : bool := (n =? 1) || (n =? 2) || (i_type (dnode ex_sb tr_view n) =? 0).
Lemma tr_live n : live ex_sb tr_view n → n = 1 ∨ n = 2.
Proof.
  intros (Hn & Ht & _). assert (forallb tr_unused (seqZ 0 8) = true) as H by by vm_compute.
  pose proof (forallb_below tr_unused n 8 H Hn) as Hu. rw /tr_unused in Hu. lia.
Qed.
Lemma tr_node1 : dnode ex_sb tr_view 1 = tr_root_node.
Proof. by vm_compute. Qed.
Lemma tr_node2 : dnode ex_sb tr_view 2 = tr_init_node.
Proof. by vm_compute. Qed.
Lemma tr_iblk p a bn : i_addrs p = a :: replicate 12 0 → 0 ≤ bn → iblk tr_view p bn = if decide (bn = 0) then a else 0.
Proof.
  intros Ha Hb. rw /iblk /ind Ha. change ((a :: replicate 12 0) !!! 12%nat) with 0. cbn [Z.eqb]. case_decide as H; [by subst|].
  destruct (Z.ltb_spec bn NDIRECT) as [Hl|Hl]; [|done]. rw /NDIRECT in Hl. destruct (Z.to_nat bn) as [|k] eqn:E; [lia|]. change ((a :: ?l) !!! Datatypes.S k) with (l !!! k).
  apply lookup_total_replicate_2. lia.
Qed.
Lemma tr_wf p a : i_addrs p = a :: replicate 12 0 → i_dev p = 1 → a = 34 ∨ a = 35 → iwf (BlockStore0 := ex_store) ex_sb tr_view p.
Proof.
  intros Ha Hd Hor. assert (dok (BlockStore0 := ex_store) ex_sb tr_view a) as Hok.
  { change (sb_size ex_sb) with 64. split; [change (sb_size ex_sb) with 64; lia|destruct Hor; subst; by vm_compute| |simpl; lia].
    rw /meta. change (sb_size ex_sb) with 64. change (sb_ninodes ex_sb) with 8.
    intros [?|[?|[(c & Hc & Ec)|(i & Hi & Ei)]]]; [lia|lia|rw ex_BBLOCK // in Ec; lia|rw ex_IBLOCK // in Ei; lia]. }
  split; [by rw Ha|done|by rw /ind Ha|..].
  - intros bn [Hb _]. rw (tr_iblk p a) //. by case_decide.
  - intros bn bn' [Hb _] [Hb' _]. rw !(tr_iblk p a) //. repeat case_decide; lia.
  - intros bn _. by rw /ind Ha.
Qed.

Lemma tr_tree : tree (BlockStore0 := ex_store) ex_sb tr_view.
Proof.
  split.
  - apply ex_geom.
  - apply formatted_fswf, tr_formatted.
  - by vm_compute.
  - intros n [-> | ->]%tr_live; [rw tr_node1; by apply (tr_wf _ 34); [..|left]|rw tr_node2; by apply (tr_wf _ 35); [..|right] ].
  - intros n [-> | ->]%tr_live bn [Hb _]; [rw tr_node1 (tr_iblk _ 34) //|rw tr_node2 (tr_iblk _ 35) //]; cbn [i_size tr_root_node tr_init_node]; rw /BSIZE; case_decide; lia.
  - intros n [-> | ->]%tr_live; [rw tr_node1|rw tr_node2]; cbn [i_size tr_root_node tr_init_node]; rw MAXFILE_eq /BSIZE; lia.
  - intros n [-> | ->]%tr_live; [by rw tr_node1|by rw tr_node2].
  - intros n i [-> | ->]%tr_live; [|by rw tr_node2]. rw tr_node1. intros _ Hi _. change (nentries tr_root_node) with 2 in Hi.
    assert (i = 0 ∨ i = 1) as [-> | ->] by lia; by vm_compute.
Qed.

#[local] Instance tr_inst : BlockStore lstate := ex_store.
(** The root directory as the current directory, not yet read, and three free entries. *)
Definition tr_cwd : inode := mkInode 1 1 1 (mkSl false 0) false 0 0 0 0 0 [].
Definition tr_cache : list inode := [tr_cwd; ex_free; ex_free; ex_free].
Abbreviation tr_state s := (@mkFs lstate unit s ex_sb tr_cache tt 1 0).
Lemma tr_cached s : cache ex_sb tr_view None (tr_state s).
Proof.
  split; [done|..]; cbn [f_inode]; [|done|..]; intros k Hk; destruct k as [|[|[|[|k] ] ] ]; (cbn in Hk; lia) || (cbn; done || lia).
Qed.
Lemma tr_spare s : spare (tr_state s).
Proof. exists 1%nat, 2%nat. cbn. lia. Qed.
Lemma tr_at_root s : node (tr_state s) 0 1.
Proof. split; cbn; done || lia. Qed.
Lemma tr_root_live : live ex_sb tr_view 1.
Proof. by vm_compute. Qed.

Definition tr_path : list Z := [47; 105; 110; 105; 116].
Lemma tr_walk : (walk ex_sb (Datatypes.S (length tr_path)) tr_view false (start tr_path 1) tr_path []).1 = Some 2.
Proof. by vm_compute. Qed.

