(* ===== verification/File.v ===== *)
(** * Open files (file.c, and pipealloc of pipe.c)

    The table of open files over the file system, the pipes and the page allocator.  A
    [struct file*] is an index into [ftable.file], a [struct pipe*] the address of the
    pipe's page.  The contents read are returned and the contents to write are passed as
    lists of bytes.  A call that waits, in a pipe, for the log or for an inode's lock,
    ends as [Sleeps]; what a pipe does across a wait is the subject of Pipe. *)

From S2P Require Import Prelude Params Bytes KMemory Kalloc Pipe Bio Log Tx Fs.

Inductive fdtype := FD_NONE | FD_PIPE | FD_INODE.
#[export] Instance fdtype_eq_dec : EqDecision fdtype.
Proof. solve_decision. Defined.

Record file := mkFile {
  fl_type : fdtype;
  fl_ref : Z;
  fl_readable : bool;
  fl_writable : bool;
  fl_pipe : Z;
  fl_ip : nat;
  fl_off : Z;
}.
#[export] Instance file_inhabited : Inhabited file := populate (mkFile FD_NONE 0 false false 0 0 0).

Definition set_fref (x : Z) (f : file) : file :=
  mkFile (fl_type f) x (fl_readable f) (fl_writable f) (fl_pipe f) (fl_ip f) (fl_off f).
Definition set_ftype (x : fdtype) (f : file) : file :=
  mkFile x (fl_ref f) (fl_readable f) (fl_writable f) (fl_pipe f) (fl_ip f) (fl_off f).
Definition set_foff (x : Z) (f : file) : file :=
  mkFile (fl_type f) (fl_ref f) (fl_readable f) (fl_writable f) (fl_pipe f) (fl_ip f) x.

Section file.
Context {S D : Type} `{!TxStore S}.
Context (kend : Z) (devsw : Z → devops (@fstate S D)).

(** The state a system call on files runs on; [y_killed], [y_ofile] and the fields from
    [y_sz] on are the calling process's. *)
Record ystate := mkY {
  y_fs : @fstate S D;
  y_file : list file;         (* ftable.file *)
  y_pipe : gmap Z pipe;       (* the pipes, by the address of their page *)
  y_k : kstate;               (* kalloc.c and memory *)
  y_woken : list (Z * pchan); (* the calls of wakeup on pipes, latest first *)
  y_killed : bool;
  y_ofile : list (option nat);
  y_sz : Z;
  y_pgdir : Z;
  y_esp : Z;                  (* tf->esp *)
  y_eip : Z;                  (* tf->eip *)
  y_name : list Z;
}.
Definition set_yfs x s := mkY x (y_file s) (y_pipe s) (y_k s) (y_woken s) (y_killed s) (y_ofile s) (y_sz s) (y_pgdir s) (y_esp s) (y_eip s) (y_name s).
Definition set_yfile x s := mkY (y_fs s) x (y_pipe s) (y_k s) (y_woken s) (y_killed s) (y_ofile s) (y_sz s) (y_pgdir s) (y_esp s) (y_eip s) (y_name s).
Definition set_ypipe x s := mkY (y_fs s) (y_file s) x (y_k s) (y_woken s) (y_killed s) (y_ofile s) (y_sz s) (y_pgdir s) (y_esp s) (y_eip s) (y_name s).
Definition set_yk x s := mkY (y_fs s) (y_file s) (y_pipe s) x (y_woken s) (y_killed s) (y_ofile s) (y_sz s) (y_pgdir s) (y_esp s) (y_eip s) (y_name s).
Definition set_ywoken x s := mkY (y_fs s) (y_file s) (y_pipe s) (y_k s) x (y_killed s) (y_ofile s) (y_sz s) (y_pgdir s) (y_esp s) (y_eip s) (y_name s).
Definition set_yofile x s := mkY (y_fs s) (y_file s) (y_pipe s) (y_k s) (y_woken s) (y_killed s) x (y_sz s) (y_pgdir s) (y_esp s) (y_eip s) (y_name s).

Definition fs {A} (m : M fstate A) : M ystate A := lift y_fs set_yfs m.
Definition km {A} (m : M kstate A) : M ystate A := lift y_k set_yk m.
Definition begin_tx : M ystate unit := fs (st st_begin_op).
Definition end_tx : M ystate unit := fs (st st_end_op).
Definition getf {A} (f : nat) (g : file → A) : M ystate A := gets (λ s, g (y_file s !!! f)).
Definition updf (f : nat) (g : file → file) : M ystate unit :=
  modify (λ s, set_yfile (alter g f (y_file s)) s).

(** ** The table *)

Fixpoint filealloc_scan (l : list file) (i : nat) : option nat :=
  match l with
  | [] => None
  | f :: l => if fl_ref f =? 0 then Some i else filealloc_scan l (1 + i)
  end.
Definition filealloc : M ystate (option nat) :=
  l ← gets y_file;
  match filealloc_scan l 0 with
  | Some f => updf f (set_fref 1) ;; mret (Some f)
  | None => mret None
  end.

Definition filedup (f : nat) : M ystate nat :=
  ref ← getf f fl_ref;
  if ref <? 1 then panic "filedup" else
  updf f (set_fref (ref + 1)) ;; mret f.

(** ** Pipes *)

Definition get_pipe (pg : Z) : M ystate pipe := λ s,
  match y_pipe s !! pg with
  | Some p => Ok (p, s)
  | None => Panic "pipe: bad pointer"
  end.
Definition set_pipe (pg : Z) (p : pipe) : M ystate unit := modify (λ s, set_ypipe (<[pg := p]> (y_pipe s)) s).
Definition wake_pipe (pg : Z) (c : pchan) : M ystate unit := modify (λ s, set_ywoken ((pg, c) :: y_woken s) s).

(** [pipeclose(pipe, writable)] *)
Definition close_pipe (pg : Z) (writable : bool) : M ystate unit :=
  p ← get_pipe pg;
  let '(p, c, free) := pipeclose p writable in
  wake_pipe pg c ;;
  if (free : bool) then modify (λ s, set_ypipe (delete pg (y_pipe s)) s) ;; km (kfree kend pg)
  else set_pipe pg p.

(** [piperead(pipe, addr, n)] and [pipewrite(pipe, addr, n)] when they need not sleep *)
Definition read_pipe (pg n : Z) : M ystate (Z * list Z) :=
  p ← get_pipe pg;
  killed ← gets y_killed;
  match piperead p n killed with
  | (RDone bs, p) => set_pipe pg p ;; wake_pipe pg NWrite ;; mret (Z.of_nat (length bs), bs)
  | (RFail, p) => set_pipe pg p ;; mret (-1, [])
  | (RSleep, _) => sleeps
  end.
Definition write_pipe (pg : Z) (bs : list Z) : M ystate Z :=
  p ← get_pipe pg;
  killed ← gets y_killed;
  match pipewrite p bs killed with
  | (WDone, p) => set_pipe pg p ;; wake_pipe pg NRead ;; mret (Z.of_nat (length bs))
  | (WFail _, p) => set_pipe pg p ;; mret (-1)
  | (WSleep _, _) => sleeps
  end.

(** ** Operations *)

Definition fileclose (f : nat) : M ystate unit :=
  ff ← getf f id;
  if fl_ref ff <? 1 then panic "fileclose" else
  if 0 <? fl_ref ff - 1 then updf f (set_fref (fl_ref ff - 1)) else
  updf f (λ f, set_ftype FD_NONE (set_fref 0 f)) ;;
  match fl_type ff with
  | FD_PIPE => close_pipe (fl_pipe ff) (fl_writable ff)
  | FD_INODE => begin_tx ;; fs (iput (fl_ip ff)) ;; end_tx
  | FD_NONE => mret tt
  end.

(** The [struct stat], and -1 as [None]. *)
Definition filestat (f : nat) : M ystate (option stat) :=
  ff ← getf f id;
  match fl_type ff with
  | FD_INODE =>
      fs (ilock (Some (fl_ip ff))) ;;
      x ← fs (stati (fl_ip ff));
      fs (iunlock (Some (fl_ip ff))) ;;
      mret (Some x)
  | _ => mret None
  end.

(** The result and the bytes that [addr] receives. *)
Definition fileread (f : nat) (n : Z) : M ystate (Z * list Z) :=
  ff ← getf f id;
  if negb (fl_readable ff) then mret (-1, []) else
  match fl_type ff with
  | FD_PIPE => read_pipe (fl_pipe ff) n
  | FD_INODE =>
      fs (ilock (Some (fl_ip ff))) ;;
      r ← fs (readi devsw (fl_ip ff) (fl_off ff) (u32 n));
      when (0 <? r.1) (updf f (λ f, set_foff (u32 (fl_off f + r.1)) f)) ;;
      fs (iunlock (Some (fl_ip ff))) ;;
      mret r
  | FD_NONE => panic "fileread"
  end.

Definition MAXWRITE : Z := (MAXOPBLOCKS - 1 - 1 - 2) / 2 * 512.

(** One transaction of [filewrite]. *)
Definition filewrite_round (f : nat) (bs : list Z) (n1 : Z) : M ystate Z :=
  begin_tx ;;
  ip ← getf f fl_ip;
  fs (ilock (Some ip)) ;;
  off ← getf f fl_off;
  r ← fs (writei devsw ip bs off n1);
  when (0 <? r) (updf f (λ f, set_foff (u32 (fl_off f + r)) f)) ;;
  fs (iunlock (Some ip)) ;;
  end_tx ;;
  mret r.
(** The loop, with [i] bytes written and [addr] the rest of the bytes; it returns the
    final [i].  Each round but the last writes [MAXWRITE] bytes. *)
Fixpoint filewrite_loop (k : nat) (f : nat) (addr : list Z) (i n : Z) : M ystate Z :=
  if negb (i <? n) then mret i else
  match k with
  | O => panic "filewrite: out of fuel"
  | Datatypes.S k =>
      let n1 := if MAXWRITE <? n - i then MAXWRITE else n - i in
      r ← filewrite_round f (take (Z.to_nat n1) addr) n1;
      if r <? 0 then mret i else
      if negb (r =? n1) then panic "short filewrite" else
      filewrite_loop k f (drop (Z.to_nat r) addr) (i + r) n
  end.
Definition filewrite (f : nat) (addr : list Z) (n : Z) : M ystate Z :=
  ff ← getf f id;
  if negb (fl_writable ff) then mret (-1) else
  match fl_type ff with
  | FD_PIPE => write_pipe (fl_pipe ff) (take (Z.to_nat n) addr)
  | FD_INODE =>
      i ← filewrite_loop (1 + Z.to_nat (n / MAXWRITE)) f addr 0 n;
      mret (if i =? n then n else -1)
  | FD_NONE => panic "filewrite"
  end.

(** ** pipealloc *)

(** [bad:] of [pipealloc]. *)
Definition pipealloc_bad (p : Z) (f0 f1 : option nat) : M ystate (option (nat * nat)) :=
  when (negb (p =? 0)) (km (kfree kend p)) ;;
  match f0 with Some f0 => fileclose f0 | None => mret tt end ;;
  match f1 with Some f1 => fileclose f1 | None => mret tt end ;;
  mret None.
(** The files for reading and writing, or -1 as [None]. *)
Definition pipealloc : M ystate (option (nat * nat)) :=
  f0 ← filealloc;
  match f0 with
  | None => pipealloc_bad 0 None None
  | Some f0 =>
      f1 ← filealloc;
      match f1 with
      | None => pipealloc_bad 0 (Some f0) None
      | Some f1 =>
          p ← km kalloc;
          if p =? 0 then pipealloc_bad 0 (Some f0) (Some f1) else
          m ← gets (λ s, k_mem (y_k s));
          set_pipe p (pipe_init ((λ i, mread m (p + 52 + Z.of_nat i)) <$> seq 0 (Z.to_nat PIPESIZE))) ;;
          updf f0 (λ f, mkFile FD_PIPE (fl_ref f) true false p (fl_ip f) (fl_off f)) ;;
          updf f1 (λ f, mkFile FD_PIPE (fl_ref f) false true p (fl_ip f) (fl_off f)) ;;
          mret (Some (f0, f1))
      end
  end.
End file.
