(* ===== verification/FileSpec.v ===== *)
(** * Writing an open file

    [filewrite] cuts a write into transactions.  Against the interfaces of the log and of
    the file system's contents: the whole write happens, and is on the disk when it
    returns. *)

From S2P Require Import Prelude Params Bytes KMemory Kalloc Pipe Bio BioSpec Log LogSpec Tx Fs FsSpec FsFile Files File.

Section filespec.
Context {S D : Type} `{!TxStore S} (sb : superblock) (devsw : Z → devops (@fstate S D)).
Abbreviation fs := (@fstate S D).
Abbreviation ystate := (@ystate S D).

(** ** The end of a transaction keeps every file *)

Lemma home_ext v v' :
  geom sb → fswf sb v → (∀ k, st_home k → v' k = v k) →
  fswf sb v' ∧ nfree sb v' = nfree sb v ∧
  ∀ p, iwf sb v p → iwf sb v' p ∧ (∀ b, iblk v' p b = iblk v p b) ∧ ∀ b, 0 ≤ b < MAXFILE → fdata v' p b = fdata v p b.
Proof.
  intros G W Hv.
  assert (∀ b, 0 ≤ b < sb_size sb → used sb v' b ↔ used sb v b) as Hu.
  { intros b Hb. rw /used Hv //. by apply ge_bitmap. }
  split; [|split; [by apply nfree_ext|]].
  - split; [intros k Hk; rw Hv //; by apply W| |rw Hv; [by apply (ge_super sb)|by apply W]].
    intros b Hb. rw Hu //. by apply W.
  - intros p I. apply (iwf_ext sb v v' p I); [|intros k Hk; apply Hv, Hk].
    intros k [K1 K2 K3 K4]. split; try done. apply Hu; [lia|done].
Qed.

(** The file [f] is open on the file of inode [ip]; no transaction is open, and the disk
    holds [v]. *)
Record fopened (y : ystate) (f ip : nat) (v : Z → block) : Prop := {
  fo_idle : st_idle (f_st (y_fs y)) v;
  fo_f : (f < length (y_file y))%nat;
  fo_type : fl_type (y_file y !!! f) = FD_INODE;
  fo_ip : fl_ip (y_file y !!! f) = ip;
  fo_geom : geom sb;
  fo_fs : fswf sb v;
  fo_sb : f_sb (y_fs y) = sb;
  fo_len : (ip < length (f_inode (y_fs y)))%nat;
  fo_iwf : iwf sb v (f_inode (y_fs y) !!! ip);
  fo_hole : nohole v (f_inode (y_fs y) !!! ip);
  fo_notdev : i_type (f_inode (y_fs y) !!! ip) ≠ T_DEV;
  fo_inum : 0 ≤ i_inum (f_inode (y_fs y) !!! ip) < sb_ninodes sb;
  fo_size : 0 ≤ i_size (f_inode (y_fs y) !!! ip) ≤ MAXFILE * BSIZE;
  fo_free : free_inode (f_inode (y_fs y) !!! ip);
}.

(** ** Locking *)

Lemma iwf_ilock v p l : iwf sb v p → iwf sb v (set_ilock l p).
Proof. by intros []. Qed.
Lemma nohole_ilock v p l : nohole v p → nohole v (set_ilock l p).
Proof. done. Qed.

(** ** One transaction of filewrite *)

Lemma fs_lift {A} (m : M fs A) (y : ystate) a s' : m (y_fs y) = Ok (a, s') → File.fs m y = Ok (a, set_yfs s' y).
Proof. intros E. by rw /File.fs /lift E. Qed.
Lemma fs_st_lift {A} (m : M S A) (y : ystate) a t :
  m (f_st (y_fs y)) = Ok (a, t) → File.fs (st m) y = Ok (a, set_yfs (set_st t (y_fs y)) y).
Proof. intros E. apply fs_lift. by rw /st /lift E. Qed.

Lemma nblocks_round off n : 0 ≤ n ≤ MAXWRITE → nblocks off n ≤ 4.
Proof.
  intros Hn. change MAXWRITE with 1536 in Hn. rw /nblocks /BSIZE. pose proof (Z.mod_pos_bound off 512).
  enough ((off mod 512 + n + (512 - 1)) / 512 < 5) by lia. apply Z.div_lt_upper_bound; lia.
Qed.

(** The state after a write of [src] at the file's offset. *)
Record fwritten (y : ystate) (f ip : nat) (v : Z → block) (src : list Z) (cost : Z) (y' : ystate) (v' : Z → block) : Prop := {
  fw_open : fopened y' f ip v';
  fw_off : fl_off (y_file y' !!! f) = fl_off (y_file y !!! f) + Z.of_nat (length src);
  fw_writable : fl_writable (y_file y' !!! f) = fl_writable (y_file y !!! f);
  fw_size : i_size (f_inode (y_fs y') !!! ip) =
    Z.max (i_size (f_inode (y_fs y) !!! ip)) (fl_off (y_file y !!! f) + Z.of_nat (length src));
  fw_data : written v (f_inode (y_fs y) !!! ip) (fl_off (y_file y !!! f)) src v' (f_inode (y_fs y') !!! ip);
  fw_cost : Z.of_nat (nfree sb v) ≤ Z.of_nat (nfree sb v') + cost;
}.

Lemma filewrite_round_ok (y : ystate) f ip v src :
  let n := Z.of_nat (length src) in let off := fl_off (y_file y !!! f) in let p := f_inode (y_fs y) !!! ip in
  fopened y f ip v → (25 ≤ st_cap)%nat → 0 < n ≤ MAXWRITE → 0 ≤ off ≤ i_size p → off + n ≤ MAXFILE * BSIZE →
  8 ≤ Z.of_nat (nfree sb v) →
  ∃ y' v', filewrite_round devsw f src n y = Ok (n, y') ∧ fwritten y f ip v src 8 y' v'.
Proof.
  intros n off p [F1 F2 F3 F4 F5 F6 F7 F8 F9 F10 F11 F12 F13 F14] Hcap Hn Hoff Hmax Hfree.
  destruct (st_begin_ok _ _ F1) as (t0 & E0 & R0). set (y0 := set_yfs (set_st t0 (y_fs y)) y).
  set (p1 := set_ilock (mkSl true (f_me (y_fs y))) p).
  set (s1 := set_inodes (<[ip := p1]> (f_inode (y_fs y))) (set_st t0 (y_fs y))).
  assert (f_inode s1 !!! ip = p1) as Ep1 by by rw /s1 /= list_lookup_total_insert_eq.
  assert (opened sb s1 ip ∅ v) as O1.
  { split; rw ?Ep1; try done; [by rw /s1 /= length_insert|by destruct F9; split]. }
  pose proof (nblocks_round off n ltac:(lia)) as Hb. pose proof (nblocks_nonneg off n ltac:(lia)) as Hb0.
  destruct (opened_write sb devsw s1 ip ∅ v src off O1) as (t2 & v2 & p2 & lg2 & E2 & O2 & Hp2 & Hs2 & Hw2 & _ & Hf2).
  { rw -/n. split; rw ?size_empty; [lia|lia|]. change NBUF with 30. lia. }
  { by rw Ep1. }
  { done. }
  rw Ep1 in Hp2 Hs2 Hw2. rw -/n in E2 Hs2 Hf2.
  set (s2 := set_inodes (<[ip := p2]> (f_inode s1)) (set_st t2 s1)) in *.
  assert (f_inode s2 !!! ip = p2) as Ep2 by (rw /s2 /= list_lookup_total_insert_eq //; by rw length_insert).
  set (p3 := set_ilock (mkSl false 0) p2). set (s3 := set_inodes (<[ip := p3]> (f_inode s2)) s2).
  destruct (st_end_ok _ lg2 v2 (op_rep _ _ _ _ _ O2)) as (t4 & v4 & E4 & I4 & Hv4).
  destruct (home_ext v2 v4 F5 (op_fs _ _ _ _ _ O2) Hv4) as (W4 & N4 & X4).
  destruct (X4 p2) as (I4' & B4 & D4). { rw -Ep2. apply O2. }
  set (s4 := set_st t4 s3).
  assert (f_inode s4 !!! ip = p3) as Ep4 by (rw /s4 /s3 /= list_lookup_total_insert_eq //; by rw /s2 /= !length_insert).
  set (ff := set_foff (u32 (off + n)) (y_file y !!! f)). set (y4 := set_yfile (<[f := ff]> (y_file y)) (set_yfs s4 y)).
  exists y4, v4. split.
  - rw /filewrite_round /begin_tx. mgo (fs_st_lift st_begin_op y tt t0 E0). rw -/y0 /getf. mget. rw F4.
    assert (ilock (Some ip) (y_fs y0) = Ok (tt, s1)) as E1 by by rw ilock_ok.
    mgo (fs_lift _ y0 _ _ E1). mget. rw -/off. change (y_file (set_yfs s1 y0)) with (y_file y). rw -/off.
    mgo (fs_lift _ (set_yfs s1 y0) _ _ E2). rewrite -> (proj2 (Z.ltb_lt _ _)) by lia. cbn [when]. rw /updf. mget.
    rewrite -> (list_alter_insert_Some _ _ _ (y_file y !!! f)) by by apply list_lookup_lookup_total_lt.
    set (y2 := set_yfile _ _).
    assert (iunlock (Some ip) (y_fs y2) = Ok (tt, s3)) as E3.
    { change (y_fs y2) with s2. rw iunlock_ok.
      - by rw /s2 /= !length_insert.
      - rw Ep2 Hp2. done.
      - rw Ep2 Hp2. apply F14.
      - by rw Ep2. }
    mgo (fs_lift _ y2 _ _ E3). rw /end_tx. assert (st_end_op (f_st (y_fs (set_yfs s3 y2))) = Ok (tt, t4)) as E4' by exact E4.
    mgo (fs_st_lift _ (set_yfs s3 y2) _ _ E4'). done.
  - assert (y_file y4 !!! f = ff) as Ef by (rw /y4 /= list_lookup_total_insert_eq //).
    assert (∀ b, 0 ≤ b < MAXFILE → fdata v4 p3 b = fdata v2 p2 b) as D3 by (intros b Hb'; by rewrite <- D4).
    split; rw ?Ef; cbn [y_fs y4 set_yfile set_yfs]; fold s4; rw ?Ep4; try done.
    + split; rw ?Ef; cbn [y_fs y4 set_yfile set_yfs]; fold s4; rw ?Ep4; try done.
      * by rw /y4 /= length_insert.
      * by rw /s4 /s3 /s2 /s1 /= !length_insert.
      * by destruct I4'; split.
      * intros bn Hbn Hlt. change (iblk v4 p3 bn) with (iblk v4 p2 bn). rw B4.
        rw -Ep2. apply (op_hole _ _ _ _ _ O2); [done|]. by rw Ep2.
      * rw /p3 Hp2. done.
      * rw /p3 Hp2. done.
      * change (i_size p3) with (i_size p2). rw Hs2. change (i_size p1) with (i_size p). rw -/p in F13. lia.
      * split; [done| |]; rw /p3 Hp2; apply F14.
    + rw /ff /= u32_small //. rw MAXFILE_eq /BSIZE in Hmax. lia.
    + intros pos Hpos. rw /fbyte D3; [by apply pos_block|]. by apply Hw2.
    + rw N4. lia.
Qed.

Lemma fwritten_nil (y : ystate) f ip v : fopened y f ip v → 0 ≤ fl_off (y_file y !!! f) ≤ i_size (f_inode (y_fs y) !!! ip) → fwritten y f ip v [] 0 y v.
Proof. intros F H. split; simpl; try done; try lia. by apply written_nil. Qed.
Lemma fwritten_trans (y : ystate) f ip v s1 c1 y1 v1 s2 c2 y2 v2 :
  fwritten y f ip v s1 c1 y1 v1 → fwritten y1 f ip v1 s2 c2 y2 v2 → fwritten y f ip v (s1 ++ s2) (c1 + c2) y2 v2.
Proof.
  intros [A1 A2 A3 A4 A5 A6] [B1 B2 B3 B4 B5 B6]. split; rw ?length_app ?Nat2Z.inj_add; try done; try lia.
  - by rw B3.
  - apply (written_trans _ _ _ _ _ v1 (f_inode (y_fs y1) !!! ip)); [done|]. by rw -A2.
Qed.

(** ** filewrite *)

Lemma filewrite_loop_ok f ip c : ∀ k (y : ystate) v addr i n,
  let off := fl_off (y_file y !!! f) in
  fopened y f ip v → (25 ≤ st_cap)%nat → (c ≤ k)%nat → Z.of_nat (length addr) = n - i → 0 ≤ off ≤ i_size (f_inode (y_fs y) !!! ip) →
  off + (n - i) ≤ MAXFILE * BSIZE → n - i ≤ MAXWRITE * Z.of_nat c → 8 * Z.of_nat c ≤ Z.of_nat (nfree sb v) →
  ∃ y' v', filewrite_loop devsw k f addr i n y = Ok (n, y') ∧ fwritten y f ip v addr (8 * Z.of_nat c) y' v'.
Proof.
  induction c as [|c IH]; intros k y v addr i n off F Hcap Hck Hlen Hoff Hmax Hc Hfree.
  { assert (addr = []) as -> by (apply nil_length_inv; lia). assert (i = n) as -> by (simpl in Hlen; lia).
    exists y, v. split; [destruct k; simpl; by rw Z.ltb_irrefl|]. by apply fwritten_nil. }
  destruct (decide (i < n)) as [Hin|Hin].
  2: { assert (addr = []) as -> by (apply nil_length_inv; lia). assert (i = n) as -> by (simpl in Hlen; lia).
    exists y, v. split; [destruct k; simpl; by rw Z.ltb_irrefl|]. destruct (fwritten_nil y f ip v F Hoff). split; try done. lia. }
  destruct k as [|k]; [lia|]. cbn [filewrite_loop]. rewrite -> (proj2 (Z.ltb_lt i n)) by lia. cbn [negb].
  set (n1 := if MAXWRITE <? n - i then MAXWRITE else n - i).
  assert (0 < n1 ∧ n1 ≤ n - i ∧ n1 ≤ MAXWRITE ∧ n - i - n1 ≤ MAXWRITE * Z.of_nat c) as (Hn0 & Hn1 & Hn2 & Hn3).
  { rw /n1. change MAXWRITE with 1536 in *. destruct (Z.ltb_spec 1536 (n - i)); lia. }
  set (src := take (Z.to_nat n1) addr). assert (Z.of_nat (length src) = n1) as Hsrc by (rw /src length_take; lia).
  destruct (filewrite_round_ok y f ip v src F Hcap) as (y1 & v1 & E1 & W1); [lia|done|fold off; lia|lia|].
  rw Hsrc in E1. pose proof W1 as [A1 A2 A3 A4 A5 A6]. rw Hsrc in A2 A4. fold off in A2, A4.
  destruct (IH k y1 v1 (drop (Z.to_nat n1) addr) (i + n1) n A1 Hcap) as (y2 & v2 & E2 & W2).
  { lia. }
  { rw length_drop. lia. }
  { rw A2 A4. lia. }
  { rw A2. lia. }
  { lia. }
  { lia. }
  exists y2, v2. split.
  - mgo E1. rewrite -> (proj2 (Z.ltb_ge n1 0)) by lia. rw Z.eqb_refl. cbn [negb]. done.
  - rewrite <- (take_drop (Z.to_nat n1) addr). fold src. replace (8 * Z.of_nat (Datatypes.S c)) with (8 + 8 * Z.of_nat c) by lia.
    by apply (fwritten_trans y f ip v src 8 y1 v1).
Qed.

End filespec.

(** ** An example *)

#[local] Instance ex_tx : TxStore lstate := log_txstore 64 2 30.
Definition ex_file : file := mkFile FD_INODE 1 true true 0 0 0.
Definition ex_free_inode : inode := set_ilock (mkSl false 0) (ex_empty T_FILE).
Abbreviation ex_y s := (@mkY lstate unit (mkFs s ex_sb [ex_free_inode] tt 1 0) [ex_file] ∅ (mkKstate ∅ 0 false false) [] false [] 0 0 0 0 []).

Lemma ex_idle : ∃ s : lstate, st_idle s ex_view.
Proof. apply idle_of, ex_formatted. Qed.

