(* ===== verification/Syscall.v ===== *)
(** * System call arguments (syscall.c)

    The kernel fetches the arguments of a system call from the user's stack, checking
    every address against the size of the process.  What the code uses of the running
    process is the interface [UserMem]; the dispatcher of [syscall] is over a table of
    handlers. *)

From S2P Require Import Prelude Params KMemory.

(** The running process as the kernel sees it during a system call: its size, its saved
    stack pointer and the bytes of its memory.  A load through the page table from an
    address that is not mapped traps, which stops the kernel. *)
Class UserMem (T : Type) := {
  um_sz : T → Z;
  um_esp : T → Z;
  um_load : Z → M T Z;
}.

Section args.
Context {T : Type} `{!UserMem T}.

Definition um_load32 (a : Z) : M T Z :=
  b0 ← um_load a; b1 ← um_load (u32 (a + 1)); b2 ← um_load (u32 (a + 2)); b3 ← um_load (u32 (a + 3));
  mret (u8 b0 + 256 * u8 b1 + 65536 * u8 b2 + 16777216 * u8 b3).

(** An [int] result with -1 as [None]. *)
Definition fetchint (addr : Z) : M T (option Z) :=
  sz ← gets um_sz;
  if (sz <=? addr) || (sz <? u32 (addr + 4)) then mret None else
  x ← um_load32 addr; mret (Some (s32 x)).

(** [for(s = *pp; s < ep; s++)]: the string's bytes. *)
Fixpoint fetchstr_loop (k : nat) (s ep : Z) (acc : list Z) : M T (option (list Z)) :=
  match k with
  | O => mret None
  | Datatypes.S k =>
      if negb (s <? ep) then mret None else
      c ← um_load s;
      if c =? 0 then mret (Some acc) else fetchstr_loop k (s + 1) ep (acc ++ [c])
  end.
(** The string at [addr], whose length the C function returns. *)
Definition fetchstr (addr : Z) : M T (option (list Z)) :=
  sz ← gets um_sz;
  if sz <=? addr then mret None else fetchstr_loop (Z.to_nat (sz - addr)) addr sz [].

Definition argint (n : Z) : M T (option Z) :=
  esp ← gets um_esp;
  fetchint (u32 (esp + 4 + 4 * n)).

(** The pointer, as an address. *)
Definition argptr (n size : Z) : M T (option Z) :=
  i ← argint n;
  match i with
  | None => mret None
  | Some i =>
      sz ← gets um_sz;
      if (size <? 0) || (sz <=? u32 i) || (sz <? u32 (u32 i + size)) then mret None
      else mret (Some (u32 i))
  end.

(** The string itself, with its address. *)
Definition argstr (n : Z) : M T (option (list Z)) :=
  addr ← argint n;
  match addr with
  | None => mret None
  | Some addr => fetchstr (u32 addr)
  end.

(** [if(m < 0) return -1;] *)
Definition orfail {A} (m : M T (option A)) (k : A → M T Z) : M T Z :=
  x ← m;
  match x with
  | None => mret (-1)
  | Some a => k a
  end.
End args.

Notation "x '←?' m ; k" := (orfail m (λ x, k)) (at level 20, m at level 100, k at level 200, right associativity).

(** ** Dispatch *)

Section dispatch.
Context {T : Type} (get_eax : T → Z) (set_eax : Z → T → T) (print_unknown : Z → M T unit).
(** [syscalls]: its length and its entries.  A handler returns a value, or has switched
    to the scheduler and left it the CPU's interrupt state. *)
Context (nelem : Z) (syscalls : Z → option (M T (Z + bool))).

Definition syscall : M T (option bool) :=
  num ← gets (λ s, s32 (get_eax s));
  match (if (0 <? num) && (num <? nelem) then syscalls num else None) with
  | Some f =>
      r ← f;
      match r with
      | inl r => modify (set_eax (u32 r)) ;; mret None
      | inr e => mret (Some e)
      end
  | None => print_unknown num ;; modify (set_eax (u32 (-1))) ;; mret None
  end.
End dispatch.

(** ** The checks keep the kernel inside the process *)

Section safety.
Context {T : Type} `{!UserMem T}.

(** The process's memory is mapped up to its size, and holds the bytes [m]. *)
Record user_ok (s : T) (m : Z → Z) : Prop := {
  uo_sz : 0 ≤ um_sz s ≤ KERNBASE;
  uo_load a : 0 ≤ a < um_sz s → um_load a s = Ok (m a, s);
  uo_byte a : 0 ≤ m a < 256;
}.
Definition word_at (m : Z → Z) (a : Z) : Z := s32 (m a + 256 * m (a + 1) + 65536 * m (a + 2) + 16777216 * m (a + 3)).

Lemma fetchint_ok s m a :
  user_ok s m → 0 ≤ a < 4294967296 →
  fetchint a s = Ok (if a + 4 <=? um_sz s then Some (word_at m a) else None, s).
Proof.
  intros [Hsz Hl Hb] Ha. rw /KERNBASE in Hsz. rw /fetchint. mget.
  destruct (Z.leb_spec (a + 4) (um_sz s)) as [Hin|Hout].
  - rewrite -> (u32_small (a + 4)) by lia.
    rewrite -> (proj2 (orb_false_iff _ _)) by (split; [apply Z.leb_gt|apply Z.ltb_ge]; lia).
    rw /um_load32. rewrite -> !(u32_small (a + _)) by lia. rw !bind_assoc.
    do 4 (rw ?bind_assoc; mnext (apply Hl; lia)). rw /word_at. mget. rewrite -> !u8_small by apply Hb. done.
  - destruct (Z.leb_spec (um_sz s) a); [done|]. rewrite -> (u32_small (a + 4)) by lia.
    rewrite -> (proj2 (Z.ltb_lt _ _)) by lia. done.
Qed.

Lemma fetchstr_loop_ok s m k : ∀ a acc,
  user_ok s m → 0 ≤ a → um_sz s = a + Z.of_nat k →
  (∃ l, fetchstr_loop k a (um_sz s) acc s = Ok (Some (acc ++ l), s) ∧ a + Z.of_nat (length l) < um_sz s ∧
     m (a + Z.of_nat (length l)) = 0 ∧ ∀ i, (i < length l)%nat → l !! i = Some (m (a + Z.of_nat i)) ∧ m (a + Z.of_nat i) ≠ 0) ∨
  fetchstr_loop k a (um_sz s) acc s = Ok (None, s) ∧ ∀ b, a ≤ b < um_sz s → m b ≠ 0.
Proof.
  induction k as [|k IH]; intros a acc U Ha Hk; cbn [fetchstr_loop].
  { right. split; [done|]. lia. }
  rewrite -> (proj2 (Z.ltb_lt _ _)) by lia. cbn [negb]. mnext (apply (uo_load _ _ U); lia).
  destruct (Z.eqb_spec (m a) 0) as [H0|H0].
  - left. exists []. rw app_nil_r /= Z.add_0_r. split; [done|]. split; [lia|]. split; [done|]. lia.
  - destruct (IH (a + 1) (acc ++ [m a]) U) as [(l & E & H1 & H2 & H3)|[E H]]; [lia|lia| |].
    + left. exists (m a :: l). rw E -app_assoc /=. split; [done|].
      rw Nat2Z.inj_succ. split; [lia|]. split; [by replace (a + Z.succ (Z.of_nat (length l))) with (a + 1 + Z.of_nat (length l)) by lia|].
      intros [|i] Hi; [by rw /= Z.add_0_r|]. replace (a + Z.of_nat (Datatypes.S i)) with (a + 1 + Z.of_nat i) by lia.
      apply H3. lia.
    + right. split; [done|]. intros b Hb. destruct (decide (b = a)) as [->|]; [done|]. apply H. lia.
Qed.

(** [l] is the NUL-terminated string at [a], inside the process. *)
Definition string_at (s : T) (m : Z → Z) (a : Z) (l : list Z) : Prop :=
  0 ≤ a ∧ a + Z.of_nat (length l) < um_sz s ∧ m (a + Z.of_nat (length l)) = 0 ∧
  ∀ i, (i < length l)%nat → l !! i = Some (m (a + Z.of_nat i)) ∧ m (a + Z.of_nat i) ≠ 0.

Lemma fetchstr_ok s m a :
  user_ok s m → 0 ≤ a →
  (∃ l, fetchstr a s = Ok (Some l, s) ∧ string_at s m a l) ∨
  fetchstr a s = Ok (None, s) ∧ ∀ b, a ≤ b < um_sz s → m b ≠ 0.
Proof.
  intros U Ha. rw /fetchstr. mget. destruct (Z.leb_spec (um_sz s) a) as [Hs|Hs]; [right; split; [done|lia]|].
  destruct (fetchstr_loop_ok s m (Z.to_nat (um_sz s - a)) a [] U Ha) as [(l & E & H)|[E H]]; [lia| |].
  - left. exists l. by split.
  - by right.
Qed.

Lemma argint_ok s m n :
  user_ok s m → argint n s = Ok (if u32 (um_esp s + 4 + 4 * n) + 4 <=? um_sz s
    then Some (word_at m (u32 (um_esp s + 4 + 4 * n))) else None, s).
Proof. intros U. rw /argint. mget. apply fetchint_ok; [done|]. apply u32_range. Qed.

(** C33. Whatever stack pointer and arguments a program passes, fetching an argument
    neither traps nor changes anything: [argint] reads a word inside the process or
    fails; a buffer that [argptr] accepts lies inside the process; a string that
    [argstr] accepts is the NUL-terminated string at an address of the process, and it
    fails only for an argument outside the process or a string that does not end. *)
Theorem syscall_args_safe s m n :
  user_ok s m →
  let a := u32 (um_esp s + 4 + 4 * n) in
  (argint n s = Ok (None, s) ∧ um_sz s < a + 4 ∨
   argint n s = Ok (Some (word_at m a), s) ∧ a + 4 ≤ um_sz s) ∧
  (∀ size, -2147483648 ≤ size < 2147483648 →
     argptr n size s = Ok (None, s) ∧ (um_sz s < a + 4 ∨ size < 0 ∨ um_sz s ≤ u32 (word_at m a) ∨ um_sz s < u32 (word_at m a) + size) ∨
     ∃ p, argptr n size s = Ok (Some p, s) ∧ p = u32 (word_at m a) ∧ 0 ≤ p < um_sz s ∧ 0 ≤ size ∧ p + size ≤ um_sz s) ∧
  (argstr n s = Ok (None, s) ∧ (um_sz s < a + 4 ∨ ∀ b, u32 (word_at m a) ≤ b < um_sz s → m b ≠ 0) ∨
   ∃ l, argstr n s = Ok (Some l, s) ∧ string_at s m (u32 (word_at m a)) l).
Proof.
  intros U a. pose proof (argint_ok s m n U) as E. rw -/a in E.
  pose proof (uo_sz _ _ U) as Hsz. rw /KERNBASE in Hsz. pose proof (u32_range (word_at m a)) as Hp.
  destruct (Z.leb_spec (a + 4) (um_sz s)) as [Hin|Hout].
  - split; [by right|]. split.
    + intros size Hs. rw /argptr. mgo E. mget. destruct (Z.ltb_spec size 0); [left; split; [done|lia]|].
      destruct (Z.leb_spec (um_sz s) (u32 (word_at m a))); [left; split; [done|lia]|]. cbn [orb].
      rewrite -> (u32_small (_ + size)) by lia.
      destruct (Z.ltb_spec (um_sz s) (u32 (word_at m a) + size)); [left; split; [done|lia]|].
      right. exists (u32 (word_at m a)). split; [done|]. lia.
    + rw /argstr. mgo E. destruct (fetchstr_ok s m (u32 (word_at m a)) U) as [(l & E' & H)|[E' H]]; [lia| |].
      * right. by exists l.
      * left. split; [done|]. by right.
  - split; [by left|]. split.
    + intros size Hs. left. rw /argptr. mgo E. split; [done|lia].
    + left. rw /argstr. mgo E. split; [done|]. by left.
Qed.
End safety.

(** A process of eight bytes, a stack pointer at 0 and the string "hi" at address 4. *)
#[local] Instance example_um : UserMem unit := {|
  um_sz := λ _, 8;
  um_esp := λ _, u32 (-4);
  um_load a := mret (if a =? 0 then 4 else if a =? 4 then 104 else if a =? 5 then 105 else 0);
|}.
Lemma syscall_args_safe_witness : argstr (T := unit) 0 tt = Ok (Some [104; 105], tt) ∧ ∃ p, argptr (T := unit) 0 4 tt = Ok (Some p, tt).
Proof.
  destruct (syscall_args_safe (T := unit) tt (λ a, if a =? 0 then 4 else if a =? 4 then 104 else if a =? 5 then 105 else 0) 0)
    as (_ & H & _).
  - split; [cbn; rw /KERNBASE; lia|done|]. intros a. repeat destruct (_ =? _); lia.
  - split; [by vm_compute|]. destruct (H 4) as [[E _]|(p & E & _)]; [lia|vm_compute in E; discriminate|]. by exists p.
Defined.
