(* ===== verification/Sysfile.v ===== *)
(** * File system calls (sysfile.c)

    The system calls on files, with their argument checks and every error path.  User
    memory is kernel memory seen through the process's page table. *)

From S2P Require Import Prelude Params Bytes KMemory Kalloc Vm Pipe Bio Log Tx Fs File Syscall.

(** fcntl.h *)
Definition O_RDONLY : Z := 0.
Definition O_WRONLY : Z := 1.
Definition O_RDWR : Z := 2.
Definition O_CREATE : Z := 512.

Definition DOT : list Z := [46].
Definition DOTDOT : list Z := [46; 46].

Section sysfile.
Context {S D : Type} `{!TxStore S}.
Context (kend : Z) (devsw : Z → devops (@fstate S D)).
Abbreviation ystate := (@ystate S D).

(** ** User memory *)

Definition uload (a : Z) : M ystate Z := λ s,
  match translate (k_mem (y_k s)) (y_pgdir s) a with
  | Some (pa, _) => Ok (mread (k_mem (y_k s)) (P2V pa), s)
  | None => Panic "trap"
  end.
(** A store, to a page that is writable. *)
Definition ustore (a b : Z) : M ystate unit := λ s,
  match translate (k_mem (y_k s)) (y_pgdir s) a with
  | Some (pa, fl) =>
      if Z.land fl PTE_W =? 0 then Panic "trap"
      else Ok (tt, set_yk (set_mem (mwrite (k_mem (y_k s)) (P2V pa) b) (y_k s)) s)
  | None => Panic "trap"
  end.
Fixpoint ustores (a : Z) (bs : list Z) : M ystate unit :=
  match bs with
  | [] => mret tt
  | b :: bs => ustore a b ;; ustores (a + 1) bs
  end.
Fixpoint uloads (a : Z) (n : nat) : M ystate (list Z) :=
  match n with
  | O => mret []
  | Datatypes.S n => b ← uload a; bs ← uloads (a + 1) n; mret (b :: bs)
  end.
#[global] Instance y_user : UserMem ystate := {| um_sz := y_sz; um_esp := y_esp; um_load := uload |}.

Definition le16 (x : Z) : list Z := [u8 x; u8 (x / 256)].
Definition le32 (x : Z) : list Z := [u8 x; u8 (x / 256); u8 (x / 65536); u8 (x / 16777216)].

(** ** Descriptors *)

Definition ofile (fd : Z) : M ystate (option nat) := gets (λ s, mjoin (y_ofile s !! Z.to_nat fd)).
Definition set_fd (fd : Z) (f : option nat) : M ystate unit :=
  modify (λ s, set_yofile (<[Z.to_nat fd := f]> (y_ofile s)) s).

(** The descriptor and the file. *)
Definition argfd (n : Z) : M ystate (option (Z * nat)) :=
  fd ← argint n;
  match fd with
  | None => mret None
  | Some fd =>
      if (fd <? 0) || (NOFILE <=? fd) then mret None else
      f ← ofile fd;
      match f with
      | None => mret None
      | Some f => mret (Some (fd, f))
      end
  end.

Fixpoint fdalloc_scan (l : list (option nat)) (fd : Z) : Z :=
  match l with
  | [] => -1
  | None :: _ => fd
  | Some _ :: l => fdalloc_scan l (fd + 1)
  end.
Definition fdalloc (f : nat) : M ystate Z :=
  fd ← gets (λ s, fdalloc_scan (y_ofile s) 0);
  if fd <? 0 then mret (-1) else set_fd fd (Some f) ;; mret fd.

(** ** Calls on open files *)

Definition sys_dup : M ystate Z :=
  a ←? argfd 0;
  fd ← fdalloc a.2;
  if fd <? 0 then mret (-1) else
  filedup a.2 ;; mret fd.

Definition sys_read : M ystate Z :=
  a ←? argfd 0; n ←? argint 2; p ←? argptr 1 n;
  r ← fileread devsw a.2 n;
  ustores p r.2 ;; mret r.1.

Definition sys_write : M ystate Z :=
  a ←? argfd 0; n ←? argint 2; p ←? argptr 1 n;
  bs ← uloads p (Z.to_nat n);
  filewrite devsw a.2 bs n.

Definition sys_close : M ystate Z :=
  a ←? argfd 0;
  set_fd a.1 None ;;
  fileclose kend a.2 ;; mret 0.

(** [struct stat]: the 16-bit fields are at 0 and 12, the others at 4, 8 and 16. *)
Definition STAT_SIZE : Z := 20.
Definition sys_fstat : M ystate Z :=
  a ←? argfd 0; p ←? argptr 1 STAT_SIZE;
  x ←? filestat a.2;
  ustores p (le16 (st_type x)) ;;
  ustores (p + 4) (le32 (st_dev x)) ;;
  ustores (p + 8) (le32 (st_ino x)) ;;
  ustores (p + 12) (le16 (st_nlink x)) ;;
  ustores (p + 16) (le32 (st_size x)) ;;
  mret 0.

(** ** Calls on names *)

Definition fail_tx : M ystate Z := end_tx ;; mret (-1).

(** [bad:] of [sys_link]. *)
Definition link_bad (ip : nat) : M ystate Z :=
  fs (ilock (Some ip)) ;;
  fs (updi ip (λ p, set_inlink (s16 (i_nlink p - 1)) p)) ;;
  fs (iupdate ip) ;;
  fs (iunlockput ip) ;;
  fail_tx.
Definition sys_link : M ystate Z :=
  old ←? argstr 0; new ←? argstr 1;
  begin_tx ;;
  r ← fs (namei devsw old);
  match r with
  | None => fail_tx
  | Some ip =>
      fs (ilock (Some ip)) ;;
      p ← fs (geti ip id);
      if i_type p =? T_DIR then fs (iunlockput ip) ;; fail_tx else
      fs (updi ip (λ p, set_inlink (s16 (i_nlink p + 1)) p)) ;;
      fs (iupdate ip) ;;
      fs (iunlock (Some ip)) ;;
      d ← fs (nameiparent devsw new);
      match d with
      | (None, _) => link_bad ip
      | (Some dp, name) =>
          fs (ilock (Some dp)) ;;
          ddev ← fs (geti dp i_dev);
          idev ← fs (geti ip i_dev);
          inum ← fs (geti ip i_inum);
          r ← (if negb (ddev =? idev) then mret (-1) else fs (dirlink devsw dp name inum));
          if r <? 0 then fs (iunlockput dp) ;; link_bad ip else
          fs (iunlockput dp) ;;
          fs (iput ip) ;;
          end_tx ;;
          mret 0
      end
  end.

Fixpoint isdirempty_loop (dp : nat) (k : nat) (off : Z) : M (@fstate S D) bool :=
  match k with
  | O => mret true
  | Datatypes.S k =>
      size ← geti dp i_size;
      if negb (off <? size) then mret true else
      r ← readi devsw dp off DIRENT;
      if negb (r.1 =? DIRENT) then panic "isdirempty: readi" else
      if negb (de_inum r.2 =? 0) then mret false else isdirempty_loop dp k (off + DIRENT)
  end.
Definition isdirempty (dp : nat) : M (@fstate S D) bool :=
  size ← geti dp i_size;
  isdirempty_loop dp (Z.to_nat (size / DIRENT + 1)) (2 * DIRENT).

Definition sys_unlink : M ystate Z :=
  path ←? argstr 0;
  begin_tx ;;
  d ← fs (nameiparent devsw path);
  match d with
  | (None, _) => fail_tx
  | (Some dp, name) =>
      fs (ilock (Some dp)) ;;
      if (namecmp name DOT =? 0) || (namecmp name DOTDOT =? 0) then fs (iunlockput dp) ;; fail_tx else
      r ← fs (dirlookup devsw dp name);
      match r with
      | None => fs (iunlockput dp) ;; fail_tx
      | Some (ip, off) =>
          fs (ilock (Some ip)) ;;
          p ← fs (geti ip id);
          if i_nlink p <? 1 then panic "unlink: nlink < 1" else
          empty ← (if i_type p =? T_DIR then fs (isdirempty ip) else mret true);
          if negb empty then fs (iunlockput ip) ;; fs (iunlockput dp) ;; fail_tx else
          n ← fs (writei devsw dp (replicate (Z.to_nat DIRENT) 0) off DIRENT);
          if negb (n =? DIRENT) then panic "unlink: writei" else
          when (i_type p =? T_DIR) (
            fs (updi dp (λ p, set_inlink (s16 (i_nlink p - 1)) p)) ;;
            fs (iupdate dp)) ;;
          fs (iunlockput dp) ;;
          fs (updi ip (λ p, set_inlink (s16 (i_nlink p - 1)) p)) ;;
          fs (iupdate ip) ;;
          fs (iunlockput ip) ;;
          end_tx ;;
          mret 0
      end
  end.

(** The new inode, locked. *)
Definition create (path : list Z) (type major minor : Z) : M (@fstate S D) (option nat) :=
  d ← nameiparent devsw path;
  match d with
  | (None, _) => mret None
  | (Some dp, name) =>
      ilock (Some dp) ;;
      r ← dirlookup devsw dp name;
      match r with
      | Some (ip, _) =>
          iunlockput dp ;;
          ilock (Some ip) ;;
          t ← geti ip i_type;
          if (type =? T_FILE) && (t =? T_FILE) then mret (Some ip)
          else iunlockput ip ;; mret None
      | None =>
          dev ← geti dp i_dev;
          ip ← ialloc dev type;
          ilock (Some ip) ;;
          updi ip (λ p, set_inlink 1 (set_idev major minor p)) ;;
          iupdate ip ;;
          inum ← geti ip i_inum;
          when (type =? T_DIR) (
            updi dp (λ p, set_inlink (s16 (i_nlink p + 1)) p) ;;
            iupdate dp ;;
            r ← dirlink devsw ip DOT inum;
            pinum ← geti dp i_inum;
            r ← (if r <? 0 then mret (-1) else dirlink devsw ip DOTDOT pinum);
            if r <? 0 then panic "create dots" else mret tt) ;;
          r ← dirlink devsw dp name inum;
          if r <? 0 then panic "create: dirlink" else
          iunlockput dp ;;
          mret (Some ip)
      end
  end.

(** The first part of [sys_open]: the inode, locked. *)
Definition open_inode (path : list Z) (omode : Z) : M ystate (option nat) :=
  if negb (Z.land omode O_CREATE =? 0) then fs (create path T_FILE 0 0) else
  r ← fs (namei devsw path);
  match r with
  | None => mret None
  | Some ip =>
      fs (ilock (Some ip)) ;;
      t ← fs (geti ip i_type);
      if (t =? T_DIR) && negb (omode =? O_RDONLY) then fs (iunlockput ip) ;; mret None
      else mret (Some ip)
  end.
Definition sys_open : M ystate Z :=
  path ←? argstr 0; omode ←? argint 1;
  begin_tx ;;
  r ← open_inode path omode;
  match r with
  | None => fail_tx
  | Some ip =>
      r ← filealloc;
      match r with
      | None => fs (iunlockput ip) ;; fail_tx
      | Some f =>
          fd ← fdalloc f;
          if fd <? 0 then fileclose kend f ;; fs (iunlockput ip) ;; fail_tx else
          fs (iunlock (Some ip)) ;;
          end_tx ;;
          updf f (λ f, mkFile FD_INODE (fl_ref f) (Z.land omode O_WRONLY =? 0)
            (negb (Z.land omode O_WRONLY =? 0) || negb (Z.land omode O_RDWR =? 0)) (fl_pipe f) ip 0) ;;
          mret fd
      end
  end.

(** [if((ip = create(...)) == 0) ...], the end of [sys_mkdir] and [sys_mknod]. *)
Definition create_put (path : list Z) (type major minor : Z) : M ystate Z :=
  r ← fs (create path type major minor);
  match r with
  | None => fail_tx
  | Some ip => fs (iunlockput ip) ;; end_tx ;; mret 0
  end.
Definition sys_mkdir : M ystate Z :=
  begin_tx ;;
  path ← argstr 0;
  match path with
  | None => fail_tx
  | Some path => create_put path T_DIR 0 0
  end.
Definition sys_mknod : M ystate Z :=
  begin_tx ;;
  path ← argstr 0;
  match path with
  | None => fail_tx
  | Some path =>
      major ← argint 1;
      match major with
      | None => fail_tx
      | Some major =>
          minor ← argint 2;
          match minor with
          | None => fail_tx
          | Some minor => create_put path T_DEV (s16 major) (s16 minor)
          end
      end
  end.

Definition set_fcwd (ip : nat) : M (@fstate S D) unit :=
  modify (λ s, mkFs (f_st s) (f_sb s) (f_inode s) (f_dev s) (f_me s) ip).
Definition sys_chdir : M ystate Z :=
  begin_tx ;;
  path ← argstr 0;
  r ← match path with None => mret None | Some path => fs (namei devsw path) end;
  match r with
  | None => fail_tx
  | Some ip =>
      fs (ilock (Some ip)) ;;
      t ← fs (geti ip i_type);
      if negb (t =? T_DIR) then fs (iunlockput ip) ;; fail_tx else
      fs (iunlock (Some ip)) ;;
      cwd ← fs (gets f_cwd);
      fs (iput cwd) ;;
      end_tx ;;
      fs (set_fcwd ip) ;;
      mret 0
  end.

Definition sys_pipe : M ystate Z :=
  fd ←? argptr 0 8;
  fl ←? pipealloc kend;
  fd0 ← fdalloc fl.1;
  fd1 ← (if fd0 <? 0 then mret (-1) else fdalloc fl.2);
  if (fd0 <? 0) || (fd1 <? 0) then
    when (0 <=? fd0) (set_fd fd0 None) ;;
    fileclose kend fl.1 ;;
    fileclose kend fl.2 ;;
    mret (-1)
  else
    ustores fd (le32 fd0) ;;
    ustores (fd + 4) (le32 fd1) ;;
    mret 0.
End sysfile.
