(* ===== verification/Exec.v ===== *)
(** * Program loading (exec.c, and sys_exec of sysfile.c)

    [exec] builds a new address space beside the old one, from an ELF file and the
    argument strings, and switches to it only when nothing can fail any more. *)

From S2P Require Import Prelude Params Bytes KMemory Kalloc Vm Proc Pipe Bio Log Tx Fs File Syscall Sysfile.

(** ** elf.h *)

Definition ELF_MAGIC : Z := 0x464C457F.
Definition ELF_PROG_LOAD : Z := 1.
Definition ELFHDR_SIZE : Z := 52.
Definition PROGHDR_SIZE : Z := 32.

Record elfhdr := mkElf { elf_magic : Z; elf_entry : Z; elf_phoff : Z; elf_phnum : Z }.
Definition decode_elf (d : list Z) : elfhdr := mkElf (get32 d 0) (get32 d 24) (get32 d 28) (get16 d 44).
Record proghdr := mkPh { ph_type : Z; ph_off : Z; ph_vaddr : Z; ph_filesz : Z; ph_memsz : Z }.
Definition decode_ph (d : list Z) : proghdr :=
  mkPh (get32 d 0) (get32 d 4) (get32 d 8) (get32 d 16) (get32 d 20).

Section exec.
Context {S D : Type} `{!TxStore S}.
Context (kend kdata : Z) (devsw : Z → devops (@fstate S D)).
Abbreviation ystate := (@ystate S D).

(** [readi] into memory, for [loaduvm]. *)
Definition readi_to (ip : nat) (dst off n : Z) : M ystate Z :=
  r ← fs (readi devsw ip off n);
  km (store_bytes dst r.2) ;; mret r.1.

(** The loop over the program headers: the new size, or [None] for [goto bad]. *)
Fixpoint load_segments (ip : nat) (pgdir : Z) (k : nat) (off sz : Z) : M ystate (option Z) :=
  match k with
  | O => mret (Some sz)
  | Datatypes.S k =>
      r ← fs (readi devsw ip (u32 off) PROGHDR_SIZE);
      if negb (r.1 =? PROGHDR_SIZE) then mret None else
      let ph := decode_ph r.2 in
      if negb (ph_type ph =? ELF_PROG_LOAD) then load_segments ip pgdir k (s32 (off + PROGHDR_SIZE)) sz else
      if ph_memsz ph <? ph_filesz ph then mret None else
      if u32 (ph_vaddr ph + ph_memsz ph) <? ph_vaddr ph then mret None else
      sz ← km (allocuvm kend pgdir sz (u32 (ph_vaddr ph + ph_memsz ph)));
      if sz =? 0 then mret None else
      if negb (ph_vaddr ph mod PGSIZE =? 0) then mret None else
      r ← loaduvm (λ A, km) (readi_to ip) pgdir (ph_vaddr ph) (ph_off ph) (ph_filesz ph);
      if r <? 0 then mret None else
      load_segments ip pgdir k (s32 (off + PROGHDR_SIZE)) sz
  end.

(** The word at address 0 of the running program, which [uva2ka] can come to read. *)
Definition word0 (s : ystate) : Z :=
  match translate (k_mem (y_k s)) (y_pgdir s) 0 with
  | Some (pa, _) => ld32 (k_mem (y_k s)) (P2V pa)
  | None => 0
  end.
Definition copy_out (pgdir va : Z) (bs : list Z) : M ystate Z :=
  w ← gets word0; km (copyout w pgdir va bs).

(** The argument strings: the stack pointer and the strings' addresses. *)
Fixpoint push_args (pgdir sp argc : Z) (argv : list (list Z)) (ps : list Z) : M ystate (option (Z * list Z)) :=
  match argv with
  | [] => mret (Some (sp, ps))
  | a :: argv =>
      if MAXARG <=? argc then mret None else
      let sp := Z.land (u32 (sp - (Z.of_nat (length a) + 1))) (Z.lnot 3) in
      r ← copy_out pgdir sp (a ++ [0]);
      if r <? 0 then mret None else push_args pgdir sp (argc + 1) argv (ps ++ [sp])
  end.

Definition words (l : list Z) : list Z := l ≫= le32.
(** [ustack], and the stack pointer it is copied to. *)
Definition ustack (sp : Z) (ps : list Z) : list Z :=
  let argc := Z.of_nat (length ps) in
  [0xffffffff; argc; u32 (sp - (argc + 1) * 4)] ++ ps ++ [0].

(** What follows the last slash. *)
Fixpoint last_elem (s last : list Z) : list Z :=
  match s with
  | [] => last
  | c :: s => last_elem s (if c =? SLASH then s else last)
  end.

(** [bad:], before and after [ip] has been released. *)
Definition exec_bad (pgdir : Z) (ip : option nat) : M ystate Z :=
  when (negb (pgdir =? 0)) (km (freevm kend pgdir)) ;;
  match ip with
  | Some ip => fs (iunlockput ip) ;; end_tx
  | None => mret tt
  end ;;
  mret (-1).

(** The commit: the process's memory, registers and name change. *)
Definition exec_commit (path : list Z) (pgdir sz sp entry : Z) : M ystate Z :=
  oldpgdir ← gets y_pgdir;
  modify (λ s, mkY (y_fs s) (y_file s) (y_pipe s) (y_k s) (y_woken s) (y_killed s) (y_ofile s) sz pgdir sp entry
    (copy_name (y_name s) (last_elem path path))) ;;
  if pgdir =? 0 then panic "switchuvm: no pgdir" else
  km (freevm kend oldpgdir) ;;
  mret 0.

(** From the user stack on. *)
Definition exec_stack (path : list Z) (argv : list (list Z)) (pgdir sz entry : Z) : M ystate Z :=
  let sz := PGROUNDUP sz in
  sz ← km (allocuvm kend pgdir sz (u32 (sz + 2 * PGSIZE)));
  if sz =? 0 then exec_bad pgdir None else
  km (clearpteu pgdir (u32 (sz - 2 * PGSIZE))) ;;
  r ← push_args pgdir sz 0 argv [];
  match r with
  | None => exec_bad pgdir None
  | Some (sp, ps) =>
      let sp' := u32 (sp - (3 + Z.of_nat (length ps) + 1) * 4) in
      r ← copy_out pgdir sp' (words (ustack sp ps));
      if r <? 0 then exec_bad pgdir None else exec_commit path pgdir sz sp' entry
  end.

(** From the ELF header on, with the file locked. *)
Definition exec_file (path : list Z) (argv : list (list Z)) (ip : nat) : M ystate Z :=
  r ← fs (readi devsw ip 0 ELFHDR_SIZE);
  if negb (r.1 =? ELFHDR_SIZE) then exec_bad 0 (Some ip) else
  let elf := decode_elf r.2 in
  if negb (elf_magic elf =? ELF_MAGIC) then exec_bad 0 (Some ip) else
  pgdir ← km (setupkvm kend kdata);
  if pgdir =? 0 then exec_bad 0 (Some ip) else
  r ← load_segments ip pgdir (Z.to_nat (elf_phnum elf)) (s32 (elf_phoff elf)) 0;
  match r with
  | None => exec_bad pgdir (Some ip)
  | Some sz =>
      fs (iunlockput ip) ;;
      end_tx ;;
      exec_stack path argv pgdir sz (elf_entry elf)
  end.

Definition exec (path : list Z) (argv : list (list Z)) : M ystate Z :=
  begin_tx ;;
  r ← fs (namei devsw path);
  match r with
  | None => end_tx ;; mret (-1)
  | Some ip => fs (ilock (Some ip)) ;; exec_file path argv ip
  end.

(** ** sys_exec *)

(** The loop over [uargv]. *)
Fixpoint fetch_argv (k : nat) (uargv : Z) (acc : list (list Z)) : M ystate (option (list (list Z))) :=
  match k with
  | O => mret None
  | Datatypes.S k =>
      x ← fetchint (u32 (uargv + 4 * Z.of_nat (length acc)));
      match x with
      | None => mret None
      | Some x =>
          if u32 x =? 0 then mret (Some acc) else
          a ← fetchstr (u32 x);
          match a with
          | None => mret None
          | Some a => fetch_argv k uargv (acc ++ [a])
          end
      end
  end.
Definition sys_exec : M ystate Z :=
  path ←? argstr 0; uargv ←? argint 1;
  argv ←? fetch_argv (Z.to_nat MAXARG) (u32 uargv) [];
  exec path argv.
End exec.
