(* ===== verification/ExecSpec.v ===== *)
(** * The image that [exec] makes (exec.c)

    The user stack of a new program: where the argument strings, the array of pointers to
    them and the arguments of [main] lie, and the page below the stack that the program
    cannot touch. *)

From S2P Require Import Prelude Params Bytes KMemory Kalloc Vm VmCopy VmUser Proc Pipe Bio Log Tx Fs File Syscall Sysfile Exec.

(** ** The layout *)

(** The addresses of the strings, pushed from [sp] down, each at a multiple of 4. *)
Definition below (sp : Z) (a : list Z) : Z := (sp - (Z.of_nat (length a) + 1)) / 4 * 4.
Fixpoint arg_ptrs (sp : Z) (argv : list (list Z)) : list Z :=
  match argv with
  | [] => []
  | a :: argv => below sp a :: arg_ptrs (below sp a) argv
  end.
Fixpoint arg_sp (sp : Z) (argv : list (list Z)) : Z :=
  match argv with
  | [] => sp
  | a :: argv => arg_sp (below sp a) argv
  end.
(** Where the program's stack pointer starts. *)
Definition stack_start (top : Z) (argv : list (list Z)) : Z := arg_sp top argv - 4 * (Z.of_nat (length argv) + 4).

(** The program reads the string [a] at [p], and the word [w] at [p]. *)
Definition string_at (m : mem) (tabs : gmap Z Z) (p : Z) (a : list Z) : Prop :=
  ∀ k, 0 ≤ k ≤ Z.of_nat (length a) → ubyte m tabs (p + k) = (a ++ [0]) !!! Z.to_nat k.
Definition uword (m : mem) (tabs : gmap Z Z) (p : Z) : Z :=
  ubyte m tabs p + 256 * ubyte m tabs (p + 1) + 65536 * ubyte m tabs (p + 2) + 16777216 * ubyte m tabs (p + 3).

(** A string that [fetchstr] can return, and not as long as half of the device space. *)
Definition arg_ok (a : list Z) : Prop := Z.of_nat (length a) < 0x1000000 ∧ Forall (λ b, 0 ≤ b < 256) a.

Lemma below_range sp a : sp - Z.of_nat (length a) - 4 ≤ below sp a < sp ∧ below sp a mod 4 = 0 ∧ below sp a + Z.of_nat (length a) + 1 ≤ sp.
Proof. rw /below. dlia. Qed.
Lemma arg_sp_le argv : ∀ sp, arg_sp sp argv ≤ sp.
Proof. induction argv as [|a argv IH]; intros sp; cbn [arg_sp]; [lia|]. pose proof (IH (below sp a)). pose proof (below_range sp a). lia. Qed.
Lemma arg_sp_mod argv : ∀ sp, sp mod 4 = 0 → arg_sp sp argv mod 4 = 0.
Proof. induction argv as [|a argv IH]; intros sp Hs; cbn [arg_sp]; [done|]. apply IH, below_range. Qed.
Lemma arg_ptrs_length argv : ∀ sp, length (arg_ptrs sp argv) = length argv.
Proof. induction argv as [|a argv IH]; intros sp; cbn; [done|]. by rw IH. Qed.
(** Every string lies between the last one's address and [sp]. *)
Lemma arg_ptrs_range argv : ∀ sp i a p, argv !! i = Some a → arg_ptrs sp argv !! i = Some p →
  arg_sp sp argv ≤ p ∧ p + Z.of_nat (length a) + 1 ≤ sp.
Proof.
  induction argv as [|b argv IH]; intros sp i a p Ha Hp; [done|]. cbn [arg_sp arg_ptrs] in *. destruct i as [|i].
  - injection Ha as ->. injection Hp as <-. pose proof (arg_sp_le argv (below sp a)). pose proof (below_range sp a). lia.
  - destruct (IH (below sp b) i a p Ha Hp). pose proof (below_range sp b). lia.
Qed.

(** [exec]'s arithmetic on the stack pointer. *)
Lemma push_sp sp a : 0 ≤ sp < KERNBASE → Z.of_nat (length a) < 0x1000000 →
  Z.land (u32 (sp - (Z.of_nat (length a) + 1))) (Z.lnot 3) = if decide (0 ≤ below sp a) then below sp a else below sp a + 4294967296.
Proof.
  intros Hsp Hl. rw (land_lnot_ones _ 2) // /below. rw /KERNBASE in Hsp. change (2 ^ 2) with 4. case_decide.
  - rw u32_small; dlia.
  - replace (u32 (sp - (Z.of_nat (length a) + 1))) with (sp - (Z.of_nat (length a) + 1) + 4294967296); [dlia|]. rw /u32. dlia.
Qed.

Section image.
Context {S D : Type} `{!TxStore S}.
Context (kend kdata : Z).
Hypothesis kend_range : KERNLINK ≤ kend ≤ KERNBASE + PHYSTOP.
Abbreviation ystate := (@ystate S D).
Abbreviation private := (VmCopy.private kend).
Implicit Types (y : ystate).

Lemma km_Ok {A} (m : M kstate A) y a k : m (y_k y) = Ok (a, k) → km m y = Ok (a, set_yk k y).
Proof. intros E. by rw /km /lift E. Qed.

Lemma set_same y : set_yk (set_mem (k_mem (y_k y)) (y_k y)) y = y.
Proof. by destruct y as [? ? ? [] ]. Qed.

(** The new image while the arguments are pushed: all pages below [top] are mapped, the
    user's except for the last but one. *)
Definition guard (top a : Z) : bool := (top - 8192 <=? a) && (a <? top - 4096).
Record image (m0 : mem) (f0 : list Z) y free d tabs top : Prop := {
  im_private : private m0 f0 [] (y_k y) free d tabs;
  im_kernel : kernel_mapped (k_mem (y_k y)) tabs (kmap kdata);
  im_pages a : 0 ≤ a < top → present (pte_at (k_mem (y_k y)) tabs (vpn a)) = true ∧ user_bit (pte_at (k_mem (y_k y)) tabs (vpn a)) = negb (guard top a);
}.

Lemma image_mem m0 f0 y m' free d tabs top : image m0 f0 y free d tabs top → top < KERNBASE → private m0 f0 [] (set_mem m' (y_k y)) free d tabs →
  (∀ v, 0 ≤ v < vpages → pte_at m' tabs v = pte_at (k_mem (y_k y)) tabs v) →
  image m0 f0 (set_yk (set_mem m' (y_k y)) y) free d tabs top.
Proof.
  intros [HP HK Hp] Ht HP' P. split; [done| |].
  - intros virt ps pe perm k Hin Hk. cbn [k_mem set_mem y_k set_yk]. destruct (decide (0 ≤ vpn virt + k < vpages)) as [Hr|Hr]; [by rw P //; apply (HK virt ps pe perm k)|].
    rw -(HK virt ps pe perm k Hin Hk) /pte_at. assert (tabs !! ((vpn virt + k) / 1024) = None) as -> ; [|done].
    destruct (tabs !! _) as [t|] eqn:Et; [|done]. destruct (pd_tab _ _ _ _ _ (proj1 (pv_inv _ _ _ _ _ _ _ _ HP)) _ _ Et) as [? _]. rw /vpages in Hr. dlia.
  - intros a Ha. cbn [k_mem set_mem y_k set_yk]. rw P; [|by apply Hp]. rw /KERNBASE in Ht. rw /vpn /vpages. dlia.
Qed.

Lemma copy_out_ok m0 f0 y free d tabs top va bs : image m0 f0 y free d tabs top → top < KERNBASE → 0 ≤ va → va + Z.of_nat (length bs) ≤ top →
  Forall (λ b, 0 ≤ b < 256) bs →
  ∃ r m', copy_out d va bs y = Ok (r, set_yk (set_mem m' (y_k y)) y) ∧ image m0 f0 (set_yk (set_mem m' (y_k y)) y) free d tabs top ∧
    (∀ v, 0 ≤ v < vpages → pte_at m' tabs v = pte_at (k_mem (y_k y)) tabs v) ∧
    (r = 0 ∧ written (k_mem (y_k y)) m' tabs va bs ∧ (∀ a, va ≤ a < va + Z.of_nat (length bs) → guard top a = false) ∨
     r = -1 ∧ ∃ a, va ≤ a < va + Z.of_nat (length bs) ∧ guard top a = true).
Proof.
  intros HI Ht Hva Hl Hb. destruct (copyout_loop_ok kend kend_range (word0 y) (Datatypes.S (page_rounds 0 (Z.of_nat (length bs)))) m0 f0 (y_k y) free d tabs va bs (im_private _ _ _ _ _ _ _ HI) Hva) as (r & m' & E & HP & P & H); [lia|done| |intros a Ha; apply (im_pages _ _ _ _ _ _ _ HI); lia|].
  { rw /page_rounds /PGSIZE Z.sub_0_r !Nat2Z.inj_succ Z2Nat.id; dlia. }
  exists r, m'. split; [rw /copy_out; mget; by apply km_Ok|]. split; [by eapply image_mem|]. split; [done|].
  destruct H as [(-> & W & U)|(-> & a & Ha & U)]; [left|right]; (split; [done|]).
  - split; [done|]. intros a Ha. specialize (U a Ha). destruct (im_pages _ _ _ _ _ _ _ HI a) as [_ E']; [lia|]. rw E' in U. by destruct (guard top a).
  - exists a. split; [done|]. destruct (im_pages _ _ _ _ _ _ _ HI a) as [_ E']; [lia|]. rw E' in U. by destruct (guard top a).
Qed.

(** The strings from [sp] down are in place. *)
Definition strings_at (m : mem) (tabs : gmap Z Z) (sp : Z) (argv : list (list Z)) : Prop :=
  ∀ i a p, argv !! i = Some a → arg_ptrs sp argv !! i = Some p → string_at m tabs p a.
(** User memory below [top] is as it was, but for the addresses from [lo] to [hi]. *)
Definition kept (m m' : mem) (tabs : gmap Z Z) (top lo hi : Z) : Prop :=
  ∀ a, 0 ≤ a < top → ¬ (lo ≤ a < hi) → ubyte m' tabs a = ubyte m tabs a.

Lemma push_args_ok m0 f0 d top argv : 8192 ≤ top < KERNBASE → Forall arg_ok argv →
  ∀ y free tabs sp argc ps, image m0 f0 y free d tabs top → top - 4096 ≤ sp ≤ top → 0 ≤ argc ≤ MAXARG →
  ∃ res m', push_args d sp argc argv ps y = Ok (res, set_yk (set_mem m' (y_k y)) y) ∧ image m0 f0 (set_yk (set_mem m' (y_k y)) y) free d tabs top ∧
    match res with
    | Some (sp', ps') => sp' = arg_sp sp argv ∧ ps' = ps ++ arg_ptrs sp argv ∧ top - 4096 ≤ sp' ∧ argc + Z.of_nat (length argv) ≤ MAXARG ∧
        strings_at m' tabs sp argv ∧ kept (k_mem (y_k y)) m' tabs top sp' sp
    | None => MAXARG < argc + Z.of_nat (length argv) ∨ arg_sp sp argv < top - 4096
    end.
Proof.
  intros Ht. induction argv as [|a argv IH]; intros Hargs y free tabs sp argc ps HI Hsp Hc; cbn [push_args arg_sp arg_ptrs].
  { exists (Some (sp, ps)), (k_mem (y_k y)). rw set_same. split; [done|]. split; [done|].
    split; [done|]. split; [by rw app_nil_r|]. split; [lia|]. split; [cbn [length]; lia|]. done. }
  apply Forall_cons in Hargs as [ [Hal Hab] Hargs]. assert (∀ n, Z.of_nat (Datatypes.S n) = Z.of_nat n + 1) as HS by lia. rw length_cons HS.
  destruct (Z.leb_spec MAXARG argc) as [Hm|Hm].
  { exists None, (k_mem (y_k y)). rw set_same. split; [done|]. split; [done|]. left. lia. }
  rw push_sp; [lia|done|]. set (sp1 := below sp a). destruct (below_range sp a) as (Hb1 & Hb2 & Hb3). fold sp1 in Hb1, Hb2, Hb3. pose proof (arg_sp_le argv sp1) as Hle.
  assert (Forall (λ b, 0 ≤ b < 256) (a ++ [0])) as Hbytes by (apply Forall_app; split; [done|by apply Forall_singleton]).
  assert (Z.of_nat (length (a ++ [0])) = Z.of_nat (length a) + 1) as Hlen by (rw length_app; cbn [length]; lia).
  destruct (decide (0 ≤ sp1)) as [Hpos|Hneg].
  2: { assert (copy_out d (sp1 + 4294967296) (a ++ [0]) y = Ok (-1, y)) as E.
    { rw /copy_out. mget. rw (km_Ok _ y (-1) (y_k y)); [|by destruct y]. eapply copyout_kernel; [exact kend_range|exact (pv_inv _ _ _ _ _ _ _ _ (im_private _ _ _ _ _ _ _ HI))|apply HI|rw /DEVSPACE; lia|by destruct a]. }
    mgo E. exists None, (k_mem (y_k y)). rw set_same. split; [done|]. split; [done|]. right. lia. }
  destruct (copy_out_ok m0 f0 y free d tabs top sp1 (a ++ [0]) HI) as (r & m1 & E & HI1 & _ & H); [lia|lia|lia|done|]. mgo E. rw Hlen in H.
  destruct H as [(-> & W & G)|(-> & x & Hx & Gx)]; cbn [Z.ltb Z.compare].
  2: { exists None, m1. split; [done|]. split; [done|]. right. rw /guard in Gx. lia. }
  assert (top - 4096 ≤ sp1) as Hfit.
  { destruct (decide (top - 4096 ≤ sp1)); [done|]. specialize (G (Z.min (sp1 + Z.of_nat (length a)) (top - 4097)) ltac:(lia)). rw /guard in G. lia. }
  destruct (IH Hargs (set_yk (set_mem m1 (y_k y)) y) free tabs sp1 (argc + 1) (ps ++ [sp1]) HI1) as (res & m2 & E2 & HI2 & H2); [lia|lia|].
  exists res, m2. split; [exact E2|]. split; [exact HI2|]. destruct res as [ [sp2 ps2]|]; [|destruct H2; [left; lia|by right] ].
  destruct H2 as (-> & -> & Hf2 & Hc2 & Hs2 & Hk2). cbn [k_mem set_mem y_k set_yk] in Hk2. split; [done|]. split; [by rw -app_assoc|]. split; [done|]. split; [lia|]. split.
  - intros i b p Hb Hp. destruct i as [|i]; [|by apply (Hs2 i)]. injection Hb as <-. injection Hp as <-. intros k Hk.
    rw Hk2; [lia|lia|]. rw W; [lia|by apply (im_pages _ _ _ _ _ _ _ HI); lia|]. rw Hlen. rewrite -> decide_True by lia. f_equal. lia.
  - intros x Hx Hn. rw Hk2; [done|lia|]. rw W; [lia|by apply (im_pages _ _ _ _ _ _ _ HI); lia|]. rw Hlen. by rewrite -> decide_False by lia.
Qed.

(** ** The words of the stack *)

Lemma words_length l : length (words l) = (4 * length l)%nat.
Proof. induction l as [|w l IH]; [done|]. rw /words bind_cons length_app -/(words l) IH. cbn [le32 length]. lia. Qed.
Lemma words_lookup l : ∀ i j, (i < length l)%nat → (j < 4)%nat → words l !!! (4 * i + j)%nat = le32 (l !!! i) !!! j.
Proof.
  induction l as [|w l IH]; intros i j Hi Hj; [cbn [length] in Hi; lia|]. rw /words bind_cons -/(words l). destruct i as [|i].
  - rw lookup_total_app_l; [cbn [le32 length]; lia|]. by rw Nat.mul_0_r.
  - rw lookup_total_app_r; [cbn [le32 length]; lia|]. cbn [length] in Hi. replace (4 * Datatypes.S i + j - length (le32 w))%nat with (4 * i + j)%nat by (cbn [le32 length]; lia). apply IH; lia.
Qed.
Lemma words_bytes l : Forall (λ b, 0 ≤ b < 256) (words l).
Proof. induction l as [|w l IH]; [constructor|]. rw /words bind_cons -/(words l). apply Forall_app. split; [|done]. repeat constructor; apply u8_range. Qed.
Lemma words_read m m' tabs va l i w : written m m' tabs va (words l) → 0 ≤ va → va + 4 * Z.of_nat (length l) ≤ KERNBASE →
  (∀ a, va ≤ a < va + 4 * Z.of_nat (length l) → present (pte_at m tabs (vpn a)) = true) →
  l !! i = Some w → 0 ≤ w < 4294967296 → uword m' tabs (va + 4 * Z.of_nat i) = w.
Proof.
  intros W Hva Hl Hp Hi Hw. pose proof (lookup_lt_Some _ _ _ Hi) as Hlt.
  assert (∀ j, 0 ≤ j < 4 → ubyte m' tabs (va + 4 * Z.of_nat i + j) = le32 w !!! Z.to_nat j) as Hb.
  { intros j Hj. rw W; [lia|apply Hp; lia|]. rw words_length. rewrite -> decide_True by lia.
    replace (Z.to_nat (va + 4 * Z.of_nat i + j - va)) with (4 * i + Z.to_nat j)%nat by lia. rw words_lookup; [done|lia|]. by rewrite -> (list_lookup_total_correct _ _ _ Hi). }
  pose proof (Hb 0 ltac:(lia)) as H0. rw Z.add_0_r in H0. rw /uword H0 !Hb; [lia..|]. change (u8 w + 256 * u8 (w / 256) + 65536 * u8 (w / 65536) + 16777216 * u8 (w / 16777216) = w). rw /u8. clear -Hw. dlia.
Qed.

(** What [main] finds: a return address that faults, [argc], [argv], and the array of
    pointers with a null pointer at its end, below the strings. *)
Record starts (m : mem) (tabs : gmap Z Z) (top : Z) (argv : list (list Z)) : Prop := {
  st_return : uword m tabs (stack_start top argv) = 0xffffffff;
  st_argc : uword m tabs (stack_start top argv + 4) = Z.of_nat (length argv);
  st_argv : uword m tabs (stack_start top argv + 8) = stack_start top argv + 12;
  st_ptrs i p : arg_ptrs top argv !! i = Some p → uword m tabs (stack_start top argv + 12 + 4 * Z.of_nat i) = p;
  st_null : uword m tabs (stack_start top argv + 12 + 4 * Z.of_nat (length argv)) = 0;
  st_strings : strings_at m tabs top argv;
}.

Lemma starts_ok m1 m2 tabs top argv : 8192 ≤ top < KERNBASE → top - 4096 ≤ stack_start top argv → Z.of_nat (length argv) ≤ MAXARG →
  (∀ a, 0 ≤ a < top → present (pte_at m1 tabs (vpn a)) = true) → strings_at m1 tabs top argv →
  written m1 m2 tabs (stack_start top argv) (words (ustack (arg_sp top argv) (arg_ptrs top argv))) → starts m2 tabs top argv.
Proof.
  intros Ht Hf Hc Hp Hs W. set (ps := arg_ptrs top argv) in *. set (n := Z.of_nat (length argv)) in *. set (sp0 := stack_start top argv) in *.
  assert (length ps = length argv) as Hps by apply arg_ptrs_length. pose proof (arg_sp_le argv top) as Hle. assert (arg_sp top argv = sp0 + 4 * (n + 4)) as Esp by (rw /sp0 /stack_start; lia).
  set (us := ustack (arg_sp top argv) ps) in W. assert (Z.of_nat (length us) = n + 4) as Hus by (rw /us /ustack !length_app Hps; cbn [length]; lia).
  rw /MAXARG in Hc. assert (0 ≤ n) as Hn by lia.
  assert (∀ i w, us !! i = Some w → 0 ≤ w < 4294967296 → uword m2 tabs (sp0 + 4 * Z.of_nat i) = w) as Hr.
  { intros i w Hi Hw. rw /KERNBASE in Ht. eapply words_read; [exact W|lia|rw Hus /KERNBASE; lia|intros a Ha; apply Hp; rw Hus in Ha; lia|done|done]. }
  rw /KERNBASE in Ht. assert (us !! 2%nat = Some (sp0 + 12)) as H2. { change (us !! 2%nat) with (Some (u32 (arg_sp top argv - (Z.of_nat (length ps) + 1) * 4))). f_equal. rw Hps -/n u32_small; lia. }
  assert (us !! 0%nat = Some 0xffffffff) as H0 by reflexivity. assert (us !! 1%nat = Some n) as H1 by (rw /n -Hps; reflexivity).
  assert (∀ i p, ps !! i = Some p → us !! (3 + i)%nat = Some p) as H3 by (intros i p Hi; change ((ps ++ [0]) !! i = Some p); by apply lookup_app_l_Some).
  assert (us !! (3 + length ps)%nat = Some 0) as H4 by (change ((ps ++ [0]) !! length ps = Some 0); by apply list_lookup_middle).
  clearbody us. split.
  - rw -(Hr 0%nat _ H0); [lia|]. by rw Z.add_0_r.
  - apply (Hr 1%nat _ H1). lia.
  - apply (Hr 2%nat _ H2). lia.
  - intros i p Hi. fold ps in Hi. assert (∃ a, argv !! i = Some a) as [a Ha]. { apply lookup_lt_is_Some. rw -Hps. by eapply lookup_lt_Some. }
    destruct (arg_ptrs_range argv top i a p Ha Hi). fold sp0. replace (sp0 + 12 + 4 * Z.of_nat i) with (sp0 + 4 * Z.of_nat (3 + i)) by lia. apply (Hr _ _ (H3 i p Hi)). lia.
  - fold sp0 n. replace (sp0 + 12 + 4 * n) with (sp0 + 4 * Z.of_nat (3 + length ps)) by lia. apply (Hr _ _ H4). lia.
  - intros i a p Ha Hi k Hk. destruct (arg_ptrs_range argv top i a p Ha Hi) as [Hp1 Hp2]. rw W; [rw /KERNBASE; lia|apply Hp; lia|].
    rw words_length. rewrite -> decide_False by lia. by apply (Hs i a p).
Qed.

(** ** The stack of a new program *)

Hypothesis kdata_range : KERNLINK < kdata < KERNBASE + PHYSTOP ∧ aligned kdata.

(** A loaded program: its pages, and nothing above them. *)
Record program (m0 : mem) (f0 : list Z) (k : kstate) free d tabs base : Prop := {
  pg_private : private m0 f0 [] k free d tabs;
  pg_kernel : kernel_mapped (k_mem k) tabs (kmap kdata);
  pg_user a : 0 ≤ a < base → present (pte_at (k_mem k) tabs (vpn a)) = true ∧ user_bit (pte_at (k_mem k) tabs (vpn a)) = true;
  pg_end v : base / 4096 ≤ v < user_pages → present (pte_at (k_mem k) tabs v) = false;
}.

Lemma user_page f : Kalloc.page_ok kend f → present (V2P f + 7) = true ∧ user_bit (V2P f + 7) = true.
Proof.
  intros Hf. split; [by apply (present_new _ kend_range)|]. destruct (V2P_page _ kend_range f Hf) as (_ & Hm & _). rw /user_bit /PTE_U land4.
  by replace ((V2P f + 7) / 4 mod 2) with 1 by dlia.
Qed.

(** The two pages above the program, the lower one taken from the user. *)
Lemma stack_pages m0 f0 y free d tabs base : program m0 f0 (y_k y) free d tabs base → 0 ≤ base → aligned base → base + 8192 < KERNBASE →
  ∃ r k1 free1 tabs1, allocuvm kend d base (base + 8192) (y_k y) = Ok (r, k1) ∧
    (r = 0 ∧ private m0 f0 [] k1 free1 d tabs1 ∧ Z.of_nat (length free) < 4 ∨
     r = base + 8192 ∧ ∃ k2, clearpteu d base k1 = Ok (tt, k2) ∧ image m0 f0 (set_yk k2 y) free1 d tabs1 (base + 8192) ∧
       ∀ a, 0 ≤ a < base → ubyte (k_mem k2) tabs1 a = ubyte (k_mem (y_k y)) tabs a).
Proof.
  intros [HP HK Hu He] Hb Hal Ht. assert (PGROUNDUP base = base) as Eb. { rw /aligned /PGSIZE in Hal. destruct (PGROUNDUP_ok base) as (-> & _ & _); [lia|]. dlia. }
  rw /KERNBASE in Ht. assert (∀ v, page_range base (base + 8192) v = true ↔ base / 4096 ≤ v < base / 4096 + 2) as Hpr.
  { rw /aligned /PGSIZE in Hal. intros v. rw /page_range /vpn. split; dlia. }
  destruct (private_allocuvm kend kend_range m0 f0 (y_k y) free d tabs base (base + 8192) HP) as (r & k1 & f1 & t1 & E & HP1 & H); [lia|rw /KERNBASE; lia| |].
  { rw Eb. intros v Hv%Hpr. apply He. rw /user_pages. dlia. }
  exists r, k1, f1, t1. split; [done|]. rw Eb in H. destruct H as [ [-> G]|[-> Hl] ]; [right|left; split; [done|]; split; [done|]; rw /pages_between in Hl; dlia]. split; [done|].
  assert (∀ a, base ≤ a < base + 8192 → ∃ f, Kalloc.page_ok kend f ∧ pte_at (k_mem k1) t1 (vpn a) = V2P f + 7) as Hnew.
  { intros a Ha. destruct (gr_new _ _ _ _ _ _ _ _ _ _ G (vpn a)) as (f & _ & Hf & Ef & _); [apply Hpr; rw /aligned /PGSIZE in Hal; rw /vpn; dlia|]. by exists f. }
  assert (∀ a, base ≤ a < base + 8192 → present (pte_at (k_mem k1) t1 (vpn a)) = true ∧ user_bit (pte_at (k_mem k1) t1 (vpn a)) = true) as Hnew'.
  { intros a Ha. destruct (Hnew a Ha) as (f & Hf & ->). by apply user_page. }
  assert (∀ a, 0 ≤ a < base → page_range base (base + 8192) (vpn a) = false) as Hout.
  { intros a Ha. destruct (page_range _ _ _) eqn:E'; [|done]. apply Hpr in E'. rw /aligned /PGSIZE in Hal. rw /vpn in E'. dlia. }
  assert (∀ a, 0 ≤ a < base → pte_at (k_mem k1) t1 (vpn a) = pte_at (k_mem (y_k y)) tabs (vpn a)) as Hold.
  { intros a Ha. apply (gr_keep _ _ _ _ _ _ _ _ _ _ G); [rw /vpn /vpages; dlia|by apply Hout]. }
  destruct (clearpteu_ok kend kend_range m0 f0 k1 f1 d t1 base HP1) as (k2 & E2 & HP2 & P2 & U2); [rw /KERNBASE; lia|by apply Hnew'; lia|].
  assert (∀ a, 0 ≤ a < base + 8192 → present (pte_at (k_mem k1) t1 (vpn a)) = true ∧ user_bit (pte_at (k_mem k1) t1 (vpn a)) = true) as Hall.
  { intros a Ha. destruct (decide (a < base)); [rw Hold; [lia|]; apply Hu; lia|apply Hnew'; lia]. }
  assert (∀ a, 0 ≤ a < base + 8192 → 0 ≤ vpn a < vpages) as Hvp by (intros a Ha; rw /vpn /vpages; dlia).
  exists k2. split; [done|]. split; [split; [done| |]|].
  - eapply kernel_mapped_ext; [by apply kmap_ascending| |exact HK]. intros v Hv. cbn [y_k set_yk]. rw /user_pages in Hv. rw P2; [lia|]. rewrite -> decide_False by (rw /vpn; dlia).
    apply (gr_keep _ _ _ _ _ _ _ _ _ _ G); [lia|]. destruct (page_range _ _ _) eqn:E'; [|done]. apply Hpr in E'. dlia.
  - intros a Ha. cbn [y_k set_yk]. rw P2; [by apply Hvp|]. destruct (Hall a Ha) as [Hp Hub]. case_decide as Ev.
    + destruct (same_frame_U (pte_at (k_mem k1) t1 (vpn base))) as ((Hpf & _) & _ & ->).
      { destruct (Hnew base) as (f & Hf & ->); [lia|]. destruct (V2P_page _ kend_range f Hf) as (_ & _ & Hr). rw /PHYSTOP in Hr. lia. }
      rw Hpf -Ev Hp. split; [done|]. rw /guard. rw /aligned /PGSIZE in Hal. rw /vpn in Ev. assert (base ≤ a < base + 4096) by dlia. lia.
    + split; [done|]. rw Hub /guard. rw /aligned /PGSIZE in Hal. rw /vpn in Ev. assert (¬ base ≤ a < base + 4096) by dlia. lia.
  - intros a Ha. rw U2; [rw /KERNBASE; lia|by apply Hall; lia|]. destruct (grown_ubyte kend kend_range _ _ _ _ _ _ _ _ _ a (pv_inv _ _ _ _ _ _ _ _ HP) G) as [_ Hk]; [rw /KERNBASE; lia|].
    apply Hk; [by apply Hout|]. by apply Hu.
Qed.

Lemma exec_bad_ok m0 f0 y free d tabs : private m0 f0 [] (y_k y) free d tabs →
  ∃ k', exec_bad kend d None y = Ok (-1, set_yk k' y) ∧ gave_back kend m0 f0 k'.
Proof.
  intros HP. destruct (private_freevm kend kend_range _ _ _ _ _ _ HP) as (k' & E & G). exists k'. split; [|done].
  destruct (page_ok_range _ kend_range d) as (_ & _ & Hd); [apply (pv_inv _ _ _ _ _ _ _ _ HP)|]. rw /exec_bad. destruct (Z.eqb_spec d 0); [done|]. cbn [negb when]. by mgo (km_Ok _ y _ _ E).
Qed.

(** The process after the commit. *)
Definition committed (path : list Z) (d top sp entry : Z) (k : kstate) y : ystate :=
  mkY (y_fs y) (y_file y) (y_pipe y) k (y_woken y) (y_killed y) (y_ofile y) top d sp entry (copy_name (y_name y) (last_elem path path)).

(** The new program runs on the new directory; the old one is free. *)
Lemma exec_commit_ok s0 f0 y k free d tabs otabs path top sp entry : private (k_mem s0) f0 [] k free d tabs → vm_inv kend s0 f0 (y_pgdir y) otabs →
  ∃ k' free', exec_commit kend path d top sp entry (set_yk k y) = Ok (0, committed path d top sp entry k' y) ∧ vm_inv kend k' free' d tabs ∧
    (∀ p, p ∈ free' ↔ p ∈ free ∨ p = y_pgdir y ∨ owned s0 [] otabs p) ∧
    (∀ v, 0 ≤ v < vpages → pte_at (k_mem k') tabs v = pte_at (k_mem k) tabs v) ∧
    ∀ a, 0 ≤ a < KERNBASE → present (pte_at (k_mem k) tabs (vpn a)) = true → ubyte (k_mem k') tabs a = ubyte (k_mem k) tabs a.
Proof.
  intros HP HO. destruct (free_old kend kend_range s0 f0 k free d tabs (y_pgdir y) otabs HP HO) as (k' & f' & E & H). exists k', f'. split; [|done].
  destruct (page_ok_range _ kend_range d) as (_ & _ & Hd); [apply (pv_inv _ _ _ _ _ _ _ _ HP)|]. rw /exec_commit. mrun. destruct (Z.eqb_spec d 0); [done|].
  match goal with |- context [km _ ?x] => change x with (committed path d top sp entry k y) end. by rw (km_Ok _ (committed path d top sp entry k y) _ _ E).
Qed.

(** The second half of [exec] gives the new program its arguments.  A program that is
    loaded into a directory of its own, beside the old one, gets two pages above it, of
    which it cannot touch the lower.  When memory is short, there are more than [MAXARG]
    strings, or the strings and the array do not fit into the page, the call fails with all
    it took given back and the old image untouched.  Otherwise the process has the new
    directory, size, name and entry point; its stack pointer is at a return address that
    faults, followed by [argc] and [argv]; [argv] points to the array of pointers, with a
    null pointer at its end, and these to the argument strings; the program's own memory is
    as it was loaded; and the pages of the old image are free. *)
Lemma exec_stack_ok s0 f0 y free d tabs otabs path argv sz entry : vm_inv kend s0 f0 (y_pgdir y) otabs →
  program (k_mem s0) f0 (y_k y) free d tabs (PGROUNDUP sz) → 0 ≤ sz ≤ KERNBASE → PGROUNDUP sz + 8192 < KERNBASE → Forall arg_ok argv →
  let top := PGROUNDUP sz + 8192 in
  ∃ r y', exec_stack kend path argv d sz entry y = Ok (r, y') ∧
    (r = -1 ∧ y' = set_yk (y_k y') y ∧ gave_back kend (k_mem s0) f0 (y_k y') ∧
       (Z.of_nat (length free) < 4 ∨ MAXARG < Z.of_nat (length argv) ∨ stack_start top argv < top - 4096) ∨
     r = 0 ∧ Z.of_nat (length argv) ≤ MAXARG ∧ top - 4096 ≤ stack_start top argv ∧
       y' = committed path d top (stack_start top argv) entry (y_k y') y ∧ ∃ free' tabs', vm_inv kend (y_k y') free' d tabs' ∧
       (∀ p, p ∈ f0 ∨ p = y_pgdir y ∨ owned s0 [] otabs p ↔ p = d ∨ owned (y_k y') free' tabs' p) ∧
       (∀ a, 0 ≤ a < top → present (pte_at (k_mem (y_k y')) tabs' (vpn a)) = true ∧ user_bit (pte_at (k_mem (y_k y')) tabs' (vpn a)) = negb (guard top a)) ∧
       (∀ a, 0 ≤ a < PGROUNDUP sz → ubyte (k_mem (y_k y')) tabs' a = ubyte (k_mem (y_k y)) tabs a) ∧
       starts (k_mem (y_k y')) tabs' top argv).
Proof.
  intros HO HPg Hsz Ht Hargs top. destruct (PGROUNDUP_ok sz) as (_ & Hal & Hb); [lia|]. set (base := PGROUNDUP sz) in *. rw /KERNBASE in Ht.
  destruct (stack_pages _ _ y free d tabs base HPg) as (r & k1 & f1 & t1 & E1 & H1); [lia|done|rw /KERNBASE; lia|]. rw /exec_stack -/base.
  rw (u32_small (base + _)); [rw /PGSIZE; lia|]. replace (base + 2 * PGSIZE) with top by (rw /top /PGSIZE; lia). mgo (km_Ok _ y _ _ E1).
  destruct H1 as [(-> & HP1 & Hl)|(-> & k2 & E2 & HI & U2)]; cbn [Z.eqb].
  { destruct (exec_bad_ok _ _ (set_yk k1 y) f1 d t1 HP1) as (k' & E & G). exists (-1), (set_yk k' y). split; [exact E|]. left. split; [done|]. split; [done|]. split; [done|]. by left. }
  fold top in HI |- *. destruct (Z.eqb_spec top 0); [lia|]. replace (u32 (top - 2 * PGSIZE)) with base by (rw /PGSIZE u32_small; lia). mgo (km_Ok _ (set_yk k1 y) _ _ E2).
  destruct (push_args_ok _ _ d top argv ltac:(rw /KERNBASE; lia) Hargs (set_yk k2 y) f1 t1 top 0 [] HI) as (res & m3 & E3 & HI3 & H3); [lia|done|]. cbn [app] in H3. mgo E3. cbn [y_k set_yk] in HI3, H3. set (k3 := set_mem m3 k2) in *.
  destruct res as [ [sp ps]|].
  2: { destruct (exec_bad_ok _ _ (set_yk k3 y) f1 d t1 (im_private _ _ _ _ _ _ _ HI3)) as (k' & E & G). exists (-1), (set_yk k' y). split; [exact E|]. left. split; [done|]. split; [done|]. split; [done|].
    right. destruct H3 as [H3|H3]; [left; lia|right]. rw /stack_start. lia. }
  destruct H3 as (-> & -> & Hf3 & Hc3 & Hs3 & Hk3). rw arg_ptrs_length. set (sp0 := stack_start top argv). rw /MAXARG in Hc3. pose proof (arg_sp_le argv top) as Hle.
  replace (u32 (arg_sp top argv - (3 + Z.of_nat (length argv) + 1) * 4)) with sp0 by (rw u32_small; rw /sp0 /stack_start; lia).
  set (us := words (ustack (arg_sp top argv) (arg_ptrs top argv))). assert (Z.of_nat (length us) = 4 * (Z.of_nat (length argv) + 4)) as Hus by (rw /us words_length /ustack !length_app arg_ptrs_length; cbn [length]; lia).
  destruct (copy_out_ok _ _ (set_yk k3 y) f1 d t1 top sp0 us HI3) as (r & m4 & E4 & HI4 & P4 & H4); [rw /KERNBASE; lia|rw /sp0 /stack_start; lia|rw Hus /sp0 /stack_start; lia|apply words_bytes|]. mgo E4. cbn [y_k set_yk] in HI4, H4, P4. set (k4 := set_mem m4 k3) in *.
  destruct H4 as [(-> & W4 & G4)|(-> & x & Hx & Gx)]; cbn [Z.ltb Z.compare].
  2: { destruct (exec_bad_ok _ _ (set_yk k4 y) f1 d t1 (im_private _ _ _ _ _ _ _ HI4)) as (k' & E & G). exists (-1), (set_yk k' y). split; [exact E|]. left. split; [done|]. split; [done|]. split; [done|].
    right. right. rw /guard in Gx. fold sp0. lia. }
  assert (top - 4096 ≤ sp0) as Hfit. { destruct (decide (top - 4096 ≤ sp0)); [done|]. specialize (G4 sp0 ltac:(lia)). rw /guard in G4. assert (top - 4096 - 144 ≤ sp0) by (rw /sp0 /stack_start; lia). lia. }
  destruct (exec_commit_ok s0 f0 y k4 f1 d t1 otabs path top sp0 entry (im_private _ _ _ _ _ _ _ HI4) HO) as (k5 & f5 & E5 & HI5 & F5 & P5 & U5).
  exists 0, (committed path d top sp0 entry k5 y). split; [exact E5|]. right. split; [done|]. split; [done|]. split; [done|]. split; [done|]. cbn [y_k committed]. exists f5, t1. split; [done|].
  assert (∀ a, 0 ≤ a < top → 0 ≤ vpn a < vpages) as Hvp by (intros a Ha; rw /vpn /vpages; dlia). assert (∀ a, 0 ≤ a < top → ubyte (k_mem k5) t1 a = ubyte m4 t1 a) as U5'.
  { intros a Ha. apply U5; [rw /KERNBASE; lia|]. by apply (im_pages _ _ _ _ _ _ _ HI4). }
  split; [|split; [|split] ].
  - intros p. rw (pv_own _ _ _ _ _ _ _ _ (im_private _ _ _ _ _ _ _ HI4) p) elem_of_nil (owned_ext k4 k5) //. specialize (F5 p). set (old := owned s0 [] otabs p) in *. clearbody old.
    cbn [y_k set_yk]. rw /owned F5. tauto.
  - intros a Ha. rw P5; [by apply Hvp|]. by apply (im_pages _ _ _ _ _ _ _ HI4).
  - intros a Ha. rw U5'; [lia|]. rw W4; [rw /KERNBASE; lia|apply (im_pages _ _ _ _ _ _ _ HI3); lia|]. rewrite -> decide_False by lia. rw Hk3; [lia|lia|]. by apply U2.
  - apply (starts_ok m3); [rw /KERNBASE; lia|done|done|apply (im_pages _ _ _ _ _ _ _ HI3)|done|]. intros a Ha Hp. assert (0 ≤ vpn a < vpages) as Hv by (rw /KERNBASE in Ha; rw /vpn /vpages; dlia).
    rw U5; [done| |by apply W4]. rw -Hp. f_equal. by apply P4.
Qed.
End image.
