(* ===== verification/ExecLoad.v ===== *)
(** * The loading of a program (exec.c, vm.c)

    [exec] as a whole: the segments of an ELF file in a new address space, with
    [ExecSpec] for the stack, the file system's interface for the reading, and everything
    given back when any step fails. *)

From S2P Require Import Prelude Params Bytes KMemory Kalloc Vm VmCopy VmUser Proc Pipe Bio Log Tx Fs FsSpec FsFile Files File FileSpec Syscall Sysfile Exec ExecSpec.

Lemma length_frange v p off n : 0 ≤ n → Z.of_nat (length (frange v p off n)) = n.
Proof. intros Hn. rw /frange length_fmap length_seqZ. lia. Qed.
Lemma frange_lookup v p off n i : 0 ≤ i < n → frange v p off n !!! Z.to_nat i = fbyte v p (off + i).
Proof.
  intros Hi. apply list_lookup_total_correct. rw /frange list_lookup_fmap lookup_seqZ_lt; [lia|]. cbn. do 2 f_equal. lia.
Qed.

(** ** Program headers *)

Definition is_load (h : proghdr) : bool := ph_type h =? ELF_PROG_LOAD.
Definition seg_end (h : proghdr) : Z := ph_vaddr h + ph_memsz h.
(** The size after a segment is loaded. *)
Definition seg_size (h : proghdr) (sz : Z) : Z := if is_load h then Z.max sz (seg_end h) else sz.

Section elf.
(** The file's inode, on the disk [v]. *)
Context (v : Z → block) (p : inode).

Definition hdr (off : Z) : proghdr := decode_ph (frange v p (u32 off) PROGHDR_SIZE).
(** The memory after a segment is loaded. *)
Definition seg_bytes (h : proghdr) (b : Z → Z) : Z → Z :=
  if is_load h then λ a, if (ph_vaddr h <=? a) && (a <? ph_vaddr h + ph_filesz h) then fbyte v p (ph_off h + (a - ph_vaddr h)) else b a else b.
Fixpoint load_size (n : nat) (off sz : Z) : Z :=
  match n with O => sz | Datatypes.S n => load_size n (s32 (off + PROGHDR_SIZE)) (seg_size (hdr off) sz) end.
Fixpoint load_bytes (n : nat) (off : Z) (b : Z → Z) : Z → Z :=
  match n with O => b | Datatypes.S n => load_bytes n (s32 (off + PROGHDR_SIZE)) (seg_bytes (hdr off) b) end.
(** A segment that can be loaded. *)
Record seg_ok (h : proghdr) (sz : Z) : Prop := {
  sg_sizes : ph_filesz h ≤ ph_memsz h;
  sg_end : seg_end h < KERNBASE;
  sg_some : 0 < Z.max sz (seg_end h);
  sg_aligned : ph_vaddr h mod PGSIZE = 0;
  sg_file : ph_filesz h = 0 ∨ ph_off h + ph_filesz h ≤ i_size p;
}.
Fixpoint segs_ok (n : nat) (off sz : Z) : Prop :=
  match n with
  | O => True
  | Datatypes.S n => u32 off + PROGHDR_SIZE ≤ i_size p ∧ (is_load (hdr off) = true → seg_ok (hdr off) sz) ∧ segs_ok n (s32 (off + PROGHDR_SIZE)) (seg_size (hdr off) sz)
  end.

Lemma hdr_range off : 0 ≤ ph_type (hdr off) ∧ 0 ≤ ph_off (hdr off) < 4294967296 ∧ 0 ≤ ph_vaddr (hdr off) < 4294967296 ∧
  0 ≤ ph_filesz (hdr off) < 4294967296 ∧ 0 ≤ ph_memsz (hdr off) < 4294967296.
Proof. rw /hdr /decode_ph. cbn [ph_type ph_off ph_vaddr ph_filesz ph_memsz]. pose proof (get32_range (frange v p (u32 off) PROGHDR_SIZE) 0). split; [lia|]. split_and!; apply get32_range. Qed.
Lemma load_size_ge n : ∀ off sz, sz ≤ load_size n off sz.
Proof. induction n as [|n IH]; intros off sz; cbn [load_size]; [lia|]. etrans; [|apply IH]. rw /seg_size. destruct (is_load _); lia. Qed.
End elf.

Section load.
Context {S D : Type} `{!TxStore S}.
Context (kend kdata : Z) (sb : superblock) (devsw : Z → devops (@fstate S D)).
Hypothesis kend_range : KERNLINK ≤ kend ≤ KERNBASE + PHYSTOP.
Hypothesis kdata_range : KERNLINK < kdata < KERNBASE + PHYSTOP ∧ aligned kdata.
Abbreviation ystate := (@ystate S D).
Abbreviation private := (VmCopy.private kend).
Abbreviation program := (ExecSpec.program kend kdata).

(** The file: inode [ip], locked by the process, in the transaction that [exec] opened. *)
Context (y : ystate) (ip : nat) (lg : gset Z) (v : Z → block).
Let p := f_inode (y_fs y) !!! ip.
Hypothesis file_open : opened sb (y_fs y) ip lg v.
Hypothesis lg_small : (size lg < nbuf)%nat.
Hypothesis file_bytes : ∀ pos, 0 ≤ fbyte v p pos < 256.

(** The states that reading and loading go through. *)
Definition at_ (t : S) (k : kstate) : ystate := set_yfs (set_st t (y_fs y)) (set_yk k y).

Lemma km_at {A} (m : M kstate A) t k a k' : m k = Ok (a, k') → km m (at_ t k) = Ok (a, at_ t k').
Proof. intros E. rw /km /lift. cbn [y_k at_ set_yfs set_yk]. by rw E. Qed.

(** What a read returns. *)
Definition read_res (off n : Z) : Z * list Z :=
  if (i_size p <? off) || (4294967296 <=? off + n) then (-1, []) else (read_len (i_size p) off n, frange v p off (read_len (i_size p) off n)).
Lemma read_at t k off n : st_rep t ∅ ∅ lg v → 0 ≤ off < 4294967296 → 0 ≤ n < 4294967296 →
  ∃ t', st_rep t' ∅ ∅ lg v ∧ File.fs (readi devsw ip off n) (at_ t k) = Ok (read_res off n, at_ t' k).
Proof.
  intros R Hoff Hn. destruct (opened_read sb devsw (set_st t (y_fs y)) ip lg v off n) as (t' & R' & E); [by destruct file_open|done|done|done|].
  exists t'. split; [done|]. by rw (fs_lift _ (at_ t k) _ _ E).
Qed.
Lemma read_res_all off n : 0 ≤ off → 0 < n → (read_res off n).1 = n ↔ off + n ≤ i_size p.
Proof.
  intros Hoff Hn. destruct file_open as [_ _ _ _ _ _ _ _ _ Hsz]. rw MAXFILE_eq /BSIZE -/p in Hsz. rw /read_res /read_len.
  destruct (Z.ltb_spec (i_size p) off), (Z.leb_spec 4294967296 (off + n)), (Z.ltb_spec (i_size p) (off + n)); cbn; lia.
Qed.
Lemma read_res_bytes off n : 0 ≤ off → 0 < n → off + n ≤ i_size p → read_res off n = (n, frange v p off n).
Proof.
  intros Hoff Hn Hs. destruct file_open as [_ _ _ _ _ _ _ _ _ Hsz]. rw MAXFILE_eq /BSIZE -/p in Hsz. rw /read_res /read_len.
  by destruct (Z.ltb_spec (i_size p) off), (Z.leb_spec 4294967296 (off + n)), (Z.ltb_spec (i_size p) (off + n)); cbn; try lia.
Qed.
Lemma read_res_length off n : 0 ≤ off → 0 ≤ n → Z.of_nat (length (read_res off n).2) ≤ n ∧ Forall (λ b, 0 ≤ b < 256) (read_res off n).2.
Proof.
  intros Hoff Hn. assert (∀ o m, Forall (λ b, 0 ≤ b < 256) (frange v p o m)) as Hb.
  { intros o m. apply Forall_forall. intros b (i & -> & _)%list_elem_of_fmap. apply file_bytes. }
  rw /read_res. destruct (Z.ltb_spec (i_size p) off); cbn; [split; [lia|constructor]|]. destruct (Z.leb_spec 4294967296 (off + n)); cbn; [split; [lia|constructor]|].
  split; [|apply Hb]. rw length_frange; rw /read_len; destruct (Z.ltb_spec (i_size p) (off + n)); lia.
Qed.

(** ** loaduvm *)

(** The read of one page's worth of bytes into the page of [va]. *)
Lemma load_piece m0 f0 t k free d tabs va off n : st_rep t ∅ ∅ lg v → private m0 f0 [] k free d tabs → 0 ≤ va < KERNBASE → aligned va →
  present (pte_at (k_mem k) tabs (vpn va)) = true → 0 ≤ off < 4294967296 → 0 < n ≤ 4096 →
  ∃ t' m', readi_to devsw ip (frame (pte_at (k_mem k) tabs (vpn va))) off n (at_ t k) = Ok ((read_res off n).1, at_ t' (set_mem m' k)) ∧ st_rep t' ∅ ∅ lg v ∧
    private m0 f0 [] (set_mem m' k) free d tabs ∧ (∀ w, 0 ≤ w < vpages → pte_at m' tabs w = pte_at (k_mem k) tabs w) ∧
    VmUser.written (k_mem k) m' tabs va (read_res off n).2.
Proof.
  intros R HP Hva Hal Hp Hoff Hn. destruct (read_at t k off n R Hoff) as (t' & R' & E); [lia|]. destruct (read_res_length off n) as [Hl Hb]; [lia|lia|].
  assert (va mod 4096 = 0) as Hm by (rw /aligned /PGSIZE in Hal; done).
  destruct (write_piece kend m0 f0 k free d tabs va (read_res off n).2 HP) as (m' & Es & HP' & P' & W'); [lia|lia|lia|done|done|]. rw Hm Z.add_0_r in Es.
  exists t', m'. split; [|done]. rw /readi_to. mgo E. by mgo (km_at _ t' k _ _ Es).
Qed.

Lemma loaduvm_loop_ok m0 f0 d addr off sz : aligned addr → 0 ≤ addr → 0 ≤ sz → addr + sz ≤ KERNBASE → 0 ≤ off →
  ∀ fuel t k free tabs i, st_rep t ∅ ∅ lg v → private m0 f0 [] k free d tabs → 0 ≤ i → i mod 4096 = 0 → off + i < 4294967296 → sz ≤ i + 4096 * Z.of_nat fuel →
  (∀ a, addr ≤ a < addr + sz → present (pte_at (k_mem k) tabs (vpn a)) = true) →
  ∃ r t' m', loaduvm_loop (λ A, km) (readi_to devsw ip) fuel d addr off i sz (at_ t k) = Ok (r, at_ t' (set_mem m' k)) ∧ st_rep t' ∅ ∅ lg v ∧
    private m0 f0 [] (set_mem m' k) free d tabs ∧ (∀ w, 0 ≤ w < vpages → pte_at m' tabs w = pte_at (k_mem k) tabs w) ∧
    (r = 0 ∧ (i < sz → off + sz ≤ i_size p) ∧ VmUser.written (k_mem k) m' tabs (addr + i) (frange v p (off + i) (sz - i)) ∨ r = -1 ∧ i < sz ∧ i_size p < off + sz).
Proof.
  intros Hal Haddr Hsz Hk Hoff fuel. rw /KERNBASE in Hk. rw /aligned /PGSIZE in Hal. destruct file_open as [_ _ _ _ _ _ _ _ _ His]. rw MAXFILE_eq /BSIZE -/p in His.
  assert (∀ k tabs i, sz ≤ i → VmUser.written (k_mem k) (k_mem k) tabs (addr + i) (frange v p (off + i) (sz - i))) as Hnone.
  { intros k tabs i Hi a _ _. assert (frange v p (off + i) (sz - i) = []) as ->; [|by rewrite -> decide_False by (cbn [length]; lia)]. rw /frange. by rewrite -> (seqZ_nil 0 (sz - i)) by lia. }
  assert (∀ k, set_mem (k_mem k) k = k) as Hsame by by intros [].
  induction fuel as [|fuel IH]; intros t k free tabs i R HP Hi Him Hoi Hfu Hpr; cbn [loaduvm_loop].
  { exists 0, t, (k_mem k). rw Hsame. do 3 (split; [done|]). split; [done|]. left. split; [done|]. split; [lia|]. apply Hnone. lia. }
  destruct (Z.ltb_spec i sz) as [Hlt|Hge]; [|exists 0, t, (k_mem k); rw Hsame; do 3 (split; [done|]); split; [done|]; left; split; [done|]; split; [lia|]; by apply Hnone].
  rw (u32_small (addr + i)); [lia|]. assert (present (pte_at (k_mem k) tabs (vpn (addr + i))) = true) as Hp by (apply Hpr; lia). pose proof (pv_inv _ _ _ _ _ _ _ _ HP) as HI.
  destruct (walk_present kend kend_range k free d tabs (addr + i) HI ltac:(lia) Hp) as (tb & _ & Ew & Hnz & El). mgo (km_at _ t k _ _ Ew). destruct (Z.eqb_spec (tb + 4 * (vpn (addr + i) mod 1024)) 0) as [|_]; [done|].
  assert (load32 (tb + 4 * (vpn (addr + i) mod 1024)) k = Ok (pte_at (k_mem k) tabs (vpn (addr + i)), k)) as Eld by (rw /load32 /gets El //). mgo (km_at _ t k _ _ Eld). fold (frame (pte_at (k_mem k) tabs (vpn (addr + i)))).
  set (n := if sz - i <? PGSIZE then sz - i else PGSIZE). assert (n = Z.min (sz - i) 4096) as En by (rw /n /PGSIZE; destruct (Z.ltb_spec (sz - i) 4096); lia). clearbody n. rw (u32_small (off + i)); [lia|].
  destruct (load_piece m0 f0 t k free d tabs (addr + i) (off + i) n R HP) as (t1 & m1 & E1 & R1 & HP1 & P1 & W1); [rw /KERNBASE; lia|rw /aligned /PGSIZE; dlia|done|lia|lia|]. mgo E1.
  pose proof (read_res_all (off + i) n ltac:(lia) ltac:(lia)) as Hall. destruct (Z.eqb_spec (read_res (off + i) n).1 n) as [Er|Er]; cbn [negb].
  2: { exists (-1), t1, m1. do 4 (split; [done|]). right. split; [done|]. rewrite -> Hall in Er. split; lia. }
  apply Hall in Er. rw read_res_bytes // in W1; [lia|lia|]. cbn [snd] in W1. rw u32_small; [rw /PGSIZE; lia|].
  assert (∀ a, addr ≤ a < addr + sz → pte_at m1 tabs (vpn a) = pte_at (k_mem k) tabs (vpn a)) as P1'. { intros a Ha. apply P1. rw /vpn /vpages. dlia. }
  destruct (IH t1 (set_mem m1 k) free tabs (i + PGSIZE) R1 HP1) as (r & t2 & m2 & E2 & R2 & HP2 & P2 & H2); [rw /PGSIZE; lia|rw /PGSIZE; dlia|rw /PGSIZE; lia|rw /PGSIZE; lia|intros a Ha; cbn [k_mem set_mem]; rw P1' //; by apply Hpr|].
  exists r, t2, m2. split; [exact E2|]. split; [done|]. split; [exact HP2|]. cbn [k_mem set_mem] in P2, H2. split; [intros w Hw; rw P2 //; by apply P1|]. destruct H2 as [(-> & Hs2 & W2)|(-> & _ & Hs2)]; [left|by right].
  split; [done|]. split; [intros _; destruct (decide (i + PGSIZE < sz)) as [|Hn]; [by apply Hs2|]; rw /PGSIZE in Hn; lia|].
  assert (0 ≤ n) as Hn0 by lia. pose proof (length_frange v p (off + i) n Hn0) as Hlf. rw /PGSIZE in W2. destruct (decide (i + 4096 < sz)).
  - replace (sz - i) with (n + (sz - (i + 4096))) by lia. rw frange_app; [lia|lia|]. apply (written_app _ m1); [done| |done]. rw Hlf. replace (addr + i + n) with (addr + (i + 4096)) by lia. by replace (off + i + n) with (off + (i + 4096)) by lia.
  - replace (sz - i) with n by lia. rw -(app_nil_r (frange v p (off + i) n)). apply (written_app _ m1); [done| |done].
    assert (frange v p (off + (i + 4096)) (sz - (i + 4096)) = []) as E0 by (rw /frange; by rewrite -> (seqZ_nil 0 (sz - (i + 4096))) by lia). rw E0 in W2. intros a Ha Hpa. rw W2 //. by rewrite -> !decide_False by (cbn [length]; lia).
Qed.

(** ** The segments *)

Abbreviation hdr := (hdr v p).
Abbreviation seg_bytes := (seg_bytes v p).
Abbreviation seg_ok := (seg_ok p).
Abbreviation load_size := (load_size v p).
Abbreviation load_bytes := (load_bytes v p).
Abbreviation segs_ok := (segs_ok v p).

(** The new address space while segments are loaded. *)
Record loading (m0 : mem) (f0 : list Z) (k : kstate) free d tabs sz (b : Z → Z) : Prop := {
  ld_program : program m0 f0 k free d tabs (PGROUNDUP sz);
  ld_size : 0 ≤ sz < KERNBASE;
  ld_bytes a : 0 ≤ a < PGROUNDUP sz → ubyte (k_mem k) tabs a = b a;
  ld_above a : PGROUNDUP sz ≤ a → b a = 0;
}.

Lemma PGROUNDUP_max sz new : 0 ≤ sz ≤ KERNBASE → 0 ≤ new ≤ KERNBASE → PGROUNDUP (Z.max sz new) = Z.max (PGROUNDUP sz) (PGROUNDUP new).
Proof. intros H1 H2. destruct (PGROUNDUP_ok sz H1) as (-> & _), (PGROUNDUP_ok new H2) as (-> & _), (PGROUNDUP_ok (Z.max sz new)) as (-> & _); [lia|]. dlia. Qed.

(** [allocuvm] for a segment. *)
Lemma alloc_segment m0 f0 k free d tabs sz b new : loading m0 f0 k free d tabs sz b → 0 ≤ new → NoDup f0 →
  ∃ r k' free' tabs', allocuvm kend d sz new k = Ok (r, k') ∧ private m0 f0 [] k' free' d tabs' ∧
    (r = 0 ∧ (KERNBASE ≤ new ∨ Z.max sz new = 0 ∨ Z.of_nat (length f0) ≤ 1025 + 2 * npages new) ∨
     r = Z.max sz new ∧ r ≠ 0 ∧ loading m0 f0 k' free' d tabs' r b).
Proof.
  intros HL Hnew Hnd. pose proof HL as [HPg Hsz Hby Hab]. pose proof HPg as [HP HK Hu He]. destruct (PGROUNDUP_ok sz) as (Esz & Hal & Hr); [lia|].
  assert (s32 sz = sz) as Es by (apply s32_small; clia). destruct (Z.leb_spec KERNBASE new) as [Hge|Hlt].
  { exists 0, k, free, tabs. split; [rw /allocuvm; by rewrite -> (proj2 (Z.leb_le _ _)) by lia|]. split; [done|]. left. by auto. }
  destruct (Z.ltb_spec new sz) as [Hlt'|Hge'].
  { exists sz, k, free, tabs. split; [rw /allocuvm; rewrite -> (proj2 (Z.leb_gt _ _)), (proj2 (Z.ltb_lt _ _)) by lia; by rw Es|]. split; [done|]. right. rewrite -> Z.max_l by lia. split; [done|]. split; [lia|done]. }
  destruct (decide (new = sz)) as [->|Hne].
  { assert (allocuvm kend d sz sz k = Ok (sz, k)) as E.
    { rw /allocuvm. rewrite -> (proj2 (Z.leb_gt _ _)), Z.ltb_irrefl by lia. rw /page_rounds. cbn [allocuvm_loop]. rewrite -> (proj2 (Z.ltb_ge (PGROUNDUP sz) sz)) by lia. by rw Es. }
    exists sz, k, free, tabs. split; [done|]. split; [done|]. rw Z.max_id. destruct (decide (sz = 0)); [left; auto|right; by auto]. }
  assert (∀ w, page_range (PGROUNDUP sz) new w = true → PGROUNDUP sz / 4096 ≤ w < user_pages) as Hpr.
  { intros w. rw /page_range /vpn /user_pages. rw /KERNBASE in Hlt. dlia. }
  destruct (private_allocuvm kend kend_range m0 f0 k free d tabs sz new HP) as (r & k' & f' & t' & E & HP' & H); [lia|lia|intros w Hw; by apply He, Hpr|].
  exists r, k', f', t'. split; [done|]. split; [done|]. rewrite -> Z.max_r by lia. destruct H as [ [-> G]|[-> Hl] ].
  2: { left. split; [done|]. right. right. pose proof (private_count kend m0 f0 [] k free d tabs (PGROUNDUP sz / 4096) HP Hnd) as Hc. cbn [length] in Hc.
    assert (0 ≤ PGROUNDUP sz / 4096) as H0 by dlia. specialize (Hc H0 He). rw /pages_between in Hl. rw /npages. rw /aligned /PGSIZE in Hal. dlia. }
  right. split; [done|]. split; [lia|]. destruct (PGROUNDUP_ok new) as (Enew & Haln & Hrn); [lia|]. rw /aligned /PGSIZE in Hal Haln. rw /KERNBASE in Hlt Hsz.
  assert (∀ a, PGROUNDUP sz ≤ a < PGROUNDUP new → page_range (PGROUNDUP sz) new (vpn a) = true) as Hin by (intros a Ha; rw /page_range /vpn; dlia).
  assert (∀ a, 0 ≤ a < PGROUNDUP sz → page_range (PGROUNDUP sz) new (vpn a) = false) as Hout by (intros a Ha; rw /page_range /vpn; dlia).
  assert (∀ a, 0 ≤ a < PGROUNDUP sz → pte_at (k_mem k') t' (vpn a) = pte_at (k_mem k) tabs (vpn a)) as Hold.
  { intros a Ha. apply (gr_keep _ _ _ _ _ _ _ _ _ _ G); [rw /vpn /vpages; dlia|by apply Hout]. }
  split; [split; [done| | |]|rw /KERNBASE; lia| |].
  - eapply kernel_mapped_ext; [by apply kmap_ascending| |exact HK]. intros w Hw. apply (gr_keep _ _ _ _ _ _ _ _ _ _ G); [rw /user_pages in Hw; lia|]. destruct (page_range _ _ w) eqn:Ew; [|done]. apply Hpr in Ew. lia.
  - intros a Ha. destruct (decide (a < PGROUNDUP sz)); [rw Hold; [lia|]; apply Hu; lia|]. destruct (gr_new _ _ _ _ _ _ _ _ _ _ G (vpn a)) as (f & _ & Hf & -> & _); [apply Hin; lia|]. by apply (user_page kend).
  - intros w Hw. rw (gr_keep _ _ _ _ _ _ _ _ _ _ G); [rw /user_pages in Hw; rw /vpages; dlia| |]. { rw /page_range /vpn. dlia. } apply He. dlia.
  - intros a Ha. assert (0 ≤ a < KERNBASE) as Hak by (rw /KERNBASE; dlia). destruct (grown_ubyte kend kend_range _ _ _ _ _ _ _ _ _ a (pv_inv _ _ _ _ _ _ _ _ HP) G Hak) as [G1 G2]. destruct (decide (a < PGROUNDUP sz)).
    + rw G2; [apply Hout; lia|apply Hu; lia|]. apply Hby. lia.
    + rw G1; [apply Hin; lia|]. symmetry. apply Hab. lia.
  - intros a Ha. apply Hab. dlia.
Qed.

(** [loaduvm] for a segment. *)
Lemma load_segment m0 f0 t k free d tabs sz b h : st_rep t ∅ ∅ lg v → loading m0 f0 k free d tabs sz b → is_load h = true →
  0 ≤ ph_vaddr h → ph_vaddr h mod PGSIZE = 0 → 0 ≤ ph_filesz h → ph_vaddr h + ph_filesz h ≤ sz → 0 ≤ ph_off h < 4294967296 →
  ∃ r t' m', loaduvm (λ A, km) (readi_to devsw ip) d (ph_vaddr h) (ph_off h) (ph_filesz h) (at_ t k) = Ok (r, at_ t' (set_mem m' k)) ∧ st_rep t' ∅ ∅ lg v ∧
    private m0 f0 [] (set_mem m' k) free d tabs ∧
    (r = 0 ∧ (ph_filesz h = 0 ∨ ph_off h + ph_filesz h ≤ i_size p) ∧ loading m0 f0 (set_mem m' k) free d tabs sz (seg_bytes h b) ∨ r = -1 ∧ 0 < ph_filesz h ∧ i_size p < ph_off h + ph_filesz h).
Proof.
  intros R HL Hh Hva Hal Hfs Hend Hoff. pose proof HL as [HPg Hsz Hby Hab]. pose proof HPg as [HP HK Hu He]. destruct (PGROUNDUP_ok sz) as (Esz & _ & Hr); [lia|].
  destruct (loaduvm_loop_ok m0 f0 d (ph_vaddr h) (ph_off h) (ph_filesz h)) with (fuel := page_rounds 0 (ph_filesz h)) (t := t) (k := k) (free := free) (tabs := tabs) (i := 0)
    as (r & t' & m' & E & R' & HP' & P' & H); [done|done|done|lia|lia|done|done|lia|done|lia|rw /page_rounds /PGSIZE; dlia|intros a Ha; apply Hu; lia|].
  exists r, t', m'. split; [rw /loaduvm u32_small; [rw /KERNBASE in Hsz; lia|]; rw Hal; exact E|]. split; [done|]. split; [done|]. rw !Z.add_0_r Z.sub_0_r in H.
  destruct H as [(-> & Hfit & W)|(-> & ? & ?)]; [left|right; split; [done|lia] ]. split; [done|]. split; [lia|]. rw /KERNBASE in Hsz.
  assert (∀ a, 0 ≤ a < PGROUNDUP sz → 0 ≤ vpn a < vpages) as Hvp by (intros a Ha; rw /vpn /vpages; dlia).
  split; [split; [done| | |]|rw /KERNBASE; lia| |].
  - eapply kernel_mapped_ext; [by apply kmap_ascending| |exact HK]. intros w Hw. apply P'. rw /user_pages in Hw. lia.
  - intros a Ha. cbn [k_mem set_mem]. rw P'; [by apply Hvp|]. by apply Hu.
  - intros w Hw. cbn [k_mem set_mem]. rw P'; [rw /user_pages in Hw; rw /vpages; dlia|]. by apply He.
  - intros a Ha. cbn [k_mem set_mem]. rw W; [rw /KERNBASE; dlia|by apply Hu|]. rw length_frange // /seg_bytes Hh /=. case_decide as Hin.
    + rewrite -> (proj2 (Z.leb_le _ _)), (proj2 (Z.ltb_lt _ _)) by lia. cbn [andb]. rw frange_lookup //. lia.
    + destruct (Z.leb_spec (ph_vaddr h) a), (Z.ltb_spec a (ph_vaddr h + ph_filesz h)); cbn [andb]; try by apply Hby. lia.
  - intros a Ha. rw /ExecLoad.seg_bytes Hh /=. destruct (Z.ltb_spec a (ph_vaddr h + ph_filesz h)); [lia|]. rw andb_false_r. by apply Hab.
Qed.

(** How the loop over the program headers ends. *)
Definition load_outcome (m0 : mem) (f0 : list Z) (d : Z) (n : nat) (off sz : Z) (b : Z → Z) (res : option Z) (k : kstate) : Prop :=
  match res with
  | Some sz' => sz' = load_size n off sz ∧ segs_ok n off sz ∧ ∃ free tabs, loading m0 f0 k free d tabs sz' (load_bytes n off b)
  | None => (¬ segs_ok n off sz ∨ Z.of_nat (length f0) ≤ 1025 + 2 * npages (load_size n off sz)) ∧ ∃ free tabs, private m0 f0 [] k free d tabs
  end.
Lemma load_fails m0 f0 d n off sz b k free tabs t : private m0 f0 [] k free d tabs → st_rep t ∅ ∅ lg v →
  ¬ segs_ok n off sz ∨ Z.of_nat (length f0) ≤ 1025 + 2 * npages (load_size n off sz) →
  ∃ res t' k', Ok (None, at_ t k) = Ok (res, at_ t' k') ∧ st_rep t' ∅ ∅ lg v ∧ load_outcome m0 f0 d n off sz b res k'.
Proof. intros HP R Hw. exists None, t, k. split; [done|]. split; [done|]. split; [done|]. by exists free, tabs. Qed.
(** The rest of the loop, after a header that is fine. *)
Lemma load_next m0 f0 d n off sz b res k : u32 off + PROGHDR_SIZE ≤ i_size p → (is_load (hdr off) = true → seg_ok (hdr off) sz) →
  load_outcome m0 f0 d n (s32 (off + PROGHDR_SIZE)) (seg_size (hdr off) sz) (seg_bytes (hdr off) b) res k → load_outcome m0 f0 d (Datatypes.S n) off sz b res k.
Proof. intros H1 H2. rw /load_outcome. cbn [ExecLoad.segs_ok ExecLoad.load_size ExecLoad.load_bytes]. destruct res; [intros (? & ? & ?)|intros [ [?|?] ?] ]; (split; [|done]) || (split; [done|]; split; [|done]); tauto. Qed.

Lemma load_segments_ok m0 f0 d n : NoDup f0 → ∀ off t k free tabs sz b, st_rep t ∅ ∅ lg v → loading m0 f0 k free d tabs sz b →
  ∃ res t' k', load_segments kend devsw ip d n off sz (at_ t k) = Ok (res, at_ t' k') ∧ st_rep t' ∅ ∅ lg v ∧ load_outcome m0 f0 d n off sz b res k'.
Proof.
  intros Hnd. induction n as [|n IH]; intros off t k free tabs sz b R HL; cbn [load_segments].
  { exists (Some sz), t, k. split; [done|]. split; [done|]. split; [done|]. split; [done|]. by exists free, tabs. }
  pose proof (pg_private _ _ _ _ _ _ _ _ _ (ld_program _ _ _ _ _ _ _ _ HL)) as HP. pose proof (ld_size _ _ _ _ _ _ _ _ HL) as Hsz. rw /KERNBASE in Hsz.
  destruct (read_at t k (u32 off) PROGHDR_SIZE R (u32_range off)) as (t1 & R1 & E1); [done|]. mgo E1. pose proof (u32_range off) as Hoff.
  pose proof (read_res_all (u32 off) PROGHDR_SIZE ltac:(lia) ltac:(done)) as Hall.
  destruct (Z.eqb_spec (read_res (u32 off) PROGHDR_SIZE).1 PROGHDR_SIZE) as [Er|Er]; cbn [negb]; rewrite -> Hall in Er; [|eapply load_fails; [exact HP|done|left; cbn [ExecLoad.segs_ok]; tauto] ].
  rw read_res_bytes; [lia|done|done|]. cbn [snd]. fold (hdr off). destruct (hdr_range v p off) as (_ & Ho & Hva & Hfs & Hms). rw -/(is_load (hdr off)).
  assert (∀ k' free' tabs' t', private m0 f0 [] k' free' d tabs' → st_rep t' ∅ ∅ lg v → is_load (hdr off) = true → ¬ seg_ok (hdr off) sz → ∃ res t'' k'', Ok (None, at_ t' k') = Ok (res, at_ t'' k'') ∧ st_rep t'' ∅ ∅ lg v ∧ load_outcome m0 f0 d (Datatypes.S n) off sz b res k'') as Hbad.
  { intros k' f' t' t2 HP' R2 Hl Hn. eapply load_fails; [done|done|]. left. cbn [ExecLoad.segs_ok]. tauto. }
  destruct (is_load (hdr off)) eqn:Hh; cbn [negb].
  2: { destruct (IH (s32 (off + PROGHDR_SIZE)) t1 k free tabs sz b R1 HL) as (res & t2 & k2 & E2 & R2 & H2). exists res, t2, k2. split; [done|]. split; [done|]. apply load_next; [done|by rw Hh|]. by rw /seg_size /ExecLoad.seg_bytes Hh. }
  destruct (Z.ltb_spec (ph_memsz (hdr off)) (ph_filesz (hdr off))) as [Hs|Hs]; [eapply Hbad; [exact HP|done|done|]; intros []; lia|].
  destruct (Z.ltb_spec (u32 (ph_vaddr (hdr off) + ph_memsz (hdr off))) (ph_vaddr (hdr off))) as [Hw|Hw].
  { eapply Hbad; [exact HP|done|done|]. intros [_ He _ _ _]. rw /seg_end /KERNBASE in He. rw u32_small in Hw; lia. }
  assert (u32 (ph_vaddr (hdr off) + ph_memsz (hdr off)) = seg_end (hdr off)) as -> by (rw /seg_end; rw /u32 in Hw |- *; dlia).
  destruct (alloc_segment m0 f0 k free d tabs sz b (seg_end (hdr off)) HL) as (r & k2 & f2 & t2 & E2 & HP2 & H2); [rw /seg_end; lia|done|]. mgo (km_at _ t1 k _ _ E2).
  destruct H2 as [(-> & Hwhy)|(-> & Hnz & HL2)]; cbn [Z.eqb].
  { destruct Hwhy as [Hk|[Hz|Hc] ]; [eapply Hbad; [exact HP2|done|done|]; intros []; lia..|]. eapply load_fails; [exact HP2|done|]. right. cbn [ExecLoad.load_size].
    pose proof (load_size_ge v p n (s32 (off + PROGHDR_SIZE)) (seg_size (hdr off) sz)) as Hge. rw /seg_size Hh in Hge |- *. rw /npages in Hc |- *. dlia. }
  destruct (Z.eqb_spec (Z.max sz (seg_end (hdr off))) 0); [done|]. destruct (Z.eqb_spec (ph_vaddr (hdr off) mod PGSIZE) 0) as [Hal|Hal]; cbn [negb]; [|eapply Hbad; [exact HP2|done|done|]; by intros [] ].
  destruct (load_segment m0 f0 t1 k2 f2 d t2 _ b (hdr off) R1 HL2 Hh) as (r & t3 & m3 & E3 & R3 & HP3 & H3); [lia|done|lia|rw /seg_end; lia|done|]. mgo E3.
  destruct H3 as [(-> & Hfit & HL3)|(-> & Hf1 & Hf2)]; cbn [Z.ltb Z.compare]; [|eapply Hbad; [exact HP3|done|done|]; intros [_ _ _ _ [?|?] ]; lia].
  destruct (IH (s32 (off + PROGHDR_SIZE)) t3 (set_mem m3 k2) f2 t2 _ _ R3 HL3) as (res & t4 & k4 & E4 & R4 & H4). exists res, t4, k4. split; [exact E4|]. split; [done|].
  apply load_next; [done| |by rw /seg_size Hh]. intros _. pose proof (ld_size _ _ _ _ _ _ _ _ HL2) as Hk. by split; [|lia|lia| |].
Qed.
End load.
