(* ===== verification/ExecRun.v ===== *)
(** * exec as a whole (exec.c)

    [exec] from the path to the first instruction: the walk of [FsPath] to the file, the
    segments of [ExecLoad], the stack of [ExecSpec], in one transaction of the file system
    and in memory that is given back when any step fails. *)

From S2P Require Import Prelude Params Bytes KMemory Kalloc Vm VmCopy VmUser Proc Pipe Bio BioSpec Log LogSpec Tx Fs FsSpec FsFile Files FsDir FsPath File FileSpec Syscall Sysfile Exec ExecSpec ExecLoad.

(** ** The program in a file *)

Definition file_elf (v : Z → block) (p : inode) : elfhdr := decode_elf (frange v p 0 ELFHDR_SIZE).
Definition on_headers {A} (f : (Z → block) → inode → nat → Z → A) (v : Z → block) (p : inode) : A :=
  f v p (Z.to_nat (elf_phnum (file_elf v p))) (s32 (elf_phoff (file_elf v p))).
(** Its size in memory, and its bytes there. *)
Definition prog_size (v : Z → block) (p : inode) : Z := on_headers load_size v p 0.
Definition prog_byte (v : Z → block) (p : inode) : Z → Z := on_headers load_bytes v p (λ _, 0).
Lemma prog_size_nonneg v p : 0 ≤ prog_size v p.
Proof. exact (load_size_ge v p _ _ 0). Qed.
(** A file that [exec] can run: an ELF header, segments in page-aligned user memory whose
    bytes the file has, and room for the stack above them. *)
Record runnable (v : Z → block) (p : inode) : Prop := {
  ru_header : ELFHDR_SIZE ≤ i_size p;
  ru_magic : elf_magic (file_elf v p) = ELF_MAGIC;
  ru_segs : on_headers segs_ok v p 0;
  ru_room : PGROUNDUP (prog_size v p) + 8192 < KERNBASE;
}.

(** The program depends on the file's contents only. *)
Section same.
Context (v : Z → block) (p q : inode) (same : same_file p q).
Lemma fbyte_same pos : fbyte v p pos = fbyte v q pos.
Proof. by rw /fbyte /fdata (iblk_same v p q _ same). Qed.
Lemma hdr_same off : hdr v p off = hdr v q off.
Proof. by rw /hdr (frange_same v p q _ _ same). Qed.
Lemma elf_same : file_elf v p = file_elf v q.
Proof. by rw /file_elf (frange_same v p q _ _ same). Qed.
Lemma load_size_same n : ∀ off sz, load_size v p n off sz = load_size v q n off sz.
Proof. induction n as [|n IH]; intros off sz; cbn [load_size]; [done|]. by rw IH hdr_same. Qed.
Lemma load_bytes_same n : ∀ off b b' a, (∀ a, b a = b' a) → load_bytes v p n off b a = load_bytes v q n off b' a.
Proof.
  induction n as [|n IH]; intros off b b' a Hb; cbn [load_bytes]; [done|]. apply IH. intros x. rw hdr_same /seg_bytes. destruct (is_load _); [|done].
  destruct (_ && _); [apply fbyte_same|done].
Qed.
Lemma segs_ok_same n : ∀ off sz, segs_ok v p n off sz ↔ segs_ok v q n off sz.
Proof.
  destruct same as (_ & Hs & _). induction n as [|n IH]; intros off sz; cbn [segs_ok]; [done|]. rw IH hdr_same Hs.
  assert (∀ h, seg_ok p h sz ↔ seg_ok q h sz) as Hg by (intros h; split; intros []; split; congruence). by rw Hg.
Qed.
Lemma prog_size_same : prog_size v p = prog_size v q.
Proof. by rw /prog_size /on_headers elf_same load_size_same. Qed.
Lemma prog_byte_same a : prog_byte v p a = prog_byte v q a.
Proof. rw /prog_byte /on_headers elf_same. by apply load_bytes_same. Qed.
Lemma runnable_same : runnable v p ↔ runnable v q.
Proof.
  pose proof same as (_ & Hs & _). pose proof elf_same as He. pose proof prog_size_same as Hp.
  split; intros [R1 R2 R3 R4]; (split; [congruence|congruence| |congruence]); rw /on_headers; [rw -He; by apply segs_ok_same|rw He; by apply segs_ok_same].
Qed.
End same.

Section exec.
Context {S D : Type} `{!TxStore S}.
Context (kend kdata : Z) (sb : superblock) (devsw : Z → devops (@fstate S D)).
Hypothesis kend_range : KERNLINK ≤ kend ≤ KERNBASE + PHYSTOP.
Hypothesis kdata_range : KERNLINK < kdata < KERNBASE + PHYSTOP ∧ aligned kdata.
Abbreviation ystate := (@ystate S D).
Abbreviation fs := (@fstate S D).
Abbreviation private := (VmCopy.private kend).

(** ** The file system's part *)

(** The file system after the transaction: the disk has the contents [v] that it had, and
    every inode the references it had. *)
Record restored (v : Z → block) (s s' : fs) : Prop := {
  rs_idle : ∃ v', st_idle (f_st s') v' ∧ ∀ k, st_home k → v' k = v k;
  rs_cache : cache sb v None s';
  rs_refs : refs s (one None) s';
}.

Lemma cache_st v lk (s : fs) t : cache sb v lk s → cache sb v lk (set_st t s).
Proof. by intros []. Qed.
Lemma refs_st (s0 : fs) t h s : refs (set_st t s0) h s ↔ refs s0 h s.
Proof. by split; intros []. Qed.

Lemma few : (size (∅ : gset Z) < nbuf)%nat.
Proof. rw size_empty. by apply Nat.ltb_lt. Qed.

(** The end of the transaction. *)
Lemma finish v t0 (y : ystate) s : stands sb v ∅ (set_st t0 s) (one None) (y_fs y) →
  ∃ s', end_tx y = Ok (tt, set_yfs s' y) ∧ restored v s s'.
Proof.
  intros [HC HF HR]. destruct (st_end_ok _ _ _ HF) as (t & v' & E & Id & Hv). exists (set_st t (y_fs y)).
  split; [by apply (fs_st_lift st_end_op)|]. split; [by exists v'|by apply cache_st|]. apply refs_st in HR. by destruct HR.
Qed.
(** The file is unlocked and released first. *)
Lemma release v t0 (y : ystate) s ip n : inside sb v ∅ (set_st t0 s) (one (Some ip)) ip n (y_fs y) →
  ∃ s1 s', File.fs (iunlockput ip) y = Ok (tt, set_yfs s1 y) ∧ end_tx (set_yfs s1 y) = Ok (tt, set_yfs s' y) ∧ restored v s s'.
Proof.
  intros HI. destruct (leave _ _ _ _ few _ _ _ _ HI) as (s1 & E1 & S1 & _). exists s1.
  destruct (finish v t0 (set_yfs s1 y) s) as (s' & E2 & H); [eapply stands_ext; [exact S1|]; intros k; apply one_diff|].
  exists s'. split; [by apply fs_lift|done].
Qed.

(** [bad:] with the file locked. *)
Lemma bad_file m0 f0 v t0 (y : ystate) s ip n d : inside sb v ∅ (set_st t0 s) (one (Some ip)) ip n (y_fs y) →
  (d = 0 ∧ gave_back kend m0 f0 (y_k y) ∨ ∃ free tabs, private m0 f0 [] (y_k y) free d tabs) →
  ∃ s' k', exec_bad kend d (Some ip) y = Ok (-1, set_yfs s' (set_yk k' y)) ∧ restored v s s' ∧ gave_back kend m0 f0 k'.
Proof.
  intros HI Hd.
  assert (∃ k', when (negb (d =? 0)) (km (freevm kend d)) y = Ok (tt, set_yk k' y) ∧ gave_back kend m0 f0 k') as (k' & E & G).
  { destruct Hd as [ [-> G]|(free & tabs & HP)]; [exists (y_k y); by destruct y|]. destruct (private_freevm kend kend_range _ _ _ _ _ _ HP) as (k' & E & G).
    destruct (page_ok_range _ kend_range d) as (_ & _ & Hd); [apply (pv_inv _ _ _ _ _ _ _ _ HP)|]. destruct (Z.eqb_spec d 0); [done|]. exists k'. split; [by apply km_Ok|done]. }
  destruct (release v t0 (set_yk k' y) s ip n HI) as (s1 & s' & E1 & E2 & Hr). exists s', k'. split; [|done].
  rw /exec_bad. mgo E. rw bind_assoc. mgo E1. by mgo E2.
Qed.

(** ** Memory *)

Lemma gave_back_refl k f0 d tabs : vm_inv kend k f0 d tabs → gave_back kend (k_mem k) f0 k.
Proof. intros HI. exists f0. split; [apply HI|]. by split. Qed.

(** A new directory, as [exec] starts to load. *)
Lemma loading_start m0 f0 k free d tabs : private m0 f0 [] k free d tabs → kernel_mapped (k_mem k) tabs (kmap kdata) →
  (∀ v, 0 ≤ v < user_pages → present (pte_at (k_mem k) tabs v) = false) → loading kend kdata m0 f0 k free d tabs 0 (λ _, 0).
Proof.
  intros HP HK Hn. change (PGROUNDUP 0) with 0. split; change (PGROUNDUP 0) with 0; [|rw /KERNBASE; lia|intros; lia|done]. split; [done|done|intros; lia|done].
Qed.

(** No room for the stack below the kernel. *)
Lemma exec_stack_big m0 f0 (y : ystate) free d tabs path argv sz entry : private m0 f0 [] (y_k y) free d tabs → 0 ≤ sz < KERNBASE →
  KERNBASE ≤ PGROUNDUP sz + 8192 → ∃ k', exec_stack kend path argv d sz entry y = Ok (-1, set_yk k' y) ∧ gave_back kend m0 f0 k'.
Proof.
  intros HP Hsz Hb. destruct (PGROUNDUP_ok sz) as (Hup & _); [lia|]. rw /exec_stack. rw /KERNBASE in Hsz, Hb.
  assert (u32 (PGROUNDUP sz + 2 * PGSIZE) = PGROUNDUP sz + 8192) as -> by (rw u32_small /PGSIZE; [rw Hup in Hb |- *; dlia|lia]).
  rw /allocuvm. rewrite -> (proj2 (Z.leb_le _ _)) by (rw /KERNBASE; lia). erewrite bind_Ok; [|by apply km_Ok]. cbn [Z.eqb].
  destruct (exec_bad_ok kend kend_range m0 f0 (set_yk (y_k y) y) free d tabs HP) as (k' & E & G). by exists k'.
Qed.

(** When memory is short for a program of [sz] bytes. *)
Definition short (f0 : list Z) (sz : Z) : Prop := Z.of_nat (length f0) ≤ 1028 + 2 * npages sz.
Lemma program_short m0 f0 k free d tabs sz : program kend kdata m0 f0 k free d tabs (PGROUNDUP sz) → NoDup f0 → 0 ≤ sz < KERNBASE →
  Z.of_nat (length free) < 4 → short f0 sz.
Proof.
  intros [HP _ _ He] Hnd Hsz Hf. destruct (PGROUNDUP_ok sz) as (Hup & _); [lia|]. rw Hup in He. assert (0 ≤ npages sz) as Hn by (rw /npages; dlia).
  pose proof (private_count _ _ _ _ _ _ _ _ (npages sz) HP Hnd Hn) as Hc. cbn [length] in Hc. rw /short.
  enough (Z.of_nat (length f0) ≤ 1025 + Z.of_nat 0 + npages sz + Z.of_nat (length free)) by lia. apply Hc. intros v Hv. apply He. rw /npages in Hv. dlia.
Qed.

(** ** The outcome *)

(** [y'] runs the program of the file [p] with the arguments [argv]: its memory is the
    program's, with the guard page and the stack above; the old image is free. *)
Definition runs (v : Z → block) (p : inode) (path : list Z) (argv : list (list Z)) (f0 : list Z) (otabs : mem) (y y' : ystate) : Prop :=
  let base := PGROUNDUP (prog_size v p) in let top := base + 8192 in
  Z.of_nat (length argv) ≤ MAXARG ∧ top - 4096 ≤ stack_start top argv ∧ ∃ d free tabs,
    y' = set_yfs (y_fs y') (committed path d top (stack_start top argv) (elf_entry (file_elf v p)) (y_k y') y) ∧
    vm_inv kend (y_k y') free d tabs ∧
    (∀ q, q ∈ f0 ∨ q = y_pgdir y ∨ owned (y_k y) [] otabs q ↔ q = d ∨ owned (y_k y') free tabs q) ∧
    (∀ a, 0 ≤ a < top → present (pte_at (k_mem (y_k y')) tabs (vpn a)) = true ∧ user_bit (pte_at (k_mem (y_k y')) tabs (vpn a)) = negb (guard top a)) ∧
    (∀ a, 0 ≤ a < base → ubyte (k_mem (y_k y')) tabs a = prog_byte v p a) ∧
    starts (k_mem (y_k y')) tabs top argv.
(** [y'] is [y] with all that the call took given back. *)
Definition undone (f0 : list Z) (y y' : ystate) : Prop :=
  y' = set_yfs (y_fs y') (set_yk (y_k y') y) ∧ gave_back kend (k_mem (y_k y)) f0 (y_k y').
(** Why a call that found the file [p] fails. *)
Definition refused (v : Z → block) (p : inode) (argv : list (list Z)) (f0 : list Z) : Prop :=
  ¬ runnable v p ∨ short f0 (prog_size v p) ∨ MAXARG < Z.of_nat (length argv) ∨
  let top := PGROUNDUP (prog_size v p) + 8192 in stack_start top argv < top - 4096.

Section file.
Context (v : Z → block) (s : fs) (t0 : S) (y : ystate) (ip : nat) (n : Z) (f0 : list Z) (otabs : mem).
Let p := f_inode (y_fs y) !!! ip.
Hypothesis disk : tree sb v.
Hypothesis file : inside sb v ∅ (set_st t0 s) (one (Some ip)) ip n (y_fs y).
Hypothesis file_live : live sb v n.
Hypothesis not_dev : i_type (dnode sb v n) ≠ T_DEV.
Hypothesis bytes : ∀ pos, 0 ≤ fbyte v p pos < 256.
Hypothesis memory : vm_inv kend (y_k y) f0 (y_pgdir y) otabs.

Definition done_with (r : Z) (path : list Z) (argv : list (list Z)) (y' : ystate) : Prop :=
  restored v s (y_fs y') ∧ (r = -1 ∧ undone f0 y y' ∧ refused v p argv f0 ∨ r = 0 ∧ runnable v p ∧ runs v p path argv f0 otabs y y').

Lemma file_opened : opened sb (y_fs y) ip ∅ v.
Proof. by eapply inside_opened. Qed.

(** All ways to [bad:] before the file is closed. *)
Lemma file_bad path argv t k d : st_rep t ∅ ∅ ∅ v → refused v p argv f0 →
  (d = 0 ∧ gave_back kend (k_mem (y_k y)) f0 k ∨ ∃ free tabs, private (k_mem (y_k y)) f0 [] k free d tabs) →
  ∃ r y', exec_bad kend d (Some ip) (at_ y t k) = Ok (r, y') ∧ done_with r path argv y'.
Proof.
  intros R Hw Hd. destruct (bad_file (k_mem (y_k y)) f0 v t0 (at_ y t k) s ip n d) as (s' & k' & E & Hr & G); [by apply inside_st|done|].
  eexists _, _. split; [exact E|]. split; [done|]. left. by split.
Qed.

(** The program is loaded: the file is closed, and the stack built. *)
Lemma file_loaded path argv t k d sz free tabs entry : Forall arg_ok argv → st_rep t ∅ ∅ ∅ v → sz = prog_size v p → entry = elf_entry (file_elf v p) →
  ELFHDR_SIZE ≤ i_size p → elf_magic (file_elf v p) = ELF_MAGIC → on_headers segs_ok v p 0 →
  loading kend kdata (k_mem (y_k y)) f0 k free d tabs sz (prog_byte v p) →
  ∃ r y', (File.fs (iunlockput ip) ;; end_tx ;; exec_stack kend path argv d sz entry) (at_ y t k) = Ok (r, y') ∧ done_with r path argv y'.
Proof.
  intros Ha R -> -> H1 H2 H3 [HPg Hsz Hby _]. destruct (release v t0 (at_ y t k) s ip n) as (s1 & s' & E1 & E2 & Hr); [by apply inside_st|]. mgo E1. mgo E2.
  set (y2 := set_yfs s' (at_ y t k)). assert (NoDup f0) as Hnd by apply memory. set (sz := prog_size v p) in *.
  destruct (decide (PGROUNDUP sz + 8192 < KERNBASE)) as [Hroom|Hroom].
  2: { destruct (exec_stack_big (k_mem (y_k y)) f0 y2 free d tabs path argv sz (elf_entry (file_elf v p)) (pg_private _ _ _ _ _ _ _ _ _ HPg) Hsz) as (k' & E & G); [lia|].
       eexists _, _. split; [exact E|]. split; [done|]. left. split; [done|]. split; [by split|]. left. by intros []. }
  destruct (exec_stack_ok kend kdata kend_range kdata_range (y_k y) f0 y2 free d tabs otabs path argv sz (elf_entry (file_elf v p)) memory HPg) as (r & y' & E & H); [lia|done|done|].
  exists r, y'. split; [exact E|]. destruct H as [(-> & Hy & G & Hw)|(-> & Hc & Hfit & Hy & free' & tabs' & HI & Ho & Hpg & Hb & Hst)]; (split; [by rw Hy|]); [left|right]; (split; [done|]).
  - split; [split; [by rw Hy|done]|]. right. destruct Hw as [Hw|[Hw|Hw] ]; [left|right; by left|by do 2 right]. by eapply program_short.
  - split; [by split|]. split; [done|]. split; [done|]. exists d, free', tabs'. split; [assert (y_fs y' = s') as -> by (by rw Hy); exact Hy|]. split; [done|]. split; [done|]. split; [done|]. split; [|done]. intros a Ha'. rw Hb //. by apply Hby.
Qed.

Lemma exec_file_ok path argv : Forall arg_ok argv → ∃ r y', exec_file kend kdata devsw path argv ip y = Ok (r, y') ∧ done_with r path argv y'.
Proof.
  intros Ha. pose proof file_opened as O. pose proof few as Hf. rw /exec_file. assert (st_rep (f_st (y_fs y)) ∅ ∅ ∅ v) as R by apply file.
  pose proof (gave_back_refl _ _ _ _ memory) as G0. assert (at_ y (f_st (y_fs y)) (y_k y) = y) as Hy by by destruct y as [ [] ].
  destruct (read_at sb devsw y ip ∅ v O Hf _ (y_k y) 0 ELFHDR_SIZE R) as (t1 & R1 & E1); [lia|done|]. rw Hy in E1. mgo E1.
  pose proof (read_res_all sb y ip ∅ v O Hf 0 ELFHDR_SIZE ltac:(lia) ltac:(done)) as Hall. fold p in Hall.
  destruct (Z.eqb_spec (read_res y ip v 0 ELFHDR_SIZE).1 ELFHDR_SIZE) as [Er|Er]; cbn [negb]; rewrite -> Hall in Er.
  2: { apply file_bad; [done|left; intros []; lia|by left]. }
  rw (read_res_bytes sb y ip ∅ v O Hf); [lia|done|fold p; lia|]. cbn [snd]. fold p (file_elf v p).
  destruct (Z.eqb_spec (elf_magic (file_elf v p)) ELF_MAGIC) as [Em|Em]; cbn [negb]; [|apply file_bad; [done|left; by intros []|by left] ].
  destruct (setupkvm_ok kend kdata kend_range kdata_range (y_k y) f0 ltac:(apply memory)) as (d & k1 & E2 & H2). mgo (km_at y _ t1 _ _ _ E2).
  destruct H2 as [(-> & G & Hl)|(Hd & f1 & tb & HP & HK & Hn)]; cbn [Z.eqb].
  { apply file_bad; [done| |by left]. right. left. rw /short. pose proof (prog_size_nonneg v p). rw /npages. dlia. }
  destruct (Z.eqb_spec d 0); [done|]. pose proof (loading_start _ _ _ _ _ _ HP HK Hn) as HL.
  destruct (load_segments_ok kend kdata sb devsw kend_range kdata_range y ip ∅ v O Hf bytes (k_mem (y_k y)) f0 d (Z.to_nat (elf_phnum (file_elf v p))) ltac:(apply memory)
    (s32 (elf_phoff (file_elf v p))) t1 k1 f1 tb 0 (λ _, 0) R1 HL) as (res & t2 & k2 & E3 & R3 & H3). mgo E3. destruct res as [sz|].
  - destruct H3 as (Hsz & Hsg & free & tabs & HL'). by eapply file_loaded.
  - destruct H3 as (Hw & free & tabs & HP'). apply file_bad; [done| |right; by exists free, tabs]. destruct Hw as [Hw|Hw]; [left; by intros []|right; left]. fold p in Hw. rw /short /prog_size /on_headers. lia.
Qed.
End file.

Lemma runs_same v p q path argv f0 otabs y y' : same_file p q → runs v p path argv f0 otabs y y' → runs v q path argv f0 otabs y y'.
Proof.
  intros Hs (Hc & Hfit & d & free & tabs & Hy & HI & Ho & Hp & Hb & Hst). rw /runs. rw (prog_size_same v p q Hs) in Hfit, Hy, Hp, Hb, Hst. rw (elf_same v p q Hs) in Hy.
  split; [done|]. split; [done|]. exists d, free, tabs. split; [done|]. split; [done|]. split; [done|]. split; [done|]. split; [|done]. intros a Ha. rw -(prog_byte_same v p q Hs). by apply Hb.
Qed.
Lemma refused_same v p q argv f0 : same_file p q → refused v p argv f0 → refused v q argv f0.
Proof. intros Hs. by rw /refused (prog_size_same v p q Hs) (runnable_same v p q Hs). Qed.

(** C7. [exec] either runs the program or leaves no trace.  The path is resolved on the
    disk.  The call fails for a path that denotes no inode and for a file that is not a
    loadable ELF file; otherwise it can fail only for more than [MAXARG] arguments, for
    arguments that do not fit into a page, or for lack of memory.  It then returns -1, the
    process is as it was, and every page taken is free again with no other page changed.
    When the call returns 0, the process runs the new program: each byte of its memory
    below the stack is the byte that the last segment covering it has in the file, or zero;
    the page above it is out of reach; the stack has [argc], [argv] and the strings as a C
    program expects them; the stack pointer, entry point, size and name are the new
    program's; and the pages of the old image are free.  Either way the file system is left
    idle, with the disk's contents as they were, all inodes unlocked and no reference
    gained or lost. *)
Theorem exec_runs_program v y f0 otabs cwd path argv :
  st_idle (f_st (y_fs y)) v → tree sb v → (∀ p pos, 0 ≤ fbyte v p pos < 256) →
  cache sb v None (y_fs y) → spare (y_fs y) → node (y_fs y) (f_cwd (y_fs y)) cwd → live sb v cwd →
  vm_inv kend (y_k y) f0 (y_pgdir y) otabs → Forall arg_ok argv →
  let found := (walk sb (Datatypes.S (length path)) v false (start path cwd) path []).1 in
  (∀ n, found = Some n → i_type (dnode sb v n) ≠ T_DEV) →
  ∃ r y', exec kend kdata devsw path argv y = Ok (r, y') ∧ restored v (y_fs y) (y_fs y') ∧
    match found with
    | None => r = -1 ∧ undone f0 y y'
    | Some n =>
        let p := dnode sb v n in
        r = -1 ∧ undone f0 y y' ∧ refused v p argv f0 ∨ r = 0 ∧ runnable v p ∧ runs v p path argv f0 otabs y y'
    end.
Proof.
  intros Id T Hb C Sp N L HI Ha found Hdev. pose proof few as Hf. destruct (st_begin_ok _ _ Id) as (t0 & E0 & R0). set (s0 := set_st t0 (y_fs y)).
  assert (stands sb v ∅ s0 (one None) s0) as St by (split; [by apply cache_st|done|apply refs_refl]).
  destruct (namex_ok sb devsw v ∅ s0 T Hf (ca_ref _ _ _ _ C) false path cwd Sp St ltac:(by destruct N) L) as (r & s1 & E1 & St1 & H1). fold found in H1.
  rw /exec /begin_tx. mgo (fs_st_lift st_begin_op y tt t0 E0). fold s0. assert (namei devsw path s0 = Ok (r, s1)) as E1' by (rw /namei; by mgo E1).
  mgo (fs_lift _ (set_yfs s0 y) _ _ E1'). destruct found as [n|], r as [ip|]; try done.
  - destruct H1 as [Hn Hl]. destruct (enter sb v ∅ s0 T Hf _ ip n s1 St1 Hn Hl) as (s2 & E2 & In). mgo (fs_lift _ (set_yfs s1 (set_yfs s0 y)) _ _ E2).
    pose proof (in_file _ _ _ _ _ _ _ _ In) as Hs. assert (same_file (f_inode s2 !!! ip) (dnode sb v n)) as Hs' by (destruct Hs as (?&?&?&?); by split_and!).
    destruct (exec_file_ok v (y_fs y) t0 (set_yfs s2 y) ip n f0 otabs T In Hl (Hdev n eq_refl) (Hb _) HI path argv Ha) as (r & y' & E & Hr & H).
    exists r, y'. split; [exact E|]. split; [done|]. cbn zeta. destruct H as [(-> & Hu & Hw)|(-> & Hru & Hrun)]; [left|right]; (split; [done|]).
    + split; [exact Hu|]. by apply (refused_same v _ _ argv f0 Hs').
    + split; [by apply (runnable_same v _ _ Hs')|]. by apply (runs_same v _ _ path argv f0 otabs y y' Hs').
  - destruct (finish v t0 (set_yfs s1 y) (y_fs y) St1) as (s' & E2 & Hr). mgo E2. eexists _, _. split; [done|]. split; [exact Hr|]. split; [done|].
    split; [by destruct y|]. by eapply gave_back_refl.
Qed.
End exec.

(** ** An example *)

#[local] Instance run_store : TxStore lstate := log_txstore 64 2 30.
(** The process runs on the example disk of [FsPath], in the memory of [VmCopy]'s example. *)
Abbreviation run_state s k d := (@mkY lstate unit (tr_state s) [] ∅ k [] false [] 4096 d 0 0 []).
Definition run_argv : list (list Z) := [ [105; 110; 105; 116]; [45; 120] ].
Definition run_file : inode := tr_init_node.

Definition byte_ok (b : Z) : bool := (0 <=? b) && (b <? 256).
Lemma forallb_total {A} `{!Inhabited A} (f : A → bool) l i : forallb f l = true → f inhabitant = true → f (l !!! i) = true.
Proof.
  intros H Hi. destruct (l !! i) as [x|] eqn:E; rewrite -> list_lookup_total_alt, E; [|done].
  rewrite -> List.forallb_forall in H. apply H, list_elem_of_In. by eapply list_elem_of_lookup_2.
Qed.
Lemma run_bytes p pos : 0 ≤ fbyte tr_view p pos < 256.
Proof.
  assert (forallb (forallb byte_ok) tr_disk = true) as H by by vm_compute.
  assert (forallb byte_ok (fdata tr_view p (pos / BSIZE)) = true) as Hb.
  { rw /fdata. destruct (_ =? 0); [by vm_compute|]. exact (forallb_total (forallb byte_ok) tr_disk _ H eq_refl). }
  pose proof (forallb_total byte_ok _ (Z.to_nat (pos mod BSIZE)) Hb eq_refl) as Hx. rw /byte_ok in Hx. rw /fbyte. lia.
Qed.
Lemma run_elf : file_elf tr_view run_file = mkElf ELF_MAGIC 0 52 1.
Proof. by vm_compute. Qed.
Lemma run_hdr : hdr tr_view run_file 52 = mkPh 1 84 0 4 8.
Proof. by vm_compute. Qed.
Lemma run_size : prog_size tr_view run_file = 8.
Proof. by vm_compute. Qed.
Lemma run_runnable : runnable tr_view run_file.
Proof.
  split; [by vm_compute|by rw run_elf| |by rw run_size]. rw /on_headers run_elf. change (segs_ok tr_view run_file 1 52 0). cbn [segs_ok]. rw run_hdr.
  split; [by vm_compute|]. split; [|done]. intros _. split; [by vm_compute..|right; by vm_compute].
Qed.

Lemma run_args : Forall arg_ok run_argv.
Proof. rw /run_argv. repeat first [apply Forall_nil_2|apply Forall_cons_2|apply conj]; by vm_compute. Qed.

Lemma exec_runs_program_witness :
  ∃ s k d y', exec example_kend example_kdata no_dev tr_path run_argv (run_state s k d) = Ok (0, y') ∧ y_sz y' = 12288 ∧
    ∃ tabs, ubyte (k_mem (y_k y')) tabs 0 = 235.
Proof.
  destruct (idle_of tr_disk tr_formatted) as (s & Id). destruct example_process as (k & free & d & tabs & HI & Hl & _). exists s, k, d.
  destruct (exec_runs_program example_kend example_kdata ex_sb no_dev example_kend_range example_kdata_range tr_view (run_state s k d) free tabs 1 tr_path run_argv) as (r & y' & E & _ & H);
    [exact Id|exact tr_tree|exact run_bytes|apply tr_cached|apply tr_spare|apply tr_at_root|exact tr_root_live|exact HI|exact run_args| |].
  { intros n. rewrite -> tr_walk. intros [= <-]. by rewrite -> tr_node2. }
  rewrite -> tr_walk in H. cbv zeta in H. rewrite -> tr_node2 in H. fold run_file in H. destruct H as [(_ & _ & Hw)|(-> & _ & _ & _ & d' & f' & t' & Hy & _ & _ & _ & Hb & _)].
  { exfalso. rw /refused /short run_size in Hw. destruct Hw as [Hw|[Hw|[Hw|Hw] ] ]; [by apply Hw, run_runnable|change (npages 8) with 1 in Hw; lia|by vm_compute in Hw|by vm_compute in Hw]. }
  exists y'. split; [exact E|]. split; [rewrite -> Hy, run_size; reflexivity|]. exists t'. rewrite -> Hb; [by vm_compute|]. rewrite -> run_size. by vm_compute.
Defined.
