(* ===== verification/FdSpec.v ===== *)
(** * Descriptors across the file system calls (sysfile.c, file.c, exec.c)

    A process's descriptors and the reference counts of the table of open files, through
    every call of sysfile.c: no call loses a reference or takes one that is not its own, an
    open descriptor always names a file in use, and a call that fails leaves the table, the
    descriptors and the program's image as they were. *)

From S2P Require Import Prelude Params Bytes KMemory Kalloc Vm Proc Pipe Bio Log Tx Fs FsSpec FsFile Files File FileSpec Syscall Sysfile Exec.

Section calls.
Context {S D : Type} `{!TxStore S}.
Context (kend kdata : Z) (devsw : Z → devops (@fstate S D)).
Abbreviation ystate := (@ystate S D).

(** The entries of [syscalls] that sysfile.c defines. *)
Definition file_calls (num : Z) : option (M ystate Z) :=
  if num =? 4 then Some (sys_pipe kend)
  else if num =? 5 then Some (sys_read devsw)
  else if num =? 7 then Some (sys_exec kend kdata devsw)
  else if num =? 8 then Some sys_fstat
  else if num =? 9 then Some (sys_chdir devsw)
  else if num =? 10 then Some sys_dup
  else if num =? 15 then Some (sys_open kend devsw)
  else if num =? 16 then Some (sys_write devsw)
  else if num =? 17 then Some (sys_mknod devsw)
  else if num =? 18 then Some (sys_unlink devsw)
  else if num =? 19 then Some (sys_link devsw)
  else if num =? 20 then Some (sys_mkdir devsw)
  else if num =? 21 then Some (sys_close kend)
  else None.

(** ** What is preserved *)

(** The counts and types of the open files, the descriptors, and the program's image. *)
Definition tab (y : ystate) : list (Z * fdtype) := (λ f, (fl_ref f, fl_type f)) <$> y_file y.
Definition image (y : ystate) : Z * Z * Z * Z * list Z := (y_sz y, y_pgdir y, y_esp y, y_eip y, y_name y).
Definition vw (y : ystate) := (tab y, y_ofile y, image y).

Definition refs (l : list (Z * fdtype)) (f : nat) : Z := from_option fst 0 (l !! f).
Definition fds (o : list (option nat)) (f : nat) : Z := Z.of_nat (length (filter (λ x, x = Some f) o)).
(** The references that other processes hold. *)
Definition others (y : ystate) (f : nat) : Z := refs (tab y) f - fds (y_ofile y) f.

(** A free file has no type, and no file has fewer references than descriptors. *)
Record fd_ok (l : list (Z * fdtype)) (o : list (option nat)) : Prop := {
  fo_free f r t : l !! f = Some (r, t) → 0 ≤ r ∧ (r = 0 → t = FD_NONE);
  fo_refs f : fds o f ≤ refs l f;
}.
Definition fds_ok (y : ystate) : Prop := fd_ok (tab y) (y_ofile y).

(** ** Operations that change none of it *)

Definition keeps {A} (m : M ystate A) : Prop := ∀ y a y', m y = Ok (a, y') → vw y' = vw y.

Lemma keeps_ret {A} (a : A) : keeps (mret a).
Proof. by intros y b y' [= <- <-]. Qed.
Lemma keeps_bind {A B} (m : M ystate A) (k : A → M ystate B) : keeps m → (∀ a, keeps (k a)) → keeps (m ≫= k).
Proof. intros Hm Hk y b y2 (a & y1 & E1 & E2)%bind_inv. by rw (Hk a _ _ _ E2) (Hm _ _ _ E1). Qed.
Lemma keeps_gets {A} (f : ystate → A) : keeps (gets f).
Proof. by intros y b y' [= <- <-]. Qed.
Lemma keeps_panic {A} msg : keeps (A := A) (panic msg).
Proof. by intros y b y'. Qed.
Lemma keeps_sleeps {A} : keeps (A := A) sleeps.
Proof. by intros y b y'. Qed.
Lemma keeps_fs {A} (m : M (@fstate S D) A) : keeps (fs m).
Proof. intros y a y'. rw /fs /lift. case_match; [|done..]. case_match. by intros [= <- <-]. Qed.
Lemma keeps_km {A} (m : M kstate A) : keeps (km m).
Proof. intros y a y'. rw /km /lift. case_match; [|done..]. case_match. by intros [= <- <-]. Qed.
Lemma keeps_when b m : keeps m → keeps (when b m).
Proof. intros Hm. destruct b; [done|apply keeps_ret]. Qed.
Lemma keeps_modify f : (∀ y, vw (f y) = vw y) → keeps (modify f).
Proof. by intros Hf y b y' [= <- <-]. Qed.
Lemma keeps_updf f g : (∀ x, fl_ref (g x) = fl_ref x ∧ fl_type (g x) = fl_type x) → keeps (updf f g).
Proof.
  intros Hg. apply keeps_modify. intros y. rw /vw. do 2 f_equal. rw /tab /=.
  apply list_eq. intros i. rw !list_lookup_fmap. destruct (decide (f = i)) as [->|Hn]; [|by rw list_lookup_alter_ne].
  rw list_lookup_alter_eq. destruct (y_file y !! i) as [x|]; [|done]. cbn. by destruct (Hg x) as [-> ->].
Qed.
Lemma keeps_uload a : keeps (uload a).
Proof. intros y b y'. rw /uload. case_match; [|done]. case_match. by intros [= <- <-]. Qed.
Lemma keeps_ustore a b : keeps (ustore a b).
Proof. intros y c y'. rw /ustore. case_match; [|done]. case_match. case_match; [done|]. by intros [= <- <-]. Qed.
Lemma keeps_get_pipe pg : keeps (get_pipe pg).
Proof. intros y b y'. rw /get_pipe. case_match; [|done]. by intros [= <- <-]. Qed.

Create HintDb keeps.
Hint Resolve keeps_ret keeps_gets keeps_panic keeps_sleeps keeps_fs keeps_km keeps_uload keeps_ustore keeps_get_pipe : keeps.
Ltac kp :=
  repeat first
    [ solve [eauto 2 with keeps]
    | apply keeps_bind; [|intros ?]
    | apply keeps_when
    | apply keeps_updf; done
    | apply keeps_modify; done
    | progress cbn beta iota zeta
    | match goal with |- keeps (match ?x with _ => _ end) => destruct x end ].

Lemma keeps_uloads n : ∀ a, keeps (uloads a n).
Proof. induction n as [|n IH]; intros a; cbn; kp. Qed.
Lemma keeps_ustores bs : ∀ a, keeps (ustores a bs).
Proof. induction bs as [|b bs IH]; intros a; cbn; kp. Qed.
Lemma keeps_load32 a : keeps (um_load32 a).
Proof. rw /um_load32. cbn. kp. Qed.
Hint Resolve keeps_uloads keeps_ustores keeps_load32 : keeps.
Lemma keeps_fetchint a : keeps (fetchint a).
Proof. rw /fetchint. kp. Qed.
Lemma keeps_fetchstr_loop k : ∀ a ep acc, keeps (fetchstr_loop k a ep acc).
Proof. induction k as [|k IH]; intros a ep acc; cbn; kp. Qed.
Hint Resolve keeps_fetchint keeps_fetchstr_loop : keeps.
Lemma keeps_fetchstr a : keeps (fetchstr a).
Proof. rw /fetchstr. kp. Qed.
Hint Resolve keeps_fetchstr : keeps.
Lemma keeps_argint n : keeps (argint n).
Proof. rw /argint. kp. Qed.
Hint Resolve keeps_argint : keeps.
Lemma keeps_argptr n z : keeps (argptr n z).
Proof. rw /argptr. kp. Qed.
Lemma keeps_argstr n : keeps (argstr n).
Proof. rw /argstr. kp. Qed.
Lemma keeps_argfd n : keeps (argfd n).
Proof. rw /argfd /ofile. kp. Qed.
Hint Resolve keeps_argptr keeps_argstr keeps_argfd : keeps.
Lemma keeps_orfail {A} (m : M ystate (option A)) k : keeps m → (∀ a, keeps (k a)) → keeps (orfail m k).
Proof. intros Hm Hk. rw /orfail. kp. Qed.
Lemma keeps_begin_tx : keeps begin_tx.
Proof. apply keeps_fs. Qed.
Lemma keeps_end_tx : keeps end_tx.
Proof. apply keeps_fs. Qed.
Hint Resolve keeps_begin_tx keeps_end_tx : keeps.
Lemma keeps_fail_tx : keeps fail_tx.
Proof. rw /fail_tx. kp. Qed.
Hint Resolve keeps_fail_tx : keeps.
Lemma keeps_close_pipe pg w : keeps (close_pipe kend pg w).
Proof. rw /close_pipe /wake_pipe /set_pipe. apply keeps_bind; [kp|]. intros p. destruct (pipeclose p w) as [ [p' c] free]. kp. Qed.
Lemma keeps_read_pipe pg n : keeps (read_pipe pg n).
Proof. rw /read_pipe /wake_pipe /set_pipe. kp. Qed.
Lemma keeps_write_pipe pg bs : keeps (write_pipe pg bs).
Proof. rw /write_pipe /wake_pipe /set_pipe. kp. Qed.
Hint Resolve keeps_close_pipe keeps_read_pipe keeps_write_pipe : keeps.
Lemma keeps_filestat f : keeps (filestat f).
Proof. rw /filestat /getf. kp. Qed.
Lemma keeps_fileread f n : keeps (fileread devsw f n).
Proof. rw /fileread /getf. kp. Qed.
Lemma keeps_filewrite_round f bs n : keeps (filewrite_round devsw f bs n).
Proof. rw /filewrite_round /getf. kp. Qed.
Hint Resolve keeps_filestat keeps_fileread keeps_filewrite_round : keeps.
Lemma keeps_filewrite_loop k f : ∀ addr i n, keeps (filewrite_loop devsw k f addr i n).
Proof. induction k as [|k IH]; intros addr i n; cbn [filewrite_loop]; kp. Qed.
Hint Resolve keeps_filewrite_loop : keeps.
Lemma keeps_filewrite f addr n : keeps (filewrite devsw f addr n).
Proof. rw /filewrite /getf. kp. Qed.
Hint Resolve keeps_filewrite : keeps.
Ltac kcall := repeat first [apply keeps_orfail; [kp|intros ?] | progress kp].

(** Most calls leave all of it alone. *)
Lemma keeps_sys_read : keeps (sys_read devsw).
Proof. rw /sys_read. kcall. Qed.
Lemma keeps_sys_write : keeps (sys_write devsw).
Proof. rw /sys_write. kcall. Qed.
Lemma keeps_sys_fstat : keeps sys_fstat.
Proof. rw /sys_fstat. kcall. Qed.
Lemma keeps_sys_link : keeps (sys_link devsw).
Proof. rw /sys_link /link_bad. kcall. Qed.
Lemma keeps_sys_unlink : keeps (sys_unlink devsw).
Proof. rw /sys_unlink. kcall. Qed.
Lemma keeps_create_put path t a b : keeps (create_put devsw path t a b).
Proof. rw /create_put. kp. Qed.
Hint Resolve keeps_create_put : keeps.
Lemma keeps_sys_mkdir : keeps (sys_mkdir devsw).
Proof. rw /sys_mkdir. kcall. Qed.
Lemma keeps_sys_mknod : keeps (sys_mknod devsw).
Proof. rw /sys_mknod. kcall. Qed.
Lemma keeps_sys_chdir : keeps (sys_chdir devsw).
Proof. rw /sys_chdir. kcall. Qed.

(** ** Operations that change it *)

(** [y] has the table [l], the descriptors [o] and the image [i]. *)
Definition has (y : ystate) l o i : Prop := vw y = (l, o, i).
Lemma has_parts y l o i : has y l o i → tab y = l ∧ y_ofile y = o ∧ image y = i.
Proof. rw /has /vw. by intros [= -> -> ->]. Qed.
Lemma has_self y : has y (tab y) (y_ofile y) (image y).
Proof. done. Qed.

Section effects.
Context (y : ystate) (l : list (Z * fdtype)) (o : list (option nat)) (i : Z * Z * Z * Z * list Z).
Hypothesis Hy : has y l o i.

Lemma wlp_keeps {A} (m : M ystate A) Q : keeps m → (∀ a y', has y' l o i → Q a y') → wlp m Q y.
Proof. intros Hm HQ a y' E. apply HQ. by rw /has (Hm _ _ _ E). Qed.

Lemma tab_lookup f : l !! f = (λ x, (fl_ref x, fl_type x)) <$> y_file y !! f.
Proof. injection Hy as <- _ _. apply list_lookup_fmap. Qed.
Lemma getf_ref f x : l !! f = Some x → fl_ref (y_file y !!! f) = x.1 ∧ fl_type (y_file y !!! f) = x.2.
Proof.
  rw tab_lookup list_lookup_total_alt. destruct (y_file y !! f) as [z|]; [|done]. by intros [= <-].
Qed.
Lemma getf_none f : l !! f = None → fl_ref (y_file y !!! f) = 0.
Proof. rw tab_lookup list_lookup_total_alt. by destruct (y_file y !! f). Qed.

(** [updf] on a file in the table. *)
Lemma wlp_updf f g x Q : l !! f = Some x →
  (∀ y', has y' (<[f := (fl_ref (g (y_file y !!! f)), fl_type (g (y_file y !!! f)))]> l) o i → Q tt y') → wlp (updf f g) Q y.
Proof.
  intros Hx HQ. apply wlp_modify, HQ. rw tab_lookup in Hx. injection Hy as Hl Ho Hi. rw /has /vw -Ho -Hi. do 2 f_equal. rw -Hl /tab /=.
  apply list_eq. intros j. rw list_lookup_fmap. rw list_lookup_total_alt. destruct (y_file y !! f) as [z|] eqn:Ez; [|done].
  destruct (decide (f = j)) as [->|Hn].
  - rw list_lookup_alter_eq list_lookup_insert_eq; [rw length_fmap; by eapply lookup_lt_Some|]. by rw Ez.
  - rw list_lookup_alter_ne // list_lookup_insert_ne // list_lookup_fmap //.
Qed.

Lemma filealloc_scan_free (fl : list file) : ∀ k f, filealloc_scan fl k = Some f →
  ∃ j x, f = (k + j)%nat ∧ fl !! j = Some x ∧ fl_ref x = 0.
Proof.
  induction fl as [|x fl IH]; intros k f; cbn [filealloc_scan]; [done|]. destruct (Z.eqb_spec (fl_ref x) 0) as [E|_].
  - intros [= <-]. exists 0%nat, x. split; [lia|]. done.
  - intros (j & z & -> & Hj & Hz)%IH. exists (1 + j)%nat, z. split; [lia|]. done.
Qed.
Lemma wlp_filealloc Q :
  (∀ y', has y' l o i → Q None y') →
  (∀ f t y', l !! f = Some (0, t) → has y' (<[f := (1, t)]> l) o i → Q (Some f) y') → wlp filealloc Q y.
Proof.
  intros HN HS. rw /filealloc. apply wlp_bind, wlp_gets. destruct (filealloc_scan (y_file y) 0) as [f|] eqn:E; [|by apply wlp_ret, HN].
  apply filealloc_scan_free in E as (j & x & -> & Hj & Hx). cbn [Nat.add].
  assert (l !! j = Some (0, fl_type x)) as Hl by by rw tab_lookup Hj /= Hx.
  apply wlp_bind. eapply wlp_updf; [done|]. intros y' Hy'. apply wlp_ret. eapply HS; [done|]. cbn in Hy'. by rw (proj2 (getf_ref _ _ Hl)) in Hy'.
Qed.
Lemma wlp_filedup f Q :
  (∀ r t y', l !! f = Some (r, t) → 1 ≤ r → has y' (<[f := (r + 1, t)]> l) o i → Q f y') → wlp (filedup f) Q y.
Proof.
  intros HQ. rw /filedup /getf. apply wlp_bind, wlp_gets. destruct (l !! f) as [ [r t]|] eqn:E; [|by rw getf_none].
  destruct (getf_ref _ _ E) as [Er Et]. rw Er. cbn [fst]. destruct (Z.ltb_spec r 1); [apply wlp_panic|].
  apply wlp_bind. eapply wlp_updf; [done|]. intros y' Hy'. cbn in Hy'. rw Et in Hy'. apply wlp_ret. by eapply HQ.
Qed.
Lemma wlp_fileclose f Q :
  (∀ r t y', l !! f = Some (r, t) → 1 ≤ r →
     has y' (<[f := if 0 <? r - 1 then (r - 1, t) else (0, FD_NONE)]> l) o i → Q tt y') → wlp (fileclose kend f) Q y.
Proof.
  intros HQ. rw /fileclose /getf. apply wlp_bind, wlp_gets. unfold id. destruct (l !! f) as [ [r t]|] eqn:E; [|by rw getf_none].
  destruct (getf_ref _ _ E) as [Er Et]. rw Er Et. cbn [fst snd]. destruct (Z.ltb_spec r 1); [apply wlp_panic|].
  specialize (HQ r t). destruct (0 <? r - 1).
  - eapply wlp_updf; [done|]. intros y' Hy'. cbn in Hy'. rw Et in Hy'. by apply HQ.
  - apply wlp_bind. eapply wlp_updf; [done|]. intros y1 H1. cbn in H1. intros a y' E'. destruct a. apply HQ; [done|lia|].
    rw /has -H1. refine ((_ : keeps _) _ _ _ E'). kp.
Qed.

Lemma fdalloc_scan_free (l0 : list (option nat)) : ∀ k, 0 ≤ k →
  fdalloc_scan l0 k = -1 ∨ ∃ j, fdalloc_scan l0 k = k + Z.of_nat j ∧ l0 !! j = Some None.
Proof.
  induction l0 as [|[f|] l0 IH]; intros k Hk; cbn [fdalloc_scan].
  - by left.
  - destruct (IH (k + 1)) as [E|(j & E & Hj)]; [lia|by left|]. right. exists (Datatypes.S j). split; [lia|]. done.
  - right. exists 0%nat. split; [lia|]. done.
Qed.
Lemma wlp_set_fd fd x Q : (∀ y', has y' l (<[Z.to_nat fd := x]> o) i → Q tt y') → wlp (set_fd fd x) Q y.
Proof. intros HQ. apply wlp_modify, HQ. by injection Hy as <- <- <-. Qed.
Lemma wlp_fdalloc f Q :
  (∀ y', has y' l o i → Q (-1) y') →
  (∀ j y', o !! j = Some None → has y' l (<[j := Some f]> o) i → Q (Z.of_nat j) y') → wlp (fdalloc f) Q y.
Proof.
  intros HN HS. rw /fdalloc. apply wlp_bind, wlp_gets. assert (y_ofile y = o) as -> by by injection Hy.
  destruct (fdalloc_scan_free o 0) as [-> |(j & -> & Hj)]; [lia|by apply wlp_ret, HN|].
  rewrite -> (proj2 (Z.ltb_ge _ _)) by lia. apply wlp_bind, wlp_set_fd. intros y' Hy'. apply wlp_ret. rw Z.add_0_l Nat2Z.id in Hy' |- *. by apply HS.
Qed.
Lemma wlp_argfd n Q :
  (∀ y', has y' l o i → Q None y') →
  (∀ fd f y', 0 ≤ fd → o !! Z.to_nat fd = Some (Some f) → has y' l o i → Q (Some (fd, f)) y') → wlp (argfd n) Q y.
Proof.
  intros HN HS. rw /argfd. apply wlp_bind. apply wlp_keeps; [kp|]. intros [fd|] y' Hy'; [|by apply wlp_ret, HN].
  destruct (Z.ltb_spec fd 0); [by apply wlp_ret, HN|]. cbn [orb]. case_match; [by apply wlp_ret, HN|]. apply wlp_bind, wlp_gets.
  assert (y_ofile y' = o) as -> by by injection Hy'. destruct (o !! Z.to_nat fd) as [ [f|]|] eqn:E; cbn; apply wlp_ret; [by apply HS|by apply HN..].
Qed.
End effects.

(** ** Counting *)

Definition hit (x : option nat) (f : nat) : Z := if decide (x = Some f) then 1 else 0.
Lemma fds_insert o j x z f : o !! j = Some x → fds (<[j := z]> o) f = fds o f - hit x f + hit z f.
Proof.
  intros Hj. rw -{2}(take_drop_middle _ _ _ Hj) insert_take_drop; [by eapply lookup_lt_Some|]. rw /fds /hit !filter_app !filter_cons !length_app.
  repeat case_decide; cbn [length]; lia.
Qed.
Lemma refs_insert l f x g : (f < length l)%nat → refs (<[f := x]> l) g = if decide (f = g) then x.1 else refs l g.
Proof. intros Hf. rw /refs. case_decide; [subst; by rw list_lookup_insert_eq|]. by rw list_lookup_insert_ne. Qed.

(** What a call that returns [r] may do. *)
Record fine (l : list (Z * fdtype)) (o : list (option nat)) (r : Z) l' o' : Prop := {
  fi_ok : fd_ok l' o';
  fi_others f : refs l' f - fds o' f = refs l f - fds o f;
  fi_fail : r = -1 → l' = l ∧ o' = o;
}.
Lemma fine_same l o r : fd_ok l o → fine l o r l o.
Proof. by split. Qed.
(** An insertion into both tables that keeps the balance. *)
Lemma fine_insert l o f r t r' t' j x z v : fd_ok l o → v ≠ -1 → l !! f = Some (r, t) → o !! j = Some x →
  0 ≤ r' → (r' = 0 → t' = FD_NONE) →
  r' - hit z f = r - hit x f → (∀ g, g ≠ f → hit x g = 0 ∧ hit z g = 0) →
  fine l o v (<[f := (r', t')]> l) (<[j := z]> o).
Proof.
  intros [Hf Hr] Hv Hl Ho Hr' Ht Hb Hg. assert (f < length l)%nat by by eapply lookup_lt_Some.
  assert (∀ g, refs (<[f := (r', t')]> l) g - fds (<[j := z]> o) g = refs l g - fds o g) as Hbal.
  { intros g. rw refs_insert // (fds_insert _ _ _ _ _ Ho). case_decide as Hfg; [subst; rw {1}/refs Hl /=; lia|].
    destruct (Hg g) as [-> ->]; [done|]. lia. }
  split; [split|done|done].
  - intros g r0 t0. destruct (decide (f = g)) as [<-|Hn]; [rw list_lookup_insert_eq //; by intros [= <- <-]|]. rw list_lookup_insert_ne //. apply Hf.
  - intros g. specialize (Hbal g). specialize (Hr g). lia.
Qed.
Lemma hit_other f g : g ≠ f → hit (Some f) g = 0.
Proof. intros Hg. rw /hit. by case_decide; simplify_eq. Qed.
Lemma hit_self f : hit (Some f) f = 1.
Proof. rw /hit. by case_decide. Qed.
Lemma hit_none f : hit None f = 0.
Proof. done. Qed.

Definition call_fine (y : ystate) (r : Z) (y' : ystate) : Prop :=
  fine (tab y) (y_ofile y) r (tab y') (y_ofile y') ∧ image y' = image y.
Lemma call_keeps m y : keeps m → fds_ok y → wlp m (call_fine y) y.
Proof. intros Hm Hy r y' E. destruct (has_parts _ _ _ _ (Hm _ _ _ E)) as (Ht & Ho & Hi). rw /call_fine Ht Ho. split; [by apply fine_same|done]. Qed.
Lemma call_has y r y' l o : has y' l o (image y) → fine (tab y) (y_ofile y) r l o → call_fine y r y'.
Proof. intros (Ht & Ho & Hi)%has_parts Hf. by rw /call_fine Ht Ho. Qed.
Lemma wlp_orfail {A} (m : M ystate (option A)) k Q y :
  wlp m (λ x y', match x with None => Q (-1) y' | Some a => wlp (k a) Q y' end) y → wlp (orfail m k) Q y.
Proof. intros Hm. apply wlp_bind. eapply wlp_mono; [exact Hm|]. intros [a|] y' H; [done|by apply wlp_ret]. Qed.

Lemma sys_dup_fine y : fds_ok y → wlp sys_dup (call_fine y) y.
Proof.
  intros Hy. apply wlp_orfail. eapply wlp_argfd; [apply has_self| |].
  - intros y1 H1. eapply call_has; [done|by apply fine_same].
  - intros fd f y1 Hfd Hf H1. cbn [snd]. apply wlp_bind. eapply wlp_fdalloc; [done| |].
    + intros y2 H2. apply wlp_ret. eapply call_has; [done|by apply fine_same].
    + intros j y2 Hj H2. rewrite -> (proj2 (Z.ltb_ge _ _)) by lia. apply wlp_bind. eapply wlp_filedup; [done|].
      intros r t y3 Hl Hr H3. apply wlp_ret. eapply call_has; [done|]. eapply fine_insert; try done; [lia..| |].
      * rw hit_self hit_none. lia.
      * intros g Hg. by rw hit_other.
Qed.
Lemma sys_close_fine y : fds_ok y → wlp (sys_close kend) (call_fine y) y.
Proof.
  intros Hy. apply wlp_orfail. eapply wlp_argfd; [apply has_self| |].
  - intros y1 H1. eapply call_has; [done|by apply fine_same].
  - intros fd f y1 Hfd Hf H1. cbn [fst snd]. apply wlp_bind. eapply wlp_set_fd; [done|]. intros y2 H2. apply wlp_bind. eapply wlp_fileclose; [done|].
    intros r t y3 Hl Hr H3. apply wlp_ret. eapply call_has; [done|].
    destruct (Z.ltb_spec 0 (r - 1)); (eapply fine_insert; try done; [lia..| |]); rw ?hit_self ?hit_none; try lia; intros g Hg; by rw hit_other.
Qed.

(** A file that is allocated and closed again is as it was. *)
Lemma insert_back (l : list (Z * fdtype)) o f t x : fd_ok l o → l !! f = Some (0, t) → <[f := (0, FD_NONE)]> (<[f := x]> l) = l.
Proof. intros [Hf _] Hl. rw list_insert_insert_eq. apply list_insert_id. rw Hl. by destruct (Hf _ _ _ Hl) as [_ ->]. Qed.

Lemma sys_open_fine y : fds_ok y → wlp (sys_open kend devsw) (call_fine y) y.
Proof.
  intros Hy. apply wlp_orfail. apply (wlp_keeps _ _ _ _ (has_self y)); [kp|]. intros [path|] y1 H1; [|eapply call_has; [done|by apply fine_same] ].
  apply wlp_orfail. apply (wlp_keeps _ _ _ _ H1); [kp|]. intros [omode|] y2 H2; [|eapply call_has; [done|by apply fine_same] ].
  apply wlp_bind. apply (wlp_keeps _ _ _ _ H2); [kp|]. intros [] y3 H3. apply wlp_bind. apply (wlp_keeps _ _ _ _ H3); [rw /open_inode; kp|].
  intros [ip|] y4 H4; [|apply (wlp_keeps _ _ _ _ H4); [kp|]; intros r y5 H5; eapply call_has; [done|by apply fine_same] ].
  apply wlp_bind. eapply wlp_filealloc; [done| |].
  { intros y5 H5. apply (wlp_keeps _ _ _ _ H5); [kp|]. intros r y6 H6. eapply call_has; [done|by apply fine_same]. }
  intros f t y5 Hf H5. assert (f < length (tab y))%nat by by eapply lookup_lt_Some. apply wlp_bind. eapply wlp_fdalloc; [done| |].
  - intros y6 H6. cbn [Z.ltb Z.compare]. apply wlp_bind. eapply wlp_fileclose; [done|]. intros r t' y7. rw list_lookup_insert_eq //. intros [= <- <-] _.
    cbn [Z.sub Z.ltb]. rw (insert_back _ _ _ _ _ Hy Hf). intros H7. apply (wlp_keeps _ _ _ _ H7); [kp|]. intros r y8 H8. eapply call_has; [done|by apply fine_same].
  - intros j y6 Hj H6. rewrite -> (proj2 (Z.ltb_ge _ _)) by lia. apply wlp_bind. apply (wlp_keeps _ _ _ _ H6); [kp|]. intros _ y7 H7.
    apply wlp_bind. apply (wlp_keeps _ _ _ _ H7); [kp|]. intros _ y8 H8. assert (<[f := (1, t)]> (tab y) !! f = Some (1, t)) as Hf1 by by apply list_lookup_insert_eq.
    apply wlp_bind. eapply (wlp_updf _ _ _ _ H8); [done|]. intros y9 H9. cbn in H9. rw (proj1 (getf_ref _ _ _ _ H8 _ _ Hf1)) list_insert_insert_eq in H9.
    apply wlp_ret. eapply call_has; [done|]. eapply fine_insert; try done; [lia..| |].
    + rw hit_self hit_none /=. lia.
    + intros g Hg. by rw hit_other.
Qed.

Lemma wlp_pipealloc y Q : fds_ok y →
  (∀ y', has y' (tab y) (y_ofile y) (image y) → Q None y') →
  (∀ f0 f1 t0 t1 y', f0 ≠ f1 → tab y !! f0 = Some (0, t0) → tab y !! f1 = Some (0, t1) →
     has y' (<[f1 := (1, FD_PIPE)]> (<[f0 := (1, FD_PIPE)]> (tab y))) (y_ofile y) (image y) → Q (Some (f0, f1)) y') →
  wlp (pipealloc kend) Q y.
Proof.
  intros Hy HN HS. rw /pipealloc /pipealloc_bad. apply wlp_bind. eapply wlp_filealloc; [apply has_self| |].
  { intros y1 H1. cbn [Z.eqb negb when]. repeat wstep. by apply HN. }
  intros f0 t0 y1 H0 H1. assert (f0 < length (tab y))%nat as Hl0 by by eapply lookup_lt_Some.
  apply wlp_bind. eapply wlp_filealloc; [done| |].
  { intros y2 H2. cbn [Z.eqb negb when]. do 2 wstep. apply wlp_bind. eapply wlp_fileclose; [done|]. intros r t y3. rw list_lookup_insert_eq //. intros [= <- <-] _.
    cbn [Z.sub Z.ltb]. rw (insert_back _ _ _ _ _ Hy H0). intros H3. repeat wstep. by apply HN. }
  intros f1 t1 y2 Hf1 H2. assert (f0 ≠ f1) as Hne by (intros <-; by rw list_lookup_insert_eq in Hf1). rw list_lookup_insert_ne // in Hf1.
  assert (f1 < length (tab y))%nat as Hl1 by by eapply lookup_lt_Some.
  apply wlp_bind. apply (wlp_keeps _ _ _ _ H2); [kp|]. intros p y3 H3. case_match.
  - cbn [Z.eqb negb when]. do 2 wstep. apply wlp_bind. eapply wlp_fileclose; [done|]. intros r t y4.
    rw list_lookup_insert_ne // list_lookup_insert_eq //. intros [= <- <-] _. cbn [Z.sub Z.ltb]. rw list_insert_insert_ne // (insert_back _ _ _ _ _ Hy H0). intros H4.
    apply wlp_bind. eapply wlp_fileclose; [done|]. intros r t y5. rw list_lookup_insert_eq //. intros [= <- <-] _. cbn [Z.sub Z.ltb].
    rw (insert_back _ _ _ _ _ Hy Hf1). intros H5. apply wlp_ret. by apply HN.
  - apply wlp_bind, wlp_gets. apply wlp_bind. apply (wlp_keeps _ _ _ _ H3); [by apply keeps_modify|]. intros _ y4 H4.
    assert (<[f1 := (1, t1)]> (<[f0 := (1, t0)]> (tab y)) !! f0 = Some (1, t0)) as E0 by (rw list_lookup_insert_ne //; by apply list_lookup_insert_eq).
    apply wlp_bind. eapply (wlp_updf _ _ _ _ H4); [done|]. intros y5 H5. cbn in H5.
    rw (proj1 (getf_ref _ _ _ _ H4 _ _ E0)) list_insert_insert_ne // list_insert_insert_eq in H5.
    assert (<[f1 := (1, t1)]> (<[f0 := (1, FD_PIPE)]> (tab y)) !! f1 = Some (1, t1)) as E1 by (apply list_lookup_insert_eq; by rw length_insert).
    apply wlp_bind. eapply (wlp_updf _ _ _ _ H5); [done|]. intros y6 H6. cbn in H6.
    rw (proj1 (getf_ref _ _ _ _ H5 _ _ E1)) list_insert_insert_eq in H6. apply wlp_ret. by eapply HS.
Qed.

Lemma fine_trans l1 o1 v1 l2 o2 v l3 o3 : v ≠ -1 → fine l1 o1 v1 l2 o2 → fine l2 o2 v l3 o3 → fine l1 o1 v l3 o3.
Proof. intros Hv [_ H1 _] [Hk H2 _]. split; [done| |done]. intros f. by rw H2 H1. Qed.

(** Both ends of a new pipe are closed again. *)
Lemma wlp_close_both y0 y f0 f1 t0 t1 Q : fds_ok y0 → f0 ≠ f1 → tab y0 !! f0 = Some (0, t0) → tab y0 !! f1 = Some (0, t1) →
  has y (<[f1 := (1, FD_PIPE)]> (<[f0 := (1, FD_PIPE)]> (tab y0))) (y_ofile y0) (image y0) →
  (∀ y', has y' (tab y0) (y_ofile y0) (image y0) → Q (-1) y') →
  wlp (fileclose kend f0 ;; fileclose kend f1 ;; mret (-1)) Q y.
Proof.
  intros Hok Hne H0 H1 Hy HQ. assert (f0 < length (tab y0))%nat by by eapply lookup_lt_Some. assert (f1 < length (tab y0))%nat by by eapply lookup_lt_Some.
  apply wlp_bind. eapply wlp_fileclose; [done|]. intros r t y1. rw list_lookup_insert_ne // list_lookup_insert_eq //. intros [= <- <-] _. cbn [Z.sub Z.ltb].
  rw list_insert_insert_ne // (insert_back _ _ _ _ _ Hok H0). intros Hy1. apply wlp_bind. eapply wlp_fileclose; [done|]. intros r t y2.
  rw list_lookup_insert_eq //. intros [= <- <-] _. cbn [Z.sub Z.ltb]. rw (insert_back _ _ _ _ _ Hok H1). intros Hy2. apply wlp_ret. by apply HQ.
Qed.

Lemma sys_pipe_fine y : fds_ok y → wlp (sys_pipe kend) (call_fine y) y.
Proof.
  intros Hy. apply wlp_orfail. apply (wlp_keeps _ _ _ _ (has_self y)); [kp|]. intros [fd|] y1 H1; [|eapply call_has; [done|by apply fine_same] ].
  destruct (has_parts _ _ _ _ H1) as (Ht1 & Ho1 & Hi1). apply wlp_orfail. eapply wlp_pipealloc; [rw /fds_ok Ht1 Ho1; exact Hy|..]; rw Ht1 Ho1 Hi1.
  { intros y2 H2. eapply call_has; [done|by apply fine_same]. }
  intros f0 f1 t0 t1 y2 Hne H0 H1' H2. cbn [fst snd]. apply wlp_bind. eapply wlp_fdalloc; [done| |].
  { intros y3 H3. cbn [Z.ltb Z.compare Z.leb]. wstep. wstep. cbn [orb when]. wstep. wstep. eapply wlp_close_both; [done..|]. intros y4 H4. eapply call_has; [done|by apply fine_same]. }
  intros j y3 Hj H3. rewrite -> (proj2 (Z.ltb_ge _ _)) by lia. rewrite -> (proj2 (Z.leb_le _ _)) by lia. assert (j < length (y_ofile y))%nat by by eapply lookup_lt_Some.
  apply wlp_bind. eapply wlp_fdalloc; [done| |].
  - intros y4 H4. cbn [Z.ltb Z.compare orb when]. apply wlp_bind. eapply wlp_set_fd; [done|]. intros y5 H5.
    rw Nat2Z.id list_insert_insert_eq (list_insert_id (y_ofile y)) // in H5. eapply wlp_close_both; [done..|]. intros y6 H6. eapply call_has; [done|by apply fine_same].
  - intros k y4 Hk H4. rewrite -> (proj2 (Z.ltb_ge _ _)) by lia. cbn [orb]. apply wlp_bind. apply (wlp_keeps _ _ _ _ H4); [kp|]. intros _ y5 H5.
    apply wlp_bind. apply (wlp_keeps _ _ _ _ H5); [kp|]. intros _ y6 H6. apply wlp_ret. eapply call_has; [done|].
    assert (fine (tab y) (y_ofile y) 0 (<[f0 := (1, FD_PIPE)]> (tab y)) (<[j := Some f0]> (y_ofile y))) as HF.
    { eapply fine_insert; try done; [rw hit_self hit_none; lia|]. intros g Hg. by rw hit_other. }
    eapply fine_trans; [done|exact HF|]. eapply fine_insert; try done; [apply HF|by rw list_lookup_insert_ne|rw hit_self hit_none; lia|].
    intros g Hg. by rw hit_other.
Qed.

(** ** exec *)

Lemma keeps_readi_to ip dst off n : keeps (readi_to devsw ip dst off n).
Proof. rw /readi_to. kp. Qed.
Hint Resolve keeps_readi_to : keeps.
Lemma keeps_loaduvm_loop ip k : ∀ pgdir addr off j sz, keeps (loaduvm_loop (λ A, km) (readi_to devsw ip) k pgdir addr off j sz).
Proof. induction k as [|k IH]; intros pgdir addr off j sz; cbn [loaduvm_loop]; kp. Qed.
Lemma keeps_loaduvm ip pgdir addr off sz : keeps (loaduvm (λ A, km) (readi_to devsw ip) pgdir addr off sz).
Proof. rw /loaduvm. case_match; [kp|]. apply keeps_loaduvm_loop. Qed.
Hint Resolve keeps_loaduvm : keeps.
Lemma keeps_load_segments ip pgdir k : ∀ off sz, keeps (load_segments kend devsw ip pgdir k off sz).
Proof. induction k as [|k IH]; intros off sz; cbn [load_segments]; kp. Qed.
Lemma keeps_copy_out pgdir va bs : keeps (copy_out pgdir va bs).
Proof. rw /copy_out. kp. Qed.
Hint Resolve keeps_load_segments keeps_copy_out : keeps.
Lemma keeps_push_args pgdir argv : ∀ sp argc ps, keeps (push_args pgdir sp argc argv ps).
Proof. induction argv as [|a argv IH]; intros sp argc ps; cbn [push_args]; kp. Qed.
Lemma keeps_fetch_argv k : ∀ u acc, keeps (fetch_argv k u acc).
Proof. induction k as [|k IH]; intros u acc; cbn [fetch_argv]; kp. Qed.
Hint Resolve keeps_push_args keeps_fetch_argv : keeps.
Lemma keeps_exec_bad pgdir ip : keeps (exec_bad kend pgdir ip).
Proof. rw /exec_bad. kp. Qed.
Hint Resolve keeps_exec_bad : keeps.
Definition exec_fine (y : ystate) (path : list Z) (r : Z) (y' : ystate) : Prop :=
  tab y' = tab y ∧ y_ofile y' = y_ofile y ∧
  (r = -1 ∧ image y' = image y ∨
   r = 0 ∧ y_pgdir y' ≠ 0 ∧ y_name y' = copy_name (y_name y) (last_elem path path)).
Lemma exec_fails y y1 path (m : M ystate unit) : has y1 (tab y) (y_ofile y) (image y) → keeps m → wlp (m ;; mret (-1)) (exec_fine y path) y1.
Proof.
  intros H1 Hm. apply wlp_bind. apply (wlp_keeps _ _ _ _ H1); [done|]. intros _ y2 (? & ? & ?)%has_parts. apply wlp_ret. split; [done|]. split; [done|]. by left.
Qed.
Lemma exec_bad_fine y y1 path pgdir ip : has y1 (tab y) (y_ofile y) (image y) → wlp (exec_bad kend pgdir ip) (exec_fine y path) y1.
Proof.
  intros H1. rw /exec_bad. apply wlp_bind. apply (wlp_keeps _ _ _ _ H1); [kp|]. intros _ y2 H2. apply exec_fails; [done|]. kp.
Qed.
Lemma exec_stack_fine y y1 path argv pgdir sz entry : has y1 (tab y) (y_ofile y) (image y) →
  wlp (exec_stack kend path argv pgdir sz entry) (exec_fine y path) y1.
Proof.
  intros K1. rw /exec_stack. apply wlp_bind. apply (wlp_keeps _ _ _ _ K1); [kp|]. intros z y2 K2. case_match; [by apply exec_bad_fine|].
  apply wlp_bind. apply (wlp_keeps _ _ _ _ K2); [kp|]. intros _ y3 K3. apply wlp_bind. apply (wlp_keeps _ _ _ _ K3); [kp|].
  intros [ [sp ps]|] y4 K4; [|by apply exec_bad_fine]. apply wlp_bind. apply (wlp_keeps _ _ _ _ K4); [kp|]. intros r y5 K5.
  case_match; [by apply exec_bad_fine|]. rw /exec_commit. apply wlp_bind, wlp_gets, wlp_bind, wlp_modify. destruct (Z.eqb_spec pgdir 0) as [|Hp]; [apply wlp_panic|].
  apply wlp_bind. apply wlp_keeps with (1 := has_self _); [kp|]. intros _ y6 (Ht & Ho & Hi)%has_parts. apply wlp_ret.
  destruct (has_parts _ _ _ _ K5) as (Ht5 & Ho5 & Hi5). split; [by rw Ht -Ht5|]. split; [by rw Ho -Ho5|]. right. split; [done|].
  injection Hi as _ Hpg _ _ Hn. injection Hi5 as _ _ _ _ Hn5. by rw Hpg Hn /= Hn5.
Qed.
Lemma exec_all_fine y path argv : wlp (exec kend kdata devsw path argv) (exec_fine y path) y.
Proof.
  rw /exec. apply wlp_bind. apply (wlp_keeps _ _ _ _ (has_self y)); [kp|]. intros _ y1 K1. apply wlp_bind. apply (wlp_keeps _ _ _ _ K1); [kp|].
  intros [ip|] y2 K2; [|apply exec_fails; [done|kp] ]. apply wlp_bind. apply (wlp_keeps _ _ _ _ K2); [kp|]. intros _ y3 K3. rw /exec_file.
  apply wlp_bind. apply (wlp_keeps _ _ _ _ K3); [kp|]. intros r y4 K4. case_match; [by apply exec_bad_fine|]. case_match; [by apply exec_bad_fine|].
  apply wlp_bind. apply (wlp_keeps _ _ _ _ K4); [kp|]. intros pgdir y5 K5. case_match; [by apply exec_bad_fine|].
  apply wlp_bind. apply (wlp_keeps _ _ _ _ K5); [kp|]. intros [sz|] y6 K6; [|by apply exec_bad_fine].
  apply wlp_bind. apply (wlp_keeps _ _ _ _ K6); [kp|]. intros _ y7 K7. apply wlp_bind. apply (wlp_keeps _ _ _ _ K7); [kp|]. intros _ y8 K8. by apply exec_stack_fine.
Qed.

(** The outcome of any call. *)
Definition any_fine (num : Z) (y : ystate) (r : Z) (y' : ystate) : Prop :=
  fine (tab y) (y_ofile y) r (tab y') (y_ofile y') ∧ (r = -1 ∨ num ≠ 7 → image y' = image y).
Lemma any_call num m y : wlp m (call_fine y) y → wlp m (any_fine num y) y.
Proof. intros Hm. eapply wlp_mono; [exact Hm|]. intros r y' [H1 H2]. by split. Qed.
Lemma sys_exec_fine y : fds_ok y → wlp (sys_exec kend kdata devsw) (any_fine 7 y) y.
Proof.
  intros Hy. assert (∀ y', has y' (tab y) (y_ofile y) (image y) → any_fine 7 y (-1) y') as Hbad.
  { intros y' (Ht & Ho & Hi)%has_parts. rw /any_fine Ht Ho. split; [by apply fine_same|done]. }
  apply wlp_orfail. apply (wlp_keeps _ _ _ _ (has_self y)); [kp|]. intros [path|] y1 K1; [|by apply Hbad].
  apply wlp_orfail. apply (wlp_keeps _ _ _ _ K1); [kp|]. intros [uargv|] y2 K2; [|by apply Hbad].
  apply wlp_orfail. apply (wlp_keeps _ _ _ _ K2); [kp|]. intros [argv|] y3 K3; [|by apply Hbad].
  eapply wlp_mono; [apply exec_all_fine|]. intros r y' (Ht & Ho & Hr). destruct (has_parts _ _ _ _ K3) as (Ht3 & Ho3 & Hi3).
  rw /any_fine Ht Ho Ht3 Ho3. split; [by apply fine_same|]. destruct Hr as [ [-> Hi]|[-> _] ]; [by rw Hi Hi3|]. intros [?|?]; done.
Qed.
Lemma file_calls_fine num m y : file_calls num = Some m → fds_ok y → wlp m (any_fine num y) y.
Proof.
  intros Em Hy. rw /file_calls in Em.
  repeat match type of Em with (if ?n =? ?k then _ else _) = _ => destruct (Z.eqb_spec n k) as [->|_]; [injection Em as <-|] end; [..|done];
    try (by apply sys_exec_fine); apply any_call.
  - by apply sys_pipe_fine.
  - apply call_keeps; [apply keeps_sys_read|done].
  - apply call_keeps; [apply keeps_sys_fstat|done].
  - apply call_keeps; [apply keeps_sys_chdir|done].
  - by apply sys_dup_fine.
  - by apply sys_open_fine.
  - apply call_keeps; [apply keeps_sys_write|done].
  - apply call_keeps; [apply keeps_sys_mknod|done].
  - apply call_keeps; [apply keeps_sys_unlink|done].
  - apply call_keeps; [apply keeps_sys_link|done].
  - apply call_keeps; [apply keeps_sys_mkdir|done].
  - by apply sys_close_fine.
Qed.

(** ** The properties *)

(** C11. Well-formedness of descriptors and open files: every file has at least as many
    references as the process has descriptors for it, and a file without references has no
    type.  Every call of sysfile.c that returns keeps it, whatever its arguments and whatever
    fails in it; the references that other processes hold to any file are neither lost nor
    increased; and only [exec] changes the program's image. *)
Theorem file_calls_keep_references num m y r y' :
  file_calls num = Some m → fds_ok y → m y = Ok (r, y') →
  fds_ok y' ∧ (∀ f, others y' f = others y f) ∧ (num ≠ 7 → image y' = image y).
Proof.
  intros Em Hy E. destruct (file_calls_fine num m y Em Hy r y' E) as [ [H1 H2 _] Hi]. split; [done|]. split; [done|]. intros Hn. apply Hi. by right.
Qed.

End calls.

(** ** An example *)

#[local] Instance fd_tx : TxStore lstate := log_txstore 64 2 30.
(** A page table that maps the first page, whose words are 0: the arguments of the call. *)
Definition ex_mem : mem :=
  st32 (st32 ∅ 0x80400000 (0x401000 + 7)) 0x80401000 (0x402000 + 7).
Definition ex_proc (s : lstate) (n : Z) (o : list (option nat)) : @ystate lstate unit :=
  mkY (mkFs s ex_sb [] tt 1 0) [mkFile FD_PIPE n true true 0 0 0; mkFile FD_NONE 0 false false 0 0 0] ∅
    (mkKstate ex_mem 0 false false) [] false o 4096 0x80400000 0x800 0 [].
Lemma ex_proc_ok s n o : fds o 0 ≤ n → 1 ≤ n → fds o 1 = 0 → (∀ f, fds o (2 + f) = 0) → fds_ok (ex_proc s n o).
Proof.
  intros H0 Hn H1 H2. split.
  - intros [|[|f] ] r t; cbn; [|intros [= <- <-]; done|done]. intros [= <- <-]. lia.
  - intros [|[|f] ]; [done|by rw H1|]. by rw H2.
Qed.

Lemma file_calls_keep_references_witness :
  ∃ s y', sys_dup (ex_proc s 1 (Some 0%nat :: replicate 15 None)) = Ok (1, y') ∧
    others y' 0 = 0 ∧ y_ofile y' !! 1%nat = Some (Some 0%nat).
Proof.
  destruct ex_idle as (s & _). exists s. set (y := ex_proc s 1 _).
  assert (∃ y', sys_dup y = Ok (1, y') ∧ y_ofile y' !! 1%nat = Some (Some 0%nat)) as (y' & E & Eo) by (eexists; split; by vm_compute).
  exists y'. split; [exact E|]. split; [|exact Eo].
  destruct (file_calls_keep_references 0 0 no_dev 10 sys_dup y 1 y') as (_ & H & _).
  - reflexivity.
  - by apply ex_proc_ok.
  - exact E.
  - rw H. by vm_compute.
Defined.

