(* ===== verification/Trap.v ===== *)
(** * Process system calls and traps (sysproc.c, trap.c)

    The system calls on processes, the clock, and [trap], which every interrupt and
    system call enters.  A call that switches to the scheduler ends with the interrupt
    state [sched] saved; what runs when the process is resumed is an operation of its
    own, as in Proc. *)

From S2P Require Import Prelude Params KMemory Spinlock Proc Syscall.

(** ** traps.h *)

Definition T_SYSCALL : Z := 64.
Definition T_IRQ0 : Z := 32.
Definition IRQ_TIMER : Z := 0.
Definition IRQ_KBD : Z := 1.
Definition IRQ_COM1 : Z := 4.
Definition IRQ_IDE : Z := 14.
Definition IRQ_SPURIOUS : Z := 31.

(** ** What trap.c needs of the other components *)

(** User memory through a page directory, the device drivers' interrupt handlers with the
    channels they wake, and the local APIC. *)
Class TrapEnv (K : Type) := {
  tv_load : Z → Z → M K Z;
  tv_store : Z → Z → Z → M K unit;
  tv_ideintr : M K (list chan);
  tv_kbdintr : M K (list chan);
  tv_uartintr : M K (list chan);
  tv_lapiceoi : M K unit;
  tv_cprintf : M K unit;
}.

Record tstate (K : Type) := mkT { t_ps : pstate K; t_ticks : Z }.
Arguments mkT {K}.
Arguments t_ps {K}.
Arguments t_ticks {K}.

Section trap.
Context {K : Type} `{!ProcEnv K, !TrapEnv K}.
Context (forkret_addr trapret_addr : Z).
(** [&ticks] and [&tickslock]; [cpuid()] *)
Context (ticks_addr tickslock : Z) (cpuid : Z).
Abbreviation tstate := (tstate K).

Definition set_ps (x : pstate K) (s : tstate) : tstate := mkT x (t_ticks s).
Definition ps {A} (m : M (pstate K) A) : M tstate A := lift t_ps set_ps m.
Definition set_tticks (x : Z) (s : tstate) : tstate := mkT (t_ps s) x.

(** The running process; a null pointer faults. *)
Definition cur (s : tstate) : proc :=
  match c_proc (ps_cpu (t_ps s)) with Some me => ps_proc (t_ps s) !!! me | None => proc_zero end.
#[global] Instance t_user : UserMem tstate := {|
  um_sz s := p_sz (cur s);
  um_esp s := tf_esp (p_tf (cur s));
  um_load a := pg ← gets (λ s, p_pgdir (cur s)); ps (on_env (tv_load pg a));
|}.

Definition Lk_ticks : lockid := Lk tickslock.
Definition ticks_chan : chan := CAddr ticks_addr.

(** ** sysproc.c *)

Definition ret {A} (m : M tstate A) : M tstate (A + bool) := x ← m; mret (inl x).

Definition sys_fork : M tstate (Z + bool) := ret (ps (fork forkret_addr trapret_addr)).
Definition sys_exit : M tstate (Z + bool) := e ← ps exit; mret (inr e).
Definition sys_wait : M tstate (Z + bool) := ps wait.
Definition sys_kill : M tstate (Z + bool) := ret (pid ←? argint 0; ps (kill pid)).
Definition sys_getpid : M tstate (Z + bool) := ret (me ← ps curproc; ps (getp me p_pid)).
Definition sys_sbrk : M tstate (Z + bool) := ret (
  n ←? argint 0;
  me ← ps curproc;
  addr ← ps (getp me p_sz);
  r ← ps (growproc n);
  if r <? 0 then mret (-1) else mret (s32 addr)).

(** The loop of [sys_sleep], with [tickslock] held. *)
Definition sleep_check (n ticks0 : Z) : M tstate (Z + bool) :=
  t ← gets t_ticks;
  if u32 (t - ticks0) <? u32 n then
    me ← ps curproc;
    killed ← ps (getp me p_killed);
    if negb (killed =? 0) then ps (on_cpu (release Lk_ticks)) ;; mret (inl (-1))
    else e ← ps (sleep ticks_chan (Some Lk_ticks)); mret (inr e)
  else ps (on_cpu (release Lk_ticks)) ;; mret (inl 0).
Definition sys_sleep : M tstate (Z + bool) :=
  n ← argint 0;
  match n with
  | None => mret (inl (-1))
  | Some n =>
      ps (on_cpu (acquire Lk_ticks)) ;;
      ticks0 ← gets t_ticks;
      sleep_check n ticks0
  end.
(** ... and from where its [sleep] returns. *)
Definition sys_sleep_return (me : nat) (n ticks0 : Z) (intena : bool) : M tstate (Z + bool) :=
  ps (sleep_return me Lk_ticks intena) ;;
  sleep_check n ticks0.

Definition sys_uptime : M tstate (Z + bool) := ret (
  ps (on_cpu (acquire Lk_ticks)) ;;
  xticks ← gets t_ticks;
  ps (on_cpu (release Lk_ticks)) ;;
  mret (s32 xticks)).

(** A row of the user's table: its name and state, before the call, and the fields that
    [fillpstat] sets. *)
Definition PSTAT_SIZE : Z := 36.
Definition uload_pg (a : Z) : M tstate Z := um_load a.
Definition ustore_pg (a b : Z) : M tstate unit := pg ← gets (λ s, p_pgdir (cur s)); ps (on_env (tv_store pg a b)).
Fixpoint uload_list (a : Z) (n : nat) : M tstate (list Z) :=
  match n with
  | O => mret []
  | S n => b ← uload_pg a; bs ← uload_list (a + 1) n; mret (b :: bs)
  end.
Fixpoint ustore_list (a : Z) (bs : list Z) : M tstate unit :=
  match bs with
  | [] => mret tt
  | b :: bs => ustore_pg a (u8 b) ;; ustore_list (a + 1) bs
  end.
Fixpoint load_rows (a : Z) (n : nat) : M tstate (list pstat_t) :=
  match n with
  | O => mret []
  | S n =>
      name ← uload_list (a + 16) 16;
      state ← uload_pg (a + 32);
      rows ← load_rows (a + PSTAT_SIZE) n;
      mret (mkPstat 0 0 0 0 name state :: rows)
  end.
Definition row_word (x : Z) : list Z := [x; x / 256; x / 65536; x / 16777216].
Fixpoint store_rows (a : Z) (rows : list pstat_t) : M tstate unit :=
  match rows with
  | [] => mret tt
  | r :: rows =>
      ustore_list a (row_word (st_inuse r) ++ row_word (st_tickets r) ++ row_word (st_pid r) ++ row_word (st_ticks r)
        ++ st_name r ++ [st_state r]) ;;
      store_rows (a + PSTAT_SIZE) rows
  end.
Definition sys_getpinfo : M tstate (Z + bool) := ret (
  p ←? argptr 0 (PSTAT_SIZE * NPROC);
  old ← load_rows p (Z.to_nat NPROC);
  rows ← ps (fillpstat old);
  store_rows p rows ;;
  mret 0).

Definition sys_settickets : M tstate (Z + bool) := ret (
  n ←? argint 0;
  if n <? 10 then mret (-1) else ps (settickets n)).

(** ** Dispatch *)

(** The calls of sysfile.c, by number. *)
Context (file_calls : Z → option (M tstate (Z + bool))).
Definition NSYSCALLS : Z := 24.
Definition syscalls (num : Z) : option (M tstate (Z + bool)) :=
  if num =? 1 then Some sys_fork
  else if num =? 2 then Some sys_exit
  else if num =? 3 then Some sys_wait
  else if num =? 6 then Some sys_kill
  else if num =? 11 then Some sys_getpid
  else if num =? 12 then Some sys_sbrk
  else if num =? 13 then Some sys_sleep
  else if num =? 14 then Some sys_uptime
  else if num =? 22 then Some sys_getpinfo
  else if num =? 23 then Some sys_settickets
  else file_calls num.

Definition upd_cur (f : proc → proc) (s : tstate) : tstate :=
  match c_proc (ps_cpu (t_ps s)) with
  | Some me => set_ps (set_procs (alter f me (ps_proc (t_ps s))) (t_ps s)) s
  | None => s
  end.
Definition do_syscall : M tstate (option bool) :=
  syscall (λ s, tf_eax (p_tf (cur s))) (λ x, upd_cur (λ p, set_tf (set_eax x (p_tf p)) p))
    (λ _, ps (on_env tv_cprintf)) NSYSCALLS syscalls.

(** ** trap *)

(** How [trap] ends: it returns, or it has switched to the scheduler and will not come
    back ([exit]), or will, into the operations below. *)
Inductive tctl := TReturn | TExit (intena : bool) | TSyscall (intena : bool) | TYield (intena : bool).

Definition killed_now : M tstate bool :=
  o ← ps (on_cpu myproc);
  match o with
  | None => mret false
  | Some me => k ← ps (getp me p_killed); mret (negb (k =? 0))
  end.
Definition do_exit : M tstate tctl := e ← ps exit; mret (TExit e).

(** After a system call: [if(myproc()->killed) exit(); return;] *)
Definition trap_syscall_end : M tstate tctl :=
  me ← ps curproc;
  k ← ps (getp me p_killed);
  if negb (k =? 0) then do_exit else mret TReturn.
Definition trap_syscall (tf : trapframe) (tfp : Z) : M tstate tctl :=
  me ← ps curproc;
  k ← ps (getp me p_killed);
  if negb (k =? 0) then do_exit else
  ps (updp me (λ p, set_tf tf (set_tfp tfp p))) ;;
  r ← do_syscall;
  match r with
  | Some e => mret (TSyscall e)
  | None => trap_syscall_end
  end.

Definition timer_tick : M tstate unit :=
  ps (on_cpu (acquire Lk_ticks)) ;;
  modify (λ s, set_tticks (u32 (t_ticks s + 1)) s) ;;
  ps (wakeup ticks_chan) ;;
  ps (on_cpu (release Lk_ticks)).
Definition irq (h : M K (list chan)) : M tstate unit :=
  cs ← ps (on_env h); ps (wakeups cs) ;; ps (on_env tv_lapiceoi).
(** The [switch] on the trap number. *)
Definition trap_switch (tf : trapframe) : M tstate unit :=
  let n := tf_trapno tf in
  if n =? T_IRQ0 + IRQ_TIMER then when (cpuid =? 0) timer_tick ;; ps (on_env tv_lapiceoi)
  else if n =? T_IRQ0 + IRQ_IDE then irq tv_ideintr
  else if n =? T_IRQ0 + IRQ_IDE + 1 then mret tt
  else if n =? T_IRQ0 + IRQ_KBD then irq tv_kbdintr
  else if n =? T_IRQ0 + IRQ_COM1 then irq tv_uartintr
  else if (n =? T_IRQ0 + 7) || (n =? T_IRQ0 + IRQ_SPURIOUS) then ps (on_env tv_cprintf) ;; ps (on_env tv_lapiceoi)
  else
    o ← ps (on_cpu myproc);
    match o with
    | None => panic "trap"
    | Some me =>
        if Z.land (tf_cs tf) 3 =? 0 then panic "trap" else
        ps (on_env tv_cprintf) ;;
        ps (updp me (set_killed 1))
    end.

(** [if(myproc() && myproc()->killed && (tf->cs&3) == DPL_USER) exit();] *)
Definition exit_if_killed (tf : trapframe) (k : M tstate tctl) : M tstate tctl :=
  kd ← killed_now;
  if kd && (Z.land (tf_cs tf) 3 =? DPL_USER) then do_exit else k.
(** The end of [trap], after [yield]. *)
Definition trap_end (tf : trapframe) : M tstate tctl := exit_if_killed tf (mret TReturn).
Definition trap_yield_return (tf : trapframe) (intena : bool) : M tstate tctl :=
  ps (yield_return intena) ;; trap_end tf.

Definition trap (tf : trapframe) (tfp : Z) : M tstate tctl :=
  if tf_trapno tf =? T_SYSCALL then trap_syscall tf tfp else
  trap_switch tf ;;
  exit_if_killed tf (
    o ← ps (on_cpu myproc);
    run ← match o with
          | None => mret false
          | Some me => x ← ps (getp me p_state); mret (bool_decide (x = RUNNING))
          end;
    if run && (tf_trapno tf =? T_IRQ0 + IRQ_TIMER) then e ← ps yield; mret (TYield e) else trap_end tf).
End trap.

(** ** The clock preempts *)

Section timer.
Context {K : Type} `{!ProcEnv K, !TrapEnv K}.
Context (forkret_addr trapret_addr ticks_addr tickslock cpuid : Z).
Context (file_calls : Z → option (M (tstate K) (Z + bool))).

Lemma ps_cpu_ok {A} (m : M cpu A) l n rs ini (e : K) t c a c' :
  m c = Ok (a, c') → ps (on_cpu m) (mkT (mkPs l n rs ini c e) t) = Ok (a, mkT (mkPs l n rs ini c' e) t).
Proof. intros E. rw /ps /lift /= /on_cpu /lift /= E. done. Qed.

(** The CPU inside the kernel with interrupts off and the given locks held. *)
Definition kcpu (ie : bool) (me : nat) (h : gset lockid) : cpu := mkCpu (Z.of_nat (size h)) ie false (Some me) h.

Lemma kacquire lk ie me (h : gset lockid) :
  lk ∉ h → (size h < 10)%nat →
  acquire lk (kcpu ie me h) = Ok (tt, kcpu (if bool_decide (h = ∅) then false else ie) me ({[lk]} ∪ h)).
Proof.
  intros Hlk Hs. rw /kcpu acquire_ok //=; [split; simpl; lia|]. rw size_union; [set_solver|]. rw size_singleton.
  do 3 f_equal; [lia|]. case_bool_decide as Hh; [by rw Hh size_empty|].
  destruct (Z.eqb_spec (Z.of_nat (size h)) 0); [|done]. exfalso. apply Hh. apply leibniz_equiv, size_empty_inv. lia.
Qed.
Lemma krelease lk ie me (h : gset lockid) :
  lk ∉ h → (size h < 10)%nat → (h = ∅ → ie = false) →
  release lk (kcpu ie me ({[lk]} ∪ h)) = Ok (tt, kcpu ie me h).
Proof.
  intros Hlk Hs Hi. rw /kcpu size_union; [set_solver|]. rw size_singleton.
  rewrite -> release_ok by (cbn [c_ncli c_if c_held]; first [lia|done|set_solver]). cbn [c_ncli c_intena c_proc c_held].
  assert (({[lk]} ∪ h) ∖ {[lk]} = h) as -> by (apply leibniz_equiv; set_solver).
  do 3 f_equal; [lia|]. destruct (Z.eqb_spec (Z.of_nat (1 + size h)) 1); [|done]. simpl. apply Hi.
  apply leibniz_equiv, size_empty_inv. lia.
Qed.

Lemma kwakeup c l n rs ini ie me (h : gset lockid) (e : K) :
  Lk_ptable ∉ h → (size h < 10)%nat → h ≠ ∅ →
  wakeup c (mkPs l n rs ini (kcpu ie me h) e) = Ok (tt, mkPs (wakeup1_proc c <$> l) n rs ini (kcpu ie me h) e).
Proof.
  intros Hn Hs Hh. rw /wakeup. mnext (apply on_cpu_ok, kacquire; done). rw bool_decide_false //.
  rw /wakeup1. mget. apply on_cpu_ok. by apply krelease.
Qed.

Lemma timer_tick_ok l n rs ini ie me (e : K) t :
  timer_tick ticks_addr tickslock (mkT (mkPs l n rs ini (kcpu ie me ∅) e) t) =
  Ok (tt, mkT (mkPs (wakeup1_proc (CAddr ticks_addr) <$> l) n rs ini (kcpu false me ∅) e) (u32 (t + 1))).
Proof.
  rw /timer_tick. mnext (apply ps_cpu_ok, kacquire; [set_solver|rw size_empty; lia]).
  rw bool_decide_true //. mget. rw /set_tticks /=.
  assert (∀ s s' : pstate K, wakeup (ticks_chan ticks_addr) s = Ok (tt, s') →
    ps (wakeup (ticks_chan ticks_addr)) (mkT s (u32 (t + 1))) = Ok (tt, mkT s' (u32 (t + 1)))) as Ew.
  { intros s s' E. rw /ps /lift /=. by rw E. }
  mnext (apply Ew, kwakeup; [rw /Lk_ticks; set_solver|rw right_id_L size_singleton; lia|set_solver]).
  apply ps_cpu_ok, krelease; [set_solver|rw size_empty; lia|done].
Qed.

(** C34. A clock interrupt while a process runs in user mode: on the first CPU the clock
    advances by one tick and every process asleep on it becomes RUNNABLE; the interrupt is
    acknowledged; and the running process, unless it has been killed, becomes RUNNABLE and
    gives the CPU to the scheduler, holding just [ptable.lock] with interrupts off.
    Nothing else of the process table changes. *)
Theorem trap_timer_preempts l n rs ini ie me p (e e' : K) t tf tfp :
  l !! me = Some p → p_state p = RUNNING → p_killed p = 0 → tf_trapno tf = T_IRQ0 + IRQ_TIMER →
  tv_lapiceoi e = Ok (tt, e') →
  let l' := if cpuid =? 0 then wakeup1_proc (CAddr ticks_addr) <$> l else l in
  trap forkret_addr trapret_addr ticks_addr tickslock cpuid file_calls tf tfp (mkT (mkPs l n rs ini (kcpu ie me ∅) e) t) =
    Ok (TYield false, mkT (mkPs (<[me := set_state RUNNABLE p]> l') n rs ini
      (mkCpu 1 false false (Some me) {[Lk_ptable]}) e') (if cpuid =? 0 then u32 (t + 1) else t)).
Proof.
  intros Hp Hs Hk Htn He l'.
  assert (l' !! me = Some p) as Hp'.
  { rw /l'. destruct (cpuid =? 0); [|done]. rw list_lookup_fmap Hp /=. rw /wakeup1_proc. rewrite -> decide_False; [done|].
    rw Hs. by intros []. }
  set (t' := if cpuid =? 0 then u32 (t + 1) else t).
  assert (∃ ie', trap_switch ticks_addr tickslock cpuid tf (mkT (mkPs l n rs ini (kcpu ie me ∅) e) t) =
    Ok (tt, mkT (mkPs l' n rs ini (kcpu ie' me ∅) e') t')) as (ie' & Esw).
  { rw /trap_switch Htn /l' /t'. cbn zeta. rw Z.eqb_refl. destruct (cpuid =? 0); cbn [when].
    - exists false. mgo (timer_tick_ok l n rs ini ie me e t). rw /ps /lift /= /on_env /lift /=. by rw He.
    - exists ie. mget. rw /ps /lift /= /on_env /lift /=. by rw He. }
  rw /trap Htn. change (T_IRQ0 + IRQ_TIMER =? T_SYSCALL) with false. cbn iota. mgo Esw.
  assert (∀ x, unpushed (kcpu x me ∅) = kcpu false me ∅) as Eu by done.
  assert (∀ x t2, ps (on_cpu myproc) (mkT (mkPs l' n rs ini (kcpu x me ∅) e') t2) =
    Ok (Some me, mkT (mkPs l' n rs ini (kcpu false me ∅) e') t2)) as Em.
  { intros x t2. apply ps_cpu_ok. rw myproc_ok //. }
  assert (l' !!! me = p) as Et by by apply list_lookup_total_correct.
  rw /exit_if_killed /killed_now bind_assoc. mgo (Em ie' t'). rw bind_assoc.
  assert (∀ A (f : proc → A) x t2, ps (getp me f) (mkT (mkPs l' n rs ini (kcpu x me ∅) e') t2) =
    Ok (f p, mkT (mkPs l' n rs ini (kcpu x me ∅) e') t2)) as Eg.
  { intros A f x t2. rw /ps /lift /= /getp. mget. by rw /gets /= Et. }
  mgo (Eg _ p_killed false t'). mget. rw Hk /=. mgo (Em false t'). rw bind_assoc. mgo (Eg _ p_state false t'). mget.
  rw Hs bool_decide_true //. change (T_IRQ0 + IRQ_TIMER =? T_IRQ0 + IRQ_TIMER) with true. cbn [andb].
  assert (yield (mkPs l' n rs ini (kcpu false me ∅) e') =
    Ok (false, mkPs (<[me := set_state RUNNABLE p]> l') n rs ini (mkCpu 1 false false (Some me) {[Lk_ptable]}) e')) as Ey.
  { rw /yield. mnext (apply on_cpu_ok, acquire_ptable_idle; by split). cbn.
    rw /curproc bind_assoc. mnext (apply on_cpu_ok, myproc_ok; done). mget.
    rw /updp. mget. cbn. rw (list_alter_insert_Some _ _ _ p) //. rw /sched.
    mnext (apply on_cpu_ok, holding_ok; done). cbn. rw bool_decide_true; [set_solver|]. cbn [negb]. mget. cbn.
    rw /getp. mget. cbn. rw list_lookup_total_insert_eq; [by eapply lookup_lt_Some|]. done. }
  rw /ps /lift /=. mrun. by rw Ey.
Qed.
End timer.

#[local] Instance null_trap_env : TrapEnv unit := {|
  tv_load _ _ := mret 0; tv_store _ _ _ := mret tt; tv_ideintr := mret []; tv_kbdintr := mret [];
  tv_uartintr := mret []; tv_lapiceoi := mret tt; tv_cprintf := mret tt;
|}.
Definition example_tick : tstate unit :=
  mkT (mkPs [set_state RUNNING proc_zero; set_chan (CAddr 8) (set_state SLEEPING proc_zero)] 3 1 None
    (mkCpu 0 true false (Some 0%nat) ∅) tt) 41.
Definition timer_tf : trapframe := mkTf 0 0 0 0 0 0 0 0 0 0 0 0 32 0 0 27 0 0 0.
Lemma trap_timer_preempts_witness :
  ∃ s, trap 1 2 8 9 0 (λ _, None) timer_tf 0 example_tick = Ok (TYield false, s) ∧
    p_state <$> ps_proc (t_ps s) = [RUNNABLE; RUNNABLE] ∧ t_ticks s = 42.
Proof.
  eexists. split.
  - apply (trap_timer_preempts 1 2 8 9 0 (λ _, None) _ 3 1 None true 0 (set_state RUNNING proc_zero) tt tt 41 timer_tf 0); reflexivity.
  - by vm_compute.
Defined.
