(* ===== verification/Desc.v ===== *)
(** * Segments, gates and the way into the kernel (mmu.h, vm.c, trap.c)

    The descriptor tables that [seginit], [switchuvm] and [tvinit] fill in, bit field by bit
    field, and the processor that reads them when an interrupt comes or a program executes
    [int]: the checks of the gate and of the code segment, and the stack it takes from the
    task state.  A user program enters the kernel only where the kernel wants it to. *)

From S2P Require Import Prelude Params Proc Trap.

(** A bit field of [w] bits. *)
Definition bits (w x : Z) : Z := x mod 2 ^ w.

Record segdesc := mkSd {
  sd_lim_15_0 : Z; sd_base_15_0 : Z; sd_base_23_16 : Z; sd_type : Z; sd_s : Z; sd_dpl : Z; sd_p : Z;
  sd_lim_19_16 : Z; sd_avl : Z; sd_rsv1 : Z; sd_db : Z; sd_g : Z; sd_base_31_24 : Z
}.
#[export] Instance segdesc_inhabited : Inhabited segdesc := populate (mkSd 0 0 0 0 0 0 0 0 0 0 0 0 0).
Definition SEG (type base lim dpl : Z) : segdesc :=
  mkSd (Z.land (Z.shiftr lim 12) 0xffff) (Z.land (u32 base) 0xffff)
    (Z.land (Z.shiftr (u32 base) 16) 0xff) (bits 4 type) 1 (bits 2 dpl) 1
    (bits 4 (Z.shiftr (u32 lim) 28)) 0 0 1 1 (bits 8 (Z.shiftr (u32 base) 24)).
Definition SEG16 (type base lim dpl : Z) : segdesc :=
  mkSd (Z.land lim 0xffff) (Z.land (u32 base) 0xffff)
    (Z.land (Z.shiftr (u32 base) 16) 0xff) (bits 4 type) 1 (bits 2 dpl) 1
    (bits 4 (Z.shiftr (u32 lim) 16)) 0 0 1 0 (bits 8 (Z.shiftr (u32 base) 24)).
Definition set_sd_s (x : Z) (d : segdesc) : segdesc :=
  mkSd (sd_lim_15_0 d) (sd_base_15_0 d) (sd_base_23_16 d) (sd_type d) (bits 1 x) (sd_dpl d) (sd_p d)
    (sd_lim_19_16 d) (sd_avl d) (sd_rsv1 d) (sd_db d) (sd_g d) (sd_base_31_24 d).

Definition STA_X : Z := 0x8.
Definition STA_W : Z := 0x2.
Definition STA_R : Z := 0x2.
Definition STS_T32A : Z := 0x9.
Definition STS_IG32 : Z := 0xE.
Definition STS_TG32 : Z := 0xF.
Definition NSEGS : Z := 6.

(** The task state: the stack for the kernel and the I/O map; [ts_rest] is its other fields. *)
Record taskstate := mkTs { ts_esp0 : Z; ts_ss0 : Z; ts_iomb : Z; ts_rest : list Z }.
Definition sizeof_taskstate : Z := 104.

Record gatedesc := mkGate {
  gd_off_15_0 : Z; gd_cs : Z; gd_args : Z; gd_rsv1 : Z; gd_type : Z; gd_s : Z; gd_dpl : Z; gd_p : Z; gd_off_31_16 : Z
}.
#[export] Instance gatedesc_inhabited : Inhabited gatedesc := populate (mkGate 0 0 0 0 0 0 0 0 0).
Definition SETGATE (istrap : bool) (sel off d : Z) : gatedesc :=
  mkGate (Z.land (u32 off) 0xffff) (bits 16 sel) 0 0 (if istrap then STS_TG32 else STS_IG32) 0 (bits 2 d) 1
    (bits 16 (Z.shiftr (u32 off) 16)).

(** A CPU's tables and the registers that point to them. *)
Record xcpu := mkX {
  c_gdt : list segdesc;
  c_ts : taskstate;
  c_gdtr : Z * Z;     (* base and limit *)
  c_idtr : Z * Z;
  c_tr : Z;
  c_cr3 : Z;
}.
Definition lgdt (p size : Z) (c : xcpu) : xcpu :=
  let pd0 := u16 (size - 1) in let pd1 := u16 (u32 p) in let pd2 := u16 (Z.shiftr (u32 p) 16) in
  mkX (c_gdt c) (c_ts c) (pd1 + 65536 * pd2, pd0) (c_idtr c) (c_tr c) (c_cr3 c).
Definition lidt (p size : Z) (c : xcpu) : xcpu :=
  let pd0 := u16 (size - 1) in let pd1 := u16 (u32 p) in let pd2 := u16 (Z.shiftr (u32 p) 16) in
  mkX (c_gdt c) (c_ts c) (c_gdtr c) (pd1 + 65536 * pd2, pd0) (c_tr c) (c_cr3 c).
Definition ltr (sel : Z) (c : xcpu) : xcpu := mkX (c_gdt c) (c_ts c) (c_gdtr c) (c_idtr c) (u16 sel) (c_cr3 c).
Definition lcr3 (v : Z) (c : xcpu) : xcpu := mkX (c_gdt c) (c_ts c) (c_gdtr c) (c_idtr c) (c_tr c) (u32 v).
Definition set_gdt (i : Z) (d : segdesc) (c : xcpu) : xcpu :=
  mkX (<[Z.to_nat i := d]> (c_gdt c)) (c_ts c) (c_gdtr c) (c_idtr c) (c_tr c) (c_cr3 c).
Definition set_ts (t : taskstate) (c : xcpu) : xcpu := mkX (c_gdt c) t (c_gdtr c) (c_idtr c) (c_tr c) (c_cr3 c).

Section desc.
(** Where the tables are, and the entry points of vectors.S. *)
Context (gdt_addr ts_addr idt_addr : Z) (vectors : Z → Z).

Definition seginit (c : xcpu) : xcpu :=
  let c := set_gdt SEG_KCODE (SEG (Z.lor STA_X STA_R) 0 0xffffffff 0) c in
  let c := set_gdt SEG_KDATA (SEG STA_W 0 0xffffffff 0) c in
  let c := set_gdt SEG_UCODE (SEG (Z.lor STA_X STA_R) 0 0xffffffff DPL_USER) c in
  let c := set_gdt SEG_UDATA (SEG STA_W 0 0xffffffff DPL_USER) c in
  lgdt gdt_addr (8 * NSEGS) c.

(** [switchuvm] after its checks, for a process with this kernel stack and page table. *)
Definition switchuvm_tables (kstack pgdir : Z) (c : xcpu) : xcpu :=
  let c := set_gdt SEG_TSS (SEG16 STS_T32A ts_addr (sizeof_taskstate - 1) 0) c in
  let c := set_gdt SEG_TSS (set_sd_s 0 (c_gdt c !!! Z.to_nat SEG_TSS)) c in
  let c := set_ts (mkTs (ts_esp0 (c_ts c)) (u16 (Z.shiftl SEG_KDATA 3)) (ts_iomb (c_ts c)) (ts_rest (c_ts c))) c in
  let c := set_ts (mkTs (u32 (u32 kstack + KSTACKSIZE)) (ts_ss0 (c_ts c)) (ts_iomb (c_ts c)) (ts_rest (c_ts c))) c in
  let c := set_ts (mkTs (ts_esp0 (c_ts c)) (ts_ss0 (c_ts c)) (u16 0xFFFF) (ts_rest (c_ts c))) c in
  let c := ltr (Z.shiftl SEG_TSS 3) c in
  lcr3 (V2P pgdir) c.
(** [switchkvm] *)
Definition switchkvm (kpgdir : Z) (c : xcpu) : xcpu := lcr3 (V2P kpgdir) c.

Fixpoint tvinit_loop (k : nat) (i : Z) (idt : list gatedesc) : list gatedesc :=
  match k with
  | O => idt
  | S k => tvinit_loop k (i + 1) (<[Z.to_nat i := SETGATE false (Z.shiftl SEG_KCODE 3) (vectors i) 0]> idt)
  end.
Definition tvinit (idt : list gatedesc) : list gatedesc :=
  let idt := tvinit_loop 256 0 idt in
  <[Z.to_nat T_SYSCALL := SETGATE true (Z.shiftl SEG_KCODE 3) (vectors T_SYSCALL) DPL_USER]> idt.
Definition idtinit (c : xcpu) : xcpu := lidt idt_addr (8 * 256) c.

(** ** The processor *)

(** What the fields of a descriptor say. *)
Definition sd_base (d : segdesc) : Z := sd_base_15_0 d + 65536 * sd_base_23_16 d + 16777216 * sd_base_31_24 d.
Definition sd_limit (d : segdesc) : Z :=
  let l := sd_lim_15_0 d + 65536 * sd_lim_19_16 d in if sd_g d =? 1 then l * 4096 + 4095 else l.
Definition gd_off (g : gatedesc) : Z := gd_off_15_0 g + 65536 * gd_off_31_16 g.
(** Entry [i] of a table whose register has the limit [lim]. *)
Definition table_at {A} (lim : Z) (l : list A) (i : Z) : option A := if 8 * i + 7 <=? lim then l !! Z.to_nat i else None.

(** The outcome of an interrupt: a fault, or the code to run with its privilege, the stack
    to run it on when that changes, and whether interrupts are off. *)
Inductive entry := EFault | EEnter (cs eip cpl : Z) (stack : option (Z * Z)) (off : bool).
(** The stack for a more privileged level: from the task state that TR selects. *)
Definition tss_stack (c : xcpu) : option (Z * Z) :=
  match table_at (c_gdtr c).2 (c_gdt c) (c_tr c / 8) with
  | Some d => if (sd_s d =? 0) && (sd_base d =? ts_addr) && (7 <=? sd_limit d) then Some (ts_ss0 (c_ts c), ts_esp0 (c_ts c)) else None
  | None => None
  end.
(** Interrupt [n] at privilege [cpl]; [soft] for the instruction [int]. *)
Definition interrupt (c : xcpu) (idt : list gatedesc) (soft : bool) (cpl n : Z) : entry :=
  match table_at (c_idtr c).2 idt n with
  | None => EFault
  | Some g =>
      if soft && (gd_dpl g <? cpl) then EFault else
      if negb (gd_p g =? 1) || negb (gd_s g =? 0) || negb ((gd_type g =? STS_IG32) || (gd_type g =? STS_TG32)) then EFault else
      match table_at (c_gdtr c).2 (c_gdt c) (gd_cs g / 8) with
      | None => EFault
      | Some d =>
          if negb (sd_s d =? 1) || negb (Z.testbit (sd_type d) 3) || negb (sd_p d =? 1) || (cpl <? sd_dpl d) then EFault else
          let cs := gd_cs g / 4 * 4 + sd_dpl d in
          if sd_dpl d <? cpl then
            match tss_stack c with
            | None => EFault
            | Some st => EEnter cs (gd_off g) (sd_dpl d) (Some st) (gd_type g =? STS_IG32)
            end
          else EEnter cs (gd_off g) (sd_dpl d) None (gd_type g =? STS_IG32)
      end
  end.
(** An I/O instruction at a port: allowed by the I/O privilege level, or by the map in the
    task state's segment, whose bit for the port is then 0. *)
Definition io_allowed (c : xcpu) (map : Z → bool) (cpl iopl port : Z) : bool :=
  (cpl <=? iopl) ||
  match table_at (c_gdtr c).2 (c_gdt c) (c_tr c / 8) with
  | Some d => (ts_iomb (c_ts c) + port / 8 + 1 <=? sd_limit d) && negb (map port)
  | None => false
  end.

(** ** Lemmas *)

Lemma tvinit_loop_length k : ∀ i idt, length (tvinit_loop k i idt) = length idt.
Proof. induction k as [|k IH]; intros i idt; [done|]. by rw /= IH length_insert. Qed.
Lemma tvinit_loop_lookup k : ∀ i idt j, 0 ≤ i → i + Z.of_nat k ≤ Z.of_nat (length idt) → 0 ≤ j →
  tvinit_loop k i idt !! Z.to_nat j =
    if decide (i ≤ j < i + Z.of_nat k) then Some (SETGATE false (Z.shiftl SEG_KCODE 3) (vectors j) 0) else idt !! Z.to_nat j.
Proof.
  induction k as [|k IH]; intros i idt j Hi Hk Hj; cbn [tvinit_loop]; [by rewrite -> decide_False by lia|].
  rw IH; [lia|rw length_insert; lia|done|]. destruct (decide (j = i)) as [->|Hne].
  - rewrite -> decide_False, decide_True by lia. apply list_lookup_insert_eq. lia.
  - rw list_lookup_insert_ne; [lia|]. repeat case_decide; try done; lia.
Qed.
Lemma tvinit_lookup idt n : length idt = 256%nat → 0 ≤ n < 256 →
  tvinit idt !! Z.to_nat n = Some (if n =? T_SYSCALL then SETGATE true 8 (vectors n) DPL_USER else SETGATE false 8 (vectors n) 0).
Proof.
  intros Hl Hn. rw /tvinit. destruct (Z.eqb_spec n T_SYSCALL) as [->|Hne].
  - apply list_lookup_insert_eq. rw tvinit_loop_length Hl /T_SYSCALL. lia.
  - rw list_lookup_insert_ne; [rw /T_SYSCALL in Hne |- *; lia|]. rw tvinit_loop_lookup; [lia|rw Hl; lia|lia|]. by rewrite -> decide_True by lia.
Qed.

Lemma land_mod x w : 0 ≤ w → Z.land x (2 ^ w - 1) = x mod 2 ^ w.
Proof. intros Hw. rw -Z.land_ones // Z.ones_equiv. by f_equal. Qed.
Lemma gd_off_SETGATE t sel off d : 0 ≤ off < 4294967296 → gd_off (SETGATE t sel off d) = off.
Proof.
  intros Ho. rw /gd_off /SETGATE /= u32_small // /bits Z.shiftr_div_pow2 //. change 0xffff with (2 ^ 16 - 1). rw land_mod //. change (2 ^ 16) with 65536. dlia.
Qed.
Lemma sd_base_SEG16 t base lim d : 0 ≤ base < 4294967296 → sd_base (SEG16 t base lim d) = base.
Proof.
  intros Hb. rw /sd_base /SEG16 /= u32_small // /bits !Z.shiftr_div_pow2 //. change 0xffff with (2 ^ 16 - 1). change 0xff with (2 ^ 8 - 1). rw !land_mod //.
  change (2 ^ 16) with 65536. change (2 ^ 8) with 256. change (2 ^ 24) with 16777216. dlia.
Qed.

(** ** The way into the kernel *)

Section entering.
Context (c : xcpu) (idt : list gatedesc) (kstack pgdir : Z).
Hypothesis gdt_len : length (c_gdt c) = 6%nat.
Hypothesis idt_len : length idt = 256%nat.
Hypothesis ts_range : 0 ≤ ts_addr < 4294967296.
Hypothesis kstack_range : 0 ≤ kstack ∧ kstack + KSTACKSIZE < 4294967296.
Hypothesis vectors_range : ∀ n, 0 ≤ vectors n < 4294967296.
(** The tables of a CPU that runs a process. *)
Let c' := switchuvm_tables kstack pgdir (idtinit (seginit c)).

Lemma gdt_at i : c_gdt c' !! i =
  match i with
  | 0%nat => c_gdt c !! 0%nat
  | 1%nat => Some (SEG 10 0 0xffffffff 0)
  | 2%nat => Some (SEG 2 0 0xffffffff 0)
  | 3%nat => Some (SEG 10 0 0xffffffff 3)
  | 4%nat => Some (SEG 2 0 0xffffffff 3)
  | 5%nat => Some (set_sd_s 0 (SEG16 STS_T32A ts_addr 103 0))
  | _ => None
  end.
Proof.
  rw /c' /switchuvm_tables /idtinit /seginit. destruct (c_gdt c) as [|g0 [|g1 [|g2 [|g3 [|g4 [|g5 [|] ] ] ] ] ] ] eqn:E; try done.
  cbn [c_gdt lcr3 ltr set_ts set_gdt lidt lgdt]. rw E. by do 6 (destruct i as [|i]; [done|]).
Qed.
Lemma c'_regs : c_tr c' = 40 ∧ (c_gdtr c').2 = 47 ∧ (c_idtr c').2 = 2047 ∧ ts_ss0 (c_ts c') = 16 ∧ ts_esp0 (c_ts c') = u32 (u32 kstack + KSTACKSIZE) ∧ ts_iomb (c_ts c') = 65535.
Proof. repeat (split; [reflexivity|]). reflexivity. Qed.
(** The task state's segment. *)
Lemma tss_at : table_at (c_gdtr c').2 (c_gdt c') (c_tr c' / 8) = Some (set_sd_s 0 (SEG16 STS_T32A ts_addr 103 0)).
Proof. destruct c'_regs as (-> & -> & _). rw /table_at. change (Z.to_nat (40 / 8)) with 5%nat. by rw gdt_at. Qed.
Lemma tss_sd : let d := set_sd_s 0 (SEG16 STS_T32A ts_addr 103 0) in sd_s d = 0 ∧ sd_base d = ts_addr ∧ sd_limit d = 103.
Proof. split_and!; [done| |done]. by rw -{2}(sd_base_SEG16 STS_T32A ts_addr 103 0). Qed.
Lemma tss_stack_c' : tss_stack c' = Some (16, kstack + KSTACKSIZE).
Proof.
  rw /tss_stack tss_at. destruct tss_sd as (-> & -> & ->). destruct c'_regs as (_ & _ & _ & -> & -> & _). rw !Z.eqb_refl.
  pose proof kstack_range as Hk. rw /KSTACKSIZE in Hk |- *. rw (u32_small kstack); [lia|]. by rw u32_small; [lia|].
Qed.

Lemma interrupt_c' soft cpl n : 0 ≤ n < 256 → cpl = 0 ∨ cpl = 3 →
  interrupt c' (tvinit idt) soft cpl n =
    if soft && (cpl =? 3) && negb (n =? T_SYSCALL) then EFault
    else EEnter 8 (vectors n) 0 (if cpl =? 3 then Some (16, kstack + KSTACKSIZE) else None) (negb (n =? T_SYSCALL)).
Proof.
  intros Hn Hcpl. rw /interrupt {1}/table_at. destruct c'_regs as (_ & Egl & -> & _). rewrite -> (proj2 (Z.leb_le _ _)) by lia. rw tvinit_lookup //. rw tss_stack_c'.
  set (g := if n =? T_SYSCALL then _ else _).
  assert (gd_off g = vectors n) as Ho by (rw /g; destruct (n =? T_SYSCALL); by apply gd_off_SETGATE).
  assert (gd_cs g = 8 ∧ gd_p g = 1 ∧ gd_s g = 0) as (-> & -> & ->) by (rw /g; by destruct (n =? T_SYSCALL)).
  assert (table_at (c_gdtr c').2 (c_gdt c') (8 / 8) = Some (SEG 10 0 0xffffffff 0)) as ->.
  { rw Egl /table_at. change (Z.to_nat (8 / 8)) with 1%nat. by rw gdt_at. }
  rw Ho /g. by destruct soft, (n =? T_SYSCALL), Hcpl as [-> | ->].
Qed.

(** C27. From user mode, with the tables that [seginit], [tvinit], [idtinit] and [switchuvm]
    set up: the instruction [int] is let through only for system calls; that and every
    interrupt or exception continue at the vector for their number, in the kernel's code
    segment at privilege 0 and on the kernel stack of the process, with interrupts off except
    for system calls; and no I/O instruction is allowed at any port. *)
Theorem user_entry :
  (∀ n, 0 ≤ n < 256 → interrupt c' (tvinit idt) true 3 n =
     if n =? T_SYSCALL then EEnter 8 (vectors n) 0 (Some (16, kstack + KSTACKSIZE)) false else EFault) ∧
  (∀ n, 0 ≤ n < 256 → interrupt c' (tvinit idt) false 3 n = EEnter 8 (vectors n) 0 (Some (16, kstack + KSTACKSIZE)) (negb (n =? T_SYSCALL))) ∧
  (∀ map port, 0 ≤ port < 65536 → io_allowed c' map 3 0 port = false).
Proof.
  split; [|split].
  - intros n Hn. rw interrupt_c' //; [by right|]. by destruct (n =? T_SYSCALL).
  - intros n Hn. rw interrupt_c' //. by right.
  - intros map port Hp. rw /io_allowed tss_at. destruct tss_sd as (_ & _ & ->). destruct c'_regs as (_ & _ & _ & _ & _ & ->). rewrite -> (proj2 (Z.leb_gt _ 103)); [done|]. dlia.
Qed.
End entering.
End desc.

Definition ex_cpu : xcpu := mkX (replicate 6 (SEG 0 0 0 0)) (mkTs 0 0 0 []) (0, 0) (0, 0) 0 0.
Definition ex_idt : list gatedesc := replicate 256 (mkGate 0 0 0 0 0 0 0 0 0).
Lemma user_entry_witness :
  let c' := switchuvm_tables 0x80112000 0x8dffe000 0x8dfff000 (idtinit 0x80114000 (seginit 0x80111000 ex_cpu)) in
  let idt := tvinit (λ n, 0x80106000 + 10 * n mod 2560) ex_idt in
  (∀ n, 0 ≤ n < 256 → interrupt 0x80112000 c' idt true 3 n =
     if n =? T_SYSCALL then EEnter 8 (0x80106000 + 10 * n mod 2560) 0 (Some (16, 0x8dfff000)) false else EFault) ∧
  (∀ n, 0 ≤ n < 256 → interrupt 0x80112000 c' idt false 3 n = EEnter 8 (0x80106000 + 10 * n mod 2560) 0 (Some (16, 0x8dfff000)) (negb (n =? T_SYSCALL))) ∧
  (∀ map port, 0 ≤ port < 65536 → io_allowed c' map 3 0 port = false).
Proof.
  apply (user_entry 0x80111000 0x80112000 0x80114000 (λ n, 0x80106000 + 10 * n mod 2560) ex_cpu ex_idt 0x8dffe000 0x8dfff000).
  - reflexivity.
  - reflexivity.
  - lia.
  - by vm_compute.
  - intros n. dlia.
Defined.
