(* ===== verification/Asm.v ===== *)
(** * Context switch, trap entry and system call stubs (swtch.S, trapasm.S, vectors.pl, usys.S)

    The instructions these files use, over registers and a memory of 32-bit words, and the
    code itself as lists of instructions.  [call trap] splits the trap code in two: what the C
    code does in between is any change that returns with the stack pointer it was called with.

    A trap hands [trap] the registers of the code it interrupts, and returns to what the trap
    frame then holds; [swtch] saves a context that another [swtch] resumes; a process that
    [allocproc] made starts in user mode from its trap frame. *)

From S2P Require Import Prelude Params Spinlock Proc Sys Trap Desc.

(** ** The machine *)

Inductive reg := EAX | ECX | EDX | EBX | ESP | EBP | ESI | EDI.
Inductive sreg := CS | DS | ES | FS | GS | SS.
Record regs := mkR { r_eax : Z; r_ecx : Z; r_edx : Z; r_ebx : Z; r_esp : Z; r_ebp : Z; r_esi : Z; r_edi : Z }.
Record segs := mkG { g_cs : Z; g_ds : Z; g_es : Z; g_fs : Z; g_gs : Z; g_ss : Z }.
(** The memory has a word at every multiple of four: the code uses no other address. *)
Record mach := mkMach { m_r : regs; m_g : segs; m_eip : Z; m_fl : Z; m_mem : Z → Z }.

Definition get_reg (r : reg) (x : regs) : Z :=
  match r with
  | EAX => r_eax x | ECX => r_ecx x | EDX => r_edx x | EBX => r_ebx x
  | ESP => r_esp x | EBP => r_ebp x | ESI => r_esi x | EDI => r_edi x
  end.
Definition set_reg (r : reg) (v : Z) (x : regs) : regs :=
  let '(mkR a c d b sp bp si di) := x in
  match r with
  | EAX => mkR v c d b sp bp si di | ECX => mkR a v d b sp bp si di
  | EDX => mkR a c v b sp bp si di | EBX => mkR a c d v sp bp si di
  | ESP => mkR a c d b v bp si di | EBP => mkR a c d b sp v si di
  | ESI => mkR a c d b sp bp v di | EDI => mkR a c d b sp bp si v
  end.
Definition get_seg (r : sreg) (x : segs) : Z :=
  match r with
  | CS => g_cs x | DS => g_ds x | ES => g_es x | FS => g_fs x | GS => g_gs x | SS => g_ss x
  end.
Definition set_seg (r : sreg) (v : Z) (x : segs) : segs :=
  let '(mkG c d e f g t) := x in
  match r with
  | CS => mkG v d e f g t | DS => mkG c v e f g t | ES => mkG c d v f g t
  | FS => mkG c d e v g t | GS => mkG c d e f v t | SS => mkG c d e f g v
  end.
Definition getr (r : reg) (s : mach) : Z := get_reg r (m_r s).
Definition getg (r : sreg) (s : mach) : Z := get_seg r (m_g s).
Definition setr (r : reg) (v : Z) (s : mach) : mach :=
  mkMach (set_reg r v (m_r s)) (m_g s) (m_eip s) (m_fl s) (m_mem s).
Definition sets (r : sreg) (v : Z) (s : mach) : mach :=
  mkMach (m_r s) (set_seg r v (m_g s)) (m_eip s) (m_fl s) (m_mem s).
Definition seteip (v : Z) (s : mach) : mach := mkMach (m_r s) (m_g s) v (m_fl s) (m_mem s).
Definition setfl (v : Z) (s : mach) : mach := mkMach (m_r s) (m_g s) (m_eip s) v (m_mem s).
Definition store (a v : Z) (s : mach) : mach :=
  mkMach (m_r s) (m_g s) (m_eip s) (m_fl s) (λ x, if x =? a then v else m_mem s x).

Definition push (v : Z) (s : mach) : mach :=
  let a := u32 (getr ESP s - 4) in store a v (setr ESP a s).
(** The word on top of the stack, and the stack without it. *)
Definition top (s : mach) : Z := m_mem s (getr ESP s).
Definition drop_top (s : mach) : mach := setr ESP (u32 (getr ESP s + 4)) s.
Definition popr (r : reg) (s : mach) : mach := setr r (top s) (drop_top s).
Definition pops (r : sreg) (s : mach) : mach := sets r (u16 (top s)) (drop_top s).
(** The current privilege level. *)
Definition cpl (s : mach) : Z := getg CS s mod 4.

Inductive instr :=
  | MovMR (off : Z) (b d : reg)    (* movl off(b), d *)
  | MovRM (r b : reg)              (* movl r, (b) *)
  | MovRR (a d : reg)              (* movl a, d *)
  | MovI (v : Z) (d : reg)         (* movl $v, d *)
  | MovwI (v : Z)                  (* movw $v, %ax *)
  | MovwS (r : sreg)               (* movw %ax, r *)
  | PushR (r : reg) | PushS (r : sreg) | PushI (v : Z)
  | PopR (r : reg) | PopS (r : sreg)
  | Pushal | Popal
  | AddI (v : Z) (d : reg)         (* addl $v, d *)
  | Ret | Iret.

(** [iret] pops the stack pointer and segment only to return to a less privileged level. *)
Definition iret (s : mach) : mach :=
  let eip := top s in let s1 := drop_top s in
  let cs := u16 (top s1) in let s2 := drop_top s1 in
  let fl := top s2 in let s3 := drop_top s2 in
  let s4 := if cpl s <? cs mod 4 then
      let esp := top s3 in let ss := u16 (top (drop_top s3)) in sets SS ss (setr ESP esp s3)
    else s3 in
  setfl fl (sets CS cs (seteip eip s4)).

Section asm.
(** A push of a segment register leaves in the upper half of the word at an address what the
    processor likes. *)
Context (upper : Z → Z).

Definition push_seg (v : Z) (s : mach) : mach := push (65536 * upper (u32 (getr ESP s - 4)) + v) s.

Definition exec (i : instr) (s : mach) : mach :=
  match i with
  | MovMR off b d => setr d (m_mem s (u32 (getr b s + off))) s
  | MovRM r b => store (getr b s) (getr r s) s
  | MovRR a d => setr d (getr a s) s
  | MovI v d => setr d v s
  | MovwI v => setr EAX (65536 * (getr EAX s / 65536) + v) s
  | MovwS r => sets r (u16 (getr EAX s)) s
  | PushR r => push (getr r s) s
  | PushS r => push_seg (getg r s) s
  | PushI v => push v s
  | PopR r => popr r s
  | PopS r => pops r s
  | Pushal =>
      push (getr EDI s) (push (getr ESI s) (push (getr EBP s) (push (getr ESP s)
        (push (getr EBX s) (push (getr EDX s) (push (getr ECX s) (push (getr EAX s) s)))))))
  | Popal =>
      popr EAX (popr ECX (popr EDX (popr EBX (drop_top (popr EBP (popr ESI (popr EDI s)))))))
  | AddI v d => setr d (u32 (getr d s + v)) s
  | Ret => seteip (top s) (drop_top s)
  | Iret => iret s
  end.
Definition run (l : list instr) (s : mach) : mach := foldl (λ s i, exec i s) s l.

(** Exceptions for which the processor pushes an error code. *)
Definition has_err (n : Z) : bool := (n =? 8) || ((10 <=? n) && (n <=? 14)) || (n =? 17).
(** TF, NT, RF and VM: every gate clears them. *)
Definition FL_GATE : Z := 0x34100.
(** The processor takes the way into the kernel that the tables give: it pushes the old stack
    when it changes it, the flags, the place to return to and the error code, which an [int]
    ([soft]) has not. *)
Definition enter (e : entry) (soft : bool) (n err : Z) (s : mach) : option mach :=
  match e with
  | EFault => None
  | EEnter cs eip _ stack off =>
      let s1 := match stack with
                | None => s
                | Some (ss, esp) => push (getr ESP s) (push_seg (getg SS s) (sets SS ss (setr ESP esp s)))
                end in
      let s2 := push (m_eip s) (push_seg (getg CS s) (push (m_fl s) s1)) in
      let s3 := if has_err n && negb soft then push err s2 else s2 in
      let fl := Z.ldiff (m_fl s) FL_GATE in
      Some (setfl (if off then Z.ldiff fl FL_IF else fl) (sets CS cs (seteip eip s3)))
  end.

(** ** The code *)

Definition swtch : list instr :=
  [MovMR 4 ESP EAX; MovMR 8 ESP EDX;
   PushR EBP; PushR EBX; PushR ESI; PushR EDI;
   MovRM ESP EAX; MovRR EDX ESP;
   PopR EDI; PopR ESI; PopR EBX; PopR EBP;
   Ret].

(** The entry point for trap [n], up to [jmp alltraps]. *)
Definition vector (n : Z) : list instr :=
  (if negb ((n =? 8) || ((10 <=? n) && (n <=? 14)) || (n =? 17)) then [PushI 0] else []) ++ [PushI n].

(** Up to [call trap], and after it. *)
Definition alltraps : list instr :=
  [PushS DS; PushS ES; PushS FS; PushS GS; Pushal;
   MovwI (Z.shiftl SEG_KDATA 3); MovwS DS; MovwS ES;
   PushR ESP].
Definition trapret : list instr := [Popal; PopS GS; PopS FS; PopS ES; PopS DS; AddI 0x8 ESP; Iret].
Definition alltraps_return : list instr := AddI 4 ESP :: trapret.

(** A system call stub, before and after [int $T_SYSCALL]. *)
Definition stub (num : Z) : list instr := [MovI num EAX].
Definition stub_return : list instr := [Ret].

(** [struct trapframe] and [struct context] as they lie in memory. *)
Definition read_tf (m : Z → Z) (a : Z) : trapframe :=
  mkTf (m a) (m (a + 4)) (m (a + 8)) (m (a + 12)) (m (a + 16)) (m (a + 20)) (m (a + 24)) (m (a + 28))
    (u16 (m (a + 32))) (u16 (m (a + 36))) (u16 (m (a + 40))) (u16 (m (a + 44))) (m (a + 48))
    (m (a + 52)) (m (a + 56)) (u16 (m (a + 60))) (m (a + 64)) (m (a + 68)) (u16 (m (a + 72))).
Definition read_ctx (m : Z → Z) (a : Z) : context :=
  mkContext (m a) (m (a + 4)) (m (a + 8)) (m (a + 12)) (m (a + 16)).

(** ** What they do *)

(** The trap frame of code interrupted at [s], and the machine that runs from a frame. *)
Definition frame_of (kesp n err : Z) (s : mach) : trapframe :=
  let '(mkMach (mkR a c d b sp bp si di) (mkG cs ds es fs gs ss) ip fl _) := s in
  mkTf di si bp (kesp - 44) b d c a gs fs es ds n (if has_err n then err else 0) ip cs fl sp ss.
Definition kframe_of (n err : Z) (s : mach) : trapframe :=
  let '(mkMach (mkR a c d b sp bp si di) (mkG cs ds es fs gs ss) ip fl m) := s in
  mkTf di si bp (sp - 36) b d c a gs fs es ds n (if has_err n then err else 0) ip cs fl (m sp) (u16 (m (sp + 4))).
Definition resume (t : trapframe) (m : Z → Z) : mach :=
  mkMach (mkR (tf_eax t) (tf_ecx t) (tf_edx t) (tf_ebx t) (tf_esp t) (tf_ebp t) (tf_esi t) (tf_edi t))
    (mkG (tf_cs t) (tf_ds t) (tf_es t) (tf_fs t) (tf_gs t) (tf_ss t)) (tf_eip t) (tf_eflags t) m.
Definition set_mem (m : Z → Z) (s : mach) : mach := mkMach (m_r s) (m_g s) (m_eip s) (m_fl s) m.
(** Selectors are 16 bits wide. *)
Definition segs_ok (g : segs) : Prop :=
  Forall (λ x, 0 ≤ x < 65536) [g_cs g; g_ds g; g_es g; g_fs g; g_gs g; g_ss g].

Lemma u32_sub x y : u32 (u32 x - y) = u32 (x - y).
Proof. apply Zminus_mod_idemp_l. Qed.
Lemma u32_add x y : u32 (u32 x + y) = u32 (x + y).
Proof. apply Zplus_mod_idemp_l. Qed.
Lemma u16_seg u x : 0 ≤ x < 65536 → u16 (65536 * u + x) = x.
Proof. rw /u16. dlia. Qed.
Lemma u16_idem x : u16 (u16 x) = u16 x.
Proof. apply Zmod_mod. Qed.
(** Adds up the constants in an address. *)
Ltac addr :=
  rw -?Z.add_assoc -?Z.sub_add_distr;
  repeat match goal with |- context [Z.pos ?p + Z.pos ?q] =>
    let r := eval compute in (Z.pos p + Z.pos q) in change (Z.pos p + Z.pos q) with r end.

(** The machine that calls [trap] after an entry: the frame's address is the argument, the
    frame holds the interrupted code, and memory above [kesp] and below the argument is as
    it was. *)
Record at_trap (kesp : Z) (t : trapframe) (m : Z → Z) (tfp : Z) (s : mach) : Prop := {
  at_esp : getr ESP s = tfp - 4;
  at_arg : top s = tfp;
  at_frame : read_tf (m_mem s) tfp = t;
  at_kdata : getg DS s = 16 ∧ getg ES s = 16;
  at_cpl : cpl s = 0;
  at_mem : ∀ x, x < tfp - 4 ∨ kesp ≤ x → m_mem s x = m x;
}.


(** A memory with a stack of words from [e] on, the last one pushed first. *)
Fixpoint stacked (e : Z) (ws : list Z) (m : Z → Z) : Z → Z :=
  match ws with
  | [] => m
  | w :: ws => λ x, if x =? e then w else stacked (e + 4) ws m x
  end.
Lemma stacked_out ws m x : ∀ e, x < e ∨ e + 4 * Z.of_nat (length ws) ≤ x → stacked e ws m x = m x.
Proof.
  induction ws as [|w ws IH]; intros e Hx; [done|]. cbn [stacked length] in *. rewrite -> (proj2 (Z.eqb_neq _ _)) by lia. apply IH. lia.
Qed.
Lemma stacked_read ws m i : ∀ e, (i < length ws)%nat → stacked e ws m (e + 4 * Z.of_nat i) = ws !!! i.
Proof.
  revert i. induction ws as [|w ws IH]; intros i e Hi; [cbn in Hi; lia|]. cbn [stacked]. destruct i as [|i].
  - by rewrite -> (proj2 (Z.eqb_eq _ _)) by lia.
  - rewrite -> (proj2 (Z.eqb_neq _ _)) by lia. cbn in Hi. change ((w :: ws) !!! S i) with (ws !!! i). rw -(IH i (e + 4)); [lia|]. f_equal. lia.
Qed.
Definition stk (e : Z) (ws : list Z) (r : regs) (g : segs) (ip fl : Z) (m : Z → Z) : mach :=
  mkMach (set_reg ESP e r) g ip fl (stacked e ws m).
Lemma to_st s : s = stk (getr ESP s) [] (m_r s) (m_g s) (m_eip s) (m_fl s) (m_mem s).
Proof. by destruct s as [ [] g ip fl m]. Qed.

Section steps.
Context (e : Z) (ws : list Z) (r : regs) (g : segs) (ip fl : Z) (m : Z → Z).
Let s := stk e ws r g ip fl m.
Lemma st_esp : getr ESP s = e.
Proof. rw /s /stk /getr. by destruct r. Qed.
Lemma st_push v : 4 ≤ e < 4294967296 → push v s = stk (e - 4) (v :: ws) r g ip fl m.
Proof.
  intros He. rw /push st_esp u32_small; [lia|]. rw /s /stk /store /setr /=. destruct r. cbn. by rw Z.sub_simpl_r.
Qed.
Lemma st_push_seg v : 4 ≤ e < 4294967296 → push_seg v s = stk (e - 4) (65536 * upper (e - 4) + v :: ws) r g ip fl m.
Proof. intros He. rw /push_seg st_push // st_esp u32_small //. lia. Qed.
Lemma st_PushS x : 4 ≤ e < 4294967296 → exec (PushS x) s = stk (e - 4) (65536 * upper (e - 4) + get_seg x g :: ws) r g ip fl m.
Proof. apply st_push_seg. Qed.
Lemma st_PushR x : x ≠ ESP → 4 ≤ e < 4294967296 → exec (PushR x) s = stk (e - 4) (get_reg x r :: ws) r g ip fl m.
Proof. intros Hx He. cbn [exec]. rw st_push // /getr /s /stk /=. destruct r. by destruct x. Qed.
End steps.
Lemma run_cons i l s : run (i :: l) s = run l (exec i s).
Proof. done. Qed.
Lemma st_Pushal e ws r g ip fl m : 32 ≤ e < 4294967296 →
  exec Pushal (stk e ws r g ip fl m) =
    stk (e - 32) (r_edi r :: r_esi r :: r_ebp r :: e :: r_ebx r :: r_edx r :: r_ecx r :: r_eax r :: ws) r g ip fl m.
Proof.
  intros He. cbn [exec]. rw st_esp. do 8 (rewrite -> st_push by lia). addr. rw /getr /stk. by destruct r.
Qed.

Section pops.
Context (k : Z) (r : regs) (g : segs) (ip fl : Z) (m : Z → Z).
Hypothesis room : 0 ≤ k < 4294967292.
Let s := stk k [] r g ip fl m.
Lemma st_top : top s = m k.
Proof. by rw /s /top st_esp. Qed.
Lemma st_add v : 0 ≤ k + v < 4294967296 → setr ESP (u32 (getr ESP s + v)) s = stk (k + v) [] r g ip fl m.
Proof. intros Hv. rw /s st_esp u32_small // /setr /stk. by destruct r. Qed.
Lemma st_drop : drop_top s = stk (k + 4) [] r g ip fl m.
Proof. apply st_add. lia. Qed.
Lemma st_popr x : x ≠ ESP → popr x s = stk (k + 4) [] (set_reg x (m k) r) g ip fl m.
Proof. intros Hx. rw /popr st_drop st_top /setr /stk /=. destruct r. by destruct x. Qed.
Lemma st_pops x : pops x s = stk (k + 4) [] r (set_seg x (u16 (m k)) g) ip fl m.
Proof. by rw /pops st_drop st_top. Qed.
End pops.

(** [trapret] with a frame on top of the stack. *)
Lemma trapret_spec s a : getr ESP s = a → 0 ≤ a → a + 76 < 4294967296 → cpl s = 0 →
  let t := read_tf (m_mem s) a in
  run trapret s =
    if 0 <? tf_cs t mod 4 then resume t (m_mem s)
    else sets SS (getg SS s) (setr ESP (a + 68) (resume t (m_mem s))).
Proof.
  intros He Ha Hw Hc. rw (to_st s) He. destruct s as [ [] [] ip fl m]. rw /cpl /getg /= in Hc. cbn [m_r m_g m_eip m_fl m_mem].
  rw /run /trapret. cbn [foldl exec].
  do 3 (rewrite -> st_popr by (lia || done)). rewrite -> st_drop by lia. do 4 (rewrite -> st_popr by (lia || done)).
  do 4 (rewrite -> st_pops by lia). rewrite -> st_add by lia. rw /iret. cbn [set_reg set_seg].
  do 4 (rewrite -> st_drop by lia). rewrite -> !st_top.
  rw /cpl /getg. cbn [stk m_g get_seg g_cs]. rw Hc. cbn [m_mem].
  change (m_mem (stk ?k [] ?r ?g ?i ?f ?m)) with m. addr. cbn [read_tf tf_cs].
  destruct (0 <? u16 (m (a + 60)) mod 4); done.
Qed.
(** Code that returns from [trap] with the frame that it was called with. *)
Lemma alltraps_return_spec s tfp : getr ESP s = tfp - 4 → 4 ≤ tfp → tfp + 76 < 4294967296 → cpl s = 0 →
  let t := read_tf (m_mem s) tfp in
  run alltraps_return s =
    if 0 <? tf_cs t mod 4 then resume t (m_mem s)
    else sets SS (getg SS s) (setr ESP (tfp + 68) (resume t (m_mem s))).
Proof.
  intros He Ht Hw Hc. change (run alltraps_return s) with (run trapret (setr ESP (u32 (getr ESP s + 4)) s)).
  rw He u32_small; [lia|]. rw Z.sub_simpl_r. rw (trapret_spec _ tfp); [by destruct s as [ [] ? ? ? ?]|lia|lia|done|done].
Qed.

(** A call [swtch(old, new)]: the return address and the arguments are on the stack, and the
    stack, [*old] and the context at [new] do not overlap. *)
Record calls (s : mach) (old new : Z) : Prop := {
  ca_esp : 16 ≤ getr ESP s < 4294967284;
  ca_old : m_mem s (getr ESP s + 4) = old;
  ca_new : m_mem s (getr ESP s + 8) = new;
  ca_ctx : 0 ≤ new < 4294967276;
  ca_apart : new + 20 ≤ getr ESP s - 16 ∨ getr ESP s ≤ new;
  ca_old_stack : old < getr ESP s - 16 ∨ getr ESP s < old;
  ca_old_ctx : old < new ∨ new + 20 ≤ old;
}.
(** The context of a caller of [swtch]. *)
Definition ctx_of (s : mach) : context :=
  mkContext (getr EDI s) (getr ESI s) (getr EBX s) (getr EBP s) (top s).
(** Execution goes on from a context, with the stack above it. *)
Definition continues (c : context) (sp : Z) (s : mach) : Prop :=
  getr EDI s = x_edi c ∧ getr ESI s = x_esi c ∧ getr EBX s = x_ebx c ∧ getr EBP s = x_ebp c ∧
  m_eip s = x_eip c ∧ getr ESP s = sp.

Section switching.
Context (a c d b e bp si di : Z) (g : segs) (ip fl : Z) (m : Z → Z) (old new : Z).
Let s := mkMach (mkR a c d b e bp si di) g ip fl m.
Hypothesis call : calls s old new.
Definition switched : Z → Z := λ x, if x =? old then e - 16 else stacked (e - 16) [di; si; b; bp] m x.

Lemma switched_out x : x < e - 16 ∨ e ≤ x → x ≠ old → switched x = m x.
Proof. intros Hx Hxo. rw /switched (proj2 (Z.eqb_neq _ _)) //. apply stacked_out. cbn. lia. Qed.
(** The stack is switched once the registers are on it. *)
Lemma switch_stacks r : r = mkR old c new b e bp si di →
  exec (MovRR EDX ESP) (exec (MovRM ESP EAX) (stk (e - 16) [di; si; b; bp] r g ip fl m)) = stk new [] r g ip fl switched.
Proof. intros ->. by rw /exec st_esp. Qed.
Lemma swtch_run : run swtch s =
  mkMach (mkR old c new (m (new + 8)) (new + 20) (m (new + 12)) (m (new + 4)) (m new)) g (m (new + 16)) fl switched.
Proof.
  destruct call as [He Ho Hn Hc Ha Hos Hoc]. rw /getr in He Ho Hn Ha Hos. cbn in He, Ho, Hn, Ha, Hos. rw /s.
  rw /swtch. change (run (?i :: ?l) ?s) with (run l (exec i s)). rw /exec. cbn [getr get_reg m_r r_esp m_mem]. rw u32_small; [lia|]. rw Ho.
  change (run (?i :: ?l) ?s) with (run l (exec i s)). rw /exec /setr. cbn [getr get_reg m_r r_esp m_mem set_reg m_g m_eip m_fl]. rw u32_small; [lia|]. rw Hn.
  set (r := mkR old c new b e bp si di). change (run [_; _; _; _; ?i; ?j; _; _; _; _; _] ?s) with (run [i; j; PopR EDI; PopR ESI; PopR EBX; PopR EBP; Ret] (push di (push si (push b (push bp s))))).
  rw (to_st (mkMach r _ _ _ _)). change (getr ESP (mkMach r g ip fl m)) with e. cbn [m_r m_g m_eip m_fl m_mem]. do 4 (rewrite -> st_push by lia). addr.
  change (run [_; _; PopR EDI; PopR ESI; PopR EBX; PopR EBP; Ret] ?s) with (seteip (top (popr EBP (popr EBX (popr ESI (popr EDI (exec (MovRR EDX ESP) (exec (MovRM ESP EAX) s))))))) (drop_top (popr EBP (popr EBX (popr ESI (popr EDI (exec (MovRR EDX ESP) (exec (MovRM ESP EAX) s)))))))).
  rw (switch_stacks _ eq_refl). do 4 (rewrite -> st_popr by (lia || done)). rewrite -> st_drop by lia. rw st_top /r /seteip /stk. cbn [set_reg m_r m_g m_fl m_mem]. addr. by rewrite -> !switched_out by lia.
Qed.
End switching.

Lemma swtch_spec s old new : calls s old new →
  let s' := run swtch s in let e := getr ESP s in
  continues (read_ctx (m_mem s) new) (new + 20) s' ∧ m_g s' = m_g s ∧ m_fl s' = m_fl s ∧
  read_ctx (m_mem s') (e - 16) = ctx_of s ∧ m_mem s' old = e - 16 ∧
  (∀ x, x < e - 16 ∨ e ≤ x → x ≠ old → m_mem s' x = m_mem s x).
Proof.
  destruct s as [ [a c d b e bp si di] g ip fl m]. intros Hca. cbn zeta. rw (swtch_run _ _ _ _ _ _ _ _ _ _ _ _ _ _ Hca).
  destruct Hca as [He _ _ _ _ Hos _]. rw /getr in He Hos |- *. cbn in He, Hos. cbn [m_r m_g m_fl m_mem get_reg r_esp].
  assert (∀ i, (i < 4)%nat → switched b e bp si di m old (e - 16 + 4 * Z.of_nat i) = [di; si; b; bp] !!! i) as Hr.
  { intros i Hi. rw /switched (proj2 (Z.eqb_neq _ _)); [lia|]. by apply stacked_read. }
  split; [done|]. split; [done|]. split; [done|]. split; [|split].
  - rw /read_ctx /ctx_of /top /getr. cbn [m_mem m_r get_reg r_esp r_edi r_esi r_ebx r_ebp]. f_equal.
    + rw -(Z.add_0_r (e - 16)). apply (Hr 0%nat). lia.
    + apply (Hr 1%nat). lia.
    + apply (Hr 2%nat). lia.
    + apply (Hr 3%nat). lia.
    + rw Z.sub_simpl_r. apply switched_out; lia.
  - by rw /switched Z.eqb_refl.
  - apply switched_out.
Qed.

(** *** Entry *)

Lemma alltraps_run e ws a c d b sp bp si di cs ds es fs gs ss ip fl m : 52 ≤ e < 4294967296 →
  run alltraps (stk e ws (mkR a c d b sp bp si di) (mkG cs ds es fs gs ss) ip fl m) =
    stk (e - 52) ([e - 48; di; si; bp; e - 16; b; d; c; a; 65536 * upper (e - 16) + gs; 65536 * upper (e - 12) + fs;
           65536 * upper (e - 8) + es; 65536 * upper (e - 4) + ds] ++ ws)
      (mkR (65536 * (a / 65536) + 16) c d b sp bp si di) (mkG cs 16 16 fs gs ss) ip fl m.
Proof.
  intros He. set (r := mkR a c d b sp bp si di). set (g := mkG cs ds es fs gs ss).
  rw /alltraps. do 4 (rw run_cons; rewrite -> st_PushS by lia). rw run_cons. rewrite -> st_Pushal by lia. addr.
  set (ws' := r_edi r :: _). set (r' := mkR (65536 * (a / 65536) + 16) c d b sp bp si di). rw !run_cons.
  change (exec (MovwI _) _) with (stk (e - 48) ws' r' g ip fl m).
  assert (∀ x g, exec (MovwS x) (stk (e - 48) ws' r' g ip fl m) = stk (e - 48) ws' r' (set_seg x 16 g) ip fl m) as Es.
  { intros x g'. rw /exec /sets /stk /getr /=. by rw u16_seg. }
  rw !Es. cbn [exec]. rw st_esp st_push; [lia|]. by addr.
Qed.

(** What the processor pushed, and [vector]'s words, are on the stack before [alltraps]: [wss]
    are the words of the old stack. *)
Lemma vector_run n e ws r g ip fl m : 8 ≤ e < 4294967296 →
  run (vector n) (stk e ws r g ip fl m) =
    if has_err n then stk (e - 4) (n :: ws) r g ip fl m else stk (e - 8) (n :: 0 :: ws) r g ip fl m.
Proof.
  intros He. rw /vector. fold (has_err n). destruct (has_err n); rw /run; cbn [negb app foldl exec]; repeat (rewrite -> st_push by lia); by addr.
Qed.

Definition hw_words (s : mach) (n err e : Z) : list Z :=
  [n; (if has_err n then err else 0); m_eip s; 65536 * upper (e - 8) + getg CS s; m_fl s].
Lemma enter_run soft n err cs v e ws r g off s :
  28 ≤ e < 4294967296 → (soft = true → has_err n = false) →
  let s0 := stk e ws r g (m_eip s) (m_fl s) (m_mem s) in
  let s2 := push (m_eip s) (push_seg (getg CS s) (push (m_fl s) s0)) in
  let s3 := if has_err n && negb soft then push err s2 else s2 in
  ∃ fl, run (vector n) (setfl off (sets CS cs (seteip v s3))) = stk (e - 20) (hw_words s n err e ++ ws) r (set_seg CS cs g) v fl (m_mem s).
Proof.
  intros He Hs. cbn zeta. exists off. rewrite -> (st_push e) by lia. rewrite -> st_push_seg by lia. rewrite -> st_push by lia. addr.
  rw /hw_words. destruct (has_err n) eqn:En; [destruct soft; [by specialize (Hs eq_refl)|]|]; cbn [andb negb]; [rewrite -> st_push by lia|].
  - change (setfl ?f (sets ?x ?c (seteip ?v (stk ?e ?w ?r ?g ?i ?l ?m)))) with (stk e w r (set_seg x c g) v f m). rw vector_run ?En; [lia|]. by addr.
  - change (setfl ?f (sets ?x ?c (seteip ?v (stk ?e ?w ?r ?g ?i ?l ?m)))) with (stk e w r (set_seg x c g) v f m). rw vector_run ?En; [lia|]. by addr.
Qed.

(** A frame on the stack, below an argument. *)
Lemma read_stacked e ws m : (18 ≤ length ws)%nat →
  read_tf (stacked e ws m) (e + 4) =
    mkTf (ws !!! 1%nat) (ws !!! 2%nat) (ws !!! 3%nat) (ws !!! 4%nat) (ws !!! 5%nat) (ws !!! 6%nat) (ws !!! 7%nat) (ws !!! 8%nat)
      (u16 (ws !!! 9%nat)) (u16 (ws !!! 10%nat)) (u16 (ws !!! 11%nat)) (u16 (ws !!! 12%nat)) (ws !!! 13%nat) (ws !!! 14%nat) (ws !!! 15%nat)
      (u16 (ws !!! 16%nat)) (ws !!! 17%nat) (stacked e ws m (e + 72)) (u16 (stacked e ws m (e + 76))).
Proof.
  intros Hl. rw /read_tf -!Z.add_assoc.
  rw -(stacked_read ws m 1 e); [lia|]. rw -(stacked_read ws m 2 e); [lia|]. rw -(stacked_read ws m 3 e); [lia|]. rw -(stacked_read ws m 4 e); [lia|].
  rw -(stacked_read ws m 5 e); [lia|]. rw -(stacked_read ws m 6 e); [lia|]. rw -(stacked_read ws m 7 e); [lia|]. rw -(stacked_read ws m 8 e); [lia|].
  rw -(stacked_read ws m 9 e); [lia|]. rw -(stacked_read ws m 10 e); [lia|]. rw -(stacked_read ws m 11 e); [lia|]. rw -(stacked_read ws m 12 e); [lia|].
  rw -(stacked_read ws m 13 e); [lia|]. rw -(stacked_read ws m 14 e); [lia|]. rw -(stacked_read ws m 15 e); [lia|]. rw -(stacked_read ws m 16 e); [lia|].
  rw -(stacked_read ws m 17 e); [lia|]. reflexivity.
Qed.
Lemma at_trap_st e ws t m tfp r g ip fl kesp :
  e = tfp - 4 → kesp = e + 4 * Z.of_nat (length ws) → read_tf (stacked e (tfp :: ws) m) tfp = t →
  g_ds g = 16 → g_es g = 16 → g_cs g = 8 →
  at_trap (kesp + 4) t m tfp (stk e (tfp :: ws) r g ip fl m).
Proof.
  intros -> -> Ht Hd Hes Hc. split.
  - by rw st_esp.
  - rw /top st_esp. cbn. by rw Z.eqb_refl.
  - done.
  - done.
  - by rw /cpl /getg /stk /= Hc.
  - intros x Hx. apply stacked_out. cbn [length]. lia.
Qed.
Lemma run_code_app l1 l2 s : run (l1 ++ l2) s = run l2 (run l1 s).
Proof. apply foldl_app. Qed.

Lemma user_enter n err soft v kesp off s :
  80 ≤ kesp < 4294967296 → segs_ok (m_g s) → (soft = true → has_err n = false) →
  ∃ s1, enter (EEnter 8 v 0 (Some (16, kesp)) off) soft n err s = Some s1 ∧ m_eip s1 = v ∧
    at_trap kesp (frame_of kesp n err s) (m_mem s) (kesp - 76) (run (vector n ++ alltraps) s1).
Proof.
  intros Hk Hg Hs. eexists. split; [done|]. split; [done|]. rw run_code_app.
  destruct s as [ [a c d b sp bp si di] [cs ds es fs gs ss] ip fl m]. set (s := mkMach _ _ _ _ _).
  rw /segs_ok in Hg. repeat (apply Forall_cons in Hg as [? Hg]). cbn [m_g g_cs g_ds g_es g_fs g_gs g_ss] in *.
  change (sets SS 16 (setr ESP kesp s)) with (stk kesp [] (mkR a c d b sp bp si di) (mkG cs ds es fs gs 16) ip fl m).
  rewrite -> st_push_seg by lia. rewrite -> st_push by lia. addr.
  destruct (enter_run soft n err 8 v (kesp - 8) [sp; 65536 * upper (kesp - 4) + ss] (mkR a c d b sp bp si di) (mkG cs ds es fs gs 16)
    (if off then Z.ldiff (Z.ldiff fl FL_GATE) FL_IF else Z.ldiff fl FL_GATE) s) as [fl' E]; [lia|done|].
  cbn zeta in E. rw E. rw alltraps_run; [lia|]. addr.
  replace kesp with (kesp - 4 + 4) at 1 by lia. apply at_trap_st; [lia|cbn; lia| |done..].
  replace (kesp - 76) with (kesp - 80 + 4) by lia. rw read_stacked; [cbn; lia|].
  replace (kesp - 80 + 72) with (kesp - 80 + 4 * Z.of_nat 18) by lia. replace (kesp - 80 + 76) with (kesp - 80 + 4 * Z.of_nat 19) by lia.
  rw !stacked_read; [cbn; lia..|]. cbn [app hw_words lookup_total list_lookup_total]. by rewrite -> !u16_seg by done.
Qed.
(** In the kernel the stack stays, and the frame has no stack pointer and segment: the words
    there are the interrupted code's. *)
Lemma kernel_enter n err v off s :
  let kesp := getr ESP s in
  72 ≤ kesp < 4294967288 → segs_ok (m_g s) →
  ∃ s1, enter (EEnter 8 v 0 None off) false n err s = Some s1 ∧ m_eip s1 = v ∧ getg SS (run (vector n ++ alltraps) s1) = getg SS s ∧
    at_trap kesp (kframe_of n err s) (m_mem s) (kesp - 68) (run (vector n ++ alltraps) s1).
Proof.
  destruct s as [ [a c d b sp bp si di] [cs ds es fs gs ss] ip fl m]. set (s := mkMach _ _ _ _ _). change (getr ESP s) with sp. cbn zeta.
  intros Hk Hg. eexists. split; [done|]. split; [done|]. rw (run_code_app (vector n) alltraps).
  rw /segs_ok in Hg. repeat (apply Forall_cons in Hg as [? Hg]). cbn [m_g g_cs g_ds g_es g_fs g_gs g_ss] in *.
  destruct (enter_run false n err 8 v sp [] (mkR a c d b sp bp si di) (mkG cs ds es fs gs ss)
    (if off then Z.ldiff (Z.ldiff fl FL_GATE) FL_IF else Z.ldiff fl FL_GATE) s) as [fl' E]; [lia|done|].
  cbn zeta in E. change (stk sp [] _ _ _ _ _) with s in E. rw E. rw alltraps_run; [lia|]. addr. split; [done|].
  replace sp with (sp - 4 + 4) at 1 by lia. apply at_trap_st; [lia|cbn; lia| |done..].
  replace (sp - 68) with (sp - 72 + 4) by lia. rw read_stacked; [cbn; lia|].
  rewrite -> !stacked_out by (cbn; lia). cbn [app hw_words lookup_total list_lookup_total]. rewrite -> !u16_seg by done.
  rw /kframe_of. f_equal; [f_equal; lia|do 2 f_equal; lia].
Qed.

(** ** Traps and system calls *)

Section traps.
Context (gdt_addr ts_addr idt_addr : Z) (vectors : Z → Z) (c : xcpu) (idt : list gatedesc) (kstack pgdir : Z).
Hypothesis gdt_len : length (c_gdt c) = 6%nat.
Hypothesis idt_len : length idt = 256%nat.
Hypothesis ts_range : 0 ≤ ts_addr < 4294967296.
Hypothesis kstack_range : 0 ≤ kstack ∧ kstack + KSTACKSIZE < 4294967296.
Hypothesis vectors_range : ∀ n, 0 ≤ vectors n < 4294967296.
Let tables := switchuvm_tables ts_addr kstack pgdir (idtinit idt_addr (seginit gdt_addr c)).
Let kesp := kstack + KSTACKSIZE.
Let way soft l n := interrupt ts_addr tables (tvinit vectors idt) soft l n.

Lemma way_user soft n : 0 ≤ n < 256 → (soft = true → n = T_SYSCALL) →
  way soft 3 n = EEnter 8 (vectors n) 0 (Some (16, kesp)) (negb (n =? T_SYSCALL)).
Proof.
  intros Hn Hs. rw /way /tables interrupt_c' //; [by right|]. destruct soft; [|done]. by rw (Hs eq_refl).
Qed.
Lemma way_kernel n : 0 ≤ n < 256 → way false 0 n = EEnter 8 (vectors n) 0 None (negb (n =? T_SYSCALL)).
Proof. intros Hn. rw /way /tables interrupt_c' //. by left. Qed.
Lemma kesp_range : 80 ≤ kesp < 4294967296.
Proof. rw /kesp. destruct kstack_range. rw /KSTACKSIZE in H0 |- *. lia. Qed.

Lemma resume_frame n err s m : resume (frame_of kesp n err s) m = set_mem m s.
Proof. by destruct s as [ [] [] ? ? ?]. Qed.

(** The way of a trap from user mode, down to the call of [trap] and back. *)
Lemma user_trap s n err soft :
  segs_ok (m_g s) → cpl s = 3 → 0 ≤ n < 256 → (soft = true → n = T_SYSCALL) →
  ∃ s1, enter (way soft (cpl s) n) soft n err s = Some s1 ∧ m_eip s1 = vectors n ∧
    let s2 := run (vector n ++ alltraps) s1 in
    at_trap kesp (frame_of kesp n err s) (m_mem s) (kesp - 76) s2 ∧
    ∀ s3, getr ESP s3 = getr ESP s2 → cpl s3 = 0 → let t := read_tf (m_mem s3) (kesp - 76) in
      tf_cs t mod 4 = 3 → run alltraps_return s3 = resume t (m_mem s3).
Proof.
  intros Hg Hc Hn Hs. pose proof kesp_range as Hk. rw Hc way_user //.
  destruct (user_enter n err soft (vectors n) kesp (negb (n =? T_SYSCALL)) s) as (s1 & E1 & Ev & Ht); [lia|done|by intros ->; rw (Hs eq_refl)|].
  exists s1. split; [done|]. split; [done|]. split; [done|]. intros s3 He Hc3 t Hcs. rw (at_esp _ _ _ _ _ Ht) in He.
  rw (alltraps_return_spec s3 (kesp - 76)) //; [lia..|]. fold t. by rw Hcs.
Qed.

(** C12. With the tables of [seginit], [tvinit], [idtinit] and [switchuvm], an interrupt, an
    exception or [int $T_SYSCALL] in a user program runs its vector of vectors.pl and
    [alltraps], and these call [trap] on the process's kernel stack with a pointer to a trap
    frame that holds every register of the program, the trap number and the error code,
    writing nothing else.  When [trap] returns, the program goes on from what the frame then
    holds; with the frame as it was, exactly where it was interrupted. *)
Theorem user_trap_roundtrip s n err soft :
  segs_ok (m_g s) → cpl s = 3 → 0 ≤ n < 256 → (soft = true → n = T_SYSCALL) →
  ∃ s1, enter (way soft (cpl s) n) soft n err s = Some s1 ∧ m_eip s1 = vectors n ∧
    let s2 := run (vector n ++ alltraps) s1 in
    at_trap kesp (frame_of kesp n err s) (m_mem s) (kesp - 76) s2 ∧
    (∀ s3, getr ESP s3 = getr ESP s2 → cpl s3 = 0 → let t := read_tf (m_mem s3) (kesp - 76) in
      (tf_cs t mod 4 = 3 → run alltraps_return s3 = resume t (m_mem s3)) ∧
      (t = frame_of kesp n err s → run alltraps_return s3 = set_mem (m_mem s3) s)).
Proof.
  intros Hg Hc Hn Hs. destruct (user_trap s n err soft Hg Hc Hn Hs) as (s1 & E1 & Ev & Ht & Hr). exists s1. split; [done|]. split; [done|]. split; [done|].
  intros s3 He Hc3 t. split; [by apply Hr|]. intros E. rw (Hr s3 He Hc3) -/t E ?resume_frame //. by destruct s as [ [] [] ? ? ?].
Qed.

(** An interrupt in the kernel takes the stack that is there, and leaves no trace. *)
Lemma kernel_trap_transparent s n err :
  segs_ok (m_g s) → cpl s = 0 → 0 ≤ n < 256 → 72 ≤ getr ESP s < 4294967288 →
  ∃ s1, enter (way false (cpl s) n) false n err s = Some s1 ∧ m_eip s1 = vectors n ∧
    let s2 := run (vector n ++ alltraps) s1 in let tfp := getr ESP s - 68 in
    at_trap (getr ESP s) (kframe_of n err s) (m_mem s) tfp s2 ∧
    (∀ s3, getr ESP s3 = getr ESP s2 → getg SS s3 = getg SS s2 → cpl s3 = 0 →
      read_tf (m_mem s3) tfp = kframe_of n err s → run alltraps_return s3 = set_mem (m_mem s3) s).
Proof.
  intros Hg Hc Hn Hk. rw Hc way_kernel //.
  destruct (kernel_enter n err (vectors n) (negb (n =? T_SYSCALL)) s) as (s1 & E1 & Ev & Hss & Ht); [done|done|].
  exists s1. split; [done|]. split; [done|]. split; [done|]. intros s3 He Hss3 Hc3 Hf. rw (at_esp _ _ _ _ _ Ht) in He.
  rw (alltraps_return_spec s3 (getr ESP s - 68)) //; [lia..|]. rw Hf Hss3 Hss. destruct s as [ [] [] ? ? ?]. rw /cpl /getg /= in Hc |- *. rw Hc /=.
  rw /setr /sets /resume /set_mem /getr /=. by rw Z.sub_simpl_r.
Qed.

(** A system call stub of usys.S: [trap] gets a frame with the trap number [T_SYSCALL],
    the number of the call in [eax], and the stack pointer of the program, above which its
    arguments lie.  When the kernel has put its result in the frame's [eax], the stub returns
    it to its caller, with every other register as before the call. *)
Theorem syscall_stub num s :
  segs_ok (m_g s) → cpl s = 3 →
  let s0 := run (stub num) s in
  ∃ s1, enter (way true (cpl s0) T_SYSCALL) true T_SYSCALL 0 s0 = Some s1 ∧ m_eip s1 = vectors T_SYSCALL ∧
    let s2 := run (vector T_SYSCALL ++ alltraps) s1 in
    let t := read_tf (m_mem s2) (top s2) in
    tf_trapno t = T_SYSCALL ∧ tf_eax t = num ∧ tf_esp t = getr ESP s ∧ tf_cs t = getg CS s ∧
    ∀ s3 r, getr ESP s3 = getr ESP s2 → cpl s3 = 0 → read_tf (m_mem s3) (top s2) = set_eax r t →
      m_mem s3 (getr ESP s) = top s →
      run stub_return (run alltraps_return s3) =
        set_mem (m_mem s3) (seteip (top s) (setr EAX r (setr ESP (u32 (getr ESP s + 4)) s))).
Proof.
  intros Hg Hc s0. destruct (user_trap s0 T_SYSCALL 0 true) as (s1 & E1 & Ev & Ht & Hr); [done|done|done|done|].
  exists s1. split; [done|]. split; [done|]. cbn zeta. rw (at_arg _ _ _ _ _ Ht) (at_frame _ _ _ _ _ Ht).
  destruct s as [ [a c0 d b sp bp si di] [cs ds es fs gs ss] ip fl m]. do 4 (split; [done|]).
  intros s3 r He Hc3 Hf Hra. rw (Hr s3 He Hc3) Hf //. rw /getr /= in Hra. rw /stub_return /run /exec /= /top /getr /drop_top /setr /seteip /set_mem /getr /=.
  by rw Hra.
Qed.
End traps.

(** ** Context switches *)

(** [swtch(old, new)] goes on from the context at [new]; and when later another call
    switches to the context that the first one left in [*old], with that context as it was
    left, the first caller goes on at its return address, with its stack and its callee-saved
    registers: its call of [swtch] has returned. *)
Theorem swtch_resumes s old new s3 old3 :
  calls s old new → calls s3 old3 (m_mem (run swtch s) old) →
  read_ctx (m_mem s3) (m_mem (run swtch s) old) = read_ctx (m_mem (run swtch s)) (m_mem (run swtch s) old) →
  continues (read_ctx (m_mem s) new) (new + 20) (run swtch s) ∧
  continues (ctx_of s) (getr ESP s + 4) (run swtch s3).
Proof.
  intros H1 H3 Hk. destruct (swtch_spec _ _ _ H1) as (Hc & _ & _ & Hx & Ho & _). split; [done|].
  destruct (swtch_spec _ _ _ H3) as (Hc3 & _). rw Hk Ho Hx in Hc3. by replace (getr ESP s + 4) with (getr ESP s - 16 + 20) by lia.
Qed.

Section starting.
Context {K : Type} `{!ProcEnv K} (forkret_addr trapret_addr : Z).

(** Where [allocproc] puts things. *)
Lemma allocproc_layout s s' i : allocproc forkret_addr trapret_addr s = Ok (Some i, s') →
  ∃ p, ps_proc s' !! i = Some p ∧ p_kstack p ≠ 0 ∧ p_tfp p = p_kstack p + 4020 ∧ p_ctxp p = p_kstack p + 3996 ∧
    p_ctx p = mkContext 0 0 0 0 forkret_addr ∧ p_ret p = trapret_addr.
Proof.
  revert s'. cut (wlp (allocproc forkret_addr trapret_addr) (λ o s', ∀ i, o = Some i → ∃ p, ps_proc s' !! i = Some p ∧ p_kstack p ≠ 0 ∧
    p_tfp p = p_kstack p + 4020 ∧ p_ctxp p = p_kstack p + 3996 ∧ p_ctx p = mkContext 0 0 0 0 forkret_addr ∧ p_ret p = trapret_addr) s).
  { intros Hw s' E. by eapply Hw. }
  eapply st_allocproc; [apply st_self|done|done|]. intros s' j p k Hj _ Hk (Hl & _) i' [= <-].
  eexists. split; [rw Hl; apply list_lookup_insert_eq; by eapply lookup_lt_Some|]. split; [done|].
  rw /KSTACKSIZE /sizeof_trapframe /Proc.sizeof_context. cbn. split; [lia|]. by split; [lia|].
Qed.

(** C28. The first switch to a process that [allocproc] has made, its kernel stack holding the
    context and the return address that [allocproc] stored, enters [forkret], which returns to
    [trapret]; and [trapret] starts the program from the trap frame at [p->tf]. *)
Theorem new_process_starts s s' i :
  allocproc forkret_addr trapret_addr s = Ok (Some i, s') →
  ∃ p, ps_proc s' !! i = Some p ∧
    ∀ c old, 0 < p_kstack p → p_kstack p + KSTACKSIZE < 4294967296 → cpl c = 0 →
      calls c old (p_ctxp p) → getr ESP c ≤ p_kstack p ∨ p_kstack p + KSTACKSIZE ≤ getr ESP c - 16 →
      old < p_kstack p ∨ p_kstack p + KSTACKSIZE ≤ old →
      read_ctx (m_mem c) (p_ctxp p) = p_ctx p → m_mem c (p_ctxp p + sizeof_context) = p_ret p →
      m_eip (run swtch c) = forkret_addr ∧ top (run swtch c) = trapret_addr ∧
      read_tf (m_mem (run swtch c)) (p_tfp p) = read_tf (m_mem c) (p_tfp p) ∧
      ∀ c2, getr ESP c2 = getr ESP (run swtch c) + 4 → cpl c2 = 0 → let t := read_tf (m_mem c2) (p_tfp p) in
        tf_cs t mod 4 = 3 → run trapret c2 = resume t (m_mem c2).
Proof.
  intros E. destruct (allocproc_layout _ _ _ E) as (p & Hp & _ & Htf & Hcx & Hctx & Hret). exists p. split; [done|].
  rw Htf Hcx Hctx Hret /KSTACKSIZE /sizeof_context. intros c old Hk Hw Hc Hca Hst Hold Hx Hr.
  destruct (swtch_spec _ _ _ Hca) as ((_ & _ & _ & _ & Hip & Hsp) & Hg & _ & _ & _ & Hm). rw Hx in Hip.
  assert (∀ x, p_kstack p ≤ x < p_kstack p + 4096 → m_mem (run swtch c) x = m_mem c x) as Hkeep by (intros x Hxr; apply Hm; lia).
  split; [done|]. split; [rw /top Hsp Hkeep //; lia|]. split; [rw /read_tf; by rewrite -> !Hkeep by lia|].
  intros c2 He Hc2 Ht. rw (trapret_spec c2 (p_kstack p + 4020)) //; [rw He Hsp; lia|lia|lia|]. by rw Ht.
Qed.
End starting.
End asm.

(** A user program with the tables of [user_entry_witness]. *)
Definition ex_vectors (n : Z) : Z := 0x80106000 + 10 * n mod 2560.
Definition ex_user : mach := mkMach (mkR 1 2 3 4 0x2fd8 0x2fe8 5 6) (mkG 27 35 35 0 0 35) 0x1c 0x202 (λ x, x / 4).
Lemma ex_vectors_range n : 0 ≤ ex_vectors n < 4294967296.
Proof. rw /ex_vectors. dlia. Qed.
Lemma ex_segs : segs_ok (m_g ex_user).
Proof. by repeat constructor. Qed.

Lemma user_trap_roundtrip_witness :
  let c := switchuvm_tables 0x80112000 0x8dffe000 0x8dfff000 (idtinit 0x80114000 (seginit 0x80111000 ex_cpu)) in
  ∃ s1, enter (λ _, 0) (interrupt 0x80112000 c (tvinit ex_vectors ex_idt) false 3 14) false 14 5 ex_user = Some s1 ∧ m_eip s1 = ex_vectors 14 ∧
    let s2 := run (λ _, 0) (vector 14 ++ alltraps) s1 in
    at_trap 0x8dfff000 (frame_of 0x8dfff000 14 5 ex_user) (m_mem ex_user) (0x8dfff000 - 76) s2 ∧
    (∀ s3, getr ESP s3 = getr ESP s2 → cpl s3 = 0 → let t := read_tf (m_mem s3) (0x8dfff000 - 76) in
      (tf_cs t mod 4 = 3 → run (λ _, 0) alltraps_return s3 = resume t (m_mem s3)) ∧
      (t = frame_of 0x8dfff000 14 5 ex_user → run (λ _, 0) alltraps_return s3 = set_mem (m_mem s3) ex_user)).
Proof.
  refine (user_trap_roundtrip (λ _, 0) 0x80111000 0x80112000 0x80114000 ex_vectors ex_cpu ex_idt 0x8dffe000 0x8dfff000 _ _ _ _ _ ex_user 14 5 false _ _ _ _).
  - reflexivity.
  - reflexivity.
  - lia.
  - by vm_compute.
  - apply ex_vectors_range.
  - apply ex_segs.
  - reflexivity.
  - lia.
  - discriminate.
Defined.

Lemma syscall_stub_witness :
  let c := switchuvm_tables 0x80112000 0x8dffe000 0x8dfff000 (idtinit 0x80114000 (seginit 0x80111000 ex_cpu)) in
  ∃ s1, enter (λ _, 0) (interrupt 0x80112000 c (tvinit ex_vectors ex_idt) true 3 T_SYSCALL) true T_SYSCALL 0 (run (λ _, 0) (stub 11) ex_user) = Some s1 ∧
    tf_eax (read_tf (m_mem (run (λ _, 0) (vector T_SYSCALL ++ alltraps) s1)) (top (run (λ _, 0) (vector T_SYSCALL ++ alltraps) s1))) = 11.
Proof.
  destruct (syscall_stub (λ _, 0) 0x80111000 0x80112000 0x80114000 ex_vectors ex_cpu ex_idt 0x8dffe000 0x8dfff000) with (num := 11) (s := ex_user) as (s1 & E & _ & _ & Ea & _).
  - reflexivity.
  - reflexivity.
  - lia.
  - by vm_compute.
  - apply ex_vectors_range.
  - apply ex_segs.
  - reflexivity.
  - exists s1. split; [exact E|exact Ea].
Defined.

(** The scheduler, and a process whose context is at [0x3000], each calling [swtch]. *)
Definition ex_caller (esp old new ra : Z) (ctx : context) : mach :=
  mkMach (mkR 0 0 0 7 esp 8 9 10) (mkG 8 16 16 0 0 16) 0 0
    (λ x, if x =? esp then ra else if x =? esp + 4 then old else if x =? esp + 8 then new
      else if x =? new then x_edi ctx else if x =? new + 4 then x_esi ctx else if x =? new + 8 then x_ebx ctx
      else if x =? new + 12 then x_ebp ctx else if x =? new + 16 then x_eip ctx else 0).
Definition ex_sched : mach := ex_caller 0x2000 0x100 0x3000 0x44 (mkContext 1 2 3 4 0x55).
Definition ex_back : mach := ex_caller 0x3014 0x104 0x1ff0 0x66 (mkContext 10 9 7 8 0x44).
Ltac calls := split; [split; vm_compute; congruence|reflexivity|reflexivity|split; vm_compute; congruence|vm_compute; intuition congruence..].
Lemma swtch_resumes_witness :
  m_eip (run (λ _, 0) swtch ex_sched) = 0x55 ∧ m_eip (run (λ _, 0) swtch ex_back) = 0x44 ∧ getr ESP (run (λ _, 0) swtch ex_back) = 0x2004.
Proof.
  destruct (swtch_resumes (λ _, 0) ex_sched 0x100 0x3000 ex_back 0x104) as [H1 H2].
  - calls.
  - calls.
  - reflexivity.
  - split; [apply H1|]. split; [apply H2|apply H2].
Defined.

(** The scheduler about to run the first process that [allocproc] makes,
    in a table of one slot; the stack is at [KERNLINK], as [null_env] says. *)
Definition ex_table : pstate unit := mkPs [proc_zero] 1 1 None (mkCpu 0 true false None ∅) tt.
Definition ex_first : mach :=
  mkMach (mkR 0 0 0 7 0x2000 8 9 10) (mkG 8 16 16 0 0 16) 0 0
    (λ x, if x =? 0x2004 then 0x100 else if x =? 0x2008 then KERNLINK + 3996
      else if x =? KERNLINK + 4012 then 0x80103000 else if x =? KERNLINK + 4016 then 0x80105000
      else if x =? KERNLINK + 4080 then 27 else 0).
Definition ex_made : pstate unit := match allocproc 0x80103000 0x80105000 ex_table with Ok (_, s) => s | _ => ex_table end.
Lemma new_process_starts_witness :
  allocproc 0x80103000 0x80105000 ex_table = Ok (Some 0%nat, ex_made) ∧
  m_eip (run (λ _, 0) swtch ex_first) = 0x80103000 ∧ top (run (λ _, 0) swtch ex_first) = 0x80105000.
Proof.
  assert (allocproc 0x80103000 0x80105000 ex_table = Ok (Some 0%nat, ex_made)) as E by by vm_compute.
  split; [exact E|]. destruct (new_process_starts (λ _, 0) 0x80103000 0x80105000 ex_table ex_made 0%nat E) as (p & Hp & H).
  vm_compute in Hp. injection Hp as <-. destruct (H ex_first 0x100) as (H1 & H2 & _).
  - by vm_compute.
  - by vm_compute.
  - reflexivity.
  - calls.
  - left. by vm_compute.
  - left. by vm_compute.
  - reflexivity.
  - reflexivity.
  - split; [exact H1|exact H2].
Defined.
