(* ===== verification/Intr.v ===== *)
(** * Interrupt controllers and the clock (lapic.c, ioapic.c, picirq.c, date.h)

    The local APIC is its registers and the interprocessor interrupts it has sent; the I/O
    APIC its register window; the real-time clock what its registers show at each read.

    Every interrupt line is disabled until it is enabled, and then goes to the vector that
    [trap] expects; a started processor gets the interrupts of the start-up protocol with the
    page of the entry code; and [cmostime] returns a date that the clock showed at one
    moment, although it reads the fields one after the other. *)

From S2P Require Import Prelude Params Trap.

(** ** The local APIC *)

Definition ID : Z := 0x0020 / 4.
Definition VER : Z := 0x0030 / 4.
Definition TPR : Z := 0x0080 / 4.
Definition EOI : Z := 0x00B0 / 4.
Definition SVR : Z := 0x00F0 / 4.
Definition ENABLE : Z := 0x00000100.
Definition ESR : Z := 0x0280 / 4.
Definition ICRLO : Z := 0x0300 / 4.
Definition INIT : Z := 0x00000500.
Definition STARTUP : Z := 0x00000600.
Definition DELIVS : Z := 0x00001000.
Definition ASSERT : Z := 0x00004000.
Definition LEVEL : Z := 0x00008000.
Definition BCAST : Z := 0x00080000.
Definition ICRHI : Z := 0x0310 / 4.
Definition TIMER : Z := 0x0320 / 4.
Definition X1 : Z := 0x0000000B.
Definition PERIODIC : Z := 0x00020000.
Definition PCINT : Z := 0x0340 / 4.
Definition LINT0 : Z := 0x0350 / 4.
Definition LINT1 : Z := 0x0360 / 4.
Definition ERROR : Z := 0x0370 / 4.
Definition MASKED : Z := 0x00010000.
Definition TICR : Z := 0x0380 / 4.
Definition TDCR : Z := 0x03E0 / 4.
Definition IRQ_ERROR : Z := 19.

Record lapic := mkLapic {
  la_on : bool;               (* the pointer [lapic] is set *)
  la_reg : Z → Z;
  la_ipis : list (Z * Z);     (* the interrupts sent: ICRHI and ICRLO, latest first *)
  la_polls : nat;             (* reads of ICRLO so far *)
  la_cmos : list (Z * Z);     (* writes to the CMOS ports, latest first *)
  la_wrv : Z * Z;             (* the warm reset vector *)
}.

Section lapic.
(** Whether a read of ICRLO finds the last interrupt still pending, and a number of reads
    after which it does not. *)
Context (pending : nat → bool) (patience : nat).

(** A write to ICRLO sends an interrupt to the APIC that ICRHI names. *)
Definition lapicw (index value : Z) : M lapic unit :=
  modify (λ s, mkLapic (la_on s) (λ i, if i =? index then u32 value else la_reg s i)
    (if index =? ICRLO then (la_reg s ICRHI, u32 value) :: la_ipis s else la_ipis s) (la_polls s) (la_cmos s) (la_wrv s)).
Definition read_icrlo : M lapic Z := λ s,
  Ok (Z.lor (Z.land (la_reg s ICRLO) (Z.lnot DELIVS)) (if pending (la_polls s) then DELIVS else 0),
    mkLapic (la_on s) (la_reg s) (la_ipis s) (S (la_polls s)) (la_cmos s) (la_wrv s)).
Fixpoint wait_delivery (k : nat) : M lapic unit :=
  match k with
  | O => sleeps
  | S k => x ← read_icrlo; if negb (Z.land x DELIVS =? 0) then wait_delivery k else mret tt
  end.

Definition lapicinit : M lapic unit :=
  on ← gets la_on;
  if negb on then mret tt else
  lapicw SVR (Z.lor ENABLE (T_IRQ0 + IRQ_SPURIOUS)) ;;
  lapicw TDCR X1 ;;
  lapicw TIMER (Z.lor PERIODIC (T_IRQ0 + IRQ_TIMER)) ;;
  lapicw TICR 10000000 ;;
  lapicw LINT0 MASKED ;;
  lapicw LINT1 MASKED ;;
  ver ← gets (λ s, la_reg s VER);
  when (4 <=? Z.land (Z.shiftr ver 16) 0xFF) (lapicw PCINT MASKED) ;;
  lapicw ERROR (T_IRQ0 + IRQ_ERROR) ;;
  lapicw ESR 0 ;;
  lapicw ESR 0 ;;
  lapicw EOI 0 ;;
  lapicw ICRHI 0 ;;
  lapicw ICRLO (Z.lor (Z.lor BCAST INIT) LEVEL) ;;
  wait_delivery patience ;;
  lapicw TPR 0.

Definition lapicid : M lapic Z :=
  on ← gets la_on;
  if negb on then mret 0 else gets (λ s, Z.shiftr (la_reg s ID) 24).

Definition lapiceoi : M lapic unit := on ← gets la_on; when on (lapicw EOI 0).

Definition CMOS_PORT : Z := 0x70.
Definition CMOS_RETURN : Z := 0x71.
Definition out_cmos (port v : Z) : M lapic unit :=
  modify (λ s, mkLapic (la_on s) (la_reg s) (la_ipis s) (la_polls s) ((port, u8 v) :: la_cmos s) (la_wrv s)).
Definition set_wrv (x : Z * Z) : M lapic unit :=
  modify (λ s, mkLapic (la_on s) (la_reg s) (la_ipis s) (la_polls s) (la_cmos s) x).

(** [for(i = 0; i < 2; i++)]: the startup interrupts. *)
Fixpoint startup (k : nat) (apicid addr : Z) : M lapic unit :=
  match k with
  | O => mret tt
  | S k =>
      lapicw ICRHI (Z.shiftl apicid 24) ;;
      lapicw ICRLO (Z.lor STARTUP (Z.shiftr addr 12)) ;;
      startup k apicid addr
  end.
Definition lapicstartap (apicid addr : Z) : M lapic unit :=
  out_cmos CMOS_PORT 0xF ;;
  out_cmos (CMOS_PORT + 1) 0x0A ;;
  set_wrv (0, u16 (Z.shiftr addr 4)) ;;
  lapicw ICRHI (Z.shiftl apicid 24) ;;
  lapicw ICRLO (Z.lor (Z.lor INIT LEVEL) ASSERT) ;;
  lapicw ICRLO (Z.lor INIT LEVEL) ;;
  startup 2 apicid addr.

(** What the protocol says that an interrupt is for. *)
Definition ipi_dest (x : Z * Z) : Z := x.1 / 16777216.
Definition ipi_mode (x : Z * Z) : Z := x.2 / 256 mod 8.
Definition ipi_vector (x : Z * Z) : Z := x.2 mod 256.
Definition ipi_assert (x : Z * Z) : bool := Z.testbit x.2 14.

(** The entry code's page and the processor are in the interrupts that are sent: INIT, its
    end, and STARTUP twice. *)
Lemma lapicstartap_starts apicid addr s : 0 ≤ apicid < 256 → 0 ≤ addr < 1048576 → addr mod 4096 = 0 →
  ∃ s' i1 i2 i3, lapicstartap apicid addr s = Ok (tt, s') ∧ la_ipis s' = [i3; i3; i2; i1] ++ la_ipis s ∧
    ipi_dest i1 = apicid ∧ ipi_mode i1 = 5 ∧ ipi_assert i1 = true ∧
    ipi_dest i2 = apicid ∧ ipi_mode i2 = 5 ∧ ipi_assert i2 = false ∧
    ipi_dest i3 = apicid ∧ ipi_mode i3 = 6 ∧ ipi_vector i3 * 4096 = addr.
Proof.
  intros Hi Ha Hp. set (h := u32 (Z.shiftl apicid 24)). assert (h / 16777216 = apicid) as Hh.
  { rw /h Z.shiftl_mul_pow2 // u32_small; [change (2 ^ 24) with 16777216; lia|]. change (2 ^ 24) with 16777216. dlia. }
  assert (Z.lor STARTUP (Z.shiftr addr 12) = 0x600 + addr / 4096) as Es.
  { rw (lor_disjoint_add STARTUP _ 8) //; [rw Z.shiftr_div_pow2 //; change (2 ^ 12) with 4096; change (2 ^ 8) with 256; dlia|]. by rw Z.shiftr_div_pow2. }
  destruct s as [on rg ip po cm wr]. rw /lapicstartap /out_cmos /set_wrv /lapicw. cbn [startup]. rw /lapicw.
  repeat (rw modify_bind; cbn [la_on la_reg la_ipis la_polls la_cmos la_wrv]).
  eexists _, (h, u32 (Z.lor (Z.lor INIT LEVEL) ASSERT)), (h, u32 (Z.lor INIT LEVEL)), (h, u32 (0x600 + addr / 4096)). split; [reflexivity|].
  rw -Es. split; [reflexivity|]. rw Es (u32_small (0x600 + addr / 4096)); [dlia|]. rw /ipi_dest /ipi_mode /ipi_vector. cbn [fst snd]. rw Hh. do 7 (split; [reflexivity|]). split; dlia.
Qed.
End lapic.

(** ** The other controllers *)

Definition REG_ID : Z := 0x00.
Definition REG_VER : Z := 0x01.
Definition REG_TABLE : Z := 0x10.
Definition INT_DISABLED : Z := 0x00010000.

(** The I/O APIC: the register that the window shows, the registers, the messages printed. *)
Record ioapic := mkIo { io_sel : Z; io_reg : Z → Z; io_msgs : nat }.
Definition set_sel (r : Z) : M ioapic unit := modify (λ s, mkIo r (io_reg s) (io_msgs s)).
Definition ioapicread (reg : Z) : M ioapic Z := set_sel reg ;; gets (λ s, io_reg s (io_sel s)).
Definition ioapicwrite (reg data : Z) : M ioapic unit :=
  set_sel reg ;;
  modify (λ s, mkIo (io_sel s) (λ i, if i =? io_sel s then u32 data else io_reg s i) (io_msgs s)).

Fixpoint ioapicinit_loop (k : nat) (i maxintr : Z) : M ioapic unit :=
  match k with
  | O => mret tt
  | S k =>
      if negb (i <=? maxintr) then mret tt else
      ioapicwrite (REG_TABLE + 2 * i) (Z.lor INT_DISABLED (T_IRQ0 + i)) ;;
      ioapicwrite (REG_TABLE + 2 * i + 1) 0 ;;
      ioapicinit_loop k (i + 1) maxintr
  end.
Definition ioapicinit (ioapicid : Z) : M ioapic unit :=
  ver ← ioapicread REG_VER;
  let maxintr := Z.land (Z.shiftr ver 16) 0xFF in
  id ← ioapicread REG_ID;
  when (negb (Z.shiftr id 24 =? ioapicid)) (modify (λ s, mkIo (io_sel s) (io_reg s) (S (io_msgs s)))) ;;
  ioapicinit_loop (Z.to_nat (maxintr + 1)) 0 maxintr.

Definition ioapicenable (irq cpunum : Z) : M ioapic unit :=
  ioapicwrite (REG_TABLE + 2 * irq) (T_IRQ0 + irq) ;;
  ioapicwrite (REG_TABLE + 2 * irq + 1) (Z.shiftl cpunum 24).
Fixpoint enable_all (l : list (Z * Z)) : M ioapic unit :=
  match l with
  | [] => mret tt
  | (irq, cpu) :: l => ioapicenable irq cpu ;; enable_all l
  end.

(** The two 8259A controllers' interrupt masks, by port. *)
Definition picinit : M (Z → Z) unit :=
  modify (λ m p, if p =? 0x21 then 0xFF else m p) ;;
  modify (λ m p, if p =? 0xA1 then 0xFF else m p).

(** What a line's entry says: where an interrupt goes, [None] when it is disabled. *)
Definition route (s : ioapic) (irq : Z) : option (Z * Z) :=
  let lo := io_reg s (REG_TABLE + 2 * irq) in
  if Z.testbit lo 16 then None else Some (lo mod 256, io_reg s (REG_TABLE + 2 * irq + 1) / 16777216).

Lemma ioapicwrite_ok reg data s : ioapicwrite reg data s = Ok (tt, mkIo reg (λ i, if i =? reg then u32 data else io_reg s i) (io_msgs s)).
Proof. done. Qed.
(** Entry [irq] of the table holds [lo] and [hi]. *)
Definition has_entry (s : ioapic) (irq lo hi : Z) : Prop :=
  io_reg s (REG_TABLE + 2 * irq) = lo ∧ io_reg s (REG_TABLE + 2 * irq + 1) = hi.
(** A line's two registers are written, and no other line's. *)
Lemma write_entry irq lo hi s : 0 ≤ irq →
  ∃ s', (ioapicwrite (REG_TABLE + 2 * irq) lo ;; ioapicwrite (REG_TABLE + 2 * irq + 1) hi) s = Ok (tt, s') ∧
    has_entry s' irq (u32 lo) (u32 hi) ∧ ∀ i, i ≠ irq → has_entry s' i (io_reg s (REG_TABLE + 2 * i)) (io_reg s (REG_TABLE + 2 * i + 1)).
Proof.
  intros Hi. eexists. split; [by rw (bind_Ok _ _ _ _ _ (ioapicwrite_ok _ _ _)) ioapicwrite_ok|]. rw /has_entry. cbn [io_reg].
  repeat split; intros; repeat (case_match; try lia); done.
Qed.
Lemma route_disabled s i : 0 ≤ i < 256 → has_entry s i (u32 (Z.lor INT_DISABLED (T_IRQ0 + i))) 0 → route s i = None.
Proof.
  intros Hi [El _]. rw /route El u32_small. 
  { rw (lor_disjoint_add INT_DISABLED _ 16) //; rw /INT_DISABLED /T_IRQ0; [change (2 ^ 16) with 65536; lia|]. lia. }
  by rw Z.lor_spec.
Qed.
Lemma route_enabled s i cpu : 0 ≤ i < 224 → 0 ≤ cpu < 256 → has_entry s i (u32 (T_IRQ0 + i)) (u32 (Z.shiftl cpu 24)) → route s i = Some (T_IRQ0 + i, cpu).
Proof.
  intros Hi Hc [El Eh]. rw /route El Eh. rw /T_IRQ0 u32_small; [lia|]. rw Z.shiftl_mul_pow2 // u32_small; [change (2 ^ 24) with 16777216; lia|].
  assert (Z.testbit (32 + i) 16 = false) as -> by (apply Z.testbit_false; [lia|]; change (2 ^ 16) with 65536; dlia).
  change (2 ^ 24) with 16777216. f_equal. f_equal; dlia.
Qed.

(** The CPU that the last of some calls of [ioapicenable] named for a line. *)
Definition assigned (l : list (Z * Z)) (irq : Z) : option Z :=
  foldl (λ o x, if x.1 =? irq then Some x.2 else o) None l.
Lemma assigned_snoc l x irq : assigned (l ++ [x]) irq = if x.1 =? irq then Some x.2 else assigned l irq.
Proof. by rw /assigned foldl_app. Qed.

Definition maxintr (s : ioapic) : Z := Z.land (Z.shiftr (io_reg s REG_VER) 16) 0xFF.

Lemma ioapicinit_loop_ok k : ∀ i mx s, 0 ≤ i → mx < i + Z.of_nat k →
  ∃ s', ioapicinit_loop k i mx s = Ok (tt, s') ∧ (∀ j, i ≤ j ≤ mx → has_entry s' j (u32 (Z.lor INT_DISABLED (T_IRQ0 + j))) 0) ∧
    ∀ j, j < i ∨ mx < j → has_entry s' j (io_reg s (REG_TABLE + 2 * j)) (io_reg s (REG_TABLE + 2 * j + 1)).
Proof.
  induction k as [|k IH]; intros i mx s Hi Hk; cbn [ioapicinit_loop].
  - exists s. split; [done|]. split; [lia|done].
  - destruct (Z.leb_spec i mx); cbn [negb]; [|exists s; split; [done|]; split; [lia|done] ].
    destruct (write_entry i (Z.lor INT_DISABLED (T_IRQ0 + i)) 0 s Hi) as (s1 & E1 & H1 & O1).
    destruct (IH (i + 1) mx s1) as (s' & E & H' & O'); [lia|lia|]. exists s'. split; [by rw -bind_assoc (bind_Ok _ _ _ _ _ E1)|]. split.
    + intros j Hj. destruct (decide (j = i)) as [->|]; [|apply H'; lia]. destruct (O' i) as [A1 A2]; [lia|]. destruct H1 as [B1 B2]. split; [by rw A1 B1|by rw A2 B2].
    + intros j Hj. destruct (O1 j) as [<- <-]; [lia|]. apply O'. lia.
Qed.
Lemma ioapicinit_ok id s : ∃ s', ioapicinit id s = Ok (tt, s') ∧
  ∀ j, 0 ≤ j ≤ maxintr s → has_entry s' j (u32 (Z.lor INT_DISABLED (T_IRQ0 + j))) 0.
Proof.
  set (f := λ (o : Z) n, mkIo o (io_reg s) n). destruct (ioapicinit_loop_ok (Z.to_nat (maxintr s + 1)) 0 (maxintr s)
    (f REG_ID (if Z.shiftr (io_reg s REG_ID) 24 =? id then io_msgs s else S (io_msgs s)))) as (s' & E & H & _); [lia|lia|].
  exists s'. split; [|done]. rw -E /ioapicinit /ioapicread /set_sel /when /f. mrun. cbn [io_reg io_sel]. by destruct (Z.shiftr (io_reg s REG_ID) 24 =? id).
Qed.

Lemma enable_all_app l1 l2 : ∀ s, enable_all (l1 ++ l2) s = (enable_all l1 ;; enable_all l2) s.
Proof.
  induction l1 as [|[irq cpu] l1 IH]; intros s; [done|]. cbn [enable_all app]. rw bind_assoc /ioapicenable.
  destruct ((ioapicwrite (REG_TABLE + 2 * irq) (T_IRQ0 + irq) ;; ioapicwrite (REG_TABLE + 2 * irq + 1) (Z.shiftl cpu 24)) s) as [ [[] s1]|e|] eqn:E.
  - by rw !(bind_Ok _ _ _ _ _ E).
  - by rw !(bind_Panic _ _ _ _ E).
  - by rw /mbind /M_bind /= in E.
Qed.
Lemma enable_all_ok l : ∀ s, Forall (λ x, 0 ≤ x.1) l →
  ∃ s', enable_all l s = Ok (tt, s') ∧ ∀ j, match assigned l j with
    | Some cpu => has_entry s' j (u32 (T_IRQ0 + j)) (u32 (Z.shiftl cpu 24))
    | None => has_entry s' j (io_reg s (REG_TABLE + 2 * j)) (io_reg s (REG_TABLE + 2 * j + 1))
    end.
Proof.
  induction l as [|[irq cpu] l IH] using rev_ind; intros s Hl; [by exists s|]. apply Forall_app in Hl as [Hl Hx]. apply Forall_cons in Hx as [Hx _].
  destruct (IH s Hl) as (s1 & E1 & H1). destruct (write_entry irq (T_IRQ0 + irq) (Z.shiftl cpu 24) s1 Hx) as (s2 & E2 & H2 & O2).
  exists s2. split; [rw enable_all_app (bind_Ok _ _ _ _ _ E1); cbn [enable_all]; by rw /ioapicenable (bind_Ok _ _ _ _ _ E2)|].
  intros j. rw assigned_snoc. cbn [fst snd]. destruct (Z.eqb_spec irq j) as [<-|Hn]; [done|]. specialize (H1 j). destruct (O2 j) as [A1 A2]; [done|].
  destruct (assigned l j); destruct H1 as [<- <-]; by split.
Qed.

(** Interrupt routing: after [ioapicinit] and any calls of [ioapicenable], a line that was
    enabled sends its interrupts to vector [T_IRQ0 + irq], to the CPU that its last call
    named, and every other line of the controller is disabled, whatever the registers held
    before. *)
Theorem ioapic_routes id l s :
  Forall (λ x, 0 ≤ x.1 < 224 ∧ 0 ≤ x.2 < 256) l →
  ∃ s', (ioapicinit id ;; enable_all l) s = Ok (tt, s') ∧
    ∀ irq, 0 ≤ irq ≤ maxintr s → route s' irq = (λ cpu, (T_IRQ0 + irq, cpu)) <$> assigned l irq.
Proof.
  intros Hl. destruct (ioapicinit_ok id s) as (s1 & E1 & H1). destruct (enable_all_ok l s1) as (s' & E & H).
  { eapply Forall_impl; [exact Hl|]. cbn. lia. }
  exists s'. split; [by rw (bind_Ok _ _ _ _ _ E1)|]. intros irq Hi.
  assert (maxintr s < 256) as Hm by (rw /maxintr; change 0xFF with (Z.ones 8); rw Z.land_ones //; change (2 ^ 8) with 256; dlia).
  specialize (H irq). destruct (assigned l irq) as [cpu|] eqn:Ea; cbn.
  - assert (0 ≤ irq < 224 ∧ 0 ≤ cpu < 256) as [Hr Hc]; [|by apply route_enabled].
    clear -Hl Ea. induction l as [|x l IH] using rev_ind; [done|]. apply Forall_app in Hl as [Hl Hx]. apply Forall_cons in Hx as [Hx _]. rw assigned_snoc in Ea.
    destruct (Z.eqb_spec x.1 irq) as [<-|]; [by injection Ea as <-|by apply IH].
  - apply route_disabled; [lia|]. destruct (H1 irq Hi) as [B1 B2]. destruct H as [A1 A2]. split; [by rw A1 B1|by rw A2 B2].
Qed.
Lemma ioapic_routes_witness :
  ∃ s', (ioapicinit 0 ;; enable_all [(1, 0); (14, 1)]) (mkIo 0 (λ r, if r =? REG_VER then 0x170000 else 7) 0) = Ok (tt, s') ∧
    route s' 14 = Some (46, 1) ∧ route s' 4 = None.
Proof.
  destruct (ioapic_routes 0 [(1, 0); (14, 1)] (mkIo 0 (λ r, if r =? REG_VER then 0x170000 else 7) 0)) as (s' & E & H).
  - repeat constructor; cbn; lia.
  - exists s'. split; [exact E|]. split; [rw (H 14); [by vm_compute|reflexivity]|]. rw (H 4); [by vm_compute|reflexivity].
Defined.

(** ** The clock *)

Record rtcdate := mkDate { second : Z; minute : Z; hour : Z; day : Z; month : Z; year : Z }.
#[export] Instance rtcdate_eq_dec : EqDecision rtcdate.
Proof. solve_decision. Defined.
Definition CMOS_STATA : Z := 0x0a.
Definition CMOS_STATB : Z := 0x0b.
Definition CMOS_UIP : Z := Z.shiftl 1 7.
Definition SECS : Z := 0x00.
Definition MINS : Z := 0x02.
Definition HOURS : Z := 0x04.
Definition DAY : Z := 0x07.
Definition MONTH : Z := 0x08.
Definition YEAR : Z := 0x09.

Section clock.
(** What register [reg] of the clock holds at its [t]th read; the state counts the reads. *)
Context (cmos : nat → Z → Z).

Definition cmos_read (reg : Z) : M nat Z := λ t, Ok (cmos t reg, S t).
Definition fill_rtcdate : M nat rtcdate :=
  second ← cmos_read SECS;
  minute ← cmos_read MINS;
  hour ← cmos_read HOURS;
  day ← cmos_read DAY;
  month ← cmos_read MONTH;
  year ← cmos_read YEAR;
  mret (mkDate second minute hour day month year).
(** [for(;;)]: until two readings agree; [memcmp] compares all fields. *)
Fixpoint cmostime_loop (k : nat) : M nat rtcdate :=
  match k with
  | O => sleeps
  | S k =>
      t1 ← fill_rtcdate;
      a ← cmos_read CMOS_STATA;
      if negb (Z.land a CMOS_UIP =? 0) then cmostime_loop k else
      t2 ← fill_rtcdate;
      if bool_decide (t1 = t2) then mret t1 else cmostime_loop k
  end.
Definition CONV (x : Z) : Z := Z.shiftr x 4 * 10 + Z.land x 0xf.
Definition cmostime (k : nat) : M nat rtcdate :=
  sb ← cmos_read CMOS_STATB;
  let bcd := Z.land sb (Z.shiftl 1 2) =? 0 in
  t1 ← cmostime_loop k;
  let t1 := if bcd then mkDate (CONV (second t1)) (CONV (minute t1)) (CONV (hour t1)) (CONV (day t1)) (CONV (month t1)) (CONV (year t1)) else t1 in
  mret (mkDate (second t1) (minute t1) (hour t1) (day t1) (month t1) (year t1 + 2000)).

(** *** What it returns *)

(** The date that the clock shows at each read, and whether it shows it in BCD. *)
Context (clock : nat → rtcdate) (bcd : bool).
Definition enc (x : Z) : Z := if bcd then x / 10 * 16 + x mod 10 else x.
Definition encode (d : rtcdate) : rtcdate :=
  mkDate (enc (second d)) (enc (minute d)) (enc (hour d)) (enc (day d)) (enc (month d)) (enc (year d)).
Definition fields (d : rtcdate) : list Z := [second d; minute d; hour d; day d; month d; year d].
Hypothesis clock_range : ∀ t, Forall (λ x, 0 ≤ x < 100) (fields (clock t)).
Hypothesis mode : ∀ t, (Z.land (cmos t CMOS_STATB) 4 =? 0) = bcd.
Hypothesis registers : ∀ t, mkDate (cmos t SECS) (cmos t MINS) (cmos t HOURS) (cmos t DAY) (cmos t MONTH) (cmos t YEAR) = encode (clock t).
(** The clock ticks at most once during the 13 reads of one round. *)
Hypothesis slow : ∀ t, ∃ u, (∀ i, (t ≤ i < u)%nat → clock i = clock t) ∧ ∀ i, (u ≤ i ≤ t + 12)%nat → clock i = clock (t + 12)%nat.

Lemma CONV_enc x : 0 ≤ x < 100 → bcd = true → CONV (enc x) = x.
Proof.
  intros Hx Hb. rw /CONV /enc Hb. change 0xf with (Z.ones 4). rw Z.land_ones // Z.shiftr_div_pow2 //. change (2 ^ 4) with 16. dlia.
Qed.

(** The fields as they are read one after the other from [t] on. *)
Definition reading (t : nat) : rtcdate :=
  mkDate (cmos t SECS) (cmos (1 + t) MINS) (cmos (2 + t) HOURS) (cmos (3 + t) DAY) (cmos (4 + t) MONTH) (cmos (5 + t) YEAR).
Lemma fill_ok t : fill_rtcdate t = Ok (reading t, (6 + t)%nat).
Proof. done. Qed.
Lemma reading_const t d : (∀ i, (t ≤ i ≤ t + 5)%nat → clock i = d) → reading t = encode d.
Proof.
  intros H. rw /reading. pose proof (λ i Hi, eq_trans (registers i) (f_equal encode (H i Hi))) as R.
  rw /encode. f_equal.
  - exact (f_equal second (R t ltac:(lia))).
  - exact (f_equal minute (R (1 + t)%nat ltac:(lia))).
  - exact (f_equal hour (R (2 + t)%nat ltac:(lia))).
  - exact (f_equal day (R (3 + t)%nat ltac:(lia))).
  - exact (f_equal month (R (4 + t)%nat ltac:(lia))).
  - exact (f_equal year (R (5 + t)%nat ltac:(lia))).
Qed.
(** Two readings of one round that agree are the date at one moment. *)
Lemma reading_agrees t : reading t = reading (7 + t) → ∃ i, (t ≤ i ≤ t + 12)%nat ∧ reading t = encode (clock i).
Proof.
  intros E. destruct (slow t) as (u & Hb & Ha). destruct (decide (u ≤ 7 + t)%nat) as [Hu|Hu].
  - exists (t + 12)%nat. split; [lia|]. rw E. apply reading_const. intros i Hi. apply Ha. lia.
  - exists t. split; [lia|]. apply reading_const. intros i Hi. apply Hb. lia.
Qed.

(** From read [t0] on the clock is quiet for 26 reads. *)
Definition quiet (t0 : nat) : Prop :=
  ∀ i, (t0 ≤ i < t0 + 26)%nat → clock i = clock t0 ∧ Z.land (cmos i CMOS_STATA) CMOS_UIP = 0.
Lemma cmostime_loop_ok t0 k : ∀ t, quiet t0 → (t ≤ t0 + 13)%nat → (t0 + 13 < t + 7 * k)%nat →
  ∃ i t', cmostime_loop k t = Ok (encode (clock i), t') ∧ (t ≤ i < t')%nat.
Proof.
  induction k as [|k IH]; intros t Hq Ht Hk; [lia|]. cbn [cmostime_loop]. rw (bind_Ok _ _ _ _ _ (fill_ok t)).
  assert (∀ t1, (6 < t1 - t)%nat → (t < t0 → t1 ≤ t0 + 13)%nat → (t < t0)%nat → ∃ i t', cmostime_loop k t1 = Ok (encode (clock i), t') ∧ (t ≤ i < t')%nat) as Hnext.
  { intros t1 H1 H2 H3. destruct (IH t1 Hq) as (i & t' & E & Hi); [lia|lia|]. exists i, t'. split; [done|lia]. }
  assert (cmos_read CMOS_STATA (6 + t)%nat = Ok (cmos (6 + t)%nat CMOS_STATA, (7 + t)%nat)) as Ec by done. rw (bind_Ok _ _ _ _ _ Ec).
  destruct (Z.eqb_spec (Z.land (cmos (6 + t)%nat CMOS_STATA) CMOS_UIP) 0) as [Hu|Hu]; cbn [negb].
  - rw (bind_Ok _ _ _ _ _ (fill_ok (7 + t))). case_bool_decide as E.
    + destruct (reading_agrees t E) as (i & Hi & Ei). exists i, (6 + (7 + t))%nat. split; [by rw Ei|lia].
    + apply Hnext; [lia|lia|]. destruct (decide (t < t0)%nat) as [|Hge]; [done|]. exfalso. apply E.
      rw (reading_const t (clock t0)); [|by rw (reading_const (7 + t) (clock t0)); [|done]; intros i Hi; apply Hq; lia]. intros i Hi. apply Hq. lia.
  - apply Hnext; [lia|lia|]. destruct (decide (t < t0)%nat) as [|Hge]; [done|]. exfalso. apply Hu. apply Hq. lia.
Qed.

End clock.

(** A clock at the end of the year 2024. *)
Definition ex_clock (t : nat) : rtcdate := if decide (t < 20)%nat then mkDate 59 59 23 31 12 24 else mkDate 0 0 0 1 1 25.
Definition ex_cmos (t : nat) (r : Z) : Z :=
  let d := encode true (ex_clock t) in
  if r =? SECS then second d else if r =? MINS then minute d else if r =? HOURS then hour d else if r =? DAY then day d
  else if r =? MONTH then month d else if r =? YEAR then year d else 0.
Lemma ex_clock_slow t : ∃ u, (∀ i, (t ≤ i < u)%nat → ex_clock i = ex_clock t) ∧ ∀ i, (u ≤ i ≤ t + 12)%nat → ex_clock i = ex_clock (t + 12)%nat.
Proof. exists (20 `max` t)%nat. rw /ex_clock. split; intros i Hi; repeat case_decide; try done; lia. Qed.
