(* ===== verification/Boot.v ===== *)
(** * The boot loader (bootmain.c)

    [bootmain] reads the kernel, an ELF file that starts at sector 1 of the disk, sector by
    sector through the controller's ports, and jumps to its entry point.  Memory is
    byte-addressed, and the program headers are read from it while segments are being
    loaded, as the code does.

    The segments arrive in memory as the file says, with zeros after the file's part. *)

From S2P Require Import Prelude Params KMemory Bio Ide Exec.

Definition SECTSIZE : Z := 512.
Definition SCRATCH : Z := 0x10000.

(** The machine as the loader sees it: memory, the controller's registers, the sector it has
    for the loader, and the number of times that its status was read. *)
Record boot := mkBoot { bt_mem : mem; bt_regs : Z → Z; bt_data : list Z; bt_reads : nat }.
Definition set_bmem x s := mkBoot x (bt_regs s) (bt_data s) (bt_reads s).

Section boot.
(** The sectors of each drive; what the reads of the status give; and a number of reads
    after which one has to look no further. *)
Context (disk : Z → Z → list Z) (status : nat → Z) (patience : nat).

(** ** The controller *)

Definition inb_status : M boot Z := λ s,
  Ok (status (bt_reads s), mkBoot (bt_mem s) (bt_regs s) (bt_data s) (Datatypes.S (bt_reads s))).
(** A write to the command port reads the sector that the registers name. *)
Definition outb (port v : Z) : M boot unit :=
  modify (λ s,
    let r := set_reg port (u8 v) (bt_regs s) in
    if (port =? 0x1F7) && (u8 v =? 0x20) then mkBoot (bt_mem s) r (disk (reg_drive r) (reg_lba r)) (bt_reads s)
    else mkBoot (bt_mem s) r (bt_data s) (bt_reads s)).
Fixpoint put_bytes (m : mem) (a : Z) (bs : list Z) : mem :=
  match bs with
  | [] => m
  | b :: bs => put_bytes (mwrite m a b) (a + 1) bs
  end.
(** [insl(0x1F0, dst, cnt)]: [cnt] words of the sector. *)
Definition insl (dst cnt : Z) : M boot unit :=
  modify (λ s, set_bmem (put_bytes (bt_mem s) dst (take (Z.to_nat (4 * cnt)) (bt_data s))) s).

(** ** The loader *)

Fixpoint waitdisk (k : nat) : M boot unit :=
  match k with
  | O => sleeps
  | Datatypes.S k => x ← inb_status; if negb (Z.land x 0xC0 =? 0x40) then waitdisk k else mret tt
  end.

Definition readsect (dst offset : Z) : M boot unit :=
  waitdisk patience ;;
  outb 0x1F2 1 ;;
  outb 0x1F3 offset ;;
  outb 0x1F4 (Z.shiftr offset 8) ;;
  outb 0x1F5 (Z.shiftr offset 16) ;;
  outb 0x1F6 (Z.lor (Z.shiftr offset 24) 0xE0) ;;
  outb 0x1F7 0x20 ;;
  waitdisk patience ;;
  insl dst (SECTSIZE / 4).

(** [for(; pa < epa; pa += SECTSIZE, offset++)] *)
Fixpoint readseg_loop (k : nat) (pa epa offset : Z) : M boot unit :=
  if negb (pa <? epa) then mret tt else
  match k with
  | O => sleeps
  | Datatypes.S k => readsect pa offset ;; readseg_loop k (u32 (pa + SECTSIZE)) epa (u32 (offset + 1))
  end.
Definition readseg (pa count offset : Z) : M boot unit :=
  let epa := u32 (pa + count) in
  let pa := u32 (pa - offset mod SECTSIZE) in
  let offset := u32 (offset / SECTSIZE + 1) in
  readseg_loop (Z.to_nat ((epa - pa) / SECTSIZE + 1)) pa epa offset.

Definition field (a off : Z) : M boot Z := gets (λ s, ld32 (bt_mem s) (a + off)).
Definition field16 (a off : Z) : M boot Z := gets (λ s, mread (bt_mem s) (a + off) + 256 * mread (bt_mem s) (a + off + 1)).

(** The body of the loop over the program headers. *)
Definition load_one (ph : Z) : M boot unit :=
  pa ← field ph 12;
  filesz ← field ph 16;
  off ← field ph 4;
  readseg pa filesz off ;;
  memsz ← field ph 20;
  filesz ← field ph 16;
  when (filesz <? memsz) (
    modify (λ s, set_bmem (stosb (bt_mem s) (u32 (pa + filesz)) 0 (Z.to_nat (u32 (memsz - filesz)))) s)).
(** [for(; ph < eph; ph++)] *)
Fixpoint load_phs (n : nat) (ph eph : Z) : M boot unit :=
  if negb (ph <? eph) then mret tt else
  match n with
  | O => sleeps
  | Datatypes.S n => load_one ph ;; load_phs n (u32 (ph + PROGHDR_SIZE)) eph
  end.

(** The entry point that it jumps to; [None] when it returns. *)
Definition bootmain : M boot (option Z) :=
  let elf := SCRATCH in
  readseg elf 4096 0 ;;
  magic ← field elf 0;
  if negb (magic =? ELF_MAGIC) then mret None else
  phoff ← field elf 28;
  phnum ← field16 elf 44;
  let ph := u32 (elf + phoff) in
  let eph := u32 (ph + PROGHDR_SIZE * phnum) in
  load_phs (Z.to_nat phnum) ph eph ;;
  entry ← field elf 24;
  mret (Some entry).

(** ** What arrives in memory *)

(** The controller gets ready, and sectors have their size and hold bytes. *)
Hypothesis ready : ∀ n, ∃ j, (j < patience)%nat ∧ Z.land (status (n + j)%nat) 0xC0 = 0x40.
Hypothesis sector_size : ∀ d n, length (disk d n) = 512%nat.
Hypothesis sector_bytes : ∀ d n, Forall (λ b, 0 ≤ b < 256) (disk d n).

Lemma waitdisk_ok k : ∀ s, (∃ j, (j < k)%nat ∧ Z.land (status (bt_reads s + j)%nat) 0xC0 = 0x40) →
  ∃ n, waitdisk k s = Ok (tt, mkBoot (bt_mem s) (bt_regs s) (bt_data s) n).
Proof.
  induction k as [|k IH]; intros s (j & Hj & Hr); [lia|]. cbn [waitdisk]. rw /inb_status. mrun.
  destruct (Z.eqb_spec (Z.land (status (bt_reads s)) 0xC0) 0x40) as [E|E]; cbn [negb]; [eauto|].
  destruct j as [|j]; [by rw Nat.add_0_r in Hr|]. apply (IH (mkBoot _ _ _ _)). exists j. split; [lia|]. cbn. by rw -Hr Nat.add_succ_r.
Qed.

Lemma put_bytes_read bs : ∀ m a x, Forall (λ b, 0 ≤ b < 256) bs →
  mread (put_bytes m a bs) x = if decide (a ≤ x < a + Z.of_nat (length bs)) then bs !!! Z.to_nat (x - a) else mread m x.
Proof.
  induction bs as [|b bs IH]; intros m a x Hb; cbn [put_bytes length]; [by rewrite -> decide_False by lia|].
  apply Forall_cons in Hb as [Hb Hbs]. rw IH // mread_mwrite. destruct (decide (x = a)) as [->|Hn].
  - rewrite -> (decide_False (P := a + 1 ≤ a < _)) by lia. rewrite -> (decide_True (P := a ≤ a < _)) by lia. rw Z.sub_diag u8_small //.
  - repeat case_decide; try lia; try done. by replace (Z.to_nat (x - a)) with (Datatypes.S (Z.to_nat (x - (a + 1)))) by lia.
Qed.

Lemma lba_of offset r : 0 ≤ offset < 268435456 →
  let r' := set_reg 0x1F7 0x20 (set_reg 0x1F6 (u8 (Z.lor (Z.shiftr offset 24) 0xE0)) (set_reg 0x1F5 (u8 (Z.shiftr offset 16))
    (set_reg 0x1F4 (u8 (Z.shiftr offset 8)) (set_reg 0x1F3 (u8 offset) r)))) in
  reg_lba r' = offset ∧ reg_drive r' = 0.
Proof.
  intros Ho. cbn zeta. rw /reg_lba /reg_drive /set_reg /=. rw !Z.shiftr_div_pow2 //.
  rw (Z.lor_comm _ 0xE0) (lor_disjoint_add 0xE0 _ 4) //; [change (2 ^ 24) with 16777216; change (2 ^ 4) with 16; dlia|].
  change (2 ^ 24) with 16777216. change (2 ^ 16) with 65536. change (2 ^ 8) with 256. rw /u8. split; dlia.
Qed.

(** A sector of the file arrives at [dst]. *)
Lemma readsect_ok dst offset s : 0 ≤ offset < 268435456 →
  ∃ r d n, readsect dst offset s = Ok (tt, mkBoot (put_bytes (bt_mem s) dst (disk 0 offset)) r d n).
Proof.
  intros Ho. destruct (waitdisk_ok patience s (ready _)) as (n1 & E1). rw /readsect. mgo E1.
  rw /outb !modify_bind. cbn -[set_reg reg_lba reg_drive Z.shiftr Z.lor u8]. change (u8 0x20) with 0x20. cbn [andb Z.eqb Pos.eqb].
  set (r0 := set_reg 0x1F2 _ _). destruct (lba_of offset r0 Ho) as [El Ed]. set (r := set_reg 0x1F7 _ _) in *. rw El Ed.
  match goal with |- context [(waitdisk patience ;; _) ?s] => destruct (waitdisk_ok patience s (ready _)) as (n2 & E2) end.
  mgo E2. rw /insl /modify. cbn -[put_bytes take]. rw take_ge; [by rw sector_size|]. eauto.
Qed.

(** The kernel's file: byte [k] of it, from sector 1 on. *)
Definition file_byte (k : Z) : Z := disk 0 (k / SECTSIZE + 1) !!! Z.to_nat (k mod SECTSIZE).
Definition file_word (k : Z) : Z :=
  file_byte k + 256 * file_byte (k + 1) + 65536 * file_byte (k + 2) + 16777216 * file_byte (k + 3).

Lemma readseg_loop_ok n : ∀ k pa epa o s, (n ≤ k)%nat →
  (pa + 512 * (Z.of_nat n - 1) < epa ≤ pa + 512 * Z.of_nat n ∨ n = 0%nat ∧ epa ≤ pa) →
  0 ≤ pa → pa + 512 * Z.of_nat n < 4294967296 → 1 ≤ o → o + Z.of_nat n ≤ 268435456 →
  ∃ s', readseg_loop k pa epa o s = Ok (tt, s') ∧ ∀ x, mread (bt_mem s') x =
    if decide (pa ≤ x < pa + 512 * Z.of_nat n) then file_byte (512 * (o - 1) + (x - pa)) else mread (bt_mem s) x.
Proof.
  induction n as [|n IH]; intros k pa epa o s Hk He Hpa Hw Ho Hob.
  - exists s. split; [destruct k; cbn [readseg_loop]; destruct (Z.ltb_spec pa epa); [lia|done|lia|done]|]. intros x. by rewrite -> decide_False by lia.
  - destruct k as [|k]; [lia|]. cbn [readseg_loop]. destruct (Z.ltb_spec pa epa); [|lia]. cbn [negb].
    destruct (readsect_ok pa o s) as (r & d & n1 & E1); [lia|]. mgo E1. rw /SECTSIZE u32_small; [lia|]. rw u32_small; [lia|].
    destruct (IH k (pa + 512) epa (o + 1) (mkBoot (put_bytes (bt_mem s) pa (disk 0 o)) r d n1)) as (s' & E & Hm); [lia..|]. rw E. exists s'. split; [done|]. intros x. rw Hm. cbn [bt_mem]. rw put_bytes_read // sector_size.
    repeat case_decide; try lia; try done; [f_equal; lia|].
    rw /file_byte /SECTSIZE. replace ((512 * (o - 1) + (x - pa)) / 512 + 1) with o by dlia. by replace ((512 * (o - 1) + (x - pa)) mod 512) with (x - pa) by dlia.
Qed.

(** What [readseg(pa, count, off)] writes: from [pa] rounded down, whole sectors. *)
Definition seg_start (pa off : Z) : Z := pa - off mod 512.
Definition seg_sectors (count off : Z) : Z := (count + off mod 512 + 511) / 512.
Lemma readseg_ok pa count off s :
  0 ≤ off → 0 ≤ count → off mod 512 ≤ pa → pa + count + 512 < 4294967296 → (off + count) / 512 + 3 ≤ 268435456 →
  ∃ s', readseg pa count off s = Ok (tt, s') ∧ ∀ x, mread (bt_mem s') x =
    if decide (seg_start pa off ≤ x < seg_start pa off + 512 * seg_sectors count off) then file_byte (off + (x - pa)) else mread (bt_mem s) x.
Proof.
  intros Hoff Hc Hpa Hw Hob. rw /readseg /SECTSIZE /seg_start /seg_sectors. rw (u32_small (pa + count)); [dlia|]. rw (u32_small (pa - off mod 512)); [dlia|].
  rw u32_small; [dlia|]. set (n := (count + off mod 512 + 511) / 512).
  destruct (readseg_loop_ok (Z.to_nat n) (Z.to_nat ((pa + count - (pa - off mod 512)) / 512 + 1)) (pa - off mod 512) (pa + count) (off / 512 + 1) s) as (s' & E & Hm).
  - rw /n. dlia.
  - rw /n. dlia.
  - lia.
  - rw /n. dlia.
  - dlia.
  - rw /n. dlia.
  - exists s'. split; [done|]. intros x. rw Hm. rewrite -> Z2Nat.id by (rw /n; dlia). case_decide; [|done]. f_equal. dlia.
Qed.

(** ** The kernel *)

Record seg := mkSeg { sg_pa : Z; sg_filesz : Z; sg_off : Z; sg_memsz : Z }.
Definition phoff : Z := file_word 28.
Definition phnum : Z := file_byte 44 + 256 * file_byte 45.
(** The [i]th program header of the file. *)
Definition segment (i : Z) : seg :=
  let a := phoff + PROGHDR_SIZE * i in mkSeg (file_word (a + 12)) (file_word (a + 16)) (file_word (a + 4)) (file_word (a + 20)).
(** A segment's memory, and what loading it writes. *)
Definition seg_end (g : seg) : Z := sg_pa g + Z.max (sg_filesz g) (sg_memsz g).
Definition first (g : seg) : Z := seg_start (sg_pa g) (sg_off g).
Definition past (g : seg) : Z := Z.max (first g + 512 * seg_sectors (sg_filesz g) (sg_off g)) (seg_end g).

(** A file that the loader can load: an ELF file whose headers lie in the first page, and
    whose segments have room in memory and on the disk; loading one writes neither to the
    page with the headers nor to a segment loaded before it. *)
Record loadable : Prop := {
  ld_magic : file_word 0 = ELF_MAGIC;
  ld_headers : phoff + PROGHDR_SIZE * phnum ≤ 4096;
  ld_room i : 0 ≤ i < phnum → let g := segment i in
    sg_off g mod 512 ≤ sg_pa g ∧ seg_end g + 512 < 4294967296 ∧ (sg_off g + sg_filesz g) / 512 + 3 ≤ 268435456;
  ld_scratch i : 0 ≤ i < phnum → past (segment i) ≤ SCRATCH ∨ SCRATCH + 4096 ≤ first (segment i);
  ld_order i j : 0 ≤ i < j → j < phnum → past (segment j) ≤ sg_pa (segment i) ∨ seg_end (segment i) ≤ first (segment j);
}.

(** Segment [g] as it should be in memory. *)
Definition loaded (m : mem) (g : seg) : Prop :=
  ∀ k, 0 ≤ k < Z.max (sg_filesz g) (sg_memsz g) →
    mread m (sg_pa g + k) = if k <? sg_filesz g then file_byte (sg_off g + k) else 0.
(** The page with the headers. *)
Definition headers (m : mem) : Prop := ∀ k, 0 ≤ k < 4096 → mread m (SCRATCH + k) = file_byte k.

Lemma file_byte_range k : 0 ≤ file_byte k < 256.
Proof.
  rw /file_byte list_lookup_total_alt. destruct (disk 0 (k / SECTSIZE + 1) !! Z.to_nat (k mod SECTSIZE)) eqn:E; cbn.
  - by apply (Forall_lookup_1 _ _ _ _ (sector_bytes 0 _) E).
  - apply lookup_ge_None in E. rw sector_size /SECTSIZE in E. dlia.
Qed.
Lemma file_word_range k : 0 ≤ file_word k < 4294967296.
Proof. rw /file_word. pose proof (file_byte_range k). pose proof (file_byte_range (k + 1)). pose proof (file_byte_range (k + 2)). pose proof (file_byte_range (k + 3)). lia. Qed.
Lemma headers_word m k : headers m → 0 ≤ k → k + 4 ≤ 4096 → ld32 m (SCRATCH + k) = file_word k.
Proof. intros Hh Hk Hk'. rw /ld32 /file_word -!Z.add_assoc !Hh //; lia. Qed.

(** One program header. *)
Lemma load_one_ok i s : loadable → 0 ≤ i < phnum → headers (bt_mem s) → let g := segment i in
  ∃ s', load_one (SCRATCH + phoff + PROGHDR_SIZE * i) s = Ok (tt, s') ∧ headers (bt_mem s') ∧ loaded (bt_mem s') g ∧
    ∀ x, x < first g ∨ past g ≤ x → mread (bt_mem s') x = mread (bt_mem s) x.
Proof.
  intros L Hi Hh g. pose proof (ld_headers L) as Hp. destruct (ld_room L i Hi) as (R1 & R2 & R3). pose proof (ld_scratch L i Hi) as Hs. fold g in R1, R2, R3, Hs.
  assert (0 ≤ phoff) as Hph by (pose proof (file_word_range 28); rw /phoff; lia). rw /PROGHDR_SIZE in Hp.
  assert (∀ o m, headers m → 0 ≤ o ≤ 28 → ld32 m (SCRATCH + phoff + 32 * i + o) = file_word (phoff + 32 * i + o)) as Hw.
  { intros o m Hm Ho. replace (SCRATCH + phoff + 32 * i + o) with (SCRATCH + (phoff + 32 * i + o)) by lia. apply headers_word; [done|lia|lia]. }
  assert (0 ≤ sg_filesz g < 4294967296 ∧ 0 ≤ sg_memsz g < 4294967296 ∧ 0 ≤ sg_off g) as (F1 & F2 & F3) by (rw /g /segment /=; pose proof file_word_range; repeat split; apply file_word_range).
  assert (0 ≤ sg_off g mod 512 < 512) as F4 by dlia. rw /seg_end in R2.
  destruct (readseg_ok (sg_pa g) (sg_filesz g) (sg_off g) s) as (s1 & E1 & M1); [lia..|].
  rw /PROGHDR_SIZE /load_one /field. mget. rw !Hw //. change (file_word (phoff + 32 * i + 12)) with (sg_pa g). change (file_word (phoff + 32 * i + 16)) with (sg_filesz g).
  change (file_word (phoff + 32 * i + 4)) with (sg_off g). mgo E1.
  assert (∀ x, x < first g ∨ past g ≤ x → mread (bt_mem s1) x = mread (bt_mem s) x) as Hout.
  { intros x Hx. rw M1. rewrite -> decide_False; [done|]. rw /past /first in Hx. lia. }
  assert (headers (bt_mem s1)) as Hh1 by (intros k Hk; rw Hout; [lia|]; by apply Hh).
  mget. rw !Hw //. change (file_word (phoff + 32 * i + 16)) with (sg_filesz g). change (file_word (phoff + 32 * i + 20)) with (sg_memsz g).
  set (s2 := if sg_filesz g <? sg_memsz g then
    set_bmem (stosb (bt_mem s1) (u32 (sg_pa g + sg_filesz g)) 0 (Z.to_nat (u32 (sg_memsz g - sg_filesz g)))) s1 else s1).
  assert (∀ x, mread (bt_mem s2) x = if decide (sg_pa g + sg_filesz g ≤ x < sg_pa g + sg_memsz g) then 0 else mread (bt_mem s1) x) as M2.
  { intros x. rw /s2. destruct (Z.ltb_spec (sg_filesz g) (sg_memsz g)); [|by rewrite -> decide_False by lia].
    cbn [bt_mem set_bmem]. rw u32_small; [lia|]. rw u32_small; [lia|]. rw mread_stosb. rewrite -> Z2Nat.id by lia. by replace (sg_pa g + sg_filesz g + (sg_memsz g - sg_filesz g)) with (sg_pa g + sg_memsz g) by lia. }
  assert (∀ x, x < first g ∨ past g ≤ x → mread (bt_mem s2) x = mread (bt_mem s1) x) as Hout2.
  { intros x Hx. rw M2. rewrite -> decide_False; [done|]. rw /past /first /seg_start /seg_end in Hx. lia. }
  exists s2. split; [rw /when /s2; by destruct (sg_filesz g <? sg_memsz g)|]. split; [|split].
  - intros k Hk. rw Hout2; [lia|]. by apply Hh1.
  - intros k Hk. rw M2 M1. rw /seg_start /seg_sectors. destruct (Z.ltb_spec k (sg_filesz g)).
    + rewrite -> decide_False by lia. rewrite -> decide_True; [by rw Z.add_simpl_l|]. dlia.
    + by rewrite -> decide_True by lia.
  - intros x Hx. by rw Hout2 // Hout.
Qed.

Lemma loaded_kept m m' g : loaded m g → (∀ x, sg_pa g ≤ x < seg_end g → mread m' x = mread m x) → loaded m' g.
Proof. intros Hl Hm k Hk. rw Hm; [rw /seg_end; lia|]. by apply Hl. Qed.

Lemma load_phs_ok n : ∀ i s, loadable → 0 ≤ i → i + Z.of_nat n = phnum → headers (bt_mem s) →
  (∀ j, 0 ≤ j < i → loaded (bt_mem s) (segment j)) →
  ∃ s', load_phs n (SCRATCH + phoff + PROGHDR_SIZE * i) (SCRATCH + phoff + PROGHDR_SIZE * phnum) s = Ok (tt, s') ∧ headers (bt_mem s') ∧
    (∀ j, 0 ≤ j < phnum → loaded (bt_mem s') (segment j)) ∧
    ∀ x, (∀ j, 0 ≤ j < phnum → x < first (segment j) ∨ past (segment j) ≤ x) → mread (bt_mem s') x = mread (bt_mem s) x.
Proof.
  rw /PROGHDR_SIZE. induction n as [|n IH]; intros i s L Hi Hn Hh Hl; cbn [load_phs].
  - destruct (Z.ltb_spec (SCRATCH + phoff + 32 * i) (SCRATCH + phoff + 32 * phnum)); [lia|]. exists s. split; [done|]. split; [done|]. split; [|done]. intros j Hj. apply Hl. lia.
  - destruct (Z.ltb_spec (SCRATCH + phoff + 32 * i) (SCRATCH + phoff + 32 * phnum)); [|lia]. cbn [negb].
    destruct (load_one_ok i s L) as (s1 & E1 & Hh1 & Hl1 & Hf1); [lia|done|]. mgo E1. pose proof (ld_headers L) as Hp. rw /PROGHDR_SIZE in Hp.
    assert (0 ≤ phoff) by apply file_word_range. rw /PROGHDR_SIZE u32_small; [rw /SCRATCH; lia|].
    destruct (IH (i + 1) s1 L) as (s' & E & Hh' & Hl' & Hf'); [lia|lia|done| |].
    { intros j Hj. destruct (decide (j = i)) as [->|]; [done|]. eapply loaded_kept; [apply Hl; lia|]. intros x Hx. apply Hf1. destruct (ld_order L j i) as [?|?]; lia. }
    exists s'. split; [by replace (SCRATCH + phoff + 32 * i + 32) with (SCRATCH + phoff + 32 * (i + 1)) by lia|]. split; [done|]. split; [done|].
    intros x Hx. rw Hf' // Hf1 //. apply Hx. lia.
Qed.

(** C26. The boot loader loads the kernel: for an ELF file on the disk whose segments do not
    overwrite the headers or each other, [bootmain] jumps to the file's entry point with every
    segment in memory at its physical address, the part that is in the file followed by zeros,
    whatever memory held before; and it writes nowhere but to the page with the headers and,
    in whole sectors, around the segments. *)
Theorem bootmain_loads s : loadable →
  ∃ s', bootmain s = Ok (Some (file_word 24), s') ∧
    (∀ i, 0 ≤ i < phnum → loaded (bt_mem s') (segment i)) ∧
    ∀ x, (x < SCRATCH ∨ SCRATCH + 4096 ≤ x) → (∀ i, 0 ≤ i < phnum → x < first (segment i) ∨ past (segment i) ≤ x) →
      mread (bt_mem s') x = mread (bt_mem s) x.
Proof.
  intros L. destruct (readseg_ok SCRATCH 4096 0 s) as (s1 & E1 & M1); [by vm_compute..|].
  change (seg_start SCRATCH 0) with SCRATCH in M1. change (512 * seg_sectors 4096 0) with 4096 in M1.
  assert (headers (bt_mem s1)) as Hh by (intros k Hk; rw M1 decide_True; [lia|]; f_equal; lia).
  pose proof (ld_headers L) as Hp. rw /PROGHDR_SIZE in Hp. assert (0 ≤ phoff) as Hph by apply file_word_range.
  assert (0 ≤ phnum) as Hpn by (rw /phnum; pose proof (file_byte_range 44); pose proof (file_byte_range 45); lia).
  destruct (load_phs_ok (Z.to_nat phnum) 0 s1 L) as (s' & E & Hh' & Hl & Hf); [lia|lia|done|lia|].
  exists s'. split; [|split; [done|]].
  - rw /bootmain. mgo E1. rw /field /field16. mget. rw (headers_word _ 0 Hh) // (ld_magic L) Z.eqb_refl. cbn [negb]. mget.
    rw (headers_word _ 28 Hh) //. fold phoff.
    assert (mread (bt_mem s1) (SCRATCH + 44) + 256 * mread (bt_mem s1) (SCRATCH + 44 + 1) = phnum) as -> by by rw -Z.add_assoc !Hh.
    rw /PROGHDR_SIZE in E |- *. rw u32_small; [rw /SCRATCH; lia|]. rw u32_small; [rw /SCRATCH; lia|]. rw Z.mul_0_r Z.add_0_r in E. mgo E. mget. by rw (headers_word _ 24 Hh').
  - intros x Hx Hs. rw Hf // M1. by rewrite -> decide_False by lia.
Qed.
End boot.

(** A kernel of six bytes and four zeros at 1 MB. *)
Definition ex_header : list Z :=
  [0x7F; 0x45; 0x4C; 0x46] ++ replicate 20 0 ++ [0x0C; 0; 0x10; 0] ++ [52; 0; 0; 0] ++ replicate 12 0 ++ [1; 0] ++ replicate 6 0 ++
  [1; 0; 0; 0] ++ [0; 0x10; 0; 0] ++ [0; 0; 0x10; 0x80] ++ [0; 0; 0x10; 0] ++ [6; 0; 0; 0] ++ [10; 0; 0; 0].
Definition ex_kernel (d n : Z) : list Z :=
  if n =? 1 then ex_header ++ replicate 436 0 else if n =? 9 then [1; 2; 3; 4; 5; 6] ++ replicate 506 7 else replicate 512 0.
Lemma ex_loadable : loadable ex_kernel.
Proof.
  assert (phnum ex_kernel = 1) as Hn by by vm_compute. split.
  - by vm_compute.
  - by vm_compute.
  - rw Hn. intros i Hi. assert (i = 0) as -> by lia. by vm_compute.
  - rw Hn. intros i Hi. assert (i = 0) as -> by lia. right. by vm_compute.
  - rw Hn. intros i j Hi Hj. lia.
Qed.
Lemma ex_sectors d n : Forall (λ b, 0 ≤ b < 256) (ex_kernel d n).
Proof. rw /ex_kernel. destruct (n =? 1); [|destruct (n =? 9)]; apply (bool_decide_eq_true_1 (Forall _ _)); by vm_compute. Qed.
Lemma bootmain_loads_witness :
  ∃ s', bootmain ex_kernel (λ _, 0x40) 1 (mkBoot ∅ (λ _, 0) [] 0) = Ok (Some 0x10000C, s') ∧
    mread (bt_mem s') 0x100003 = 4 ∧ mread (bt_mem s') 0x100009 = 0.
Proof.
  destruct (bootmain_loads ex_kernel (λ _, 0x40) 1) with (s := mkBoot ∅ (λ _, 0) [] 0) as (s' & E & Hl & _).
  - intros n. exists 0%nat. split; [lia|reflexivity].
  - intros d n. rw /ex_kernel. destruct (n =? 1); [reflexivity|]. destruct (n =? 9); reflexivity.
  - apply ex_sectors.
  - apply ex_loadable.
  - assert (file_word ex_kernel 24 = 0x10000C) as Ew by by vm_compute. rw Ew in E. exists s'. split; [exact E|].
    assert (segment ex_kernel 0 = mkSeg 0x100000 6 4096 10) as Eg by by vm_compute.
    assert (phnum ex_kernel = 1) as Hn by (vm_compute; reflexivity).
    pose proof (Hl 0) as H. rw Eg Hn in H. clear E Hl. specialize (H ltac:(lia)). split.
    + pose proof (H 3) as H3. cbn in H3. rw H3; [lia|]. vm_compute; reflexivity.
    + pose proof (H 9) as H9. cbn in H9. rw H9; [lia|]. vm_compute; reflexivity.
Defined.
