(* ===== verification/Sh.v ===== *)
(** * The shell (sh.c)

    The parser of command lines and the running of the commands it returns.  A [char*]
    into the command line is the rest of the line from there on, the terminating NUL
    not included; so [es] is the empty list and [*s] at [es] is 0. *)

From S2P Require Import Prelude Params.

(** ** Commands *)

(** [struct cmd] and the structures it stands for; a counted string is given by the
    pointers to its start and its end. *)
Inductive cmd :=
  | EXEC (argv : list (list Z * list Z))
  | REDIR (c : cmd) (file efile : list Z) (mode fd : Z)
  | PIPE (left right : cmd)
  | LIST (left right : cmd)
  | BACK (c : cmd).

Definition MAXARGS : Z := 10.
Definition sh_RDONLY : Z := 0.
Definition sh_CREATE : Z := 513.  (* O_WRONLY|O_CREATE *)

(** ** Tokens *)

Definition whitespace : list Z := [32; 9; 13; 10; 11].
Definition symbols : list Z := [60; 124; 62; 38; 59; 40; 41].

(** [strchr(str, c) != 0], with [c] not NUL *)
Definition strchr (str : list Z) (c : Z) : bool := bool_decide (c ∈ str).

Fixpoint skip_ws (s : list Z) : list Z :=
  match s with
  | c :: s' => if strchr whitespace c then skip_ws s' else s
  | [] => []
  end.
Fixpoint skip_word (s : list Z) : list Z :=
  match s with
  | c :: s' => if negb (strchr whitespace c) && negb (strchr symbols c) then skip_word s' else s
  | [] => []
  end.

(** The token, its start [q] and its end [eq]. *)
Definition gettoken : M (list Z) (Z * list Z * list Z) := λ ps,
  let q := skip_ws ps in
  let '(ret, eq) :=
    match q with
    | [] => (0, [])
    | c :: s =>
        if (c =? 124) || (c =? 40) || (c =? 41) || (c =? 59) || (c =? 38) || (c =? 60) then (c, s)
        else if c =? 62 then
          match s with
          | c' :: s' => if c' =? 62 then (43, s') else (c, s)
          | [] => (c, s)
          end
        else (97, skip_word q)
    end in
  Ok ((ret, q, eq), skip_ws eq).

Definition peek (toks : list Z) : M (list Z) bool := λ ps,
  let s := skip_ws ps in
  Ok (match s with [] => false | c :: _ => strchr toks c end, s).

(** ** The parser *)

(** A redirection: the file's name, the mode and the descriptor. *)
Record redir := mkRedir { rd_q : list Z; rd_eq : list Z; rd_mode : Z; rd_fd : Z }.
Definition redircmd (c : cmd) (r : redir) : cmd := REDIR c (rd_q r) (rd_eq r) (rd_mode r) (rd_fd r).

(** The loop of [parseredirs]; each redirection takes at least two characters. *)
Fixpoint parseredirs (k : nat) : M (list Z) (list redir) :=
  match k with
  | O => panic "parseredirs: out of fuel"
  | S k =>
      b ← peek [60; 62];
      if negb b then mret [] else
      t ← gettoken;
      f ← gettoken;
      if negb (f.1.1 =? 97) then panic "missing file for redirection" else
      rs ← parseredirs k;
      mret (if t.1.1 =? 60 then mkRedir f.1.2 f.2 sh_RDONLY 0 :: rs
            else if t.1.1 =? 62 then mkRedir f.1.2 f.2 sh_CREATE 1 :: rs
            else if t.1.1 =? 43 then mkRedir f.1.2 f.2 sh_CREATE 1 :: rs
            else rs)
  end.

(** The loop of [parseexec]: [argv] and [rs] are the arguments and the redirections found
    so far.  The redirections wrap the [execcmd] whose arguments are still being filled
    in, so the command is built at the end. *)
Fixpoint parseargs (k : nat) (argv : list (list Z * list Z)) (rs : list redir) : M (list Z) cmd :=
  match k with
  | O => panic "parseexec: out of fuel"
  | S k =>
      b ← peek [124; 41; 38; 59];
      if (b : bool) then mret (foldl redircmd (EXEC argv) rs) else
      t ← gettoken;
      if t.1.1 =? 0 then mret (foldl redircmd (EXEC argv) rs) else
      if negb (t.1.1 =? 97) then panic "syntax" else
      let argv := argv ++ [(t.1.2, t.2)] in
      if MAXARGS <=? Z.of_nat (length argv) then panic "too many args" else
      rs' ← parseredirs k;
      parseargs k argv (rs ++ rs')
  end.

(** [while(peek(ps, es, "&"))] *)
Fixpoint parsebacks (k : nat) (c : cmd) : M (list Z) cmd :=
  match k with
  | O => panic "parseline: out of fuel"
  | S k =>
      b ← peek [38];
      if (b : bool) then gettoken ;; parsebacks k (BACK c) else mret c
  end.

(** The four mutually recursive functions; [k] bounds the depth of the recursion. *)
Fixpoint parseline (k : nat) : M (list Z) cmd :=
  match k with
  | O => panic "parseline: out of fuel"
  | S k =>
      c ← parsepipe k;
      c ← parsebacks k c;
      b ← peek [59];
      if (b : bool) then gettoken ;; r ← parseline k; mret (LIST c r) else mret c
  end
with parsepipe (k : nat) : M (list Z) cmd :=
  match k with
  | O => panic "parsepipe: out of fuel"
  | S k =>
      c ← parseexec k;
      b ← peek [124];
      if (b : bool) then gettoken ;; r ← parsepipe k; mret (PIPE c r) else mret c
  end
with parseexec (k : nat) : M (list Z) cmd :=
  match k with
  | O => panic "parseexec: out of fuel"
  | S k =>
      b ← peek [40];
      if (b : bool) then parseblock k else
      rs ← parseredirs k;
      parseargs k [] rs
  end
with parseblock (k : nat) : M (list Z) cmd :=
  match k with
  | O => panic "parseblock: out of fuel"
  | S k =>
      b ← peek [40];
      if negb b then panic "parseblock" else
      gettoken ;;
      c ← parseline k;
      b ← peek [41];
      if negb b then panic "syntax - missing )" else
      gettoken ;;
      rs ← parseredirs k;
      mret (foldl redircmd c rs)
  end.

(** [*efile = 0;] and [*eargv[i] = 0;] in the buffer the line is in, which has its NUL. *)
Definition nul_at (line eq : list Z) (buf : list Z) : list Z := <[(length line - length eq)%nat := 0]> buf.
Fixpoint nulterminate (line : list Z) (c : cmd) (buf : list Z) : list Z :=
  match c with
  | EXEC argv => foldl (λ buf a, nul_at line a.2 buf) buf argv
  | REDIR c _ efile _ _ => nul_at line efile (nulterminate line c buf)
  | PIPE l r | LIST l r => nulterminate line r (nulterminate line l buf)
  | BACK c => nulterminate line c buf
  end.

(** The fuel is the recursion's depth: each character read allows at most four calls. *)
Definition parse_fuel (s : list Z) : nat := (4 * length s + 8)%nat.
(** The command, and the buffer it points into. *)
Definition parsecmd (line : list Z) : result (cmd * list Z) :=
  match (c ← parseline (parse_fuel line); peek [] ;; s ← gets id; mret (c, s)) line with
  | Ok ((c, s), _) =>
      match s with
      | [] => Ok (c, nulterminate line c (line ++ [0]))
      | _ => Panic "syntax"
      end
  | Panic e => Panic e
  | Sleeps => Sleeps
  end.

(** ** The parser returns, and its strings are the words of the line *)

Definition errors : list string :=
  ["missing file for redirection"%string; "syntax"%string; "too many args"%string; "syntax - missing )"%string].

(** The counted strings of a command. *)
Fixpoint tokens (c : cmd) : list (list Z * list Z) :=
  match c with
  | EXEC argv => argv
  | REDIR c q eq _ _ => tokens c ++ [(q, eq)]
  | PIPE l r | LIST l r => tokens l ++ tokens r
  | BACK c => tokens c
  end.
Definition rtokens (rs : list redir) : list (list Z * list Z) := (λ r, (rd_q r, rd_eq r)) <$> rs.

(** A word of the line [s]. *)
Definition is_word (s : list Z) (t : list Z * list Z) : Prop := t.1 `suffix_of` s ∧ t.2 = skip_word t.1.

(** A run of the parser from [s1], a rest of the line [s]: it stops with one of the
    parser's errors, or leaves a rest of [s1], with all the strings of its result words
    of [s]. *)
Definition fine {A} (toks : A → list (list Z * list Z)) (s s1 : list Z) (r : result (A * list Z)) : Prop :=
  match r with
  | Ok (a, s') => s' `suffix_of` s1 ∧ Forall (is_word s) (toks a)
  | Panic e => e ∈ errors
  | Sleeps => False
  end.
Definition no_tokens {A} (_ : A) : list (list Z * list Z) := [].

Lemma skip_ws_suffix s : skip_ws s `suffix_of` s.
Proof. induction s as [|c s IH]; simpl; [done|]. destruct (strchr _ _); [by apply suffix_cons_r|done]. Qed.
Lemma skip_word_suffix s : skip_word s `suffix_of` s.
Proof. induction s as [|c s IH]; simpl; [done|]. destruct (_ && _); [by apply suffix_cons_r|done]. Qed.

Lemma fine_bind {A B} (ta : A → _) (tb : B → _) (m : M (list Z) A) (k : A → M (list Z) B) s s1 :
  fine ta s s1 (m s1) →
  (∀ a s', s' `suffix_of` s1 → Forall (is_word s) (ta a) → m s1 = Ok (a, s') → fine tb s s' (k a s')) →
  fine tb s s1 ((m ≫= k) s1).
Proof.
  rw /mbind /M_bind. destruct (m s1) as [[a s']| |] eqn:E; simpl; [|done|done].
  intros [Hs Ht] Hk. specialize (Hk a s' Hs Ht eq_refl).
  destruct (k a s') as [[b s'']| |]; simpl in *; [|done|done]. destruct Hk as [H1 H2]. split; [by etrans|done].
Qed.
Lemma fine_ret {A} (toks : A → _) s s1 a : Forall (is_word s) (toks a) → fine toks s s1 ((mret a : M (list Z) A) s1).
Proof. by split. Qed.
Lemma fine_peek toks s s1 : fine no_tokens s s1 (peek toks s1).
Proof. split; [apply skip_ws_suffix|constructor]. Qed.

(** What [gettoken] returns. *)
Lemma gettoken_ok s :
  ∃ ret q eq, gettoken s = Ok ((ret, q, eq), skip_ws eq) ∧ q = skip_ws s ∧ eq `suffix_of` q ∧
    (ret = 97 → eq = skip_word q) ∧ (q ≠ [] → (length eq < length q)%nat).
Proof.
  rw /gettoken. set (q := skip_ws s).
  assert (∀ c s', q = c :: s' → strchr whitespace c = false) as Hq.
  { rw /q. clear. induction s as [|c s IH]; intros c' s'; simpl; [done|]. destruct (strchr whitespace c) eqn:E; [apply IH|].
    by intros [= -> ->]. }
  destruct q as [|c s'] eqn:Eq.
  { eexists _, _, _. split; [done|]. split; [done|]. split; [done|]. by split. }
  specialize (Hq c s' eq_refl). destruct (_ || _) eqn:Es.
  { exists c, (c :: s'), s'. split; [done|]. split; [done|]. split; [by apply suffix_cons_r|]. split; [|simpl; lia].
    intros ->. discriminate. }
  destruct (Z.eqb_spec c 62) as [->|Hc].
  { destruct s' as [|c2 s'].
    { exists 62, [62], []. split; [done|]. split; [done|]. split; [by apply suffix_cons_r|]. split; [done|simpl; lia]. }
    destruct (Z.eqb_spec c2 62) as [->|Hc2].
    - exists 43, (62 :: 62 :: s'), s'. split; [done|]. split; [done|]. split; [by do 2 apply suffix_cons_r|]. split; [done|simpl; lia].
    - exists 62, (62 :: c2 :: s'), (c2 :: s'). split; [done|]. split; [done|]. split; [by apply suffix_cons_r|].
      split; [done|simpl; lia]. }
  exists 97, (c :: s'), (skip_word (c :: s')). split; [done|]. split; [done|]. split; [apply skip_word_suffix|]. split; [done|].
  intros _. simpl. rw Hq. cbn [negb andb].
  assert (strchr symbols c = false) as ->.
  { rw /strchr /symbols. apply bool_decide_eq_false. rw !orb_false_iff !Z.eqb_neq in Es. set_solver. }
  simpl. pose proof (suffix_length _ _ (skip_word_suffix s')). lia.
Qed.

Definition tok_tokens (t : Z * list Z * list Z) : list (list Z * list Z) := if t.1.1 =? 97 then [(t.1.2, t.2)] else [].
Lemma fine_gettoken s s1 : s1 `suffix_of` s → fine tok_tokens s s1 (gettoken s1).
Proof.
  intros Hs. destruct (gettoken_ok s1) as (ret & q & eq & -> & -> & Hsuf & Hw & _). split.
  - etrans; [apply skip_ws_suffix|]. etrans; [done|]. apply skip_ws_suffix.
  - rw /tok_tokens /=. destruct (Z.eqb_spec ret 97) as [E|E]; constructor; [|constructor]. split; simpl; [|by apply Hw].
    etrans; [apply skip_ws_suffix|done].
Qed.
(** After a successful [peek], [gettoken] takes at least a character. *)
Lemma peek_some toks s b s' : peek toks s = Ok (b, s') → s' = skip_ws s ∧ (b = true → s' ≠ []).
Proof. rw /peek. intros [= <- <-]. split; [done|]. by destruct (skip_ws s). Qed.
Lemma skip_ws_idem s : skip_ws (skip_ws s) = skip_ws s.
Proof. induction s as [|c s IH]; simpl; [done|]. destruct (strchr whitespace c) eqn:E; [done|]. by rw /= E. Qed.
Lemma gettoken_shorter s t s' : skip_ws s ≠ [] → gettoken s = Ok (t, s') → (length s' < length s)%nat.
Proof.
  intros Hne E. destruct (gettoken_ok s) as (ret & q & eq & E' & -> & _ & _ & Hl). rw E' in E. injection E as <- <-.
  pose proof (suffix_length _ _ (skip_ws_suffix eq)). pose proof (suffix_length _ _ (skip_ws_suffix s)). specialize (Hl Hne). lia.
Qed.
Lemma gettoken_nonzero s t s' : gettoken s = Ok (t, s') → t.1.1 ≠ 0 → skip_ws s ≠ [].
Proof. rw /gettoken. intros E H0 Hn. rw Hn in E. by injection E as <- <-. Qed.

(** One of the parser's errors. *)
Ltac ferr := rw /fine /= /errors; set_solver.
(** One step of a [fine] goal. *)
Ltac fpeek b s' Hs' Hb :=
  eapply fine_bind; [apply fine_peek|]; intros b s' Hs' _ [-> Hb]%peek_some; cbn beta.
Ltac ftok t s' Hs' Ht E :=
  eapply fine_bind; [apply fine_gettoken; by repeat (etrans; [eassumption|])|]; intros t s' Hs' Ht E; cbn beta.

Lemma fine_parseredirs k : ∀ s s1, s1 `suffix_of` s → (length s1 < k)%nat → fine rtokens s s1 (parseredirs k s1).
Proof.
  induction k as [|k IH]; intros s s1 Hs Hk; [lia|]. cbn [parseredirs].
  fpeek b s2 H2 Hb. destruct b; cbn [negb]; [|by apply fine_ret]. specialize (Hb eq_refl).
  ftok t s3 H3 Ht E3.
  pose proof (gettoken_shorter (skip_ws s1) t s3 ltac:(by rw skip_ws_idem) E3) as L3.
  ftok f s4 H4 Hf E4. destruct (Z.eqb_spec f.1.1 97) as [Ef|Ef]; cbn [negb]; [|ferr].
  pose proof (suffix_length _ _ H2). pose proof (suffix_length _ _ H4).
  eapply fine_bind; [apply IH; [by repeat (etrans; [eassumption|])|lia]|]. intros rs s5 H5 Hrs _. apply fine_ret.
  rw /tok_tokens Ef /= in Hf. apply Forall_cons in Hf as [Hf _]. repeat destruct (_ =? _); try done; by constructor.
Qed.

Lemma foldl_redirs_tokens s rs : ∀ c,
  Forall (is_word s) (tokens c) → Forall (is_word s) (rtokens rs) → Forall (is_word s) (tokens (foldl redircmd c rs)).
Proof.
  induction rs as [|r rs IH]; intros c Hc Hr; simpl; [done|]. apply Forall_cons in Hr as [Hr Hrs]. apply IH; [|done].
  simpl. apply Forall_app. split; [done|]. by apply Forall_singleton.
Qed.

Lemma fine_parseargs k : ∀ s s1 argv rs,
  s1 `suffix_of` s → (length s1 + 1 < k)%nat → Forall (is_word s) argv → Forall (is_word s) (rtokens rs) →
  fine tokens s s1 (parseargs k argv rs s1).
Proof.
  induction k as [|k IH]; intros s s1 argv rs Hs Hk Ha Hr; [lia|]. cbn [parseargs].
  fpeek b s2 H2 Hb. destruct b; [apply fine_ret; by apply foldl_redirs_tokens|].
  ftok t s3 H3 Ht E3. destruct (Z.eqb_spec t.1.1 0) as [E0|E0]; [apply fine_ret; by apply foldl_redirs_tokens|].
  pose proof (gettoken_shorter _ _ _ (gettoken_nonzero _ _ _ E3 E0) E3) as L3. pose proof (suffix_length _ _ H2).
  destruct (Z.eqb_spec t.1.1 97) as [Et|Et]; cbn [negb]; [|ferr]. cbn zeta.
  destruct (MAXARGS <=? _); [ferr|]. rw /tok_tokens Et /= in Ht.
  eapply fine_bind; [apply (fine_parseredirs k s); [by repeat (etrans; [eassumption|])|lia]|]. intros rs' s4 H4 Hrs _.
  pose proof (suffix_length _ _ H4). apply IH; [by repeat (etrans; [eassumption|])|lia|by apply Forall_app_2|].
  rw /rtokens fmap_app. by apply Forall_app_2.
Qed.

Lemma fine_parsebacks k : ∀ s s1 c,
  s1 `suffix_of` s → (length s1 < k)%nat → Forall (is_word s) (tokens c) → fine tokens s s1 (parsebacks k c s1).
Proof.
  induction k as [|k IH]; intros s s1 c Hs Hk Hc; [lia|]. cbn [parsebacks].
  fpeek b s2 H2 Hb. destruct b; [|by apply fine_ret]. specialize (Hb eq_refl). ftok t s3 H3 Ht E3.
  pose proof (gettoken_shorter (skip_ws s1) t s3 ltac:(by rw skip_ws_idem) E3). pose proof (suffix_length _ _ H2).
  apply IH; [by repeat (etrans; [eassumption|])|lia|done].
Qed.

Lemma fine_parse k : ∀ s s1, s1 `suffix_of` s →
  ((4 * length s1 + 6 ≤ k)%nat → fine tokens s s1 (parseline k s1)) ∧
  ((4 * length s1 + 5 ≤ k)%nat → fine tokens s s1 (parsepipe k s1)) ∧
  ((4 * length s1 + 4 ≤ k)%nat → fine tokens s s1 (parseexec k s1)) ∧
  ((4 * length s1 + 3 ≤ k)%nat → (∃ r, skip_ws s1 = 40 :: r) → fine tokens s s1 (parseblock k s1)).
Proof.
  induction k as [|k IH]; intros s s1 Hs; [split_and!; lia|].
  assert (∀ b s2 t s3, peek [b] s1 = Ok (true, s2) → gettoken s2 = Ok (t, s3) → (length s3 < length s1)%nat) as Hshort.
  { intros b s2 t s3 [-> Hb]%peek_some E. pose proof (gettoken_shorter (skip_ws s1) t s3 ltac:(rw skip_ws_idem; by apply Hb) E).
    pose proof (suffix_length _ _ (skip_ws_suffix s1)). lia. }
  split_and!; intros Hk.
  - cbn [parseline]. eapply fine_bind; [apply (IH s s1 Hs); lia|]. intros c s2 J2 Hc _. pose proof (suffix_length _ _ J2).
    eapply fine_bind; [apply (fine_parsebacks k s); [by etrans|lia|done]|]. intros c' s3 J3 Hc' _. pose proof (suffix_length _ _ J3).
    fpeek b s4 J4 Hb. destruct b; [|by apply fine_ret]. specialize (Hb eq_refl). ftok t s5 J5 Ht E5.
    pose proof (gettoken_shorter (skip_ws s3) t s5 ltac:(by rw skip_ws_idem) E5). pose proof (suffix_length _ _ J4).
    eapply fine_bind; [apply (IH s s5); [by repeat (etrans; [eassumption|])|lia]|]. intros r s6 J6 Hr _. apply fine_ret.
    by apply Forall_app_2.
  - cbn [parsepipe]. eapply fine_bind; [apply (IH s s1 Hs); lia|]. intros c s3 J3 Hc _. pose proof (suffix_length _ _ J3).
    fpeek b s4 J4 Hb. destruct b; [|by apply fine_ret]. specialize (Hb eq_refl). ftok t s5 J5 Ht E5.
    pose proof (gettoken_shorter (skip_ws s3) t s5 ltac:(by rw skip_ws_idem) E5). pose proof (suffix_length _ _ J4).
    eapply fine_bind; [apply (IH s s5); [by repeat (etrans; [eassumption|])|lia]|]. intros r s6 J6 Hr _. apply fine_ret.
    by apply Forall_app_2.
  - cbn [parseexec]. eapply fine_bind; [apply fine_peek|]. intros b s2 J2 _ E2. pose proof (suffix_length _ _ J2). destruct b.
    + apply (IH s s2); [by etrans|lia|]. rw /peek in E2. injection E2 as E2 <-. rw skip_ws_idem.
      destruct (skip_ws s1) as [|c r]; [done|]. exists r. f_equal. rw /strchr in E2. apply bool_decide_eq_true in E2. set_solver.
    + eapply fine_bind; [apply (fine_parseredirs k s); [by etrans|lia]|]. intros rs s3 J3 Hrs _. pose proof (suffix_length _ _ J3).
      apply fine_parseargs; [by repeat (etrans; [eassumption|])|lia|done|done].
  - intros (r & Er). cbn [parseblock]. eapply fine_bind; [apply fine_peek|]. intros b s2 J2 _ E2.
    pose proof (Hshort 40 s2). rw /peek Er /= in E2. injection E2 as <- <-. cbn [negb].
    ftok t s3 J3 Ht E3. assert (length s3 < length s1)%nat as L3 by (apply (Hshort 40 (40 :: r) t); [rw /peek Er; reflexivity|exact E3]).
    eapply fine_bind; [apply (IH s s3); [by repeat (etrans; [eassumption|])|lia]|]. intros c s4 J4 Hc _. pose proof (suffix_length _ _ J4).
    fpeek b s5 J5 Hb. destruct b; cbn [negb]; [|ferr]. ftok t' s6 J6 Ht' E6. pose proof (suffix_length _ _ J5). pose proof (suffix_length _ _ J6).
    eapply fine_bind; [apply (fine_parseredirs k s); [by repeat (etrans; [eassumption|])|lia]|]. intros rs s7 J7 Hrs _.
    apply fine_ret. by apply foldl_redirs_tokens.
Qed.

Definition word_char (c : Z) : Prop := (c ∉ whitespace) ∧ (c ∉ symbols).
Lemma word_char_bool c : negb (strchr whitespace c) && negb (strchr symbols c) = true ↔ word_char c.
Proof. rw /strchr andb_true_iff !negb_true_iff !bool_decide_eq_false. done. Qed.

Lemma skip_word_spec q :
  ∃ w, q = w ++ skip_word q ∧ Forall word_char w ∧ ∀ c r, skip_word q = c :: r → ¬ word_char c.
Proof.
  induction q as [|c q (w & E & Hw & Hn)]; simpl.
  { exists []. split; [done|]. split; [done|]. by intros c r. }
  destruct (negb (strchr whitespace c) && negb (strchr symbols c)) eqn:Ec.
  - exists (c :: w). split; [simpl; by rewrite <- E|]. split; [|done]. constructor; [|done]. by apply word_char_bool.
  - exists []. split; [done|]. split; [done|]. intros c' r [= -> ->] Hc. apply word_char_bool in Hc. congruence.
Qed.

(** The string a pair of pointers delimits. *)
Definition text (t : list Z * list Z) : list Z := take (length t.1 - length t.2) t.1.
(** The NUL-terminated string at index [i] of a buffer. *)
Definition cstr_at (buf : list Z) (i : nat) (l : list Z) : Prop :=
  (0 ∉ l) ∧ ∃ pre post, buf = pre ++ l ++ 0 :: post ∧ length pre = i.

Lemma nulterminate_tokens line c buf :
  nulterminate line c buf = foldl (λ buf t, nul_at line t.2 buf) buf (tokens c).
Proof.
  revert buf. induction c as [argv|c IH q eq m fd|l IHl r IHr|l IHl r IHr|c IH]; intros buf; simpl; [done| | | |done].
  - by rw foldl_app /= IH.
  - by rw foldl_app -IHl IHr.
  - by rw foldl_app -IHl IHr.
Qed.

Lemma foldl_nul_lookup line ts : ∀ buf i,
  (i < length buf)%nat →
  foldl (λ buf t, nul_at line t.2 buf) buf ts !! i =
    if decide (Exists (λ t : list Z * list Z, (length line - length t.2)%nat = i) ts) then Some 0 else buf !! i.
Proof.
  induction ts as [|t ts IH]; intros buf i Hi; cbn [foldl].
  { by rewrite -> decide_False by (intros H; inversion H). }
  rw IH; [by rw /nul_at length_insert|]. rw /nul_at. destruct (decide (Exists _ ts)) as [H|H].
  - by rewrite -> decide_True by by right.
  - destruct (decide ((length line - length t.2)%nat = i)) as [E|E].
    + rewrite -> decide_True by by left. rw E. by apply list_lookup_insert_eq.
    + rewrite -> decide_False by (intros [?|?]%Exists_cons; done). by apply list_lookup_insert_ne.
Qed.
Lemma foldl_nul_length line (ts : list (list Z * list Z)) : ∀ buf, length (foldl (λ buf (t : list Z * list Z), nul_at line t.2 buf) buf ts) = length buf.
Proof. induction ts as [|t ts IH]; intros buf; simpl; [done|]. by rw IH /nul_at length_insert. Qed.

Lemma word_not_ended line t i :
  is_word line t → word_char (line !!! i) → (i < length line)%nat → (length line - length t.2)%nat ≠ i.
Proof.
  intros [(pre & Hp) He] Hc Hi E. destruct (skip_word_spec t.1) as (w & Ew & _ & Hn). rewrite <- He in Ew, Hn.
  destruct t.2 as [|c r] eqn:E2; [simpl in E; lia|]. apply (Hn c r eq_refl).
  assert (line !! i = Some c) as Hl; [|by rw (list_lookup_total_correct _ _ _ Hl) in Hc].
  assert (line = (pre ++ w) ++ c :: r) as -> by by rw Hp Ew app_assoc.
  rewrite -> lookup_app_r by (rw length_app /= in E; lia). rw length_app /= in E.
  by replace (i - length (pre ++ w))%nat with 0%nat by lia.
Qed.

Lemma terminated line ts t :
  0 ∉ line → Forall (is_word line) ts → t ∈ ts →
  cstr_at (foldl (λ buf (t : list Z * list Z), nul_at line t.2 buf) (line ++ [0]) ts) (length line - length t.1) (text t).
Proof.
  intros H0 Hts Ht. pose proof (proj1 (Forall_forall _ _) Hts t Ht) as [(pre & Hp) He].
  destruct (skip_word_spec t.1) as (w & Ew & Hw & Hn). rewrite <- He in Ew, Hn.
  assert (text t = w) as ->.
  { rw /text Ew length_app. replace (length w + length t.2 - length t.2)%nat with (length w) by lia. by rw take_app_length. }
  set (buf := foldl _ _ _). assert (length buf = S (length line)) as Hlen by (rw /buf foldl_nul_length length_app /=; lia).
  assert (length line = (length pre + length w + length t.2)%nat) as Ll by (rw Hp Ew !length_app; lia).
  assert (length line - length t.1 = length pre)%nat as -> by (rw Ll Ew length_app; lia).
  assert (∀ i, (length pre ≤ i < length pre + length w)%nat → buf !! i = w !! (i - length pre)%nat) as Hin.
  { intros i Hi. assert ((line ++ [0]) !! i = w !! (i - length pre)%nat) as El.
    { rewrite -> lookup_app_l by lia. rw Hp Ew. rewrite -> lookup_app_r by lia. rewrite -> lookup_app_l by lia. done. }
    rw /buf foldl_nul_lookup; [rw length_app /=; lia|]. rewrite -> decide_False; [done|]. intros Hex.
    apply Exists_exists in Hex as (t' & Ht' & E'). revert E'. apply word_not_ended; [by apply (proj1 (Forall_forall _ _) Hts)| |lia].
    rewrite -> lookup_app_l in El by lia. destruct (lookup_lt_is_Some_2 w (i - length pre)) as (c & Ec); [lia|]. rw Ec in El.
    rw (list_lookup_total_correct _ _ _ El). by apply (Forall_lookup_1 _ _ _ _ Hw Ec). }
  assert (buf !! (length pre + length w)%nat = Some 0) as Hend.
  { rw /buf foldl_nul_lookup; [rw length_app /=; lia|]. rewrite -> decide_True; [done|]. apply Exists_exists. exists t. split; [done|lia]. }
  split.
  - intros Hin0. apply H0. rw Hp Ew. set_solver.
  - exists (take (length pre) buf), (drop (length pre + length w + 1) buf). rw length_take. split; [|lia].
    apply list_eq. intros i. destruct (decide (i < length pre)%nat).
    { rewrite -> lookup_app_l by (rw length_take; lia). by rewrite -> lookup_take_lt by lia. }
    rewrite -> lookup_app_r by (rw length_take; lia). rw length_take. replace (length pre `min` length buf)%nat with (length pre) by lia.
    destruct (decide (i < length pre + length w)%nat) as [Hi|Hi].
    { rewrite -> lookup_app_l by lia. apply Hin. lia. }
    rewrite -> lookup_app_r by lia. destruct (decide (i = length pre + length w)%nat) as [->|Hne].
    { rw Hend. by replace (length pre + length w - length pre - length w)%nat with 0%nat by lia. }
    replace (i - length pre - length w)%nat with (S (i - (length pre + length w + 1))) by lia. simpl.
    rw lookup_drop. f_equal. lia.
Qed.



(** ** The parser reads what is printed *)

(** A command with the strings themselves. *)
Inductive scmd :=
  | SExec (argv : list (list Z))
  | SRedir (c : scmd) (file : list Z) (mode fd : Z)
  | SPipe (left right : scmd)
  | SList (left right : scmd)
  | SBack (c : scmd).
Fixpoint strings (c : cmd) : scmd :=
  match c with
  | EXEC argv => SExec (text <$> argv)
  | REDIR c q eq mode fd => SRedir (strings c) (text (q, eq)) mode fd
  | PIPE l r => SPipe (strings l) (strings r)
  | LIST l r => SList (strings l) (strings r)
  | BACK c => SBack (strings c)
  end.

(** A command line for a command, every part of it in parentheses. *)
Fixpoint print (c : scmd) : list Z :=
  match c with
  | SExec argv => argv ≫= (λ w, 32 :: w)
  | SRedir c f _ fd => 40 :: print c ++ 41 :: (if fd =? 0 then 60 else 62) :: f
  | SPipe l r => 40 :: print l ++ 41 :: 124 :: 40 :: print r ++ [41]
  | SList l r => 40 :: print l ++ 41 :: 59 :: 40 :: print r ++ [41]
  | SBack c => 40 :: print c ++ [41; 38]
  end.

Definition word (w : list Z) : Prop := w ≠ [] ∧ Forall word_char w.
Fixpoint printable (c : scmd) : Prop :=
  match c with
  | SExec argv => Forall word argv ∧ Z.of_nat (length argv) < MAXARGS
  | SRedir c f mode fd => printable c ∧ word f ∧ (mode = sh_RDONLY ∧ fd = 0 ∨ mode = sh_CREATE ∧ fd = 1)
  | SPipe l r | SList l r => printable l ∧ printable r
  | SBack c => printable c
  end.

(** The rest of a line after a command: its end, or one of the symbols in [l]. *)
Definition stops (l : list Z) (post : list Z) : Prop := post = [] ∨ ∃ c r, post = c :: r ∧ c ∈ l.

Lemma stops_ws post : stops symbols post → skip_ws post = post.
Proof.
  intros [->|(c & r & -> & Hc)]; [done|]. simpl. rw /strchr bool_decide_false //.
  rw /whitespace. rw /symbols in Hc. set_solver.
Qed.
Lemma stops_word w post : Forall word_char w → stops symbols post → skip_word (w ++ post) = post.
Proof.
  intros Hw Hp. induction Hw as [|c w Hc Hw IH]; simpl.
  - destruct Hp as [->|(c & r & -> & Hc)]; [done|]. simpl. rw {2}/strchr bool_decide_true //. by rw andb_false_r.
  - by rw (proj2 (word_char_bool c) Hc).
Qed.
Lemma stops_mono l l' post : l ⊆ l' → stops l post → stops l' post.
Proof. intros Hl [->|(c & r & -> & Hc)]; [by left|]. right. exists c, r. split; [done|]. by apply Hl. Qed.
(** A peek at the rest of a line. *)
Lemma peek_stops toks l post :
  l ⊆ symbols → l ## toks → stops l post → peek toks post = Ok (false, post).
Proof.
  intros Hl Hd Hp. rw /peek (stops_ws post (stops_mono _ _ _ Hl Hp)). destruct Hp as [->|(c & r & -> & Hc)]; [done|].
  rw /strchr bool_decide_false //. set_solver.
Qed.
Lemma peek_symbol toks c r : c ∈ symbols → c ∈ toks → peek toks (c :: r) = Ok (true, c :: r).
Proof.
  intros Hc Ht. rw /peek (stops_ws (c :: r)); [right; by exists c, r|]. by rw /strchr bool_decide_true.
Qed.
(** The token of a symbol, and of a word. *)
Lemma gettoken_symbol c r : c ∈ [124; 40; 41; 59; 38; 60] → gettoken (c :: r) = Ok ((c, c :: r, r), skip_ws r).
Proof.
  intros Hc. rw /gettoken (stops_ws (c :: r)); [right; exists c, r; split; [done|]; rw /symbols; set_solver|].
  repeat rewrite -> elem_of_cons in Hc. rw elem_of_nil in Hc.
  destruct Hc as [->|[->|[->|[->|[->|[->|[]]]]]]]; done.
Qed.
Lemma word_char_head c : word_char c →
  strchr whitespace c = false ∧ (c =? 124) || (c =? 40) || (c =? 41) || (c =? 59) || (c =? 38) || (c =? 60) = false ∧ c ≠ 62.
Proof.
  intros [H1 H2]. rw /whitespace in H1. rw /symbols in H2. split; [rw /strchr bool_decide_false //|].
  rw !orb_false_iff !Z.eqb_neq. set_solver.
Qed.
Lemma gettoken_word w post :
  word w → skip_word (w ++ post) = post →
  gettoken (w ++ post) = Ok ((97, w ++ post, post), skip_ws post).
Proof.
  intros [Hne Hw] Hs. destruct w as [|c w]; [done|]. apply Forall_cons in Hw as [Hc Hw].
  destruct (word_char_head c Hc) as (H1 & H2 & H3). rw /gettoken. cbn [app]. cbn [skip_ws]. rw H1 H2.
  rewrite -> (proj2 (Z.eqb_neq _ _)) by done. cbn [app] in Hs. by rw Hs.
Qed.

Definition ends : list Z := [41; 124; 59; 38].
Lemma ends_symbols : ends ⊆ symbols.
Proof. rw /ends /symbols. set_solver. Qed.

(** The arguments of a simple command, and what follows. *)
Definition args (ws : list (list Z)) : list Z := ws ≫= (λ w, 32 :: w).
Lemma skip_word_args w ws post : word w → stops ends post → skip_word (w ++ args ws ++ post) = args ws ++ post.
Proof.
  intros [_ Hw] Hp. destruct ws as [|w' ws]; [apply stops_word; [done|]; by apply (stops_mono _ _ _ ends_symbols)|].
  clear -Hw. induction Hw as [|c w Hc Hw IH]; [done|]. cbn [app skip_word]. by rw (proj2 (word_char_bool c) Hc).
Qed.
(** No symbol of [toks] comes next. *)
Lemma peek_args toks ws post :
  Forall word ws → stops ends post → toks ⊆ symbols → (ws = [] → ends ## toks) →
  peek toks (args ws ++ post) = Ok (false, skip_ws (args ws ++ post)).
Proof.
  intros Hws Hp Ht Hd. destruct ws as [|w ws].
  - rw (stops_ws post (stops_mono _ _ _ ends_symbols Hp)). apply (peek_stops toks ends); [apply ends_symbols|by apply Hd|done].
  - apply Forall_cons in Hws as [[Hne Hw] _]. destruct w as [|c w]; [done|]. apply Forall_cons in Hw as [Hc _].
    destruct (word_char_head c Hc) as (H1 & _). rw /peek. cbn [args mbind list_bind app skip_ws].
    change (strchr whitespace 32) with true. cbn iota. rw H1. rw /strchr bool_decide_false //. intros Hin. by apply Hc, Ht.
Qed.
Lemma peek_skip toks s : peek toks (skip_ws s) = peek toks s.
Proof. by rw /peek skip_ws_idem. Qed.
Lemma parseargs_ws k argv rs s : parseargs k argv rs (skip_ws s) = parseargs k argv rs s.
Proof. destruct k as [|k]; [done|]. cbn [parseargs]. rw /mbind /M_bind. by rw peek_skip. Qed.
Lemma parseredirs_none k s : peek [60; 62] s = Ok (false, skip_ws s) → parseredirs (S k) s = Ok ([], skip_ws s).
Proof. intros E. cbn [parseredirs]. by mgo E. Qed.

Lemma parseargs_print ws : ∀ k argv post,
  Forall word ws → stops ends post → Z.of_nat (length argv + length ws) < MAXARGS → (length ws + 1 < k)%nat →
  ∃ argv', parseargs k argv [] (args ws ++ post) = Ok (EXEC (argv ++ argv'), post) ∧ text <$> argv' = ws.
Proof.
  induction ws as [|w ws IH]; intros k argv post Hws Hp Hlen Hk; (destruct k as [|k]; [simpl in Hk; lia|]); cbn [parseargs].
  - exists []. rw app_nil_r. split; [|done]. cbn [args mbind list_bind app].
    destruct Hp as [->|(c & r & -> & Hc)]; [done|]. by mgo (peek_symbol [124; 41; 38; 59] c r ltac:(by apply ends_symbols)
      ltac:(rw /ends in Hc; set_solver)).
  - pose proof Hws as Hws'. apply Forall_cons in Hws' as [Hw Hws'].
    mgo (peek_args [124; 41; 38; 59] (w :: ws) post Hws Hp ltac:(rw /symbols; set_solver) ltac:(done)).
    assert (skip_ws (args (w :: ws) ++ post) = w ++ args ws ++ post) as ->.
    { destruct Hw as [Hne Hwc]. destruct w as [|c w]; [done|]. apply Forall_cons in Hwc as [Hc _].
      destruct (word_char_head c Hc) as (H1 & _). cbn [args mbind list_bind app skip_ws].
      change (strchr whitespace 32) with true. cbn iota. rw -app_assoc H1. done. }
    mgo (gettoken_word w (args ws ++ post) Hw (skip_word_args w ws post Hw Hp)). cbn [fst snd].
    change (97 =? 0) with false. change (97 =? 97) with true. cbn [negb]. cbn zeta iota.
    rewrite -> (proj2 (Z.leb_gt _ _)) by (rw length_app; simpl in Hlen |- *; lia).
    destruct k as [|k]; [simpl in Hk; lia|].
    assert (peek [60; 62] (skip_ws (args ws ++ post)) = Ok (false, skip_ws (skip_ws (args ws ++ post)))) as Ep.
    { rw peek_skip skip_ws_idem. apply peek_args; [done|done|rw /symbols; set_solver|]. intros _. rw /ends. set_solver. }
    mgo (parseredirs_none k _ Ep). rw skip_ws_idem parseargs_ws.
    destruct (IH (S k) (argv ++ [(w ++ args ws ++ post, args ws ++ post)]) post Hws' Hp) as (argv' & E & Ht).
    { rw length_app. simpl in Hlen |- *. lia. }
    { simpl in Hk. lia. }
    exists ((w ++ args ws ++ post, args ws ++ post) :: argv'). rw E -app_assoc. split; [done|]. cbn. rw Ht. f_equal.
    rw /text /= !length_app. rewrite -> take_app_le by lia. apply take_ge. lia.
Qed.

(** A command printed before [post] is parsed back from there. *)
Definition parses (c : scmd) : Prop := ∀ k post,
  stops [41] post → (4 * length (print c ++ post) + 6 ≤ k)%nat →
  ∃ t, parseline k (print c ++ post) = Ok (t, post) ∧ strings t = c.

Lemma stops_paren post : stops [41] post → stops ends post.
Proof. apply stops_mono. rw /ends. set_solver. Qed.

(** The end of [parseline] after a command that is followed by [post]. *)
Lemma parseline_end k s t post :
  parsepipe k s = Ok (t, post) → stops [41] post → (0 < k)%nat → parseline (S k) s = Ok (t, post).
Proof.
  intros E Hp Hk. cbn [parseline]. mgo E. destruct k as [|k]; [lia|]. cbn [parsebacks]. rw bind_assoc.
  assert ([41] ⊆ symbols) as Hs by (rw /symbols; set_solver).
  mgo (peek_stops [38] [41] post Hs ltac:(set_solver) Hp). mget. by mgo (peek_stops [59] [41] post Hs ltac:(set_solver) Hp).
Qed.
Lemma parsepipe_end k s t post :
  parseexec k s = Ok (t, post) → stops [41; 59; 38] post → parsepipe (S k) s = Ok (t, post).
Proof.
  intros E Hp. cbn [parsepipe]. mgo E.
  by mgo (peek_stops [124] [41; 59; 38] post ltac:(rw /symbols; set_solver) ltac:(set_solver) Hp).
Qed.

(** A command in parentheses, followed by the redirections [rs] and by [post]. *)
Abbreviation paren c rest := (40%Z :: print c ++ 41%Z :: rest).
Lemma parse_block c k rest rs post :
  parses c → (4 * length (paren c rest) + 4 ≤ k)%nat →
  (∀ k', (length rest < k')%nat → parseredirs k' (skip_ws rest) = Ok (rs, post)) →
  ∃ t, parseexec k (40 :: print c ++ 41 :: rest) = Ok (foldl redircmd t rs, post) ∧ strings t = c.
Proof.
  intros Hc Hk Hrs. do 2 (destruct k as [|k]; [simpl in Hk; lia|]). rw /= length_app /= in Hk.
  assert (∃ t, parseline k (skip_ws (print c ++ 41 :: rest)) = Ok (t, 41 :: rest) ∧ strings t = c) as (t & E & Ht).
  { destruct (Hc k (41 :: rest)) as (t & E & Ht); [right; by exists 41, rest; split; [|set_solver]|rw length_app /=; lia|].
    exists t. split; [|done]. rewrite <- E. clear. destruct k as [|k]; [done|]. cbn [parseline]. rw /mbind /M_bind.
    destruct k as [|k]; [done|]. cbn [parsepipe]. rw /mbind /M_bind. destruct k as [|k]; [done|]. cbn [parseexec].
    rw /mbind /M_bind. by rw peek_skip. }
  exists t. split; [|done]. cbn [parseexec].
  assert (∀ r, peek [40] (40 :: r) = Ok (true, 40 :: r)) as E40 by (intros r; apply peek_symbol; [rw /symbols|]; set_solver).
  mgo (E40 (print c ++ 41 :: rest)). cbn [parseblock]. mgo (E40 (print c ++ 41 :: rest)). cbn [negb].
  mgo (gettoken_symbol 40 (print c ++ 41 :: rest) ltac:(set_solver)). mgo E.
  mgo (peek_symbol [41] 41 rest ltac:(rw /symbols; set_solver) ltac:(set_solver)). cbn [negb].
  mgo (gettoken_symbol 41 rest ltac:(set_solver)). mgo (Hrs k ltac:(lia)). done.
Qed.
Lemma parse_block_plain c k rest :
  parses c → (4 * length (paren c rest) + 4 ≤ k)%nat → stops ends rest →
  ∃ t, parseexec k (40 :: print c ++ 41 :: rest) = Ok (t, rest) ∧ strings t = c.
Proof.
  intros Hc Hk Hr. apply (parse_block c k rest []); [done|done|]. intros k' Hk'. destruct k' as [|k']; [lia|].
  rw (stops_ws rest (stops_mono _ _ _ ends_symbols Hr)).
  pose proof (peek_stops [60; 62] ends rest ends_symbols ltac:(rw /ends; set_solver) Hr) as Ep.
  rw parseredirs_none; [|by rw (stops_ws rest (stops_mono _ _ _ ends_symbols Hr))]. by rw (stops_ws rest (stops_mono _ _ _ ends_symbols Hr)).
Qed.

Lemma parses_exec argv : printable (SExec argv) → parses (SExec argv).
Proof.
  intros [Hw Hl] k post Hp Hk. cbn [print] in Hk |- *. fold (args argv) in Hk |- *. pose proof (stops_paren post Hp) as He.
  assert (length argv ≤ length (args argv))%nat as Hlen.
  { clear. induction argv as [|w argv IH]; [done|]. change (args (w :: argv)) with (32 :: w ++ args argv). rw /= length_app. lia. }
  rw length_app in Hk. do 3 (destruct k as [|k]; [lia|]).
  destruct (parseargs_print argv k [] post Hw He) as (argv' & E & Ht); [done|lia|].
  exists (EXEC argv'). split; [|by rw /= Ht]. apply parseline_end; [|done|lia]. apply parsepipe_end.
  2: { apply (stops_mono [41]); [set_solver|done]. }
  cbn [parseexec]. mgo (peek_args [40] argv post Hw He ltac:(rw /symbols; set_solver) ltac:(intros _; rw /ends; set_solver)).
  destruct k as [|k]; [lia|].
  assert (peek [60; 62] (skip_ws (args argv ++ post)) = Ok (false, skip_ws (skip_ws (args argv ++ post)))) as Ep.
  { rw peek_skip skip_ws_idem. apply peek_args; [done|done|rw /symbols; set_solver|]. intros _. rw /ends. set_solver. }
  mgo (parseredirs_none k _ Ep). by rw skip_ws_idem parseargs_ws E.
Qed.

Lemma parses_redir c f mode fd : parses c → printable (SRedir c f mode fd) → parses (SRedir c f mode fd).
Proof.
  intros Hc (_ & Hf & Hm) k post Hp Hk. cbn [print] in Hk |- *. rw /= -app_assoc /= in Hk |- *.
  set (o := if fd =? 0 then 60 else 62) in *. pose proof (stops_mono _ _ _ ends_symbols (stops_paren post Hp)) as He.
  do 2 (destruct k as [|k]; [lia|]).
  destruct (parse_block c k (o :: f ++ post) [mkRedir (f ++ post) post mode fd] post Hc) as (t & E & Ht).
  { simpl. rw !length_app /= length_app in Hk |- *. lia. }
  { intros k' Hk'. destruct k' as [|k']; [lia|]. assert (o ∈ symbols) as Ho by (rw /o /symbols; destruct (fd =? 0); set_solver).
    rw (stops_ws (o :: f ++ post)); [right; by exists o, (f ++ post)|]. cbn [parseredirs].
    mgo (peek_symbol [60; 62] o (f ++ post) Ho ltac:(rw /o; destruct (fd =? 0); set_solver)). cbn [negb].
    assert (skip_ws (f ++ post) = f ++ post) as Hws.
    { destruct Hf as [Hne Hf]. destruct f as [|x f]; [done|]. apply Forall_cons in Hf as [Hx _].
      destruct (word_char_head x Hx) as (H1 & _). by rw /= H1. }
    assert (gettoken (o :: f ++ post) = Ok ((o, o :: f ++ post, f ++ post), f ++ post)) as Eo.
    { rw /gettoken (stops_ws (o :: f ++ post)); [right; by exists o, (f ++ post)|]. rw /o. destruct (fd =? 0); [by rw /= Hws|].
      destruct Hf as [Hne Hf]. destruct f as [|x f]; [done|]. apply Forall_cons in Hf as [Hx _].
      destruct (word_char_head x Hx) as (_ & _ & H3). cbn in Hws |- *. rewrite -> (proj2 (Z.eqb_neq x 62)) by done. cbn. by rw Hws. }
    mgo Eo. mgo (gettoken_word f post Hf (stops_word f post (proj2 Hf) He)). cbn [fst snd]. change (97 =? 97) with true. cbn [negb].
    rw (stops_ws post He). destruct k' as [|k']; [simpl in Hk'; lia|].
    pose proof (peek_stops [60; 62] ends post ends_symbols ltac:(rw /ends; set_solver) (stops_paren post Hp)) as Ep.
    assert (parseredirs (S k') post = Ok ([], post)) as Er by (cbn [parseredirs]; by mgo Ep).
    mgo Er. rw /o. destruct Hm as [[-> ->]|[-> ->]]; done. }
  exists (foldl redircmd t [mkRedir (f ++ post) post mode fd]). split.
  - apply parseline_end; [|done|lia]. apply parsepipe_end; [done|]. apply (stops_mono [41]); [set_solver|done].
  - cbn. rw Ht. f_equal. rw /text /= length_app. rewrite -> take_app_le by lia. apply take_ge. lia.
Qed.

Lemma stops_cons l c (r : list Z) : c ∈ l → stops l (c :: r).
Proof. intros H. right. by exists c, r. Qed.

Lemma parses_pipe l r : parses l → parses r → parses (SPipe l r).
Proof.
  intros Hl Hr k post Hp Hk. cbn [print] in Hk |- *. rw /= -app_assoc /= -app_assoc /= in Hk |- *.
  do 3 (destruct k as [|k]; [lia|]). rw !length_app /= !length_app /= in Hk.
  destruct (parse_block_plain l (S k) (124 :: paren r post) Hl) as (tl & El & Htl).
  { rw /= !length_app /= !length_app /=. lia. }
  { apply stops_cons. rw /ends. set_solver. }
  destruct (parse_block_plain r k post Hr) as (tr & Er & Htr); [rw /= length_app /=; lia|by apply stops_paren|].
  exists (PIPE tl tr). split; [|by rw /= Htl Htr]. apply parseline_end; [|done|lia]. cbn [parsepipe]. mgo El.
  mgo (peek_symbol [124] 124 (paren r post) ltac:(rw /symbols; set_solver) ltac:(set_solver)).
  mgo (gettoken_symbol 124 (paren r post) ltac:(set_solver)).
  assert (parsepipe (S k) (paren r post) = Ok (tr, post)) as Ep.
  { apply parsepipe_end; [done|]. apply (stops_mono [41]); [set_solver|done]. }
  rw (stops_ws (paren r post)); [apply stops_cons; rw /symbols; set_solver|]. by mgo Ep.
Qed.

Lemma parses_list l r : parses l → parses r → parses (SList l r).
Proof.
  intros Hl Hr k post Hp Hk. cbn [print] in Hk |- *. rw /= -app_assoc /= -app_assoc /= in Hk |- *.
  do 4 (destruct k as [|k]; [lia|]). rw !length_app /= !length_app /= in Hk.
  destruct (parse_block_plain l (S (S k)) (59 :: paren r post) Hl) as (tl & El & Htl).
  { rw /= !length_app /= !length_app /=. lia. }
  { apply stops_cons. rw /ends. set_solver. }
  destruct (parse_block_plain r (S k) post Hr) as (tr & Er & Htr); [rw /= length_app /=; lia|by apply stops_paren|].
  exists (LIST tl tr). split; [|by rw /= Htl Htr]. cbn [parseline].
  assert (parsepipe (S (S (S k))) (paren l (59 :: paren r post)) = Ok (tl, 59 :: paren r post)) as Epl.
  { apply parsepipe_end; [done|]. apply stops_cons. set_solver. }
  mgo Epl. cbn [parsebacks]. rw bind_assoc.
  mgo (peek_stops [38] [59] (59 :: paren r post) ltac:(rw /symbols; set_solver) ltac:(set_solver) ltac:(apply stops_cons; set_solver)).
  mget. mgo (peek_symbol [59] 59 (paren r post) ltac:(rw /symbols; set_solver) ltac:(set_solver)).
  mgo (gettoken_symbol 59 (paren r post) ltac:(set_solver)).
  assert (parseline (S (S (S k))) (paren r post) = Ok (tr, post)) as Ep.
  { apply parseline_end; [|done|lia]. apply parsepipe_end; [done|]. apply (stops_mono [41]); [set_solver|done]. }
  rw (stops_ws (paren r post)); [apply stops_cons; rw /symbols; set_solver|]. by mgo Ep.
Qed.

Lemma parses_back c : parses c → parses (SBack c).
Proof.
  intros Hc k post Hp Hk. cbn [print] in Hk |- *. rw /= -app_assoc /= in Hk |- *.
  do 3 (destruct k as [|k]; [lia|]). rw !length_app /= in Hk.
  destruct (parse_block_plain c (S k) (38 :: post) Hc) as (t & E & Ht); [rw /= !length_app /=; lia| |].
  { apply stops_cons. rw /ends. set_solver. }
  exists (BACK t). split; [|by rw /= Ht]. cbn [parseline].
  assert (parsepipe (S (S k)) (paren c (38 :: post)) = Ok (t, 38 :: post)) as Epl.
  { apply parsepipe_end; [done|]. apply stops_cons. set_solver. }
  mgo Epl. cbn [parsebacks]. rw bind_assoc.
  mgo (peek_symbol [38] 38 post ltac:(rw /symbols; set_solver) ltac:(set_solver)).
  rw bind_assoc. mgo (gettoken_symbol 38 post ltac:(set_solver)).
  assert ([41] ⊆ symbols) as Hs by (rw /symbols; set_solver).
  rw (stops_ws post (stops_mono _ _ _ Hs Hp)). rw bind_assoc.
  mgo (peek_stops [38] [41] post Hs ltac:(set_solver) Hp). mget. by mgo (peek_stops [59] [41] post Hs ltac:(set_solver) Hp).
Qed.

Lemma parses_all c : printable c → parses c.
Proof.
  induction c as [argv|c IH f mode fd|l IHl r IHr|l IHl r IHr|c IH]; intros Hc.
  - by apply parses_exec.
  - apply parses_redir; [|done]. by apply IH, Hc.
  - destruct Hc. apply parses_pipe; auto.
  - destruct Hc. apply parses_list; auto.
  - by apply parses_back, IH.
Qed.

(** C31. Every command has a command line that the parser reads back as that command: the
    same nesting of pipes, lists, background commands and redirections, with the same
    arguments and file names. *)
Theorem parse_print c :
  printable c → ∃ t buf, parsecmd (print c) = Ok (t, buf) ∧ strings t = c.
Proof.
  intros Hc. destruct (parses_all c Hc (parse_fuel (print c)) []) as (t & E & Ht); [by left|rw app_nil_r /parse_fuel; lia|].
  rw app_nil_r in E. rw /parsecmd. mgo E. exists t. eexists. split; [by mrun|done].
Qed.
Lemma parse_print_witness :
  let c := SPipe (SExec [[108; 115]; [45; 108]]) (SBack (SRedir (SExec [[119; 99]]) [102] sh_CREATE 1)) in
  ∃ t buf, parsecmd (print c) = Ok (t, buf) ∧ strings t = c.
Proof.
  apply parse_print. repeat split; try done; try lia; repeat constructor; try done; try lia;
    rw /whitespace /symbols /word; set_solver.
Defined.
