(* ===== verification/ShRun.v ===== *)
(** * Running commands (sh.c)

    [runcmd] as the descriptors of the processes it makes: what each program the shell
    runs has for its files.  A process forked by the shell works on its own copy of the
    descriptor table and never returns into its parent, so the model runs the child to its
    end and then goes on with the parent's table; [wait] changes nothing here. *)

From S2P Require Import Prelude Params Sh.

(** What a descriptor is open on. *)
Inductive target := TConsole | TFile (name : list Z) (mode : Z) | TPipeR (id : nat) | TPipeW (id : nat).
Abbreviation fdtable := (list (option target)).

(** The process's descriptors, the number of pipes made, of forks that will still succeed,
    and the programs started: their arguments and descriptors. *)
Record shstate := mkSh {
  w_fds : fdtable;
  w_npipe : nat;
  w_forks : nat;
  w_run : list (list (list Z) * fdtable);
}.
Definition set_fds (x : fdtable) (w : shstate) : shstate := mkSh x (w_npipe w) (w_forks w) (w_run w).

Section run.
(** Which files [open] can open, with a descriptor free. *)
Context (can_open : list Z → Z → bool).

(** ** System calls, as the kernel's file descriptors see them *)

Fixpoint lowest (l : fdtable) (i : nat) : option nat :=
  match l with
  | [] => None
  | None :: _ => Some i
  | Some _ :: l => lowest l (S i)
  end.
Definition fd_open (t : target) : M shstate Z :=
  o ← gets (λ w, lowest (w_fds w) 0);
  match o with
  | None => mret (-1)
  | Some fd => modify (λ w, set_fds (<[fd := Some t]> (w_fds w)) w) ;; mret (Z.of_nat fd)
  end.
Definition do_close (fd : Z) : M shstate unit := modify (λ w, set_fds (<[Z.to_nat fd := None]> (w_fds w)) w).
Definition do_open (file : list Z) (mode : Z) : M shstate Z :=
  if can_open file mode then fd_open (TFile file mode) else mret (-1).
Definition do_dup (fd : Z) : M shstate Z :=
  o ← gets (λ w, mjoin (w_fds w !! Z.to_nat fd));
  match o with
  | None => mret (-1)
  | Some t => fd_open t
  end.
(** The two descriptors, or [None] when the call fails. *)
Definition do_pipe : M shstate (option (Z * Z)) :=
  n ← gets w_npipe;
  fds ← gets w_fds;
  r ← fd_open (TPipeR n);
  if r <? 0 then mret None else
  w ← fd_open (TPipeW n);
  if w <? 0 then modify (set_fds fds) ;; mret None else
  modify (λ s, mkSh (w_fds s) (S n) (w_forks s) (w_run s)) ;;
  mret (Some (r, w)).

(** [if(fork1() == 0) child;] *)
Definition fork1 (child : M shstate unit) : M shstate unit :=
  n ← gets w_forks;
  match n with
  | O => panic "fork"
  | S n =>
      fds ← gets w_fds;
      modify (λ w, mkSh (w_fds w) (w_npipe w) n (w_run w)) ;;
      child ;;
      modify (set_fds fds)
  end.

(** ** runcmd *)

Definition exec_record (argv : list (list Z)) : M shstate unit :=
  modify (λ w, mkSh (w_fds w) (w_npipe w) (w_forks w) (w_run w ++ [(argv, w_fds w)])).

Fixpoint runcmd (c : scmd) : M shstate unit :=
  match c with
  | SExec argv =>
      match argv with
      | [] => mret tt
      | _ => exec_record argv
      end
  | SRedir c file mode fd =>
      do_close fd ;;
      r ← do_open file mode;
      if r <? 0 then mret tt else runcmd c
  | SList l r => fork1 (runcmd l) ;; runcmd r
  | SPipe l r =>
      p ← do_pipe;
      match p with
      | None => panic "pipe"
      | Some (p0, p1) =>
          fork1 (do_close 1 ;; do_dup p1 ;; do_close p0 ;; do_close p1 ;; runcmd l) ;;
          fork1 (do_close 0 ;; do_dup p0 ;; do_close p0 ;; do_close p1 ;; runcmd r) ;;
          do_close p0 ;;
          do_close p1
      end
  | SBack c => fork1 (runcmd c)
  end.

(** ** The loop of main *)

(** What the shell does with a line: change its directory, or fork a child that runs the
    command; a line that does not parse stops only the child. *)
Inductive shaction := ChDir (path : list Z) | Run (line : list Z).
Definition shell_action (buf : list Z) : shaction :=
  if bool_decide (take 3 buf = [99; 100; 32]) then ChDir (drop 3 (take (length buf - 1) buf)) else Run buf.
Definition shell_line (chdir : list Z → M shstate unit) (buf : list Z) : M shstate unit :=
  match shell_action buf with
  | ChDir path => chdir path
  | Run buf =>
      fork1 (match parsecmd buf with
             | Ok (c, _) => runcmd (strings c)
             | _ => mret tt
             end)
  end.
End run.

(** ** Pipelines *)

(** [a0 | a1 | ... | am] as the parser builds it. *)
Fixpoint pipeline (a : list (list Z)) (rest : list (list (list Z))) : scmd :=
  match rest with
  | [] => SExec a
  | b :: rest => SPipe (SExec a) (pipeline b rest)
  end.
(** The descriptor tables of its programs: each standard output is the pipe that the next
    program's standard input is. *)
Fixpoint wired (n : nat) (i o e : target) (rest : fdtable) (a : list (list Z)) (bs : list (list (list Z))) :
    list (list (list Z) * fdtable) :=
  match bs with
  | [] => [(a, Some i :: Some o :: Some e :: rest)]
  | b :: bs => (a, Some i :: Some (TPipeW n) :: Some e :: rest) :: wired (S n) (TPipeR n) o e rest b bs
  end.

Section pipelines.
Context (can_open : list Z → Z → bool).

Lemma pipeline_run bs : ∀ a i o e rest n f run,
  a ≠ [] → Forall (λ b, b ≠ []) bs → (2 * length bs ≤ f)%nat →
  ∃ fds, runcmd can_open (pipeline a bs) (mkSh (Some i :: Some o :: Some e :: None :: None :: rest) n f run) =
    Ok (tt, mkSh fds (n + length bs) (f - 2 * length bs) (run ++ wired n i o e (None :: None :: rest) a bs)).
Proof.
  induction bs as [|b bs IH]; intros a i o e rest n f run Ha Hbs Hf.
  - cbn. destruct a; [done|]. eexists. rw Nat.add_0_r Nat.sub_0_r. done.
  - apply Forall_cons in Hbs as [Hb Hbs]. do 2 (destruct f as [|f]; [simpl in Hf; lia|]).
    destruct (IH b (TPipeR n) o e rest (S n) f (run ++ [(a, Some i :: Some (TPipeW n) :: Some e :: None :: None :: rest)]) Hb Hbs)
      as (fds & E); [simpl in Hf; lia|].
    destruct a as [|w a]; [done|]. cbn [pipeline runcmd wired length]. rw -app_assoc in E. simpl in E.
    replace (n + S (length bs))%nat with (S (n + length bs)) by lia.
    replace (S (S f) - 2 * S (length bs))%nat with (f - 2 * length bs)%nat by lia.
    set (fds3 := Some i :: Some o :: Some e :: Some (TPipeR n) :: Some (TPipeW n) :: rest).
    set (run1 := run ++ [(w :: a, Some i :: Some (TPipeW n) :: Some e :: None :: None :: rest)]) in E.
    set (run2 := run ++ _) in E.
    assert (do_pipe (mkSh (Some i :: Some o :: Some e :: None :: None :: rest) n (S (S f)) run) =
      Ok (Some (3, 4), mkSh fds3 (S n) (S (S f)) run)) as E0 by done.
    assert (fork1 (do_close 1 ;; do_dup 4 ;; do_close 3 ;; do_close 4 ;; exec_record (w :: a)) (mkSh fds3 (S n) (S (S f)) run) =
      Ok (tt, mkSh fds3 (S n) (S f) run1)) as E1 by done.
    assert (fork1 (do_close 0 ;; do_dup 3 ;; do_close 3 ;; do_close 4 ;; runcmd can_open (pipeline b bs)) (mkSh fds3 (S n) (S f) run1) =
      Ok (tt, mkSh fds3 (S (n + length bs)) (f - 2 * length bs) run2)) as E2.
    { transitivity ((runcmd can_open (pipeline b bs) ;; modify (set_fds fds3))
        (mkSh (Some (TPipeR n) :: Some o :: Some e :: None :: None :: rest) (S n) f run1)); [done|]. by mgo E. }
    eexists. mgo E0. mgo E1. mgo E2. reflexivity.
Qed.

End pipelines.

