(* ===== verification/Grep.v ===== *)
(** * grep (grep.c)

    The regular expression matcher and the loop that cuts the input into lines.  A
    [char*] is the rest of its string, without the final NUL. *)

From S2P Require Import Prelude.

Definition STAR : Z := 42.
Definition DOLLAR : Z := 36.
Definition DOT : Z := 46.
Definition CARET : Z := 94.
Definition NL : Z := 10.

(** ** The matcher *)

Section star.
Context (matchhere : list Z → bool) (c : Z).
(** [matchstar(c, re, text)], with [matchhere] that of [re] *)
Fixpoint matchstar (text : list Z) : bool :=
  if matchhere text then true else
  match text with
  | [] => false
  | x :: text => if (x =? c) || (c =? DOT) then matchstar text else false
  end.
End star.

Fixpoint matchhere (re text : list Z) : bool :=
  match re with
  | [] => true
  | c :: re' =>
      match re' with
      | s :: re2 =>
          if s =? STAR then matchstar (matchhere re2) c text else
          match text with
          | [] => false
          | x :: text => if (c =? DOT) || (c =? x) then matchhere re' text else false
          end
      | [] =>
          if c =? DOLLAR then bool_decide (text = []) else
          match text with
          | [] => false
          | x :: text => if (c =? DOT) || (c =? x) then matchhere re' text else false
          end
      end
  end.

(** The loop of [match], down to the empty text. *)
Fixpoint match_from (re text : list Z) : bool :=
  if matchhere re text then true else
  match text with
  | [] => false
  | _ :: text => match_from re text
  end.
Definition match_ (re text : list Z) : bool :=
  match re with
  | c :: re' => if c =? CARET then matchhere re' text else match_from re text
  | [] => match_from re text
  end.

(** ** What a pattern means *)

(** A pattern is a sequence of characters, repeated characters and an end mark. *)
Inductive item := One (c : Z) | Many (c : Z) | End.
Fixpoint items (re : list Z) : list item :=
  match re with
  | [] => []
  | c :: re' =>
      match re' with
      | s :: re2 => if s =? STAR then Many c :: items re2 else One c :: items re'
      | [] => if c =? DOLLAR then [End] else [One c]
      end
  end.
(** A text that begins with something the items describe. *)
Definition agrees (c x : Z) : Prop := c = DOT ∨ c = x.
Fixpoint begins (l : list item) (text : list Z) : Prop :=
  match l with
  | [] => True
  | One c :: l => ∃ x text', text = x :: text' ∧ agrees c x ∧ begins l text'
  | Many c :: l => ∃ pre post, text = pre ++ post ∧ Forall (agrees c) pre ∧ begins l post
  | End :: l => text = [] ∧ begins l text
  end.

Lemma agrees_bool c x : (c =? DOT) || (c =? x) = true ↔ agrees c x.
Proof. rw orb_true_iff !Z.eqb_eq. done. Qed.

Lemma matchstar_spec mh c text :
  matchstar mh c text = true ↔ ∃ pre post, text = pre ++ post ∧ Forall (agrees c) pre ∧ mh post = true.
Proof.
  induction text as [|x text IH]; cbn [matchstar].
  - destruct (mh []) eqn:E; split; try done.
    + intros _. by exists [], [].
    + intros (pre & post & Ht & _ & Hm). symmetry in Ht. apply app_nil in Ht as [_ ->]. congruence.
  - destruct (mh (x :: text)) eqn:E.
    { split; [|done]. intros _. by exists [], (x :: text). }
    rw orb_comm. assert ((c =? DOT) || (x =? c) = (c =? DOT) || (c =? x)) as -> by by rw (Z.eqb_sym x c).
    destruct ((c =? DOT) || (c =? x)) eqn:Ec.
    + rw IH. apply agrees_bool in Ec. split.
      * intros (pre & post & -> & Hp & Hm). exists (x :: pre), post. split; [done|]. split; [by constructor|done].
      * intros ([|y pre] & post & Ht & Hp & Hm); simpl in Ht; [by subst; congruence|]. injection Ht as <- ->.
        exists pre, post. split; [done|]. split; [by apply Forall_cons in Hp as [_ ?]|done].
    + split; [done|]. intros ([|y pre] & post & Ht & Hp & Hm); simpl in Ht; [by subst; congruence|]. injection Ht as <- ->.
      apply Forall_cons in Hp as [Hx _]. apply agrees_bool in Hx. congruence.
Qed.

Lemma one_spec c re x text (IH : matchhere re text = true ↔ begins (items re) text) :
  (if (c =? DOT) || (c =? x) then matchhere re text else false) = true ↔
  ∃ y text', x :: text = y :: text' ∧ agrees c y ∧ begins (items re) text'.
Proof.
  destruct ((c =? DOT) || (c =? x)) eqn:Ec.
  - apply agrees_bool in Ec. rw IH. split; [by intros H; exists x, text|]. by intros (y & t & [= -> ->] & _ & H).
  - split; [done|]. intros (y & t & [= <- <-] & H & _). apply agrees_bool in H. congruence.
Qed.

Lemma matchhere_items n : ∀ re text, (length re ≤ n)%nat → matchhere re text = true ↔ begins (items re) text.
Proof.
  induction n as [|n IH]; intros re text Hn; (destruct re as [|c re']; [done|]); [simpl in Hn; lia|].
  cbn [matchhere items]. destruct re' as [|s re2].
  - destruct (Z.eqb_spec c DOLLAR) as [->|Hc]; [by rw bool_decide_eq_true /=; split; [|intros []]|].
    destruct text as [|x text]; [by split; [|intros (? & ? & ? & _)]|]. by apply one_spec.
  - destruct (s =? STAR) eqn:Es.
    + rw matchstar_spec. cbn [begins]. split; intros (pre & post & Ht & Hp & Hm); exists pre, post; (split; [done|split; [done|]]);
        apply (IH re2 post); simpl in Hn; try lia; done.
    + destruct text as [|x text]; [by split; [|intros (? & ? & ? & _)]|]. apply one_spec. apply IH. simpl in Hn |- *. lia.
Qed.

Lemma match_from_spec re text :
  match_from re text = true ↔ ∃ pre post, text = pre ++ post ∧ begins (items re) post.
Proof.
  assert (∀ t, matchhere re t = true ↔ begins (items re) t) as Hm by (intros t; by apply (matchhere_items (length re))).
  induction text as [|x text IH]; cbn [match_from].
  - destruct (matchhere re []) eqn:E; split; try done.
    + intros _. exists [], []. split; [done|]. by apply Hm.
    + intros (pre & post & Ht & H). symmetry in Ht. apply app_nil in Ht as [_ ->]. apply Hm in H. congruence.
  - destruct (matchhere re (x :: text)) eqn:E.
    { split; [|done]. intros _. exists [], (x :: text). split; [done|]. by apply Hm. }
    rw IH. split.
    + intros (pre & post & -> & H). by exists (x :: pre), post.
    + intros ([|y pre] & post & Ht & H); simpl in Ht; [subst; apply Hm in H; congruence|]. injection Ht as <- ->. by exists pre, post.
Qed.

(** C40. The matcher decides what a pattern means: a line matches when some part of it,
    the beginning for a pattern that starts with [^], begins with a text the pattern
    describes, where [.] stands for any character, [c*] for any number of [c] and a final
    [$] for the end of the line.  The recursion ends on every pattern and line. *)
Theorem match_correct re text :
  match_ re text = true ↔
  match re with
  | c :: re' => if c =? CARET then begins (items re') text
                else ∃ pre post, text = pre ++ post ∧ begins (items re) post
  | [] => True
  end.
Proof.
  destruct re as [|c re']; cbn [match_].
  - split; [done|]. intros _. apply match_from_spec. by exists [], text.
  - destruct (c =? CARET); [by apply (matchhere_items (length re'))|]. apply match_from_spec.
Qed.

(** ** The loop over the input *)

(** [strchr(p, '\n')]: the line and what follows it, unless a NUL comes first. *)
Fixpoint split_line (p : list Z) : option (list Z * list Z) :=
  match p with
  | [] => None
  | c :: p =>
      if c =? 0 then None else
      if c =? NL then Some ([], p) else
      match split_line p with
      | None => None
      | Some (l, r) => Some (c :: l, r)
      end
  end.
(** [while((q = strchr(p, '\n')) != 0)]: the output, and the rest of the buffer; each
    round takes at least a character. *)
Fixpoint grep_lines (k : nat) (re p : list Z) : list Z * list Z :=
  match k with
  | O => ([], p)
  | S k =>
      match split_line p with
      | None => ([], p)
      | Some (l, r) =>
          let '(out, rest) := grep_lines k re r in
          ((if match_ re l then l ++ [NL] else []) ++ out, rest)
      end
  end.
(** One round of the outer loop, with [m] the bytes kept from the last one: the output
    and the bytes kept. *)
Definition grep_round (re m chunk : list Z) : list Z * list Z :=
  let buf := m ++ chunk in
  let '(out, rest) := grep_lines (length buf) re buf in
  (out, if bool_decide (length rest = length buf) then [] else rest).
(** The whole input, as the chunks that [read] returns. *)
Fixpoint grep (re m : list Z) (chunks : list (list Z)) : list Z :=
  match chunks with
  | [] => []
  | [] :: _ => []
  | chunk :: chunks => let '(out, m) := grep_round re m chunk in out ++ grep re m chunks
  end.

(** ** What the loop writes *)

(** The lines of a text, without their newlines, and the characters after the last one. *)
Fixpoint cut (s : list Z) : list (list Z) * list Z :=
  match s with
  | [] => ([], [])
  | c :: s =>
      let '(ls, r) := cut s in
      if c =? NL then ([] :: ls, r) else
      match ls with
      | [] => ([], c :: r)
      | l :: ls => ((c :: l) :: ls, r)
      end
  end.
Definition select (re : list Z) (ls : list (list Z)) : list Z := ls ≫= (λ l, if match_ re l then l ++ [NL] else []).

Lemma cut_app a b : cut (a ++ b) = ((cut a).1 ++ (cut ((cut a).2 ++ b)).1, (cut ((cut a).2 ++ b)).2).
Proof.
  induction a as [|c a IH]; [simpl; by destruct (cut b)|]. cbn [app cut]. rw IH. destruct (cut a) as [ls r]. cbn [fst snd].
  destruct (c =? NL) eqn:Ec; [done|]. destruct ls as [|l ls]; [|done]. cbn [app fst snd]. cbn [cut]. rw Ec.
  destruct (cut (r ++ b)) as [lb rb]. cbn [fst snd]. by destruct lb.
Qed.
Lemma cut_rest_length s : (length (cut s).2 ≤ length s)%nat ∧ (length (cut s).2 = length s → (cut s).1 = []).
Proof.
  induction s as [|c s IH]; [done|]. cbn [cut]. destruct (cut s) as [ls r]. cbn [fst snd] in IH. destruct IH as [H1 H2].
  destruct (c =? NL); [simpl; split; lia|]. destruct ls as [|l ls]; simpl; (split; [lia|]); [done|lia].
Qed.
Lemma cut_none s : (cut s).1 = [] → (cut s).2 = s ∧ (NL ∉ s).
Proof.
  induction s as [|c s IH]; [split; [done|set_solver]|]. cbn [cut]. destruct (cut s) as [ls r]. cbn [fst snd] in IH.
  destruct (Z.eqb_spec c NL) as [E|E]; [done|]. destruct ls; [|done]. intros _. destruct IH as [-> H]; [done|]. split; [done|set_solver].
Qed.
Lemma cut_line l r : (NL ∉ l) → cut (l ++ NL :: r) = (l :: (cut r).1, (cut r).2).
Proof.
  intros Hl. induction l as [|c l IH]; [cbn [app cut]; by destruct (cut r)|]. cbn [app cut]. rw IH; [set_solver|].
  rewrite -> (proj2 (Z.eqb_neq _ _)) by set_solver. done.
Qed.

Lemma split_line_spec p : 0 ∉ p →
  match split_line p with
  | None => NL ∉ p
  | Some (l, r) => p = l ++ NL :: r ∧ NL ∉ l
  end.
Proof.
  induction p as [|c p IH]; intros H0; cbn [split_line]; [set_solver|].
  destruct (Z.eqb_spec c 0); [set_solver|]. destruct (Z.eqb_spec c NL) as [->|Hc]; [split; [done|set_solver]|].
  destruct (split_line p) as [[l r]|]; [|set_solver]. destruct IH as [-> Hl]; [set_solver|]. split; [done|set_solver].
Qed.
Lemma cut_no_line p : (NL ∉ p) → cut p = ([], p).
Proof.
  induction p as [|c p IH]; intros H; [done|]. cbn [cut]. rw IH; [set_solver|]. rewrite -> (proj2 (Z.eqb_neq _ _)) by set_solver. done.
Qed.
Lemma grep_lines_cut k re : ∀ p, (0 ∉ p) → (length p ≤ k)%nat → grep_lines k re p = (select re (cut p).1, (cut p).2).
Proof.
  induction k as [|k IH]; intros p H0 Hk; [by destruct p; [|simpl in Hk; lia]|]. cbn [grep_lines].
  pose proof (split_line_spec p H0) as Hs. destruct (split_line p) as [[l r]|]; [|by rw cut_no_line].
  destruct Hs as [-> Hl]. rw cut_line // IH; [set_solver|rw length_app /= in Hk; lia|]. done.
Qed.

Lemma grep_round_cut re m chunk :
  (0 ∉ m ++ chunk) → (NL ∈ m ++ chunk) → grep_round re m chunk = (select re (cut (m ++ chunk)).1, (cut (m ++ chunk)).2).
Proof.
  intros H0 HN. rw /grep_round grep_lines_cut //. rewrite -> bool_decide_false; [done|]. intros E.
  destruct (cut_rest_length (m ++ chunk)) as [_ H]. by destruct (cut_none (m ++ chunk) (H E)).
Qed.
Lemma cut_rest_no_line s : NL ∉ (cut s).2.
Proof.
  induction s as [|c s IH]; cbn [cut]; [set_solver|]. destruct (cut s) as [ls r]. cbn [snd] in IH.
  destruct (Z.eqb_spec c NL); [done|]. destruct ls; [|done]. set_solver.
Qed.
Lemma cut_rest_sub s : (cut s).2 ⊆ s.
Proof.
  induction s as [|c s IH]; cbn [cut]; [done|]. destruct (cut s) as [ls r]. cbn [snd] in IH.
  destruct (c =? NL); [set_solver|]. destruct ls; set_solver.
Qed.
Lemma grep_cut re chunks : ∀ m,
  (0 ∉ m ++ mjoin chunks) → (NL ∉ m) → Forall (λ c, NL ∈ c) chunks → grep re m chunks = select re (cut (m ++ mjoin chunks)).1.
Proof.
  induction chunks as [|c chunks IH]; intros m H0 Hm Hc; cbn [grep mjoin list_join].
  - by rw app_nil_r cut_no_line.
  - apply Forall_cons in Hc as [Hc Hcs]. destruct c as [|x c]; [set_solver|]. cbn [mjoin list_join] in H0.
    rw grep_round_cut; [set_solver|set_solver|]. pose proof (cut_rest_sub (m ++ x :: c)).
    rw IH; [set_solver|apply cut_rest_no_line|done|].
    by rw (app_assoc m) (cut_app (m ++ x :: c)) /select bind_app.
Qed.

(** On an input that [read] delivers in pieces with a newline in each, as a file of
    ordinary lines is, grep writes exactly the lines that match the pattern, each once and
    in order, wherever the pieces are cut. *)
Theorem grep_writes_matching_lines re chunks :
  (0 ∉ mjoin chunks) → Forall (λ c, NL ∈ c) chunks →
  grep re [] chunks = (cut (mjoin chunks)).1 ≫= (λ l, if match_ re l then l ++ [NL] else []).
Proof. intros H0 Hc. rw (grep_cut re chunks []) //. set_solver. Qed.
Lemma grep_writes_matching_lines_witness :
  grep [97; 42; 98; 36] [] [[97; 98; 10; 97]; [97; 98; 10; 99; 10]] = [97; 98; 10; 97; 97; 98; 10].
Proof.
  rw (grep_writes_matching_lines [97; 42; 98; 36]); [set_solver|repeat constructor; set_solver|]. by vm_compute.
Defined.

(** A line that arrives in two pieces, the first of them without any newline, loses its
    beginning: the pattern [abc] is not found in the line "abc". *)
Theorem grep_drops_partial_line :
  match_ [97; 98; 99] [97; 98; 99] = true ∧ grep [97; 98; 99] [] [[97; 98; 99; 10]] = [97; 98; 99; 10] ∧
  grep [97; 98; 99] [] [[97; 98]; [99; 10]] = [].
Proof. by vm_compute. Qed.
