(* ===== verification/Ulib.v ===== *)
(** * The user library (ulib.c, printf.c)

    Strings are lists of bytes without their NUL; a routine that can be given a list with
    a zero inside stops there, as the C does.  What a program prints is the list of bytes
    its calls of [putc] write. *)

From S2P Require Import Prelude Params Proc.

(** The bytes of a string literal. *)
Definition lit (s : string) : list Z := (λ a, Z.of_N (Ascii.N_of_ascii a)) <$> String.list_ascii_of_string s.

(** ** Strings *)

Fixpoint strcmp (p q : list Z) : Z :=
  match p, q with
  | [], [] => 0
  | [], d :: _ => 0 - d
  | c :: _, [] => c
  | c :: p, d :: q => if negb (c =? 0) && (c =? d) then strcmp p q else c - d
  end.
Fixpoint strlen (s : list Z) : Z :=
  match s with
  | [] => 0
  | c :: s => if c =? 0 then 0 else 1 + strlen s
  end.
(** The rest of the string from the character on. *)
Fixpoint strchr (s : list Z) (c : Z) : option (list Z) :=
  match s with
  | [] => None
  | d :: s' => if d =? 0 then None else if d =? c then Some s else strchr s' c
  end.

(** The digits 48 to 57; the sum is an [int] and wraps. *)
Fixpoint atoi_loop (s : list Z) (n : Z) : Z :=
  match s with
  | [] => n
  | c :: s => if (48 <=? c) && (c <=? 57) then atoi_loop s (s32 (n * 10 + c - 48)) else n
  end.
Definition atoi (s : list Z) : Z := atoi_loop s 0.

(** [gets]: a list of what each [read] of one byte returns, [None] for its end. *)
Fixpoint gets_loop (k : nat) (input : list (option Z)) : list Z * list (option Z) :=
  match k, input with
  | S k, Some c :: input =>
      if (c =? 10) || (c =? 13) then ([c], input)
      else let '(l, input) := gets_loop k input in (c :: l, input)
  | S _, None :: input => ([], input)
  | _, _ => ([], input)
  end.
Definition gets_ (max : Z) (input : list (option Z)) : list Z * list (option Z) :=
  gets_loop (Z.to_nat (max - 1)) input.

(** ** printf *)

Definition upper_digits : list Z := lit "0123456789ABCDEF".

(** The digits, last one first: [do buf[i++] = digits[x % base]; while((x /= base) != 0)].
    A 32-bit number has at most 32 digits. *)
Fixpoint digit_loop (digits : list Z) (k : nat) (base x : Z) : list Z :=
  match k with
  | O => []
  | S k =>
      digits !!! Z.to_nat (x mod base) ::
      (if x / base =? 0 then [] else digit_loop digits k base (x / base))
  end.
Definition printint (xx base : Z) (sgn : bool) : list Z :=
  let neg := sgn && (s32 xx <? 0) in
  let x := if neg then u32 (- s32 xx) else u32 xx in
  rev (digit_loop upper_digits 32 base x ++ (if neg then [45] else [])).

Section printf.
(** The words of the call's arguments, and the C string at an address. *)
Context (ap : nat → Z) (str : Z → list Z).

(** [i] counts the arguments taken, [pct] is [state == '%']. *)
Fixpoint printf_loop (fmt : list Z) (pct : bool) (i : nat) : list Z :=
  match fmt with
  | [] => []
  | c :: fmt =>
      if negb pct then
        if c =? 37 then printf_loop fmt true i
        else c :: printf_loop fmt false i
      else if c =? 100 then printint (ap i) 10 true ++ printf_loop fmt false (S i)
      else if (c =? 120) || (c =? 112) then printint (ap i) 16 false ++ printf_loop fmt false (S i)
      else if c =? 115 then
        (if ap i =? 0 then lit "(null)" else str (ap i)) ++ printf_loop fmt false (S i)
      else if c =? 99 then u8 (ap i) :: printf_loop fmt false (S i)
      else if c =? 37 then c :: printf_loop fmt false i
      else 37 :: c :: printf_loop fmt false i
  end.
Definition printf (fmt : list Z) : list Z := printf_loop fmt false 0.
End printf.

(** ** ps *)

(** A C string in a field of bytes: up to its NUL. *)
Fixpoint cstr (l : list Z) : list Z :=
  match l with
  | [] => []
  | c :: l => if c =? 0 then [] else c :: cstr l
  end.
Definition ps_row (r : pstat_t) : list Z :=
  printf (λ i, [st_pid r; st_tickets r; st_ticks r; st_state r; 1] !!! i) (λ _, cstr (st_name r))
    (lit "%d" ++ [9] ++ lit "%d" ++ [9] ++ lit "%d" ++ [9] ++ lit "%c" ++ [9] ++ lit "%s" ++ [10]).
(** [while(pstat[i].pid != 0)]; a table whose rows all have a pid is read past its end. *)
Fixpoint ps_rows (t : list pstat_t) : option (list Z) :=
  match t with
  | [] => None
  | r :: t => if st_pid r =? 0 then Some [] else (λ out, ps_row r ++ out) <$> ps_rows t
  end.
Definition ps (t : list pstat_t) : option (list Z) :=
  (λ out, lit "PID" ++ [9] ++ lit "TKTS" ++ [9] ++ lit "TCKS" ++ [9] ++ lit "STAT" ++ [9] ++ lit "NAME" ++ [10] ++ out) <$> ps_rows t.

(** ** Numerals *)

Definition is_digit (c : Z) : Prop := 48 ≤ c ≤ 57.

Lemma upper_digit d : 0 ≤ d < 10 → upper_digits !!! Z.to_nat d = 48 + d.
Proof.
  intros Hd. assert (Forall (λ d, upper_digits !!! Z.to_nat d = 48 + d) (seqZ 0 10)) as H by by repeat constructor.
  rw Forall_forall in H. apply H, elem_of_seqZ. lia.
Qed.

Lemma atoi_loop_app l1 l2 n : Forall is_digit l1 → atoi_loop (l1 ++ l2) n = atoi_loop l2 (atoi_loop l1 n).
Proof.
  intros H. revert n. induction H as [|c l Hc _ IH]; intros n; [done|]. simpl. rw /is_digit in Hc.
  rewrite -> (proj2 (andb_true_iff _ _)) by lia. apply IH.
Qed.

Lemma digit_loop_digits k : ∀ x, 0 ≤ x → Forall is_digit (digit_loop upper_digits k 10 x).
Proof.
  induction k as [|k IH]; intros x Hx; [constructor|]. cbn [digit_loop]. constructor.
  - rw upper_digit; [by apply Z.mod_pos_bound|]. rw /is_digit. pose proof (Z.mod_pos_bound x 10). lia.
  - destruct (x / 10 =? 0); [constructor|]. apply IH, Z.div_pos; lia.
Qed.

(** Reading a numeral gives the number back, modulo the width of an [int]. *)
Lemma atoi_digit_loop k : ∀ x, 0 ≤ x < 10 ^ Z.of_nat k → (0 < k)%nat → atoi (rev (digit_loop upper_digits k 10 x)) = s32 x.
Proof.
  induction k as [|k IH]; intros x Hx Hk; [lia|]. cbn [digit_loop rev]. rw /atoi.
  pose proof (Z.mod_pos_bound x 10 ltac:(lia)) as Hm. pose proof (Z.div_mod x 10 ltac:(lia)) as Hdm.
  rw upper_digit // atoi_loop_app.
  { apply Forall_rev. destruct (x / 10 =? 0); [constructor|]. apply digit_loop_digits, Z.div_pos; lia. }
  assert (atoi_loop (rev (if x / 10 =? 0 then [] else digit_loop upper_digits k 10 (x / 10))) 0 = s32 (x / 10)) as ->.
  { destruct (Z.eqb_spec (x / 10) 0) as [->|Hne]; [done|]. rw Nat2Z.inj_succ Z.pow_succ_r in Hx; [lia|].
    apply IH; [split; [apply Z.div_pos; lia|apply Z.div_lt_upper_bound; lia]|].
    destruct k; [|lia]. simpl in Hx. lia. }
  cbn [atoi_loop]. rewrite -> (proj2 (andb_true_iff _ _)) by lia.
  replace x with (10 * (x / 10) + x mod 10) at 3 by lia. generalize (x / 10) (x mod 10). intros a b. clear. rw /s32. dlia.
Qed.

Lemma digit_loop_length k : ∀ j x, 0 ≤ x < 10 ^ Z.of_nat (S j) → (length (digit_loop upper_digits k 10 x) ≤ S j)%nat.
Proof.
  induction k as [|k IH]; intros j x Hx; simpl; [lia|]. destruct (Z.eqb_spec (x / 10) 0); simpl; [lia|].
  rw Nat2Z.inj_succ Z.pow_succ_r in Hx; [lia|]. destruct j as [|j].
  { simpl in Hx. exfalso. dlia. }
  apply le_n_S, IH. split; [apply Z.div_pos; lia|apply Z.div_lt_upper_bound; lia].
Qed.

(** The first digit is 0 only for the number 0. *)
Lemma digit_loop_leading k : ∀ x, 0 ≤ x < 10 ^ Z.of_nat k → (0 < k)%nat →
  ∃ c l, rev (digit_loop upper_digits k 10 x) = c :: l ∧ (c = 48 → x = 0).
Proof.
  induction k as [|k IH]; intros x Hx Hk; [lia|]. cbn [digit_loop rev].
  pose proof (Z.mod_pos_bound x 10 ltac:(lia)) as Hm. pose proof (Z.div_mod x 10 ltac:(lia)) as Hdm.
  destruct (Z.eqb_spec (x / 10) 0) as [H0|H0].
  { exists (48 + x mod 10), []. split; [by rw upper_digit|]. lia. }
  rw Nat2Z.inj_succ Z.pow_succ_r in Hx; [lia|].
  destruct (IH (x / 10)) as (c & l & -> & Hc); [split; [apply Z.div_pos; lia|apply Z.div_lt_upper_bound; lia]| |].
  { destruct k; [|lia]. simpl in Hx. lia. }
  eexists c, _. split; [reflexivity|]. intros H. apply Hc in H. lia.
Qed.

(** [printf]'s decimal numbers: an [int] is printed as at most 11 characters, within
    the 16 of the buffer, a minus sign when it is negative and then digits without a
    leading zero, and [atoi] reads the digits back as the number's magnitude, the smallest
    [int] included. *)
Theorem printint_atoi n :
  -2147483648 ≤ n < 2147483648 →
  ∃ ds, printint n 10 true = (if n <? 0 then [45] else []) ++ ds ∧ (length (printint n 10 true) ≤ 11)%nat ∧
    Forall is_digit ds ∧ (ds !! 0%nat = Some 48 → n = 0) ∧ atoi ds = s32 (Z.abs n).
Proof.
  intros Hn. exists (rev (digit_loop upper_digits 32 10 (Z.abs n))).
  assert (printint n 10 true = (if n <? 0 then [45] else []) ++ rev (digit_loop upper_digits 32 10 (Z.abs n))) as E.
  { rw /printint s32_small // andb_true_l. destruct (Z.ltb_spec n 0).
    - rw rev_app_distr u32_small; [lia|]. by rw Z.abs_neq; [lia|].
    - rw app_nil_r u32_small; [lia|]. by rw Z.abs_eq. }
  assert (0 ≤ Z.abs n < 10 ^ Z.of_nat 32) as Hx by (change (10 ^ Z.of_nat 32) with 100000000000000000000000000000000; lia).
  split; [done|]. split.
  { rw E length_app length_rev. pose proof (digit_loop_length 32 9 (Z.abs n)) as Hl.
    change (10 ^ Z.of_nat 10) with 10000000000 in Hl. destruct (n <? 0); simpl length at 1; lia. }
  split; [apply Forall_rev, digit_loop_digits; lia|]. split.
  - destruct (digit_loop_leading 32 (Z.abs n)) as (c & l & -> & Hc); [lia|lia|]. intros [= ->]. lia.
  - apply atoi_digit_loop; [done|lia].
Qed.
Lemma printint_atoi_witness : ∃ ds, printint (-120) 10 true = [45] ++ ds ∧ atoi ds = 120.
Proof. destruct (printint_atoi (-120)) as (ds & E & _ & _ & _ & Ha); [lia|]. exists ds. split; [exact E|exact Ha]. Defined.

(** A slot with pid 0, as [wait] leaves one, ends the listing: the processes after it are
    not printed. *)
Lemma ps_stops_at_free_slot l1 r l2 : st_pid r = 0 → ps (l1 ++ r :: l2) = ps (l1 ++ [r]).
Proof.
  intros Hr. assert (ps_rows (l1 ++ r :: l2) = ps_rows (l1 ++ [r])) as E; [|by rw /ps E].
  induction l1 as [|q l1 IH]; cbn [ps_rows app].
  - rewrite -> (proj2 (Z.eqb_eq _ _) Hr). reflexivity.
  - destruct (st_pid q =? 0); [reflexivity|]. rewrite -> IH. reflexivity.
Qed.
(** With every slot's pid set the loop reads past the table. *)
Lemma ps_overruns_full_table t : Forall (λ r, st_pid r ≠ 0) t → ps t = None.
Proof.
  intros H. assert (ps_rows t = None) as E; [|rw /ps E; reflexivity].
  induction H as [|r t Hr _ IH]; cbn [ps_rows]; [reflexivity|]. rewrite -> (proj2 (Z.eqb_neq _ _) Hr), IH. reflexivity.
Qed.
