(* ===== verification/Wc.v ===== *)
(** * wc, cat, echo and ls (wc.c, cat.c, echo.c, ls.c)

    The programs as the bytes they write, given the pieces that [read] returns. *)

From S2P Require Import Prelude Params Ulib.

(** ** wc *)

Record counts := mkCounts { n_lines : Z; n_words : Z; n_chars : Z; inword : bool }.

Definition wc_char (s : counts) (c : Z) : counts :=
  let chars := s32 (n_chars s + 1) in
  let lines := if c =? 10 then s32 (n_lines s + 1) else n_lines s in
  match strchr [32; 13; 9; 10; 11] c with
  | Some _ => mkCounts lines (n_words s) chars false
  | None =>
      if inword s then mkCounts lines (n_words s) chars true
      else mkCounts lines (s32 (n_words s + 1)) chars true
  end.
(** [while((n = read(...)) > 0)]: a piece for each call, the empty one at the end of the
    file, and [None] for an error. *)
Fixpoint wc_loop (s : counts) (chunks : list (option (list Z))) : option counts :=
  match chunks with
  | None :: _ => None
  | Some [] :: _ => Some s
  | Some chunk :: chunks => wc_loop (foldl wc_char s chunk) chunks
  | [] => Some s
  end.
Definition wc (chunks : list (option (list Z))) (name : list Z) : list Z :=
  match wc_loop (mkCounts 0 0 0 false) chunks with
  | None => lit "wc: read error" ++ [10]
  | Some s =>
      printf (λ i, [n_lines s; n_words s; n_chars s; 1] !!! i) (λ _, name) (lit "%d %d %d %s" ++ [10])
  end.

(** ** cat *)

(** The bytes written to the standard output; [wr] is how many of a piece [write] takes. *)
Fixpoint cat (wr : list Z → Z) (chunks : list (option (list Z))) : list Z :=
  match chunks with
  | None :: _ => lit "cat: read error" ++ [10]
  | Some [] :: _ | [] => []
  | Some chunk :: chunks =>
      let n := wr chunk in
      if n =? Z.of_nat (length chunk) then chunk ++ cat wr chunks
      else take (Z.to_nat n) chunk ++ lit "cat: write error" ++ [10]
  end.

(** ** echo *)

Fixpoint echo (argv : list (list Z)) : list Z :=
  match argv with
  | [] => []
  | [a] => a ++ [10]
  | a :: argv => a ++ [32] ++ echo argv
  end.

(** ** ls *)

(** [for(p=path+strlen(path); p >= path && *p != '/'; p--)]: what follows the last slash. *)
Fixpoint after_slash (l acc : list Z) : list Z :=
  match l with
  | [] => acc
  | c :: l => if c =? 47 then acc else after_slash l (c :: acc)
  end.
Definition fmtname (path : list Z) : list Z :=
  let p := after_slash (rev path) [] in
  if DIRSIZ <=? strlen p then p else p ++ replicate (Z.to_nat (DIRSIZ - strlen p)) 32.

(** ** What they compute *)

Definition is_space (c : Z) : bool := (c =? 32) || (c =? 13) || (c =? 9) || (c =? 10) || (c =? 11).
(** The lines, and the words: maximal runs of characters other than spaces. *)
Fixpoint count_lines (l : list Z) : Z :=
  match l with
  | [] => 0
  | c :: l => (if c =? 10 then 1 else 0) + count_lines l
  end.
Fixpoint count_words (prev_space : bool) (l : list Z) : Z :=
  match l with
  | [] => 0
  | c :: l => (if prev_space && negb (is_space c) then 1 else 0) + count_words (is_space c) l
  end.

Lemma strchr_space c : strchr [32; 13; 9; 10; 11] c = None ↔ is_space c = false.
Proof.
  rw /is_space. cbn [strchr]. change (32 =? 0) with false. change (13 =? 0) with false. change (9 =? 0) with false.
  change (10 =? 0) with false. change (11 =? 0) with false. cbn match. rw !(Z.eqb_sym _ c).
  by destruct (c =? 32), (c =? 13), (c =? 9), (c =? 10), (c =? 11).
Qed.

Lemma count_words_bounds b l : 0 ≤ count_words b l ≤ Z.of_nat (length l).
Proof. revert b. induction l as [|c l IH]; intros b; simpl; [lia|]. specialize (IH (is_space c)). destruct (b && _); lia. Qed.
Lemma count_lines_bounds l : 0 ≤ count_lines l ≤ Z.of_nat (length l).
Proof. induction l as [|c l IH]; simpl; [lia|]. destruct (c =? 10); lia. Qed.

Lemma foldl_wc l : ∀ L W C b, 0 ≤ L → 0 ≤ W → 0 ≤ C →
  L + Z.of_nat (length l) < 2147483648 → W + Z.of_nat (length l) < 2147483648 → C + Z.of_nat (length l) < 2147483648 →
  ∃ b', foldl wc_char (mkCounts L W C b) l = mkCounts (L + count_lines l) (W + count_words (negb b) l) (C + Z.of_nat (length l)) b'.
Proof.
  induction l as [|c l IH]; intros L W C b HL HW HC H1 H2 H3; [exists b; simpl; f_equal; lia|]. simpl length in *. cbn [foldl].
  assert (∃ W', wc_char (mkCounts L W C b) c = mkCounts (L + (if c =? 10 then 1 else 0)) W' (C + 1) (negb (is_space c)) ∧
    W' = W + (if negb b && negb (is_space c) then 1 else 0)) as (W' & -> & ->).
  { rw /wc_char. cbn [n_lines n_words n_chars inword].
    assert ((if c =? 10 then s32 (L + 1) else L) = L + (if c =? 10 then 1 else 0)) as -> by (destruct (c =? 10); [rw s32_small //; lia|lia]).
    rewrite -> (s32_small (C + 1)), (s32_small (W + 1)) by lia.
    destruct (strchr _ c) as [r|] eqn:E.
    - assert (is_space c = true) as -> by (destruct (is_space c) eqn:F; [done|apply strchr_space in F; congruence]).
      eexists. split; [reflexivity|]. destruct b; simpl; lia.
    - apply strchr_space in E as ->. destruct b; eexists; (split; [reflexivity|]); simpl; lia. }
  destruct (IH (L + (if c =? 10 then 1 else 0)) (W + (if negb b && negb (is_space c) then 1 else 0)) (C + 1) (negb (is_space c))) as (b' & ->);
    try (destruct (c =? 10), (negb b && negb (is_space c)); lia).
  exists b'. rw negb_involutive. cbn [count_lines count_words]. f_equal; lia.
Qed.

(** [wc] counts the lines, words and characters of its input, however [read] cuts it
    into pieces. *)
Theorem wc_counts input pieces name :
  concat pieces = input → Forall (λ p, p ≠ []) pieces → Z.of_nat (length input) < 2147483648 →
  wc ((Some <$> pieces) ++ [Some []]) name =
    printf (λ i, [count_lines input; count_words true input; Z.of_nat (length input); 1] !!! i) (λ _, name) (lit "%d %d %d %s" ++ [10]).
Proof.
  intros <- Hne Hlen. rw /wc.
  assert (∀ s, wc_loop s ((Some <$> pieces) ++ [Some []]) = Some (foldl wc_char s (concat pieces))) as ->.
  { clear Hlen. induction Hne as [|p ps Hp _ IH]; intros s; [done|]. destruct p as [|c p]; [done|].
    cbn [fmap list_fmap app wc_loop concat]. rw IH. f_equal. symmetry. apply (foldl_app wc_char (c :: p)). }
  destruct (foldl_wc (concat pieces) 0 0 0 false) as (b & ->); try lia. done.
Qed.
Lemma wc_counts_witness : wc [Some [104; 105]; Some [32; 97; 10]; Some []] [120] = lit "1 2 5 x" ++ [10].
Proof.
  assert (wc ((Some <$> [[104; 105]; [32; 97; 10]]) ++ [Some []]) [120] =
    printf (λ i, [1; 2; 5; 1] !!! i) (λ _, [120]) (lit "%d %d %d %s" ++ [10])) as E.
  { apply (wc_counts [104; 105; 32; 97; 10]); [reflexivity|repeat constructor; discriminate|simpl; lia]. }
  etransitivity; [exact E|]. vm_compute. reflexivity.
Defined.

(** [cat] copies its input when every [write] is complete. *)
Lemma cat_copies wr pieces :
  (∀ p, wr p = Z.of_nat (length p)) → Forall (λ p, p ≠ []) pieces → cat wr ((Some <$> pieces) ++ [Some []]) = concat pieces.
Proof.
  intros Hw. induction 1 as [|p ps Hp _ IH]; [done|]. destruct p as [|c p]; [done|]. cbn [fmap list_fmap app cat concat].
  rw Hw Z.eqb_refl IH //.
Qed.
