(* ===== verification/Console.v ===== *)
(** * The console (console.c, kbd.c, kbd.h, uart.c)

    The state is the driver's and the devices': the screen memory and the cursor register,
    the bytes sent to the serial port, the input buffer with its read, write and edit
    indices, and what the keyboard and the serial port hold for the next interrupt.
    Characters are bytes 0 to 255; [char]'s sign makes no difference, since the code only
    compares them with small positive ones.

    [cons.lock] is a flag: the interrupt handler and the calls hold it while they run,
    and [consoleread] gives it up while it sleeps. *)

From S2P Require Import Prelude Params Proc Bio Tx Fs Ulib.

(** What [procdump] shows of a process: its state, its pid, its name, and the
    return addresses of a sleeping one. *)
Record pview := mkView { v_state : procstate; v_pid : Z; v_name : list Z; v_pcs : list Z }.

Record cons := mkCons {
  k_locked : bool;      (* cons.lock *)
  k_locking : bool;
  k_panicked : bool;
  k_crt : Z → Z;        (* the cells of the screen *)
  k_pos : Z;            (* the cursor register *)
  k_uart : bool;
  k_serial : list Z;    (* bytes sent *)
  k_buf : list Z;
  k_r : Z; k_w : Z; k_e : Z;
  k_wakeups : nat;      (* calls of wakeup(&input.r) *)
  k_killed : bool;      (* myproc()->killed *)
  k_kbd : list Z;       (* scan codes waiting *)
  k_shift : Z;          (* kbdgetc's shift *)
  k_rx : list Z;        (* bytes received *)
  k_procs : list pview; (* the process table *)
}.
Definition set_locked (x : bool) (s : cons) : cons :=
  mkCons x (k_locking s) (k_panicked s) (k_crt s) (k_pos s) (k_uart s) (k_serial s) (k_buf s) (k_r s) (k_w s) (k_e s) (k_wakeups s) (k_killed s) (k_kbd s) (k_shift s) (k_rx s) (k_procs s).
Definition set_locking (x : bool) (s : cons) : cons :=
  mkCons (k_locked s) x (k_panicked s) (k_crt s) (k_pos s) (k_uart s) (k_serial s) (k_buf s) (k_r s) (k_w s) (k_e s) (k_wakeups s) (k_killed s) (k_kbd s) (k_shift s) (k_rx s) (k_procs s).
Definition set_panicked (x : bool) (s : cons) : cons :=
  mkCons (k_locked s) (k_locking s) x (k_crt s) (k_pos s) (k_uart s) (k_serial s) (k_buf s) (k_r s) (k_w s) (k_e s) (k_wakeups s) (k_killed s) (k_kbd s) (k_shift s) (k_rx s) (k_procs s).
Definition set_screen (m : Z → Z) (p : Z) (s : cons) : cons :=
  mkCons (k_locked s) (k_locking s) (k_panicked s) m p (k_uart s) (k_serial s) (k_buf s) (k_r s) (k_w s) (k_e s) (k_wakeups s) (k_killed s) (k_kbd s) (k_shift s) (k_rx s) (k_procs s).
Definition set_serial (x : list Z) (s : cons) : cons :=
  mkCons (k_locked s) (k_locking s) (k_panicked s) (k_crt s) (k_pos s) (k_uart s) x (k_buf s) (k_r s) (k_w s) (k_e s) (k_wakeups s) (k_killed s) (k_kbd s) (k_shift s) (k_rx s) (k_procs s).
Definition set_input (b : list Z) (r w e : Z) (s : cons) : cons :=
  mkCons (k_locked s) (k_locking s) (k_panicked s) (k_crt s) (k_pos s) (k_uart s) (k_serial s) b r w e (k_wakeups s) (k_killed s) (k_kbd s) (k_shift s) (k_rx s) (k_procs s).
Definition set_wakeups (x : nat) (s : cons) : cons :=
  mkCons (k_locked s) (k_locking s) (k_panicked s) (k_crt s) (k_pos s) (k_uart s) (k_serial s) (k_buf s) (k_r s) (k_w s) (k_e s) x (k_killed s) (k_kbd s) (k_shift s) (k_rx s) (k_procs s).
Definition set_kbd (x : list Z) (sh : Z) (s : cons) : cons :=
  mkCons (k_locked s) (k_locking s) (k_panicked s) (k_crt s) (k_pos s) (k_uart s) (k_serial s) (k_buf s) (k_r s) (k_w s) (k_e s) (k_wakeups s) (k_killed s) x sh (k_rx s) (k_procs s).
Definition set_rx (x : list Z) (s : cons) : cons :=
  mkCons (k_locked s) (k_locking s) (k_panicked s) (k_crt s) (k_pos s) (k_uart s) (k_serial s) (k_buf s) (k_r s) (k_w s) (k_e s) (k_wakeups s) (k_killed s) (k_kbd s) (k_shift s) x (k_procs s).

(** [acquire] and [release] of [cons.lock] *)
Definition lock_cons : M cons unit :=
  l ← gets k_locked; if (l : bool) then panic "acquire" else modify (set_locked true).
Definition unlock_cons : M cons unit :=
  l ← gets k_locked; if negb l then panic "release" else modify (set_locked false).

(** ** The serial port *)

(** The wait for the transmitter ends after 128 rounds in any case. *)
Definition uartputc (c : Z) : M cons unit :=
  u ← gets k_uart; when u (modify (λ s, set_serial (k_serial s ++ [u8 c]) s)).
Definition uartgetc : M cons Z :=
  u ← gets k_uart;
  if negb u then mret (-1) else
  rx ← gets k_rx;
  match rx with
  | [] => mret (-1)
  | c :: rx => modify (set_rx rx) ;; mret c
  end.

(** ** The screen *)

Definition BACKSPACE : Z := 256.
Definition fill (m : Z → Z) (lo hi : Z) (f : Z → Z) : Z → Z := λ i, if (lo <=? i) && (i <? hi) then f i else m i.

Definition cgaputc (c : Z) : M cons unit :=
  pos ← gets k_pos;
  m ← gets k_crt;
  let '(m, pos) :=
    if c =? 10 then (m, pos + (80 - Z.rem pos 80))
    else if c =? BACKSPACE then (m, if 0 <? pos then pos - 1 else pos)
    else (fill m pos (pos + 1) (λ _, Z.lor (Z.land c 255) 1792), pos + 1) in
  if (pos <? 0) || (25 * 80 <? pos) then panic "pos under/overflow" else
  let '(m, pos) :=
    if 24 <=? pos / 80 then
      let m := fill m 0 (23 * 80) (λ i, m (i + 80)) in
      (fill m (pos - 80) (24 * 80) (λ _, 0), pos - 80)
    else (m, pos) in
  modify (set_screen (fill m pos (pos + 1) (λ _, Z.lor 32 1792)) (u16 pos)).

(** A CPU that finds [panicked] set stops. *)
Definition consputc (c : Z) : M cons unit :=
  p ← gets k_panicked;
  if (p : bool) then panic "frozen" else
  (if c =? BACKSPACE then uartputc 8 ;; uartputc 32 ;; uartputc 8 else uartputc c) ;;
  cgaputc c.

Fixpoint consputs (l : list Z) : M cons unit :=
  match l with
  | [] => mret tt
  | c :: l => consputc c ;; consputs l
  end.

(** ** cprintf *)

Definition lower_digits : list Z := lit "0123456789abcdef".
Definition cprintint (xx base : Z) (sign : bool) : M cons unit :=
  let sign := sign && (s32 xx <? 0) in
  let x := if sign then u32 (- s32 xx) else u32 xx in
  consputs (rev (digit_loop lower_digits 32 base x ++ (if sign then [45] else []))).

Section cprintf.
(** The words of the arguments, and the C string at an address. *)
Context (argp : nat → Z) (str : Z → list Z).
Fixpoint cprintf_loop (fmt : list Z) (i : nat) : M cons unit :=
  match fmt with
  | [] => mret tt
  | c :: fmt =>
      if negb (c =? 37) then consputc c ;; cprintf_loop fmt i else
      match fmt with
      | [] => mret tt
      | c :: fmt =>
          if c =? 100 then cprintint (argp i) 10 true ;; cprintf_loop fmt (S i)
          else if (c =? 120) || (c =? 112) then cprintint (argp i) 16 false ;; cprintf_loop fmt (S i)
          else if c =? 115 then consputs (if argp i =? 0 then lit "(null)" else str (argp i)) ;; cprintf_loop fmt (S i)
          else if c =? 37 then consputc 37 ;; cprintf_loop fmt i
          else consputc 37 ;; consputc c ;; cprintf_loop fmt i
      end
  end.
Definition cprintf (fmt : option (list Z)) : M cons unit :=
  locking ← gets k_locking;
  when locking lock_cons ;;
  match fmt with
  | None => panic "null fmt"
  | Some fmt => cprintf_loop fmt 0
  end ;;
  when locking unlock_cons.
End cprintf.
Definition cprintf0 (fmt : list Z) : M cons unit := cprintf (λ _, 0) (λ _, []) (Some fmt).
Definition cprintf1 (fmt : list Z) (x : Z) : M cons unit := cprintf (λ _, x) (λ _, []) (Some fmt).

(** What [panic] does before it stops for ever, given the CPU's id and the callers. *)
Definition panic_prints (lapicid : Z) (pcs : list Z) (s : list Z) : M cons unit :=
  modify (set_locking false) ;;
  cprintf1 (lit "lapicid %d: panic: ") lapicid ;;
  cprintf0 s ;;
  cprintf0 [10] ;;
  foldr (λ pc m, cprintf1 (lit " %p") pc ;; m) (mret tt) pcs ;;
  modify (set_panicked true).

(** ** procdump *)

Definition state_name (st : procstate) : list Z :=
  match st with
  | UNUSED => lit "unused" | EMBRYO => lit "embryo" | SLEEPING => lit "sleep "
  | RUNNABLE => lit "runble" | RUNNING => lit "run   " | ZOMBIE => lit "zombie"
  end.
(** The addresses end at the first zero. *)
Fixpoint dump_pcs (pcs : list Z) : M cons unit :=
  match pcs with
  | [] => mret tt
  | pc :: pcs => if pc =? 0 then mret tt else cprintf1 (lit " %p") pc ;; dump_pcs pcs
  end.
Fixpoint dump_procs (l : list pview) : M cons unit :=
  match l with
  | [] => mret tt
  | p :: l =>
      if bool_decide (v_state p = UNUSED) then dump_procs l else
      cprintf (λ i, [v_pid p; 1; 2] !!! i) (λ a, if a =? 1 then state_name (v_state p) else v_name p)
        (Some (lit "%d %s %s")) ;;
      when (bool_decide (v_state p = SLEEPING)) (dump_pcs (v_pcs p)) ;;
      cprintf0 [10] ;;
      dump_procs l
  end.
Definition procdump : M cons unit := l ← gets k_procs; dump_procs l.

(** ** The keyboard *)

Definition SHIFT : Z := 1.
Definition CTL : Z := 2.
Definition ALT : Z := 4.
Definition CAPSLOCK : Z := 8.
Definition NUMLOCK : Z := 16.
Definition SCROLLLOCK : Z := 32.
Definition E0ESC : Z := 64.

(** An array with designated initializers. *)
Definition table (l : list (Z * Z)) : list Z := foldl (λ t p, <[Z.to_nat p.1 := p.2]> t) (replicate 256 0) l.
Definition from0 (l : list Z) : list (Z * Z) := imap (λ i c, (Z.of_nat i, c)) l.
(** [C(x)] *)
Definition ctrl (s : string) : list Z := (λ c, c - 64) <$> lit s.

Definition shiftcode : list Z := table [(0x1D, CTL); (0x2A, SHIFT); (0x36, SHIFT); (0x38, ALT); (0x9D, CTL); (0xB8, ALT)].
Definition togglecode : list Z := table [(0x3A, CAPSLOCK); (0x45, NUMLOCK); (0x46, SCROLLLOCK)].
(** The keys of the pad and the arrows, the same in the three maps. *)
Definition keypad : list (Z * Z) :=
  [(0xC8, 0xE2); (0xD0, 0xE3); (0xC9, 0xE6); (0xD1, 0xE7); (0xCB, 0xE4); (0xCD, 0xE5); (0x97, 0xE0); (0xCF, 0xE1); (0xD2, 0xE8); (0xD3, 0xE9)].
Definition normalmap : list Z := table (
  from0 ([0; 27] ++ lit "1234567890-=" ++ [8; 9] ++ lit "qwertyuiop[]" ++ [10; 0] ++ lit "asdfghjkl;'`" ++ [0] ++ lit "\zxcvbnm,./" ++ [0] ++ lit "*" ++
    [0; 32] ++ replicate 13 0 ++ lit "789-456+1230." ++ replicate 4 0) ++
  [(0x9C, 10); (0xB5, 47)] ++ keypad).
Definition shiftmap : list Z := table (
  from0 ([0; 27] ++ lit "!@#$%^&*()_+" ++ [8; 9] ++ lit "QWERTYUIOP{}" ++ [10; 0] ++ lit "ASDFGHJKL:" ++ [34] ++ lit "~" ++ [0] ++ lit "|ZXCVBNM<>?" ++ [0] ++ lit "*" ++
    [0; 32] ++ replicate 13 0 ++ lit "789-456+1230." ++ replicate 4 0) ++
  [(0x9C, 10); (0xB5, 47)] ++ keypad).
Definition ctlmap : list Z := table (
  from0 (replicate 16 0 ++ ctrl "QWERTYUIOP" ++ [0; 0; 13; 0] ++ ctrl "ASDFGHJKL" ++ [0; 0; 0; 0] ++ ctrl "\ZXCVBNM" ++ [0; 0] ++ [u8 (47 - 64)] ++ [0; 0]) ++
  [(0x9C, 13); (0xB5, u8 (47 - 64))] ++ keypad).
Definition charcode (i : Z) : list Z := if i =? 0 then normalmap else if i =? 1 then shiftmap else ctlmap.

(** One scan code: the character, and the new [shift]. *)
Definition kbd_code (shift data : Z) : Z * Z :=
  if data =? 0xE0 then (0, Z.lor shift E0ESC)
  else if negb (Z.land data 0x80 =? 0) then
    let data := if negb (Z.land shift E0ESC =? 0) then data else Z.land data 0x7F in
    (0, Z.land shift (Z.lnot (Z.lor (shiftcode !!! Z.to_nat data) E0ESC)))
  else
    let '(data, shift) :=
      if negb (Z.land shift E0ESC =? 0) then (Z.lor data 0x80, Z.land shift (Z.lnot E0ESC)) else (data, shift) in
    let shift := Z.lor shift (shiftcode !!! Z.to_nat data) in
    let shift := Z.lxor shift (togglecode !!! Z.to_nat data) in
    let c := charcode (Z.land shift (Z.lor CTL SHIFT)) !!! Z.to_nat data in
    let c :=
      if negb (Z.land shift CAPSLOCK =? 0) then
        if (97 <=? c) && (c <=? 122) then c - 32
        else if (65 <=? c) && (c <=? 90) then c + 32
        else c
      else c in
    (c, shift).
Definition kbdgetc : M cons Z :=
  q ← gets k_kbd;
  match q with
  | [] => mret (-1)
  | data :: q =>
      shift ← gets k_shift;
      let '(c, shift) := kbd_code shift data in
      modify (set_kbd q shift) ;;
      mret c
  end.

(** ** Input *)

Definition INPUT_BUF : Z := 128.
Definition at_buf (b : list Z) (i : Z) : Z := b !!! Z.to_nat (u32 i mod INPUT_BUF).

(** [while(input.e != input.w && input.buf[(input.e-1) % INPUT_BUF] != '\n')]; at most
    [INPUT_BUF] characters are pending. *)
Fixpoint kill_line (k : nat) : M cons unit :=
  match k with
  | O => mret tt
  | S k =>
      s ← gets id;
      if negb (k_e s =? k_w s) && negb (at_buf (k_buf s) (k_e s - 1) =? 10) then
        modify (λ s, set_input (k_buf s) (k_r s) (k_w s) (u32 (k_e s - 1)) s) ;;
        consputc BACKSPACE ;;
        kill_line k
      else mret tt
  end.

(** One character; the result is whether to call [procdump]. *)
Definition consoleintr_char (c : Z) : M cons bool :=
  s ← gets id;
  if c =? 16 then mret true
  else if c =? 21 then kill_line (Z.to_nat INPUT_BUF + 1) ;; mret false
  else if (c =? 8) || (c =? 127) then
    when (negb (k_e s =? k_w s)) (
      modify (λ s, set_input (k_buf s) (k_r s) (k_w s) (u32 (k_e s - 1)) s) ;;
      consputc BACKSPACE) ;;
    mret false
  else
    when (negb (c =? 0) && (u32 (k_e s - k_r s) <? INPUT_BUF)) (
      let c := if c =? 13 then 10 else c in
      modify (λ s, set_input (<[Z.to_nat (k_e s mod INPUT_BUF) := u8 c]> (k_buf s)) (k_r s) (k_w s) (u32 (k_e s + 1)) s) ;;
      consputc c ;;
      s ← gets id;
      when ((c =? 10) || (c =? 4) || (k_e s =? u32 (k_r s + INPUT_BUF))) (
        modify (λ s, set_input (k_buf s) (k_r s) (k_e s) (k_e s) s) ;;
        modify (λ s, set_wakeups (S (k_wakeups s)) s))) ;;
    mret false.

Section intr.
Context (getc : M cons Z).
(** [while((c = getc()) >= 0)] *)
Fixpoint consoleintr_loop (k : nat) (dump : bool) : M cons bool :=
  match k with
  | O => mret dump
  | S k =>
      c ← getc;
      if c <? 0 then mret dump else
      d ← consoleintr_char c;
      consoleintr_loop k (dump || d)
  end.
Definition consoleintr (k : nat) : M cons unit :=
  lock_cons ;;
  dump ← consoleintr_loop k false;
  unlock_cons ;;
  when dump procdump.
End intr.
(** Each round takes one of the codes or bytes waiting, and the last one finds none. *)
Definition kbdintr : M cons unit := n ← gets (λ s, length (k_kbd s)); consoleintr kbdgetc (S n).
Definition uartintr : M cons unit := n ← gets (λ s, length (k_rx s)); consoleintr uartgetc (S n).

(** The loop of [consoleread] with [n] bytes of [target] to go and [dst] read: it returns,
    or sleeps on [input.r] and will go on from there. *)
Inductive reading := Done (r : Z) (dst : list Z) | Waiting (n : Z) (dst : list Z).
Fixpoint consoleread_loop (k : nat) (target n : Z) (dst : list Z) : M cons reading :=
  if negb (0 <? n) then mret (Done (target - n) dst) else
  s ← gets id;
  if k_r s =? k_w s then
    if k_killed s then mret (Done (-1) dst) else mret (Waiting n dst)
  else
  match k with
  | O => mret (Waiting n dst)
  | S k =>
      let c := at_buf (k_buf s) (k_r s) in
      modify (λ s, set_input (k_buf s) (u32 (k_r s + 1)) (k_w s) (k_e s) s) ;;
      if c =? 4 then
        when (n <? target) (modify (λ s, set_input (k_buf s) (u32 (k_r s - 1)) (k_w s) (k_e s) s)) ;;
        mret (Done (target - n) dst)
      else if c =? 10 then mret (Done (target - (n - 1)) (dst ++ [c]))
      else consoleread_loop k target (n - 1) (dst ++ [c])
  end.
(** From the call of [acquire], or the return of [sleep], to the next [sleep] or the
    return: the buffer holds at most [INPUT_BUF] characters. *)
Definition consoleread_run (target n : Z) (dst : list Z) : M cons reading :=
  lock_cons ;;
  r ← consoleread_loop (Z.to_nat INPUT_BUF) target n dst;
  unlock_cons ;;
  mret r.

(** ** The device *)

Section dev.
Context {S : Type} `{!BlockStore S}.
Abbreviation fs := (@fstate S cons).

Definition consoleread (ip : nat) (n : Z) : M fs (Z * list Z) :=
  iunlock (Some ip) ;;
  r ← Fs.dev (consoleread_run n n []);
  match r with
  | Waiting _ _ => sleeps
  | Done r dst => ilock (Some ip) ;; mret (r, dst)
  end.
Definition consolewrite (ip : nat) (buf : list Z) (n : Z) : M fs Z :=
  iunlock (Some ip) ;;
  Fs.dev (lock_cons ;; consputs (take (Z.to_nat n) buf) ;; unlock_cons) ;;
  ilock (Some ip) ;;
  mret n.
(** [consoleinit]'s entries of [devsw] *)
Definition CONSOLE : Z := 1.
Definition devsw (major : Z) : devops fs :=
  if major =? CONSOLE then mkDev (Some consoleread) (Some consolewrite) else mkDev None None.
End dev.
