(* ===== verification/ConsoleSpec.v ===== *)
(** * The console's behaviour

    What the screen shows, the line discipline as a pair of queues that the buffer and its
    indices implement, and a line on its way from the keyboard to a reader. *)

From S2P Require Import Prelude Params Proc Bio Log LogSpec Tx Fs Files Ulib Console.

(** ** Output *)

Definition screen_ok (s : cons) : Prop := k_panicked s = false ∧ 0 ≤ k_pos s < 1920.

(** Only the devices' output differs, and nothing beyond the 24 rows of the screen. *)
Definition echoes (s s' : cons) : Prop := ∃ m p l,
  s' = set_serial l (set_screen m p s) ∧ 0 ≤ p < 1920 ∧ ∀ i, 1920 ≤ i → m i = k_crt s i.

Lemma echoes_refl s : screen_ok s → echoes s s.
Proof. intros [_ H]. exists (k_crt s), (k_pos s), (k_serial s). split; [by destruct s|done]. Qed.
Lemma echoes_trans s1 s2 s3 : echoes s1 s2 → echoes s2 s3 → echoes s1 s3.
Proof.
  intros (m & p & l & -> & _ & H1) (m' & p' & l' & -> & H & H2). exists m', p', l'. split; [done|]. split; [done|].
  intros i Hi. rw H2 //. by apply H1.
Qed.
Lemma echoes_ok s s' : screen_ok s → echoes s s' → screen_ok s'.
Proof. intros [H _] (m & p & l & -> & Hp & _). by split. Qed.

(** The cells before the cursor. *)
Definition text (m : Z → Z) (pos : Z) : list Z := m <$> seqZ 0 pos.
(** A screen whose 24 rows are full loses the first. *)
Definition scroll (l : list Z) : list Z := if decide (length l = 1920%nat) then drop 80 l else l.
Definition blank : Z := Z.lor 32 1792.
Definition cell (c : Z) : Z := Z.lor (Z.land c 255) 1792.

(** The cells before the cursor once [c] is written, before scrolling. *)
Definition text_after (m : Z → Z) (pos c : Z) : list Z :=
  if c =? 10 then text m (pos + (80 - pos mod 80))
  else if c =? BACKSPACE then text m (Z.max 0 (pos - 1))
  else text m pos ++ [cell c].

Lemma length_text m pos : length (text m pos) = Z.to_nat pos.
Proof. by rw /text length_fmap length_seqZ. Qed.
Lemma lookup_text m pos (i : nat) : text m pos !! i = if decide (Z.of_nat i < pos) then Some (m (Z.of_nat i)) else None.
Proof.
  rw /text list_lookup_fmap. case_decide.
  - by rewrite -> lookup_seqZ_lt by lia.
  - by rewrite -> lookup_seqZ_ge by lia.
Qed.
Lemma text_ext m m' pos : (∀ i, 0 ≤ i < pos → m i = m' i) → text m pos = text m' pos.
Proof. intros H. apply list_eq. intros i. rw !lookup_text. case_decide; [|done]. rw H //. lia. Qed.
Lemma text_snoc m pos : 0 ≤ pos → text m (pos + 1) = text m pos ++ [m pos].
Proof. intros H. rw /text seqZ_app; [lia|lia|]. by rw fmap_app. Qed.

Lemma fill_in m lo hi f i : lo ≤ i < hi → fill m lo hi f i = f i.
Proof. intros H. rw /fill. by rewrite -> (proj2 (andb_true_iff _ _)) by lia. Qed.
Lemma fill_out m lo hi f i : i < lo ∨ hi ≤ i → fill m lo hi f i = m i.
Proof. intros H. rw /fill. by rewrite -> (proj2 (andb_false_iff _ _)) by lia. Qed.

(** The end of [cgaputc]: scrolling, and the blank under the cursor. *)
Lemma cga_end m pos :
  0 ≤ pos ≤ 1920 → ∃ m' p',
  (let '(m, pos) :=
    if 24 <=? pos / 80 then
      let m := fill m 0 (23 * 80) (λ i, m (i + 80)) in (fill m (pos - 80) (24 * 80) (λ _, 0), pos - 80)
    else (m, pos) in (fill m pos (pos + 1) (λ _, blank), u16 pos)) = (m', p') ∧
  0 ≤ p' < 1920 ∧ m' p' = blank ∧ text m' p' = scroll (text m pos) ∧ ∀ i, 1920 ≤ i → m' i = m i.
Proof.
  intros Hp. destruct (Z.leb_spec 24 (pos / 80)) as [H|H].
  - assert (pos = 1920) as -> by (clear -Hp H; dlia). eexists _, _. split; [reflexivity|]. change (u16 (1920 - 80)) with 1840.
    change (1920 - 80) with 1840. split; [lia|]. split; [by rw fill_in; [lia|]|]. split.
    + rw /scroll length_text. change (Z.to_nat 1920) with 1920%nat. rewrite -> decide_True by done.
      apply list_eq. intros i. rewrite -> lookup_drop, !lookup_text. repeat case_decide; try lia; [|done].
      rewrite -> (fill_out _ 1840), (fill_out _ 1840) by lia. rewrite -> fill_in by lia. do 2 f_equal. lia.
    + intros i Hi. by rewrite -> !fill_out by lia.
  - assert (0 ≤ pos < 1920) as Hp' by (clear -Hp H; dlia). eexists _, _. split; [reflexivity|].
    assert (u16 pos = pos) as -> by (apply Z.mod_small; lia). split; [done|]. split; [by rw fill_in; [lia|]|]. split.
    + rw /scroll length_text. rewrite -> decide_False by lia. apply text_ext. intros i Hi. apply fill_out. lia.
    + intros i Hi. apply fill_out. lia.
Qed.

Lemma cgaputc_ok c s :
  screen_ok s → ∃ m p, cgaputc c s = Ok (tt, set_screen m p s) ∧ 0 ≤ p < 1920 ∧ m p = blank ∧
    text m p = scroll (text_after (k_crt s) (k_pos s) c) ∧ ∀ i, 1920 ≤ i → m i = k_crt s i.
Proof.
  intros [_ Hp]. rw /cgaputc. mget. rw /text_after. rewrite -> Z.rem_mod_nonneg by lia.
  set (pos := k_pos s) in *. set (m := k_crt s) in *.
  set (mp := if c =? 10 then (m, pos + (80 - pos mod 80)) else _).
  assert (0 ≤ mp.2 ≤ 1920 ∧ text mp.1 mp.2 = text_after m pos c ∧ ∀ i, 1920 ≤ i → mp.1 i = m i) as (Hmp & Ht & Ho).
  { rw /mp /text_after. destruct (c =? 10); simpl.
    { split; [clear -Hp; dlia|done]. }
    destruct (c =? BACKSPACE); simpl.
    { destruct (Z.ltb_spec 0 pos); (split; [lia|]); (split; [|done]); f_equal; lia. }
    split; [lia|]. split; [|intros; apply fill_out; lia].
    rw text_snoc; [lia|]. rewrite -> fill_in by lia. f_equal. apply text_ext. intros. apply fill_out. lia. }
  rw /text_after in Ht. rw -Ht. clearbody mp. destruct mp as [m1 p1]. simpl in *.
  rewrite -> (proj2 (orb_false_iff _ _)) by (split; apply Z.ltb_ge; lia).
  destruct (cga_end m1 p1 Hmp) as (m' & p' & E & Hp' & Hb & Ht' & Ho'). exists m', p'.
  assert (∀ i, 1920 ≤ i → m' i = m i) as Hoff by (intros; rw Ho' // Ho //).
  split; [|done]. destruct (24 <=? p1 / 80); injection E as <- <-; done.
Qed.

Lemma uartputc_ok c s : ∃ l, uartputc c s = Ok (tt, set_serial l s).
Proof.
  rw /uartputc. mget. destruct (k_uart s); [by eexists|]. exists (k_serial s). by destruct s.
Qed.

Lemma consputc_ok c s : screen_ok s → ∃ s', consputc c s = Ok (tt, s') ∧ echoes s s'.
Proof.
  intros Hs. rw /consputc. mget. rw (proj1 Hs).
  assert (∃ l, (if c =? BACKSPACE then uartputc 8 ;; uartputc 32 ;; uartputc 8 else uartputc c) s = Ok (tt, set_serial l s)) as (l & E).
  { destruct (c =? BACKSPACE); [|apply uartputc_ok]. destruct (uartputc_ok 8 s) as (l1 & E1). mgo E1.
    destruct (uartputc_ok 32 (set_serial l1 s)) as (l2 & E2). mgo E2.
    destruct (uartputc_ok 8 (set_serial l2 (set_serial l1 s))) as (l3 & E3). by exists l3. }
  mgo E. destruct (cgaputc_ok c (set_serial l s)) as (m & p & -> & Hp & _ & _ & Ho); [done|].
  eexists. split; [reflexivity|]. by exists m, p, l.
Qed.

(** ** Strings *)

Definition plain (c : Z) : Prop := 0 ≤ c < 256 ∧ c ≠ 10.
(** The screen's last rows: whole rows are lost at the top. *)
Definition keep (l : list Z) : list Z := drop (Z.to_nat (80 * Z.max 0 ((Z.of_nat (length l) - 1840) / 80))) l.

Lemma keep_scroll l1 l2 : (length l1 ≤ 1920)%nat → keep (scroll l1 ++ l2) = keep (l1 ++ l2).
Proof.
  intros Hl. rw /scroll. case_decide as H; [|done].
  rewrite <- (drop_app_le l1 l2 80) by lia. rw /keep length_drop length_app.
  rewrite -> drop_drop. f_equal. clear -H. dlia.
Qed.

Definition shown (s : cons) : list Z := text (k_crt s) (k_pos s).

Lemma consputc_plain c s :
  screen_ok s → plain c → ∃ s', consputc c s = Ok (tt, s') ∧ echoes s s' ∧ shown s' = scroll (shown s ++ [cell c]) ∧
    k_serial s' = if k_uart s then k_serial s ++ [c] else k_serial s.
Proof.
  intros Hs [Hc Hc']. rw /consputc. mget. rw (proj1 Hs).
  rewrite -> (proj2 (Z.eqb_neq c BACKSPACE)) by (rw /BACKSPACE; lia).
  assert (uartputc c s = Ok (tt, set_serial (if k_uart s then k_serial s ++ [c] else k_serial s) s)) as E.
  { rw /uartputc. mget. destruct (k_uart s) eqn:Eu; simpl; [by rw u8_small|]. by destruct s. }
  mgo E. destruct (cgaputc_ok c (set_serial (if k_uart s then k_serial s ++ [c] else k_serial s) s)) as (m & p & -> & Hp & _ & Ht & Ho); [done|].
  eexists. split; [reflexivity|]. split; [by exists m, p, (if k_uart s then k_serial s ++ [c] else k_serial s)|]. split; [|done].
  rw /shown /= Ht /text_after. rewrite -> (proj2 (Z.eqb_neq c 10)) by lia. rewrite -> (proj2 (Z.eqb_neq c BACKSPACE)) by (rw /BACKSPACE; lia). done.
Qed.

Lemma shown_length s : screen_ok s → (length (shown s) < 1920)%nat.
Proof. intros [_ H]. rw /shown length_text. lia. Qed.
Lemma keep_short l : (length l < 1920)%nat → keep l = l.
Proof. intros H. rw /keep. rewrite -> Z.max_l by (clear -H; dlia). done. Qed.

Lemma consputs_plain l : ∀ s, screen_ok s → Forall plain l →
  ∃ s', consputs l s = Ok (tt, s') ∧ echoes s s' ∧ shown s' = keep (shown s ++ (cell <$> l)) ∧
    k_serial s' = if k_uart s then k_serial s ++ l else k_serial s.
Proof.
  induction l as [|c l IH]; intros s Hs Hl; cbn [consputs].
  { exists s. split; [done|]. split; [by apply echoes_refl|]. rw !app_nil_r keep_short; [by apply shown_length|]. by destruct (k_uart s). }
  apply Forall_cons in Hl as [Hc Hl]. destruct (consputc_plain c s Hs Hc) as (s1 & E1 & Hs1 & Ht1 & Hu1). mgo E1.
  assert (screen_ok s1) as Hok by by apply (echoes_ok s).
  destruct (IH s1 Hok Hl) as (s2 & E2 & Hs2 & Ht2 & Hu2). exists s2. split; [done|]. split; [by apply (echoes_trans _ s1)|].
  assert (k_uart s1 = k_uart s) as Eu by by destruct Hs1 as (? & ? & ? & -> & _).
  split.
  - rw Ht2 Ht1 keep_scroll; [rw length_app /=; pose proof (shown_length s Hs); lia|]. by rw -app_assoc.
  - rw Hu2 Hu1 Eu. destruct (k_uart s); [by rw -app_assoc|done].
Qed.

Lemma consputs_ok l : ∀ s, screen_ok s → ∃ s', consputs l s = Ok (tt, s') ∧ echoes s s'.
Proof.
  induction l as [|c l IH]; intros s Hs; cbn [consputs]; [exists s; split; [done|by apply echoes_refl]|].
  destruct (consputc_ok c s Hs) as (s1 & E1 & Hs1). mgo E1.
  destruct (IH s1) as (s2 & E2 & Hs2); [by apply (echoes_ok s)|]. exists s2. split; [done|]. by apply (echoes_trans _ s1).
Qed.

Section write.
Context {S : Type} `{!BlockStore S}.
Abbreviation fs := (@fstate S cons).

(** A write to the console: with its inode locked by the caller and the console lock
    free, [consolewrite] of printable text returns the length, leaves the inode locked and
    the lock free, sends the bytes to the serial port if there is one, and appends the
    characters to what the screen shows, of which whole rows are lost at the top when it is
    full; it writes nothing beyond the screen's 24 rows and changes nothing else. *)
Theorem consolewrite_shows (s : fs) ip buf :
  let k := f_dev s in
  (ip < length (f_inode s))%nat → i_lock (f_inode s !!! ip) = mkSl true (f_me s) → i_valid (f_inode s !!! ip) = true →
  1 ≤ i_ref (f_inode s !!! ip) → screen_ok k → k_locked k = false → Forall plain buf →
  ∃ k', consolewrite ip buf (Z.of_nat (length buf)) s = Ok (Z.of_nat (length buf), set_fdev k' s) ∧
    shown k' = keep (shown k ++ (cell <$> buf)) ∧ (∀ i, 1920 ≤ i → k_crt k' i = k_crt k i) ∧ echoes k k' ∧
    k_serial k' = if k_uart k then k_serial k ++ buf else k_serial k.
Proof.
  intros k Hip Hlk Hv Hr Hs Hfree Hb. rw /consolewrite. set (p := f_inode s !!! ip) in *.
  mgo (iunlock_ok s ip Hip Hlk Hr). rw -/p. set (s1 := set_inodes _ s).
  destruct (consputs_plain buf (set_locked true k)) as (k2 & E2 & (m & q & l & -> & Hq & Ho) & Ht & Hu); [done|done|].
  set (k' := set_serial l (set_screen m q k)).
  assert (Fs.dev (lock_cons ;; consputs (take (Z.to_nat (Z.of_nat (length buf))) buf) ;; unlock_cons) s1 = Ok (tt, set_fdev k' s1)) as E.
  { rw /Fs.dev /lift. change (f_dev s1) with k. rw /lock_cons bind_assoc. mget. rw Hfree. mget.
    rw Nat2Z.id firstn_all. mgo E2. rw /unlock_cons. mget. simpl. rw /k'. by rw -Hfree; destruct k. }
  mgo E. exists k'. split; [|split; [done|split; [done|split; [by exists m, q, l|done]]]].
  assert (f_inode (set_fdev k' s1) !!! ip = set_ilock (mkSl false 0) p) as Ep by by rw /= list_lookup_total_insert_eq.
  mgo (ilock_ok (set_fdev k' s1) ip ltac:(by rw /= length_insert) ltac:(rw Ep; by split)). rw Ep /=.
  rw list_insert_insert_eq. destruct s as [? ? l0 ? ? ?]. rw /mret /M_ret /set_fdev /set_inodes /=. do 3 f_equal.
  apply list_insert_id. rw /p in Hlk |- *. simpl in *. apply list_lookup_lookup_total_lt in Hip as Hl. rw Hl. f_equal.
  destruct (l0 !!! ip). simpl in *. by subst.
Qed.
End write.

(** ** The line discipline *)

(** What can be read, what is still being edited, and the readers woken. *)
Record tty := mkTty { t_ready : list Z; t_edit : list Z; t_wakeups : nat }.
Definition tty_key (t : tty) (c : Z) : tty :=
  if c =? 16 then t
  else if c =? 21 then mkTty (t_ready t) [] (t_wakeups t)
  else if (c =? 8) || (c =? 127) then mkTty (t_ready t) (removelast (t_edit t)) (t_wakeups t)
  else if (c =? 0) || bool_decide (length (t_ready t ++ t_edit t) = 128%nat) then t
  else
    let c := if c =? 13 then 10 else c in
    let edit := t_edit t ++ [c] in
    if (c =? 10) || (c =? 4) || bool_decide (length (t_ready t ++ edit) = 128%nat)
    then mkTty (t_ready t ++ edit) [] (S (t_wakeups t))
    else mkTty (t_ready t) edit (t_wakeups t).
(** A read takes up to a newline or [n] bytes; an end of file that is not at the start of
    the read is left for the next one. *)
Fixpoint tty_read (killed : bool) (ready : list Z) (target n : Z) (dst : list Z) : reading * list Z :=
  if negb (0 <? n) then (Done (target - n) dst, ready) else
  match ready with
  | [] => (if killed then Done (-1) dst else Waiting n dst, [])
  | c :: rest =>
      if c =? 4 then (Done (target - n) dst, if n <? target then ready else rest)
      else if c =? 10 then (Done (target - (n - 1)) (dst ++ [c]), rest)
      else tty_read killed rest target (n - 1) (dst ++ [c])
  end.

(** The buffer holds the two queues, one after the other. *)
Record rep (s : cons) (t : tty) : Prop := {
  rp_buf : length (k_buf s) = 128%nat;
  rp_r : 0 ≤ k_r s < 4294967296;
  rp_w : k_w s = u32 (k_r s + Z.of_nat (length (t_ready t)));
  rp_e : k_e s = u32 (k_r s + Z.of_nat (length (t_ready t ++ t_edit t)));
  rp_len : (length (t_ready t ++ t_edit t) ≤ 128)%nat;
  rp_data : ∀ i c, (t_ready t ++ t_edit t) !! i = Some c → at_buf (k_buf s) (k_r s + Z.of_nat i) = c;
  rp_wake : k_wakeups s = t_wakeups t;
}.
(** ... and there is no newline in what is being edited. *)
Definition ready_for (s : cons) (t : tty) : Prop := rep s t ∧ screen_ok s ∧ Forall (λ c, c ≠ 10) (t_edit t).

Lemma rep_echoes s s' t : rep s t → echoes s s' → rep s' t.
Proof. intros [] (m & p & l & -> & _). by split. Qed.
Lemma ready_for_echoes s s' t : ready_for s t → echoes s s' → ready_for s' t.
Proof. intros (H1 & H2 & H3) H. split; [by apply (rep_echoes s)|]. split; [by apply (echoes_ok s)|done]. Qed.

(** What the input handlers leave alone. *)
Definition rest (s : cons) := (k_locked s, k_locking s, k_uart s, k_killed s, k_kbd s, k_shift s, k_rx s, k_procs s).
Lemma rest_echoes s s' : echoes s s' → rest s' = rest s.
Proof. by intros (m & p & l & -> & _). Qed.

Lemma u32_mod128 x : u32 x mod 128 = x mod 128.
Proof. rw /u32. dlia. Qed.
Lemma at_buf_index b x : at_buf b x = b !!! Z.to_nat (x mod 128).
Proof. by rw /at_buf /INPUT_BUF u32_mod128. Qed.
Lemma u32_add_inj r a b : 0 ≤ a ≤ 128 → 0 ≤ b ≤ 128 → u32 (r + a) = u32 (r + b) → a = b.
Proof. rw /u32. intros. dlia. Qed.

Lemma rep_empty s rd ed n : rep s (mkTty rd ed n) → (k_e s =? k_w s) = bool_decide (ed = []).
Proof.
  intros [_ _ Hw He Hl _ _]. simpl in *. rw length_app in He, Hl. case_bool_decide as H.
  - subst ed. apply Z.eqb_eq. rw He Hw. simpl. f_equal. lia.
  - apply Z.eqb_neq. rw He Hw. intros E%u32_add_inj; [|lia|lia]. destruct ed; simpl in E; [done|lia].
Qed.

(** Taking the last character back. *)
Lemma rep_pop s rd ed x n :
  rep s (mkTty rd (ed ++ [x]) n) → rep (set_input (k_buf s) (k_r s) (k_w s) (u32 (k_e s - 1)) s) (mkTty rd ed n).
Proof.
  intros [H1 H2 H3 H4 H5 H6 H8]. simpl in *. rw app_assoc in H4, H5, H6. rw length_app /= in H4, H5.
  split; simpl; try done; [|lia|].
  - rw H4 u32_sub_l. f_equal. lia.
  - intros i c Hc. apply H6. by apply lookup_app_l_Some.
Qed.

Lemma kill_line_ok rd n k : ∀ ed s,
  ready_for s (mkTty rd ed n) → (length ed < k)%nat →
  ∃ s', kill_line k s = Ok (tt, s') ∧ ready_for s' (mkTty rd [] n) ∧ rest s' = rest s.
Proof.
  induction k as [|k IH]; intros ed s (Hr & Hs & Hl) Hk; [lia|]. cbn [kill_line]. mget. cbn [id].
  rw (rep_empty _ _ _ _ Hr). destruct ed as [|x ed _] using rev_ind; simpl; [by exists s|].
  rewrite -> bool_decide_eq_false_2 by (by destruct ed). simpl.
  assert (at_buf (k_buf s) (k_e s - 1) = x) as ->.
  { pose proof (rp_data _ _ Hr (length (rd ++ ed)) x) as H. simpl in H. rw -H.
    - rw app_assoc. apply list_lookup_middle. done.
    - rw (rp_e _ _ Hr) /= app_assoc (length_app (rd ++ ed)) /at_buf u32_sub_l. do 4 f_equal. simpl. lia. }
  simpl in Hl. apply Forall_app in Hl as [Hl [Hx _]%Forall_cons].
  rewrite -> (proj2 (Z.eqb_neq _ _)) by done. cbn [negb]. mget.
  destruct (consputc_ok BACKSPACE (set_input (k_buf s) (k_r s) (k_w s) (u32 (k_e s - 1)) s) Hs) as (s1 & E1 & Hs1). mgo E1.
  destruct (IH ed s1) as (s' & E' & H' & F'); [|rw length_app /= in Hk; lia|].
  { apply (ready_for_echoes _ _ _ (conj (rep_pop _ _ _ _ _ Hr) (conj Hs Hl)) Hs1). }
  exists s'. split; [done|]. split; [done|]. rw F' (rest_echoes _ _ Hs1) //.
Qed.

(** Storing a character at the end. *)
Lemma rep_push s rd ed n c :
  rep s (mkTty rd ed n) → (length (rd ++ ed) < 128)%nat →
  rep (set_input (<[Z.to_nat (k_e s mod 128) := c]> (k_buf s)) (k_r s) (k_w s) (u32 (k_e s + 1)) s) (mkTty rd (ed ++ [c]) n).
Proof.
  intros [H1 H2 H3 H4 H5 H6 H8] Hlen. simpl in *. split; simpl; try done.
  - by rw length_insert.
  - rw H4 u32_add_l app_assoc (length_app (rd ++ ed)) /=. f_equal. lia.
  - rw app_assoc (length_app (rd ++ ed)) /=. lia.
  - intros i x Hx. rw app_assoc in Hx. rw at_buf_index. rewrite -> H4, u32_mod128. set (m := length (rd ++ ed)) in *.
    destruct (decide (i = m)) as [->|Hne].
    + rw list_lookup_middle // in Hx. injection Hx as <-. apply list_lookup_total_insert_eq. rw H1. clear. dlia.
    + assert (i < m)%nat as Hi by (apply lookup_lt_Some in Hx; rw length_app /= -/m in Hx; lia).
      rewrite -> lookup_app_l in Hx by done. rewrite -> list_lookup_total_insert_ne; [rw -at_buf_index; by apply H6|].
      intros E%Z2Nat.inj; [|clear; dlia|clear; dlia]. clear -E Hi Hlen. dlia.
Qed.
(** Making what is edited readable. *)
Lemma rep_commit s rd ed n :
  rep s (mkTty rd ed n) → rep (set_wakeups (S (k_wakeups s)) (set_input (k_buf s) (k_r s) (k_e s) (k_e s) s)) (mkTty (rd ++ ed) [] (S n)).
Proof.
  intros [H1 H2 H3 H4 H5 H6 H8]. simpl in *. split; simpl; rw ?app_nil_r; try done. by rw H8.
Qed.

(** ** One character *)

Lemma consoleintr_char_ok s t c :
  ready_for s t → 0 ≤ c < 256 →
  ∃ s', consoleintr_char c s = Ok (c =? 16, s') ∧ ready_for s' (tty_key t c) ∧ rest s' = rest s.
Proof.
  intros H Hc. destruct t as [rd ed n]. pose proof H as (Hr & Hs & Hl). simpl in Hl. rw /consoleintr_char /tty_key. mget. cbn [id t_ready t_edit t_wakeups].
  destruct (Z.eqb_spec c 16) as [->|H16]; [by exists s|].
  destruct (Z.eqb_spec c 21) as [->|H21].
  { destruct (kill_line_ok rd n (Z.to_nat INPUT_BUF + 1) ed s H) as (s' & E & H' & F'); [|by mgo E; exists s'].
    pose proof (rp_len _ _ Hr) as Hn. simpl in Hn. rw length_app in Hn. change (Z.to_nat INPUT_BUF) with 128%nat. lia. }
  destruct ((c =? 8) || (c =? 127)).
  { rw (rep_empty _ _ _ _ Hr). destruct ed as [|x ed _] using rev_ind; simpl; [by exists s|].
    rewrite -> bool_decide_eq_false_2 by (by destruct ed). simpl. rw bind_assoc. mget.
    destruct (consputc_ok BACKSPACE (set_input (k_buf s) (k_r s) (k_w s) (u32 (k_e s - 1)) s) Hs) as (s1 & E1 & Hs1). mgo E1.
    exists s1. split; [done|]. rw removelast_last. split; [|rw (rest_echoes _ _ Hs1) //].
    apply Forall_app in Hl as [Hl _]. apply (ready_for_echoes _ _ _ (conj (rep_pop _ _ _ _ _ Hr) (conj Hs Hl)) Hs1). }
  pose proof (rp_len _ _ Hr) as Hn. simpl in Hn. pose proof (rp_e _ _ Hr) as He. simpl in He.
  assert ((u32 (k_e s - k_r s) <? INPUT_BUF) = negb (bool_decide (length (rd ++ ed) = 128%nat))) as ->.
  { rw He u32_sub_l /INPUT_BUF u32_small; [lia|]. case_bool_decide; [apply Z.ltb_ge|apply Z.ltb_lt]; lia. }
  rw -negb_orb. destruct ((c =? 0) || bool_decide (length (rd ++ ed) = 128%nat)) eqn:Eb; [by exists s|].
  apply orb_false_iff in Eb as [_ Eb%bool_decide_eq_false]. cbn [negb when]. set (c' := if c =? 13 then 10 else c).
  assert (0 ≤ c' < 256) as Hc' by (rw /c'; destruct (c =? 13); lia). rw bind_assoc. mget. rw u8_small // /INPUT_BUF.
  pose proof (rep_push s rd ed n c' Hr ltac:(lia)) as Hr1.
  set (s1 := set_input (<[Z.to_nat (k_e s mod 128) := c']> (k_buf s)) _ _ _ s) in *.
  destruct (consputc_ok c' s1 Hs) as (s2 & E2 & Hs2). rw bind_assoc. mgo E2. rw bind_assoc. mget. cbn [id].
  assert (rep s2 (mkTty rd (ed ++ [c']) n)) as Hr2 by by apply (rep_echoes s1).
  assert ((k_e s2 =? u32 (k_r s2 + 128)) = bool_decide (length (rd ++ ed ++ [c']) = 128%nat)) as ->.
  { rw (rp_e _ _ Hr2) /=. pose proof (rp_len _ _ Hr2) as Hn2. simpl in Hn2. case_bool_decide as Hb.
    - apply Z.eqb_eq. by rw Hb.
    - apply Z.eqb_neq. intros E%u32_add_inj; lia. }
  destruct (_ || _ || _) eqn:Ec; cbn [when]; mget.
  - eexists. split; [reflexivity|]. split; [|transitivity (rest s2); [done|rw (rest_echoes _ _ Hs2) //]].
    split; [exact (rep_commit _ _ _ _ Hr2)|]. split; [|constructor]. exact (echoes_ok s1 _ Hs Hs2).
  - eexists. split; [reflexivity|]. split; [|rw (rest_echoes _ _ Hs2) //]. split; [done|]. split; [exact (echoes_ok s1 _ Hs Hs2)|].
    apply orb_false_iff in Ec as [[Ec _]%orb_false_iff _]. apply Forall_app. split; [done|]. apply Forall_singleton. lia.
Qed.

(** ** Reading *)

Lemma rep_ready_empty s rd ed n : rep s (mkTty rd ed n) → (k_r s =? k_w s) = bool_decide (rd = []).
Proof.
  intros [_ H2 Hw _ Hl _ _]. simpl in *. rw length_app in Hl. case_bool_decide as H.
  - subst rd. apply Z.eqb_eq. rw Hw. simpl. rw Z.add_0_r u32_small //.
  - apply Z.eqb_neq. rw Hw. intros E. rw -{1}(u32_small (k_r s)) // -{1}(Z.add_0_r (k_r s)) in E. apply u32_add_inj in E; [|lia|lia].
    destruct rd; simpl in E; [done|lia].
Qed.
Lemma rep_take s c rd ed n :
  rep s (mkTty (c :: rd) ed n) →
  at_buf (k_buf s) (k_r s) = c ∧ rep (set_input (k_buf s) (u32 (k_r s + 1)) (k_w s) (k_e s) s) (mkTty rd ed n).
Proof.
  intros [H1 H2 H3 H4 H5 H6 H8]. simpl in *. split.
  - rw -(H6 0%nat c); [done|]. f_equal. lia.
  - split; simpl; try done.
    + apply u32_range.
    + rw H3 u32_add_l. f_equal. lia.
    + rw H4 u32_add_l. f_equal. lia.
    + lia.
    + intros i x Hx. rw /at_buf u32_add_l. rw -(H6 (S i) x); [done|]. rw /at_buf. do 4 f_equal. lia.
Qed.

Lemma consoleread_loop_ok target ed w k : ∀ s rd n dst,
  ready_for s (mkTty rd ed w) → (length rd ≤ k)%nat →
  ∃ s', consoleread_loop k target n dst s = Ok ((tty_read (k_killed s) rd target n dst).1, s') ∧
    ready_for s' (mkTty (tty_read (k_killed s) rd target n dst).2 ed w) ∧ rest s' = rest s.
Proof.
  induction k as [|k IH]; intros s rd n dst H Hk; cbn [consoleread_loop]; destruct rd as [|c rd]; cbn [tty_read];
    (destruct (negb (0 <? n)); [by exists s|]); mget; cbn [id]; rw (rep_ready_empty _ _ _ _ (proj1 H)); simpl; cbn [fst snd].
  1,3: by destruct (k_killed s); exists s.
  { simpl in Hk. lia. }
  destruct H as (Hr & Hs & Hl). destruct (rep_take _ _ _ _ _ Hr) as [-> Hr1]. mget.
  set (s1 := set_input (k_buf s) (u32 (k_r s + 1)) (k_w s) (k_e s) s) in *.
  destruct (c =? 4).
  { destruct (n <? target); simpl; mget; [|by exists s1].
    exists s. split; [|done]. rw /s1 /=. f_equal. f_equal. rw u32_sub_l.
    assert (u32 (k_r s + 1 - 1) = k_r s) as -> by (rw u32_small; pose proof (rp_r _ _ Hr); lia). by destruct s. }
  destruct (c =? 10); [by exists s1|]. change (k_killed s) with (k_killed s1). apply (IH s1 rd); [done|]. simpl in Hk. lia.
Qed.

(** ** Printing *)

Section cprintf.
Context (argp : nat → Z) (str : Z → list Z).
Lemma cprintf_loop_ok fmt : ∀ i s, screen_ok s → ∃ s', cprintf_loop argp str fmt i s = Ok (tt, s') ∧ echoes s s'.
Proof.
  remember (length fmt) as n eqn:En. revert fmt En. induction (lt_wf n) as [n _ IH]. intros fmt -> i s Hs.
  destruct fmt as [|c fmt]; cbn [cprintf_loop]; [exists s; split; [done|by apply echoes_refl]|].
  assert (∀ (m : M cons unit) fmt' i', (∃ s1, m s = Ok (tt, s1) ∧ echoes s s1) → (length fmt' < S (length fmt))%nat →
    ∃ s', (m ;; cprintf_loop argp str fmt' i') s = Ok (tt, s') ∧ echoes s s') as K.
  { intros m fmt' i' (s1 & E1 & H1) Hl. mgo E1. destruct (IH (length fmt') Hl fmt' eq_refl i' s1) as (s2 & E2 & H2); [by apply (echoes_ok s)|].
    exists s2. split; [done|]. by apply (echoes_trans _ s1). }
  destruct (negb (c =? 37)); [apply K; [by apply consputc_ok|lia]|].
  destruct fmt as [|d fmt]; [exists s; split; [done|by apply echoes_refl]|]. simpl in K.
  destruct (d =? 100); [apply K; [by apply consputs_ok|lia]|].
  destruct ((d =? 120) || (d =? 112)); [apply K; [by apply consputs_ok|lia]|].
  destruct (d =? 115); [apply K; [by apply consputs_ok|lia]|].
  destruct (d =? 37); [apply K; [by apply consputc_ok|lia]|].
  destruct (consputc_ok 37 s Hs) as (s1 & E1 & H1). mgo E1. destruct (consputc_ok d s1) as (s2 & E2 & H2); [by apply (echoes_ok s)|]. mgo E2.
  destruct (IH (length fmt) ltac:(simpl; lia) fmt eq_refl i s2) as (s3 & E3 & H3); [apply (echoes_ok s1); [by apply (echoes_ok s)|done]|].
  exists s3. split; [done|]. apply (echoes_trans _ s1); [done|]. by apply (echoes_trans _ s2).
Qed.
Lemma cprintf_ok fmt s : screen_ok s → k_locked s = false → ∃ s', cprintf argp str (Some fmt) s = Ok (tt, s') ∧ echoes s s'.
Proof.
  intros Hs Hl. rw /cprintf. mget. destruct (k_locking s); cbn [when].
  - rw /lock_cons bind_assoc. mget. rw Hl. mget. destruct (cprintf_loop_ok fmt 0 (set_locked true s) Hs) as (s1 & E1 & (m & p & l & -> & Hp & Ho)).
    mgo E1. rw /unlock_cons. mget. simpl. eexists. split; [reflexivity|]. exists m, p, l. split; [|done]. rw -Hl. by destruct s.
  - mget. destruct (cprintf_loop_ok fmt 0 s Hs) as (s1 & E1 & H1). mgo E1. by exists s1.
Qed.
End cprintf.

(** A run of printing calls, each fine when the console is free. *)
Definition prints (m : M cons unit) : Prop :=
  ∀ s, screen_ok s → k_locked s = false → ∃ s', m s = Ok (tt, s') ∧ echoes s s'.
Lemma prints_ret : prints (mret tt).
Proof. intros s Hs _. exists s. split; [done|by apply echoes_refl]. Qed.
Lemma prints_bind m1 m2 : prints m1 → prints m2 → prints (m1 ;; m2).
Proof.
  intros H1 H2 s Hs Hl. destruct (H1 s Hs Hl) as (s1 & E1 & F1). mgo E1.
  destruct (H2 s1) as (s2 & E2 & F2); [by apply (echoes_ok s)|by destruct F1 as (? & ? & ? & -> & _)|].
  exists s2. split; [done|]. by apply (echoes_trans _ s1).
Qed.
Lemma prints_dump_pcs l : prints (dump_pcs l).
Proof.
  induction l as [|pc l IH]; cbn [dump_pcs]; [apply prints_ret|]. destruct (pc =? 0); [apply prints_ret|].
  apply prints_bind; [|done]. intros s. by apply cprintf_ok.
Qed.
Lemma prints_procdump : prints procdump.
Proof.
  intros s Hs Hl. rw /procdump. mget. revert s Hs Hl. enough (∀ l, prints (dump_procs l)) as H by (intros s; apply H).
  induction l as [|p l IH]; cbn [dump_procs]; [apply prints_ret|]. destruct (bool_decide (v_state p = UNUSED)); [done|].
  apply prints_bind; [intros s; by apply cprintf_ok|]. apply prints_bind; [|apply prints_bind; [intros s; by apply cprintf_ok|done]].
  destruct (bool_decide (v_state p = SLEEPING)); [apply prints_dump_pcs|apply prints_ret].
Qed.

(** ** Interrupts *)

(** The sources of characters, and what an interrupt from one leaves alone. *)
Definition source (s : cons) := (k_uart s, k_kbd s, k_shift s, k_rx s).
Definition frame (s : cons) := (k_locked s, k_locking s, k_uart s, k_killed s, k_procs s).
Lemma rest_source s s' : rest s' = rest s → source s' = source s.
Proof. rw /rest /source. by intros [= _ _ -> _ -> -> -> _]. Qed.
Lemma rest_frame s s' : rest s' = rest s → frame s' = frame s.
Proof. rw /rest /frame. by intros [= -> -> -> -> _ _ _ ->]. Qed.

Section intr.
(** [Q s l]: the source will return the characters [l], then nothing more. *)
Context (getc : M cons Z) (Q : cons → list Z → Prop).
Hypothesis Q_source : ∀ s s' l, Q s l → source s' = source s → Q s' l.
Hypothesis Q_end : ∀ s, Q s [] → getc s = Ok (-1, s).
Hypothesis Q_next : ∀ s c l t, Q s (c :: l) → ready_for s t → 0 ≤ c < 256 ∧
  ∃ s1, getc s = Ok (c, s1) ∧ Q s1 l ∧ ready_for s1 t ∧ frame s1 = frame s.

Lemma consoleintr_loop_ok l : ∀ k s t dump, (length l < k)%nat →
  Q s l → ready_for s t → ∃ s', consoleintr_loop getc k dump s = Ok (dump || existsb (λ c, c =? 16) l, s') ∧
    ready_for s' (foldl tty_key t l) ∧ Q s' [] ∧ frame s' = frame s.
Proof.
  induction l as [|c l IH]; intros [|k] s t dump Hk HQ H; simpl in Hk; try lia; cbn [consoleintr_loop].
  { mgo (Q_end s HQ). exists s. simpl. by rw orb_false_r. }
  destruct (Q_next s c l t HQ H) as (Hc & s1 & E1 & HQ1 & H1 & F1). mgo E1. rewrite -> (proj2 (Z.ltb_ge _ _)) by lia.
  destruct (consoleintr_char_ok s1 t c H1 Hc) as (s2 & E2 & H2 & F2). mgo E2.
  destruct (IH k s2 (tty_key t c) (dump || (c =? 16)) ltac:(lia) (Q_source s1 s2 l HQ1 (rest_source _ _ F2)) H2) as (s3 & E3 & H3 & HQ3 & F3).
  exists s3. cbn [existsb]. rw orb_assoc. split; [exact E3|]. split; [done|]. split; [done|]. by rw F3 (rest_frame _ _ F2).
Qed.

Lemma consoleintr_ok k l s t :
  (length l < k)%nat → Q s l → ready_for s t → k_locked s = false →
  ∃ s', consoleintr getc k s = Ok (tt, s') ∧ ready_for s' (foldl tty_key t l) ∧ Q s' [] ∧ frame s' = frame s.
Proof.
  intros Hk HQ H Hl. rw /consoleintr /lock_cons bind_assoc. mget. rw Hl. mget.
  destruct (consoleintr_loop_ok l k (set_locked true s) t false) as (s1 & E1 & H1 & HQ1 & F1);
    [done|by apply (Q_source s)|by destruct H as ([] & ? & ?)|]. mgo E1.
  rw /unlock_cons bind_assoc. mget. injection F1 as F1 F2 F3 F4 F5. rw F1 /=. mget. set (s2 := set_locked false s1).
  assert (ready_for s2 (foldl tty_key t l)) as H2 by by destruct H1 as ([] & ? & ?).
  assert (Q s2 []) as HQ2 by by apply (Q_source s1).
  assert (frame s2 = frame s) as E by (rw /frame /s2 /= F2 F3 F4 F5 Hl //).
  destruct (existsb _ l); cbn [when]; [|by exists s2].
  destruct (prints_procdump s2) as (s3 & E3 & H3); [apply H2|done|]. exists s3. split; [done|].
  split; [by apply (ready_for_echoes s2)|]. split; [apply (Q_source s2); [done|by apply rest_source, rest_echoes]|].
  by rw (rest_frame _ _ (rest_echoes _ _ H3)).
Qed.
End intr.

(** The characters of a run of scan codes, and the state of the keyboard after it. *)
Fixpoint kbd_chars (shift : Z) (q : list Z) : list Z * Z :=
  match q with
  | [] => ([], shift)
  | d :: q => let '(c, sh) := kbd_code shift d in let '(l, sh) := kbd_chars sh q in (c :: l, sh)
  end.

Lemma map_range i d : 0 ≤ charcode i !!! d < 256.
Proof.
  assert (Forall (λ c, 0 ≤ c < 256) normalmap ∧ Forall (λ c, 0 ≤ c < 256) shiftmap ∧ Forall (λ c, 0 ≤ c < 256) ctlmap) as (H1 & H2 & H3).
  { split; [|split]; refine (bool_decide_eq_true_1 _ _); vm_compute; reflexivity. }
  assert (∀ l, Forall (λ c, 0 ≤ c < 256) l → 0 ≤ l !!! d < 256) as K.
  { intros l H. rw list_lookup_total_alt. destruct (l !! d) as [c|] eqn:E; simpl; [|done]. by apply (Forall_lookup_1 _ _ _ _ H E). }
  rw /charcode. destruct (i =? 0); [by apply K|]. destruct (i =? 1); by apply K.
Qed.
Lemma kbd_code_range shift d : 0 ≤ (kbd_code shift d).1 < 256.
Proof.
  rw /kbd_code. destruct (d =? 0xE0); [done|]. destruct (negb (Z.land d 0x80 =? 0)); [done|].
  destruct (if negb (Z.land shift E0ESC =? 0) then _ else _) as [data sh]. cbn [fst].
  pose proof (map_range (Z.land (Z.lxor (Z.lor sh (shiftcode !!! Z.to_nat data)) (togglecode !!! Z.to_nat data)) (Z.lor CTL SHIFT)) (Z.to_nat data)) as H.
  destruct (negb _); [|done]. destruct ((97 <=? _) && _) eqn:E1; [lia|]. destruct ((65 <=? _) && _) eqn:E2; [lia|done].
Qed.

Lemma kbdintr_ok s t :
  ready_for s t → k_locked s = false →
  let '(l, sh) := kbd_chars (k_shift s) (k_kbd s) in
  ∃ s', kbdintr s = Ok (tt, s') ∧ ready_for s' (foldl tty_key t l) ∧ k_kbd s' = [] ∧ k_shift s' = sh ∧ k_rx s' = k_rx s ∧ frame s' = frame s.
Proof.
  intros H Hl. destruct (kbd_chars (k_shift s) (k_kbd s)) as [l sh] eqn:E. rw /kbdintr. mget.
  assert (length (k_kbd s) = length l) as ->.
  { clear -E. revert E. generalize (k_shift s). revert l. induction (k_kbd s) as [|d q IH]; intros l x; simpl; [by intros [= <- _]|].
    destruct (kbd_code x d) as [c y]. destruct (kbd_chars y q) as [l' z] eqn:E'. intros [= <- ->]. simpl. f_equal. by apply (IH l' y). }
  destruct (consoleintr_ok kbdgetc (λ s' l, kbd_chars (k_shift s') (k_kbd s') = (l, sh) ∧ k_rx s' = k_rx s)) with (k := S (length l)) (l := l) (s := s) (t := t)
    as (s' & E' & H' & [HQ' HR'] & F'); try done; try lia.
  - intros s1 s2 l1 HQ [= _ E1 E2 E3]. by rw E1 E2 E3.
  - intros s1 [HQ _]. rw /kbdgetc. mget. destruct (k_kbd s1) as [|d q]; [done|]. simpl in HQ. destruct (kbd_code _ d), (kbd_chars _ q). done.
  - intros s1 c l1 t1 [HQ HR] H1. rw /kbdgetc. mget. destruct (k_kbd s1) as [|d q] eqn:Ek; [done|]. simpl in HQ. mget.
    pose proof (kbd_code_range (k_shift s1) d) as Hc. destruct (kbd_code (k_shift s1) d) as [c' sh']. destruct (kbd_chars sh' q) as [l2 sh2] eqn:E2.
    injection HQ as -> -> ->. split; [done|]. mget. eexists. split; [reflexivity|]. split; [done|]. split; [by destruct H1 as ([] & ? & ?)|done].
  - exists s'. do 2 (split; [done|]). destruct (k_kbd s') as [|d q]; [simpl in HQ'; by injection HQ' as <-|].
    simpl in HQ'. destruct (kbd_code _ d), (kbd_chars _ q). done.
Qed.

Lemma uartintr_ok s t :
  ready_for s t → k_locked s = false → Forall (λ c, 0 ≤ c < 256) (k_rx s) →
  ∃ s', uartintr s = Ok (tt, s') ∧ ready_for s' (foldl tty_key t (if k_uart s then k_rx s else [])) ∧
    k_rx s' = (if k_uart s then [] else k_rx s) ∧ k_kbd s' = k_kbd s ∧ k_shift s' = k_shift s ∧ frame s' = frame s.
Proof.
  intros H Hl Hrx. rw /uartintr. mget. set (l := if k_uart s then k_rx s else []).
  destruct (consoleintr_ok uartgetc (λ s' l, k_uart s' = k_uart s ∧ (k_uart s = true → k_rx s' = l ∧ Forall (λ c, 0 ≤ c < 256) l) ∧
    (k_uart s = false → l = [] ∧ k_rx s' = k_rx s) ∧ k_kbd s' = k_kbd s ∧ k_shift s' = k_shift s))
    with (k := S (length (k_rx s))) (l := l) (s := s) (t := t) as (s' & E' & H' & (_ & HQ1 & HQ2 & HQ3 & HQ4) & F'); try done.
  - intros s1 s2 l1 HQ [= E1 E2 E3 E4]. by rw E1 E2 E3 E4.
  - intros s1 (E1 & E2 & _). rw /uartgetc. mget. rw E1. destruct (k_uart s); simpl; [|done]. mget. by destruct (E2 eq_refl) as [-> _].
  - intros s1 c l1 t1 (E1 & E2 & E3 & E4 & E5) H1. rw /uartgetc. mget. rw E1. destruct (k_uart s); simpl; [|by destruct (E3 eq_refl)]. mget.
    destruct (E2 eq_refl) as [Er [Hc Hl1]%Forall_cons]. rw Er. mget. split; [done|]. eexists. split; [reflexivity|]. split; [done|].
    split; [by destruct H1 as ([] & ? & ?)|done].
  - rw /l. destruct (k_uart s); simpl; lia.
  - rw /l. split; [done|]. by destruct (k_uart s).
  - exists s'. do 2 (split; [done|]). split; [|done]. destruct (k_uart s); [by destruct (HQ1 eq_refl)|by destruct (HQ2 eq_refl)].
Qed.

(** ** The console as a system *)

(** Keys are pressed, bytes arrive, a process reads, and is woken while it waits. *)
Inductive event := EKeys (codes : list Z) | ESerial (bytes : list Z) | ERead (n : Z) | EWake.
(** The reader in the kernel: how much it asked for, how much is to go, and what it has. *)
Abbreviation reader := (option (Z * Z * list Z)).
Definition outcome (target : Z) (r : reading) : list (Z * list Z) * reader :=
  match r with
  | Done x dst => ([(x, dst)], None)
  | Waiting n dst => ([], Some (target, n, dst))
  end.
Definition console_step (rd : reader) (ev : event) : M cons (list (Z * list Z) * reader) :=
  match ev, rd with
  | EKeys codes, _ => modify (λ s, set_kbd (k_kbd s ++ codes) (k_shift s) s) ;; kbdintr ;; mret ([], rd)
  | ESerial bytes, _ => modify (λ s, set_rx (k_rx s ++ bytes) s) ;; uartintr ;; mret ([], rd)
  | ERead n, None => r ← consoleread_run n n []; mret (outcome n r)
  | EWake, Some (target, n, dst) => r ← consoleread_run target n dst; mret (outcome target r)
  | _, _ => mret ([], rd)
  end.
Fixpoint console_run (rd : reader) (evs : list event) : M cons (list (Z * list Z) * reader) :=
  match evs with
  | [] => mret ([], rd)
  | ev :: evs =>
      r ← console_step rd ev;
      r' ← console_run r.2 evs;
      mret (r.1 ++ r'.1, r'.2)
  end.

(** The same events on the queues. *)
Definition tty_step (killed : bool) (sh : Z) (t : tty) (rd : reader) (ev : event) : list (Z * list Z) * reader * Z * tty :=
  let read target n dst :=
    let '(r, ready) := tty_read killed (t_ready t) target n dst in
    (outcome target r, sh, mkTty ready (t_edit t) (t_wakeups t)) in
  match ev, rd with
  | EKeys codes, _ => let '(l, sh) := kbd_chars sh codes in ([], rd, sh, foldl tty_key t l)
  | ESerial bytes, _ => ([], rd, sh, foldl tty_key t bytes)
  | ERead n, None => read n n []
  | EWake, Some (target, n, dst) => read target n dst
  | _, _ => ([], rd, sh, t)
  end.
Fixpoint tty_run (killed : bool) (sh : Z) (t : tty) (rd : reader) (evs : list event) : list (Z * list Z) * reader * tty :=
  match evs with
  | [] => ([], rd, t)
  | ev :: evs =>
      let '(out, rd, sh, t) := tty_step killed sh t rd ev in
      let '(out', rd, t) := tty_run killed sh t rd evs in
      (out ++ out', rd, t)
  end.

(** Between events: the lock is free and nothing waits at the devices. *)
Record quiet (s : cons) (t : tty) (sh : Z) : Prop := {
  qu_ready : ready_for s t;
  qu_locked : k_locked s = false;
  qu_uart : k_uart s = true;
  qu_kbd : k_kbd s = [];
  qu_shift : k_shift s = sh;
  qu_rx : k_rx s = [];
}.
Definition event_ok (ev : event) : Prop := match ev with ESerial bytes => Forall (λ c, 0 ≤ c < 256) bytes | _ => True end.

Lemma consoleread_run_ok s t sh target n dst :
  quiet s t sh →
  let '(r, ready) := tty_read (k_killed s) (t_ready t) target n dst in
  ∃ s', consoleread_run target n dst s = Ok (r, s') ∧ quiet s' (mkTty ready (t_edit t) (t_wakeups t)) sh ∧ k_killed s' = k_killed s.
Proof.
  intros [H1 H2 H3 H4 H5 H6]. destruct t as [rd ed w]. simpl.
  rw /consoleread_run /lock_cons bind_assoc. mget. rw H2. mget.
  assert (ready_for (set_locked true s) (mkTty rd ed w)) as H1' by by destruct H1 as ([] & ? & ?).
  destruct (consoleread_loop_ok target ed w (Z.to_nat INPUT_BUF) (set_locked true s) rd n dst H1') as (s1 & E1 & R1 & F1).
  { destruct H1 as (Hr & _). pose proof (rp_len _ _ Hr) as Hl. simpl in Hl. rw length_app in Hl. change (Z.to_nat INPUT_BUF) with 128%nat. lia. }
  change (k_killed (set_locked true s)) with (k_killed s) in *.
  destruct (tty_read (k_killed s) rd target n dst) as [r ready]. cbn [fst snd] in E1, R1. mgo E1. injection F1 as F1 F2 F3 F4 F5 F6 F7 F8.
  rw /unlock_cons bind_assoc. mget. rw F1. mget. eexists. split; [reflexivity|]. split; [|done].
  split; simpl; [by destruct R1 as ([] & ? & ?)|done|by rw F3|by rw F5|by rw F6|by rw F7].
Qed.

Lemma console_step_ok s t sh rd ev :
  quiet s t sh → event_ok ev →
  let '(out, rd', sh', t') := tty_step (k_killed s) sh t rd ev in
  ∃ s', console_step rd ev s = Ok ((out, rd'), s') ∧ quiet s' t' sh' ∧ k_killed s' = k_killed s.
Proof.
  intros H Hev. destruct ev as [codes|bytes|n|]; cbn [tty_step console_step].
  - destruct H as [H1 H2 H3 H4 H5 H6]. mget. rw H4 app_nil_l H5.
    pose proof (kbdintr_ok (set_kbd codes sh s) t) as K. simpl in K. destruct (kbd_chars sh codes) as [l sh'].
    destruct K as (s' & E & K1 & K2 & K3 & K4 & K5); [by destruct H1 as ([] & ? & ?)|done|]. mgo E. injection K5 as F1 F2 F3 F4 F5.
    exists s'. split; [done|]. split; [|done]. split; try done; by rw ?F1 ?F3 ?K4.
  - destruct H as [H1 H2 H3 H4 H5 H6]. mget. rw H6 app_nil_l.
    destruct (uartintr_ok (set_rx bytes s) t) as (s' & E & K1 & K2 & K3 & K4 & K5); [by destruct H1 as ([] & ? & ?)|done|done|].
    simpl in K1, K2. rw H3 in K1, K2. mgo E. injection K5 as F1 F2 F3 F4 F5.
    exists s'. split; [done|]. split; [|done]. split; try done; by rw ?F1 ?F3 ?K3 ?K4.
  - destruct rd as [rd|]; [by exists s|].
    pose proof (consoleread_run_ok s t sh n n [] H) as K. destruct (tty_read _ _ _ _ _) as [r ready].
    destruct K as (s' & E & K1 & K2). mgo E. destruct (outcome n r) as [out rd']. by exists s'.
  - destruct rd as [[[target n] dst]|]; [|by exists s].
    pose proof (consoleread_run_ok s t sh target n dst H) as K. destruct (tty_read _ _ _ _ _) as [r ready].
    destruct K as (s' & E & K1 & K2). mgo E. destruct (outcome target r) as [out rd']. by exists s'.
Qed.

Lemma console_run_ok evs : ∀ s t sh rd,
  quiet s t sh → Forall event_ok evs →
  let '(out, rd', t') := tty_run (k_killed s) sh t rd evs in
  ∃ s' sh', console_run rd evs s = Ok ((out, rd'), s') ∧ quiet s' t' sh'.
Proof.
  induction evs as [|ev evs IH]; intros s t sh rd H Hev; cbn [tty_run console_run]; [by exists s, sh|].
  apply Forall_cons in Hev as [Hev Hevs]. pose proof (console_step_ok s t sh rd ev H Hev) as K.
  destruct (tty_step _ _ _ _ _) as [[[out rd1] sh1] t1]. destruct K as (s1 & E1 & H1 & F1).
  specialize (IH s1 t1 sh1 rd1 H1 Hevs). rw F1 in IH. destruct (tty_run _ _ _ _ _) as [[out' rd2] t2].
  destruct IH as (s2 & sh2 & E2 & H2). exists s2, sh2. mgo E1. cbn [snd fst]. by mgo E2.
Qed.

(** C24. The line discipline: whatever keys are pressed, bytes arrive and reads are made, in
    any order, the handlers never panic or lose the lock, and every read returns, or waits,
    as two queues say: the line being edited, which a backspace or a kill takes back, and
    the finished lines, from which a read takes up to a newline.  The buffer never holds
    more than [INPUT_BUF] characters, its indices wrap around, and each line finished wakes
    the readers once. *)
Theorem console_refines_tty s t sh rd evs :
  quiet s t sh → Forall event_ok evs →
  let '(out, rd', t') := tty_run (k_killed s) sh t rd evs in
  ∃ s' sh', console_run rd evs s = Ok ((out, rd'), s') ∧ quiet s' t' sh'.
Proof. apply console_run_ok. Qed.

(** ** Typing a line *)

(** The key with a character on it, in one of the maps. *)
Definition key_of (m : list Z) (c : Z) : option Z := (λ x, Z.of_nat x.1) <$> list_find (λ d, d = c) m.
(** Press and release it, with the left shift key held when it takes one. *)
Definition keystrokes (c : Z) : list Z :=
  match key_of normalmap c with
  | Some d => [d; d + 128]
  | None => match key_of shiftmap c with Some d => [0x2A; d; d + 128; 0x2A + 128] | None => [] end
  end.
Definition typed (text : list Z) : list Z := concat (keystrokes <$> text).
Definition printable (c : Z) : Prop := 32 ≤ c ≤ 126.

Lemma kbd_chars_app q1 q2 sh :
  kbd_chars sh (q1 ++ q2) = ((kbd_chars sh q1).1 ++ (kbd_chars (kbd_chars sh q1).2 q2).1, (kbd_chars (kbd_chars sh q1).2 q2).2).
Proof.
  revert sh. induction q1 as [|d q1 IH]; intros sh; cbn [app kbd_chars fst snd].
  - by destruct (kbd_chars sh q2).
  - destruct (kbd_code sh d) as [c sh1]. rw IH. destruct (kbd_chars sh1 q1) as [l1 sh2]. cbn [fst snd]. by destruct (kbd_chars sh2 q2).
Qed.

(** Every printable character, and the newline, can be typed; the shift state is restored. *)
Lemma keystrokes_ok c :
  printable c ∨ c = 10 → (filter (λ c, c ≠ 0) (kbd_chars 0 (keystrokes c)).1, (kbd_chars 0 (keystrokes c)).2) = ([c], 0).
Proof.
  intros Hc. assert (Forall (λ c, (filter (λ c, c ≠ 0) (kbd_chars 0 (keystrokes c)).1, (kbd_chars 0 (keystrokes c)).2) = ([c], 0)) (10 :: seqZ 32 95)) as H.
  { refine (bool_decide_eq_true_1 _ _). vm_compute. reflexivity. }
  rw Forall_forall in H. apply H. apply elem_of_cons. rw elem_of_seqZ. rw /printable in Hc. lia.
Qed.
Lemma typed_ok l : Forall (λ c, printable c ∨ c = 10) l →
  filter (λ c, c ≠ 0) (kbd_chars 0 (typed l)).1 = l ∧ (kbd_chars 0 (typed l)).2 = 0.
Proof.
  rw /typed. induction 1 as [|c l Hc _ [IH1 IH2]]; [done|]. cbn [fmap list_fmap concat]. rw kbd_chars_app. cbn [fst snd].
  pose proof (keystrokes_ok c Hc) as K. injection K as K1 K2. by rw K2 filter_app K1 IH1.
Qed.

Lemma tty_key_skip t l : foldl tty_key t l = foldl tty_key t (filter (λ c, c ≠ 0) l).
Proof.
  revert t. induction l as [|c l IH]; intros t; [done|]. rw filter_cons. case_decide as H; [apply IH|].
  subst c. cbn [foldl]. by rw -IH.
Qed.
Lemma tty_line text : ∀ ed w, Forall printable text → (length ed + length text < 128)%nat →
  foldl tty_key (mkTty [] ed w) (text ++ [10]) = mkTty (ed ++ text ++ [10]) [] (S w).
Proof.
  induction text as [|c text IH]; intros ed w Ht Hl; simpl in Hl; cbn [app foldl].
  - rw /tty_key. cbn [t_ready t_edit t_wakeups app orb Z.eqb Pos.eqb]. rewrite -> bool_decide_eq_false_2 by lia. done.
  - apply Forall_cons in Ht as [Hc Ht]. rw /printable in Hc.
    assert (tty_key (mkTty [] ed w) c = mkTty [] (ed ++ [c]) w) as ->.
    { rw /tty_key. cbn [t_ready t_edit t_wakeups app].
      do 5 (rewrite -> (proj2 (Z.eqb_neq c _)) by lia). cbn [orb]. rewrite -> bool_decide_eq_false_2 by lia.
      do 3 (rewrite -> (proj2 (Z.eqb_neq c _)) by lia). cbn [orb].
      by rewrite -> bool_decide_eq_false_2 by (rewrite -> length_app; simpl; lia). }
    rw IH //; [|by rw -app_assoc]. rw length_app /=. lia.
Qed.
Lemma tty_read_line killed text : ∀ target n dst, Forall printable text → Z.of_nat (length text) < n →
  tty_read killed (text ++ [10]) target n dst = (Done (target - (n - Z.of_nat (length text) - 1)) (dst ++ text ++ [10]), []).
Proof.
  induction text as [|c text IH]; intros target n dst Ht Hn; cbn [app tty_read length]; simpl length in Hn;
    rewrite -> (proj2 (Z.ltb_lt 0 n)) by lia; cbn [negb].
  - cbn. do 3 f_equal. lia.
  - apply Forall_cons in Ht as [Hc Ht]. rw /printable in Hc.
    rewrite -> (proj2 (Z.eqb_neq c 4)), (proj2 (Z.eqb_neq c 10)) by lia. rw IH //; [lia|]. rw -app_assoc. do 3 f_equal. lia.
Qed.

(** From the keyboard to a reader: a line of printable text typed at an idle console,
    each character with the key and the shift that carry it, is what the next read returns,
    newline included, when it asks for enough; the buffer is then empty again. *)
Theorem typed_line_is_read s w text n :
  quiet s (mkTty [] [] w) 0 → Forall printable text → (length text < 128)%nat → Z.of_nat (length text) < n →
  ∃ s' sh, console_run None [EKeys (typed (text ++ [10])); ERead n] s = Ok (([(Z.of_nat (length text) + 1, text ++ [10])], None), s') ∧
    quiet s' (mkTty [] [] (S w)) sh.
Proof.
  intros Hq Ht Hl Hn.
  pose proof (console_run_ok [EKeys (typed (text ++ [10])); ERead n] s _ 0 None Hq ltac:(by repeat constructor)) as K.
  assert (Forall (λ c, printable c ∨ c = 10) (text ++ [10])) as Hp.
  { apply Forall_app. split; [eapply Forall_impl; [done|]; by left|by repeat constructor; right]. }
  destruct (typed_ok _ Hp) as [E1 E2]. cbn [tty_run tty_step] in K.
  destruct (kbd_chars 0 (typed (text ++ [10]))) as [l sh]. simpl in E1, E2. subst sh.
  rw tty_key_skip E1 tty_line // in K. cbn [tty_run tty_step t_ready t_edit t_wakeups app] in K.
  rw tty_read_line // in K. cbn [outcome app] in K. destruct K as (s' & sh' & E & H). exists s', sh'. split; [|done].
  rw E. do 5 f_equal. lia.
Qed.

(** ** An example: the console after [consoleinit] *)

Definition boot_cons : cons :=
  mkCons false true false (λ _, 0) 0 true [] (replicate 128 0) 0 0 0 0 false [] 0 [] [].
Lemma boot_quiet : quiet boot_cons (mkTty [] [] 0) 0.
Proof.
  split; try reflexivity. split; [|split; [split; [reflexivity|simpl; lia]|constructor]].
  split; simpl; try reflexivity; try lia; intros; done.
Qed.
Lemma console_refines_tty_witness :
  ∃ s' sh, console_run None [ERead 5; ESerial [97; 8; 98; 13]; EWake] boot_cons = Ok (([(2, [98; 10])], None), s') ∧
    quiet s' (mkTty [] [] 1) sh.
Proof.
  pose proof (console_refines_tty boot_cons (mkTty [] [] 0) 0 None [ERead 5; ESerial [97; 8; 98; 13]; EWake] boot_quiet) as K.
  assert (Forall event_ok [ERead 5; ESerial [97; 8; 98; 13]; EWake]) as H.
  { constructor; [exact I|]. constructor; [|constructor; [exact I|constructor]]. repeat constructor; lia. }
  exact (K H).
Defined.
Lemma typed_line_is_read_witness :
  ∃ s' sh, console_run None [EKeys (typed [72; 105; 10]); ERead 100] boot_cons = Ok (([(3, [72; 105; 10])], None), s') ∧
    quiet s' (mkTty [] [] 1) sh.
Proof.
  apply (typed_line_is_read boot_cons 0 [72; 105] 100 boot_quiet); [repeat constructor; rw /printable; lia|simpl; lia|simpl; lia].
Defined.

#[local] Instance ex_inst : BlockStore lstate := ex_store.
Lemma consolewrite_shows_witness :
  ∃ (st : lstate) k', let s := mkFs st ex_sb [ex_empty T_DEV] boot_cons 1 0 in
    consolewrite 0 [104; 105] 2 s = Ok (2, set_fdev k' s) ∧ shown k' = [cell 104; cell 105] ∧ k_serial k' = [104; 105].
Proof.
  destruct ex_boot as (st & _). exists st. cbn zeta.
  destruct (consolewrite_shows (mkFs st ex_sb [ex_empty T_DEV] boot_cons 1 0) 0 [104; 105]) as (k' & E & Hs & _ & _ & Hu);
    [simpl; lia|reflexivity|reflexivity|simpl; lia|split; [reflexivity|simpl; lia]|reflexivity|repeat constructor; lia|].
  exists k'. split; [exact E|]. split; [exact Hs|exact Hu].
Defined.
