(* ===== verification/Mp.v ===== *)
(** * Finding the processors (mp.c, mp.h)

    The firmware's tables are bytes of physical memory, [mem a] being the byte at address
    [a].  [mpinit] reads the processors' APIC ids from them.  Its loop ends when every entry
    has a type it knows, and then it has read exactly the table's processors and I/O APIC;
    an entry of another type is never passed. *)

From S2P Require Import Prelude Params.

Section mp.
Context (mem : Z → Z).

Definition mem16 (a : Z) : Z := mem a + 256 * mem (a + 1).
Definition mem32 (a : Z) : Z := mem16 a + 65536 * mem16 (a + 2).
Definition bytes_at (a : Z) (n : nat) : list Z := (λ i, mem (a + i)) <$> seqZ 0 (Z.of_nat n).

(** The fields of [struct mp] and [struct mpconf], by their offsets. *)
Definition sizeof_mp : Z := 16.
Definition mp_physaddr (p : Z) : Z := mem32 (p + 4).
Definition mp_imcrp (p : Z) : Z := mem (p + 12).
Definition sizeof_mpconf : Z := 44.
Definition conf_length (c : Z) : Z := mem16 (c + 4).
Definition conf_version (c : Z) : Z := mem (c + 6).
Definition conf_lapicaddr (c : Z) : Z := mem32 (c + 36).

(** [sum] is returned as a [uchar]. *)
Definition sum (a : Z) (len : Z) : Z := u8 (Zsum id (bytes_at a (Z.to_nat len))).

Fixpoint mpsearch1_loop (k : nat) (p e : Z) : option Z :=
  match k with
  | O => None
  | S k =>
      if negb (p <? e) then None
      else if bool_decide (bytes_at p 4 = [95; 77; 80; 95]) && (sum p sizeof_mp =? 0) then Some p
      else mpsearch1_loop k (p + sizeof_mp) e
  end.
Definition mpsearch1 (a len : Z) : option Z := mpsearch1_loop (Z.to_nat (len / sizeof_mp + 1)) a (a + len).

Definition mpsearch : option Z :=
  let bda := 0x400 in
  let p := Z.shiftl (Z.lor (Z.shiftl (mem (bda + 0x0F)) 8) (mem (bda + 0x0E))) 4 in
  let found :=
    if negb (p =? 0) then mpsearch1 p 1024
    else mpsearch1 (u32 (Z.lor (Z.shiftl (mem (bda + 0x14)) 8) (mem (bda + 0x13)) * 1024 - 1024)) 1024 in
  match found with
  | Some mp => Some mp
  | None => mpsearch1 0xF0000 0x10000
  end.

(** The addresses of the floating pointer and of the configuration table. *)
Definition mpconfig : option (Z * Z) :=
  match mpsearch with
  | None => None
  | Some mp =>
      if mp_physaddr mp =? 0 then None else
      let conf := mp_physaddr mp in
      if negb (bool_decide (bytes_at conf 4 = [80; 67; 77; 80])) then None else
      if negb (conf_version conf =? 1) && negb (conf_version conf =? 4) then None else
      if negb (sum conf (conf_length conf) =? 0) then None else
      Some (mp, conf)
  end.

Definition MPPROC : Z := 0.
Definition MPBUS : Z := 1.
Definition MPIOAPIC : Z := 2.
Definition MPIOINTR : Z := 3.
Definition MPLINTR : Z := 4.

(** The APIC ids of [cpus], whose number is [ncpu], and [ioapicid]. *)
Record mpstate := mkMp { m_cpus : list Z; m_ioapicid : Z }.

(** The loop over the entries from [p] to [e].  The [break] of the default case leaves the
    [switch] and not the loop, so that [p] stays where it is.  [None]: not finished within
    [k] rounds. *)
Fixpoint mpinit_loop (k : nat) (p e : Z) (s : mpstate) (ismp : bool) : option (mpstate * bool) :=
  if negb (p <? e) then Some (s, ismp) else
  match k with
  | O => None
  | S k =>
      let t := mem p in
      if t =? MPPROC then
        let s := if Z.of_nat (length (m_cpus s)) <? NCPU then mkMp (m_cpus s ++ [mem (p + 1)]) (m_ioapicid s) else s in
        mpinit_loop k (p + 20) e s ismp
      else if t =? MPIOAPIC then mpinit_loop k (p + 8) e (mkMp (m_cpus s) (mem (p + 1))) ismp
      else if (t =? MPBUS) || (t =? MPIOINTR) || (t =? MPLINTR) then mpinit_loop k (p + 8) e s ismp
      else mpinit_loop k p e s false
  end.
Inductive mpresult := MpOk (s : mpstate) (lapic imcrp : Z) | MpPanic (msg : string) | MpLoops.
Definition mpinit (k : nat) : mpresult :=
  match mpconfig with
  | None => MpPanic "Expect to run on an SMP"
  | Some (mp, conf) =>
      match mpinit_loop k (conf + sizeof_mpconf) (conf + conf_length conf) (mkMp [] 0) true with
      | None => MpLoops
      | Some (s, ismp) =>
          if ismp then MpOk s (conf_lapicaddr conf) (mp_imcrp mp) else MpPanic "Didn't find a suitable machine"
      end
  end.

(** ** What it reads *)

(** The entries of a table, as the firmware lays them out. *)
Inductive entry := EProc (apicid : Z) | EIoapic (apicno : Z) | EOther (type : Z).
Definition entry_size (e : entry) : Z := match e with EProc _ => 20 | _ => 8 end.
Definition known (e : entry) : Prop := match e with EOther t => t = 1 ∨ t = 3 ∨ t = 4 | _ => True end.
Definition entry_at (p : Z) (e : entry) : Prop :=
  match e with
  | EProc id => mem p = 0 ∧ mem (p + 1) = id
  | EIoapic n => mem p = 2 ∧ mem (p + 1) = n
  | EOther t => mem p = t
  end.
Fixpoint table_at (p : Z) (es : list entry) : Prop :=
  match es with
  | [] => True
  | e :: es => entry_at p e ∧ table_at (p + entry_size e) es
  end.
Definition table_size (es : list entry) : Z := Zsum entry_size es.

(** The first [NCPU] processors, in order, and the last I/O APIC. *)
Definition cpu_ids (es : list entry) : list Z := omap (λ e, match e with EProc id => Some id | _ => None end) es.
Definition ioapic_id (es : list entry) (d : Z) : Z := foldl (λ d e, match e with EIoapic n => n | _ => d end) d es.

Lemma entry_size_pos e : 8 ≤ entry_size e.
Proof. destruct e; simpl; lia. Qed.
Lemma table_size_nonneg es : 0 ≤ table_size es.
Proof. apply Zsum_nonneg, Forall_true. intros e. pose proof (entry_size_pos e). lia. Qed.

Lemma take_app_full {A} n (l k : list A) : (n ≤ length l)%nat → take n (l ++ k) = take n l.
Proof. apply take_app_le. Qed.

Lemma mpinit_loop_ok es : ∀ k p s ismp,
  table_at p es → Forall known es → (length es ≤ k)%nat → (length (m_cpus s) ≤ Z.to_nat NCPU)%nat →
  mpinit_loop k p (p + table_size es) s ismp =
    Some (mkMp (take (Z.to_nat NCPU) (m_cpus s ++ cpu_ids es)) (ioapic_id es (m_ioapicid s)), ismp).
Proof.
  induction es as [|e es IH]; intros k p s ismp Ht Hk Hn Hc.
  { simpl. replace (p + table_size []) with p by (rw /table_size /=; lia).
    destruct k; cbn [mpinit_loop]; rw Z.ltb_irrefl /= app_nil_r take_ge //; by destruct s. }
  destruct Ht as [He Ht]. apply Forall_cons in Hk as [Hke Hk]. simpl in Hn. destruct k as [|k]; [lia|]. cbn [mpinit_loop].
  pose proof (table_size_nonneg es) as Hpos. pose proof (entry_size_pos e) as Hsz.
  change (table_size (e :: es)) with (entry_size e + table_size es).
  rewrite -> (proj2 (Z.ltb_lt _ _)) by lia. cbn [negb]. rw Z.add_assoc.
  destruct e as [id|n|t]; cbn [entry_at entry_size known] in *.
  - destruct He as [-> ->]. cbn [Z.eqb MPPROC]. rw IH //; [lia| |].
    + destruct (Z.ltb_spec (Z.of_nat (length (m_cpus s))) NCPU); [|done]. rw length_app /=. lia.
    + do 2 f_equal. destruct (Z.ltb_spec (Z.of_nat (length (m_cpus s))) NCPU) as [|Hf]; [cbn; by rw -app_assoc|].
      cbn [ioapic_id foldl]. f_equal. rewrite -> !take_app_full by lia. done.
  - destruct He as [-> ->]. cbn [Z.eqb Pos.eqb MPPROC MPIOAPIC]. rw IH //. lia.
  - rw He. assert ((t =? MPPROC) = false ∧ (t =? MPIOAPIC) = false ∧ ((t =? MPBUS) || (t =? MPIOINTR) || (t =? MPLINTR)) = true) as (-> & -> & ->)
      by (destruct Hke as [-> | [-> | -> ] ]; done).
    rw IH //. lia.
Qed.

(** On a machine whose configuration table is valid and has only entries of the types
    the specification lists, [mpinit] finishes and has the APIC ids of the first [NCPU]
    processors, in the table's order, and the id of the last I/O APIC. *)
Theorem mpinit_reads_table mp conf es :
  mpconfig = Some (mp, conf) → table_at (conf + sizeof_mpconf) es → Forall known es →
  conf_length conf = sizeof_mpconf + table_size es →
  ∃ k, mpinit k = MpOk (mkMp (take (Z.to_nat NCPU) (cpu_ids es)) (ioapic_id es 0)) (conf_lapicaddr conf) (mp_imcrp mp).
Proof.
  intros Hm Ht Hk Hl. exists (length es). rw /mpinit Hm Hl Z.add_assoc mpinit_loop_ok //. simpl. lia.
Qed.

(** An entry of any other type stops [mpinit] from ever finishing: however many rounds
    it runs, it is still in the loop, and never reports that the machine is not suitable. *)
Theorem mpinit_unknown_entry_loops mp conf es t :
  mpconfig = Some (mp, conf) → table_at (conf + sizeof_mpconf) (es ++ [EOther t]) → Forall known es → 4 < t →
  conf + sizeof_mpconf + table_size es < conf + conf_length conf →
  ∀ k, mpinit k = MpLoops.
Proof.
  intros Hm Ht Hk Ht4 Hl k. rw /mpinit Hm. set (e := conf + conf_length conf) in *.
  enough (∀ es p s ismp, table_at p (es ++ [EOther t]) → Forall known es → p + table_size es < e → mpinit_loop k p e s ismp = None) as H by by rw (H es).
  clear -Ht4. induction k as [|k IH]; intros es p s ismp Ht Hk Hl; pose proof (table_size_nonneg es) as Hn; cbn [mpinit_loop].
  { by rewrite -> (proj2 (Z.ltb_lt _ _)) by lia. }
  rewrite -> (proj2 (Z.ltb_lt p e)) by lia. cbn [negb]. destruct es as [|x es].
  - destruct Ht as [Ht _]. simpl in Ht. rw Ht. rw /MPPROC /MPIOAPIC /MPBUS /MPIOINTR /MPLINTR.
    do 5 (rewrite -> (proj2 (Z.eqb_neq t _)) by lia). cbn [orb]. by apply (IH []).
  - destruct Ht as [Hx Ht]. apply Forall_cons in Hk as [Hkx Hk]. change (table_size (x :: es)) with (entry_size x + table_size es) in Hl.
    destruct x as [id|n|u]; cbn [entry_at entry_size known] in *.
    + destruct Hx as [-> _]. cbn [Z.eqb MPPROC]. apply (IH es); [done|done|lia].
    + destruct Hx as [-> _]. cbn [Z.eqb Pos.eqb MPPROC MPIOAPIC]. apply (IH es); [done|done|lia].
    + rw Hx. assert ((u =? MPPROC) = false ∧ (u =? MPIOAPIC) = false ∧ ((u =? MPBUS) || (u =? MPIOINTR) || (u =? MPLINTR)) = true) as (-> & -> & ->)
        by (destruct Hkx as [-> | [-> | -> ] ]; done).
      apply (IH es); [done|done|lia].
Qed.
End mp.

(** ** Examples *)

(** A machine with one processor and one I/O APIC, and one with an entry of type 9. *)
Definition ex_mp : list Z := [95; 77; 80; 95; 0; 160; 0; 0; 1; 4; 0; 0; 0; 0; 0; 0].
Definition ex_conf : list Z :=
  [80; 67; 77; 80; 72; 0; 4; 152; 0; 0; 0; 0; 0; 0; 0; 0; 0; 0; 0; 0; 0; 0; 0; 0; 0; 0; 0; 0; 0; 0; 0; 0; 0; 0; 2; 0; 0; 0; 224; 254; 0; 0; 0; 0; 0; 7; 0; 0; 0; 0; 0; 0; 0; 0; 0; 0; 0; 0; 0; 0; 0; 0; 0; 0; 2; 3; 0; 0; 0; 0; 0; 0].
Definition ex_conf9 : list Z :=
  [80; 67; 77; 80; 72; 0; 4; 148; 0; 0; 0; 0; 0; 0; 0; 0; 0; 0; 0; 0; 0; 0; 0; 0; 0; 0; 0; 0; 0; 0; 0; 0; 0; 0; 2; 0; 0; 0; 224; 254; 0; 0; 0; 0; 0; 7; 0; 0; 0; 0; 0; 0; 0; 0; 0; 0; 0; 0; 0; 0; 0; 0; 0; 0; 9; 0; 0; 0; 0; 0; 0; 0].
Definition ex_mem (conf : list Z) (a : Z) : Z :=
  if a =? 0x40F then 9
  else if (0x9000 <=? a) && (a <? 0x9010) then ex_mp !!! Z.to_nat (a - 0x9000)
  else if (0xA000 <=? a) && (a <? 0xA100) then conf !!! Z.to_nat (a - 0xA000)
  else 0.

Lemma mpinit_reads_table_witness : ∃ k, mpinit (ex_mem ex_conf) k = MpOk (mkMp [7] 3) 0xFEE00000 0.
Proof.
  destruct (mpinit_reads_table (ex_mem ex_conf) 0x9000 0xA000 [EProc 7; EIoapic 3]) as (k & E);
    [by vm_compute|by vm_compute|by repeat constructor|by vm_compute|].
  exists k. etransitivity; [exact E|]. by vm_compute.
Defined.
Lemma mpinit_unknown_entry_loops_witness : mpinit (ex_mem ex_conf9) 1000 = MpLoops.
Proof.
  apply (mpinit_unknown_entry_loops (ex_mem ex_conf9) 0x9000 0xA000 [EProc 7] 9);
    [by vm_compute|by vm_compute|by repeat constructor|lia|by vm_compute].
Defined.
