(* ===== verification/Umalloc.v ===== *)
(** * The user memory allocator (umalloc.c)

    Memory holds headers at byte addresses: [u_ptr a] and [u_size a] are the two fields of
    the header at [a].  The free blocks form a ring through [ptr], sorted by address, that
    starts at the static header [base].  [sbrk] extends the heap when the kernel
    lets it.

    The heap is a row of blocks without gaps, each free or in use, and the ring links
    exactly the free ones: [malloc] and [free] keep it so. *)

From stdpp Require Import sorting.
From S2P Require Import Prelude.

Record um := mkU { u_ptr : Z → Z; u_size : Z → Z; u_freep : Z; u_brk : Z }.
Definition upd (f : Z → Z) (a v : Z) : Z → Z := λ x, if x =? a then v else f x.
Definition set_ptr (a v : Z) : M um unit := modify (λ s, mkU (upd (u_ptr s) a v) (u_size s) (u_freep s) (u_brk s)).
Definition set_size (a v : Z) : M um unit := modify (λ s, mkU (u_ptr s) (upd (u_size s) a v) (u_freep s) (u_brk s)).
Definition set_freep (v : Z) : M um unit := modify (λ s, mkU (u_ptr s) (u_size s) v (u_brk s)).
Definition ptr (a : Z) : M um Z := gets (λ s, u_ptr s a).
Definition size (a : Z) : M um Z := gets (λ s, u_size s a).

(** [sizeof(Header)] *)
Definition HEADER : Z := 8.

Section umalloc.
(** The address of [base], and whether the kernel lets a process grow from [b] bytes by
    [n]. *)
Context (base : Z) (may_grow : Z → Z → bool).

(** The system call: the old end of the heap, or -1. *)
Definition sbrk (n : Z) : M um Z :=
  b ← gets u_brk;
  if may_grow b n then modify (λ s, mkU (u_ptr s) (u_size s) (u_freep s) (b + n)) ;; mret b
  else mret (-1).

(** The search of [free] for the block before [bp], from [p] on; [k] bounds its rounds. *)
Fixpoint free_search (k : nat) (bp p : Z) : M um Z :=
  q ← ptr p;
  if (p <? bp) && (bp <? q) then mret p
  else if (q <=? p) && ((p <? bp) || (bp <? q)) then mret p
  else match k with
       | O => panic "free: out of fuel"
       | S k => free_search k bp q
       end.
Definition free (k : nat) (ap : Z) : M um unit :=
  let bp := ap - HEADER in
  f ← gets u_freep;
  p ← free_search k bp f;
  n ← size bp; q ← ptr p;
  (if bp + HEADER * n =? q then
     m ← size q; set_size bp (u32 (n + m)) ;;
     r ← ptr q; set_ptr bp r
   else set_ptr bp q) ;;
  n ← size p;
  (if p + HEADER * n =? bp then
     m ← size bp; set_size p (u32 (n + m)) ;;
     r ← ptr bp; set_ptr p r
   else set_ptr p bp) ;;
  set_freep p.

Definition morecore (k : nat) (nu : Z) : M um Z :=
  let nu := if nu <? 4096 then 4096 else nu in
  p ← sbrk (s32 (nu * HEADER));
  if p =? -1 then mret 0 else
  set_size p nu ;;
  free k (p + HEADER) ;;
  gets u_freep.

(** A block of [n] units that is large enough: all of it, or its end. *)
Definition malloc_take (nunits prevp p n : Z) : M um Z :=
  if n =? nunits then
    q ← ptr p; set_ptr prevp q ;;
    set_freep prevp ;;
    mret (p + HEADER)
  else
    set_size p (n - nunits) ;;
    let p := p + HEADER * (n - nunits) in
    set_size p nunits ;;
    set_freep prevp ;;
    mret (p + HEADER).
(** The loop of [malloc], at [p] with [prevp] before it. *)
Fixpoint malloc_loop (kf k : nat) (nunits prevp p : Z) : M um Z :=
  n ← size p;
  if nunits <=? n then malloc_take nunits prevp p n
  else
    f ← gets u_freep;
    r ← (if p =? f then morecore kf nunits else mret p);
    if (p =? f) && (r =? 0) then mret 0 else
    q ← ptr r;
    match k with
    | O => panic "malloc: out of fuel"
    | S k => malloc_loop kf k nunits r q
    end.
Definition malloc (k : nat) (nbytes : Z) : M um Z :=
  let nunits := u32 (nbytes + HEADER - 1) / HEADER + 1 in
  f ← gets u_freep;
  (if f =? 0 then set_freep base ;; set_ptr base base ;; set_size base 0 else mret tt) ;;
  prevp ← gets u_freep;
  p ← ptr prevp;
  malloc_loop k k nunits prevp p.

End umalloc.

(** ** The row of blocks *)

(** A block's size in units, and whether it is free; the blocks lie one after another. *)
Abbreviation row := (list (Z * bool)).
Fixpoint frees (h : Z) (T : row) : list Z :=
  match T with
  | [] => []
  | (n, b) :: T => (if b then [h] else []) ++ frees (h + HEADER * n) T
  end.
Fixpoint used (h : Z) (T : row) : list (Z * Z) :=
  match T with
  | [] => []
  | (n, b) :: T => (if b then [] else [(h, n)]) ++ used (h + HEADER * n) T
  end.
Definition row_size (T : row) : Z := Zsum fst T.
Definition row_end (h : Z) (T : row) : Z := h + HEADER * row_size T.
(** The headers hold the sizes. *)
Fixpoint sizes (f : Z → Z) (h : Z) (T : row) : Prop :=
  match T with
  | [] => True
  | (n, _) :: T => f h = n ∧ sizes f (h + HEADER * n) T
  end.
Definition row_ok (T : row) : Prop := Forall (λ c, 1 ≤ c.1) T.

(** Through the links from [x], past [l], to [y]. *)
Fixpoint links (f : Z → Z) (x : Z) (l : list Z) (y : Z) : Prop :=
  match l with
  | [] => f x = y
  | z :: l => f x = z ∧ links f z l y
  end.

(** No two free blocks next to each other. *)
Definition head_free (T : row) : bool := match T with (_, true) :: _ => true | _ => false end.
Fixpoint joined (T : row) : Prop :=
  match T with
  | [] => True
  | (_, b) :: T => (b = true → head_free T = false) ∧ joined T
  end.

(** ** Rows *)

Lemma row_end_app h T1 T2 : row_end h (T1 ++ T2) = row_end (row_end h T1) T2.
Proof. rw /row_end /row_size Zsum_app. lia. Qed.
Lemma row_end_cons h n b T : row_end h ((n, b) :: T) = row_end (h + HEADER * n) T.
Proof. rw /row_end /row_size /=. lia. Qed.
Lemma frees_app h T1 T2 : frees h (T1 ++ T2) = frees h T1 ++ frees (row_end h T1) T2.
Proof.
  revert h. induction T1 as [|[n b] T1 IH]; intros h; simpl; [by rw /row_end /= Z.add_0_r|]. by rw IH row_end_cons app_assoc.
Qed.
Lemma used_app h T1 T2 : used h (T1 ++ T2) = used h T1 ++ used (row_end h T1) T2.
Proof.
  revert h. induction T1 as [|[n b] T1 IH]; intros h; simpl; [by rw /row_end /= Z.add_0_r|]. by rw IH row_end_cons app_assoc.
Qed.
Lemma sizes_app f h T1 T2 : sizes f h (T1 ++ T2) ↔ sizes f h T1 ∧ sizes f (row_end h T1) T2.
Proof.
  revert h. induction T1 as [|[n b] T1 IH]; intros h; simpl; [rw /row_end /= Z.add_0_r; naive_solver|]. rw IH row_end_cons. naive_solver.
Qed.
Lemma joined_mid T1 c T2 : joined (T1 ++ c :: T2) ↔ joined (T1 ++ [c]) ∧ joined (c :: T2).
Proof.
  induction T1 as [|[n b] T1 IH]; destruct c as [m a]; [simpl; naive_solver|]. rw -!app_comm_cons. cbn [joined] in IH |- *. rw IH.
  assert (head_free (T1 ++ (m, a) :: T2) = head_free (T1 ++ [(m, a)])) as -> by by destruct T1. naive_solver.
Qed.
Lemma joined_used T1 n T2 : joined (T1 ++ (n, false) :: T2) ↔ joined T1 ∧ joined T2.
Proof.
  rw joined_mid. cbn [joined]. induction T1 as [|[m b] T1 IH]; [simpl; naive_solver|]. rw -app_comm_cons. cbn [joined].
  assert (head_free (T1 ++ [(n, false)]) = head_free T1) as -> by by destruct T1 as [|[? [|]] ?]. naive_solver.
Qed.
Lemma joined_prefix T1 T2 : joined (T1 ++ T2) → joined T1.
Proof.
  induction T1 as [|[n b] T1 IH]; [done|]. rw -app_comm_cons. cbn [joined]. intros [H1 H2]. split; [|by apply IH]. intros Hb. specialize (H1 Hb). by destruct T1.
Qed.
(** What matters of a block is whether it is free. *)
Lemma joined_size T1 n m b T2 : joined (T1 ++ (n, b) :: T2) ↔ joined (T1 ++ (m, b) :: T2).
Proof.
  induction T1 as [|[k a] T1 IH]; [done|]. rw -!app_comm_cons. cbn [joined]. rw IH.
  by assert (head_free (T1 ++ (n, b) :: T2) = head_free (T1 ++ (m, b) :: T2)) as -> by by destruct T1.
Qed.
Lemma row_size_nonneg T : row_ok T → 0 ≤ row_size T.
Proof. intros H. apply Zsum_nonneg. eapply Forall_impl; [done|]. intros c Hc. simpl in *. lia. Qed.
Lemma row_end_ge h T : row_ok T → h ≤ row_end h T.
Proof. intros H%row_size_nonneg. rw /row_end /HEADER. lia. Qed.

Lemma frees_range h T a : row_ok T → a ∈ frees h T → h ≤ a < row_end h T.
Proof.
  revert h. induction T as [|[n b] T IH]; intros h HT; [by intros ?%elem_of_nil|]. apply Forall_cons in HT as [Hn HT]. simpl in Hn.
  cbn [frees]. rw row_end_cons. pose proof (row_end_ge (h + HEADER * n) T HT) as He. intros [Ha|Ha]%elem_of_app.
  - destruct b; [|by apply elem_of_nil in Ha]. apply list_elem_of_singleton in Ha as ->. rw /HEADER in He |- *. lia.
  - apply IH in Ha; [|done]. rw /HEADER in Ha |- *. lia.
Qed.
Lemma used_range h T a n : row_ok T → (a, n) ∈ used h T → h ≤ a ∧ a + HEADER * n ≤ row_end h T ∧ 1 ≤ n.
Proof.
  revert h. induction T as [|[m b] T IH]; intros h HT; [by intros ?%elem_of_nil|]. apply Forall_cons in HT as [Hn HT]. simpl in Hn.
  cbn [used]. rw row_end_cons. pose proof (row_end_ge (h + HEADER * m) T HT) as He. intros [Ha|Ha]%elem_of_app.
  - destruct b; [by apply elem_of_nil in Ha|]. apply list_elem_of_singleton in Ha as [= -> ->]. rw /HEADER in He |- *. lia.
  - apply IH in Ha; [|done]. rw /HEADER in Ha |- *. lia.
Qed.
Lemma frees_sorted h T : row_ok T → StronglySorted Z.lt (frees h T).
Proof.
  revert h. induction T as [|[n b] T IH]; intros h HT; simpl; [constructor|]. apply Forall_cons in HT as [Hn HT]. simpl in Hn.
  destruct b; simpl; [|by apply IH]. constructor; [by apply IH|]. apply Forall_forall. intros a Ha%frees_range; [|done]. rw /HEADER in Ha. lia.
Qed.
Lemma frees_split h T a : a ∈ frees h T → ∃ T1 n T2, T = T1 ++ (n, true) :: T2 ∧ a = row_end h T1.
Proof.
  revert h. induction T as [|[n b] T IH]; intros h; [by intros ?%elem_of_nil|]. cbn [frees]. intros [Ha|Ha]%elem_of_app.
  - destruct b; [|by apply elem_of_nil in Ha]. apply list_elem_of_singleton in Ha as ->. exists [], n, T. split; [done|].
    rw /row_end /row_size /=. lia.
  - apply IH in Ha as (T1 & m & T2 & -> & ->). exists ((n, b) :: T1), m, T2. split; [done|]. by rw row_end_cons.
Qed.

(** ** Links *)

Fixpoint lastof (x : Z) (l : list Z) : Z := match l with [] => x | z :: l => lastof z l end.
Fixpoint path (f : Z → Z) (x : Z) (l : list Z) : Prop :=
  match l with
  | [] => True
  | z :: l => f x = z ∧ path f z l
  end.

Lemma lastof_in x l : lastof x l ∈ x :: l.
Proof. revert x. induction l as [|z l IH]; intros x; simpl; [by left|]. right. apply IH. Qed.
Lemma lastof_snoc x l z : lastof x (l ++ [z]) = z.
Proof. revert x. by induction l as [|y l IH]; intros x; simpl. Qed.
Lemma links_app f x l1 l2 y : links f x (l1 ++ l2) y ↔ path f x l1 ∧ links f (lastof x l1) l2 y.
Proof. revert x. induction l1 as [|z l1 IH]; intros x; simpl; [naive_solver|]. rw IH. naive_solver. Qed.
Lemma links_upd f a v x l y : a ∉ x :: l → links (upd f a v) x l y ↔ links f x l y.
Proof.
  revert x. induction l as [|z l IH]; intros x Ha; apply not_elem_of_cons in Ha as [Hx Ha]; simpl; rw /upd; rewrite -> (proj2 (Z.eqb_neq x a)) by done; [done|].
  by rw (IH z Ha).
Qed.
Lemma path_upd f a v x l : a ∉ x :: l → path (upd f a v) x l ↔ path f x l.
Proof.
  revert x. induction l as [|z l IH]; intros x Ha; [done|]. apply not_elem_of_cons in Ha as [Hx Ha]. simpl. rw (IH z Ha) /upd.
  by rewrite -> (proj2 (Z.eqb_neq x a)) by done.
Qed.
Lemma path_upd_last f v x l : NoDup (x :: l) → path (upd f (lastof x l) v) x l ↔ path f x l.
Proof.
  revert x. induction l as [|z l IH]; intros x Hn; [done|]. apply NoDup_cons in Hn as [Hx Hn]. cbn [lastof path]. rw (IH z Hn) /upd.
  rewrite -> (proj2 (Z.eqb_neq x (lastof z l))); [done|]. intros ->. apply Hx, lastof_in.
Qed.
(** A node of a ring has one predecessor. *)
Lemma links_pred f x l1 p l2 y z :
  NoDup (x :: l1 ++ p :: l2) → y ≠ p → links f x (l1 ++ p :: l2) y → z ∈ x :: l1 ++ p :: l2 → f z = p → z = lastof x l1.
Proof.
  revert x. induction l1 as [|w l1 IH]; intros x Hn Hy; cbn [app links lastof].
  - intros [Hx Hl] Hz Hf. apply elem_of_cons in Hz as [->|Hz]; [done|]. exfalso. apply NoDup_cons in Hn as [_ Hn].
    clear x Hx. revert Hl Hz. assert (∀ l x, p ∉ l → links f x l y → z ∈ x :: l → False) as K.
    { induction l as [|w l IHl]; intros x Hp; cbn [links].
      - intros Hl Hz. apply list_elem_of_singleton in Hz as ->. congruence.
      - intros [Hw Hl] Hz. apply not_elem_of_cons in Hp as [Hpw Hp]. apply elem_of_cons in Hz as [->|Hz]; [congruence|]. by apply (IHl w). }
    intros Hl Hz. apply (K l2 p); [by apply NoDup_cons in Hn as [? _]|done|done].
  - intros [Hw Hl] Hz Hf. apply NoDup_cons in Hn as [Hx Hn]. apply elem_of_cons in Hz as [->|Hz]; [|by apply IH].
    exfalso. apply NoDup_cons in Hn as [Hw' _]. apply Hw'. rw -Hw Hf. set_solver.
Qed.

Section heap.
Context (base : Z).

(** The heap starts after [base] and ends at the break; the ring starts at [base], and the
    allocator's pointer is at one of its nodes. *)
Record heap_ok (heap : Z) (s : um) (T : row) : Prop := {
  hp_base : 0 < base ∧ base + HEADER ≤ heap;
  hp_row : row_ok T;
  hp_joined : joined T;
  hp_ring : links (u_ptr s) base (frees heap T) base;
  hp_sizes : sizes (u_size s) heap T;
  hp_size0 : u_size s base = 0;
  hp_brk : u_brk s = row_end heap T;
  hp_limit : row_end heap T < 2147483648;
  hp_freep : u_freep s ∈ base :: frees heap T;
}.

(** ** free *)

(** From a node before [bp] the search stops at the last such node. *)
Lemma search_from s bp k : ∀ L1 x L2,
  links (u_ptr s) x (L1 ++ L2) base → base ≤ x → x < bp → Forall (λ a, a < bp) L1 → Forall (λ a, bp < a) L2 →
  StronglySorted Z.lt (x :: L1) → (length L1 ≤ k)%nat → free_search k bp x s = Ok (lastof x L1, s).
Proof.
  induction k as [|k IH]; intros [|z L1] x L2 Hl Hb Hx H1 H2 Hs Hk; simpl in Hk; try lia; cbn [free_search lastof]; rw /ptr gets_bind.
  1,2: destruct L2 as [|w L2]; cbn [app links] in Hl;
    [rw Hl; destruct ((x <? bp) && (bp <? base)) eqn:E; [done|];
     rewrite -> (proj2 (Z.leb_le base x)), (proj2 (Z.ltb_lt x bp)) by lia; done
    |destruct Hl as [-> _]; apply Forall_cons in H2 as [H2 _];
     by rewrite -> (proj2 (Z.ltb_lt x bp)), (proj2 (Z.ltb_lt bp w)) by lia].
  cbn [app links] in Hl. destruct Hl as [-> Hl]. apply Forall_cons in H1 as [Hz H1].
  apply StronglySorted_inv in Hs as [Hs Hf]. apply Forall_cons in Hf as [Hxz _].
  rewrite -> (proj2 (Z.ltb_ge bp z)), andb_false_r, (proj2 (Z.leb_gt z x)) by lia. cbn [andb].
  apply (IH L1 z L2); try done; lia.
Qed.
(** From a node after it, it goes on to the end of the ring. *)
Lemma search_past s bp k : ∀ l x m, m = (length l + k)%nat →
  links (u_ptr s) x l base → base < bp → bp < x → Forall (λ a, bp < a) l → StronglySorted Z.lt (x :: l) →
  free_search (S m) bp x s = free_search k bp base s.
Proof.
  induction l as [|z l IH]; intros x m Hm Hl Hb Hx Hf Hs; cbn [free_search]; rw /ptr gets_bind.
  - cbn [links] in Hl. rw Hl. rewrite -> (proj2 (Z.ltb_ge x bp)), (proj2 (Z.ltb_ge bp base)) by lia. cbn [andb orb]. rw andb_false_r Hm //.
  - destruct Hl as [-> Hl]. apply Forall_cons in Hf as [Hz Hf]. apply StronglySorted_inv in Hs as [Hs Hxs]. apply Forall_cons in Hxs as [Hxz _].
    rewrite -> (proj2 (Z.ltb_ge x bp)), (proj2 (Z.leb_gt z x)) by lia. cbn [andb]. destruct m as [|m]; [done|]. simpl in Hm. apply IH; try done; lia.
Qed.

Lemma sorted_app_l l1 l2 : StronglySorted Z.lt (l1 ++ l2) → StronglySorted Z.lt l1.
Proof. apply StronglySorted_app_1_l. Qed.
Lemma sorted_app_r l1 l2 : StronglySorted Z.lt (l1 ++ l2) → StronglySorted Z.lt l2.
Proof. apply StronglySorted_app_1_r. Qed.

Lemma free_search_ok s bp L1 L2 k :
  links (u_ptr s) base (L1 ++ L2) base → base < bp → Forall (λ a, a < bp) L1 → Forall (λ a, bp < a) L2 →
  StronglySorted Z.lt (base :: L1 ++ L2) → u_freep s ∈ base :: L1 ++ L2 → (length (L1 ++ L2) + S (length (L1 ++ L2)) ≤ k)%nat →
  free_search k bp (u_freep s) s = Ok (lastof base L1, s).
Proof.
  intros Hl Hb H1 H2 Hs Hf Hk. rw length_app in Hk.
  assert (StronglySorted Z.lt (base :: L1)) as Hs1 by exact (sorted_app_l (base :: L1) L2 Hs).
  assert (∀ k, (length L1 ≤ k)%nat → free_search k bp base s = Ok (lastof base L1, s)) as Hbase.
  { intros k' Hk'. by apply (search_from s bp k' L1 base L2). }
  apply elem_of_cons in Hf as [->|Hf]; [apply Hbase; lia|]. apply elem_of_app in Hf as [Hf|Hf].
  - apply list_elem_of_split in Hf as (A & B & HL). rw {1}HL -app_assoc links_app in Hl. cbn [app links] in Hl. destruct Hl as (_ & _ & Hl).
    rw HL in H1, Hs1. apply Forall_app in H1 as [_ [Hfb H1]%Forall_cons].
    assert (lastof base L1 = lastof (u_freep s) B) as ->.
    { rw HL. clear. generalize base. induction A as [|z A IH]; intros x; [done|]. cbn [app lastof]. apply IH. }
    apply (search_from s bp k B (u_freep s) L2); try done.
    + apply StronglySorted_inv in Hs1 as [_ Hs1]. apply Forall_app in Hs1 as [_ [? _]%Forall_cons]. lia.
    + apply StronglySorted_inv in Hs1 as [Hs1 _]. by apply sorted_app_r in Hs1.
    + rw HL length_app /= in Hk. lia.
  - apply list_elem_of_split in Hf as (A & B & HL). rw {1}HL app_assoc links_app in Hl. cbn [links] in Hl. destruct Hl as (_ & _ & Hl).
    rw HL in H2, Hs. apply Forall_app in H2 as [_ [Hfb H2]%Forall_cons].
    rw HL length_app /= in Hk. destruct k as [|k]; [lia|].
    rw (search_past s bp (k - length B) B) //; [lia| |apply Hbase; lia]. apply StronglySorted_inv in Hs as [Hs _]. rw app_assoc in Hs. by apply sorted_app_r in Hs.
Qed.

Lemma sorted_NoDup l : StronglySorted Z.lt l → NoDup l.
Proof.
  induction 1 as [|x l _ IH Hf]; [constructor|]. apply NoDup_cons. split; [|done]. intros Hx. rw Forall_forall in Hf. specialize (Hf x Hx). lia.
Qed.
Lemma path_app f x l1 l2 : path f x (l1 ++ l2) ↔ path f x l1 ∧ path f (lastof x l1) l2.
Proof. revert x. induction l1 as [|z l1 IH]; intros x; simpl; [naive_solver|]. rw IH. naive_solver. Qed.

(** Only the header at [a] differs. *)
Record differs_at (a : Z) (s s' : um) : Prop := {
  df_ptr : ∀ x, x ≠ a → u_ptr s' x = u_ptr s x;
  df_size : ∀ x, x ≠ a → u_size s' x = u_size s x;
  df_brk : u_brk s' = u_brk s;
}.

Lemma links_ext f g x l y : (∀ z, z ∈ x :: l → f z = g z) → links f x l y → links g x l y.
Proof.
  revert x. induction l as [|z l IH]; intros x He; simpl; [rw -He //; by left|]. intros [H Hl]. split; [rw -He //; by left|].
  apply IH; [|done]. intros w Hw. apply He. by right.
Qed.
Lemma links_head f g x w l y : links f x l y → g w = f x → (∀ z, z ∈ l → f z = g z) → links g w l y.
Proof. destruct l as [|z l]; simpl; [congruence|]. intros [H Hl] Hw He. split; [congruence|]. by apply (links_ext f). Qed.
Lemma path_ext f g x l : (∀ z, z ∈ x :: l → z ≠ lastof x l → f z = g z) → NoDup (x :: l) → path f x l → path g x l.
Proof.
  revert x. induction l as [|z l IH]; intros x He Hn; cbn [path]; [done|]. intros [H Hl]. apply NoDup_cons in Hn as [Hx Hn]. split.
  - rw -He //; [by left|]. cbn [lastof]. intros ->. apply Hx, lastof_in.
  - apply IH; [|done|done]. intros w Hw. apply He. by right.
Qed.
Lemma sizes_ext f g h T : row_ok T → (∀ z, h ≤ z < row_end h T → f z = g z) → sizes f h T → sizes g h T.
Proof.
  revert h. induction T as [|[n b] T IH]; intros h HT He; [done|]. apply Forall_cons in HT as [Hn HT]. simpl in Hn. rw row_end_cons in He.
  pose proof (row_end_ge (h + HEADER * n) T HT) as Hg. intros [H1 H2]. split; [rw -He //; rw /HEADER in Hg |- *; lia|].
  apply IH; [done| |done]. intros z Hz. apply He. rw /HEADER in Hz |- *. lia.
Qed.

Lemma frees_head h T a : row_ok T → head_free T = false → a ∈ frees h T → h < a.
Proof.
  destruct T as [|[n [|]] T]; intros HT Hh Ha; [by apply elem_of_nil in Ha|done|]. apply Forall_cons in HT as [Hn HT]. simpl in Hn, Ha.
  apply frees_range in Ha; [|done]. rw /HEADER in Ha. lia.
Qed.

Definition joined_next (n : Z) (T2 : row) : Z * row :=
  match T2 with (m, true) :: T2 => (n + m, T2) | _ => (n, T2) end.

(** The block is joined with a free one after it, and linked to what follows. *)
Lemma free_next s p bp n T2 :
  let '(n', T2') := joined_next n T2 in
  links (u_ptr s) p (frees (bp + HEADER * n) T2) base → base < bp → p < bp → row_ok T2 → 1 ≤ n → sizes (u_size s) (bp + HEADER * n) T2 →
  u_size s bp = n → 0 < bp → row_end (bp + HEADER * n) T2 < 2147483648 →
  ∃ s1, (if bp + HEADER * n =? u_ptr s p then
           m ← size (u_ptr s p); set_size bp (u32 (n + m)) ;; r ← ptr (u_ptr s p); set_ptr bp r
         else set_ptr bp (u_ptr s p)) s = Ok (tt, s1) ∧
    differs_at bp s s1 ∧ u_freep s1 = u_freep s ∧ u_size s1 bp = n' ∧ links (u_ptr s1) bp (frees (bp + HEADER * n') T2') base.
Proof.
  destruct (joined_next n T2) as [n' T2'] eqn:EJ. intros Hl Hb Hp HT Hn Hz Hsz Hbp Hend. rw /size /ptr.
  pose proof (row_end_ge (bp + HEADER * n) T2 HT) as Hge. rw /HEADER in Hge.
  destruct (head_free T2) eqn:Hh.
  - destruct T2 as [|[m [|]] T2]; [done| |done]. injection EJ as <- <-. cbn [frees app links] in Hl. destruct Hl as [-> Hl].
    rw Z.eqb_refl. destruct Hz as [Hm Hz]. rw gets_bind Hm. apply Forall_cons in HT as [Hm1 HT]. simpl in Hm1. rw row_end_cons in Hend.
    pose proof (row_end_ge (bp + HEADER * n + HEADER * m) T2 HT) as Hge2. rw u32_small; [rw /HEADER in Hge2, Hend; lia|].
    rw /set_size modify_bind gets_bind. cbn [u_ptr]. eexists. split; [reflexivity|]. simpl.
    split; [split; simpl; try done; intros x Hx; rw /upd; by rewrite -> (proj2 (Z.eqb_neq _ _)) by done|]. split; [done|].
    split; [by rw /upd Z.eqb_refl|]. replace (bp + HEADER * (n + m)) with (bp + HEADER * n + HEADER * m) by lia.
    apply (links_head (u_ptr s) _ (bp + HEADER * n)); [done|by rw /upd Z.eqb_refl|].
    intros z Hz'%frees_range; [|done]. rw /upd. rewrite -> (proj2 (Z.eqb_neq _ _)); [done|]. rw /HEADER in Hz'. lia.
  - assert ((n', T2') = (n, T2)) as [= -> ->] by by destruct T2 as [|[m [|]] T2].
    rewrite -> (proj2 (Z.eqb_neq _ _)).
    + rw /set_ptr. eexists. split; [reflexivity|]. simpl.
      split; [split; simpl; try done; intros x Hx; rw /upd; by rewrite -> (proj2 (Z.eqb_neq _ _)) by done|]. split; [done|]. split; [done|].
      apply (links_head (u_ptr s) _ p); [done|by rw /upd Z.eqb_refl|].
      intros z Hz'%frees_range; [|done]. rw /upd. rewrite -> (proj2 (Z.eqb_neq _ _)); [done|]. rw /HEADER in Hz'. lia.
    + destruct (frees (bp + HEADER * n) T2) as [|a F] eqn:EF; cbn [links] in Hl; [rw Hl /HEADER; lia|].
      destruct Hl as [-> _]. assert (bp + HEADER * n < a); [|lia]. apply (frees_head _ T2); [done|done|]. rw EF. by left.
Qed.

(** The block, with [n] units, is joined with a free one before it, or linked from [p]. *)
Lemma free_prev s bp heap T1 n T2 :
  let p := lastof base (frees heap T1) in
  bp = row_end heap T1 → row_ok T1 → joined T1 → 1 ≤ n → row_ok T2 → joined ((n, true) :: T2) → 0 < base < heap → u_size s base = 0 → u_size s bp = n →
  sizes (u_size s) heap T1 → sizes (u_size s) (bp + HEADER * n) T2 → path (u_ptr s) base (frees heap T1) →
  links (u_ptr s) bp (frees (bp + HEADER * n) T2) base → row_end (bp + HEADER * n) T2 < 2147483648 →
  ∃ s' T', (if p + HEADER * u_size s p =? bp then
           m ← size bp; set_size p (u32 (u_size s p + m)) ;; r ← ptr bp; set_ptr p r
         else set_ptr p bp) s = Ok (tt, s') ∧
    differs_at p s s' ∧ row_ok T' ∧ joined T' ∧ u_size s' base = 0 ∧ sizes (u_size s') heap T' ∧ links (u_ptr s') base (frees heap T') base ∧
    row_end heap T' = row_end (bp + HEADER * n) T2 ∧ used heap T' = used heap T1 ++ used (bp + HEADER * n) T2 ∧ p ∈ base :: frees heap T' ∧
    (length T' ≤ S (length T1 + length T2))%nat ∧ ∃ z, z ∈ frees heap T' ∧ n ≤ u_size s' z.
Proof.
  intros p Hbp H1 J1 Hn H2 J2 Hbase Hsb Hsz Hz1 Hz2 Hpath Hl Hend.
  assert (NoDup (base :: frees heap T1)) as Hnd.
  { apply NoDup_cons. split; [intros H%frees_range; [lia|done]|]. by apply sorted_NoDup, frees_sorted. }
  assert (base < bp) as Hbb by (pose proof (row_end_ge heap T1 H1); lia).
  pose proof (row_end_ge (bp + HEADER * n) T2 H2) as Hge.
  destruct T1 as [|[m b] T1 _] using rev_ind; [|destruct b].
  - cbn [frees lastof] in p. subst p. rw Hsb. rewrite -> (proj2 (Z.eqb_neq _ _)) by (rw /HEADER; lia).
    rw /set_ptr. eexists _, ((n, true) :: T2). split; [reflexivity|]. simpl.
    assert (bp = heap) as -> by (rw Hbp /row_end /row_size /=; lia).
    split; [split; simpl; try done; intros x Hx; rw /upd; by rewrite -> (proj2 (Z.eqb_neq _ _)) by done|]. split; [by constructor|].
    split; [done|]. split; [done|]. split; [done|]. split; [|split; [by rw row_end_cons|split; [done|split; [by left|split; [done|]]]]].
    2:{ exists heap. split; [by left|]. by rw Hsz. }
    split; [by rw /upd Z.eqb_refl|]. apply (links_ext (u_ptr s)); [|done]. intros z Hz. rw /upd. rewrite -> (proj2 (Z.eqb_neq _ _)); [done|].
    apply elem_of_cons in Hz as [->|Hz%frees_range]; [lia|rw /HEADER in Hz; lia|done].
  - (* a free block before it *)
    assert (p = row_end heap T1) as Ep by (rw /p frees_app /= lastof_snoc //). apply Forall_app in H1 as [H1 [Hm _]%Forall_cons]. simpl in Hm.
    rw sizes_app in Hz1. destruct Hz1 as [Hz1 [Hm1 _]]. rw -Ep in Hm1.
    assert (bp = p + HEADER * m) as Ebp by (rw Hbp row_end_app -Ep /row_end /row_size /=; lia).
    rw Hm1 -Ebp Z.eqb_refl /size gets_bind Hsz u32_small; [pose proof (row_end_ge heap T1 H1); rw /HEADER in Hge, Ebp, Hend; lia|].
    rw /set_size modify_bind /ptr gets_bind /set_ptr. cbn [u_ptr]. eexists _, (T1 ++ (m + n, true) :: T2). split; [reflexivity|]. simpl.
    split; [split; simpl; try done; intros x Hx; rw /upd; by rewrite -> (proj2 (Z.eqb_neq _ _)) by done|].
    pose proof (row_end_ge heap T1 H1) as Hge1. rw -Ep in Hge1. rw frees_app in Hpath, Hnd. cbn [frees app] in Hpath, Hnd. rw -Ep in Hpath, Hnd.
    split; [apply Forall_app; split; [done|]; constructor; [simpl; lia|done]|].
    split; [apply (joined_size _ _ m), joined_mid; split; [done|exact J2]|].
    split; [rw /upd; rewrite -> (proj2 (Z.eqb_neq _ _)) by lia; done|].
    replace (bp + HEADER * n) with (p + HEADER * (m + n)) in * by lia.
    split; [|split; [|split; [|split; [|split; [|split]]]]].
    + rw sizes_app -Ep. split; [|split; [by rw /upd Z.eqb_refl|]].
      * apply (sizes_ext (u_size s)); [done| |done]. intros z Hz. rw -Ep in Hz. rw /upd. by rewrite -> (proj2 (Z.eqb_neq _ _)) by lia.
      * apply (sizes_ext (u_size s)); [done| |done]. intros z Hz. rw /upd. rewrite -> (proj2 (Z.eqb_neq _ _)); [done|]. rw /HEADER in Hz. lia.
    + rw frees_app -Ep. cbn [frees app]. rw path_app in Hpath. destruct Hpath as [Hp1 [Hp2 _]]. rw links_app.
      assert (p ∉ base :: frees heap T1) as Hpn.
      { change (base :: frees heap T1 ++ [p]) with ((base :: frees heap T1) ++ [p]) in Hnd. apply NoDup_app in Hnd as (_ & Hnd & _). intros Hin. apply (Hnd p Hin). by left. }
      split; [by apply path_upd|]. cbn [links]. split.
      * rw /upd. rewrite -> (proj2 (Z.eqb_neq _ _)); [done|]. intros E. apply Hpn. rw -E. apply lastof_in.
      * apply (links_head (u_ptr s) _ bp); [done|by rw /upd Z.eqb_refl|].
        intros z Hz%frees_range; [|done]. rw /upd. rewrite -> (proj2 (Z.eqb_neq _ _)); [done|]. rw /HEADER in Hz. lia.
    + by rw row_end_app -Ep row_end_cons.
    + rw !used_app -Ep. cbn [used app]. by rw app_nil_r.
    + rw frees_app -Ep. set_solver.
    + rw !length_app /=. lia.
    + exists p. rw frees_app -Ep /upd Z.eqb_refl. split; [set_solver|lia].
  - (* a block in use before it *)
    set (T := T1 ++ [(m, false)]) in *.
    assert (p + HEADER * u_size s p ≠ bp) as Hne.
    { assert (p ∈ base :: frees heap T) as [Eb|Hp]%elem_of_cons by apply lastof_in; [rw Eb Hsb /HEADER; lia|].
      rw /T frees_app /= app_nil_r in Hp. apply frees_split in Hp as (A & k & B & EA & Ep). apply Forall_app in H1 as [H1 [Hm _]%Forall_cons]. simpl in Hm.
      rw /T EA -app_assoc /= in Hz1, Hbp. rw sizes_app in Hz1. destruct Hz1 as [_ [Hk _]]. rw -Ep in Hk. rw Hk Hbp row_end_app -Ep row_end_cons row_end_app.
      rw EA in H1. apply Forall_app in H1 as [_ [_ H1]%Forall_cons]. pose proof (row_end_ge (p + HEADER * k) B H1). rw {2}/row_end /row_size /= /HEADER in H |- *. lia. }
    rewrite -> (proj2 (Z.eqb_neq _ _)) by done. rw /set_ptr. eexists _, (T ++ (n, true) :: T2). split; [reflexivity|]. simpl.
    split; [split; simpl; try done; intros x Hx; rw /upd; by rewrite -> (proj2 (Z.eqb_neq _ _)) by done|].
    assert (p < bp) as Hpb.
    { assert (p ∈ base :: frees heap T) as [Eb|Hp%frees_range]%elem_of_cons by apply lastof_in; [lia|lia|done]. }
    split; [apply Forall_app; split; [done|]; by constructor|].
    split; [rw /T -app_assoc; apply joined_used; split; [exact (joined_prefix _ _ J1)|done]|]. split; [done|].
    split; [rw sizes_app -Hbp; by split|]. rw frees_app -Hbp. cbn [frees app]. split; [|split; [|split; [|split; [|split]]]].
    + rw links_app. split; [by apply path_upd_last|]. cbn [links]. split; [by rw /upd Z.eqb_refl|].
      apply (links_ext (u_ptr s)); [|done]. intros z Hz. rw /upd. rewrite -> (proj2 (Z.eqb_neq _ _)); [done|].
      apply elem_of_cons in Hz as [->|Hz%frees_range]; [lia|rw /HEADER in Hz; lia|done].
    + by rw row_end_app -Hbp row_end_cons.
    + rw used_app -Hbp. done.
    + rw app_comm_cons. apply elem_of_app. left. apply lastof_in.
    + rw length_app /=. lia.
    + exists bp. split; [set_solver|]. by rw Hsz.
Qed.

Lemma joined_next_ok bp n T2 n' T2' f :
  joined_next n T2 = (n', T2') → row_ok T2 → joined T2 → sizes f (bp + HEADER * n) T2 →
  n ≤ n' ∧ row_ok T2' ∧ sizes f (bp + HEADER * n') T2' ∧ row_end (bp + HEADER * n') T2' = row_end (bp + HEADER * n) T2 ∧
  used (bp + HEADER * n') T2' = used (bp + HEADER * n) T2 ∧ (length T2' ≤ length T2)%nat ∧ joined ((n', true) :: T2').
Proof.
  destruct T2 as [|[m [|]] T2]; simpl; intros [= <- <-] HT J Hz; [by auto 10 with lia| |].
  2:{ split; [lia|]. split; [done|]. split; [done|]. split; [done|]. split; [done|]. split; [simpl; lia|]. split; [done|exact J]. }
  apply Forall_cons in HT as [Hm HT]. simpl in Hm. destruct Hz as [_ Hz]. destruct J as [J1 J2]. specialize (J1 eq_refl).
  replace (bp + HEADER * (n + m)) with (bp + HEADER * n + HEADER * m) by lia. rw row_end_cons. split; [lia|]. repeat split; [done|done|simpl; lia|done|done].
Qed.

(** Nothing at the header or in the body of the block changed. *)
Definition kept (s s' : um) (c : Z * Z) : Prop :=
  ∀ x, c.1 - HEADER < x < c.1 + HEADER * c.2 → u_ptr s' x = u_ptr s x ∧ u_size s' x = u_size s x.
(** A header that overlaps no such block. *)
Definition off_used (U : list (Z * Z)) (x : Z) : Prop := ∀ a m, (a, m) ∈ U → x ≤ a - HEADER ∨ a + HEADER * m ≤ x.

Lemma kept_trans s1 s2 s3 c : kept s1 s2 c → kept s2 s3 c → kept s1 s3 c.
Proof. intros H1 H2 x Hx. specialize (H1 x Hx). specialize (H2 x Hx). intuition congruence. Qed.
Lemma differs_kept s s' a U : differs_at a s s' → off_used U a → Forall (kept s s') U.
Proof.
  intros D Ho. apply Forall_forall. intros [b m] Hb x Hx. simpl in Hx. specialize (Ho b m Hb). assert (x ≠ a) as Hn by lia.
  split; [exact (df_ptr _ _ _ D x Hn)|exact (df_size _ _ _ D x Hn)].
Qed.
Lemma off_used_outside h T x : row_ok T → x + HEADER ≤ h ∨ row_end h T ≤ x → off_used (used h T) x.
Proof. intros HT Hx a m Ha%used_range; [|done]. lia. Qed.
Lemma off_used_at h T1 n b T2 x :
  row_ok (T1 ++ (n, b) :: T2) → row_end h T1 ≤ x → x + HEADER ≤ row_end h T1 + HEADER * n →
  off_used (used h T1 ++ used (row_end h T1 + HEADER * n) T2) x.
Proof.
  intros [H1 [_ H2]%Forall_cons]%Forall_app Hx1 Hx2 a m [Ha|Ha]%elem_of_app.
  - apply (off_used_outside h T1); [done| |done]. by right.
  - apply (off_used_outside (row_end h T1 + HEADER * n) T2); [done| |done]. by left.
Qed.
Lemma off_used_frees h T x : row_ok T → x ∈ frees h T → off_used (used h T) x.
Proof.
  intros HT (T1 & n & T2 & -> & ->)%frees_split. rw used_app. cbn [used app]. apply (off_used_at h T1 n true T2); [done|done|].
  apply Forall_app in HT as [_ [Hn _]%Forall_cons]. simpl in Hn. rw /HEADER. lia.
Qed.
Lemma off_used_ring heap s T x : heap_ok heap s T → x ∈ base :: frees heap T → off_used (used heap T) x.
Proof.
  intros I [->|Hx]%elem_of_cons; [|by apply off_used_frees, Hx; exact (hp_row _ _ _ I)]. apply off_used_outside; [exact (hp_row _ _ _ I)|].
  left. exact (proj2 (hp_base _ _ _ I)).
Qed.

Lemma heap_bounds heap s T1 n b T2 :
  heap_ok heap s (T1 ++ (n, b) :: T2) → let bp := row_end heap T1 in
  0 < base < heap ∧ heap ≤ bp ∧ 1 ≤ n ∧ joined T1 ∧ joined T2 ∧ row_ok T1 ∧ row_ok T2 ∧ u_size s bp = n ∧ sizes (u_size s) heap T1 ∧
  sizes (u_size s) (bp + HEADER * n) T2 ∧ row_end (bp + HEADER * n) T2 = u_brk s ∧ u_brk s < 2147483648.
Proof.
  intros I bp. pose proof (hp_base _ _ _ I) as Hb. pose proof (hp_row _ _ _ I) as [H1 [Hn H2]%Forall_cons]%Forall_app. simpl in Hn.
  pose proof (hp_sizes _ _ _ I) as Hz. rw sizes_app in Hz. destruct Hz as (Hz1 & Hz & Hz2).
  pose proof (row_end_ge heap T1 H1). pose proof (hp_brk _ _ _ I) as Hk. pose proof (hp_limit _ _ _ I) as Hl. rw row_end_app row_end_cons in Hk, Hl.
  pose proof (hp_joined _ _ _ I) as J. assert (joined T1) as J1 by exact (joined_prefix _ _ J). rw joined_mid in J. destruct J as [_ [_ J2]].
  rw /HEADER in Hb. repeat split; try done; try lia.
Qed.

Lemma frees_length h T : (length (frees h T) ≤ length T)%nat.
Proof. revert h. induction T as [|[n b] T IH]; intros h; simpl; [done|]. rw length_app. specialize (IH (h + HEADER * n)). destruct b; simpl; lia. Qed.

Lemma free_run heap s T1 n T2 k :
  heap_ok heap s (T1 ++ (n, false) :: T2) → (2 * (length T1 + length T2) < k)%nat →
  ∃ s' T', free k (row_end heap T1 + HEADER) s = Ok (tt, s') ∧ heap_ok heap s' T' ∧
    used heap T' = used heap T1 ++ used (row_end heap T1 + HEADER * n) T2 ∧ Forall (kept s s') (used heap T') ∧
    u_brk s' = u_brk s ∧ (length T' ≤ S (length T1 + length T2))%nat ∧ ∃ z, z ∈ frees heap T' ∧ n ≤ u_size s' z.
Proof.
  intros I Hk. set (bp := row_end heap T1). pose proof (heap_bounds _ _ _ _ _ _ I) as (Hb & Hbp & Hn & J1 & J2 & H1 & H2 & Hsz & Hz1 & Hz2 & Hend & Hlim). fold bp in Hbp, Hsz, Hz2, Hend.
  pose proof (hp_ring _ _ _ I) as Hr. pose proof (hp_freep _ _ _ I) as Hf. pose proof (frees_sorted heap _ (hp_row _ _ _ I)) as Hs. rw frees_app in Hr, Hf, Hs. cbn [frees app] in Hr, Hf, Hs. fold bp in Hr, Hf, Hs.
  rw /free. replace (bp + HEADER - HEADER) with bp by lia. rw gets_bind.
  assert (Forall (λ a, a < bp) (frees heap T1)) as HF1 by (apply Forall_forall; intros a Ha%frees_range; [by destruct Ha|done]).
  assert (Forall (λ a, bp < a) (frees (bp + HEADER * n) T2)) as HF2.
  { apply Forall_forall; intros a Ha%frees_range; [rw /HEADER in Ha; lia|done]. }
  assert (StronglySorted Z.lt (base :: frees heap T1 ++ frees (bp + HEADER * n) T2)) as Hs0.
  { constructor; [done|]. apply Forall_app. split; apply Forall_forall; intros a Ha%frees_range; try done; rw /HEADER in Ha; lia. }
  set (p := lastof base (frees heap T1)).
  assert (free_search k bp (u_freep s) s = Ok (p, s)) as E.
  { apply (free_search_ok s bp _ (frees (bp + HEADER * n) T2)); try done; [lia|]. pose proof (frees_length heap T1). pose proof (frees_length (bp + HEADER * n) T2).
    rw length_app. lia. }
  mgo E. rw links_app in Hr. fold p in Hr. destruct Hr as [Hp1 Hp2].
  assert (p < bp) as Hpb.
  { assert (p ∈ base :: frees heap T1) as [->|Hp]%elem_of_cons by apply lastof_in; [lia|]. rw Forall_forall in HF1. by apply HF1. }
  rw {1}/size gets_bind {1}/ptr gets_bind Hsz. rw -Hend in Hlim.
  pose proof (free_next s p bp n T2) as HN. destruct (joined_next n T2) as [n' T2'] eqn:EJ.
  destruct (HN Hp2 ltac:(lia) Hpb H2 Hn Hz2 Hsz ltac:(lia) Hlim) as (s1 & E1 & D1 & Hf1 & Hsz1 & Hl1). clear HN. mgo E1.
  destruct (joined_next_ok bp n T2 n' T2' (u_size s) EJ H2 J2 Hz2) as (Hn' & H2' & Hz2' & Hend' & Hu' & Hlen' & J2').
  rw {1}/size gets_bind. rw -Hend' in Hlim. pose proof (df_size _ _ _ D1) as Ds. pose proof (df_ptr _ _ _ D1) as Dp.
  assert (∀ a, bp < a → u_size s a = u_size s1 a) as Da by (intros a Ha; rw Ds //; lia).
  destruct (free_prev s1 bp heap T1 n' T2') as (s2 & T' & E2 & D2 & HT' & J' & Hs2 & Hz & Hr & He & Hu & Hin & Hlen & z & Hz0 & Hzn); try done; try lia.
  { rw Ds; [lia|exact (hp_size0 _ _ _ I)]. }
  { apply (sizes_ext (u_size s)); [done| |done]. intros a Ha. rw Ds //. fold bp in Ha. lia. }
  { apply (sizes_ext (u_size s)); [done| |done]. intros a Ha. apply Da. rw /HEADER in Ha. lia. }
  { apply (path_ext (u_ptr s)); [|apply sorted_NoDup, (sorted_app_l (base :: _) _ Hs0)|done]. intros a Ha _. rw Dp //.
    apply elem_of_cons in Ha as [->|Ha]; [lia|]. rw Forall_forall in HF1. specialize (HF1 a Ha). lia. }
  fold p in E2, D2, Hin. mgo E2. rw /set_freep. eexists _, T'. split; [reflexivity|]. simpl.
  assert (heap_ok heap (mkU (u_ptr s2) (u_size s2) p (u_brk s2)) T') as I'.
  { split; simpl; try done; [exact (hp_base _ _ _ I)| |lia]. rw (df_brk _ _ _ D2) (df_brk _ _ _ D1) He Hend' //. }
  split; [done|]. rw Hu' in Hu. split; [done|]. split; [|split; [rw (df_brk _ _ _ D2) (df_brk _ _ _ D1) //|split; [lia|exists z; split; [done|lia]]]].
  assert (Forall (kept s s1) (used heap T')) as K1.
  { apply (differs_kept s s1 bp); [done|]. rw Hu. apply (off_used_at heap T1 n false T2); [exact (hp_row _ _ _ I)|done|]. rw /HEADER /bp. lia. }
  assert (Forall (kept s1 s2) (used heap T')) as K2 by exact (differs_kept s1 s2 p _ D2 (off_used_ring _ _ _ _ I' Hin)).
  rw !Forall_forall in K1, K2 |- *. intros c Hc. exact (kept_trans _ _ _ _ (K1 c Hc) (K2 c Hc)).
Qed.

(** C30. [free] of a block in use: it ends; the block is no longer in use, the others are, with
    their headers and contents as before, and the ring links exactly the free blocks, the
    freed one joined with the free ones next to it. *)
Theorem free_ok heap s T1 n T2 k :
  heap_ok heap s (T1 ++ (n, false) :: T2) → (2 * (length T1 + length T2) < k)%nat →
  ∃ s' T', free k (row_end heap T1 + HEADER) s = Ok (tt, s') ∧ heap_ok heap s' T' ∧
    used heap T' = used heap T1 ++ used (row_end heap T1 + HEADER * n) T2 ∧ Forall (kept s s') (used heap T').
Proof. intros I Hk. destruct (free_run heap s T1 n T2 k I Hk) as (s' & T' & H & H1 & H2 & H3 & _). by exists s', T'. Qed.

(** ** malloc *)

Context (may_grow : Z → Z → bool).
Abbreviation morecore := (morecore may_grow).
Abbreviation malloc_loop := (malloc_loop may_grow).
Abbreviation malloc := (malloc base may_grow).

(** The ring can be walked from any of its nodes. *)
Lemma ring_rot f L x : links f base L base → x ∈ base :: L → ∃ R, links f x R x ∧ x :: R ≡ₚ base :: L.
Proof.
  intros Hl [->|Hx]%elem_of_cons; [by exists L|]. apply list_elem_of_split in Hx as (A & B & ->).
  rw links_app in Hl. destruct Hl as [HA [Hx HB]]. rw -(app_nil_r B) links_app in HB. destruct HB as [HB Hb]. cbn [links] in Hb.
  exists (B ++ base :: A). split.
  - rw links_app. split; [done|]. cbn [links]. split; [done|]. rw -(app_nil_r A) links_app. by split.
  - rw app_comm_cons (Permutation_app_comm (x :: B)). done.
Qed.

(** The loop stops at the first node that is large enough, or asks for more memory when it
    is back at [freep]. *)
Lemma scan kf n s : ∀ R x k, links (u_ptr s) x R (u_freep s) → u_freep s ∉ R → (length R < k)%nat →
  (∃ R1 z R2, R ++ [u_freep s] = R1 ++ z :: R2 ∧ n ≤ u_size s z ∧
     malloc_loop kf k n x (u_ptr s x) s = malloc_take n (lastof x R1) z (u_size s z) s) ∨
  (Forall (λ z, u_size s z < n) (R ++ [u_freep s]) ∧ ∃ k', (k = length R + S k')%nat ∧
     malloc_loop kf k n x (u_ptr s x) s = (r ← morecore kf n; if r =? 0 then mret 0 else q ← ptr r; malloc_loop kf k' n r q) s).
Proof.
  induction R as [|z R IH]; intros x [|k] Hl Hf Hk; simpl in Hk; try lia; cbn [links] in Hl.
  - rw Hl. cbn [malloc_loop app]. rw {1 2}/size !gets_bind. destruct (n <=? u_size s (u_freep s)) eqn:E.
    + left. exists [], (u_freep s), []. split; [done|]. split; [lia|done].
    + right. split; [constructor; [lia|done]|]. exists k. split; [done|]. cbv iota. rw gets_bind Z.eqb_refl. done.
  - destruct Hl as [Hz Hl]. apply not_elem_of_cons in Hf as [Hzf Hf]. rw Hz. cbn [malloc_loop]. rw {1 2}/size !gets_bind.
    destruct (n <=? u_size s z) eqn:E.
    + left. exists [], z, (R ++ [u_freep s]). split; [done|]. split; [lia|done].
    + cbv iota. rw gets_bind. rewrite -> (proj2 (Z.eqb_neq z (u_freep s))) by done. rw ret_bind. cbn [andb]. rw {1}/ptr gets_bind.
      destruct (IH z k Hl Hf ltac:(lia)) as [(R1 & y & R2 & HR & Hy & HE)|(HR & k' & -> & HE)].
      * left. exists (z :: R1), y, R2. split; [by rw -app_comm_cons HR|]. split; [done|]. exact HE.
      * right. split; [constructor; [lia|done]|]. exists k'. split; [simpl; lia|]. exact HE.
Qed.

(** A block of [n] units, with its header 8 bytes before [r], is taken out of the free memory. *)
Definition allocated (heap : Z) (s : um) (T : row) (n r : Z) (s' : um) : Prop :=
  ∃ T', heap_ok heap s' T' ∧ (∃ U1 U2, used heap T = U1 ++ U2 ∧ used heap T' = U1 ++ (r - HEADER, n) :: U2) ∧
    Forall (kept s s') (used heap T).

Lemma take_exact heap s T1 n T2 :
  let z := row_end heap T1 in let p := lastof base (frees heap T1) in
  heap_ok heap s (T1 ++ (n, true) :: T2) →
  ∃ s', malloc_take n p z n s = Ok (z + HEADER, s') ∧ allocated heap s (T1 ++ (n, true) :: T2) n (z + HEADER) s'.
Proof.
  intros z p I. pose proof (heap_bounds _ _ _ _ _ _ I) as (Hb & Hbp & Hn & J1 & J2 & H1 & H2 & Hsz & Hz1 & Hz2 & Hend & Hlim). fold z in Hbp, Hsz, Hz2, Hend.
  pose proof (hp_ring _ _ _ I) as Hr. rw frees_app in Hr. cbn [frees app] in Hr. fold z in Hr. rw links_app in Hr. fold p in Hr. destruct Hr as [Hp1 [Hp Hp2]].
  assert (p < z) as Hpb.
  { assert (p ∈ base :: frees heap T1) as [->|Hp'%frees_range]%elem_of_cons by apply lastof_in; [lia|by destruct Hp'|done]. }
  rw /malloc_take Z.eqb_refl /ptr gets_bind /set_ptr modify_bind /set_freep modify_bind. eexists. split; [reflexivity|].
  exists (T1 ++ (n, false) :: T2). simpl. split; [|split].
  - split; simpl.
    + exact (hp_base _ _ _ I).
    + apply Forall_app. split; [done|]. by constructor.
    + by apply joined_used.
    + rw frees_app. cbn [frees app]. fold z. rw links_app. split.
      * apply path_upd_last; [|done]. apply NoDup_cons. split; [intros H%frees_range; [lia|done]|]. by apply sorted_NoDup, frees_sorted.
      * apply (links_head (u_ptr s) _ z); [done|fold p; by rw /upd Z.eqb_refl|]. intros a Ha%frees_range; [|done]. rw /upd. rewrite -> (proj2 (Z.eqb_neq _ _)); [done|].
        fold p. rw /HEADER in Ha. lia.
    + pose proof (hp_sizes _ _ _ I) as Hz. rw !sizes_app in Hz |- *. done.
    + exact (hp_size0 _ _ _ I).
    + rw (hp_brk _ _ _ I) !row_end_app !row_end_cons //.
    + rw row_end_app row_end_cons Hend. done.
    + rw frees_app app_comm_cons. apply elem_of_app. left. apply lastof_in.
  - exists (used heap T1), (used (z + HEADER * n) T2). rw !used_app. cbn [used app]. fold z. by replace (z + HEADER - HEADER) with z by lia.
  - apply (differs_kept _ _ p).
    + split; simpl; try done; intros x Hx; rw /upd; by rewrite -> (proj2 (Z.eqb_neq _ _)) by done.
    + apply (off_used_ring heap s _ _ I). rw frees_app app_comm_cons. apply elem_of_app. left. apply lastof_in.
Qed.

Lemma take_split heap s T1 m n T2 :
  let z := row_end heap T1 in let p := lastof base (frees heap T1) in
  heap_ok heap s (T1 ++ (m, true) :: T2) → 1 ≤ n < m →
  ∃ s', malloc_take n p z m s = Ok (z + HEADER * (m - n) + HEADER, s') ∧
    allocated heap s (T1 ++ (m, true) :: T2) n (z + HEADER * (m - n) + HEADER) s'.
Proof.
  intros z p I Hnm. pose proof (heap_bounds _ _ _ _ _ _ I) as (Hb & Hbp & Hm & J1 & J2 & H1 & H2 & Hsz & Hz1 & Hz2 & Hend & Hlim). fold z in Hbp, Hsz, Hz2, Hend.
  set (z' := z + HEADER * (m - n)). assert (z < z' ∧ z' + HEADER * n = z + HEADER * m) as [Hzz Hze] by (rw /z' /HEADER; lia).
  rw /malloc_take. rewrite -> (proj2 (Z.eqb_neq m n)) by lia. rw /set_size modify_bind. fold z'. rw modify_bind /set_freep modify_bind. eexists. split; [reflexivity|].
  set (s' := mkU _ _ _ _).
  assert (∀ x, x ≠ z → x ≠ z' → u_size s' x = u_size s x) as Hsame.
  { intros x Hx Hx'. rw /s' /= /upd. by rewrite -> !(proj2 (Z.eqb_neq _ _)) by done. }
  assert (frees heap (T1 ++ (m - n, true) :: (n, false) :: T2) = frees heap (T1 ++ (m, true) :: T2)) as HF.
  { rw !frees_app. cbn [frees app]. fold z. fold z'. by rw Hze. }
  exists (T1 ++ (m - n, true) :: (n, false) :: T2). split; [|split].
  - split; try rw HF.
    + exact (hp_base _ _ _ I).
    + apply Forall_app. split; [done|]. constructor; [simpl; lia|]. constructor; [simpl; lia|done].
    + pose proof (hp_joined _ _ _ I) as J. rw joined_mid in J. destruct J as [J _]. apply joined_mid. split; [by apply (joined_size _ _ m)|]. by repeat split.
    + exact (hp_ring _ _ _ I).
    + rw sizes_app. cbn [sizes]. fold z. fold z'. rw Hze. split; [|split; [|split]].
      * apply (sizes_ext (u_size s)); [done| |done]. intros a Ha. fold z in Ha. rw Hsame //; lia.
      * rw /s' /= /upd Z.eqb_refl. by rewrite -> (proj2 (Z.eqb_neq z z')) by lia.
      * by rw /s' /= /upd Z.eqb_refl.
      * apply (sizes_ext (u_size s)); [done| |done]. intros a Ha. rw -Hze /HEADER in Ha. rw Hsame //; lia.
    + rw Hsame; [lia|lia|]. exact (hp_size0 _ _ _ I).
    + rw /s' /= (hp_brk _ _ _ I) !row_end_app !row_end_cons. fold z. fold z'. by rw Hze.
    + rw row_end_app !row_end_cons. fold z. fold z'. by rw Hze Hend.
    + rw frees_app app_comm_cons. apply elem_of_app. left. apply lastof_in.
  - exists (used heap T1), (used (z + HEADER * m) T2). rw !used_app. cbn [used app]. fold z. fold z'. rw Hze. by replace (z' + HEADER - HEADER) with z' by lia.
  - apply Forall_forall. intros [a k] Ha x Hx. simpl in Hx. rw used_app in Ha. cbn [used app] in Ha. split; [done|]. rw Hsame; [| |done]; intros ->.
    + destruct (off_used_at heap T1 m true T2 z (hp_row _ _ _ I) ltac:(done) ltac:(fold z; rw /HEADER; lia) a k Ha); lia.
    + destruct (off_used_at heap T1 m true T2 z' (hp_row _ _ _ I) ltac:(fold z; lia) ltac:(fold z; rw -Hze /HEADER; lia) a k Ha); lia.
Qed.

Lemma take_run heap s T p z n :
  heap_ok heap s T → p ∈ base :: frees heap T → u_ptr s p = z → z ∈ base :: frees heap T → 1 ≤ n ≤ u_size s z →
  ∃ r s', malloc_take n p z (u_size s z) s = Ok (r, s') ∧ allocated heap s T n r s'.
Proof.
  intros I Hp Hpz Hz Hn. apply elem_of_cons in Hz as [->|Hz]; [rw (hp_size0 _ _ _ I) in Hn; lia|].
  apply frees_split in Hz as (T1 & m & T2 & -> & Ez). pose proof (heap_bounds _ _ _ _ _ _ I) as (Hb & Hbp & Hm & J1 & J2 & H1 & H2 & Hsz & _).
  assert (p = lastof base (frees heap T1)) as ->.
  { pose proof (hp_ring _ _ _ I) as Hr. pose proof (frees_sorted heap _ (hp_row _ _ _ I)) as Hs%sorted_NoDup.
    assert (base ∉ frees heap (T1 ++ (m, true) :: T2)) as Hnb by (intros H%frees_range; [lia|exact (hp_row _ _ _ I)]).
    rw frees_app in Hr, Hs, Hnb, Hp. cbn [frees app] in Hr, Hs, Hnb, Hp. rw -Ez in Hr, Hs, Hnb, Hp.
    apply (links_pred (u_ptr s) base (frees heap T1) z (frees (z + HEADER * m) T2) base); try done; [by apply NoDup_cons|]. rw Ez. lia. }
  rw -Ez in Hsz. rw Hsz in Hn |- *. rw Ez. destruct (decide (m = n)) as [->|Hne].
  - destruct (take_exact heap s T1 n T2 I) as (s' & E & A). by eexists _, s'.
  - destruct (take_split heap s T1 m n T2 I ltac:(lia)) as (s' & E & A). by eexists _, s'.
Qed.

Lemma malloc_walk heap s T n kf k :
  heap_ok heap s T → 1 ≤ n → (length T < k)%nat →
  (∃ r s', malloc_loop kf k n (u_freep s) (u_ptr s (u_freep s)) s = Ok (r, s') ∧ allocated heap s T n r s') ∨
  (Forall (λ z, u_size s z < n) (frees heap T) ∧ ∃ k', (k ≤ length T + S k')%nat ∧
     malloc_loop kf k n (u_freep s) (u_ptr s (u_freep s)) s =
       (r ← morecore kf n; if r =? 0 then mret 0 else q ← ptr r; malloc_loop kf k' n r q) s).
Proof.
  intros I Hn Hk. set (f := u_freep s). destruct (ring_rot (u_ptr s) (frees heap T) f (hp_ring _ _ _ I) (hp_freep _ _ _ I)) as (R & HR & Hperm).
  pose proof (Permutation_length Hperm) as HlR. pose proof (frees_length heap T) as HlT. cbn [length] in HlR.
  assert (NoDup (f :: R)) as Hnd.
  { rw Hperm. apply NoDup_cons. split; [|apply sorted_NoDup, frees_sorted, (hp_row _ _ _ I)]. intros H%frees_range; [|exact (hp_row _ _ _ I)].
    pose proof (hp_base _ _ _ I) as Hb. rw /HEADER in Hb. lia. }
  apply NoDup_cons in Hnd as [HfR _].
  assert (∀ x, x ∈ R ++ [f] → x ∈ base :: frees heap T) as Hin.
  { intros x Hx. rw -Hperm. set_solver. }
  destruct (scan kf n s R f k HR HfR ltac:(lia)) as [(R1 & z & R2 & HE & Hz & ->)|(Hall & k' & -> & ->)].
  - left. apply (take_run heap s T); try done.
    + assert (lastof f R1 ∈ f :: R1) as [->|Hx]%elem_of_cons by apply lastof_in; apply Hin; [set_solver|]. fold f in HE. rw HE. set_solver.
    + assert (path (u_ptr s) f (R ++ [f])) as Hp.
      { rw -(app_nil_r R) links_app in HR. destruct HR as [HR1 HR2]. rw path_app. by split. }
      fold f in HE. rw HE path_app in Hp. by destruct Hp as [_ [Hp _]].
    + apply Hin. fold f in HE. rw HE. set_solver.
  - right. split; [|exists k'; split; [lia|done]]. rw !Forall_forall in Hall |- *. intros z Hz. apply Hall. fold f.
    assert (z ∈ f :: R) as Hz' by (rw Hperm; by right). set_solver.
Qed.

(** The units asked of the kernel. *)
Definition more_units (n : Z) : Z := if n <? 4096 then 4096 else n.

(** The kernel lets no process reach [KERNBASE]. *)
Hypothesis grow_kernbase : ∀ b n, may_grow b n = true → 0 ≤ b + n < 2147483648.

Lemma morecore_run heap s T n k :
  heap_ok heap s T → 1 ≤ n → HEADER * n < 2147483648 → (2 * length T < k)%nat →
  (may_grow (u_brk s) (more_units n * HEADER) = false ∧ morecore k n s = Ok (0, s)) ∨
  (may_grow (u_brk s) (more_units n * HEADER) = true ∧ ∃ s' T', morecore k n s = Ok (u_freep s', s') ∧ heap_ok heap s' T' ∧
     used heap T' = used heap T ∧ Forall (kept s s') (used heap T) ∧ (length T' ≤ S (length T))%nat ∧
     ∃ z, z ∈ frees heap T' ∧ n ≤ u_size s' z).
Proof.
  intros I Hn Hs Hk. rw /morecore. fold (more_units n). set (nu := more_units n).
  assert (n ≤ nu ∧ 1 ≤ nu ∧ nu * HEADER < 2147483648) as (Hnu & Hnu1 & Hnu2).
  { rw /nu /more_units. destruct (n <? 4096) eqn:E; rw /HEADER in Hs |- *; lia. }
  rw s32_small; [rw /HEADER in Hnu2 |- *; lia|]. rw /sbrk.
  assert (0 < u_brk s) as Hbrk.
  { rw (hp_brk _ _ _ I). pose proof (row_end_ge heap T (hp_row _ _ _ I)). pose proof (hp_base _ _ _ I) as Hb. rw /HEADER in Hb. lia. }
  destruct (may_grow (u_brk s) (nu * HEADER)) eqn:EG; [right|left]; (split; [done|]); rw bind_assoc gets_bind EG; [|by rw ret_bind].
  rw bind_assoc modify_bind ret_bind. rewrite -> (proj2 (Z.eqb_neq _ (-1))) by lia. rw /set_size modify_bind. cbn [u_ptr u_size u_freep u_brk].
  set (s1 := mkU _ _ _ _). pose proof (hp_brk _ _ _ I) as Hb. pose proof (grow_kernbase _ _ EG) as HG.
  assert (heap_ok heap s1 (T ++ [(nu, false)])) as I1.
  { pose proof (row_end_ge heap T (hp_row _ _ _ I)) as Hge. pose proof (hp_base _ _ _ I) as Hbase. split; simpl.
    - done.
    - apply Forall_app. split; [exact (hp_row _ _ _ I)|]. by constructor.
    - apply joined_used. split; [exact (hp_joined _ _ _ I)|done].
    - rw frees_app /= app_nil_r. exact (hp_ring _ _ _ I).
    - rw sizes_app /= -Hb /upd Z.eqb_refl. split; [|done]. apply (sizes_ext (u_size s)); [exact (hp_row _ _ _ I)| |exact (hp_sizes _ _ _ I)].
      intros z Hz. by rewrite -> (proj2 (Z.eqb_neq _ _)) by lia.
    - rw /upd. rewrite -> (proj2 (Z.eqb_neq _ _)) by (rw /HEADER in Hbase; lia). exact (hp_size0 _ _ _ I).
    - rw row_end_app -Hb row_end_cons /row_end /row_size /=. lia.
    - rw row_end_app -Hb row_end_cons /row_end /row_size /=. lia.
    - rw frees_app /= app_nil_r. exact (hp_freep _ _ _ I). }
  destruct (free_run heap s1 T nu [] k I1 ltac:(simpl; lia)) as (s' & T' & E & I' & Hu & HK & _ & Hlen & z & Hz & Hzn).
  rw -Hb in E. mgo E. rw /= app_nil_r in Hu. eexists _, T'. split; [reflexivity|]. split; [done|]. split; [done|]. rw Hu in HK. split; [|split; [simpl in Hlen; lia|exists z; split; [done|lia]]].
  assert (Forall (kept s s1) (used heap T)) as K1.
  { apply Forall_forall. intros [a m] Ha%used_range x Hx; [|exact (hp_row _ _ _ I)]. simpl in Hx. split; [done|]. rw /s1 /= /upd.
    by rewrite -> (proj2 (Z.eqb_neq _ _)) by lia. }
  rw !Forall_forall in K1, HK |- *. intros c Hc. exact (kept_trans _ _ _ _ (K1 c Hc) (HK c Hc)).
Qed.

(** The blocks in use lie one after another. *)
Lemma used_sorted h T : row_ok T → StronglySorted (λ c d : Z * Z, c.1 + HEADER * c.2 ≤ d.1) (used h T).
Proof.
  revert h. induction T as [|[n b] T IH]; intros h HT; simpl; [constructor|]. apply Forall_cons in HT as [Hn HT].
  destruct b; simpl; [by apply IH|]. constructor; [by apply IH|]. apply Forall_forall. intros [a m] Ha%used_range; [|done]. simpl. lia.
Qed.
Lemma used_disjoint h T U1 c U2 : row_ok T → used h T = U1 ++ c :: U2 →
  Forall (λ d, d.1 + HEADER * d.2 ≤ c.1 ∨ c.1 + HEADER * c.2 ≤ d.1) (U1 ++ U2).
Proof.
  intros HT HU. pose proof (used_sorted h T HT) as Hs. rw HU in Hs. clear HU. apply Forall_app. induction U1 as [|d U1 IH].
  - split; [done|]. apply StronglySorted_inv in Hs as [_ Hs]. eapply Forall_impl; [exact Hs|]. simpl. auto.
  - apply StronglySorted_inv in Hs as [Hs Hd]. destruct (IH Hs) as [H1 H2]. split; [|done]. constructor; [|done].
    apply Forall_app in Hd as [_ [Hd _]%Forall_cons]. by left.
Qed.

(** The units for [nbytes] bytes and the header. *)
Definition units (nbytes : Z) : Z := (nbytes + HEADER - 1) / HEADER + 1.
(** The outcome of [malloc]: a block apart from all others; or none, when no free block is
    large enough and the kernel does not grant one. *)
Definition malloc_result (heap : Z) (s : um) (T : row) (nbytes r : Z) (s' : um) : Prop :=
  (0 < r ∧ heap + HEADER ≤ r ∧ r + nbytes ≤ u_brk s' ∧
   Forall (λ d, d.1 + HEADER * d.2 ≤ r - HEADER ∨ r + nbytes ≤ d.1) (used heap T) ∧ allocated heap s T (units nbytes) r s') ∨
  (r = 0 ∧ heap_ok heap s' T ∧ Forall (kept s s') (used heap T) ∧ Forall (λ z, u_size s' z < units nbytes) (frees heap T) ∧
   may_grow (u_brk s) (more_units (units nbytes) * HEADER) = false).

Lemma units_enough nbytes : 0 ≤ nbytes → 1 ≤ units nbytes ∧ nbytes + HEADER ≤ HEADER * units nbytes.
Proof. intros H. rw /units /HEADER. dlia. Qed.

Lemma allocated_result heap s T nbytes r s' : 0 ≤ nbytes → allocated heap s T (units nbytes) r s' → malloc_result heap s T nbytes r s'.
Proof.
  intros Hn A. left. pose proof (units_enough nbytes Hn) as [Hu1 Hu2]. pose proof A as (T' & I & (U1 & U2 & HU & HU') & _).
  pose proof (used_disjoint heap T' U1 _ U2 (hp_row _ _ _ I) HU') as HD. rw -HU in HD.
  destruct (used_range heap T' (r - HEADER) (units nbytes)) as (Hr1 & Hr2 & _); [exact (hp_row _ _ _ I)|rw HU'; set_solver|].
  pose proof (hp_base _ _ _ I) as Hb. rw -(hp_brk _ _ _ I) in Hr2. rw /HEADER in Hb, Hr1, Hr2, Hu2 |- *.
  split; [lia|]. split; [lia|]. split; [lia|]. split; [|done]. eapply Forall_impl; [exact HD|]. intros d. simpl. rw /HEADER. lia.
Qed.

Lemma malloc_run heap s T nbytes k :
  heap_ok heap s T → 0 ≤ nbytes → HEADER * units nbytes < 2147483648 → (2 * length T + 4 ≤ k)%nat →
  ∃ r s', malloc_loop k k (units nbytes) (u_freep s) (u_ptr s (u_freep s)) s = Ok (r, s') ∧ malloc_result heap s T nbytes r s'.
Proof.
  intros I Hn Hs Hk. pose proof (units_enough nbytes Hn) as [Hu _].
  destruct (malloc_walk heap s T (units nbytes) k k I Hu ltac:(lia)) as [(r & s' & E & A)|(Hall & k' & Hk' & ->)].
  { exists r, s'. split; [done|]. by apply allocated_result. }
  destruct (morecore_run heap s T (units nbytes) k I Hu Hs ltac:(lia)) as [[HG E]|(_ & s1 & T1 & E & I1 & HU & HK & Hlen & z & Hz & Hzn)]; mgo E.
  - exists 0, s. split; [done|]. right. split; [done|]. split; [done|]. split; [|done]. apply Forall_forall. by intros c _ x _.
  - assert (0 < u_freep s1) as Hf.
    { pose proof (hp_base _ _ _ I1) as Hb. pose proof (hp_freep _ _ _ I1) as [->|Hf%frees_range]%elem_of_cons; [lia| |exact (hp_row _ _ _ I1)]. rw /HEADER in Hb. lia. }
    rewrite -> (proj2 (Z.eqb_neq _ _)) by lia. rw /ptr gets_bind.
    destruct (malloc_walk heap s1 T1 (units nbytes) k k' I1 Hu ltac:(lia)) as [(r & s' & E' & A)|(Hall' & _)].
    + exists r, s'. split; [done|]. apply allocated_result; [done|]. destruct A as (T' & I' & HA & HK'). rw HU in HA, HK'. exists T'. split; [done|]. split; [done|].
      rw !Forall_forall in HK, HK' |- *. intros c Hc. exact (kept_trans _ _ _ _ (HK c Hc) (HK' c Hc)).
    + exfalso. rw Forall_forall in Hall'. specialize (Hall' z Hz). lia.
Qed.

(** Before the first call there is no ring. *)
Definition heap_fresh (heap : Z) (s : um) : Prop :=
  u_freep s = 0 ∧ u_brk s = heap ∧ 0 < base ∧ base + HEADER ≤ heap < 2147483648.
Definition heap_inv (heap : Z) (s : um) (T : row) : Prop := heap_ok heap s T ∨ (T = [] ∧ heap_fresh heap s).

(** C15. [malloc]: from a fresh heap or one where the ring links exactly the free blocks, for
    any request the kernel's [int] can hold, it ends; it returns a block inside the heap that
    overlaps none in use and has room for [nbytes] bytes, or 0 when no free block is large
    enough and the kernel grants none.  The ring is kept, and neither the header nor the
    contents of any block in use change. *)
Theorem malloc_ok heap s T nbytes k :
  heap_inv heap s T → 0 ≤ nbytes → HEADER * units nbytes < 2147483648 → (2 * length T + 4 ≤ k)%nat →
  ∃ r s', malloc k nbytes s = Ok (r, s') ∧ malloc_result heap s T nbytes r s'.
Proof.
  intros HI Hn Hs Hk. rw /malloc u32_small; [rw /units /HEADER in Hs |- *; dlia|]. fold (units nbytes). rw gets_bind.
  destruct HI as [I|[-> (Hf & Hb & Hb1 & Hb2)]].
  - assert (u_freep s ≠ 0) as Hf.
    { pose proof (hp_base _ _ _ I) as Hb. pose proof (hp_freep _ _ _ I) as [->|Hf%frees_range]%elem_of_cons; [lia| |exact (hp_row _ _ _ I)]. rw /HEADER in Hb. lia. }
    rewrite -> (proj2 (Z.eqb_neq _ _)) by done. rw ret_bind gets_bind {1}/ptr gets_bind. by apply malloc_run.
  - rw Hf Z.eqb_refl /set_freep /set_ptr /set_size !bind_assoc !modify_bind gets_bind {1}/ptr gets_bind. cbn [u_ptr u_size u_freep u_brk].
    set (s1 := mkU _ _ _ _). assert (heap_ok heap s1 []) as I.
    { split; simpl; [lia|by apply Forall_nil|done|by rw /upd Z.eqb_refl|done|by rw /upd Z.eqb_refl|rw Hb /row_end /row_size /=; lia|rw /row_end /row_size /=; lia|by left]. }
    destruct (malloc_run heap s1 [] nbytes k I Hn Hs Hk) as (r & s' & E & HR). exists r, s'. split; [exact E|].
    destruct HR as [(H1 & H2 & H3 & H4 & T' & I' & HA & _)|(H1 & H2 & _ & H4 & H5)]; [left|right]; [|done].
    split; [done|]. split; [done|]. split; [done|]. split; [done|]. exists T'. split; [done|]. split; [done|]. by apply Forall_nil.
Qed.

End heap.

Definition ex_grow (b n : Z) : bool := (0 <=? b + n) && (b + n <? 1048576).
Lemma ex_grow_kernbase b n : ex_grow b n = true → 0 ≤ b + n < 2147483648.
Proof. rw /ex_grow. lia. Qed.
Lemma malloc_ok_witness :
  ∃ r s', malloc 100 ex_grow 8 10 (mkU (λ _, 0) (λ _, 0) 0 4096) = Ok (r, s') ∧ malloc_result 100 ex_grow 4096 (mkU (λ _, 0) (λ _, 0) 0 4096) [] 10 r s'.
Proof.
  apply (malloc_ok 100 ex_grow ex_grow_kernbase 4096 (mkU (λ _, 0) (λ _, 0) 0 4096) [] 10 8).
  - right. by repeat split.
  - lia.
  - done.
  - simpl. lia.
Defined.

Definition ex_heap : um :=
  mkU (λ a, if a =? 100 then 4096 else 100) (λ a, if a =? 4096 then 4094 else if a =? 36848 then 2 else 0) 100 36864.
Lemma free_ok_witness :
  ∃ s' T', free 100 36856 ex_heap = Ok (tt, s') ∧ heap_ok 100 4096 s' T' ∧ used 4096 T' = [] ∧ Forall (kept ex_heap s') (used 4096 T').
Proof.
  apply (free_ok 100 4096 ex_heap [(4094, true)] 2 [] 100); [|simpl; lia]. split; try done.
  - by repeat constructor.
  - by left.
Defined.

(** A request of nearly 2^32 bytes wraps: it is given a block of one unit, with room for
    nothing. *)
Lemma malloc_wraps :
  match malloc 100 ex_grow 8 4294967295 (mkU (λ _, 0) (λ _, 0) 0 4096) with
  | Ok (r, s') => (0 <? r) && (u_size s' (r - HEADER) =? 1)
  | _ => false
  end = true.
Proof. by vm_compute. Qed.
