(* ===== verification/Mkfs.v ===== *)
(** * Making a file system (mkfs.c)

    The image is the list of its blocks, which a write past its end extends.  mkfs runs on
    a little-endian machine; a failed assertion or an error of the image's file ends it as
    [Panic].  [struct dinode] is the disk fields of [inode], and an input file is the pieces
    that [read] returns of it.

    The image that mkfs makes is a well-formed file system to the kernel: the blocks and
    inodes of fs.c, in which every file has the name and the contents it was given. *)

From S2P Require Import Prelude Params Bytes Bio BioSpec Log LogSpec Tx Fs FsSpec FsFile Files FsDir.

Definition NINODES : Z := 200.
Definition nbitmap : Z := FSSIZE / (BSIZE * 8) + 1.
Definition ninodeblocks : Z := NINODES / IPB + 1.
Definition nlog : Z := LOGSIZE.
Definition nmeta : Z := 2 + nlog + ninodeblocks + nbitmap.
Definition nblocks : Z := FSSIZE - nmeta.

(** The bytes of [y] are those of [x], the least first. *)
Definition xshort (x : Z) : Z := get16 [u8 x; u8 (Z.shiftr x 8)] 0.
Definition xint (x : Z) : Z := get32 [u8 x; u8 (Z.shiftr x 8); u8 (Z.shiftr x 16); u8 (Z.shiftr x 24)] 0.

Definition sb : superblock :=
  mkSb (xint FSSIZE) (xint nblocks) (xint NINODES) (xint nlog) (xint 2) (xint (2 + nlog)) (xint (2 + nlog + ninodeblocks)).

Record mk := mkMk { k_img : list block; k_freeinode : Z; k_freeblock : Z }.

(** The block at the offset that [lseek] is given. *)
Definition sect (sec : Z) : nat := Z.to_nat (u32 (sec * BSIZE) / BSIZE).
Definition wsect (sec : Z) (d : block) : M mk unit :=
  modify (λ s, let i := sect sec in
    mkMk (<[i := d]> (k_img s ++ replicate (S i - length (k_img s)) zeros)) (k_freeinode s) (k_freeblock s)).
Definition rsect (sec : Z) : M mk block :=
  img ← gets k_img;
  match img !! sect sec with
  | Some d => mret d
  | None => panic "read"
  end.

(** [freeblock++] *)
Definition next_block : M mk Z :=
  fb ← gets k_freeblock;
  modify (λ s, mkMk (k_img s) (k_freeinode s) (u32 (fb + 1))) ;;
  mret fb.

(** A [struct dinode] of zeros. *)
Definition dinode0 : inode := mkInode 0 0 0 (mkSl false 0) false 0 0 0 0 0 (replicate 13 0).
Definition winode (inum : Z) (ip : inode) : M mk unit :=
  let bn := IBLOCK inum sb in
  d ← rsect bn;
  wsect bn (store_dinode d (dinode_off inum) ip).
Definition rinode (inum : Z) : M mk inode :=
  let bn := IBLOCK inum sb in
  d ← rsect bn;
  mret (load_dinode d (dinode_off inum) dinode0).

Definition ialloc (type : Z) : M mk Z :=
  inum ← gets k_freeinode;
  modify (λ s, mkMk (k_img s) (u32 (inum + 1)) (k_freeblock s)) ;;
  let din := set_isize (xint 0) (set_inlink (xshort 1) (set_itype (xshort type) dinode0)) in
  winode inum din ;;
  mret inum.

Fixpoint balloc_bits (k : nat) (i : Z) (d : block) : block :=
  match k with
  | O => d
  | S k => balloc_bits k (i + 1) (set_bit d i)
  end.
Definition balloc (used : Z) : M mk unit :=
  if negb (used <? BSIZE * 8) then panic "assert: used < BSIZE*8" else
  wsect (sb_bmapstart sb) (balloc_bits (Z.to_nat used) 0 zeros).

(** An entry of the indirect block, allocated when it is 0. *)
Definition iappend_entry (din : inode) (fbn : Z) : M mk (Z * inode) :=
  let j := (4 * Z.to_nat (fbn - NDIRECT))%nat in
  indirect ← rsect (xint (i_addrs din !!! 12%nat));
  indirect ← (if get32 indirect j =? 0 then
                fb ← next_block;
                let indirect := put32 indirect j (xint fb) in
                wsect (xint (i_addrs din !!! 12%nat)) indirect ;; mret indirect
              else mret indirect);
  mret (xint (get32 indirect j), din).
(** The block of the file that byte [off] is in, allocated when it is not there. *)
Definition iappend_block (din : inode) (fbn : Z) : M mk (Z * inode) :=
  if fbn <? NDIRECT then
    din ← (if xint (i_addrs din !!! Z.to_nat fbn) =? 0 then
             fb ← next_block; mret (set_iaddrs (<[Z.to_nat fbn := xint fb]> (i_addrs din)) din)
           else mret din);
    mret (xint (i_addrs din !!! Z.to_nat fbn), din)
  else
    din ← (if xint (i_addrs din !!! 12%nat) =? 0 then
             fb ← next_block; mret (set_iaddrs (<[12%nat := xint fb]> (i_addrs din)) din)
           else mret din);
    iappend_entry din fbn.
(** The loop of [iappend], with [off] and the bytes left. *)
Fixpoint iappend_loop (k : nat) (din : inode) (off : Z) (p : list Z) : M mk (inode * Z) :=
  match p with
  | [] => mret (din, off)
  | _ =>
      let fbn := off / BSIZE in
      if negb (fbn <? MAXFILE) then panic "assert: fbn < MAXFILE" else
      r ← iappend_block din fbn;
      let '(x, din) := r in
      let n1 := Z.min (Z.of_nat (length p)) ((fbn + 1) * BSIZE - off) in
      buf ← rsect x;
      wsect x (splice buf (Z.to_nat (off - fbn * BSIZE)) (take (Z.to_nat n1) p)) ;;
      match k with
      | O => panic "iappend: out of fuel"
      | S k => iappend_loop k din (off + n1) (drop (Z.to_nat n1) p)
      end
  end.
Definition iappend (inum : Z) (p : list Z) : M mk unit :=
  din ← rinode inum;
  let off := xint (i_size din) in
  r ← iappend_loop (length p) din off p;
  winode inum (set_isize (xint r.2) r.1).

(** An argument: its name, and the pieces that reads of the file return when it can be opened. *)
Definition arg : Type := (list Z * option (list (list Z)))%type.

Fixpoint append_pieces (inum : Z) (l : list (list Z)) : M mk unit :=
  match l with
  | [] => mret tt
  | buf :: l => iappend inum buf ;; append_pieces inum l
  end.
Definition add_file (rootino : Z) (a : arg) : M mk unit :=
  let '(argv, file) := a in
  if existsb (Z.eqb SLASH) argv then panic "assert: index(argv[i], '/') == 0" else
  match file with
  | None => panic "open"
  | Some pieces =>
      let name := match argv with c :: argv' => if c =? 95 then argv' else argv | [] => argv end in
      inum ← ialloc T_FILE;
      iappend rootino (mk_dirent (xshort inum) name) ;;
      append_pieces inum pieces
  end.
Fixpoint add_files (rootino : Z) (l : list arg) : M mk unit :=
  match l with
  | [] => mret tt
  | a :: l => add_file rootino a ;; add_files rootino l
  end.

Fixpoint clear_blocks (k : nat) (i : Z) : M mk unit :=
  match k with
  | O => mret tt
  | S k => wsect i zeros ;; clear_blocks k (i + 1)
  end.
Definition sb_bytes : list Z :=
  put32 (put32 (put32 (put32 (put32 (put32 (put32 (replicate 28 0) 0 (sb_size sb)) 4 (sb_nblocks sb)) 8 (sb_ninodes sb))
    12 (sb_nlog sb)) 16 (sb_logstart sb)) 20 (sb_inodestart sb)) 24 (sb_bmapstart sb).
Definition DOT : Z := 46.
Definition main (argv : list arg) : M mk unit :=
  modify (λ s, mkMk (k_img s) (k_freeinode s) nmeta) ;;
  clear_blocks (Z.to_nat FSSIZE) 0 ;;
  wsect 1 (splice zeros 0 sb_bytes) ;;
  rootino ← ialloc T_DIR;
  if negb (rootino =? ROOTINO) then panic "assert: rootino == ROOTINO" else
  iappend rootino (mk_dirent (xshort rootino) [DOT]) ;;
  iappend rootino (mk_dirent (xshort rootino) [DOT; DOT]) ;;
  add_files rootino argv ;;
  din ← rinode rootino;
  let off := xint (i_size din) in
  let off := (off / BSIZE + 1) * BSIZE in
  winode rootino (set_isize (xint off) din) ;;
  fb ← gets k_freeblock;
  balloc fb.
(** The start: the image's file is opened with [O_TRUNC]. *)
Definition mk0 : mk := mkMk [] 1 0.
