(* ===== verification/MkfsSpec.v ===== *)
(** * The image that mkfs makes

    A file under construction has its data in whole blocks, numbered from [nmeta] on in the
    order of their allocation; [iappend] extends it, and keeps every other file as it is.
    The image that results is a well-formed file system of fs.c. *)

From S2P Require Import Prelude Params Bytes Bio BioSpec Log LogSpec Tx Fs FsSpec FsFile Files FsDir Mkfs.

(** ** Bytes on the disk *)

Lemma xshort_eq x : xshort x = u16 x.
Proof. rw /xshort /get16 /byte_at /= /u8 /u16 Z.shiftr_div_pow2 //. change (2 ^ 8) with 256. dlia. Qed.
Lemma xint_eq x : xint x = u32 x.
Proof. rw /xint /get32 /get16 /byte_at /= /u8 /u32 !Z.shiftr_div_pow2 //. change (2 ^ 8) with 256. change (2 ^ 16) with 65536. change (2 ^ 24) with 16777216. dlia. Qed.
Lemma xint_small x : 0 ≤ x < 4294967296 → xint x = x.
Proof. intros H. by rw xint_eq u32_small. Qed.
Lemma xshort_small x : 0 ≤ x < 65536 → xshort x = x.
Proof. intros H. by rw xshort_eq u16_small. Qed.

Lemma put_addrs_other16 a : ∀ d o k, (o + 4 * length a ≤ length d)%nat → (k + 2 ≤ o ∨ o + 4 * length a ≤ k)%nat → get16 (put_addrs d o a) k = get16 d k.
Proof.
  induction a as [|x a IH]; intros d o k Hd Hk; [done|]. cbn [put_addrs length] in Hd, Hk |- *. rw IH; [rw length_put32; lia|lia|].
  apply get16_put32_ne; lia.
Qed.
Lemma put_addrs_other32 a : ∀ d o k, (o + 4 * length a ≤ length d)%nat → (k + 4 ≤ o ∨ o + 4 * length a ≤ k)%nat → get32 (put_addrs d o a) k = get32 d k.
Proof.
  induction a as [|x a IH]; intros d o k Hd Hk; [done|]. cbn [put_addrs length] in Hd, Hk |- *. rw IH; [rw length_put32; lia|lia|].
  apply get32_put32_ne; lia.
Qed.
Lemma put_addrs_get a : ∀ d o i x, (o + 4 * length a ≤ length d)%nat → a !! i = Some x → get32 (put_addrs d o a) (o + 4 * i) = u32 x.
Proof.
  induction a as [|y a IH]; intros d o i x Hd Hi; [done|]. cbn [put_addrs length] in Hd |- *. destruct i as [|i].
  - injection Hi as ->. rewrite -> Nat.mul_0_r, Nat.add_0_r. rw put_addrs_other32; [rw length_put32; lia|lia|]. apply get32_put32_eq. lia.
  - replace (o + 4 * S i)%nat with (o + 4 + 4 * i)%nat by lia. apply IH; [rw length_put32; lia|done].
Qed.

(** What a [struct dinode] can hold. *)
Record dinode_ok (p : inode) : Prop := {
  di_type : -32768 ≤ i_type p < 32768;
  di_major : -32768 ≤ i_major p < 32768;
  di_minor : -32768 ≤ i_minor p < 32768;
  di_nlink : -32768 ≤ i_nlink p < 32768;
  di_size : 0 ≤ i_size p < 4294967296;
  di_len : length (i_addrs p) = 13%nat;
  di_addrs i : (i < 13)%nat → 0 ≤ i_addrs p !!! i < 4294967296;
}.
Lemma s16_u16 x : -32768 ≤ x < 32768 → s16 (u16 x) = x.
Proof. intros H. rw /s16 /u16. dlia. Qed.

(** Reading back an inode that was written, and one next to it. *)
Lemma load_store_eq d o p q :
  (o + 64 ≤ length d)%nat → dinode_ok p →
  load_dinode (store_dinode d o p) o q =
    mkInode (i_dev q) (i_inum q) (i_ref q) (i_lock q) (i_valid q) (i_type p) (i_major p) (i_minor p) (i_nlink p) (i_size p) (i_addrs p).
Proof.
  intros Hd [T Mj Mn Nl Sz Hl Ha]. rw /load_dinode /store_dinode.
  assert (∀ d' : block, length d' = length d → o + 12 + 4 * length (i_addrs p) ≤ length d')%nat as Hp by (intros d' ->; rw Hl; lia).
  rewrite -> !put_addrs_other16, put_addrs_other32 by first [lia | by apply Hp; rw ?length_put32 ?length_put16].
  rewrite -> !get16_put32_ne by (rw ?length_put16; lia).
  f_equal.
  - rewrite -> (get16_put16_ne _ (o + 6)), (get16_put16_ne _ (o + 4)), (get16_put16_ne _ (o + 2)), get16_put16_eq by (rw ?length_put16; lia). by apply s16_u16.
  - rewrite -> (get16_put16_ne _ (o + 6)), (get16_put16_ne _ (o + 4)), get16_put16_eq by (rw ?length_put16; lia). by apply s16_u16.
  - rewrite -> (get16_put16_ne _ (o + 6)), get16_put16_eq by (rw ?length_put16; lia). by apply s16_u16.
  - rewrite -> get16_put16_eq by (rw ?length_put16; lia). by apply s16_u16.
  - rewrite -> get32_put32_eq by (rw ?length_put16; lia). by apply u32_small.
  - apply list_eq. intros i. rw /get_addrs list_lookup_fmap. change (Z.to_nat (NDIRECT + 1)) with 13%nat. destruct (decide (i < 13)%nat) as [Hi|Hi].
    + rewrite -> lookup_seq_lt by done. simpl. destruct (lookup_lt_is_Some_2 (i_addrs p) i) as [x Hx]; [by rw Hl|].
      rw Hx (put_addrs_get _ _ _ i x) //; [by apply Hp; rw ?length_put32 ?length_put16|]. f_equal. apply u32_small. specialize (Ha i Hi). by rw (list_lookup_total_correct _ _ _ Hx) in Ha.
    + rewrite -> lookup_seq_ge by lia. simpl. symmetry. apply lookup_ge_None_2. lia.
Qed.
Lemma load_store_ne d o p o' q :
  (o + 64 ≤ length d)%nat → length (i_addrs p) = 13%nat → (o' + 64 ≤ o ∨ o + 64 ≤ o')%nat →
  load_dinode (store_dinode d o p) o' q = load_dinode d o' q.
Proof.
  intros Hd Hl Ho. rw /load_dinode /store_dinode.
  assert (∀ k, (k + 2 ≤ o ∨ o + 64 ≤ k)%nat → get16 (store_dinode d o p) k = get16 d k) as H16.
  { intros k Hk. rw /store_dinode put_addrs_other16 ?length_put32 ?length_put16 ?Hl; [lia|lia|].
    rewrite -> get16_put32_ne, !get16_put16_ne by (rw ?length_put16; lia). done. }
  assert (∀ k, (k + 4 ≤ o ∨ o + 64 ≤ k)%nat → get32 (store_dinode d o p) k = get32 d k) as H32.
  { intros k Hk. rw /get32 !H16 //; lia. }
  rw -/(store_dinode d o p). rewrite -> !H16, H32 by lia. f_equal. rw /get_addrs. apply list_fmap_ext. intros i x Hx%lookup_seq. apply H32. clia.
Qed.

(** ** The blocks of a file *)

(** Block [bn] of the contents [c], filled up with zeros. *)
Definition cblock (c : list Z) (bn : Z) : block := (λ o, default 0 (c !! (Z.to_nat (bn * BSIZE) + o)%nat)) <$> seq 0 (Z.to_nat BSIZE).

Lemma length_cblock c bn : length (cblock c bn) = Z.to_nat BSIZE.
Proof. by rw /cblock length_fmap length_seq. Qed.
Lemma lookup_cblock c bn o : (o < Z.to_nat BSIZE)%nat → cblock c bn !! o = Some (default 0 (c !! (Z.to_nat (bn * BSIZE) + o)%nat)).
Proof. intros Ho. rw /cblock list_lookup_fmap. by rewrite -> lookup_seq_lt by done. Qed.
Lemma cblock_end c bn : 0 ≤ bn → Z.of_nat (length c) ≤ bn * BSIZE → cblock c bn = zeros.
Proof.
  intros Hbn Hc. apply list_eq. intros o. destruct (decide (o < Z.to_nat BSIZE)%nat).
  - rw lookup_cblock // lookup_ge_None_2; [lia|]. by rw lookup_replicate_2.
  - rw !lookup_ge_None_2 ?length_cblock ?length_replicate; [lia|lia|done].
Qed.
Lemma cblock_other c d bn bn' :
  0 ≤ bn' → bn = Z.of_nat (length c) / BSIZE → bn' ≠ bn → Z.of_nat (length c) mod BSIZE + Z.of_nat (length d) ≤ BSIZE →
  cblock (c ++ d) bn' = cblock c bn'.
Proof.
  intros Hbn -> Hne Hd. apply list_fmap_ext. intros i o Ho%lookup_seq. f_equal. destruct (decide (Z.to_nat (bn' * BSIZE) + o < length c)%nat).
  - by apply lookup_app_l.
  - rw (lookup_ge_None_2 c); [lia|]. apply lookup_ge_None_2. rw length_app. rw /BSIZE in Hne, Hd, n, Ho |- *. dlia.
Qed.
Lemma cblock_app c d :
  let bn := Z.of_nat (length c) / BSIZE in
  Z.of_nat (length c) mod BSIZE + Z.of_nat (length d) ≤ BSIZE →
  cblock (c ++ d) bn = splice (cblock c bn) (Z.to_nat (Z.of_nat (length c) mod BSIZE)) d.
Proof.
  intros bn Hd. set (o := Z.to_nat (Z.of_nat (length c) mod BSIZE)). assert (length c = Z.to_nat (bn * BSIZE) + o)%nat as Hc by (rw /o /bn /BSIZE; dlia).
  assert (o + length d ≤ Z.to_nat BSIZE)%nat as Ho by (rw /o /BSIZE in Hd |- *; dlia).
  apply list_eq. intros k. rw lookup_splice; [by rw length_cblock|]. destruct (decide (k < Z.to_nat BSIZE)%nat) as [Hk|Hk].
  - rw lookup_cblock //. destruct (decide (k < o)%nat).
    + rewrite -> decide_False by lia. rw lookup_cblock //. do 2 f_equal. apply lookup_app_l. lia.
    + rw lookup_app_r; [lia|]. replace (Z.to_nat (bn * BSIZE) + k - length c)%nat with (k - o)%nat by lia. destruct (decide (o ≤ k < o + length d)%nat) as [Hr|Hr].
      * destruct (lookup_lt_is_Some_2 d (k - o)) as [x Hx]; [lia|]. by rw Hx.
      * rw lookup_cblock // !lookup_ge_None_2; [lia|lia|done].
  - rw lookup_ge_None_2; [rw length_cblock; lia|]. case_decide; [lia|]. symmetry. apply lookup_ge_None_2. rw length_cblock. lia.
Qed.

(** The first [m] blocks of the inode [p], and its indirect block when [i], were allocated
    from [nmeta] to [fb], and hold the contents [c]. *)
Record fdat (v : Z → block) (p : inode) (fb m : Z) (i : bool) (c : list Z) : Prop := {
  fd_len : length (i_addrs p) = 13%nat;
  fd_m : 0 ≤ m ≤ MAXFILE;
  fd_c : Z.of_nat (length c) ≤ m * BSIZE;
  fd_i : 12 < m → i = true;
  fd_ind : if i then nmeta ≤ ind p < fb else ind p = 0;
  fd_indlen : i = true → length (v (ind p)) = Z.to_nat BSIZE;
  fd_in bn : 0 ≤ bn < m → nmeta ≤ iblk v p bn < fb;
  fd_out bn : m ≤ bn < MAXFILE → iblk v p bn = 0;
  fd_inj bn bn' : 0 ≤ bn < m → 0 ≤ bn' < m → iblk v p bn = iblk v p bn' → bn = bn';
  fd_ne bn : 0 ≤ bn < m → iblk v p bn ≠ ind p;
  fd_data bn : 0 ≤ bn < m → v (iblk v p bn) = cblock c bn;
}.

Lemma nmeta_eq : nmeta = 59.
Proof. done. Qed.
Lemma fd_ind_eq v p fb m i c : fdat v p fb m i c → (ind p =? 0) = negb i.
Proof. intros F. pose proof (fd_ind _ _ _ _ _ _ F) as H. rw nmeta_eq in H. destruct i; simpl in *; lia. Qed.

(** The contents depend only on the blocks of the inode. *)
Lemma fdat_ext v v' p fb fb' m i c :
  fdat v p fb m i c → fb ≤ fb' → (i = true → v' (ind p) = v (ind p)) → (∀ bn, 0 ≤ bn < m → v' (iblk v p bn) = v (iblk v p bn)) →
  (∀ bn, iblk v' p bn = iblk v p bn) ∧ fdat v' p fb' m i c.
Proof.
  intros F Hfb Hi Hd. assert (∀ bn, iblk v' p bn = iblk v p bn) as Hb.
  { intros bn. apply iblk_ext. intros Hn. apply Hi. pose proof (fd_ind _ _ _ _ _ _ F) as H. by destruct i. }
  split; [done|]. destruct F as [F1 F2 F3 F4 F5 F6 F7 F8 F9 F10 F11]. split; try done.
  - destruct i; [lia|done].
  - intros H. rw Hi //. by apply F6.
  - intros bn Hbn. rw Hb. specialize (F7 bn Hbn). lia.
  - intros bn Hbn. rw Hb. by apply F8.
  - intros bn bn'. rw !Hb. apply F9.
  - intros bn. rw Hb. apply F10.
  - intros bn Hbn. rw Hb Hd //. by apply F11.
Qed.

(** Block [fb] becomes block [m] of the file. *)
Lemma fdat_add v p fb m i c v' p' :
  fdat v p fb m i c → m < MAXFILE → (12 < m + 1 → i = true) → nmeta ≤ fb → length (i_addrs p') = 13%nat → ind p' = ind p →
  (∀ bn, 0 ≤ bn < MAXFILE → iblk v' p' bn = if decide (bn = m) then fb else iblk v p bn) →
  (∀ k, nmeta ≤ k < fb → k ≠ ind p → v' k = v k) → (i = true → length (v' (ind p)) = Z.to_nat BSIZE) → v' fb = zeros →
  fdat v' p' (fb + 1) (m + 1) i c.
Proof.
  intros F Hm Hi Hfb Hl Hind Hb Hv Hil Hz. pose proof (fd_m _ _ _ _ _ _ F) as Hm0.
  assert (∀ bn, 0 ≤ bn < m → iblk v' p' bn = iblk v p bn) as Hlt by (intros bn Hbn; rw Hb; [lia|]; by rewrite -> decide_False by lia).
  assert (iblk v' p' m = fb) as Hm1 by (rw Hb; [lia|]; by rewrite -> decide_True by done).
  assert (∀ bn, 0 ≤ bn < m + 1 → bn = m ∨ 0 ≤ bn < m) as Hcase by lia.
  pose proof (fd_ind _ _ _ _ _ _ F) as Hif. split; try done; try lia.
  - pose proof (fd_c _ _ _ _ _ _ F). rw /BSIZE in H |- *. lia.
  - rw Hind. destruct i; [lia|done].
  - by rw Hind.
  - intros bn [->|Hbn]%Hcase; [rw Hm1; lia|]. rw Hlt //. pose proof (fd_in _ _ _ _ _ _ F bn Hbn). lia.
  - intros bn Hbn. rw Hb; [lia|]. rewrite -> decide_False by lia. apply (fd_out _ _ _ _ _ _ F). lia.
  - intros bn bn' [->|Hbn]%Hcase [->|Hbn']%Hcase; rewrite ->?Hm1, ?Hlt by done.
    + done.
    + pose proof (fd_in _ _ _ _ _ _ F bn' Hbn'). lia.
    + pose proof (fd_in _ _ _ _ _ _ F bn Hbn). lia.
    + by apply (fd_inj _ _ _ _ _ _ F).
  - intros bn [->|Hbn]%Hcase; rw Hind; [rw Hm1; rw nmeta_eq in Hif, Hfb; destruct i; lia|]. rw Hlt //. by apply (fd_ne _ _ _ _ _ _ F).
  - intros bn [->|Hbn]%Hcase; [rw Hm1 Hz; symmetry; apply cblock_end; [lia|exact (fd_c _ _ _ _ _ _ F)]|]. rw Hlt // Hv.
    + exact (fd_in _ _ _ _ _ _ F bn Hbn).
    + exact (fd_ne _ _ _ _ _ _ F bn Hbn).
    + exact (fd_data _ _ _ _ _ _ F bn Hbn).
Qed.

(** Block [k] belongs to the inode. *)
Definition owns (v : Z → block) (p : inode) (k : Z) : Prop :=
  (ind p ≠ 0 ∧ k = ind p) ∨ ∃ bn, 0 ≤ bn < MAXFILE ∧ iblk v p bn ≠ 0 ∧ k = iblk v p bn.
(** The inode grew: it took new blocks, from [fb] on, and only its own blocks changed. *)
Record grown (v : Z → block) (p : inode) (fb : Z) (v' : Z → block) (p' : inode) (fb' : Z) : Prop := {
  gr_fb : fb ≤ fb';
  gr_keep k : 0 ≤ k < fb → ¬ owns v p k → v' k = v k;
  gr_free k : fb' ≤ k → v' k = v k;
  gr_own k : owns v' p' k → owns v p k ∨ fb ≤ k < fb';
  gr_same : p' = set_iaddrs (i_addrs p') p;
}.

Lemma owns_range v p fb m i c k : fdat v p fb m i c → owns v p k → nmeta ≤ k < fb.
Proof.
  intros F [[Hn ->]|(bn & Hbn & Hn & ->)].
  - pose proof (fd_ind _ _ _ _ _ _ F) as H. by destruct i.
  - apply (fd_in _ _ _ _ _ _ F). destruct (decide (bn < m)); [lia|]. exfalso. apply Hn, (fd_out _ _ _ _ _ _ F). lia.
Qed.
Lemma grown_refl v p fb : grown v p fb v p fb.
Proof. split; try done; [by left|by destruct p]. Qed.
Lemma grown_trans v p fb v1 p1 fb1 v2 p2 fb2 : grown v p fb v1 p1 fb1 → grown v1 p1 fb1 v2 p2 fb2 → grown v p fb v2 p2 fb2.
Proof.
  intros [A1 A2 A3 A4 A5] [B1 B2 B3 B4 B5]. split.
  - lia.
  - intros k Hk Ho. rw B2; [lia| |by apply A2]. intros [H|H]%A4; [done|lia].
  - intros k Hk. rw B3 // A3 //. lia.
  - intros k [[H|H]%A4|H]%B4; [by left|right; lia|right; lia].
  - by apply (set_iaddrs_trans p p1).
Qed.

Lemma set_iaddrs_ind x l p : (x < 12)%nat → ind (set_iaddrs (<[x := l]> (i_addrs p)) p) = ind p.
Proof. intros Hx. rw /ind /= list_lookup_total_insert_ne //. lia. Qed.

Lemma add_direct v p fb m i c :
  fdat v p fb m i c → m < 12 → nmeta ≤ fb → v fb = zeros →
  let p' := set_iaddrs (<[Z.to_nat m := fb]> (i_addrs p)) p in
  fdat v p' (fb + 1) (m + 1) i c ∧ grown v p fb v p' (fb + 1).
Proof.
  intros F Hm Hfb Hz p'. pose proof (fd_m _ _ _ _ _ _ F) as Hm0. pose proof (fd_len _ _ _ _ _ _ F) as Hl.
  assert (ind p' = ind p) as Hi by (apply set_iaddrs_ind; lia).
  assert (∀ bn, 0 ≤ bn < MAXFILE → iblk v p' bn = if decide (bn = m) then fb else iblk v p bn) as Hb.
  { intros bn Hbn. rw /iblk Hi. case_decide as E.
    - subst bn. rewrite -> (proj2 (Z.ltb_lt m NDIRECT)) by (rw /NDIRECT; lia). rw /p' /= list_lookup_total_insert_eq //. lia.
    - destruct (bn <? NDIRECT) eqn:E1; [|done]. rw /p' /= list_lookup_total_insert_ne //. rw /NDIRECT in E1. lia. }
  split.
  - apply (fdat_add v p); try done; try clia; [by rw /p' /= length_insert|]. exact (fd_indlen _ _ _ _ _ _ F).
  - split; try done; [lia|]. intros k [[Hn ->]|(bn & Hbn & Hn & ->)]; [left; left; by rw -Hi|]. rw Hb // in Hn |- *. case_decide; [right; lia|].
    left. right. by exists bn.
Qed.

Lemma add_indirect v p fb m c :
  fdat v p fb m false c → nmeta ≤ fb → v fb = zeros →
  let p' := set_iaddrs (<[12%nat := fb]> (i_addrs p)) p in
  fdat v p' (fb + 1) m true c ∧ grown v p fb v p' (fb + 1).
Proof.
  intros F Hfb Hz p'. pose proof (fd_m _ _ _ _ _ _ F) as Hm0. pose proof (fd_len _ _ _ _ _ _ F) as Hl. pose proof (fd_ind _ _ _ _ _ _ F) as Hi0. simpl in Hi0.
  assert (m ≤ 12) as Hm12 by (destruct (decide (12 < m)); [by pose proof (fd_i _ _ _ _ _ _ F l)|lia]).
  assert (ind p' = fb) as Hi by (rw /p' /ind /= list_lookup_total_insert_eq //; lia).
  assert (∀ bn, 0 ≤ bn < MAXFILE → iblk v p' bn = iblk v p bn) as Hb.
  { intros bn Hbn. rw /iblk Hi Hi0 Z.eqb_refl Hz get32_zeros. destruct (bn <? NDIRECT) eqn:E.
    - rw /p' /= list_lookup_total_insert_ne //. rw /NDIRECT in E. lia.
    - by destruct (fb =? 0). }
  split.
  - destruct F as [F1 F2 F3 F4 F5 F6 F7 F8 F9 F10 F11].
    assert (∀ bn, 0 ≤ bn < m → 0 ≤ bn < MAXFILE) as HM by lia.
    split; try done.
    + by rw /p' /= length_insert.
    + rw Hi. lia.
    + rw Hi Hz. intros _. apply length_replicate.
    + intros bn Hbn. rw Hb; [by apply HM|]. specialize (F7 bn Hbn). lia.
    + intros bn Hbn. rw Hb; [lia|]. by apply F8.
    + intros bn bn' H H'. rw !Hb; [by apply HM|by apply HM|]. by apply F9.
    + intros bn H. rw Hb; [by apply HM|]. rw Hi. specialize (F7 bn H). lia.
    + intros bn H. rw Hb; [by apply HM|]. by apply F11.
  - split; try done; [lia|]. intros k [[Hn ->]|(bn & Hbn & Hn & ->)]; [right; lia|]. left. right. exists bn. by rw Hb // in Hn |- *.
Qed.

Lemma add_entry v p fb m c v' :
  fdat v p fb m true c → 12 ≤ m < MAXFILE → nmeta ≤ fb < 4294967296 → v fb = zeros →
  (∀ k, 0 ≤ k → v' k = if decide (k = ind p) then put32 (v (ind p)) (4 * Z.to_nat (m - NDIRECT)) fb else v k) →
  fdat v' p (fb + 1) (m + 1) true c ∧ grown v p fb v' p (fb + 1).
Proof.
  intros F Hm Hfb Hz Hv. pose proof (fd_ind _ _ _ _ _ _ F) as Hi. cbn iota in Hi. pose proof (fd_indlen _ _ _ _ _ _ F eq_refl) as Hil. rw nmeta_eq in Hi, Hfb.
  assert (v' (ind p) = put32 (v (ind p)) (4 * Z.to_nat (m - NDIRECT)) fb) as Hvi by (rw Hv; [lia|]; by rewrite -> decide_True by done).
  assert (ind p ≠ 0) as Hi0 by lia. rw MAXFILE_eq in Hm.
  assert (∀ bn, 0 ≤ bn < MAXFILE → iblk v' p bn = if decide (bn = m) then fb else iblk v p bn) as Hb.
  { intros bn Hbn. rw MAXFILE_eq in Hbn. rw /iblk. rewrite -> (proj2 (Z.eqb_neq (ind p) 0)) by done. rw Hvi. destruct (bn <? NDIRECT) eqn:E; rw /NDIRECT in E |- *.
    - by rewrite -> decide_False by lia.
    - case_decide as E1.
      + subst bn. rw get32_put32_eq; [rw Hil /BSIZE; lia|]. apply u32_small. lia.
      + rw get32_put32_ne //; [rw Hil /BSIZE; lia|lia]. }
  split.
  - apply (fdat_add v p); try done; try lia; [rw MAXFILE_eq; lia|rw nmeta_eq; lia|exact (fd_len _ _ _ _ _ _ F)| | |].
    + intros k Hk Hne. rw nmeta_eq in Hk. rw Hv; [lia|]. by rewrite -> decide_False by done.
    + intros _. by rw Hvi length_put32.
    + rw Hv; [lia|]. rewrite -> decide_False by lia. done.
  - split; [lia| | | |by destruct p].
    + intros k Hk Ho. rw Hv; [lia|]. rw decide_False //. intros ->. apply Ho. by left.
    + intros k Hk. rw Hv; [lia|]. by rewrite -> decide_False by lia.
    + intros k [[Hn ->]|(bn & Hbn & Hn & ->)]; [left; by left|]. rw Hb // in Hn |- *. case_decide; [right; lia|]. left. right. by exists bn.
Qed.

Lemma write_last v p fb m i c d v' :
  let bn := Z.of_nat (length c) / BSIZE in
  fdat v p fb m i c → m = bn + 1 → Z.of_nat (length c) mod BSIZE + Z.of_nat (length d) ≤ BSIZE →
  (∀ k, 0 ≤ k → v' k = if decide (k = iblk v p bn) then splice (v k) (Z.to_nat (Z.of_nat (length c) mod BSIZE)) d else v k) →
  fdat v' p fb m i (c ++ d) ∧ grown v p fb v' p fb.
Proof.
  intros bn F Hm Hd Hv. pose proof (fd_ind _ _ _ _ _ _ F) as Hi. rw nmeta_eq in Hi.
  assert (0 ≤ bn < m) as Hbn by (rw Hm /bn /BSIZE; dlia).
  pose proof (fd_in _ _ _ _ _ _ F bn Hbn) as Hx. pose proof (fd_ne _ _ _ _ _ _ F bn Hbn) as Hxi. rw nmeta_eq in Hx.
  assert (i = true → v' (ind p) = v (ind p)) as Hvi.
  { intros ->. rw Hv; [lia|]. rw decide_False //. }
  assert (∀ b, iblk v' p b = iblk v p b) as Hb.
  { intros b. apply iblk_ext. intros Hn. apply Hvi. by destruct i. }
  split.
  - pose proof F as [F1 F2 F3 F4 F5 F6 F7 F8 F9 F10 F11]. split; try done.
    + rw length_app Hm /bn. rw /BSIZE in Hd |- *. dlia.
    + intros H. rw Hvi //. by apply F6.
    + intros b. rw Hb. apply F7.
    + intros b. rw Hb. apply F8.
    + intros b b'. rw !Hb. apply F9.
    + intros b. rw Hb. apply F10.
    + intros b H. rw Hb. pose proof (F7 b H) as Hr. rw nmeta_eq in Hr. rw Hv; [lia|]. case_decide as E.
      * apply F9 in E; [|done|done]. subst b. by rw F11 // cblock_app.
      * rw F11 //. symmetry. apply (cblock_other _ _ bn); [lia|done| |done]. intros ->. by apply E.
  - split; [done| | | |by destruct p].
    + intros k Hk Ho. rw Hv; [lia|]. rw decide_False //. intros ->. apply Ho. right. exists bn. pose proof (fd_m _ _ _ _ _ _ F). split; [lia|]. split; [lia|done].
    + intros k Hk. rw Hv; [lia|]. by rewrite -> decide_False by lia.
    + intros k Ho. left. destruct Ho as [H|(b & Hb1 & Hb2 & ->)]; [by left|right]. exists b. by rw -Hb.
Qed.

(** ** Reading and writing the image *)

Definition vw (s : mk) : Z → block := dblk (k_img s).
Definition set_img (x : list block) (s : mk) : mk := mkMk x (k_freeinode s) (k_freeblock s).
Definition set_fb (x : Z) (s : mk) : mk := mkMk (k_img s) (k_freeinode s) x.

(** The image has its size, and the blocks not yet allocated are zero. *)
Record img_ok (s : mk) : Prop := {
  io_len : length (k_img s) = Z.to_nat FSSIZE;
  io_blk k : 0 ≤ k < FSSIZE → length (vw s k) = Z.to_nat BSIZE;
  io_fb : nmeta ≤ k_freeblock s ≤ FSSIZE;
  io_zero k : k_freeblock s ≤ k < FSSIZE → vw s k = zeros;
}.

Lemma sect_small k : 0 ≤ k < FSSIZE → sect k = Z.to_nat k.
Proof. intros Hk. rw /sect u32_small; [rw /FSSIZE /BSIZE in Hk |- *; lia|]. rw Z.div_mul //. Qed.
Lemma rsect_ok s k : img_ok s → 0 ≤ k < FSSIZE → rsect k s = Ok (vw s k, s).
Proof.
  intros I Hk. rw /rsect gets_bind sect_small // /vw /dblk. destruct (lookup_lt_is_Some_2 (k_img s) (Z.to_nat k)) as [d Hd].
  - rw (io_len _ I). lia.
  - rw Hd. by rw (list_lookup_total_correct _ _ _ Hd).
Qed.
Lemma wsect_ok s k d : img_ok s → 0 ≤ k < FSSIZE → wsect k d s = Ok (tt, set_img (<[Z.to_nat k := d]> (k_img s)) s).
Proof.
  intros I Hk. rw /wsect /modify sect_small //. do 3 f_equal. rewrite -> (proj2 (Nat.sub_0_le _ _)); [by rw app_nil_r|]. rw (io_len _ I). lia.
Qed.
Lemma vw_insert s k d i : img_ok s → 0 ≤ k < FSSIZE → 0 ≤ i → vw (set_img (<[Z.to_nat k := d]> (k_img s)) s) i = if decide (i = k) then d else vw s i.
Proof. intros I Hk Hi. rw /vw /=. apply dblk_insert; [|done]. rw /in_disk (io_len _ I). lia. Qed.
Lemma img_ok_insert s k d : img_ok s → 0 ≤ k < k_freeblock s → length d = Z.to_nat BSIZE → img_ok (set_img (<[Z.to_nat k := d]> (k_img s)) s).
Proof.
  intros I Hk Hd. pose proof (io_fb _ I) as Hf. split; simpl.
  - by rw length_insert (io_len _ I).
  - intros j Hj. rw vw_insert //; [lia|lia|]. case_decide; [done|by apply I].
  - done.
  - intros j Hj. rw vw_insert //; [lia|rw nmeta_eq in Hf; lia|]. rewrite -> decide_False by lia. by apply I.
Qed.
Lemma next_block_ok s : img_ok s → k_freeblock s < FSSIZE → next_block s = Ok (k_freeblock s, set_fb (k_freeblock s + 1) s) ∧ img_ok (set_fb (k_freeblock s + 1) s).
Proof.
  intros I Hf. pose proof (io_fb _ I) as Hf0. rw nmeta_eq /FSSIZE in Hf0, Hf. split.
  - rw /next_block gets_bind modify_bind u32_small //. lia.
  - destruct I as [I1 I2 I3 I4]. split; simpl; [done|done|rw nmeta_eq /FSSIZE; lia|]. intros k Hk. apply I4. lia.
Qed.

Lemma iblk_direct v p bn : bn < NDIRECT → iblk v p bn = i_addrs p !!! Z.to_nat bn.
Proof. intros H. rw /iblk. by rewrite -> (proj2 (Z.ltb_lt bn NDIRECT)) by done. Qed.
Lemma iblk_indirect v p bn : NDIRECT ≤ bn → ind p ≠ 0 → iblk v p bn = get32 (v (ind p)) (4 * Z.to_nat (bn - NDIRECT)).
Proof. intros H H0. rw /iblk. by rewrite -> (proj2 (Z.ltb_ge bn NDIRECT)), (proj2 (Z.eqb_neq _ _)) by done. Qed.

(** The blocks that [m] blocks of contents take. *)
Definition cost (m : Z) : Z := m + (if 12 <? m then 1 else 0).

(** A file at rest: exactly the blocks its contents take. *)
Definition whole (n : Z) : Z := (n + 511) / BSIZE.
Abbreviation fdat_at s p m c := (fdat (vw s) p (k_freeblock s) m (12 <? m) c).

(** What mapping a block and appending to a file do to the state. *)
Record appended (s : mk) (p : inode) (s' : mk) (p' : inode) (n : Z) : Prop := {
  ap_ok : img_ok s';
  ap_grown : grown (vw s) p (k_freeblock s) (vw s') p' (k_freeblock s');
  ap_fi : k_freeinode s' = k_freeinode s;
  ap_fb : k_freeblock s' = k_freeblock s + n;
}.
Lemma appended_trans s p s1 p1 n1 s2 p2 n2 : appended s p s1 p1 n1 → appended s1 p1 s2 p2 n2 → appended s p s2 p2 (n1 + n2).
Proof. intros [A1 A2 A3 A4] [B1 B2 B3 B4]. split; [done|by apply (grown_trans _ _ _ (vw s1) p1 (k_freeblock s1))|congruence|lia]. Qed.

Lemma block_present s p m c bn :
  img_ok s → fdat_at s p m c → 0 ≤ bn < m → iappend_block p bn s = Ok ((iblk (vw s) p bn, p), s).
Proof.
  intros I F Hbn. pose proof (io_fb _ I) as Hf. pose proof (fd_in _ _ _ _ _ _ F bn Hbn) as Hx. pose proof (fd_i _ _ _ _ _ _ F) as Hi0.
  pose proof (fd_ind _ _ _ _ _ _ F) as Hi. rw nmeta_eq /FSSIZE in Hf, Hx, Hi. rw /iappend_block. destruct (bn <? NDIRECT) eqn:E.
  - rw -(iblk_direct (vw s) p bn); [lia|]. rw xint_small; [lia|]. rewrite -> (proj2 (Z.eqb_neq _ _)) by lia. by rw ret_bind -(iblk_direct (vw s) p bn) ?xint_small; [lia|lia|].
  - rw /NDIRECT in E. rewrite -> Hi0 in Hi by lia. rw -/(ind p) xint_small; [lia|]. rewrite -> (proj2 (Z.eqb_neq _ _)) by lia. rw ret_bind /iappend_entry -/(ind p) xint_small; [lia|].
    mgo (rsect_ok s (ind p) I ltac:(rw /FSSIZE; lia)). rw -iblk_indirect; [rw /NDIRECT; lia|lia|]. rewrite -> (proj2 (Z.eqb_neq _ _)) by lia.
    rw ret_bind -iblk_indirect; [rw /NDIRECT; lia|lia|]. rw xint_small //. lia.
Qed.

Lemma entry_new s p m c :
  img_ok s → fdat (vw s) p (k_freeblock s) m true c → 12 ≤ m < MAXFILE → k_freeblock s < FSSIZE →
  ∃ s', iappend_entry p m s = Ok ((iblk (vw s') p m, p), s') ∧ fdat (vw s') p (k_freeblock s') (m + 1) true c ∧ appended s p s' p 1.
Proof.
  intros I F Hm Hfb. pose proof (io_fb _ I) as Hf. pose proof (fd_ind _ _ _ _ _ _ F) as Hi. cbn iota in Hi. pose proof (fd_indlen _ _ _ _ _ _ F eq_refl) as Hil.
  assert (ind p ≠ 0) as Hi0 by (rw nmeta_eq in Hi; lia). assert (NDIRECT ≤ m) as Hm12 by (rw /NDIRECT; lia).
  assert (0 ≤ ind p < FSSIZE) as Hir by (rw nmeta_eq /FSSIZE in Hf, Hi |- *; lia).
  assert (0 ≤ k_freeblock s < 4294967296) as Hu by (rw nmeta_eq /FSSIZE in Hf; lia).
  rw /iappend_entry -/(ind p) xint_small; [rw /FSSIZE in Hir; lia|]. mgo (rsect_ok s (ind p) I Hir).
  rw -iblk_indirect // (fd_out _ _ _ _ _ _ F m); [lia|]. cbn [Z.eqb]. destruct (next_block_ok s I Hfb) as [E I1]. rw bind_assoc. mgo E. rw bind_assoc.
  set (d := put32 (vw s (ind p)) (4 * Z.to_nat (m - NDIRECT)) (xint (k_freeblock s))). set (s1 := set_fb _ s) in *.
  mgo (wsect_ok s1 (ind p) d I1 Hir). rw ret_bind. set (s2 := set_img _ s1).
  assert (∀ k, 0 ≤ k → vw s2 k = if decide (k = ind p) then put32 (vw s (ind p)) (4 * Z.to_nat (m - NDIRECT)) (k_freeblock s) else vw s k) as Hv.
  { intros k Hk. rw /s2 vw_insert // /d xint_small //. }
  destruct (add_entry (vw s) p (k_freeblock s) m c (vw s2) F Hm) as [F' G]; [lia|by apply (io_zero _ I)|done|].
  exists s2. split; [|split; [exact F'|split; [|exact G|done|done]]].
  - assert (get32 d (4 * Z.to_nat (m - NDIRECT)) = iblk (vw s2) p m) as ->.
    { rw iblk_indirect // Hv; [lia|]. rewrite -> decide_True by done. rw /d xint_small //. }
    rw xint_small //. pose proof (fd_in _ _ _ _ _ _ F' m ltac:(lia)) as Hx. simpl in Hx. rw nmeta_eq /FSSIZE in Hx, Hf. lia.
  - apply img_ok_insert; [done|rw /s1 /=; rw nmeta_eq in Hi; lia|]. by rw /d length_put32.
Qed.

Lemma block_new s p m c :
  img_ok s → fdat_at s p m c → m < MAXFILE → k_freeblock s + (cost (m + 1) - cost m) ≤ FSSIZE →
  ∃ s' p', iappend_block p m s = Ok ((iblk (vw s') p' m, p'), s') ∧ fdat_at s' p' (m + 1) c ∧ appended s p s' p' (cost (m + 1) - cost m).
Proof.
  intros I F Hm Hfb. pose proof (io_fb _ I) as Hf. pose proof (fd_m _ _ _ _ _ _ F) as Hm0. pose proof (fd_ind _ _ _ _ _ _ F) as Hi.
  assert (0 ≤ k_freeblock s < 4294967296) as Hu by (rw nmeta_eq /FSSIZE in Hf; lia).
  assert (k_freeblock s < FSSIZE) as Hfs by (rw /cost in Hfb; destruct (12 <? m) eqn:?, (12 <? m + 1) eqn:?; lia).
  destruct (next_block_ok s I Hfs) as [E I1]. rw /iappend_block. destruct (m <? NDIRECT) eqn:Ed; rw /NDIRECT in Ed.
  - rw -(iblk_direct (vw s) p m); [rw /NDIRECT; lia|]. rw (fd_out _ _ _ _ _ _ F m); [lia|]. cbn [xint Z.eqb]. change (xint 0 =? 0) with true. rw bind_assoc. mgo E. rw ret_bind.
    rw (xint_small (k_freeblock s)) //.
    destruct (add_direct (vw s) p (k_freeblock s) m _ c F ltac:(lia) ltac:(lia) (io_zero _ I (k_freeblock s) ltac:(lia))) as [F' G].
    eexists (set_fb _ s), _. split; [rewrite -> iblk_direct by (rw /NDIRECT; lia); rw xint_small; [|reflexivity]|].
    + simpl. rw list_lookup_total_insert_eq //. rw (fd_len _ _ _ _ _ _ F). lia.
    + assert ((12 <? m + 1) = (12 <? m)) as Ei by lia. rw /cost Ei. split; [exact F'|split; [exact I1|exact G|done|simpl; lia]].
  - rw -/(ind p). pose proof (fd_ind_eq _ _ _ _ _ _ F) as Hz. assert ((12 <? m + 1) = true) as Ei by lia. rw /cost Ei in Hfb |- *.
    destruct (12 <? m) eqn:Em.
    + rw xint_small; [rw nmeta_eq /FSSIZE in Hi, Hf; lia|]. rw Hz /= ret_bind.
      destruct (entry_new s p m c I F ltac:(lia) Hfs) as (s' & E' & F' & A). exists s', p. split; [done|]. split; [done|]. by replace (m + 1 + 1 - (m + 1)) with 1 by lia.
    + cbn iota in Hi. rw Hi. change (xint 0 =? 0) with true. cbn iota. rw bind_assoc. mgo E. rw ret_bind (xint_small (k_freeblock s)) //.
      set (p1 := set_iaddrs _ p). set (s1 := set_fb _ s) in *.
      destruct (add_indirect (vw s) p (k_freeblock s) m c F ltac:(lia) (io_zero _ I (k_freeblock s) ltac:(lia))) as [F1 G1].
      destruct (entry_new s1 p1 m c I1 F1 ltac:(lia)) as (s' & E' & F' & A); [rw /s1 /=; lia|]. exists s', p1. split; [done|]. split; [done|].
      replace (m + 1 + 1 - (m + 0)) with (1 + 1) by lia. apply (appended_trans s p s1 p1 1 s' p1 1); [|done]. by split.
Qed.

(** ** Appending to a file *)

Lemma cost_mono a b : a ≤ b → cost a ≤ cost b.
Proof. intros H. rw /cost. destruct (12 <? a) eqn:?, (12 <? b) eqn:?; lia. Qed.
Lemma whole_mono a b : a ≤ b → whole a ≤ whole b.
Proof. intros H. rw /whole /BSIZE. dlia. Qed.
(** The blocks that [n] bytes after the first [len] take. *)
Definition need (len n : Z) : Z := cost (whole (len + n)) - cost (whole len).
Lemma need_split len a b : need len (a + b) = need len a + need (len + a) b.
Proof. rw /need Z.add_assoc. lia. Qed.
Lemma need_nonneg len n : 0 ≤ n → 0 ≤ need len n.
Proof. intros H. rw /need. pose proof (cost_mono (whole len) (whole (len + n)) (whole_mono len (len + n) ltac:(lia))). lia. Qed.

Lemma append_map s p c n :
  let len := Z.of_nat (length c) in let bn := len / BSIZE in
  img_ok s → fdat_at s p (whole len) c → 0 < n → len mod BSIZE + n ≤ BSIZE → bn < MAXFILE → k_freeblock s + need len n ≤ FSSIZE →
  ∃ s1 p1, iappend_block p bn s = Ok ((iblk (vw s1) p1 bn, p1), s1) ∧ fdat_at s1 p1 (bn + 1) c ∧ appended s p s1 p1 (need len n).
Proof.
  intros len bn I F Hn Hd Hbn Hfb. assert (0 ≤ len) as H0 by lia.
  assert (whole (len + n) = bn + 1) as Hw by (rw /whole /bn /BSIZE in Hd |- *; dlia). rw /need Hw in Hfb |- *.
  destruct (decide (len mod BSIZE = 0)) as [E|E].
  - assert (whole len = bn) as Hw0 by (rw /whole /bn /BSIZE in E |- *; dlia). rw Hw0 in Hfb, F |- *. by apply block_new.
  - assert (whole len = bn + 1) as Hw0 by (rw /whole /bn /BSIZE in E |- *; dlia). rw Hw0 in F |- *. exists s, p.
    split; [apply (block_present s p _ c bn I F); rw /bn /BSIZE; dlia|]. split; [done|]. rw Z.sub_diag. split; [done|apply grown_refl|done|lia].
Qed.

Lemma append_round s p c d :
  let len := Z.of_nat (length c) in let bn := len / BSIZE in
  img_ok s → fdat_at s p (whole len) c → d ≠ [] → len mod BSIZE + Z.of_nat (length d) ≤ BSIZE → bn < MAXFILE →
  k_freeblock s + need len (Z.of_nat (length d)) ≤ FSSIZE →
  ∃ s1 p1 s2 x, iappend_block p bn s = Ok ((x, p1), s1) ∧ rsect x s1 = Ok (vw s1 x, s1) ∧
    wsect x (splice (vw s1 x) (Z.to_nat (len mod BSIZE)) d) s1 = Ok (tt, s2) ∧
    fdat_at s2 p1 (whole (len + Z.of_nat (length d))) (c ++ d) ∧ appended s p s2 p1 (need len (Z.of_nat (length d))).
Proof.
  intros len bn I F Hd Hl Hbn Hfb. assert (0 < Z.of_nat (length d)) as Hn by (destruct d; [done|simpl; lia]).
  assert (0 ≤ bn) as Hb0 by (rw /bn /BSIZE; dlia).
  destruct (append_map s p c _ I F Hn Hl Hbn Hfb) as (s1 & p1 & E1 & F1 & A1). fold len in F1, A1. fold bn in E1, F1.
  set (x := iblk (vw s1) p1 bn) in *. pose proof (ap_ok _ _ _ _ _ A1) as I1. pose proof (io_fb _ I1) as Hf1.
  pose proof (fd_in _ _ _ _ _ _ F1 bn ltac:(lia)) as Hx. fold x in Hx.
  assert (0 ≤ x < FSSIZE) as Hxr by (rw nmeta_eq in Hx; lia).
  exists s1, p1, (set_img (<[Z.to_nat x := splice (vw s1 x) (Z.to_nat (len mod BSIZE)) d]> (k_img s1)) s1), x.
  split; [done|]. split; [by apply rsect_ok|]. split; [by apply wsect_ok|]. set (s2 := set_img _ s1).
  assert (whole (len + Z.of_nat (length d)) = bn + 1) as -> by (rw /whole /bn /BSIZE in Hl |- *; dlia).
  destruct (write_last (vw s1) p1 (k_freeblock s1) (bn + 1) (12 <? bn + 1) c d (vw s2) F1) as [F2 G2]; [done|done| |].
  { intros k Hk. fold len. fold bn. fold x. rw /s2 vw_insert //. case_decide as E; [by rw E|done]. }
  split; [done|]. rw -(Z.add_0_r (need _ _)). apply (appended_trans s p s1 p1 _ s2 p1 0); [done|]. split; [|done|done|simpl; lia].
  apply img_ok_insert; [done|rw nmeta_eq in Hx; lia|]. rw length_splice; [|by apply I1]. rw (io_blk _ I1 x Hxr). rw /BSIZE in Hl |- *. dlia.
Qed.

Lemma iappend_loop_ok k : ∀ s p c src,
  let len := Z.of_nat (length c) in let n := Z.of_nat (length src) in
  (length src ≤ k)%nat → img_ok s → fdat_at s p (whole len) c → len + n ≤ MAXFILE * BSIZE → k_freeblock s + need len n ≤ FSSIZE →
  ∃ s' p', iappend_loop k p len src s = Ok ((p', len + n), s') ∧ fdat_at s' p' (whole (len + n)) (c ++ src) ∧ appended s p s' p' (need len n).
Proof.
  induction k as [|k IH]; intros s p c src len n Hk I F Hmax Hfb; destruct src as [|y src]; simpl in Hk; try lia.
  1,2: exists s, p; cbn [iappend_loop length] in n |- *; rw /n Z.add_0_r app_nil_r /need Z.add_0_r Z.sub_diag; split; [done|]; split; [done|];
    split; [done|apply grown_refl|done|lia].
  cbn [iappend_loop]. set (bn := len / BSIZE). set (n1 := Z.min n ((bn + 1) * BSIZE - len)).
  assert (0 ≤ len ∧ 0 < n) as [H0 Hn] by (rw /n /=; lia).
  assert (bn < MAXFILE) as Hbn by (rw /bn; rw MAXFILE_eq /BSIZE in Hmax |- *; dlia).
  assert (len - bn * BSIZE = len mod BSIZE) as Hoff by (rw /bn /BSIZE; dlia).
  assert (0 < n1 ≤ n ∧ len mod BSIZE + n1 ≤ BSIZE) as [Hn1 Hr] by (rw /n1 /bn /BSIZE; dlia).
  rewrite -> (proj2 (Z.ltb_lt _ _)) by done. cbn [negb]. set (d := take (Z.to_nat n1) (y :: src)). set (r := drop (Z.to_nat n1) (y :: src)).
  assert (Z.of_nat (length d) = n1) as Hdl by (rw /d length_take; lia). assert (Z.of_nat (length r) = n - n1) as Hrl by (rw /r length_drop /n; lia).
  assert (need len n = need len n1 + need (len + n1) (n - n1)) as HN by (rw -need_split; f_equal; lia).
  destruct (append_round s p c d I F) as (s1 & p1 & s2 & x & E1 & E2 & E3 & F2 & A2).
  { intros H. rw H /= in Hdl. lia. }
  { by rw Hdl. }
  { done. }
  { rw Hdl. pose proof (need_nonneg (len + n1) (n - n1)). fold len. lia. }
  fold len in E1, E3, F2, A2. fold bn in E1. rw Hdl in F2, A2. mgo E1. mgo E2. rw Hoff. mgo E3.
  destruct (IH s2 p1 (c ++ d) r) as (s' & p' & E' & F' & A').
  { rw /r length_drop /=. lia. }
  { exact (ap_ok _ _ _ _ _ A2). }
  { by rw length_app Nat2Z.inj_add Hdl. }
  { rw length_app Nat2Z.inj_add Hdl Hrl. fold len. lia. }
  { rw length_app Nat2Z.inj_add Hdl Hrl (ap_fb _ _ _ _ _ A2). fold len. lia. }
  rw length_app Nat2Z.inj_add Hdl Hrl -app_assoc (take_drop (Z.to_nat n1) (y :: src)) in E', F', A'. fold len in E', F', A'.
  replace (len + n1 + (n - n1)) with (len + n) in E', F' by lia. exists s', p'. split; [done|]. split; [done|]. rw HN. by apply (appended_trans s p s2 p1).
Qed.

(** ** The files of the image *)

Lemma IBLOCK_mk i : 0 ≤ i < NINODES → IBLOCK i sb = i / 8 + 32.
Proof.
  intros Hi. rw /NINODES in Hi. rw /IBLOCK. change (sb_inodestart sb) with 32. change IPB with 8. rw (u32_small i); [lia|]. apply u32_small. dlia.
Qed.
Lemma IBLOCK_range i : 0 ≤ i < NINODES → 32 ≤ IBLOCK i sb < 58.
Proof. intros Hi. rw IBLOCK_mk //. rw /NINODES in Hi. dlia. Qed.
Lemma dinode_off_mk i : 0 ≤ i < NINODES → dinode_off i = Z.to_nat (i mod 8 * 64).
Proof. intros Hi. rw /NINODES in Hi. rw /dinode_off u32_small //. lia. Qed.

(** Inode [i] of the image. *)
Definition kin (v : Z → block) (i : Z) : inode := load_dinode (v (IBLOCK i sb)) (dinode_off i) dinode0.

Lemma rinode_ok s i : img_ok s → 0 ≤ i < NINODES → rinode i s = Ok (kin (vw s) i, s).
Proof. intros I Hi. rw /rinode. pose proof (IBLOCK_range i Hi). mgo (rsect_ok s (IBLOCK i sb) I ltac:(rw /FSSIZE; lia)). done. Qed.

(** The disk fields of [p]. *)
Definition on_disk (p : inode) : Prop := dinode_ok p ∧ p = mkInode 0 0 0 (mkSl false 0) false (i_type p) (i_major p) (i_minor p) (i_nlink p) (i_size p) (i_addrs p).

(** Inode [i] was written, and nothing else of the inodes and the blocks. *)
Record inode_put (s : mk) (i : Z) (p : inode) (s' : mk) : Prop := {
  ip_ok : img_ok s';
  ip_fi : k_freeinode s' = k_freeinode s;
  ip_fb : k_freeblock s' = k_freeblock s;
  ip_this : kin (vw s') i = p;
  ip_other j : 0 ≤ j < NINODES → j ≠ i → kin (vw s') j = kin (vw s) j;
  ip_view k : 0 ≤ k < 32 ∨ 58 ≤ k → vw s' k = vw s k;
}.
Lemma winode_ok s i p :
  img_ok s → 0 ≤ i < NINODES → on_disk p → ∃ s', winode i p s = Ok (tt, s') ∧ inode_put s i p s'.
Proof.
  intros I Hi [Hp Hd]. pose proof (IBLOCK_range i Hi) as Hr. rw /winode. set (b := IBLOCK i sb) in *.
  assert (0 ≤ b < FSSIZE) as Hb by (rw /FSSIZE; lia). mgo (rsect_ok s b I Hb).
  assert (length (vw s b) = 512%nat) as Hl by exact (io_blk _ I b Hb).
  assert (dinode_off i + 64 ≤ length (vw s b))%nat as Ho by (rw Hl dinode_off_mk //; dlia).
  rewrite -> (wsect_ok s b) by done. eexists. split; [reflexivity|]. set (s' := set_img _ s).
  assert (∀ k, 0 ≤ k → vw s' k = if decide (k = b) then store_dinode (vw s b) (dinode_off i) p else vw s k) as Hv by (intros k Hk; rw /s' vw_insert //).
  split; [apply img_ok_insert; [done|pose proof (io_fb _ I) as H; rw nmeta_eq in H; lia|by rw length_store_dinode]|done|done| | |].
  - rw /kin Hv; [lia|]. rewrite -> decide_True by done. rw load_store_eq //.
  - intros j Hj Hne. rw /kin. pose proof (IBLOCK_range j Hj). rw Hv; [lia|]. case_decide as E; [|done]. rw load_store_ne; [exact Ho|exact (di_len _ Hp)| |by rw E].
    rw /b !IBLOCK_mk // in E. rw !dinode_off_mk //. dlia.
  - intros k Hk. rw Hv; [lia|]. by rewrite -> decide_False by lia.
Qed.

(** The image holds the files [fl], types and contents, in inodes 1, 2 and so on. *)
Record files_ok (s : mk) (fl : list (Z * list Z)) : Prop := {
  fo_img : img_ok s;
  fo_fi : k_freeinode s = 1 + Z.of_nat (length fl);
  fo_n : Z.of_nat (length fl) < NINODES;
  fo_sb : vw s 1 = splice zeros 0 sb_bytes;
  fo_log : vw s 2 = zeros;
  fo_file j t c : fl !! j = Some (t, c) → let p := kin (vw s) (1 + Z.of_nat j) in
    on_disk p ∧ i_type p = t ∧ i_nlink p = 1 ∧ i_size p = Z.of_nat (length c) ∧ fdat_at s p (whole (Z.of_nat (length c))) c;
  fo_disj j j' k : (j < length fl)%nat → (j' < length fl)%nat → owns (vw s) (kin (vw s) (1 + Z.of_nat j)) k →
    owns (vw s) (kin (vw s) (1 + Z.of_nat j')) k → j = j';
}.

Lemma owns_ext v v' p k : (∀ bn, iblk v' p bn = iblk v p bn) → owns v' p k ↔ owns v p k.
Proof. intros H. rw /owns. by setoid_rewrite H. Qed.

(** A file keeps its contents when another one grows. *)
Lemma fdat_other v p fb v' p' fb' q m i c :
  grown v p fb v' p' fb' → fdat v q fb m i c → (∀ k, owns v q k → ¬ owns v p k) → (∀ bn, iblk v' q bn = iblk v q bn) ∧ fdat v' q fb' m i c.
Proof.
  intros G F Hd. assert (∀ k, owns v q k → v' k = v k) as Hv.
  { intros k Hk. apply (gr_keep _ _ _ _ _ _ G); [|by apply Hd]. pose proof (owns_range _ _ _ _ _ _ _ F Hk) as H. rw nmeta_eq in H. lia. }
  apply (fdat_ext v v' q fb); [done|exact (gr_fb _ _ _ _ _ _ G)| |].
  - intros ->. apply Hv. left. split; [|done]. pose proof (fd_ind _ _ _ _ _ _ F) as H. cbn iota in H. rw nmeta_eq in H. lia.
  - intros bn Hbn. apply Hv. right. exists bn. pose proof (fd_in _ _ _ _ _ _ F bn Hbn) as H. pose proof (fd_m _ _ _ _ _ _ F). rw nmeta_eq in H. split; [lia|]. split; [lia|done].
Qed.
(** And when blocks before the data change. *)
Lemma fdat_meta v v' p fb m i c : (∀ k, nmeta ≤ k → v' k = v k) → fdat v p fb m i c → (∀ bn, iblk v' p bn = iblk v p bn) ∧ fdat v' p fb m i c.
Proof.
  intros Hv F. apply (fdat_ext v v' p fb); [done|done| |].
  - intros ->. apply Hv. pose proof (fd_ind _ _ _ _ _ _ F) as H. cbn iota in H. lia.
  - intros bn Hbn. apply Hv. pose proof (fd_in _ _ _ _ _ _ F bn Hbn). lia.
Qed.
(** Only the addresses matter. *)
Lemma fdat_addrs v p p' fb m i c : i_addrs p' = i_addrs p → fdat v p fb m i c → fdat v p' fb m i c.
Proof.
  intros Ha F. assert (ind p' = ind p) as Hi by by rw /ind Ha. assert (∀ bn, iblk v p' bn = iblk v p bn) as Hb by (intros bn; by rw /iblk Hi Ha).
  destruct F as [F1 F2 F3 F4 F5 F6 F7 F8 F9 F10 F11]. split; try done.
  - by rw Ha.
  - by rw Hi.
  - by rw Hi.
  - intros bn. rw Hb. apply F7.
  - intros bn. rw Hb. apply F8.
  - intros bn bn'. rw !Hb. apply F9.
  - intros bn. rw Hb Hi. apply F10.
  - intros bn. rw Hb. apply F11.
Qed.

Lemma fdat_addr_range s p m c i :
  img_ok s → fdat_at s p m c → (i < 13)%nat → 0 ≤ i_addrs p !!! i < 4294967296.
Proof.
  intros I F Hi. pose proof (io_fb _ I) as Hf. rw nmeta_eq /FSSIZE in Hf. destruct (decide (i = 12%nat)) as [->|Hn].
  - pose proof (fd_ind _ _ _ _ _ _ F) as H. rw /ind nmeta_eq in H. destruct (12 <? m); lia.
  - replace i with (Z.to_nat (Z.of_nat i)) by lia. rw -(iblk_direct (vw s)); [rw /NDIRECT; lia|]. destruct (decide (Z.of_nat i < m)).
    + pose proof (fd_in _ _ _ _ _ _ F (Z.of_nat i) ltac:(lia)) as H. rw nmeta_eq in H. lia.
    + rw (fd_out _ _ _ _ _ _ F); [rw MAXFILE_eq; lia|]. lia.
Qed.

Lemma kin_same v v' i : 0 ≤ i < NINODES → (∀ k, 32 ≤ k < 58 → v' k = v k) → kin v' i = kin v i.
Proof. intros Hi Hv. rw /kin Hv //. by apply IBLOCK_range. Qed.

(** A file [q] with other blocks than [p], when [p] grows and an inode is written. *)
Lemma other_file s p s1 p1 i p2 s2 q m c :
  grown (vw s) p (k_freeblock s) (vw s1) p1 (k_freeblock s1) → inode_put s1 i p2 s2 → fdat_at s q m c → (∀ k, owns (vw s) q k → ¬ owns (vw s) p k) →
  (∀ bn, iblk (vw s2) q bn = iblk (vw s) q bn) ∧ fdat_at s2 q m c.
Proof.
  intros G W F Hd. destruct (fdat_other _ _ _ _ _ _ q m _ c G F Hd) as [Hb1 F1].
  destruct (fdat_meta (vw s1) (vw s2) q _ m _ c ltac:(intros k Hk; rw nmeta_eq in Hk; apply (ip_view _ _ _ _ W); lia) F1) as [Hb2 F2].
  split; [intros bn; by rw Hb2|]. by rw (ip_fb _ _ _ _ W).
Qed.
(** The blocks before the data. *)
Lemma appended_meta s p m c s1 p1 n k : img_ok s → fdat_at s p m c → appended s p s1 p1 n → 0 ≤ k < nmeta → vw s1 k = vw s k.
Proof.
  intros I F A Hk. pose proof (io_fb _ I) as Hf. apply (gr_keep _ _ _ _ _ _ (ap_grown _ _ _ _ _ A)); [lia|].
  intros Ho. pose proof (owns_range _ _ _ _ _ _ _ F Ho). lia.
Qed.
Lemma appended_disk s p s1 p1 n m c len :
  on_disk p → appended s p s1 p1 n → fdat_at s1 p1 m c → 0 ≤ len < 4294967296 → on_disk (set_isize len p1).
Proof.
  intros [[D1 D2 D3 D4 D5 D6 D7] HD] A F Hlen. pose proof (gr_same _ _ _ _ _ _ (ap_grown _ _ _ _ _ A)) as Hp1. rw Hp1. split; [split; simpl; try done|].
  - exact (fd_len _ _ _ _ _ _ F).
  - intros j Hj. exact (fdat_addr_range s1 p1 _ c j (ap_ok _ _ _ _ _ A) F Hj).
  - by rw /= HD.
Qed.

(** A file's inode is written after its contents were extended from [c] to [c']. *)
Section put_file.
Context (s : mk) (fl : list (Z * list Z)) (i : nat) (t : Z) (c : list Z) (s1 : mk) (p1 : inode) (n : Z) (c' : list Z) (s2 : mk).
Let p := kin (vw s) (1 + Z.of_nat i).
Let p2 := set_isize (Z.of_nat (length c')) p1.
Hypothesis Fs : files_ok s fl.
Hypothesis Hi : fl !! i = Some (t, c).
Hypothesis A : appended s p s1 p1 n.
Hypothesis F1 : fdat_at s1 p1 (whole (Z.of_nat (length c'))) c'.
Hypothesis W : inode_put s1 (1 + Z.of_nat i) p2 s2.

Lemma put_other j t' d : fl !! j = Some (t', d) → j ≠ i →
  let q := kin (vw s) (1 + Z.of_nat j) in kin (vw s2) (1 + Z.of_nat j) = q ∧
  (∀ bn, iblk (vw s2) q bn = iblk (vw s) q bn) ∧ fdat_at s2 q (whole (Z.of_nat (length d))) d.
Proof.
  intros Hj Hne q. pose proof (fo_file _ _ Fs j t' d Hj) as (_ & _ & _ & _ & Fj). fold q in Fj. pose proof (fo_n _ _ Fs) as Hn.
  assert (i < length fl)%nat as Hil by by eapply lookup_lt_Some. assert (j < length fl)%nat as Hjl by by eapply lookup_lt_Some.
  split; [|apply (other_file s p s1 p1 _ p2 s2 q _ d (ap_grown _ _ _ _ _ A) W Fj); intros k Hk1 Hk2; by apply Hne, (fo_disj _ _ Fs j i k)].
  rw (ip_other _ _ _ _ W); [lia|lia|]. apply kin_same; [lia|]. intros k Hk. pose proof (fo_file _ _ Fs i t c Hi) as (_ & _ & _ & _ & F).
  apply (appended_meta s p _ c s1 p1 n k (fo_img _ _ Fs) F A). rw nmeta_eq. lia.
Qed.

Lemma put_owns k : owns (vw s2) p2 k → owns (vw s) p k ∨ k_freeblock s ≤ k.
Proof.
  intros Ho. destruct (fdat_meta (vw s1) (vw s2) p1 (k_freeblock s1) _ _ c' ltac:(intros k' Hk; rw nmeta_eq in Hk; apply (ip_view _ _ _ _ W); lia) F1) as [Hb1 _].
  apply (owns_ext _ _ p1 k Hb1) in Ho. destruct (gr_own _ _ _ _ _ _ (ap_grown _ _ _ _ _ A) k Ho) as [H|H]; [by left|right; lia].
Qed.
Lemma put_owns_other j t' d k : fl !! j = Some (t', d) → j ≠ i → owns (vw s2) (kin (vw s2) (1 + Z.of_nat j)) k →
  owns (vw s) (kin (vw s) (1 + Z.of_nat j)) k ∧ k < k_freeblock s.
Proof.
  intros Hj Hne Ho. destruct (put_other j t' d Hj Hne) as (E & Hb & _). rw E in Ho. apply (owns_ext _ _ _ k Hb) in Ho. split; [done|].
  pose proof (fo_file _ _ Fs j t' d Hj) as (_ & _ & _ & _ & Fj). by apply (owns_range _ _ _ _ _ _ _ Fj).
Qed.

Lemma put_file : files_ok s2 (<[i := (t, c')]> fl).
Proof.
  pose proof (fo_file _ _ Fs i t c Hi) as (HD & Ht & Hn & Hsz & F). fold p in HD, Ht, Hn, Hsz, F.
  assert (i < length fl)%nat as Hil by by eapply lookup_lt_Some. pose proof (fo_n _ _ Fs) as Hnf. pose proof (gr_same _ _ _ _ _ _ (ap_grown _ _ _ _ _ A)) as Hp1.
  assert (∀ k, 0 ≤ k < 32 → vw s2 k = vw s k) as Hlow.
  { intros k Hk. rw (ip_view _ _ _ _ W); [lia|]. apply (appended_meta s p _ c s1 p1 n k (fo_img _ _ Fs) F A). rw nmeta_eq. lia. }
  split.
  - exact (ip_ok _ _ _ _ W).
  - by rw (ip_fi _ _ _ _ W) (ap_fi _ _ _ _ _ A) length_insert (fo_fi _ _ Fs).
  - by rw length_insert.
  - rw Hlow; [lia|]. exact (fo_sb _ _ Fs).
  - rw Hlow; [lia|]. exact (fo_log _ _ Fs).
  - intros j t' d Hj. destruct (decide (j = i)) as [->|Hne].
    + rw list_lookup_insert_eq // in Hj. injection Hj as <- <-. rw (ip_this _ _ _ _ W). split.
      { apply (appended_disk s p s1 p1 n _ c' _ HD A F1). pose proof (fd_c _ _ _ _ _ _ F1) as H. pose proof (fd_m _ _ _ _ _ _ F1) as H'. rw MAXFILE_eq /BSIZE in H, H'. lia. }
      rw /p2 Hp1 /= -Hp1. do 3 (split; [done|]). apply (fdat_addrs _ p1); [done|]. rw (ip_fb _ _ _ _ W).
      by apply (fdat_meta (vw s1)); [intros k Hk; rw nmeta_eq in Hk; apply (ip_view _ _ _ _ W); lia|].
    + rw list_lookup_insert_ne // in Hj. destruct (put_other j t' d Hj Hne) as (-> & _ & Fj). pose proof (fo_file _ _ Fs j t' d Hj) as (H1 & H2 & H3 & H4 & _). by do 4 (split; [done|]).
  - intros j j' k. rw !length_insert. intros Hj Hj' Ho Ho'. destruct (lookup_lt_is_Some_2 fl j Hj) as [[tj dj] Ej]. destruct (lookup_lt_is_Some_2 fl j' Hj') as [[tj' dj'] Ej'].
    destruct (decide (j = i)) as [->|Hne], (decide (j' = i)) as [->|Hne']; [done| | |].
    + rw (ip_this _ _ _ _ W) in Ho. destruct (put_owns_other j' tj' dj' k Ej' Hne' Ho') as [Ho2 Hlt]. destruct (put_owns k Ho) as [Ho1|Ho1]; [|lia]. by apply (fo_disj _ _ Fs i j' k).
    + rw (ip_this _ _ _ _ W) in Ho'. destruct (put_owns_other j tj dj k Ej Hne Ho) as [Ho2 Hlt]. destruct (put_owns k Ho') as [Ho1|Ho1]; [|lia]. by apply (fo_disj _ _ Fs j i k).
    + destruct (put_owns_other j tj dj k Ej Hne Ho) as [H1 _]. destruct (put_owns_other j' tj' dj' k Ej' Hne' Ho') as [H2 _]. by apply (fo_disj _ _ Fs j j' k).
Qed.
End put_file.

Lemma iappend_ok s fl i t c src :
  let len := Z.of_nat (length c) in let n := Z.of_nat (length src) in
  files_ok s fl → fl !! i = Some (t, c) → len + n ≤ MAXFILE * BSIZE → k_freeblock s + need len n ≤ FSSIZE →
  ∃ s', iappend (1 + Z.of_nat i) src s = Ok (tt, s') ∧ files_ok s' (<[i := (t, c ++ src)]> fl) ∧ k_freeblock s' = k_freeblock s + need len n.
Proof.
  intros len n Fs Hi Hmax Hfb. pose proof (fo_file _ _ Fs i t c Hi) as (HD & Ht & Hn & Hsz & F). pose proof (fo_n _ _ Fs) as Hnf. pose proof (fo_img _ _ Fs) as I.
  assert (i < length fl)%nat as Hil by by eapply lookup_lt_Some. assert (0 ≤ 1 + Z.of_nat i < NINODES) as Hin by lia. rw MAXFILE_eq /BSIZE in Hmax.
  rw /iappend. mgo (rinode_ok s (1 + Z.of_nat i) I Hin). rw Hsz xint_small; [lia|].
  destruct (iappend_loop_ok (length src) s _ c src ltac:(lia) I F) as (s1 & p1 & E1 & F1 & A1); [rw MAXFILE_eq /BSIZE; lia|done|]. mgo E1. cbn [fst snd].
  fold len in F1 |- *. fold n in F1 |- *. assert (Z.of_nat (length (c ++ src)) = len + n) as Hl by (rw length_app; lia). rw xint_small; [lia|]. rw -Hl in F1 |- *.
  destruct (winode_ok s1 (1 + Z.of_nat i) (set_isize (Z.of_nat (length (c ++ src))) p1)) as (s2 & E2 & W); [exact (ap_ok _ _ _ _ _ A1)|done| |].
  { apply (appended_disk s _ s1 p1 _ _ _ _ HD A1 F1). lia. }
  exists s2. split; [exact E2|]. split; [by apply (put_file s fl i t c s1 p1 (need len n))|]. rw (ip_fb _ _ _ _ W). exact (ap_fb _ _ _ _ _ A1).
Qed.

(** ** New files *)

(** An inode without blocks. *)
Lemma addrs0 i : (i < 13)%nat → (replicate 13 0 : list Z) !!! i = 0.
Proof. intros Hi. by apply lookup_total_replicate_2. Qed.
Lemma iblk0 v p bn : i_addrs p = replicate 13 0 → iblk v p bn = 0.
Proof. intros Hp. rw /iblk /ind Hp. destruct (bn <? NDIRECT) eqn:E; [|done]. apply addrs0. rw /NDIRECT in E. lia. Qed.
Lemma owns0 v p k : i_addrs p = replicate 13 0 → ¬ owns v p k.
Proof. intros Hp [[H _]|(bn & _ & H & _)]; apply H; [by rw /ind Hp|by apply iblk0]. Qed.
Lemma fdat0 v p fb : i_addrs p = replicate 13 0 → fdat v p fb (whole 0) (12 <? whole 0) [].
Proof.
  intros Hp. change (whole 0) with 0. split; simpl; try done; try lia.
  - by rw Hp.
  - by rw /ind Hp.
  - intros bn _. by apply iblk0.
Qed.

Lemma ialloc_ok s fl t :
  files_ok s fl → Z.of_nat (length fl) + 1 < NINODES → 0 ≤ t < 32768 →
  ∃ s', ialloc t s = Ok (1 + Z.of_nat (length fl), s') ∧ files_ok s' (fl ++ [(t, [])]) ∧ k_freeblock s' = k_freeblock s.
Proof.
  intros Fs Hn Ht. pose proof (fo_img _ _ Fs) as I. pose proof (fo_fi _ _ Fs) as Hfi. set (inum := 1 + Z.of_nat (length fl)) in *.
  rw /ialloc gets_bind modify_bind Hfi u32_small; [rw /NINODES in Hn; lia|]. rw (xshort_small t); [lia|]. change (xshort 1) with 1. change (xint 0) with 0.
  set (p := set_isize _ _). set (s1 := mkMk _ _ _). assert (img_ok s1) as I1 by by destruct I.
  assert (on_disk p) as HD.
  { split; [|done]. split; simpl; try done; try lia. intros i Hi. by rw (addrs0 i Hi). }
  destruct (winode_ok s1 inum p I1 ltac:(lia) HD) as (s2 & E2 & W). mgo E2. exists s2. split; [done|]. split; [|exact (ip_fb _ _ _ _ W)].
  assert (grown (vw s) p (k_freeblock s) (vw s1) p (k_freeblock s1)) as G by apply grown_refl.
  assert (∀ j t' d, fl !! j = Some (t', d) → let q := kin (vw s) (1 + Z.of_nat j) in kin (vw s2) (1 + Z.of_nat j) = q ∧
    (∀ bn, iblk (vw s2) q bn = iblk (vw s) q bn) ∧ fdat_at s2 q (whole (Z.of_nat (length d))) d) as HJ.
  { intros j t' d Hj q. assert (j < length fl)%nat as Hjl by by eapply lookup_lt_Some. pose proof (fo_file _ _ Fs j t' d Hj) as (_ & _ & _ & _ & Fj).
    split; [apply (ip_other _ _ _ _ W); lia|]. apply (other_file s p s1 p _ p s2 q _ d G W Fj). intros k _. by apply owns0. }
  split.
  - exact (ip_ok _ _ _ _ W).
  - rw (ip_fi _ _ _ _ W) length_app /=. lia.
  - rw length_app /=. lia.
  - rw (ip_view _ _ _ _ W); [lia|]. exact (fo_sb _ _ Fs).
  - rw (ip_view _ _ _ _ W); [lia|]. exact (fo_log _ _ Fs).
  - intros j t' d [Hj|[Hj Hjd]]%lookup_app_Some.
    + destruct (HJ j t' d Hj) as (-> & _ & Fj). pose proof (fo_file _ _ Fs j t' d Hj) as (H1 & H2 & H3 & H4 & _). by do 4 (split; [done|]).
    + destruct (j - length fl)%nat as [|x] eqn:Ej; [|done]. injection Hjd as <- <-. replace (1 + Z.of_nat j) with inum by lia. rw (ip_this _ _ _ _ W).
      do 4 (split; [done|]). by apply fdat0.
  - intros j j' k. rw !length_app /=. intros Hj Hj' Ho Ho'.
    assert (∀ x, (x < length fl + 1)%nat → owns (vw s2) (kin (vw s2) (1 + Z.of_nat x)) k → (x < length fl)%nat ∧ owns (vw s) (kin (vw s) (1 + Z.of_nat x)) k) as HK.
    { intros x Hx Hox. destruct (decide (x < length fl)%nat) as [Hl|Hl].
      - destruct (lookup_lt_is_Some_2 fl x Hl) as [[tx dx] Ex]. destruct (HJ x tx dx Ex) as (E & Hb & _). rw E in Hox. by apply (owns_ext _ _ _ k Hb) in Hox.
      - exfalso. replace (1 + Z.of_nat x) with inum in Hox by lia. rw (ip_this _ _ _ _ W) in Hox. by apply owns0 in Hox. }
    apply HK in Ho as [? ?]; [|done]. apply HK in Ho' as [? ?]; [|done]. by apply (fo_disj _ _ Fs j j' k).
Qed.
