(* ===== verification/MkfsImage.v ===== *)
(** * What the kernel finds in the image

    The image that mkfs makes of its arguments is a well-formed file system in which the
    root directory lists the files, and each has its contents; the kernel that starts on it
    reads them. *)

From S2P Require Import Prelude Params Bytes Bio BioSpec Log LogSpec Tx Fs FsSpec FsFile Files FsDir Mkfs MkfsSpec.

(** ** The blocks that files take *)

Definition total (fl : list (Z * list Z)) : Z := Zsum (λ f, cost (whole (Z.of_nat (length f.2)))) fl.
Definition image (s : mk) (fl : list (Z * list Z)) : Prop := files_ok s fl ∧ k_freeblock s = nmeta + total fl.

Lemma cost_whole_nonneg (c : list Z) : 0 ≤ cost (whole (Z.of_nat (length c))).
Proof. apply (cost_mono 0). rw /whole /BSIZE. dlia. Qed.
Lemma total_nonneg fl : 0 ≤ total fl.
Proof. apply Zsum_nonneg. apply Forall_forall. intros f _. apply cost_whole_nonneg. Qed.

Lemma image_append s fl i t c src :
  image s fl → fl !! i = Some (t, c) → Z.of_nat (length (c ++ src)) ≤ MAXFILE * BSIZE → nmeta + total (<[i := (t, c ++ src)]> fl) ≤ FSSIZE →
  ∃ s', iappend (1 + Z.of_nat i) src s = Ok (tt, s') ∧ image s' (<[i := (t, c ++ src)]> fl).
Proof.
  intros [Fs Hfb] Hi Hmax Ht. rw /total (Zsum_insert _ _ _ _ (t, c ++ src) Hi) in Ht. simpl in Ht. rw length_app Nat2Z.inj_add in Hmax, Ht.
  destruct (iappend_ok s fl i t c src Fs Hi Hmax) as (s' & E & Fs' & Hfb'); [rw /need Hfb /total; lia|]. exists s'. split; [done|]. split; [done|].
  rw Hfb' /need Hfb /total (Zsum_insert _ _ _ _ (t, c ++ src) Hi) /= length_app Nat2Z.inj_add. lia.
Qed.
Lemma image_ialloc s fl t :
  image s fl → Z.of_nat (length fl) + 1 < NINODES → 0 ≤ t < 32768 →
  ∃ s', ialloc t s = Ok (1 + Z.of_nat (length fl), s') ∧ image s' (fl ++ [(t, [])]).
Proof.
  intros [Fs Hfb] Hn Ht. destruct (ialloc_ok s fl t Fs Hn Ht) as (s' & E & Fs' & Hfb'). exists s'. split; [done|]. split; [done|].
  rw Hfb' Hfb /total Zsum_app. cbn [Zsum length snd]. change (cost (whole (Z.of_nat 0))) with 0. lia.
Qed.

Lemma image_pieces l : ∀ s fl i t c,
  image s fl → fl !! i = Some (t, c) → Z.of_nat (length (c ++ concat l)) ≤ MAXFILE * BSIZE → nmeta + total (<[i := (t, c ++ concat l)]> fl) ≤ FSSIZE →
  ∃ s', append_pieces (1 + Z.of_nat i) l s = Ok (tt, s') ∧ image s' (<[i := (t, c ++ concat l)]> fl).
Proof.
  induction l as [|b l IH]; intros s fl i t c Im Hi Hmax Ht; cbn [append_pieces concat] in Hmax, Ht |- *.
  - exists s. rw app_nil_r list_insert_id //.
  - assert (i < length fl)%nat as Hil by by eapply lookup_lt_Some.
    assert (Z.of_nat (length (c ++ b)) ≤ Z.of_nat (length (c ++ b ++ concat l))) as Hle by (rw !length_app; lia).
    destruct (image_append s fl i t c b Im Hi) as (s1 & E1 & Im1); [lia| |].
    { rw /total !(Zsum_insert _ _ _ _ _ Hi) /= in Ht |- *. pose proof (cost_mono _ _ (whole_mono _ _ Hle)). lia. }
    mgo E1. destruct (IH s1 (<[i := (t, c ++ b)]> fl) i t (c ++ b) Im1) as (s' & E & Im'); [by apply list_lookup_insert_eq|by rw -app_assoc|by rw -app_assoc list_insert_insert_eq|].
    exists s'. split; [done|]. by rw -app_assoc list_insert_insert_eq in Im'.
Qed.

(** ** The arguments *)

(** The name in the directory: without the leading underscore. *)
Definition arg_name (a : arg) : list Z := match a.1 with c :: n => if c =? 95 then n else a.1 | [] => a.1 end.
Definition arg_data (a : arg) : list Z := match a.2 with Some l => concat l | None => [] end.
Definition dir_data (l : list arg) : list Z :=
  mk_dirent 1 [DOT] ++ mk_dirent 1 [DOT; DOT] ++ concat (imap (λ i a, mk_dirent (2 + Z.of_nat i) (arg_name a)) l).
Definition image_files (l : list arg) : list (Z * list Z) := (T_DIR, dir_data l) :: ((λ a, (T_FILE, arg_data a)) <$> l).
(** What mkfs needs of its arguments: files it can open, names without slashes, and room for
    all of it. *)
Record fits (l : list arg) : Prop := {
  ft_open a : a ∈ l → existsb (Z.eqb SLASH) a.1 = false ∧ a.2 ≠ None;
  ft_size a : a ∈ l → Z.of_nat (length (arg_data a)) ≤ MAXFILE * BSIZE;
  ft_n : Z.of_nat (length l) + 1 < NINODES;
  ft_total : nmeta + total (image_files l) ≤ FSSIZE;
}.

Lemma length_dirents (l : list arg) : ∀ k, length (concat (imap (λ i a, mk_dirent (k + Z.of_nat i) (arg_name a)) l)) = (16 * length l)%nat.
Proof.
  induction l as [|a l IH]; intros k; [done|]. rw imap_cons. cbn [concat length]. rw length_app length_mk_dirent. change (Z.to_nat DIRENT) with 16%nat.
  rewrite -> (imap_ext _ (λ i a, mk_dirent (k + 1 + Z.of_nat i) (arg_name a))); [rw IH; lia|]. intros i x _. simpl. f_equal. lia.
Qed.
Lemma length_dir_data l : length (dir_data l) = (16 * (2 + length l))%nat.
Proof. rw /dir_data. rewrite -> !length_app, !length_mk_dirent, length_dirents. change (Z.to_nat DIRENT) with 16%nat. lia. Qed.
Lemma dir_data_snoc l a : dir_data (l ++ [a]) = dir_data l ++ mk_dirent (2 + Z.of_nat (length l)) (arg_name a).
Proof. rw /dir_data. rewrite -> imap_app, concat_app, !app_assoc. f_equal. by rewrite -> imap_cons, imap_nil, concat_cons, concat_nil, app_nil_r, Nat.add_0_r. Qed.
Lemma image_files_snoc l a : image_files (l ++ [a]) = (T_DIR, dir_data (l ++ [a])) :: ((λ a, (T_FILE, arg_data a)) <$> l) ++ [(T_FILE, arg_data a)].
Proof. by rw /image_files fmap_app. Qed.
Lemma total_prefix l1 l2 : total (image_files l1) ≤ total (image_files (l1 ++ l2)).
Proof.
  rw /total /image_files. cbn [Zsum snd]. rw fmap_app Zsum_app. pose proof (total_nonneg ((λ a, (T_FILE, arg_data a)) <$> l2)) as H. rw /total in H.
  assert (Z.of_nat (length (dir_data l1)) ≤ Z.of_nat (length (dir_data (l1 ++ l2)))) as Hd by (rw !length_dir_data length_app; lia).
  pose proof (cost_mono _ _ (whole_mono _ _ Hd)). lia.
Qed.
Lemma fits_prefix l1 l2 : fits (l1 ++ l2) → fits l1.
Proof.
  intros [F1 F2 F3 F4]. split.
  - intros a Ha. apply F1. apply elem_of_app. by left.
  - intros a Ha. apply F2. apply elem_of_app. by left.
  - rw length_app in F3. lia.
  - pose proof (total_prefix l1 l2). lia.
Qed.
Lemma dir_data_max l : fits l → Z.of_nat (length (dir_data l)) ≤ MAXFILE * BSIZE.
Proof. intros F. pose proof (ft_n _ F) as H. rw length_dir_data MAXFILE_eq /BSIZE. rw /NINODES in H. lia. Qed.

Lemma add_file_ok l a s : image s (image_files l) → fits (l ++ [a]) → ∃ s', add_file 1 a s = Ok (tt, s') ∧ image s' (image_files (l ++ [a])).
Proof.
  intros Im F. pose proof (ft_n _ F) as Hn. rw length_app /= in Hn. destruct (ft_open _ F a ltac:(set_solver)) as [Hs Ho].
  pose proof (ft_size _ F a ltac:(set_solver)) as Hsz. pose proof (ft_total _ F) as Ht. rw image_files_snoc in Ht. set (X := (λ a, (T_FILE, arg_data a)) <$> l) in *.
  assert (length (image_files l) = S (length l)) as Hlen by by rw /= length_fmap.
  destruct a as [argv [pieces|]]; [|done]. rw /add_file Hs. fold (arg_name (argv, Some pieces)). set (name := arg_name (argv, Some pieces)).
  destruct (image_ialloc s (image_files l) T_FILE Im) as (s1 & E1 & Im1); [rw Hlen; lia|done|]. mgo E1. rw Hlen. set (inum := 1 + Z.of_nat (S (length l))).
  rw xshort_small; [rw /inum; rw /NINODES in Hn; lia|].
  assert (inum = 2 + Z.of_nat (length l)) as Hinum by lia.
  assert (dir_data l ++ mk_dirent inum name = dir_data (l ++ [(argv, Some pieces)])) as Hdir by by rewrite -> dir_data_snoc, Hinum.
  assert (∀ c, total ((T_DIR, dir_data (l ++ [(argv, Some pieces)])) :: X ++ [(T_FILE, c)]) =
    cost (whole (Z.of_nat (length (dir_data (l ++ [(argv, Some pieces)]))))) + total X + cost (whole (Z.of_nat (length c)))) as HT.
  { intros c. rw /total. cbn [Zsum snd]. rw Zsum_app. cbn [Zsum snd]. lia. }
  destruct (image_append s1 (image_files l ++ [(T_FILE, [])]) 0 T_DIR (dir_data l) (mk_dirent inum name) Im1 eq_refl) as (s2 & E2 & Im2).
  { rw Hdir. by apply dir_data_max. }
  { rewrite -> Hdir. unfold image_files. cbn [app insert list_insert]. rw HT in Ht. rw HT. change (cost (whole (Z.of_nat (length (@nil Z))))) with 0.
    pose proof (cost_whole_nonneg (arg_data (argv, Some pieces))). lia. }
  change (1 + Z.of_nat 0) with 1 in E2. rw /name /arg_name in E2. cbn [fst] in E2. mgo E2. rewrite -> Hdir in Im2. unfold image_files in Im2. cbn [app insert list_insert] in Im2. fold X in Im2.
  assert (∀ D c, <[S (length l) := (T_FILE, c)]> (D :: X ++ [(T_FILE, [])]) = D :: X ++ [(T_FILE, c)]) as HI.
  { intros D c. change (D :: <[length l := (T_FILE, c)]> (X ++ [(T_FILE, [])]) = D :: X ++ [(T_FILE, c)]). f_equal.
    rewrite -> insert_app_r_alt by by rw length_fmap. by rw length_fmap Nat.sub_diag. }
  destruct (image_pieces pieces s2 ((T_DIR, dir_data (l ++ [(argv, Some pieces)])) :: X ++ [(T_FILE, [])]) (S (length l)) T_FILE [] Im2) as (s3 & E3 & Im3).
  { change ((X ++ [(T_FILE, [] : list Z)]) !! length l = Some (T_FILE, [])). rewrite -> lookup_app_r by by rw length_fmap. by rw length_fmap Nat.sub_diag. }
  { exact Hsz. }
  { rw app_nil_l HI. exact Ht. }
  exists s3. split; [exact E3|]. rw app_nil_l HI in Im3.
  rw image_files_snoc. exact Im3.
Qed.

Lemma add_files_ok l2 : ∀ l1 s, image s (image_files l1) → fits (l1 ++ l2) → ∃ s', add_files 1 l2 s = Ok (tt, s') ∧ image s' (image_files (l1 ++ l2)).
Proof.
  induction l2 as [|a l2 IH]; intros l1 s Im F; cbn [add_files]; [exists s; by rw app_nil_r|].
  change (a :: l2) with ([a] ++ l2) in F |- *. rw app_assoc in F |- *. destruct (add_file_ok l1 a s Im (fits_prefix _ _ F)) as (s1 & E1 & Im1). mgo E1. by apply IH.
Qed.

(** ** From the empty file to the end *)

Lemma clear_blocks_ok k : ∀ i s, k_img s = replicate i zeros → (i + k ≤ 1000)%nat → clear_blocks k (Z.of_nat i) s = Ok (tt, set_img (replicate (i + k) zeros) s).
Proof.
  induction k as [|k IH]; intros i s Hs Hk; cbn [clear_blocks]; [by destruct s; rw Nat.add_0_r -Hs|].
  rw /wsect modify_bind Hs sect_small; [rw /FSSIZE; lia|]. rw Nat2Z.id length_replicate. replace (S i - i)%nat with 1%nat by lia.
  assert (<[i := zeros]> (replicate i zeros ++ replicate 1 zeros) = replicate (S i) zeros) as ->.
  { rw -replicate_add Nat.add_1_r. apply list_insert_id. apply lookup_replicate_2. lia. }
  replace (Z.of_nat i + 1) with (Z.of_nat (S i)) by lia. rw (IH (S i)) //; [lia|]. by replace (S i + k)%nat with (i + S k)%nat by lia.
Qed.

(** The image with only its super block. *)
Definition blank : list block := <[1%nat := splice zeros 0 sb_bytes]> (replicate (Z.to_nat FSSIZE) zeros).
Lemma vw_blank fi fb k : 0 ≤ k < FSSIZE → vw (mkMk blank fi fb) k = if decide (k = 1) then splice zeros 0 sb_bytes else zeros.
Proof.
  intros Hk. rw /vw /blank. cbn [k_img]. change 1%nat with (Z.to_nat 1). rw dblk_insert; [rw length_replicate /FSSIZE; lia|lia|]. case_decide; [done|].
  rw /dblk. apply lookup_total_replicate_2. lia.
Qed.
Lemma length_sb_block : length (splice zeros 0 sb_bytes) = Z.to_nat BSIZE.
Proof. by vm_compute. Qed.
Lemma image_blank : image (mkMk blank 1 nmeta) [].
Proof.
  split; [|by rw /= /total /= Z.add_0_r]. split.
  - split; cbn [k_img k_freeblock].
    + by rw /blank length_insert length_replicate.
    + intros k Hk. rw vw_blank //. case_decide; [exact length_sb_block|apply length_replicate].
    + rw nmeta_eq /FSSIZE. lia.
    + intros k Hk. rw nmeta_eq in Hk. rw vw_blank; [lia|]. by rewrite -> decide_False by lia.
  - done.
  - done.
  - by rw vw_blank.
  - by rw vw_blank.
  - intros j t c Hj. done.
  - intros j j' k Hj. simpl in Hj. lia.
Qed.

Lemma root_made s : image s [] → ∃ s1 s2 s3, ialloc T_DIR s = Ok (1, s1) ∧ iappend 1 (mk_dirent 1 [DOT]) s1 = Ok (tt, s2) ∧
  iappend 1 (mk_dirent 1 [DOT; DOT]) s2 = Ok (tt, s3) ∧ image s3 (image_files []).
Proof.
  intros Im. destruct (image_ialloc s [] T_DIR Im) as (s1 & E1 & Im1); [by vm_compute|done|].
  destruct (image_append s1 [(T_DIR, [])] 0 T_DIR [] (mk_dirent 1 [DOT]) Im1 eq_refl) as (s2 & E2 & Im2); [by vm_compute|by vm_compute|].
  destruct (image_append s2 [(T_DIR, mk_dirent 1 [DOT])] 0 T_DIR (mk_dirent 1 [DOT]) (mk_dirent 1 [DOT; DOT]) Im2 eq_refl) as (s3 & E3 & Im3); [by vm_compute|by vm_compute|].
  by exists s1, s2, s3.
Qed.

(** What the end of [main] does to the image: the root's size and the bitmap. *)
Record closed (s s' : mk) (size : Z) : Prop := {
  cl_len : length (k_img s') = Z.to_nat FSSIZE;
  cl_blk k : 0 ≤ k < FSSIZE → length (vw s' k) = Z.to_nat BSIZE;
  cl_view k : 0 ≤ k < 32 ∨ nmeta ≤ k → vw s' k = vw s k;
  cl_bitmap : vw s' 58 = balloc_bits (Z.to_nat (k_freeblock s)) 0 zeros;
  cl_root : kin (vw s') 1 = set_isize size (kin (vw s) 1);
  cl_inode i : 2 ≤ i < NINODES → kin (vw s') i = kin (vw s) i;
}.

Lemma length_balloc_bits k : ∀ i d, length (balloc_bits k i d) = length d.
Proof. induction k as [|k IH]; intros i d; [done|]. by rw /= IH length_set_bit. Qed.

Lemma main_end s fl c :
  image s ((T_DIR, c) :: fl) → let size := (Z.of_nat (length c) / BSIZE + 1) * BSIZE in
  ∃ s1 s2, winode 1 (set_isize size (kin (vw s) 1)) s = Ok (tt, s1) ∧ k_freeblock s1 = k_freeblock s ∧ balloc (k_freeblock s1) s1 = Ok (tt, s2) ∧ closed s s2 size.
Proof.
  intros [Fs Hfb] size. pose proof (fo_img _ _ Fs) as I. pose proof (io_fb _ I) as Hf. pose proof (fo_file _ _ Fs 0 T_DIR c eq_refl) as (HD & Ht & _ & Hsz & F).
  change (1 + Z.of_nat 0) with 1 in HD, Ht, Hsz, F. pose proof (fd_c _ _ _ _ _ _ F) as Hc. pose proof (fd_m _ _ _ _ _ _ F) as Hm. rw MAXFILE_eq /BSIZE in Hc, Hm.
  destruct (winode_ok s 1 (set_isize size (kin (vw s) 1)) I) as (s1 & E1 & W); [done| |].
  { destruct HD as [[D1 D2 D3 D4 D5 D6 D7] HD]. split; [split; simpl; try done; rw /size /BSIZE; dlia|]. by rw {1}HD. }
  pose proof (ip_fb _ _ _ _ W) as Hfb1. pose proof (ip_ok _ _ _ _ W) as I1. rw nmeta_eq /FSSIZE in Hf.
  exists s1, (set_img (<[Z.to_nat 58 := balloc_bits (Z.to_nat (k_freeblock s1)) 0 zeros]> (k_img s1)) s1). split; [done|]. split; [done|].
  split; [rw /balloc; rewrite -> (proj2 (Z.ltb_lt _ _)) by (rw /BSIZE Hfb1; lia); by apply wsect_ok|]. set (s2 := set_img _ s1).
  assert (img_ok s2) as I2 by (apply img_ok_insert; [done|lia|by rw length_balloc_bits length_replicate]).
  assert (∀ k, 0 ≤ k → vw s2 k = if decide (k = 58) then balloc_bits (Z.to_nat (k_freeblock s1)) 0 zeros else vw s1 k) as Hv by (intros k Hk; rw /s2 vw_insert //).
  assert (∀ i, 0 ≤ i < NINODES → kin (vw s2) i = kin (vw s1) i) as Hkin.
  { intros i Hi. apply kin_same; [done|]. intros k Hk. rw Hv; [lia|]. by rewrite -> decide_False by lia. }
  split.
  - exact (io_len _ I2).
  - exact (io_blk _ I2).
  - intros k Hk. rw nmeta_eq in Hk. rw Hv; [lia|]. rewrite -> decide_False by lia. apply (ip_view _ _ _ _ W). lia.
  - rw Hv; [lia|]. rewrite -> decide_True by done. by rw Hfb1.
  - rw Hkin //. exact (ip_this _ _ _ _ W).
  - intros i Hi. rw Hkin; [lia|]. apply (ip_other _ _ _ _ W); lia.
Qed.

Lemma main_ok l :
  fits l → ∃ s s', main l mk0 = Ok (tt, s') ∧ image s (image_files l) ∧ closed s s' ((Z.of_nat (length (dir_data l)) / BSIZE + 1) * BSIZE).
Proof.
  intros F. rw /main modify_bind. change (clear_blocks (Z.to_nat FSSIZE) 0) with (clear_blocks 1000 (Z.of_nat 0)).
  mgo (clear_blocks_ok 1000 0 (mkMk (k_img mk0) (k_freeinode mk0) nmeta) eq_refl ltac:(lia)).
  set (s0 := set_img _ _). assert (wsect 1 (splice zeros 0 sb_bytes) s0 = Ok (tt, mkMk blank 1 nmeta)) as E0 by done. mgo E0.
  destruct (root_made _ image_blank) as (s1 & s2 & s3 & E1 & E2 & E3 & Im3). mgo E1. change (negb (1 =? ROOTINO)) with false. cbv iota. change (xshort 1) with 1.
  mgo E2. mgo E3. destruct (add_files_ok l [] s3 Im3 F) as (s4 & E4 & Im4). mgo E4.
  mgo (rinode_ok s4 1 (fo_img _ _ (proj1 Im4)) ltac:(rw /NINODES; lia)).
  destruct (main_end s4 _ (dir_data l) Im4) as (s5 & s6 & E5 & Hfb & E6 & C).
  pose proof (fo_file _ _ (proj1 Im4) 0 T_DIR (dir_data l) eq_refl) as (_ & _ & _ & Hsz & _). change (1 + Z.of_nat 0) with 1 in Hsz. rw Hsz.
  pose proof (dir_data_max l F) as Hmax. rw MAXFILE_eq /BSIZE in Hmax.
  rw (xint_small (Z.of_nat _)); [lia|]. rw xint_small; [rw /BSIZE; dlia|]. mgo E5. rw gets_bind.
  exists s4, s6. split; [exact E6|]. split; [exact Im4|exact C].
Qed.

(** ** The kernel's view *)

#[local] Instance mk_store : BlockStore lstate := log_store FSSIZE 2 LOGSIZE.

Lemma BBLOCK_mk b : 0 ≤ b < FSSIZE → BBLOCK b sb = 58.
Proof.
  intros Hb. rw /FSSIZE in Hb. rw /BBLOCK (u32_small b); [lia|]. change (sb_bmapstart sb) with 58. change BPB with 4096. rewrite -> Z.div_small by lia. done.
Qed.
Lemma mk_geom : geom sb.
Proof.
  assert (∀ i, 0 ≤ i < 200 → 32 ≤ IBLOCK i sb < 58) as Hi by exact IBLOCK_range. assert (∀ b, 0 ≤ b < 1000 → BBLOCK b sb = 58) as Hb by exact BBLOCK_mk.
  split.
  1,2,4,5,6: by vm_compute.
  - rw /st_home /= /FSSIZE. change LOGSIZE with 30. lia.
  - intros b H. rw (Hb b H) /st_home /= /FSSIZE. change LOGSIZE with 30. lia.
  - intros i H. specialize (Hi i H). rw /st_home /= /FSSIZE. change LOGSIZE with 30. lia.
  - intros b i H H'. rw (Hb b H). specialize (Hi i H'). lia.
  - intros b H. by rw (Hb b H).
  - intros i H. specialize (Hi i H). lia.
Qed.
Lemma not_meta b : nmeta ≤ b → ¬ meta sb b.
Proof.
  rw nmeta_eq. intros Hb [->|[->|[(b' & Hb' & ->)|(i & Hi & ->)]]]; [lia|lia| |].
  - rw BBLOCK_mk // in Hb.
  - pose proof (IBLOCK_range i Hi). lia.
Qed.

Lemma balloc_bits_ok k : ∀ i d j, bitmap_ok d → 0 ≤ i → i + Z.of_nat k ≤ BPB → 0 ≤ j < BPB →
  bit_set (balloc_bits k i d) j = if decide (i ≤ j < i + Z.of_nat k) then true else bit_set d j.
Proof.
  induction k as [|k IH]; intros i d j Hd Hi Hk Hj; cbn [balloc_bits]; [by rewrite -> decide_False by lia|].
  rw IH //; [by rw /bitmap_ok length_set_bit|lia|lia|]. rw bit_set_set //; [lia|]. repeat case_decide; try done; lia.
Qed.
Lemma bit_set_zeros j : bit_set zeros j = false.
Proof.
  rw /bit_set /byte_at. destruct (zeros !! Z.to_nat (j / 8)) as [x|] eqn:E; [|done]. apply lookup_replicate in E as [-> _]. done.
Qed.

(** An inode as [ilock] reads it. *)
Definition dinode_of (v : Z → block) (i : Z) : inode := load_dinode (v (IBLOCK i sb)) (dinode_off i) (mkInode 1 i 1 (mkSl true 1) true 0 0 0 0 0 []).

Lemma image_byte v p fb m i c pos : fdat v p fb m i c → 0 ≤ pos < MAXFILE * BSIZE → fbyte v p pos = default 0 (c !! Z.to_nat pos).
Proof.
  intros F Hpos. rw MAXFILE_eq /BSIZE in Hpos. rw /fbyte /fdata. set (bn := pos / BSIZE). assert (0 ≤ bn < MAXFILE) as Hbn by (rw MAXFILE_eq /bn /BSIZE; dlia).
  assert (Z.to_nat (pos mod BSIZE) < Z.to_nat BSIZE)%nat as Ho by (rw /BSIZE; dlia).
  assert (Z.to_nat (bn * BSIZE) + Z.to_nat (pos mod BSIZE) = Z.to_nat pos)%nat as Hp by (rw /bn /BSIZE; dlia).
  destruct (decide (bn < m)) as [Hm|Hm].
  - pose proof (fd_in _ _ _ _ _ _ F bn ltac:(lia)) as Hr. rw nmeta_eq in Hr. rewrite -> (proj2 (Z.eqb_neq _ _)) by lia. rw (fd_data _ _ _ _ _ _ F); [lia|].
    apply list_lookup_total_correct. by rw lookup_cblock // Hp.
  - rw (fd_out _ _ _ _ _ _ F); [lia|]. simpl. rw (lookup_ge_None_2 c); [pose proof (fd_c _ _ _ _ _ _ F) as H; rw /bn in Hm; rw /BSIZE in H, Hm; dlia|].
    by apply lookup_total_replicate_2.
Qed.
Lemma image_range v p fb m i c pre d post :
  fdat v p fb m i c → c = pre ++ d ++ post → frange v p (Z.of_nat (length pre)) (Z.of_nat (length d)) = d.
Proof.
  intros F Hc. pose proof (fd_c _ _ _ _ _ _ F) as H1. pose proof (fd_m _ _ _ _ _ _ F) as H2. rw Hc !length_app /BSIZE in H1.
  apply list_eq. intros k. rw /frange list_lookup_fmap. destruct (decide (k < length d)%nat) as [Hk|Hk].
  - rewrite -> lookup_seqZ_lt by lia. simpl. rw (image_byte v p fb m i c); [done|rw MAXFILE_eq /BSIZE in H2 |- *; lia|].
    replace (Z.to_nat (Z.of_nat (length pre) + (0 + Z.of_nat k))) with (length pre + k)%nat by lia. rw Hc lookup_app_r; [lia|]. rw lookup_app_l; [lia|].
    replace (length pre + k - length pre)%nat with k by lia. by destruct (lookup_lt_is_Some_2 d k Hk) as [x ->].
  - rewrite -> lookup_seqZ_ge by lia. simpl. symmetry. apply lookup_ge_None_2. lia.
Qed.

Section view.
Context (s s' : mk) (l : list arg).
Hypothesis Im : image s (image_files l).
Hypothesis C : closed s s' ((Z.of_nat (length (dir_data l)) / BSIZE + 1) * BSIZE).
Let v := vw s'.

Lemma used_iff b : 0 ≤ b < FSSIZE → used sb v b ↔ b < k_freeblock s.
Proof.
  intros Hb. pose proof (io_fb _ (fo_img _ _ (proj1 Im))) as Hf. rw nmeta_eq /FSSIZE in Hf. rw /FSSIZE in Hb.
  rw /used BBLOCK_mk // /v (cl_bitmap _ _ _ C). change BPB with 4096. rewrite -> Z.mod_small by lia.
  rw balloc_bits_ok; [by rw /bitmap_ok length_replicate|lia|change BPB with 4096; lia|change BPB with 4096; lia|].
  rw bit_set_zeros. case_decide; split; try done; lia.
Qed.

Lemma image_fswf : fswf sb v.
Proof.
  split.
  - intros k [Hk _]. by apply (cl_blk _ _ _ C).
  - intros b Hb. change (sb_size sb) with FSSIZE in Hb. rw used_iff //. intros Hu. pose proof (io_fb _ (fo_img _ _ (proj1 Im))) as Hf.
    split; [|apply not_meta; lia]. rw nmeta_eq in Hf. split; [done|]. change (2 + LOGSIZE) with 32. lia.
  - rw /v (cl_view _ _ _ C); [lia|]. rw (fo_sb _ _ (proj1 Im)). by vm_compute.
Qed.

Lemma image_dok b : nmeta ≤ b < k_freeblock s → dok sb v b.
Proof.
  intros Hb. pose proof (io_fb _ (fo_img _ _ (proj1 Im))) as Hf. rw nmeta_eq /FSSIZE in Hf. pose proof (not_meta b ltac:(lia)) as Hm. rw nmeta_eq in Hb. split.
  - change (sb_size sb) with 1000. lia.
  - apply used_iff; [rw /FSSIZE|]; lia.
  - done.
  - split; [rw /FSSIZE; lia|]. change (2 + LOGSIZE) with 32. lia.
Qed.

Lemma image_iwf p m i c : fdat v p (k_freeblock s) m i c → i_dev p = 1 → iwf sb v p.
Proof.
  intros F Hd. assert (∀ bn, 0 ≤ bn < MAXFILE → iblk v p bn ≠ 0 → 0 ≤ bn < m) as Hin.
  { intros bn Hbn Hn. destruct (decide (bn < m)); [lia|]. exfalso. apply Hn, (fd_out _ _ _ _ _ _ F). lia. }
  split.
  - exact (fd_len _ _ _ _ _ _ F).
  - done.
  - intros Hn. apply image_dok. pose proof (fd_ind _ _ _ _ _ _ F) as H. by destruct i.
  - intros bn Hbn Hn. apply image_dok. apply (fd_in _ _ _ _ _ _ F). by apply Hin.
  - intros bn bn' Hbn Hbn' Hn E. apply (fd_inj _ _ _ _ _ _ F); [by apply Hin| |done]. apply Hin; [done|congruence].
  - intros bn Hbn Hn E. destruct (decide (bn < m)); [by apply (fd_ne _ _ _ _ _ _ F bn); [lia|]|]. apply Hn. rw -E. apply (fd_out _ _ _ _ _ _ F). lia.
Qed.

(** The inode of a file, and what it holds. *)
Lemma image_inode j t c :
  image_files l !! j = Some (t, c) → let p := dinode_of v (1 + Z.of_nat j) in
  i_type p = t ∧ i_nlink p = 1 ∧ fdat v p (k_freeblock s) (whole (Z.of_nat (length c))) (12 <? whole (Z.of_nat (length c))) c ∧
  i_size p = if decide (j = 0%nat) then (Z.of_nat (length c) / BSIZE + 1) * BSIZE else Z.of_nat (length c).
Proof.
  intros Hj p. pose proof (fo_file _ _ (proj1 Im) j t c Hj) as (_ & Ht & Hn & Hsz & F). assert (j < length (image_files l))%nat as Hl by by eapply lookup_lt_Some.
  pose proof (fo_n _ _ (proj1 Im)) as HN. set (q := kin v (1 + Z.of_nat j)).
  assert (i_type p = i_type q ∧ i_nlink p = i_nlink q ∧ i_size p = i_size q ∧ i_addrs p = i_addrs q) as (P1 & P2 & P3 & P4) by done.
  assert (q = if decide (j = 0%nat) then set_isize ((Z.of_nat (length c) / BSIZE + 1) * BSIZE) (kin (vw s) (1 + Z.of_nat j)) else kin (vw s) (1 + Z.of_nat j)) as Hq.
  { case_decide as E; [|apply (cl_inode _ _ _ C); lia]. subst j. injection Hj as <- <-. exact (cl_root _ _ _ C). }
  assert (fdat v q (k_freeblock s) (whole (Z.of_nat (length c))) (12 <? whole (Z.of_nat (length c))) c) as Fq.
  { apply (fdat_addrs _ (kin (vw s) (1 + Z.of_nat j))); [rw Hq; by case_decide|].
    by apply (fdat_meta (vw s)); [intros k Hk; apply (cl_view _ _ _ C); lia|]. }
  split; [rw P1 Hq; by case_decide|]. split; [rw P2 Hq; by case_decide|]. split; [by apply (fdat_addrs _ q)|]. rw P3 Hq. by case_decide.
Qed.

Lemma image_file i a :
  l !! i = Some a → let p := dinode_of v (2 + Z.of_nat i) in
  iwf sb v p ∧ nohole v p ∧ i_type p = T_FILE ∧ i_nlink p = 1 ∧ i_size p = Z.of_nat (length (arg_data a)) ∧ frange v p 0 (i_size p) = arg_data a.
Proof.
  intros Hi p. destruct (image_inode (S i) T_FILE (arg_data a)) as (Ht & Hn & F & Hsz).
  { change (image_files l !! S i) with (((λ a, (T_FILE, arg_data a)) <$> l) !! i). by rw list_lookup_fmap Hi. }
  replace (1 + Z.of_nat (S i)) with (2 + Z.of_nat i) in Ht, Hn, F, Hsz by lia. fold p in Ht, Hn, F, Hsz. rewrite -> decide_False in Hsz by done.
  split; [by apply (image_iwf p _ _ _ F)|]. split; [|do 3 (split; [done|])].
  - intros bn Hbn Hlt. rw Hsz in Hlt. pose proof (fd_in _ _ _ _ _ _ F bn) as H. rw nmeta_eq in H. assert (59 ≤ iblk v p bn < k_freeblock s); [|lia]. apply H. rw /whole /BSIZE in Hlt |- *. dlia.
  - rw Hsz. apply (image_range v p _ _ _ _ [] _ [] F). by rw app_nil_r.
Qed.
End view.

Lemma dir_data_app l1 l2 : ∃ post, dir_data (l1 ++ l2) = dir_data l1 ++ post.
Proof. rw /dir_data. rewrite -> imap_app, concat_app, !app_assoc. by eexists. Qed.
Lemma dir_data_entry l i a : l !! i = Some a → ∃ pre post, dir_data l = pre ++ mk_dirent (2 + Z.of_nat i) (arg_name a) ++ post ∧ length pre = (16 * (2 + i))%nat.
Proof.
  intros Hi. assert (i < length l)%nat as Hl by by eapply lookup_lt_Some. exists (dir_data (take i l)).
  destruct (dir_data_app (take (S i) l) (drop (S i) l)) as [post Hp]. rw take_drop in Hp. rewrite -> (take_S_r l i a Hi), dir_data_snoc in Hp.
  exists post. split; [by rewrite -> Hp, length_take, Nat.min_l, app_assoc by lia|]. by rewrite -> length_dir_data, length_take, Nat.min_l by lia.
Qed.

(** What the kernel finds: a well-formed file system with every file in the root directory. *)
Record kernel_image (v : Z → block) (l : list arg) : Prop := {
  ki_fs : fswf sb v;
  ki_root : let r := dinode_of v ROOTINO in
    iwf sb v r ∧ i_type r = T_DIR ∧ i_nlink r = 1 ∧ dentry v r 0 = mk_dirent ROOTINO [DOT] ∧ dentry v r 1 = mk_dirent ROOTINO [DOT; DOT];
  ki_entry i a : l !! i = Some a → let r := dinode_of v ROOTINO in
    2 + Z.of_nat i < nentries r ∧ dentry v r (2 + Z.of_nat i) = mk_dirent (2 + Z.of_nat i) (arg_name a);
  ki_rest j : 2 + Z.of_nat (length l) ≤ j < nentries (dinode_of v ROOTINO) → ¬ in_use v (dinode_of v ROOTINO) j;
  ki_file i a : l !! i = Some a → let p := dinode_of v (2 + Z.of_nat i) in
    iwf sb v p ∧ nohole v p ∧ i_type p = T_FILE ∧ i_nlink p = 1 ∧ i_size p = Z.of_nat (length (arg_data a)) ∧ frange v p 0 (i_size p) = arg_data a;
}.

Section root.
Context (v : Z → block) (r : inode) (fb m : Z) (i : bool) (l : list arg).
Hypothesis F : fdat v r fb m i (dir_data l).
Hypothesis Hsz : i_size r = (Z.of_nat (length (dir_data l)) / BSIZE + 1) * BSIZE.
Hypothesis Hn : Z.of_nat (length l) + 1 < NINODES.

Lemma root_entries : nentries r = 32 * (Z.of_nat (2 + length l) / 32 + 1).
Proof. rw /nentries Hsz length_dir_data /BSIZE /DIRENT. dlia. Qed.
Lemma root_entry j inum name pre post :
  dir_data l = pre ++ mk_dirent inum name ++ post → length pre = (16 * j)%nat → dentry v r (Z.of_nat j) = mk_dirent inum name.
Proof.
  intros Hd Hp. rw /dentry. pose proof (image_range v r fb m i _ pre _ post F Hd) as H. rewrite -> length_mk_dirent, Hp in H.
  change (Z.of_nat (Z.to_nat DIRENT)) with DIRENT in H. rw /DIRENT in H |- *. by replace (16 * Z.of_nat j) with (Z.of_nat (16 * j)) by lia.
Qed.
Lemma root_rest j : 2 + Z.of_nat (length l) ≤ j < nentries r → ¬ in_use v r j.
Proof.
  rw root_entries. intros Hj Hu. apply Hu. pose proof Hn as HN. rw /NINODES in HN.
  assert (dentry v r j = replicate 16 0) as ->; [|done]. rw /dentry /frange. apply list_eq. intros k. rw list_lookup_fmap. change DIRENT with 16.
  destruct (decide (k < 16)%nat) as [Hk|Hk].
  - rewrite -> lookup_seqZ_lt by lia. simpl. rw (image_byte v r fb m i (dir_data l)); [done|rw MAXFILE_eq /BSIZE; dlia|].
    rw lookup_ge_None_2; [rw length_dir_data; lia|]. symmetry. by apply (lookup_replicate_2 16 0 k).
  - rewrite -> lookup_seqZ_ge by lia. simpl. symmetry. apply lookup_ge_None_2. simpl. lia.
Qed.
End root.

Lemma image_made l :
  fits l → ∃ s, main l mk0 = Ok (tt, s) ∧ length (k_img s) = Z.to_nat FSSIZE ∧ dblk (k_img s) 2 = zeros ∧ kernel_image (dblk (k_img s)) l.
Proof.
  intros Hf. destruct (main_ok l Hf) as (s & s' & E & Im & C). exists s'. split; [exact E|]. split; [exact (cl_len _ _ _ C)|].
  split; [transitivity (vw s 2); [apply (cl_view _ _ _ C); lia|exact (fo_log _ _ (proj1 Im))]|]. change (dblk (k_img s')) with (vw s').
  destruct (image_inode s s' l Im C 0 T_DIR (dir_data l) eq_refl) as (Ht & Hn & F & Hsz). change (1 + Z.of_nat 0) with ROOTINO in Ht, Hn, F, Hsz. rewrite -> decide_True in Hsz by done.
  pose proof (ft_n _ Hf) as HN. split.
  - exact (image_fswf s s' l Im C).
  - split; [by apply (image_iwf s s' l Im C _ _ _ _ F)|]. do 2 (split; [done|]). split.
    + eapply (root_entry _ _ _ _ _ l F 0 _ _ []); [|done]. rw app_nil_l. reflexivity.
    + eapply (root_entry _ _ _ _ _ l F 1 _ _ (mk_dirent ROOTINO [DOT])); [|done]. reflexivity.
  - intros i a Hi r. assert (i < length l)%nat as Hl by by eapply lookup_lt_Some. split; [rw (root_entries r l Hsz); clear -Hl; dlia|].
    destruct (dir_data_entry l i a Hi) as (pre & post & Hd & Hp). replace (2 + Z.of_nat i) with (Z.of_nat (2 + i)) in Hd |- * by lia. by apply (root_entry _ _ _ _ _ l F _ _ _ pre post).
  - intros j Hj. by apply (root_rest _ _ _ _ _ l F Hsz HN).
  - intros i a Hi. by apply (image_file s s' l Im C).
Qed.

(** C29. mkfs: from arguments that fit, it ends, and the image is a well-formed file system to
    the kernel: super block, bitmap and inodes as fs.c reads them, a root directory that lists
    itself, itself as its parent and every file in order and nothing else, and for each file
    an inode of its own with exactly the contents given. *)
Theorem mkfs_image l : fits l → ∃ s, main l mk0 = Ok (tt, s) ∧ length (k_img s) = Z.to_nat FSSIZE ∧ kernel_image (dblk (k_img s)) l.
Proof. intros F. destruct (image_made l F) as (s & E & L & _ & K). exists s. split; [exact E|]. split; [exact L|exact K]. Qed.

Definition ex_args : list arg := [([95; 97], Some [[1; 2; 3]; [4; 5]]); ([98], Some [])].
Lemma ex_fits : fits ex_args.
Proof.
  split.
  - intros a Ha. rw /ex_args in Ha. set_unfold in Ha. by destruct Ha as [-> | [-> | [] ] ].
  - intros a Ha. rw /ex_args in Ha. set_unfold in Ha. by destruct Ha as [-> | [-> | [] ] ].
  - done.
  - by vm_compute.
Qed.
Lemma mkfs_image_witness : ∃ s, main ex_args mk0 = Ok (tt, s) ∧ length (k_img s) = Z.to_nat FSSIZE ∧ kernel_image (dblk (k_img s)) ex_args.
Proof. apply (mkfs_image ex_args). exact ex_fits. Defined.

(** When the root's entries fill whole blocks, [main] makes its size one block larger, and
    that block is not there: the kernel would have to allocate it to read the directory. *)
Lemma mkfs_root_hole l :
  fits l → Z.of_nat (2 + length l) mod 32 = 0 →
  ∃ s, main l mk0 = Ok (tt, s) ∧ ¬ nohole (dblk (k_img s)) (dinode_of (dblk (k_img s)) ROOTINO).
Proof.
  intros Hf Hm. destruct (main_ok l Hf) as (s & s' & E & Im & C). exists s'. split; [exact E|]. change (dblk (k_img s')) with (vw s').
  destruct (image_inode s s' l Im C 0 T_DIR (dir_data l) eq_refl) as (_ & _ & F & Hsz). change (1 + Z.of_nat 0) with ROOTINO in F, Hsz. rewrite -> decide_True in Hsz by done.
  pose proof (ft_n _ Hf) as HN. rw /NINODES in HN. set (bn := Z.of_nat (length (dir_data l)) / BSIZE) in *. intros Hh.
  assert (whole (Z.of_nat (length (dir_data l))) = bn) as Hw by (rw /whole /bn length_dir_data /BSIZE; clear -Hm; dlia).
  assert (0 ≤ bn < MAXFILE) as Hbn by (rw MAXFILE_eq /bn length_dir_data /BSIZE; clear -HN; dlia).
  apply (Hh bn Hbn); [rw Hsz /BSIZE; lia|]. apply (fd_out _ _ _ _ _ _ F). lia.
Qed.
