(* ===== verification/MkfsBoot.v ===== *)
(** * The kernel starts on an image of mkfs

    The first process runs [forkret], which reads the super block and recovers the log.  On
    an image that mkfs made, this ends, and opening and reading any of the image's files then
    gives the contents that mkfs was given. *)

From S2P Require Import Prelude Params Bytes Bio BioSpec Log LogSpec Tx Fs FsSpec FsFile Files FsDir FsPath Mkfs MkfsSpec MkfsImage.

#[local] Instance boot_store : BlockStore lstate := log_store FSSIZE 2 LOGSIZE.
Abbreviation fs := (@fstate lstate unit).

(** What [forkret] does the first time it runs, in the first process. *)
Definition forkret_first : M fs unit :=
  iinit ROOTDEV ;;
  st (initlog ROOTDEV).
(** The kernel's state before that: [binit] has been called, and the inode cache is zero. *)
Definition inode_zero : inode := mkInode 0 0 0 (mkSl false 0) false 0 0 0 0 0 (replicate 13 0).
Definition fs_boot (z : block) (img : list block) : fs :=
  mkFs (boot_log z img 1) (mkSb 0 0 0 0 0 0 0) (replicate (Z.to_nat NINODE) inode_zero) tt 1 0.
(** Opening an inode and reading from it, in an operation. *)
Definition read_file (devsw : Z → devops fs) (inum n : Z) : M fs (Z * list Z) :=
  st begin_op ;;
  ip ← iget ROOTDEV inum;
  ilock (Some ip) ;;
  readi devsw ip 0 n.

(** ** Starting *)

#[local] Opaque binit.

Lemma st_bio {A} (m : M bstate A) (s : fs) a b : m (ls_bio (f_st s)) = Ok (a, b) → st (bio m) s = Ok (a, set_st (set_bio b (f_st s)) s).
Proof. intros E. by rw /st /bio /lift E. Qed.

(** The log of the image is empty. *)
Record log_empty (d : list block) : Prop := {
  le_len : length d = Z.to_nat FSSIZE;
  le_sb : decode_sb (dblk d 1) = sb;
  le_head : dblk d 2 = zeros;
}.
Lemma head_n_zeros : head_n zeros = 0.
Proof. vm_compute. reflexivity. Qed.
Lemma log_empty_head d : log_empty d → head_ok 2 LOGSIZE d.
Proof.
  intros [_ _ H]. split; rewrite -> H, head_n_zeros; [by change LOGSIZE with 30|intros j Hj; lia|intros j Hj; lia|intros i j Hi; lia].
Qed.
Lemma log_empty_recover d : log_empty d → run (recover_writes 2 d) d = d.
Proof.
  intros [L _ H]. rw /recover_writes. rewrite -> H, head_n_zeros. change (put32 zeros 0 0) with zeros. cbn [seq fmap list_fmap app run].
  apply list_insert_id. rw -H /dblk. apply list_lookup_lookup_total_lt. rw L /FSSIZE. lia.
Qed.

Lemma length_zeros : length zeros = Z.to_nat BSIZE.
Proof. apply length_replicate. Qed.
#[local] Opaque zeros.
Lemma started z d : log_empty d →
  ∃ ls, (st (bio binit) ;; forkret_first) (fs_boot z d) =
      Ok (tt, mkFs ls sb (replicate (Z.to_nat NINODE) inode_zero) tt 1 0) ∧ log_idle FSSIZE 2 LOGSIZE ls (dblk d).
Proof.
  intros E. pose proof E as [L S1 H]. destruct (binit_rep z d 1) as (b0 & E0 & R0 & V0 & D0 & M0 & H0).
  assert (crep b0 ∅) as C0 by (split; [by eexists|]; intros i _ _; by rw V0 D0).
  destruct (read_block_ok b0 ∅ 1 C0) as (x & b1 & b2 & E1 & E2 & E3 & C2 & W2 & M2 & V2).
  { rw /in_disk D0 L /FSSIZE. lia. }
  { pose proof size_empty_lt_nbuf. lia. }
  assert (bs_disk b2 = d) as D2 by by rw (proj1 W2) /= D0.
  assert (view b0 1 = dblk d 1) as Vsb by exact (V0 1).
  assert (st (bio binit) (fs_boot z d) = Ok (tt, set_st (set_bio b0 (boot_log z d 1)) (fs_boot z d))) as EB by exact (st_bio _ (fs_boot z d) _ _ E0).
  mgo EB. rw /forkret_first /iinit bind_assoc modify_bind /fs_readsb !bind_assoc.
  assert (set_ilock initsleeplock <$> replicate (Z.to_nat NINODE) inode_zero = replicate (Z.to_nat NINODE) inode_zero) as HR by by rw fmap_replicate.
  cbn [f_inode set_st fs_boot]. rw HR. set (s1 := set_inodes _ _).
  mgo (st_bio (bread 1 1) s1 x b1 E1). set (s2 := set_st _ s1). rw !bind_assoc. mgo (st_bio (getb x b_data) s2 _ b1 E2). rw bind_assoc modify_bind.
  set (s3 := set_sb _ _). mgo (st_bio (brelse x) s3 _ b2 E3).
  destruct (initlog_run (set_bio b2 (boot_log z d 1)) d 2 LOGSIZE) as (b' & bl & E4 & C4 & D4 & Lbl);
    [exact C2|exact D2|apply length_replicate|rw /sb_log S1; split; reflexivity|lia|change LOGSIZE with 30; lia|rw L /FSSIZE; change LOGSIZE with 30; lia|rw L /FSSIZE; lia|exact (log_empty_head d E)|].
  set (ls := set_lh 0 bl _) in E4. set (s4 := set_st _ s3). exists ls. split.
  - transitivity (Ok (tt, set_st ls s4)); [exact (st_Ok' (initlog 1) s4 tt ls E4)|]. rw /s4 /s3 /set_sb /= Vsb S1. reflexivity.
  - clear E0 E1 E2 E3 EB. assert (log_inv ls) as I.
    { apply (recovered_inv _ b' bl d 2 LOGSIZE C4 D4 Lbl); [lia|change LOGSIZE with 30; lia|rw L /FSSIZE; change LOGSIZE with 30; lia|rw L /FSSIZE; lia|exact (log_empty_head d E)|].
      rw H. exact length_zeros. }
    rw (log_empty_recover d E) in D4. clear E4. split; try reflexivity; [exact I| |].
    + rw /ls /= D4 L. reflexivity.
    + intros k _. rw /ls /= D4. reflexivity.
Qed.

(** ** Opening a file *)

Lemma iget_scan_none l dev inum : Forall (λ p, i_ref p = 0) l → ∀ i e, iget_scan l dev inum i (Some e) = inr (Some e).
Proof. induction 1 as [|p l Hp _ IH]; intros i e; [done|]. cbn [iget_scan]. rw Hp. change (0 <? 0) with false. apply IH. Qed.
Lemma iget_fresh (s : fs) dev inum p l :
  f_inode s = p :: l → Forall (λ p, i_ref p = 0) (p :: l) →
  iget dev inum s = Ok (0%nat, set_inodes (set_ivalid false (set_iref 1 (set_iid dev inum p)) :: l) s).
Proof.
  intros Hs Hf. rw /iget gets_bind Hs. pose proof Hf as [Hp Hl]%Forall_cons. cbn [iget_scan]. rw Hp. change (0 <? 0) with false. cbn [andb Z.eqb]. rw iget_scan_none //. rw /updi modify_bind. by rw Hs.
Qed.

Lemma frange_take v p n len c : frange v p 0 len = c → 0 ≤ n ≤ len → frange v p 0 n = take (Z.to_nat n) c.
Proof.
  intros Hc Hn. rw -Hc. replace len with (n + (len - n)) by lia. rw frange_app; [lia|lia|]. rewrite -> take_app_length'; [done|]. by rw /frange length_fmap length_seqZ.
Qed.

Lemma read_opened (devsw : Z → devops fs) ls v l i a n :
  kernel_image v l → l !! i = Some a → Z.of_nat (length l) + 1 < NINODES → Z.of_nat (length (arg_data a)) ≤ MAXFILE * BSIZE → 0 ≤ n < 4294967296 →
  st_rep ls ∅ ∅ ∅ v →
  ∃ s', (ip ← iget ROOTDEV (2 + Z.of_nat i); ilock (Some ip) ;; readi devsw ip 0 n) (mkFs ls sb (replicate (Z.to_nat NINODE) inode_zero) tt 1 0) =
    Ok ((Z.min n (Z.of_nat (length (arg_data a))), take (Z.to_nat n) (arg_data a)), s').
Proof.
  intros K Hi Hl Hmax Hn R. destruct (ki_file _ _ K i a Hi) as (W & Hh & Ht & _ & Hsz & Hc). set (inum := 2 + Z.of_nat i) in *. set (p := dinode_of _ inum) in *.
  assert (i < length l)%nat as Hil by by eapply lookup_lt_Some. assert (0 ≤ inum < NINODES) as Hin by lia. pose proof (IBLOCK_range inum Hin) as Hb.
  change (replicate (Z.to_nat NINODE) inode_zero) with (inode_zero :: replicate 49 inode_zero).
  assert (Forall (λ p, i_ref p = 0) (inode_zero :: replicate 49 inode_zero)) as HF.
  { constructor; [done|]. by apply Forall_replicate. }
  mgo (iget_fresh (mkFs ls sb _ tt 1 0) ROOTDEV inum inode_zero (replicate 49 inode_zero) eq_refl HF). set (s1 := set_inodes _ _).
  assert ((0 < length (f_inode s1))%nat) as H0 by (simpl; lia).
  destruct (ilock_reads s1 0 ∅ v H0 R) as (t & E & R'); [done|done|done|done|change st_blocks with FSSIZE; rw /FSSIZE; change (f_sb s1) with sb; change (i_inum (f_inode s1 !!! 0%nat)) with inum; lia|pose proof size_empty_lt_nbuf; lia| |].
  { change (i_type p ≠ 0). by rw Ht. }
  mgo E. set (s2 := set_inodes _ _). assert (f_inode s2 !!! 0%nat = p) as Hp by done.
  destruct (opened_read sb devsw s2 0 ∅ v 0 n) as (t2 & _ & E2); [|lia|done|pose proof size_empty_lt_nbuf; lia|].
  { split; rw ?Hp; try done; [exact mk_geom|exact (ki_fs _ _ K)|by rw Ht|rw Hsz; lia]. }
  rw E2 Hp. rewrite -> (proj2 (Z.ltb_ge _ _)), (proj2 (Z.leb_gt _ _)) by lia. cbn [orb].
  assert (read_len (i_size p) 0 n = Z.min n (Z.of_nat (length (arg_data a)))) as -> by (rw /read_len -Hsz; destruct (Z.ltb_spec (i_size p) (0 + n)); lia).
  eexists. do 3 f_equal. rw (frange_take v p _ (i_size p) (arg_data a) Hc); [lia|]. destruct (decide (n ≤ i_size p)).
  - by replace (Z.min n (Z.of_nat (length (arg_data a)))) with n by lia.
  - rw !take_ge //; lia.
Qed.

(** C14. The kernel reads what mkfs wrote: from arguments that fit, mkfs ends; the kernel that
    starts on its image recovers the log, finds the super block, and opening the inode of any
    file and reading [n] bytes returns the first [n] bytes of the contents the file was given,
    or all of them. *)
Theorem mkfs_boot_reads devsw l i a n z :
  fits l → l !! i = Some a → 0 ≤ n < 4294967296 →
  ∃ s s', main l mk0 = Ok (tt, s) ∧
    (st (bio binit) ;; forkret_first ;; read_file devsw (2 + Z.of_nat i) n) (fs_boot z (k_img s)) =
      Ok ((Z.min n (Z.of_nat (length (arg_data a))), take (Z.to_nat n) (arg_data a)), s').
Proof.
  intros F Hi Hn. destruct (image_made l F) as (s & E & L & H2 & K). exists s.
  destruct (started z (k_img s)) as (ls & E1 & Id). { split; [exact L|exact (fw_sb _ _ (ki_fs _ _ K))|exact H2]. }
  destruct (st_begin_ok (TxStore := log_txstore FSSIZE 2 LOGSIZE) ls _ Id) as (ls' & E2 & R).
  destruct (read_opened devsw ls' _ l i a n K Hi (ft_n _ F)) as (s' & E3); [|done|exact R|].
  { apply (ft_size _ F). by eapply list_elem_of_lookup_2. }
  exists s'. split; [exact E|]. rw -bind_assoc. mgo E1. rw /read_file.
  assert (∀ s0 : fs, f_st s0 = ls → st begin_op s0 = Ok (tt, set_st ls' s0)) as EB by (intros s0 Hs0; apply st_Ok'; rw Hs0; exact E2).
  mgo (EB (mkFs ls sb (replicate (Z.to_nat NINODE) inode_zero) tt 1 0) eq_refl). exact E3.
Qed.
Lemma mkfs_boot_reads_witness :
  ∃ s s', main ex_args mk0 = Ok (tt, s) ∧
    (st (bio binit) ;; forkret_first ;; read_file no_dev 2 100) (fs_boot [] (k_img s)) = Ok ((5, [1; 2; 3; 4; 5]), s').
Proof. apply (mkfs_boot_reads no_dev ex_args 0 ([95; 97], Some [[1; 2; 3]; [4; 5]]) 100 []); [exact ex_fits|reflexivity|split; lia]. Defined.
